(* ===== verification/_CoqProject ===== *)
-Q . S2P
Prelude.v
Common.v
Msg.v
Format.v
Float32.v
Metric.v
Memory.v
Param.v
ParamProps.v
ParamUpdate.v
Updater.v
UpdaterProps.v
Server.v
ServerProps.v
Cluster.v
ClusterProps.v
ClusterRT.v
ZkTree.v
ClusterRTProps.v
Tool.v
Stub.v
SliceProps.v
StubProps.v
StubServer.v
Routing.v
Router.v
Sockets.v
Graph.v
GraphProps.v
GraphEdit.v
DataShard.v
DataShardProps.v
Worker.v
WorkerProps.v
WorkerThrough.v
LayerConf.v
NeuralNet.v
NeuralNetProps.v
Layers.v
NetLayers.v
LayersProps.v
NetLayersProps.v
Texts.v
LayerCompute.v
Mshadow.v
MshadowProps.v
MshadowImages.v
LayerMath.v
LayerMathProps.v
LayerLinear.v
InnerProductProps.v
ActivationProps.v
LRNProps.v
NetCompute.v
LossProps.v
RBMProps.v
ConvolutionProps.v
ConvolutionGrad.v
LayerIO.v
WorkerVis.v
ParamInit.v
NetStep.v
Registry.v
LayerIOProps.v
Startup.v
StartupProps.v
TesterStub.v
DataLayerProps.v
SliceLayerProps.v
LayerShapes.v
