(* ===== verification/Prelude.v ===== *)
(** * Apache SINGA: a verification of the parameter server and of the nets it trains

    SINGA trains neural nets on a cluster.  Each process of a job has worker threads, which
    run partitions of a net; server threads, which keep the slices of the parameters and
    apply the updaters; and a stub (the main thread, class [Trainer]), which cuts the
    parameters into slices and routes the messages between its workers, its servers and
    the other processes.  This development models that C++ code (src/src/communication,
    neuralnet, trainer and utils, with their headers under src/include) as executable
    functions, and proves what it promises and where it does not keep its promises.

    ** Conventions

    A call is a function to [outcome]: a value, a failed CHECK or LOG(FATAL) ([Fatal]), an
    exception ([Throw]), undefined behaviour ([Undef]) or exhausted fuel.  State is passed
    explicitly.  An [int] is a [Z] with overflow checked ([iadd], [imul], [int_ret]) or wrapped
    ([wrap32]) as the code does; a byte is a [Z] below 256, a [float] its 32 bits (Float32, on
    the Standard Library's SpecFloat).  Objects are numbers that refer to a store, so that
    aliasing is modelled: bytes, SyncedMemory and Blob objects ([heap], Memory), Param objects and
    the server's map of slices ([world], Server), layers ([nstate], Layers), nodes ([Graph]).
    The build is the repository's, -DCPU_ONLY.

    ** Files, and the code they model

    - Prelude: outcomes, integers, bytes, lists, shared automation.
    - Common (utils/common.cc: gcd, LeastCommonMultiple, Slice, PartitionSlices), Metric
      (class Metric of utils/common.cc).
    - Msg, Format (communication/msg.h, msg.cc): addresses, messages, format frames; Router
      (communication/socket.cc: Router); Sockets (the same file: dealers, pollers, binding).
    - Float32; Memory (utils/blob.h, blob.cc): memory, SyncedMemory, Blob.
    - Param, ParamProps, ParamUpdate (utils/param.h, param.cc); Updater, UpdaterProps
      (utils/updater.cc).
    - Server, ServerProps (trainer/server.cc); Cluster, ClusterProps (utils/cluster.cc and
      CreateServers, CreateWorkers of trainer/trainer.cc); Stub, SliceProps, StubProps,
      Routing (the rest of trainer/trainer.cc); StubServer: the two together.
    - ClusterRT (utils/cluster_rt.h, cluster_rt.cc: the runtime and the job manager, and
      Register and endpoint of utils/cluster.cc), ZkTree (a tree of nodes that is a
      ZooKeeper), ClusterRTProps.
    - Graph, GraphProps, GraphEdit (utils/graph.cc); DataShard, DataShardProps
      (utils/data_shard.cc).
    - Worker, WorkerProps (trainer/worker.cc); WorkerThrough: the worker with its stub and
      with other workers; WorkerVis: what it extracts for visualisation.
    - LayerConf (job.proto); NeuralNet, NeuralNetProps (neuralnet/neuralnet.cc: the
      configuration of a phase and the partitioned graph); NetLayers, NetLayersProps (the same
      file: the layers made from the graph, and the sharing of their params).
    - Layers, LayersProps (neuralnet/base_layer.cc, layer.cc: layer objects and Setup);
      LayerCompute (the same files: computations), with its properties in DataLayerProps,
      SliceLayerProps and LayerShapes.
    - Mshadow, MshadowProps, MshadowImages (include/mshadow: tensors, expressions, reductions
      on the CPU); LayerMath, LayerMathProps (neuralnet/layer.cc: the layers that compute with
      them), LayerLinear (tensors in memory, the law of BLAS), ActivationProps, LRNProps,
      InnerProductProps, ConvolutionProps, ConvolutionGrad, LossProps, RBMProps: the layers one by one; NetCompute:
      the worker's batch with the layers' own computations; NetStep: the same with a worker that updates
      its params; LayerIO, LayerIOProps (the same file and base_layer.cc: loss, input, output, the
      parser of RGB images, prefetching, the extraction of params and features).
    - ParamInit (InitValues of utils/param.cc, the sampling of mshadow/tensor_random.h); Registry
      (utils/factory.h, utils/singleton.h and what RegisterDefaultClasses registers).
    - Startup, StartupProps (Resume, SetupWorkerServer and Start of trainer/trainer.cc,
      trainer/tester.cc, SubmitJob of singa.h); TesterStub (the rest of trainer/tester.cc: its copies of
      the stub's members, and its own loop).
    - Tool (utils/tool.cc: singatool); Texts (what is printed of a graph and of a net).

    Definitions have the names of the code; a method of several classes is prefixed with the
    class, and a loop or a branch that became a function of its own is named for what it does.

    ** What is shown

    - Messages: headers and frames survive the wire (Msg, Format); addresses are packed and
      unpacked without loss; the router delivers what it buffered, in order (Router).
    - Slices: Slice cuts every parameter into positive pieces, PartitionSlices returns
      when the pieces fit a box each and otherwise runs until the int that numbers the boxes overflows,
      and the two composed can fail (Common); after SliceParams the slices
      of the net tile its parameters (SliceProps).
    - The protocol: each handler on each of its branches (ParamProps, ParamUpdate, ServerProps,
      StubProps), and end to end: a put ends with all slices at their servers; in a round of updates
      the stubs of several processes merge the gradients of their workers, the server updates
      the slice once, and the stubs put the new values into the workers' store (StubServer); a request leaves the stub as one message per slice (Routing), a worker that
      waits goes on when the last answer is handled, and a bridge layer's blob arrives
      (WorkerThrough).  The server is proved against the class [UpdaterLaws], which SGD
      implements (UpdaterProps); the messages against the class [CzmqLaws], which the module
      ListCzmq implements; the worker against the class [Layers].
    - Placement: servers and workers are created and looked up where the topology puts them,
      unless their keys collide (ClusterProps).
    - Runtime: the processes of a job get consecutive ids and find each other's addresses, the
      servers of a group are called once, at the first event that finds its folder empty, with watches
      that fire once and events that come at any times, and cleaning removes the nodes it should
      (ClusterRTProps, against the class [ZkLaws], which the tree of ZkTree satisfies).
    - Nets: Sort returns a topological order of an acyclic graph and diverges on a cycle
      (GraphProps); edits keep graphs well-formed (GraphEdit); an unpartitioned net has the
      nodes and edges of its configuration, up to split layers (NeuralNetProps); the objects
      made from it have params with ids of their own (NetLayersProps).
    - Layers: batches go round the shard and parsers fill their blobs (DataLayerProps); a slice
      layer gives each destination its part (SliceLayerProps); slices and concatenation are
      inverse on shapes, and an inner product has the shapes it needs (LayerShapes); a pooling
      layer takes the maximum or the mean of exactly its windows and gives each pixel the
      gradients of exactly the windows it lies in (LayerMathProps); the inner product and the
      convolution layers compute what their definitions say, in both directions and writing
      nothing else, over any matrix product that keeps the class [BlasLaws], which a textbook's
      product implements (InnerProductProps, ConvolutionProps, ConvolutionGrad); ReLU and Tanh map
      their function over the values, and dropout masks them by its draws (ActivationProps); local
      response normalisation sums over exactly the neighbouring channels, whatever [norm_region] it is
      configured with (LRNProps); the loss layer's
      loss, accuracy and gradient, and the parser of RGB images outside of training (LayerIOProps,
      LossProps); the probabilities and samples of a restricted Boltzmann machine, and the gradients of
      contrastive divergence (RBMProps).
    - A batch: the worker's passes over layers that keep their duties end with values that solve the
      equations of all the layers at once, which inner product, ReLU and Tanh layers do; with a split
      or a concatenation layer, no pass ends (NetCompute).  A worker with an updater of its own ends the
      batch with every param updated from the value and the gradient that solved these equations;
      its updater keeps the class [LocalUpdater], as SGD without momentum does (NetStep).
    - Tensors: cropping undoes padding, mirroring is its own inverse, the patches of a
      convolution and their transpose (MshadowImages), with the index arithmetic of
      [unsigned int] (MshadowProps).
    - Params: the values a param starts with, as the code's cases have them (which job.proto documents
      otherwise for some), its version, and that nothing
      else changes (ParamInit, against the class [RngLaws] of the C++ library's distributions).
    - Start: what the factories make (Registry); the threads of a job and the net each of them trains on,
      the keys of the stub's shard, and that no job is ever resumed (StartupProps); where the stub of a
      tester differs from that of a trainer (TesterStub); the ids of jobs (Tool).
    - Files: tuples inserted in a shard are read back, also behind a crash (DataShardProps);
      checkpoints restore values and versions (WorkerProps); the features of a layer are
      collected in whole batches until there are enough (WorkerVis); metrics survive their message
      (Metric).

    ** Fuel

    gcd has fuel above the absolute value of its argument and the inner loop of Slice x / avg + 3, which
    the lemmas of Common show is enough.  The loop of PartitionSlices may open as many boxes as an
    int numbers: it has INT_MAX plus the number of slices plus one turns ([loop_for], whose fuel is
    binary), and each turn takes a slice or increments that int, so it never runs out.  Sort has n * n + 1 for n nodes, enough for every acyclic graph.
    PrepareForAppend and Count take the fuel as an argument, and one turn more than there
    are tuples is enough.  The blobs of a chain of bridge layers are found with as much fuel as
    there are layers, Setup with the nesting of prefetch layers.  CleanPath takes its fuel as an
    argument, and the depth of the tree is enough.  The worker's waiting loops run
    on the list of what the other threads do while it sleeps.

    ** Outside of the model

    CZMQ ([Czmq], and lists of messages in Router), ZooKeeper ([ZooKeeper], without failures of
    the connection in its laws, and nobody else acting between the calls of one operation), pow
    ([Libm]), the functions of a float ([Mathf]), products of matrices ([Blas]: CBLAS' sgemm),
    protobuf's encoding and the file system ([Files], [BlobProto], [MetricProto]), the order of
    an unordered_map ([MapOrder]), rand and the generators of random numbers ([Rng]), what the
    input layer finds at each poll and the measured bandwidth (arguments) are parameters.

    ** Not modelled

    - Of mshadow: what no layer uses, SSE and CUDA; tensors are evaluated before they are
      stored, which is the same as long as the operands do not overlap in part.
    - ZeroMQ's sockets themselves, threads: the interleavings are sequences of steps
      (Routing, Router) or inputs (Worker); a prefetching thread has done its work when it is
      joined (LayerIO).
    - Destructors: memory that a shared_ptr releases is not reclaimed.
    - main.cc, logging, and of what only prints ToLogString and DebugString; the measurement of the
      bandwidth and the waiting for other processes to register.
    - GPU code, tools of other authors, the rest of the vendored code (gtest, tinydir) and generated code. *)

From stdpp Require Export base option gmap list strings numbers.
From Stdlib Require Export ZArith Lia.
From Stdlib Require String Ascii.

#[export] Set Default Goal Selector "!".
Open Scope Z_scope.

(** ** Outcomes of a C++ call

    [Ok] is a normal return.  [Fatal] is a glog [CHECK]/[LOG(FATAL)] abort.
    [Throw] is an exception of the standard library (mostly
    [std::out_of_range], raised by [.at]).  [Undef] is undefined
    behaviour (signed overflow, an access past the end of an array, a null or
    dangling pointer).  [OutOfFuel] only says that a loop was given too few
    iterations by the model; a loop that does not terminate is one that gives
    [OutOfFuel] for every fuel. *)
Inductive outcome (A : Type) : Type :=
| Ok (a : A)
| Fatal
| Throw
| Undef
| OutOfFuel.
Arguments Ok {A} a.
Arguments Fatal {A}.
Arguments Throw {A}.
Arguments Undef {A}.
Arguments OutOfFuel {A}.

#[export] Instance outcome_ret : MRet outcome := @Ok.
#[export] Instance outcome_bind : MBind outcome := fun A B f m =>
  match m with
  | Ok a => f a
  | Fatal => Fatal
  | Throw => Throw
  | Undef => Undef
  | OutOfFuel => OutOfFuel
  end.
#[export] Instance outcome_fmap : FMap outcome := fun A B f m =>
  match m with
  | Ok a => Ok (f a)
  | Fatal => Fatal
  | Throw => Throw
  | Undef => Undef
  | OutOfFuel => OutOfFuel
  end.
#[export] Instance outcome_eq_dec `{EqDecision A} : EqDecision (outcome A).
Proof. solve_decision. Defined.

Definition is_ok {A} (m : outcome A) : bool :=
  match m with Ok _ => true | _ => false end.

(** [CHECK(b)] of glog. *)
Definition CHECK (b : bool) : outcome unit := if b then Ok tt else Fatal.
Lemma CHECK_holds b : b = true -> CHECK b = Ok tt.
Proof. by intros ->. Qed.

(** [v[i]] and [v.at(i)] on a vector, with an [int] index. *)
Definition idx {A} (l : list A) (i : Z) : outcome A :=
  if 0 <=? i then match l !! Z.to_nat i with Some x => Ok x | None => Undef end
  else Undef.
Definition vec_at {A} (l : list A) (i : Z) : outcome A :=
  if 0 <=? i then match l !! Z.to_nat i with Some x => Ok x | None => Throw end
  else Throw.
(** [v[i] = x]. *)
Definition set_idx {A} (l : list A) (i : Z) (x : A) : outcome (list A) :=
  if (0 <=? i) && (i <? Z.of_nat (length l)) then Ok (<[Z.to_nat i := x]> l)
  else Undef.
(** A pointer or an optional read that must be there. *)
Definition deref {A} (o : option A) : outcome A :=
  match o with Some a => Ok a | None => Undef end.
(** [map.at(k)]. *)
Definition map_at {A} (o : option A) : outcome A :=
  match o with Some a => Ok a | None => Throw end.

Lemma bind_Ok_inv {A B} (m : outcome A) (f : A -> outcome B) b :
  m ≫= f = Ok b -> exists a, m = Ok a /\ f a = Ok b.
Proof. destruct m; try discriminate. eauto. Qed.

Lemma bind_Ok {A B} (a : A) (f : A -> outcome B) : Ok a ≫= f = f a.
Proof. reflexivity. Qed.

Lemma deref_Some {A} (a : A) : deref (Some a) = Ok a.
Proof. reflexivity. Qed.

Lemma bind_assoc {A B C} (m : outcome A) (f : A -> outcome B) (g : B -> outcome C) :
  (m ≫= f) ≫= g = m ≫= (fun a => f a ≫= g).
Proof. by destruct m. Qed.

Lemma CHECK_Ok b u : CHECK b = Ok u -> b = true.
Proof. by destruct b. Qed.

Lemma idx_lookup {A} (l : list A) i x :
  l !! i = Some x -> idx l (Z.of_nat i) = Ok x.
Proof.
  intros H. unfold idx. rewrite Nat2Z.id, H.
  by destruct (Z.leb_spec 0 (Z.of_nat i)); [|lia].
Qed.

Lemma vec_at_lookup {A} (l : list A) i x :
  l !! i = Some x -> vec_at l (Z.of_nat i) = Ok x.
Proof.
  intros H. unfold vec_at. rewrite Nat2Z.id, H.
  by destruct (Z.leb_spec 0 (Z.of_nat i)); [|lia].
Qed.

Lemma set_idx_Ok {A} (l : list A) i x :
  0 <= i < Z.of_nat (length l) -> set_idx l i x = Ok (<[Z.to_nat i := x]> l).
Proof.
  intros H. unfold set_idx.
  destruct (Z.leb_spec 0 i), (Z.ltb_spec i (Z.of_nat (length l))); simpl; done || lia.
Qed.

(** Splits a hypothesis [m ≫= f = Ok b] into its steps. *)
Ltac inv_ok H :=
  let a := fresh "a" in let E := fresh "E" in
  apply bind_Ok_inv in H; destruct H as (a & E & H).
Ltac inv_oks :=
  repeat match goal with
  | H : _ ≫= _ = Ok _ |- _ => inv_ok H
  | H : Ok _ = Ok _ |- _ => injection H as H
  | H : Fatal = Ok _ |- _ => discriminate H
  | H : Throw = Ok _ |- _ => discriminate H
  | H : Undef = Ok _ |- _ => discriminate H
  | H : OutOfFuel = Ok _ |- _ => discriminate H
  | H : CHECK _ = Ok _ |- _ => apply CHECK_Ok in H
  end.

(** ** Loops with a binary fuel

    A loop whose number of turns is bounded by the width of an [int] rather than
    by its data has a positive as fuel: [turns n] runs at most [n] turns
    of the body and stops at the first that returns, and [turns_nat] is the same
    by induction. *)
Section loops.
Context {S R : Type} (turn : S -> outcome (S + R)).

Definition again (k : S -> outcome (S + R)) (r : S + R) : outcome (S + R) :=
  match r with inl s => k s | inr r => Ok (inr r) end.

Fixpoint turns (n : positive) (s : S) : outcome (S + R) :=
  match n with
  | xH => turn s
  | xO n => turns n s ≫= again (turns n)
  | xI n => turn s ≫= again (fun s => turns n s ≫= again (turns n))
  end.

Definition returned (r : S + R) : outcome R :=
  match r with inl _ => OutOfFuel | inr r => Ok r end.
Definition loop_for (n : positive) (s : S) : outcome R := turns n s ≫= returned.

Fixpoint turns_nat (n : nat) (s : S) : outcome (S + R) :=
  match n with
  | O => Ok (inl s)
  | Datatypes.S n => turn s ≫= again (turns_nat n)
  end.

Lemma turns_nat_add a b s : turns_nat (a + b) s = turns_nat a s ≫= again (turns_nat b).
Proof.
  revert s. induction a as [|a IH]; intros s; [done|]. simpl.
  destruct (turn s) as [[s'|r]| | | |]; try done. simpl. apply IH.
Qed.

Lemma turns_turns_nat n s : turns n s = turns_nat (Pos.to_nat n) s.
Proof.
  revert s. induction n as [n IH|n IH|]; intros s; simpl turns.
  - rewrite Pos2Nat.inj_xI. simpl turns_nat.
    destruct (turn s) as [[s'|r]| | | |]; try done. simpl.
    replace (Pos.to_nat n + (Pos.to_nat n + 0))%nat
      with (Pos.to_nat n + Pos.to_nat n)%nat by lia.
    rewrite turns_nat_add, <- IH. destruct (turns n s') as [[s2|r]| | | |]; try done.
    simpl. apply IH.
  - rewrite Pos2Nat.inj_xO.
    replace (2 * Pos.to_nat n)%nat with (Pos.to_nat n + Pos.to_nat n)%nat by lia.
    rewrite turns_nat_add, <- IH. destruct (turns n s) as [[s2|r]| | | |]; try done.
    simpl. apply IH.
  - simpl. destruct (turn s) as [[s'|r]| | | |]; done.
Qed.

Lemma loop_for_nat n s : loop_for n s = turns_nat (Pos.to_nat n) s ≫= returned.
Proof. unfold loop_for. by rewrite turns_turns_nat. Qed.
End loops.

(** ** C [int]: 32-bit two's complement

    Additions, multiplications and divisions of [int] that overflow are
    undefined; conversions to [int] and the shifts that build addresses wrap,
    as the compilers SINGA supports define them. *)
Definition INT_MIN : Z := - 2 ^ 31.
Definition INT_MAX : Z := 2 ^ 31 - 1.
Definition in_int (z : Z) : bool := (INT_MIN <=? z) && (z <=? INT_MAX).
Definition int_ret (z : Z) : outcome Z := if in_int z then Ok z else Undef.
Definition wrap32 (z : Z) : Z := (z + 2 ^ 31) mod 2 ^ 32 - 2 ^ 31.
Definition wrap64 (z : Z) : Z := (z + 2 ^ 63) mod 2 ^ 64 - 2 ^ 63.
Definition u32 (z : Z) : Z := z mod 2 ^ 32.
Definition u64 (z : Z) : Z := z mod 2 ^ 64.

Lemma in_int_spec z : in_int z = true <-> INT_MIN <= z <= INT_MAX.
Proof. unfold in_int. rewrite andb_true_iff, !Z.leb_le. done. Qed.

Lemma int_ret_Ok z : INT_MIN <= z <= INT_MAX -> int_ret z = Ok z.
Proof. intros H. unfold int_ret. by rewrite (proj2 (in_int_spec z) H). Qed.

Lemma int_ret_inv z v : int_ret z = Ok v -> v = z /\ INT_MIN <= z <= INT_MAX.
Proof.
  unfold int_ret. destruct (in_int z) eqn:E; [|done].
  intros [= <-]. by rewrite <- in_int_spec.
Qed.

(** The operations of [int]. *)
Definition iadd (a b : Z) : outcome Z := int_ret (a + b).
Definition isub (a b : Z) : outcome Z := int_ret (a - b).
Definition imul (a b : Z) : outcome Z := int_ret (a * b).
Definition idiv (a b : Z) : outcome Z := if b =? 0 then Undef else Ok (Z.quot a b).
Definition imod (a b : Z) : outcome Z := if b =? 0 then Undef else Ok (Z.rem a b).
Lemma idiv_Ok a b : 0 <= a -> 0 < b -> idiv a b = Ok (a / b).
Proof.
  intros Ha Hb. unfold idiv. destruct (Z.eqb_spec b 0); [lia|]. f_equal.
  apply Z.quot_div_nonneg; lia.
Qed.
Lemma imod_Ok a b : 0 <= a -> 0 < b -> imod a b = Ok (a mod b).
Proof.
  intros Ha Hb. unfold imod. destruct (Z.eqb_spec b 0); [lia|]. f_equal.
  apply Z.rem_mod_nonneg; lia.
Qed.

Lemma wrap32_id z : INT_MIN <= z <= INT_MAX -> wrap32 z = z.
Proof. unfold INT_MIN, INT_MAX, wrap32. intros H. rewrite Z.mod_small; lia. Qed.

Lemma wrap32_range z : INT_MIN <= wrap32 z <= INT_MAX.
Proof.
  unfold INT_MIN, INT_MAX, wrap32.
  pose proof (Z.mod_pos_bound (z + 2 ^ 31) (2 ^ 32)). lia.
Qed.

Lemma wrap32_mod z : wrap32 (z mod 2 ^ 32) = wrap32 z.
Proof. unfold wrap32. by rewrite Z.add_mod_idemp_l by lia. Qed.

(** Disjoint bit fields: [or] is [+]. *)
Lemma lor_pow2 a b k : 0 <= k -> 0 <= b < 2 ^ k -> Z.lor (a * 2 ^ k) b = a * 2 ^ k + b.
Proof.
  intros Hk Hb. rewrite <- Z.add_lor_land.
  enough (Z.land (a * 2 ^ k) b = 0) by lia.
  rewrite <- (Z.mod_small b (2 ^ k)), <- Z.land_ones, <- Z.shiftl_mul_pow2 by lia.
  rewrite (Z.land_comm b), Z.land_assoc, (Z.land_comm _ (Z.ones k)), <- Z.land_assoc.
  rewrite Z.shiftl_mul_pow2, Z.land_assoc, (Z.land_comm (Z.ones k)), Z.land_ones by lia.
  by rewrite Z.mod_mul, Z.land_0_l by lia.
Qed.

(** ** Bytes: a byte is a [Z]; little-endian encodings of machine words *)
Fixpoint le_split (n : nat) (z : Z) : list Z :=
  match n with
  | O => []
  | S n => z mod 256 :: le_split n (z / 256)
  end.
Fixpoint le_combine (bs : list Z) : Z :=
  match bs with
  | [] => 0
  | b :: bs => b + 256 * le_combine bs
  end.

Lemma length_le_split n z : length (le_split n z) = n.
Proof. revert z; induction n; intros; simpl; auto. Qed.

Lemma le_combine_split n z : le_combine (le_split n z) = z mod 2 ^ (8 * Z.of_nat n).
Proof.
  revert z. induction n as [|n IH]; intros z; simpl le_split; simpl le_combine.
  - by rewrite Z.mod_1_r.
  - rewrite IH. replace (8 * Z.of_nat (S n)) with (8 + 8 * Z.of_nat n) by lia.
    rewrite Z.pow_add_r, Z.rem_mul_r by lia. done.
Qed.

Lemma le_combine_split_small n z :
  0 <= z < 2 ^ (8 * Z.of_nat n) -> le_combine (le_split n z) = z.
Proof. intros H. rewrite le_combine_split. by apply Z.mod_small. Qed.

Lemma wrap32_le_split z : wrap32 (le_combine (le_split 4 z)) = wrap32 z.
Proof. rewrite le_combine_split. apply wrap32_mod. Qed.

Definition bytes_of_string (s : string) : list Z :=
  map (fun c => Z.of_N (Ascii.N_of_ascii c)) (String.list_ascii_of_string s).
Definition string_of_bytes (bs : list Z) : string :=
  String.string_of_list_ascii (map (fun b => Ascii.ascii_of_N (Z.to_N b)) bs).

Lemma string_of_bytes_of_string s : string_of_bytes (bytes_of_string s) = s.
Proof.
  unfold string_of_bytes, bytes_of_string. rewrite map_map.
  rewrite (map_ext _ id); [|intros c; by rewrite N2Z.id, Ascii.ascii_N_embedding].
  by rewrite map_id, String.string_of_list_ascii_of_string.
Qed.

#[export] Instance bytes_of_string_inj : Inj (=) (=) bytes_of_string.
Proof.
  intros s t H. rewrite <- (string_of_bytes_of_string s), H.
  apply string_of_bytes_of_string.
Qed.

Lemma length_bytes_of_string s : length (bytes_of_string s) = String.length s.
Proof.
  unfold bytes_of_string. rewrite length_map.
  induction s; simpl; auto.
Qed.

(** ** Lists *)

(** The sum of a list of sizes. *)
Definition zsum (l : list Z) : Z := foldr Z.add 0 l.

Lemma zsum_app l k : zsum (l ++ k) = zsum l + zsum k.
Proof. induction l; simpl in *; lia. Qed.

Lemma zsum_nonneg l : Forall (Z.le 0) l -> 0 <= zsum l.
Proof. induction 1; simpl; lia. Qed.

Lemma zsum_concat ll : zsum (concat ll) = zsum (map zsum ll).
Proof. induction ll; simpl; [done|]. by rewrite zsum_app, IHll. Qed.

Lemma foldl_add_zsum l a : foldl Z.add a l = a + zsum l.
Proof. revert a; induction l; intros; simpl in *; [lia|]. rewrite IHl. lia. Qed.

Lemma take_drop_app_length {A} (l k : list A) n :
  n = length l -> take n (l ++ k) = l /\ drop n (l ++ k) = k.
Proof. intros ->. by rewrite take_app_length, drop_app_length. Qed.

(** ** Automation shared by the components *)
Create HintDb singa.
Create Rewrite HintDb singa_rw.
#[export] Hint Rewrite length_le_split le_combine_split length_bytes_of_string
  zsum_app @bind_Ok @deref_Some : singa_rw.
#[export] Hint Resolve wrap32_range : singa.

(** Case analysis on the boolean comparisons of a goal or a hypothesis. *)
Ltac bcase :=
  repeat match goal with
  | |- context [?a <=? ?b] => destruct (Z.leb_spec a b)
  | |- context [?a <? ?b] => destruct (Z.ltb_spec a b)
  | |- context [?a =? ?b] => destruct (Z.eqb_spec a b)
  | H : context [?a <=? ?b] |- _ => destruct (Z.leb_spec a b)
  | H : context [?a <? ?b] |- _ => destruct (Z.ltb_spec a b)
  | H : context [?a =? ?b] |- _ => destruct (Z.eqb_spec a b)
  end.

(** Lengths of concatenations and updates. *)
Ltac len_lia :=
  repeat (rewrite ?length_app, ?length_map, ?length_replicate, ?length_insert,
            ?length_le_split; simpl length); lia.
