(* ===== verification/Common.v ===== *)
(** * utils/common.cc: integer helpers and the parameter slicer

    [gcd], [LeastCommonMultiple], [Slice] and [PartitionSlices].  [Slice] cuts
    the parameters of a model into pieces for [num] boxes; [PartitionSlices]
    assigns a box to every piece.  [SliceParams] (Stub.v) runs the first on the
    least common multiple of the number of server groups and of servers per
    group, and the trainer runs the second twice, once per group and once per
    server.  The loops carry fuel, and the lemmas show that the fuel the definitions
    pass is enough: the loop that opens boxes ends at the latest when the
    [int] that numbers them overflows. *)

From S2P Require Import Prelude.

(** ** gcd and lcm *)

Fixpoint gcd (fuel : nat) (a b : Z) : outcome Z :=
  match fuel with
  | O => OutOfFuel
  | S fuel =>
      if a =? 0 then Ok b
      else
        let b := Z.rem b a in
        if b =? 0 then Ok a
        else gcd fuel (Z.rem a b) b
  end.

Definition gcd_fuel (a b : Z) : nat := S (Z.to_nat (Z.abs a)).

Definition LeastCommonMultiple (a b : Z) : outcome Z :=
  temp ← gcd (gcd_fuel a b) a b;
  if temp =? 0 then Ok 0 else int_ret (Z.quot a temp * b).

Lemma gcd_correct fuel a b :
  0 <= a -> 0 <= b -> a < Z.of_nat fuel -> gcd fuel a b = Ok (Z.gcd a b).
Proof.
  revert a b. induction fuel as [|fuel IH]; intros a b Ha Hb Hf; [lia|].
  simpl. destruct (Z.eqb_spec a 0) as [->|Hn].
  { rewrite Z.gcd_0_l. f_equal. lia. }
  rewrite Z.rem_mod_nonneg by lia.
  pose proof (Z.mod_pos_bound b a ltac:(lia)) as Hm.
  pose proof (Z.gcd_mod b a Hn) as Hg.
  destruct (Z.eqb_spec (b mod a) 0) as [E|E].
  { rewrite E, Z.gcd_0_l in Hg. f_equal. lia. }
  rewrite Z.rem_mod_nonneg by lia.
  pose proof (Z.mod_pos_bound a (b mod a) ltac:(lia)) as Hm2.
  rewrite IH by lia. f_equal.
  by rewrite Z.gcd_mod, Hg by lia.
Qed.

Lemma LeastCommonMultiple_correct a b :
  0 <= a -> 0 <= b -> Z.lcm a b <= INT_MAX -> LeastCommonMultiple a b = Ok (Z.lcm a b).
Proof.
  intros Ha Hb Hm. unfold LeastCommonMultiple, gcd_fuel.
  rewrite gcd_correct by lia. rewrite bind_Ok.
  pose proof (Z.lcm_nonneg a b) as Hp.
  destruct (Z.eqb_spec (Z.gcd a b) 0) as [E|E].
  { apply Z.gcd_eq_0 in E as [-> ->]. done. }
  assert (Z.quot a (Z.gcd a b) * b = Z.lcm a b) as ->.
  { pose proof (Z.gcd_nonneg a b). rewrite Z.quot_div_nonneg by lia.
    unfold Z.lcm in *.
    rewrite <- (Z.divide_div_mul_exact b (Z.gcd a b) a), Z.mul_comm by
      (lia || apply Z.gcd_divide_r).
    rewrite <- Z.divide_div_mul_exact, Z.mul_comm by (lia || apply Z.gcd_divide_l).
    rewrite Z.abs_eq; [done|]. apply Z.div_pos; nia. }
  apply int_ret_Ok. unfold INT_MIN, INT_MAX in *. lia.
Qed.

(** ** Slice *)

Section slice.
Variables (avg diff : Z).

(** The body of the [while (x > 0)] loop on [(x, capacity, nbox)]: the piece
    cut in this iteration (0 for none) and the new values. *)
Definition slice_body (x capacity nbox : Z) : outcome (Z * Z * Z * Z) :=
  if x <=? capacity then Ok (x, 0, capacity - x, nbox)
  else
    reach ← int_ret (capacity + diff);
    if x <=? reach then Ok (x, 0, 0, nbox)
    else
      nbox ← int_ret (nbox + 1);
      Ok (if diff <=? capacity then (capacity, x - capacity, avg, nbox)
          else (0, x, avg, nbox)).

Fixpoint slice_while (fuel : nat) (x capacity nbox : Z) (slice : list Z)
    : outcome (list Z * Z * Z) :=
  match fuel with
  | O => OutOfFuel
  | S fuel =>
      if 0 <? x then
        '(size, x, capacity, nbox) ← slice_body x capacity nbox;
        slice_while fuel x capacity nbox
          (if size =? 0 then slice else slice ++ [size])
      else Ok (slice, capacity, nbox)
  end.

Definition slice_fuel (x : Z) : nat := (Z.to_nat (x / avg) + 3)%nat.

(** The [for] loop over the parameter sizes. *)
Fixpoint slice_params (sizes : list Z) (capacity nbox : Z)
    : outcome (list (list Z) * Z) :=
  match sizes with
  | [] => Ok ([], nbox)
  | x :: sizes =>
      '(slice, capacity, nbox) ← slice_while (slice_fuel x) x capacity nbox [];
      '(slices, nbox) ← slice_params sizes capacity nbox;
      Ok (slice :: slices, nbox)
  end.
End slice.

(** [for (int x : v) avg += x], then [avg / num + avg % num]. *)
Definition sum_int (v : list Z) : outcome Z :=
  foldl (fun acc x => acc ≫= fun a => int_ret (a + x)) (Ok 0) v.
Definition box_avg (num total : Z) : Z := Z.quot total num + Z.rem total num.
Definition box_diff (avg : Z) : Z := Z.quot avg 10.

Definition Slice (num : Z) (sizes : list Z) : outcome (list (list Z)) :=
  if num =? 0 then Ok []
  else
    total ← sum_int sizes;
    avg ← int_ret (box_avg num total);
    '(slices, nbox) ← slice_params avg (box_diff avg) sizes avg 0;
    _ ← CHECK (nbox <=? num);
    Ok slices.

(** ** PartitionSlices *)

(** One turn of the [for] loop over the slices, on the iterator (what is left
    from it on), [box], [boxid] and [slice2box]: the iterator only moves when the
    slice is placed, otherwise the next box is opened and the slice is looked
    at again. *)
Definition partition_turn (avg diff : Z) (s : list Z * Z * Z * list Z)
    : outcome (list Z * Z * Z * list Z + list Z) :=
  let '(it, box, boxid, slice2box) := s in
  match it with
  | [] => Ok (inr slice2box)
  | x :: it' =>
      if x <=? box then Ok (inl (it', box - x, boxid, slice2box ++ [boxid]))
      else
        reach ← int_ret (box + diff);
        if x <=? reach then Ok (inl (it', 0, boxid, slice2box ++ [boxid]))
        else boxid ← int_ret (boxid + 1); Ok (inl (it, avg, boxid, slice2box))
  end.

(** Every turn moves the iterator or increments [boxid]. *)
Definition partition_fuel (slices : list Z) : positive :=
  Z.to_pos (INT_MAX + Z.of_nat (length slices) + 1).

Definition partition_loop (avg diff : Z) (slices : list Z) : outcome (list Z) :=
  loop_for (partition_turn avg diff) (partition_fuel slices) (slices, avg, 0, []).

Definition PartitionSlices (num : Z) (slices : list Z) : outcome (list Z) :=
  if num =? 0 then Ok []
  else
    total ← sum_int slices;
    avg ← int_ret (box_avg num total);
    slice2box ← partition_loop avg (box_diff avg) slices;
    _ ← CHECK (Z.of_nat (length slice2box) =? Z.of_nat (length slices));
    Ok slice2box.

(** ** Facts about the sums and the box size *)

Lemma sum_int_from_Ok v a :
  Forall (Z.le 0) v -> 0 <= a -> a + zsum v <= INT_MAX ->
  foldl (fun acc x => acc ≫= fun a => int_ret (a + x)) (Ok a) v = Ok (a + zsum v).
Proof.
  intros Hv. revert a. induction Hv as [|x v Hx Hv IH]; intros a Ha Hs.
  { simpl. f_equal. lia. }
  simpl foldl. simpl in Hs. pose proof (zsum_nonneg v Hv).
  rewrite int_ret_Ok by (unfold INT_MIN; lia).
  rewrite IH by lia. simpl. f_equal. lia.
Qed.

Lemma sum_int_Ok v :
  Forall (Z.le 0) v -> zsum v <= INT_MAX -> sum_int v = Ok (zsum v).
Proof. intros Hv Hs. unfold sum_int. by rewrite sum_int_from_Ok by (done || lia). Qed.

Lemma box_avg_bounds num total :
  0 < num -> 0 <= total ->
  0 <= box_avg num total <= total /\ (0 < total -> 0 < box_avg num total).
Proof.
  intros Hn Ht. unfold box_avg.
  rewrite Z.quot_div_nonneg, Z.rem_mod_nonneg by lia.
  pose proof (Z.div_mod total num ltac:(lia)).
  pose proof (Z.mod_pos_bound total num Hn).
  pose proof (Z.div_pos total num Ht Hn). nia.
Qed.

Lemma box_diff_bounds avg : 0 <= avg -> box_diff avg = avg / 10 /\ 0 <= box_diff avg <= avg.
Proof.
  intros H. unfold box_diff. rewrite Z.quot_div_nonneg by lia.
  pose proof (Z.div_pos avg 10). pose proof (Z.div_le_upper_bound avg 10 avg). lia.
Qed.

(** The prologue the two functions share: they do not overflow. *)
Lemma prologue_Ok num v :
  0 < num -> Forall (Z.le 0) v -> zsum v + zsum v / 10 <= INT_MAX ->
  let avg := box_avg num (zsum v) in
  sum_int v = Ok (zsum v) /\ int_ret avg = Ok avg /\ 0 <= avg /\
  avg + box_diff avg <= INT_MAX /\ (0 < zsum v -> 0 < avg).
Proof.
  intros Hn Hv Hm avg. pose proof (zsum_nonneg v Hv) as Hs.
  destruct (box_avg_bounds num (zsum v) Hn Hs) as [Ha Hp].
  pose proof (Z.div_pos (zsum v) 10 Hs ltac:(lia)).
  assert (avg / 10 <= zsum v / 10) by (apply Z.div_le_mono; lia).
  split; [apply sum_int_Ok; [done|lia]|].
  split; [apply int_ret_Ok; unfold INT_MIN; lia|].
  destruct (box_diff_bounds avg) as [-> _]; [lia|].
  split; [lia|]. split; [lia|done].
Qed.

(** ** Slice: every iteration makes progress *)

Section slice_proofs.
Variables (avg diff : Z).
Hypothesis (Hdiff : 0 <= diff <= avg) (Hmax : avg + diff <= INT_MAX).

Definition piece_ok (p : Z) : Prop := 0 < p <= avg + diff.

(** The boxes that hold something: no more than what was put in them. *)
Definition boxes_used (capacity nbox : Z) : Z := nbox + Z.b2z (capacity <? avg).

Lemma slice_body_spec x capacity nbox :
  0 < x -> 0 <= capacity <= avg -> 0 < avg ->
  0 <= nbox -> boxes_used capacity nbox + x <= INT_MAX ->
  exists size x' capacity' nbox',
    slice_body avg diff x capacity nbox = Ok (size, x', capacity', nbox') /\
    x = size + x' /\ 0 <= x' /\ 0 <= size <= avg + diff /\ 0 <= capacity' <= avg /\
    (x' = 0 \/ capacity' = avg /\ (capacity = avg -> size = avg)) /\
    0 <= nbox' /\ boxes_used capacity' nbox' + x' <= boxes_used capacity nbox + x.
Proof.
  intros Hx Hc Ha Hn. unfold slice_body, boxes_used. intros Hu.
  assert (Z.b2z (capacity <? avg) = 1 /\ capacity < avg \/
    Z.b2z (capacity <? avg) = 0 /\ capacity = avg) as Hb.
  { destruct (Z.ltb_spec capacity avg); simpl; lia. }
  assert (forall c, Z.b2z (c <? avg) <= 1) as Hb1.
  { intros c. destruct (c <? avg); simpl; lia. }
  assert (Z.b2z (avg <? avg) = 0) as Hb0 by (by rewrite Z.ltb_irrefl).
  destruct (Z.leb_spec x capacity).
  { do 4 eexists. split; [done|]. specialize (Hb1 (capacity - x)). lia. }
  rewrite (int_ret_Ok (capacity + diff)) by (unfold INT_MIN; lia). rewrite bind_Ok.
  destruct (Z.leb_spec x (capacity + diff)).
  { do 4 eexists. split; [done|]. specialize (Hb1 0). lia. }
  rewrite (int_ret_Ok (nbox + 1)) by (unfold INT_MIN; lia). rewrite bind_Ok.
  destruct (Z.leb_spec diff capacity); do 4 eexists; (split; [done|]); lia.
Qed.

(** [slice_while] cuts [x] into legal pieces and leaves a legal capacity; it
    opens no more boxes than there is to put in them, up to [used]. *)
Definition slices_to (used x : Z) (r : outcome (list Z * Z * Z)) (acc : list Z) : Prop :=
  exists ps capacity nbox, r = Ok (acc ++ ps, capacity, nbox) /\
    zsum ps = x /\ Forall piece_ok ps /\ 0 <= capacity <= avg /\
    0 <= nbox /\ boxes_used capacity nbox <= used.

Lemma slice_while_done used fuel x capacity nbox acc :
  x = 0 -> 0 <= capacity <= avg -> 0 <= nbox -> boxes_used capacity nbox <= used ->
  slices_to used x (slice_while avg diff (S fuel) x capacity nbox acc) acc.
Proof.
  intros -> Hc Hn Hu. exists [], capacity, nbox. simpl. rewrite app_nil_r.
  by repeat split; try lia; constructor.
Qed.

Lemma slice_while_step used fuel x capacity nbox acc :
  0 < x -> 0 <= capacity <= avg -> 0 < avg ->
  0 <= nbox -> boxes_used capacity nbox + x <= used -> used <= INT_MAX ->
  (forall x' c' n' acc', 0 <= x' <= x -> 0 <= c' <= avg ->
     x' = 0 \/ c' = avg /\ (capacity = avg -> x' = x - avg) ->
     0 <= n' -> boxes_used c' n' + x' <= used ->
     slices_to used x' (slice_while avg diff fuel x' c' n' acc') acc') ->
  slices_to used x (slice_while avg diff (S fuel) x capacity nbox acc) acc.
Proof.
  intros Hx Hc Ha Hn Hu Hmu IH. simpl.
  destruct (Z.ltb_spec 0 x); [|lia].
  destruct (slice_body_spec x capacity nbox Hx Hc Ha Hn)
    as (size & x' & c' & n' & -> & Ex & Hx' & Hs & Hc' & Hor & Hn' & Hu'); [lia|].
  rewrite bind_Ok.
  destruct (IH x' c' n' (if size =? 0 then acc else acc ++ [size]))
    as (ps & cap & nb & -> & Hsum & Hps & Hcap & Hnb & Hub); [lia..|].
  destruct (Z.eqb_spec size 0) as [E|E].
  - exists ps, cap, nb. repeat split; try done; lia.
  - exists (size :: ps), cap, nb. rewrite <- app_assoc. simpl.
    repeat split; try done; try lia.
    constructor; [unfold piece_ok; lia|done].
Qed.

Lemma slice_while_full used fuel x nbox acc :
  0 <= x -> 0 < avg -> x / avg + 1 < Z.of_nat fuel ->
  0 <= nbox -> boxes_used avg nbox + x <= used -> used <= INT_MAX ->
  slices_to used x (slice_while avg diff fuel x avg nbox acc) acc.
Proof.
  intros Hx Ha. revert x nbox acc Hx.
  induction fuel as [|fuel IH]; intros x nbox acc Hx Hf Hn Hu Hmu.
  { pose proof (Z.div_pos x avg). lia. }
  destruct (Z.eq_dec x 0) as [->|Hne].
  { apply slice_while_done; lia. }
  apply slice_while_step; [lia..|].
  intros x' c' n' acc' Hx' Hc' [-> | [-> Hd]] Hn' Hu'.
  - destruct fuel; [|apply slice_while_done; lia].
    pose proof (Z.div_pos x avg). lia.
  - apply IH; [lia| |lia..]. rewrite Hd by done.
    replace (x - avg) with (x + (-1) * avg) by lia.
    rewrite Z.div_add by lia. lia.
Qed.

Lemma slice_while_spec used x capacity nbox :
  0 <= x -> 0 <= capacity <= avg -> (0 < x -> 0 < avg) ->
  0 <= nbox -> boxes_used capacity nbox + x <= used -> used <= INT_MAX ->
  slices_to used x (slice_while avg diff (slice_fuel avg x) x capacity nbox []) [].
Proof.
  intros Hx Hc Hp Hn Hu Hmu. unfold slice_fuel.
  replace (Z.to_nat (x / avg) + 3)%nat with (S (Z.to_nat (x / avg) + 2)) by lia.
  destruct (Z.eq_dec x 0) as [->|Hne]; [apply slice_while_done; lia|].
  apply slice_while_step; [lia..|].
  intros x' c' n' acc' Hx' Hc' [-> | [-> _]] Hn' Hu'.
  - rewrite Nat.add_comm. apply slice_while_done; lia.
  - assert (x' / avg <= x / avg) by (apply Z.div_le_mono; lia).
    pose proof (Z.div_pos x avg). apply slice_while_full; lia.
Qed.

Lemma slice_params_spec sizes capacity nbox :
  Forall (Z.le 0) sizes -> (0 < zsum sizes -> 0 < avg) -> 0 <= capacity <= avg ->
  0 <= nbox -> boxes_used capacity nbox + zsum sizes <= INT_MAX ->
  exists slices nbox', slice_params avg diff sizes capacity nbox = Ok (slices, nbox') /\
    Forall2 (fun ps x => zsum ps = x /\ Forall piece_ok ps) slices sizes.
Proof.
  intros Hs. revert capacity nbox.
  induction Hs as [|x sizes Hx Hs IH]; intros capacity nbox Hp Hc Hn Hu.
  { by exists [], nbox. }
  simpl in *. pose proof (zsum_nonneg sizes Hs).
  destruct (slice_while_spec (boxes_used capacity nbox + x) x capacity nbox)
    as (ps & c & n & -> & Hsum & Hps & Hc' & Hn' & Hu'); [lia..|].
  rewrite bind_Ok.
  destruct (IH c n) as (slices & n' & -> & Hf); [lia..|].
  exists (ps :: slices), n'. split; [done|]. by constructor.
Qed.
End slice_proofs.

Lemma Slice_Ok (num : Z) (sizes : list Z)
    (Hnum : 0 < num) (Hsizes : Forall (Z.le 0) sizes)
    (Hmax : zsum sizes + zsum sizes / 10 <= INT_MAX) :
  let avg := box_avg num (zsum sizes) in
  exists slices nbox,
    slice_params avg (box_diff avg) sizes avg 0 = Ok (slices, nbox) /\
    Slice num sizes = (if nbox <=? num then Ok slices else Fatal) /\
    Forall2 (fun pieces size => zsum pieces = size /\
               Forall (piece_ok avg (box_diff avg)) pieces) slices sizes.
Proof.
  intros avg.
  destruct (prologue_Ok num sizes) as (Es & Ea & Hge & Hle & Hpos); [done..|].
  destruct (box_diff_bounds avg Hge) as [_ Hd].
  destruct (slice_params_spec avg (box_diff avg) Hd Hle sizes avg 0)
    as (slices & nbox & E & Hf); [done|done|lia|lia| |].
  { unfold boxes_used. rewrite Z.ltb_irrefl. pose proof (zsum_nonneg sizes Hsizes).
    pose proof (Z.div_pos (zsum sizes) 10). simpl. lia. }
  exists slices, nbox. split; [done|]. split; [|done].
  unfold Slice. destruct (Z.eqb_spec num 0); [lia|].
  rewrite Es, bind_Ok, Ea, bind_Ok. fold avg. rewrite E, bind_Ok.
  by destruct (nbox <=? num).
Qed.

(** [Slice] terminates on every list of non-negative sizes whose sum (plus
    a tenth) fits an [int]: it either fails its final [CHECK_LE(nbox, num)] or
    returns one list of positive pieces per parameter, whose sizes add up to the
    parameter's size and none of which exceeds the box size plus its tolerance. *)
Theorem Slice_correct (num : Z) (sizes : list Z)
    (Hnum : 0 < num) (Hsizes : Forall (Z.le 0) sizes)
    (Hmax : zsum sizes + zsum sizes / 10 <= INT_MAX) :
  let avg := box_avg num (zsum sizes) in
  exists slices nbox,
    slice_params avg (box_diff avg) sizes avg 0 = Ok (slices, nbox) /\
    Slice num sizes = (if nbox <=? num then Ok slices else Fatal) /\
    Forall2 (fun pieces size => zsum pieces = size /\
               Forall (piece_ok avg (box_diff avg)) pieces) slices sizes.
Proof. by apply Slice_Ok. Qed.

Lemma Slice_correct_witness :
  exists slices nbox,
    slice_params (box_avg 6 8) (box_diff (box_avg 6 8)) [8] (box_avg 6 8) 0 = Ok (slices, nbox) /\
    Slice 6 [8] = (if nbox <=? 6 then Ok slices else Fatal) /\
    Forall2 (fun pieces size => zsum pieces = size /\
               Forall (piece_ok (box_avg 6 8) (box_diff (box_avg 6 8))) pieces) slices [8].
Proof.
  apply (Slice_correct 6 [8]); [lia| |vm_compute; discriminate].
  repeat constructor; discriminate.
Defined.

(** ** PartitionSlices: when it returns *)

(** The box ids go up one at a time from [boxid]. *)
Fixpoint contiguous (boxid : Z) (ids : list Z) : Prop :=
  match ids with
  | [] => True
  | i :: ids => (i = boxid \/ i = boxid + 1) /\ contiguous i ids
  end.

Lemma contiguous_bound boxid ids i :
  contiguous boxid ids -> i ∈ ids -> boxid <= i <= boxid + Z.of_nat (length ids).
Proof.
  revert boxid. induction ids as [|j ids IH]; intros boxid Hc Hi; [by inversion Hi|].
  destruct Hc as [Hj Hc]. simpl length. inversion Hi; subst; [lia|].
  specialize (IH j Hc ltac:(done)). lia.
Qed.

Section partition_proofs.
Variables (avg diff : Z).
Hypothesis (Hdiff : 0 <= diff <= avg) (Hmax : avg + diff <= INT_MAX).

Definition partition_run (n : nat) (s : list Z * Z * Z * list Z) : outcome (list Z) :=
  turns_nat (partition_turn avg diff) n s ≫= returned.

Lemma partition_loop_run slices :
  exists n, (Z.of_nat n = INT_MAX + Z.of_nat (length slices) + 1) /\
    partition_loop avg diff slices = partition_run n (slices, avg, 0, []).
Proof.
  exists (Pos.to_nat (partition_fuel slices)). unfold partition_fuel. split.
  { rewrite positive_nat_Z, Z2Pos.id; unfold INT_MAX; lia. }
  unfold partition_loop. by rewrite loop_for_nat.
Qed.

Lemma partition_run_nil n box boxid acc :
  partition_run (S n) ([], box, boxid, acc) = Ok acc.
Proof. done. Qed.

(** One turn of the loop: the slice is placed in the current box, or does not
    fit and the next box is opened, if an [int] can still number it. *)
Lemma partition_turn_cases n x it box boxid acc :
  0 <= x -> 0 <= box <= avg -> 0 <= boxid ->
  (x <= box + diff /\ exists box', 0 <= box' <= avg /\
     partition_run (S n) (x :: it, box, boxid, acc)
     = partition_run n (it, box', boxid, acc ++ [boxid])) \/
  (box + diff < x /\
     partition_run (S n) (x :: it, box, boxid, acc)
     = if boxid <? INT_MAX then partition_run n (x :: it, avg, boxid + 1, acc) else Undef).
Proof.
  intros Hx Hb Hid. unfold partition_run. simpl.
  destruct (Z.leb_spec x box).
  { left. split; [lia|]. exists (box - x). split; [lia|done]. }
  rewrite (int_ret_Ok (box + diff)) by (unfold INT_MIN; lia). rewrite bind_Ok.
  destruct (Z.leb_spec x (box + diff)).
  { left. split; [done|]. exists 0. split; [lia|done]. }
  right. split; [done|]. destruct (Z.ltb_spec boxid INT_MAX).
  - by rewrite (int_ret_Ok (boxid + 1)) by (unfold INT_MIN; lia).
  - unfold int_ret, in_int. destruct (Z.leb_spec (boxid + 1) INT_MAX); [lia|].
    by rewrite andb_false_r.
Qed.

Lemma partition_run_Ok it n box boxid acc :
  INT_MAX - boxid + Z.of_nat (length it) < Z.of_nat n ->
  Forall (fun x => 0 <= x <= avg + diff) it -> 0 <= box <= avg ->
  0 <= boxid -> boxid + zsum it <= INT_MAX ->
  exists ids, partition_run n (it, box, boxid, acc) = Ok (acc ++ ids) /\
    length ids = length it /\ contiguous boxid ids.
Proof.
  intros Hf Hit. revert n box boxid acc Hf.
  induction Hit as [|x it Hx Hit IH]; intros n box boxid acc Hf Hb Hid Hs.
  { destruct n; simpl in *; [lia|]. exists []. by rewrite app_nil_r, partition_run_nil. }
  assert (0 <= zsum it).
  { apply zsum_nonneg. eapply Forall_impl; [|exact Hit]. intros y Hy. simpl in Hy. lia. }
  simpl in Hf, Hs. destruct n as [|[|n]]; [lia|lia|].
  assert (forall n boxid' box',
    INT_MAX - boxid' + Z.of_nat (length it) < Z.of_nat n ->
    boxid' = boxid \/ boxid' = boxid + 1 -> boxid' + zsum it <= INT_MAX ->
    0 <= box' <= avg ->
    exists ids, partition_run n (it, box', boxid', acc ++ [boxid'])
      = Ok (acc ++ ids) /\ length ids = S (length it) /\ contiguous boxid ids) as Hplace.
  { intros f b box' Hf' Hb' Hs' Hbox.
    destruct (IH f box' b (acc ++ [b]) Hf' Hbox) as (ids & -> & Hl & Hc); [lia|lia|].
    exists (b :: ids). rewrite <- app_assoc. simpl. auto. }
  destruct (partition_turn_cases (S n) x it box boxid acc) as
    [(_ & box' & Hb' & ->) | (Hlt & ->)]; [lia|lia|lia|apply Hplace; auto; lia|].
  destruct (Z.ltb_spec boxid INT_MAX); [|lia].
  destruct (partition_turn_cases n x it avg (boxid + 1) acc) as
    [(_ & box' & Hb' & ->) | (Hlt' & _)]; [lia|lia|lia|apply Hplace; auto; lia|lia].
Qed.

Lemma partition_run_overflow it n box boxid acc :
  INT_MAX - boxid + Z.of_nat (length it) < Z.of_nat n ->
  Forall (Z.le 0) it -> Exists (fun x => avg + diff < x) it -> 0 <= box <= avg ->
  0 <= boxid <= INT_MAX ->
  partition_run n (it, box, boxid, acc) = Undef.
Proof.
  revert it box boxid acc.
  induction n as [|n IH]; intros it box boxid acc Hn Hit Hex Hb Hid; [lia|].
  destruct it as [|x it]; [by inversion Hex|]. simpl in Hn.
  inversion Hit as [|? ? Hx Hit']; subst.
  destruct (partition_turn_cases n x it box boxid acc) as
    [(Hle & box' & Hb' & ->) | (_ & ->)]; [done|done|lia| |].
  - apply IH; [lia|done| |done|done]. inversion Hex; subst; [lia|done].
  - destruct (Z.ltb_spec boxid INT_MAX); [|done].
    apply IH; [simpl; lia|done|done|lia|lia].
Qed.

Lemma partition_run_small it n box acc :
  (length it < n)%nat -> Forall (fun x => 0 <= x <= diff) it -> 0 <= box <= avg ->
  partition_run n (it, box, 0, acc) = Ok (acc ++ replicate (length it) 0).
Proof.
  intros Hf Hit. revert n box acc Hf.
  induction Hit as [|x it Hx Hit IH]; intros n box acc Hf Hb;
    destruct n as [|n]; simpl in Hf; try lia.
  { simpl. by rewrite app_nil_r. }
  destruct (partition_turn_cases n x it box 0 acc) as
    [(_ & box' & Hb' & ->) | (Hlt & _)]; [lia|lia|lia| |lia].
  rewrite IH by lia. by rewrite <- app_assoc.
Qed.
End partition_proofs.

Lemma PartitionSlices_unfold num slices :
  0 < num -> Forall (Z.le 0) slices -> zsum slices + zsum slices / 10 <= INT_MAX ->
  let avg := box_avg num (zsum slices) in
  PartitionSlices num slices =
    (ids ← partition_loop avg (box_diff avg) slices;
     _ ← CHECK (Z.of_nat (length ids) =? Z.of_nat (length slices)); Ok ids).
Proof.
  intros Hn Hs Hm avg. destruct (prologue_Ok num slices) as (Es & Ea & _); [done..|].
  unfold PartitionSlices. destruct (Z.eqb_spec num 0); [lia|].
  by rewrite Es, bind_Ok, Ea, bind_Ok.
Qed.

Lemma PartitionSlices_overflow num slices :
  0 < num -> Forall (Z.le 0) slices -> zsum slices + zsum slices / 10 <= INT_MAX ->
  let avg := box_avg num (zsum slices) in
  Exists (fun x => avg + box_diff avg < x) slices -> PartitionSlices num slices = Undef.
Proof.
  intros Hn Hs Hm avg Hex.
  destruct (prologue_Ok num slices) as (_ & _ & Hge & Hle & _); [done..|].
  destruct (box_diff_bounds avg Hge) as [_ Hd].
  rewrite PartitionSlices_unfold by done. fold avg.
  destruct (partition_loop_run avg (box_diff avg) slices) as (n & Hfuel & ->).
  rewrite (partition_run_overflow _ _ Hd Hle) by (try done; unfold INT_MAX in *; lia). done.
Qed.

(** C39. [PartitionSlices] ends on every list of sizes whose sum (plus a tenth)
    fits an [int].  When every slice fits a box with its tolerance it returns
    one box id per slice, the ids starting in box 0 and going up by at most one
    from a slice to the next.  When a slice is larger than that it
    does not return: its loop opens one box after the other until the [int] that
    numbers them overflows. *)
Theorem PartitionSlices_returns_or_overflows (num : Z) (slices : list Z)
    (Hnum : 0 < num) (Hslices : Forall (Z.le 0) slices)
    (Hmax : zsum slices + zsum slices / 10 <= INT_MAX) :
  let avg := box_avg num (zsum slices) in
  (Forall (fun x => x <= avg + box_diff avg) slices ->
   exists ids, PartitionSlices num slices = Ok ids /\
     length ids = length slices /\ contiguous 0 ids) /\
  (Exists (fun x => avg + box_diff avg < x) slices ->
   PartitionSlices num slices = Undef).
Proof.
  intros avg. split; [intros Hall|by apply PartitionSlices_overflow].
  destruct (prologue_Ok num slices) as (_ & _ & Hge & Hle & _); [done..|].
  destruct (box_diff_bounds avg Hge) as [_ Hd]. fold avg in Hge, Hle.
  destruct (partition_loop_run avg (box_diff avg) slices) as (n & Hn & El).
  pose proof (zsum_nonneg slices Hslices). pose proof (Z.div_pos (zsum slices) 10).
  destruct (partition_run_Ok avg (box_diff avg) Hd Hle slices n avg 0 [])
    as (ids & E & Hl & Hc); [lia| |lia|lia|lia|].
  { apply Forall_forall. intros x Hx. rewrite Forall_forall in Hslices, Hall. auto. }
  exists ids. split; [|done].
  rewrite PartitionSlices_unfold by done. fold avg.
  rewrite El, E, bind_Ok. simpl app. rewrite Hl, Z.eqb_refl. done.
Qed.

(** Two slices of 3 and one of 2 in 3 boxes of 4; and the slices 6 and 5 in 3 boxes of 5. *)
Lemma PartitionSlices_returns_or_overflows_witness :
  (exists ids, PartitionSlices 3 [3; 3; 2] = Ok ids /\
     length ids = 3%nat /\ contiguous 0 ids) /\
  PartitionSlices 3 [6; 5] = Undef.
Proof.
  split.
  - apply (PartitionSlices_returns_or_overflows 3 [3; 3; 2]);
      [lia|repeat constructor; discriminate|vm_compute; discriminate|].
    repeat constructor; vm_compute; discriminate.
  - apply (PartitionSlices_returns_or_overflows 3 [6; 5]);
      [lia|repeat constructor; discriminate|vm_compute; discriminate|].
    left. by vm_compute.
Defined.

(** The balance of [PartitionSlices]: when no slice exceeds the tolerance of
    a box (a tenth of its size), every slice is put in box 0, whatever the
    number of boxes: a full box keeps accepting slices of that size. *)
Lemma PartitionSlices_small_slices (num : Z) (slices : list Z)
    (Hnum : 0 < num) (Hmax : zsum slices + zsum slices / 10 <= INT_MAX)
    (Hsmall : Forall (fun x => 0 <= x <= box_diff (box_avg num (zsum slices))) slices) :
  PartitionSlices num slices = Ok (replicate (length slices) 0).
Proof.
  assert (Forall (Z.le 0) slices) as Hs.
  { eapply Forall_impl; [|exact Hsmall]. intros x Hx. simpl in Hx. lia. }
  destruct (prologue_Ok num slices) as (_ & _ & Hge & Hle & _); [done..|].
  destruct (box_diff_bounds _ Hge) as [_ Hd].
  rewrite PartitionSlices_unfold by done.
  destruct (partition_loop_run (box_avg num (zsum slices))
    (box_diff (box_avg num (zsum slices))) slices) as (n & Hn & ->).
  rewrite (partition_run_small _ _ Hd Hle); [|unfold INT_MAX in *; lia|exact Hsmall|lia].
  simpl app. by rewrite bind_Ok, length_replicate, Z.eqb_refl.
Qed.

Lemma PartitionSlices_small_slices_100 :
  PartitionSlices 10 (replicate 100 1) = Ok (replicate 100 0).
Proof. by vm_compute. Qed.

(** The two slicing steps do not compose: for 2 server groups of 3 servers
    and one parameter of 8 floats, [Slice] cuts 6-way pieces that the 2-way
    [PartitionSlices] spreads over 3 groups; for one of 11 floats the 3-way
    partition among the servers ends in undefined behaviour; 11 parameters of 100
    floats on 10 servers use an 11th box that [Slice]'s final check lets through; and
    100 parameters of 91 floats on 91 servers make that check fail. *)
Theorem Slice_then_PartitionSlices_out_of_range :
  LeastCommonMultiple 2 3 = Ok 6 /\
  (Slice 6 [8] = Ok [[3; 3; 2]] /\ PartitionSlices 2 [3; 3; 2] = Ok [0; 1; 2]) /\
  (Slice 6 [11] = Ok [[6; 5]] /\ PartitionSlices 3 [6; 5] = Undef) /\
  (Slice 10 (replicate 11 100) = Ok (replicate 11 [100]) /\
   PartitionSlices 10 (replicate 11 100) = Ok [0; 1; 2; 3; 4; 5; 6; 7; 8; 9; 10]) /\
  Slice 91 (replicate 100 91) = Fatal.
Proof.
  split; [by vm_compute|]. split; [by vm_compute|].
  split; [split; [by vm_compute|]|split; by vm_compute].
  apply PartitionSlices_overflow;
    [lia|repeat constructor; discriminate|vm_compute; discriminate|].
  left. by vm_compute.
Qed.
