(* ===== verification/Msg.v ===== *)
(** * communication/msg.h, communication/msg.cc: addresses and messages

    Addresses pack a group, an id (or process) and an entity type in an [int].
    A message is a header of five [int]s and a CZMQ message of byte frames.
    CZMQ is not part of the repository: class [Czmq] names the calls the code
    makes and class [CzmqLaws] states what its manual says of them; module
    [ListCzmq] is a concrete implementation, used by the witnesses. *)

From Stdlib Require Import DecimalString DecimalZ DecimalFacts.
From Stdlib Require String Ascii.
From S2P Require Import Prelude.

(** ** Entity and message types (proto/common.proto) *)
Inductive EntityType := kWorkerParam | kWorkerLayer | kServer | kStub | kRuntime.
Definition entity_num (e : EntityType) : Z :=
  match e with
  | kWorkerParam => 0 | kWorkerLayer => 1 | kServer => 2 | kStub => 3 | kRuntime => 4
  end.

Definition kGet : Z := 0.
Definition kPut : Z := 1.
Definition kSync : Z := 2.
Definition kUpdate : Z := 3.
Definition kSyncRequest : Z := 4.
Definition kSyncResponse : Z := 5.
Definition kStop : Z := 6.
Definition kData : Z := 7.
Definition kRGet : Z := 8.
Definition kRUpdate : Z := 9.
Definition kConnect : Z := 10.
Definition kMetric : Z := 11.
Definition kSyncReminder : Z := 12.

(** ** Addresses *)
Definition Addr (grp id_or_proc type : Z) : Z :=
  Z.lor (Z.lor (wrap32 (Z.shiftl grp 16)) (wrap32 (Z.shiftl id_or_proc 8))) type.
Definition AddrGrp (addr : Z) : Z := Z.shiftr addr 16.
Definition AddrID (addr : Z) : Z := Z.land (Z.shiftr addr 8) (Z.shiftl 1 8 - 1).
Definition AddrProc (addr : Z) : Z := AddrID addr.
Definition AddrType (addr : Z) : Z := Z.land addr (Z.shiftl 1 8 - 1).

(** The packed form of an address whose parts fit their fields. *)
Lemma Addr_arith grp id type :
  - 2 ^ 15 <= grp < 2 ^ 15 -> 0 <= id < 2 ^ 8 -> 0 <= type < 2 ^ 8 ->
  Addr grp id type = grp * 2 ^ 16 + id * 2 ^ 8 + type.
Proof.
  intros Hg Hi Ht. unfold Addr. rewrite !Z.shiftl_mul_pow2 by lia.
  rewrite !wrap32_id by (unfold INT_MIN, INT_MAX; lia).
  rewrite (lor_pow2 grp (id * 2 ^ 8) 16) by lia.
  replace (grp * 2 ^ 16 + id * 2 ^ 8) with ((grp * 2 ^ 8 + id) * 2 ^ 8) by lia.
  by rewrite lor_pow2 by lia.
Qed.

Lemma Addr_fields (grp id type : Z)
    (Hg : - 2 ^ 15 <= grp < 2 ^ 15) (Hi : 0 <= id < 2 ^ 8) (Ht : 0 <= type < 2 ^ 8) :
  AddrGrp (Addr grp id type) = grp /\ AddrID (Addr grp id type) = id /\
  AddrProc (Addr grp id type) = id /\ AddrType (Addr grp id type) = type.
Proof.
  assert (AddrGrp (Addr grp id type) = grp /\ AddrID (Addr grp id type) = id /\
    AddrType (Addr grp id type) = type) as (? & ? & ?); [|done].
  rewrite Addr_arith by done. unfold AddrGrp, AddrID, AddrType.
  change (Z.shiftl 1 8 - 1) with (Z.ones 8).
  rewrite !Z.land_ones, !Z.shiftr_div_pow2 by lia.
  split; [|split].
  - symmetry. apply (Z.div_unique _ _ _ (id * 2 ^ 8 + type)); lia.
  - assert ((grp * 2 ^ 16 + id * 2 ^ 8 + type) / 2 ^ 8 = grp * 2 ^ 8 + id) as ->.
    { symmetry. apply (Z.div_unique _ _ _ type); lia. }
    symmetry. apply (Z.mod_unique _ _ grp); lia.
  - symmetry. apply (Z.mod_unique _ _ (grp * 2 ^ 8 + id)); lia.
Qed.

(** An address determines its parts: packing a 16-bit signed group, an 8-bit
    id and an 8-bit type and reading the fields back gives them. *)
Theorem Addr_roundtrip (grp id type : Z)
    (Hg : - 2 ^ 15 <= grp < 2 ^ 15) (Hi : 0 <= id < 2 ^ 8) (Ht : 0 <= type < 2 ^ 8) :
  AddrGrp (Addr grp id type) = grp /\ AddrID (Addr grp id type) = id /\
  AddrProc (Addr grp id type) = id /\ AddrType (Addr grp id type) = type.
Proof. by apply Addr_fields. Qed.

Lemma Addr_roundtrip_witness :
  AddrGrp (Addr (-1) 255 3) = -1 /\ AddrID (Addr (-1) 255 3) = 255 /\
  AddrProc (Addr (-1) 255 3) = 255 /\ AddrType (Addr (-1) 255 3) = 3.
Proof. apply (Addr_roundtrip (-1) 255 3); lia. Defined.

(** The address every thread sends its pings to, [Addr(-1, -1, kStub)]: the id
    overflows its field, but group and type read back as written. *)
Lemma stub_addr :
  AddrGrp (Addr (-1) (-1) (entity_num kStub)) = -1 /\
  AddrType (Addr (-1) (-1) (entity_num kStub)) = entity_num kStub.
Proof. split; reflexivity. Qed.

(** ** CZMQ messages

    A [zframe_t*] returned by the cursor functions is the position of the frame
    in the message.  [zframe_write] is the store through [zframe_data]. *)
Class Czmq := {
  zmsg : Type;
  zmsg_new : zmsg;
  zmsg_addmem : zmsg -> list Z -> zmsg;
  zmsg_first : zmsg -> zmsg * option nat;
  zmsg_next : zmsg -> zmsg * option nat;
  zmsg_last : zmsg -> zmsg * option nat;
  zmsg_dup : zmsg -> zmsg;
  zmsg_content_size : zmsg -> Z;
  zmsg_pushstr : zmsg -> string -> zmsg;
  zmsg_popstr : zmsg -> option string * zmsg;
  zframe_data : zmsg -> nat -> list Z;
  zframe_strdup : zmsg -> nat -> list Z;
  zframe_write : zmsg -> nat -> list Z -> zmsg;
}.

(** What the CZMQ manual says of them: [zframes] and [zcursor] are the frames
    and the cursor a message holds. *)
Class CzmqLaws (C : Czmq) := {
  zframes : zmsg -> list (list Z);
  zcursor : zmsg -> option nat;
  zframes_new : zframes zmsg_new = [];
  zframes_addmem m b : zframes (zmsg_addmem m b) = zframes m ++ [b];
  zmsg_first_spec m :
    zframes (zmsg_first m).1 = zframes m /\
    zcursor (zmsg_first m).1 = (zmsg_first m).2 /\
    (zmsg_first m).2 = match zframes m with [] => None | _ => Some 0%nat end;
  zmsg_next_spec m k :
    zcursor m = Some k ->
    zframes (zmsg_next m).1 = zframes m /\
    zcursor (zmsg_next m).1 = (zmsg_next m).2 /\
    (zmsg_next m).2 = if decide (S k < length (zframes m))%nat then Some (S k) else None;
  zmsg_last_spec m :
    zframes (zmsg_last m).1 = zframes m /\
    zcursor (zmsg_last m).1 = (zmsg_last m).2 /\
    (zmsg_last m).2 =
      match zframes m with [] => None | fs => Some (length fs - 1)%nat end;
  zframes_dup m : zframes (zmsg_dup m) = zframes m;
  zmsg_content_size_spec m :
    zmsg_content_size m = zsum (map (fun f => Z.of_nat (length f)) (zframes m));
  zmsg_pushstr_spec m s : zframes (zmsg_pushstr m s) = bytes_of_string s :: zframes m;
  zmsg_popstr_spec m s fs :
    zframes m = bytes_of_string s :: fs ->
    (zmsg_popstr m).1 = Some s /\ zframes (zmsg_popstr m).2 = fs;
  zframe_data_spec m k d : zframes m !! k = Some d -> zframe_data m k = d;
  zframe_strdup_spec m k d : zframes m !! k = Some d -> zframe_strdup m k = d ++ [0];
  zframe_write_spec m k d d' :
    zframes m !! k = Some d -> length d' = length d ->
    zframes (zframe_write m k d') = <[k := d']> (zframes m) /\
    zcursor (zframe_write m k d') = zcursor m;
}.

(** A concrete CZMQ: a list of frames and a cursor. *)
Module ListCzmq.
Record t := { frames : list (list Z); cursor : option nat }.
Definition at_cursor (m : t) (c : option nat) : t * option nat :=
  ({| frames := frames m; cursor := c |}, c).
Definition first (m : t) : t * option nat :=
  at_cursor m (match frames m with [] => None | _ => Some 0%nat end).
Definition last (m : t) : t * option nat :=
  at_cursor m (match frames m with [] => None | fs => Some (length fs - 1)%nat end).
Definition next (m : t) : t * option nat :=
  match cursor m with
  | None => first m
  | Some k => at_cursor m
      (if decide (S k < length (frames m))%nat then Some (S k) else None)
  end.

#[export] Instance czmq : Czmq := {
  zmsg := t;
  zmsg_new := {| frames := []; cursor := None |};
  zmsg_addmem m b := {| frames := frames m ++ [b]; cursor := None |};
  zmsg_first := first;
  zmsg_next := next;
  zmsg_last := last;
  zmsg_dup m := {| frames := frames m; cursor := None |};
  zmsg_content_size m := zsum (map (fun f => Z.of_nat (length f)) (frames m));
  zmsg_pushstr m s := {| frames := bytes_of_string s :: frames m; cursor := None |};
  zmsg_popstr m :=
    match frames m with
    | [] => (None, m)
    | f :: fs => (Some (string_of_bytes f), {| frames := fs; cursor := None |})
    end;
  zframe_data m k := default [] (frames m !! k);
  zframe_strdup m k := default [] (frames m !! k) ++ [0];
  zframe_write m k d := {| frames := <[k := d]> (frames m); cursor := cursor m |};
}.

#[export] Instance czmq_laws : CzmqLaws czmq.
Proof.
  refine {| zframes := frames; zcursor := cursor |}; simpl; try done.
  - intros [fs [c|]] k [= ->]. done.
  - intros [[|f fs] c] s gs; simpl; [done|]. intros [= -> ->].
    by rewrite string_of_bytes_of_string.
  - by intros m k d ->.
  - by intros m k d ->.
Defined.
End ListCzmq.

(** ** class Msg *)
Section msg.
Context `{C : Czmq}.

Record Msg := mkMsg {
  src : Z;
  dst : Z;
  type : Z;
  trgt_val : Z;
  trgt_version : Z;
  msg_ : option zmsg;
  frame_ : option nat;
}.

(** [Msg()] and [Msg(src, dst)]. *)
Definition Msg_new : Msg := mkMsg 0 0 0 0 0 (Some zmsg_new) None.
Definition Msg_make (s d : Z) : Msg := mkMsg s d 0 0 0 (Some zmsg_new) None.
Definition Msg_copy (m : Msg) : outcome Msg :=
  z ← deref (msg_ m);
  Ok (mkMsg (src m) (dst m) (type m) (trgt_val m) (trgt_version m)
        (Some (zmsg_dup z)) None).

Definition SwapAddr (m : Msg) : Msg :=
  mkMsg (dst m) (src m) (type m) (trgt_val m) (trgt_version m) (msg_ m) (frame_ m).
Definition set_src (a : Z) (m : Msg) : Msg :=
  mkMsg a (dst m) (type m) (trgt_val m) (trgt_version m) (msg_ m) (frame_ m).
Definition set_dst (a : Z) (m : Msg) : Msg :=
  mkMsg (src m) a (type m) (trgt_val m) (trgt_version m) (msg_ m) (frame_ m).
Definition set_type (t : Z) (m : Msg) : Msg :=
  mkMsg (src m) (dst m) t (trgt_val m) (trgt_version m) (msg_ m) (frame_ m).
Definition set_trgt (v version : Z) (m : Msg) : Msg :=
  mkMsg (src m) (dst m) (type m) v version (msg_ m) (frame_ m).
Definition with_frames (z : zmsg) (f : option nat) (m : Msg) : Msg :=
  mkMsg (src m) (dst m) (type m) (trgt_val m) (trgt_version m) (Some z) f.

Definition Msg_size (m : Msg) : outcome Z :=
  z ← deref (msg_ m); Ok (zmsg_content_size z).
Definition AddFrame (bytes : list Z) (m : Msg) : outcome Msg :=
  z ← deref (msg_ m); Ok (with_frames (zmsg_addmem z bytes) (frame_ m) m).
Definition FrameData (m : Msg) : outcome (list Z) :=
  z ← deref (msg_ m); f ← deref (frame_ m); Ok (zframe_data z f).
Definition FrameSize (m : Msg) : outcome Z :=
  d ← FrameData m; Ok (Z.of_nat (length d)).
Definition FrameStr (m : Msg) : outcome (list Z) :=
  z ← deref (msg_ m); f ← deref (frame_ m); Ok (zframe_strdup z f).
(** [memcpy(msg->FrameData(), bytes, n)] for the whole frame. *)
Definition write_frame (bytes : list Z) (m : Msg) : outcome Msg :=
  z ← deref (msg_ m); f ← deref (frame_ m);
  Ok (with_frames (zframe_write z f bytes) (Some f) m).
Definition NextFrame (m : Msg) : outcome (Msg * bool) :=
  z ← deref (msg_ m);
  let '(z, f) := zmsg_next z in
  Ok (with_frames z f m, match f with Some _ => true | None => false end).
Definition FirstFrame (m : Msg) : outcome Msg :=
  z ← deref (msg_ m); let '(z, f) := zmsg_first z in Ok (with_frames z f m).
Definition LastFrame (m : Msg) : outcome Msg :=
  z ← deref (msg_ m); let '(z, f) := zmsg_last z in Ok (with_frames z f m).
End msg.
Arguments Msg {C}.

(** ** The wire header: [DumpToZmsg] and [ParseFromZmsg]

    [zmsg_pushstrf(msg_, "%d %d %d %d %d", ...)] and the [sscanf] that reads it
    back. *)
Module Header.
Import Stdlib.Strings.String Stdlib.Strings.Ascii.
Local Open Scope string_scope.

Definition print_d (z : Z) : string := NilZero.string_of_int (Z.to_int z).

Fixpoint print_ds (zs : list Z) : string :=
  match zs with
  | [] => ""
  | [z] => print_d z
  | z :: zs => print_d z +:+ String " "%char (print_ds zs)
  end.

Definition is_digit (c : ascii) : bool :=
  let n := N_of_ascii c in (48 <=? n)%N && (n <=? 57)%N.
Definition is_space (c : ascii) : bool :=
  let n := N_of_ascii c in (n =? 32)%N || ((9 <=? n)%N && (n <=? 13)%N).

Fixpoint skip_space (s : string) : string :=
  match s with
  | String c s' => if is_space c then skip_space s' else s
  | EmptyString => s
  end.
Fixpoint span_digits (s : string) : string * string :=
  match s with
  | String c s' =>
      if is_digit c then let '(d, r) := span_digits s' in (String c d, r) else ("", s)
  | EmptyString => ("", s)
  end.

(** One [%d]: blanks, a sign, digits.  [None] is a matching failure. *)
Definition scan_d (s : string) : option (Z * string) :=
  let s := skip_space s in
  let '(neg, s) :=
    match s with
    | String c s' =>
        if Ascii.eqb c "-"%char then (true, s') else if Ascii.eqb c "+"%char then (false, s') else (false, s)
    | EmptyString => (false, s)
    end in
  let '(ds, rest) := span_digits s in
  match ds with
  | EmptyString => None
  | _ => match NilEmpty.uint_of_string ds with
         | Some u => Some (Z.of_int (if neg : bool then Decimal.Neg u else Decimal.Pos u), rest)
         | None => None
         end
  end.

(** [n] consecutive [%d]: the values assigned before the first failure. *)
Fixpoint scan_ds (n : nat) (s : string) : list Z :=
  match n with
  | O => []
  | S n =>
      match scan_d s with Some (z, rest) => z :: scan_ds n rest | None => [] end
  end.

Definition no_digit_first (s : string) : Prop :=
  match s with String c _ => is_digit c = false | EmptyString => True end.

Lemma span_digits_uint u rest :
  no_digit_first rest ->
  span_digits (NilEmpty.string_of_uint u +:+ rest) = (NilEmpty.string_of_uint u, rest).
Proof.
  intros Hr. induction u; simpl; try (by rewrite IHu).
  destruct rest as [|c r]; [done|]. simpl in *. by rewrite Hr.
Qed.

Lemma string_of_uint_digit u :
  u <> Decimal.Nil ->
  exists c s, NilEmpty.string_of_uint u = String c s /\ is_digit c = true.
Proof. destruct u; try done; simpl; eauto. Qed.

(** A run of digits, with or without a sign in front, is read back. *)
Lemma scan_d_uint u rest :
  u <> Decimal.Nil -> no_digit_first rest ->
  scan_d (NilEmpty.string_of_uint u +:+ rest) = Some (Z.of_int (Decimal.Pos u), rest) /\
  scan_d (String "-"%char (NilEmpty.string_of_uint u +:+ rest))
    = Some (Z.of_int (Decimal.Neg u), rest).
Proof.
  intros Hu Hr. pose proof (span_digits_uint u rest Hr) as Hs.
  pose proof (NilEmpty.usu u) as Hus.
  destruct u; try done; simpl in *;
    unfold scan_d; simpl;
    destruct (span_digits (NilEmpty.string_of_uint u +:+ rest)) as [d r];
    injection Hs as -> ->; simpl; rewrite NilEmpty.usu; done.
Qed.

Lemma NilZero_string_of_uint u :
  u <> Decimal.Nil -> NilZero.string_of_uint u = NilEmpty.string_of_uint u.
Proof. by destruct u. Qed.

Lemma to_uint_not_nil z : Z.to_int z <> Decimal.Pos Decimal.Nil /\
  Z.to_int z <> Decimal.Neg Decimal.Nil.
Proof.
  destruct z as [|p|p]; simpl; [done| |]; split; try done; intros [= E];
    assert (Pos.to_uint p <> Decimal.Nil) as Hn
      by (intros E'; by pose proof (DecimalPos.Unsigned.to_uint_nonnil p)); done.
Qed.

Lemma string_app_cons c s t : String c s +:+ t = String c (s +:+ t).
Proof. done. Qed.

Lemma string_app_nil_r s : s +:+ EmptyString = s.
Proof. induction s as [|c s IH]; [done|]. by rewrite string_app_cons, IH. Qed.

Lemma scan_print_d z rest : no_digit_first rest -> scan_d (print_d z +:+ rest) = Some (z, rest).
Proof.
  intros Hr. unfold print_d. destruct (to_uint_not_nil z) as [Hp Hn].
  pose proof (DecimalZ.of_to z) as Hot.
  destruct (Z.to_int z) as [u|u]; simpl.
  - rewrite NilZero_string_of_uint by congruence.
    destruct (scan_d_uint u rest) as [-> _]; [congruence|done|]. by rewrite Hot.
  - rewrite NilZero_string_of_uint, string_app_cons by congruence.
    destruct (scan_d_uint u rest) as [_ ->]; [congruence|done|]. by rewrite Hot.
Qed.

Lemma scan_d_space s : scan_d (String " "%char s) = scan_d s.
Proof. done. Qed.

Lemma scan_print_ds zs : scan_ds (Datatypes.length zs) (print_ds zs) = zs.
Proof.
  assert (forall z zs, scan_ds (Datatypes.length (z :: zs)) (print_ds (z :: zs)) = z :: zs) as H.
  { intros z l. revert z. induction l as [|y l IH]; intros z.
    - simpl. pose proof (scan_print_d z "" I) as E.
      rewrite string_app_nil_r in E.
      by rewrite E.
    - change (print_ds (z :: y :: l)) with (print_d z +:+ String " "%char (print_ds (y :: l))).
      change (Datatypes.length (z :: y :: l)) with (S (Datatypes.length (y :: l))).
      cbn [scan_ds]. rewrite scan_print_d by done. f_equal.
      transitivity (scan_ds (S (Datatypes.length l)) (print_ds (y :: l))); [|apply (IH y)].
      generalize (print_ds (y :: l)). intros s. cbn [scan_ds Datatypes.length]. by rewrite scan_d_space. }
  destruct zs; [done|apply H].
Qed.
End Header.

Section header.
Context `{C : Czmq}.

Definition DumpToZmsg (m : Msg) : outcome (zmsg * Msg) :=
  z ← deref (msg_ m);
  Ok (zmsg_pushstr z
        (Header.print_ds [src m; dst m; type m; trgt_val m; trgt_version m]),
      mkMsg (src m) (dst m) (type m) (trgt_val m) (trgt_version m) None (frame_ m)).

(** [m] is the fresh [Msg] the sockets call it on; a field [sscanf] does not
    reach keeps its value; a number too large for [int] is undefined. *)
Definition ParseFromZmsg (z : zmsg) (m : Msg) : outcome Msg :=
  let '(tmp, z) := zmsg_popstr z in
  tmp ← deref tmp;
  let vs := Header.scan_ds 5 tmp in
  _ ← (if forallb in_int vs then Ok tt else Undef);
  let '(z, f) := zmsg_first z in
  Ok (mkMsg (default (src m) (vs !! 0%nat)) (default (dst m) (vs !! 1%nat))
        (default (type m) (vs !! 2%nat)) (default (trgt_val m) (vs !! 3%nat))
        (default (trgt_version m) (vs !! 4%nat)) (Some z) f).
End header.

Definition header_ok `{Czmq} (m : Msg) : Prop :=
  forallb in_int [src m; dst m; type m; trgt_val m; trgt_version m] = true.

(** A message survives the wire: parsing what [DumpToZmsg] produced gives a
    message with the same header and the same frames, its cursor on the first
    frame. *)
Theorem Dump_Parse_roundtrip `{C : Czmq} `{!CzmqLaws C} (m : Msg) (z0 : zmsg)
    (Hz : msg_ m = Some z0) (Hok : header_ok m) :
  exists z m' z' m'',
    DumpToZmsg m = Ok (z, m') /\ msg_ m' = None /\
    ParseFromZmsg z Msg_new = Ok m'' /\ msg_ m'' = Some z' /\
    zframes z' = zframes z0 /\ zcursor z' = frame_ m'' /\
    frame_ m'' = match zframes z0 with [] => None | _ => Some 0%nat end /\
    [src m''; dst m''; type m''; trgt_val m''; trgt_version m'']
      = [src m; dst m; type m; trgt_val m; trgt_version m].
Proof.
  unfold DumpToZmsg. rewrite Hz, deref_Some, bind_Ok.
  set (vs := [src m; dst m; type m; trgt_val m; trgt_version m]) in *.
  set (z1 := zmsg_pushstr z0 (Header.print_ds vs)).
  pose proof (zmsg_pushstr_spec z0 (Header.print_ds vs)) as Hp. fold z1 in Hp.
  destruct (zmsg_popstr_spec z1 _ _ Hp) as [Ht Hf].
  destruct (zmsg_popstr z1) as [tmp z2] eqn:Epop. simpl in Ht, Hf. subst tmp.
  destruct (zmsg_first_spec z2) as (Hff & Hfc & Hfp).
  destruct (zmsg_first z2) as [z3 f] eqn:Efst. simpl in *.
  eexists z1, _, z3, _. split; [done|]. split; [done|].
  unfold ParseFromZmsg. rewrite Epop, deref_Some, bind_Ok.
  change 5%nat with (length vs). rewrite Header.scan_print_ds.
  unfold header_ok in Hok. fold vs in Hok. rewrite Hok, bind_Ok, Efst.
  rewrite <- Hf. split; [reflexivity|]. simpl. auto 10.
Qed.

#[local] Existing Instances ListCzmq.czmq ListCzmq.czmq_laws.

Definition sample_zmsg : zmsg := ListCzmq.Build_t [[1; 2]; []; [255]] None.
Definition sample_msg : Msg :=
  @mkMsg ListCzmq.czmq (Addr (-1) (-1) 3) (Addr 2 1 2) kGet (-65530) (-1)
    (Some sample_zmsg) None.

Lemma Dump_Parse_roundtrip_witness :
  exists z m' z' m'',
    DumpToZmsg sample_msg = Ok (z, m') /\ msg_ m' = None /\
    ParseFromZmsg z Msg_new = Ok m'' /\ msg_ m'' = Some z' /\
    zframes z' = zframes sample_zmsg /\
    zcursor z' = frame_ m'' /\
    frame_ m'' = match zframes sample_zmsg with
                 | [] => None | _ => Some 0%nat end /\
    [src m''; dst m''; type m''; trgt_val m''; trgt_version m'']
      = [src sample_msg; dst sample_msg; type sample_msg; trgt_val sample_msg;
         trgt_version sample_msg].
Proof. apply (Dump_Parse_roundtrip sample_msg); reflexivity. Defined.
