(* ===== verification/Format.v ===== *)
(** * communication/msg.cc: format frames

    [Msg::AddFormatFrame] serialises its arguments into one frame, as a format
    string says, and [Msg::ParseFormatFrame] reads them back.  Bytes are read
    and written exactly as the C code does, including what it does with the
    lengths of strings. *)

From S2P Require Import Prelude Msg.

(** The variadic arguments: an [int] (also for the [1], [2] and [4] formats), a
    [float] by its 32 bits, a C string by its characters, a pointer. *)
Inductive fmt_arg :=
| AInt (x : Z)
| AFloat (bits : Z)
| AStr (chars : list Z)
| APtr (p : Z).

#[export] Instance fmt_arg_eq_dec : EqDecision fmt_arg.
Proof. solve_decision. Defined.

(** Characters of the format strings. *)
Definition ch_i : Z := 105.
Definition ch_f : Z := 102.
Definition ch_1 : Z := 49.
Definition ch_2 : Z := 50.
Definition ch_4 : Z := 52.
Definition ch_s : Z := 115.
Definition ch_p : Z := 112.

Definition FMARKER : list Z := bytes_of_string "*singa*".
Definition kMaxFrameLen : Z := 2048.

(** The C string at the head of a byte array, without its NUL. *)
Fixpoint cstr (bs : list Z) : list Z :=
  match bs with
  | [] => []
  | b :: bs => if b =? 0 then [] else b :: cstr bs
  end.

(** ** Writing *)

(** The bytes one format character appends; [None] for an unknown character,
    which consumes no argument. *)
Definition put_field (c : Z) : option (fmt_arg -> outcome (list Z)) :=
  if c =? ch_i then Some (fun a =>
    match a with AInt x => Ok (ch_i :: le_split 4 x) | _ => Undef end)
  else if c =? ch_f then Some (fun a =>
    match a with AFloat x => Ok (ch_f :: le_split 4 x) | _ => Undef end)
  else if c =? ch_1 then Some (fun a =>
    match a with AInt x => Ok (le_split 1 x) | _ => Undef end)
  else if c =? ch_2 then Some (fun a =>
    match a with AInt x => Ok (le_split 2 x) | _ => Undef end)
  else if c =? ch_4 then Some (fun a =>
    match a with AInt x => Ok (le_split 4 x) | _ => Undef end)
  else if c =? ch_s then Some (fun a =>
    match a with AStr x => Ok (ch_s :: cstr x ++ [0]) | _ => Undef end)
  else if c =? ch_p then Some (fun a =>
    match a with APtr x => Ok (ch_p :: le_split 8 x) | _ => Undef end)
  else None.

(** The loop over the format string.  A write past [dst[kMaxFrameLen]] is undefined:
    the [CHECK_LE] of the code only runs after the [memcpy]. *)
Fixpoint add_fields (format : list Z) (args : list fmt_arg) (dst : list Z)
    : outcome (list Z) :=
  match format with
  | [] => Ok dst
  | c :: format =>
      match put_field c with
      | Some put =>
          match args with
          | [] => Undef
          | a :: args =>
              bytes ← put a;
              _ ← (if Z.of_nat (length (dst ++ bytes)) <=? kMaxFrameLen then Ok tt else Undef);
              add_fields format args (dst ++ bytes)
          end
      | None => add_fields format args dst
      end
  end.

Definition AddFormatFrame `{C : Czmq} (format : string) (args : list fmt_arg) (m : Msg)
    : outcome (Msg * Z) :=
  dst ← add_fields (bytes_of_string format) args (FMARKER ++ [0]);
  m ← AddFrame dst m;
  Ok (m, Z.of_nat (length dst)).

(** ** Reading *)

(** [memcpy(x, src + size, n)]. *)
Definition rd (src : list Z) (size n : nat) : outcome (list Z) :=
  if (size + n <=? length src)%nat then Ok (take n (drop size src)) else Undef.
(** [CHECK_EQ(src[size], c)]. *)
Definition check_tag (src : list Z) (size : nat) (c : Z) : outcome unit :=
  b ← deref (src !! size); CHECK (b =? c).

(** One format character: the value stored through its pointer and the new
    [size]. *)
Definition get_field (c : Z) (src : list Z) (size : nat)
    : option (outcome (fmt_arg * nat)) :=
  let tagged (n : nat) (f : list Z -> fmt_arg) :=
    (_ ← check_tag src size c;
     bs ← rd src (S size) n; Ok (f bs, (S size + n)%nat)) in
  let plain (n : nat) :=
    (bs ← rd src size n; Ok (AInt (le_combine bs), (size + n)%nat)) in
  if c =? ch_i then Some (tagged 4%nat (fun bs => AInt (wrap32 (le_combine bs))))
  else if c =? ch_f then Some (tagged 4%nat (fun bs => AFloat (le_combine bs)))
  else if c =? ch_1 then Some (plain 1%nat)
  else if c =? ch_2 then Some (plain 2%nat)
  else if c =? ch_4 then Some (plain 4%nat)
  else if c =? ch_s then Some (
    (* [int len = strlen(src + size)] counts the tag, which is skipped next *)
    _ ← (if existsb (Z.eqb 0) (drop size src) then Ok tt else Undef);
    let len := length (cstr (drop size src)) in
    _ ← check_tag src size ch_s;
    x ← rd src (S size) len;
    Ok (AStr (cstr (x ++ [0])), (S size + (len + 1))%nat))
  else if c =? ch_p then Some (tagged 8%nat (fun bs => APtr (le_combine bs)))
  else None.

Fixpoint parse_fields (format : list Z) (src : list Z) (size : nat)
    : outcome (list fmt_arg * nat) :=
  match format with
  | [] => Ok ([], size)
  | c :: format =>
      match get_field c src size with
      | Some r =>
          '(a, size) ← r;
          '(args, size) ← parse_fields format src size;
          Ok (a :: args, size)
      | None => parse_fields format src size
      end
  end.

Definition parse_frame (format : string) (src : list Z) : outcome (list fmt_arg * nat) :=
  _ ← CHECK (bool_decide (cstr src = FMARKER));
  parse_fields (bytes_of_string format) src (length FMARKER + 1).

Definition ParseFormatFrame `{C : Czmq} (format : string) (m : Msg)
    : outcome (list fmt_arg * nat) :=
  src ← FrameStr m; parse_frame format src.

(** ** Round trip *)

(** The bytes of a field. *)
Definition enc_field (ca : Z * fmt_arg) : list Z :=
  match put_field ca.1 with
  | Some put => match put ca.2 with Ok bs => bs | _ => [] end
  | None => []
  end.
Definition enc_fields (fs : list (Z * fmt_arg)) : list Z := concat (map enc_field fs).

(** An argument a format character can carry. *)
Inductive fits : Z * fmt_arg -> Prop :=
| fits_i x : INT_MIN <= x <= INT_MAX -> fits (ch_i, AInt x)
| fits_f b : 0 <= b < 2 ^ 32 -> fits (ch_f, AFloat b)
| fits_1 x : 0 <= x < 2 ^ 8 -> fits (ch_1, AInt x)
| fits_2 x : 0 <= x < 2 ^ 16 -> fits (ch_2, AInt x)
| fits_4 x : 0 <= x < 2 ^ 32 -> fits (ch_4, AInt x)
| fits_p x : 0 <= x < 2 ^ 64 -> fits (ch_p, APtr x).
Inductive fits_any : Z * fmt_arg -> Prop :=
| fits_sized ca : fits ca -> fits_any ca
| fits_s str : Forall (fun b => b <> 0) str -> fits_any (ch_s, AStr str).

#[export] Hint Constructors fits fits_any : singa.

Lemma cstr_nonzero str rest : Forall (fun b => b <> 0) str -> cstr (str ++ 0 :: rest) = str.
Proof.
  induction 1 as [|b str Hb Hs IH]; simpl; [done|].
  destruct (Z.eqb_spec b 0); [done|]. by rewrite IH.
Qed.

Lemma cstr_nonzero_end str : Forall (fun b => b <> 0) str -> cstr str = str.
Proof.
  induction 1 as [|b str Hb Hs IH]; simpl; [done|].
  destruct (Z.eqb_spec b 0); [done|]. by rewrite IH.
Qed.

Lemma rd_app pre bs post n :
  n = length bs -> rd (pre ++ bs ++ post) (length pre) n = Ok bs.
Proof.
  intros ->. unfold rd. rewrite !length_app.
  destruct (Nat.leb_spec (length pre + length bs) (length pre + (length bs + length post)));
    [|lia].
  by rewrite drop_app_length, take_app_length.
Qed.

Lemma check_tag_app pre c rest : check_tag (pre ++ c :: rest) (length pre) c = Ok tt.
Proof.
  unfold check_tag. rewrite list_lookup_middle by done.
  rewrite deref_Some, bind_Ok. unfold CHECK. by rewrite Z.eqb_refl.
Qed.

(** Every field but a string is read back where it was written. *)
Lemma fits_put_get ca :
  fits ca ->
  (exists put, put_field ca.1 = Some put /\ put ca.2 = Ok (enc_field ca)) /\
  forall pre post,
    get_field ca.1 (pre ++ enc_field ca ++ post) (length pre)
    = Some (Ok (ca.2, (length pre + length (enc_field ca))%nat)).
Proof.
  assert (forall c n x (mk : list Z -> fmt_arg) pre post,
    (_ ← check_tag (pre ++ (c :: le_split n x) ++ post) (length pre) c;
     bs ← rd (pre ++ (c :: le_split n x) ++ post) (S (length pre)) n;
     Ok (mk bs, (S (length pre) + n)%nat))
    = Ok (mk (le_split n x), (length pre + length (c :: le_split n x))%nat)) as Htag.
  { intros c n x mk pre post. simpl app. rewrite check_tag_app, bind_Ok.
    replace (pre ++ c :: le_split n x ++ post) with ((pre ++ [c]) ++ le_split n x ++ post)
      by by rewrite <- app_assoc.
    replace (S (length pre)) with (length (pre ++ [c])) by len_lia.
    rewrite rd_app by by rewrite length_le_split.
    rewrite bind_Ok, length_app. simpl. rewrite length_le_split. do 2 f_equal. lia. }
  assert (forall n x pre post,
    (bs ← rd (pre ++ le_split n x ++ post) (length pre) n;
     Ok (AInt (le_combine bs), (length pre + n)%nat))
    = Ok (AInt (le_combine (le_split n x)), (length pre + length (le_split n x))%nat)) as Hplain.
  { intros n x pre post. rewrite rd_app by by rewrite length_le_split.
    by rewrite bind_Ok, length_le_split. }
  destruct 1 as [x H|b H|x H|x H|x H|x H];
    (split; [eexists; split; reflexivity|]); intros pre post.
  - etransitivity; [exact (f_equal Some
      (Htag ch_i 4%nat x (fun bs => AInt (wrap32 (le_combine bs))) pre post))|].
    cbn beta. by rewrite wrap32_le_split, wrap32_id.
  - etransitivity; [exact (f_equal Some
      (Htag ch_f 4%nat b (fun bs => AFloat (le_combine bs)) pre post))|].
    cbn beta. by rewrite le_combine_split_small.
  - etransitivity; [exact (f_equal Some (Hplain 1%nat x pre post))|].
    cbn beta. by rewrite le_combine_split_small.
  - etransitivity; [exact (f_equal Some (Hplain 2%nat x pre post))|].
    cbn beta. by rewrite le_combine_split_small.
  - etransitivity; [exact (f_equal Some (Hplain 4%nat x pre post))|].
    cbn beta. by rewrite le_combine_split_small.
  - etransitivity; [exact (f_equal Some
      (Htag ch_p 8%nat x (fun bs => APtr (le_combine bs)) pre post))|].
    cbn beta. by rewrite le_combine_split_small.
Qed.

Lemma fits_any_put ca :
  fits_any ca -> exists put, put_field ca.1 = Some put /\ put ca.2 = Ok (enc_field ca).
Proof.
  destruct 1 as [ca H|str H]; [by apply fits_put_get|].
  eexists. split; [reflexivity|]. done.
Qed.

Lemma enc_string str :
  Forall (fun b => b <> 0) str -> enc_field (ch_s, AStr str) = ch_s :: str ++ [0].
Proof.
  intros H. change (enc_field (ch_s, AStr str)) with (ch_s :: cstr str ++ [0]).
  by rewrite cstr_nonzero_end.
Qed.

Lemma add_fields_Ok fs d0 :
  Forall fits_any fs -> Z.of_nat (length d0 + length (enc_fields fs)) <= kMaxFrameLen ->
  add_fields (map fst fs) (map snd fs) d0 = Ok (d0 ++ enc_fields fs).
Proof.
  intros Hfs. revert d0. induction Hfs as [|ca fs Hca Hfs IH]; intros d0 Hlen.
  { simpl. by rewrite app_nil_r. }
  unfold enc_fields in *. simpl map in *. simpl concat in *. rewrite length_app in Hlen.
  destruct (fits_any_put ca Hca) as (put & Hput & Henc).
  cbn [add_fields]. rewrite Hput, Henc, bind_Ok, length_app.
  destruct (Z.leb_spec (Z.of_nat (length d0 + length (enc_field ca))) kMaxFrameLen); [|lia].
  rewrite bind_Ok, IH by (rewrite length_app; lia).
  by rewrite app_assoc.
Qed.

Lemma parse_fields_Ok fs pre post :
  Forall fits fs ->
  parse_fields (map fst fs) (pre ++ enc_fields fs ++ post) (length pre)
  = Ok (map snd fs, (length pre + length (enc_fields fs))%nat).
Proof.
  intros Hfs. revert pre. induction Hfs as [|ca fs Hca Hfs IH]; intros pre.
  { simpl. by rewrite Nat.add_0_r. }
  unfold enc_fields in *. simpl map. simpl concat. rewrite <- app_assoc.
  destruct (fits_put_get ca Hca) as [_ Hget].
  cbn [parse_fields]. rewrite Hget, bind_Ok.
  rewrite (app_assoc pre), <- length_app, IH, bind_Ok.
  f_equal. f_equal. rewrite !length_app. lia.
Qed.

Lemma marker_cstr rest : cstr (FMARKER ++ 0 :: rest) = FMARKER.
Proof. reflexivity. Qed.

Lemma parse_frame_prefix fmt rest :
  parse_frame fmt ((FMARKER ++ [0]) ++ rest)
  = parse_fields (bytes_of_string fmt) ((FMARKER ++ [0]) ++ rest) (length (FMARKER ++ [0])).
Proof. unfold parse_frame. by rewrite <- app_assoc. Qed.

(** The frame a list of fields makes. *)
Definition frame_of (fs : list (Z * fmt_arg)) : list Z := (FMARKER ++ [0]) ++ enc_fields fs.

Lemma length_frame_of fs : length (frame_of fs) = (8 + length (enc_fields fs))%nat.
Proof. unfold frame_of. by rewrite length_app. Qed.

Section frames.
Context `{C : Czmq} `{!CzmqLaws C}.

(** The message [m] holds the frames [fs]. *)
Definition has_frames (m : Msg) (fs : list (list Z)) : Prop :=
  exists z, msg_ m = Some z /\ zframes z = fs.
(** Its current frame is the [k]-th. *)
Definition at_frame (m : Msg) (fs : list (list Z)) (k : nat) : Prop :=
  exists z, msg_ m = Some z /\ zframes z = fs /\ zcursor z = Some k /\ frame_ m = Some k.
Definition same_header (m m' : Msg) : Prop :=
  src m' = src m /\ dst m' = dst m /\ type m' = type m /\
  trgt_val m' = trgt_val m /\ trgt_version m' = trgt_version m.

(** [m'] is [m] as its receiver sees it, the first frame current; on the way the
    header may have been addressed and frames appended. *)
Definition delivered (m m' : Msg) : Prop :=
  exists fs more, has_frames m fs /\ at_frame m' (fs ++ more) 0.

(** The same with no frame appended. *)
Definition arrives (m m' : Msg) : Prop := exists fs, has_frames m fs /\ at_frame m' fs 0.

Lemma has_frames_inj m fs fs' : has_frames m fs -> has_frames m fs' -> fs = fs'.
Proof. intros (z & Hz & <-) (z' & Hz' & <-). congruence. Qed.

Lemma delivered_at m m' fs :
  delivered m m' -> has_frames m fs -> exists more, at_frame m' (fs ++ more) 0.
Proof.
  intros (fs' & more & H & Ha) Hf. exists more. by rewrite <- (has_frames_inj _ _ _ H Hf).
Qed.

Lemma arrives_at m m' fs : arrives m m' -> has_frames m fs -> at_frame m' fs 0.
Proof. intros (fs' & H & Ha) Hf. by rewrite <- (has_frames_inj _ _ _ H Hf). Qed.

Lemma AddFrame_Ok m fs b :
  has_frames m fs -> exists m', AddFrame b m = Ok m' /\ has_frames m' (fs ++ [b]) /\ same_header m m'.
Proof.
  intros (z & Hz & <-). unfold AddFrame. rewrite Hz, deref_Some, bind_Ok.
  eexists. split; [done|]. split; [|done].
  exists (zmsg_addmem z b). by rewrite zframes_addmem.
Qed.

Lemma AddFormatFrame_Ok fmt fields m fs :
  has_frames m fs -> bytes_of_string fmt = map fst fields ->
  Forall fits_any fields -> Z.of_nat (length (frame_of fields)) <= kMaxFrameLen ->
  exists m', AddFormatFrame fmt (map snd fields) m
    = Ok (m', Z.of_nat (length (frame_of fields))) /\
    has_frames m' (fs ++ [frame_of fields]) /\ same_header m m'.
Proof.
  intros Hm Hfmt Hfit Hlen. rewrite length_frame_of in Hlen.
  unfold AddFormatFrame. rewrite Hfmt, add_fields_Ok by done. rewrite bind_Ok.
  destruct (AddFrame_Ok m fs (frame_of fields) Hm) as (m' & E & H).
  unfold frame_of in *. rewrite E, bind_Ok. eauto.
Qed.

Lemma FrameData_Ok m fs k d : at_frame m fs k -> fs !! k = Some d -> FrameData m = Ok d.
Proof.
  intros (z & Hz & Hfs & _ & Hf) Hd. unfold FrameData.
  rewrite Hz, Hf, !deref_Some, !bind_Ok. f_equal. apply zframe_data_spec. by rewrite Hfs.
Qed.

Lemma ParseFormatFrame_Ok fmt fields rest m fs k :
  at_frame m fs k -> fs !! k = Some (frame_of (fields ++ rest)) ->
  bytes_of_string fmt = map fst fields -> Forall fits fields ->
  ParseFormatFrame fmt m = Ok (map snd fields, (8 + length (enc_fields fields))%nat).
Proof.
  intros (z & Hz & Hfs & _ & Hf) Hd Hfmt Hfit. unfold ParseFormatFrame, FrameStr.
  rewrite Hz, Hf, !deref_Some, !bind_Ok.
  rewrite (zframe_strdup_spec z k _ ltac:(by rewrite Hfs)).
  unfold frame_of, enc_fields. rewrite map_app, concat_app, <- !app_assoc.
  rewrite app_assoc, parse_frame_prefix, Hfmt.
  by rewrite parse_fields_Ok.
Qed.

Lemma FirstFrame_Ok m f fs :
  has_frames m (f :: fs) ->
  exists m', FirstFrame m = Ok m' /\ at_frame m' (f :: fs) 0 /\ same_header m m'.
Proof.
  intros (z & Hz & Hfs). unfold FirstFrame. rewrite Hz, deref_Some, bind_Ok.
  destruct (zmsg_first_spec z) as (Hff & Hfc & Hfp). rewrite Hfs in Hfp, Hff.
  destruct (zmsg_first z) as [z' p]. simpl in *. subst.
  eexists. split; [done|]. split; [|done]. by exists z'.
Qed.

Lemma LastFrame_Ok m fs f :
  has_frames m (fs ++ [f]) ->
  exists m', LastFrame m = Ok m' /\ at_frame m' (fs ++ [f]) (length fs) /\ same_header m m'.
Proof.
  intros (z & Hz & Hfs). unfold LastFrame. rewrite Hz, deref_Some, bind_Ok.
  destruct (zmsg_last_spec z) as (Hff & Hfc & Hfp). rewrite Hfs in Hfp, Hff.
  assert ((zmsg_last z).2 = Some (length fs)) as Hp.
  { rewrite Hfp. destruct (fs ++ [f]) eqn:E; [by destruct fs|].
    rewrite <- E, length_app. f_equal. simpl. lia. }
  destruct (zmsg_last z) as [z' p]. simpl in *. subst.
  eexists. split; [done|]. split; [|done]. exists z'. simpl. auto.
Qed.

Lemma NextFrame_Ok m fs k :
  at_frame m fs k -> (S k < length fs)%nat ->
  exists m', NextFrame m = Ok (m', true) /\ at_frame m' fs (S k) /\ same_header m m'.
Proof.
  intros (z & Hz & Hfs & Hc & Hf) Hk. unfold NextFrame. rewrite Hz, deref_Some, bind_Ok.
  destruct (zmsg_next_spec z k Hc) as (Hff & Hfc & Hfp). rewrite Hfs in Hff, Hfp.
  rewrite decide_True in Hfp by done.
  destruct (zmsg_next z) as [z' p]. simpl in Hff, Hfc, Hfp. rewrite Hfp in Hfc |- *.
  eexists. split; [done|]. split; [|done]. exists z'. simpl. auto.
Qed.

Lemma NextFrame_end m fs k :
  at_frame m fs k -> (S k = length fs)%nat ->
  exists m', NextFrame m = Ok (m', false) /\ has_frames m' fs /\ same_header m m'.
Proof.
  intros (z & Hz & Hfs & Hc & Hf) Hk. unfold NextFrame. rewrite Hz, deref_Some, bind_Ok.
  destruct (zmsg_next_spec z k Hc) as (Hff & Hfc & Hfp). rewrite Hfs in Hff, Hfp.
  rewrite decide_False in Hfp by lia.
  destruct (zmsg_next z) as [z' p]. simpl in Hff, Hfc, Hfp. rewrite Hfp in Hfc |- *.
  eexists. split; [done|]. split; [|done]. exists z'. simpl. auto.
Qed.

Lemma write_frame_Ok m fs k d d' :
  at_frame m fs k -> fs !! k = Some d -> length d' = length d ->
  exists m', write_frame d' m = Ok m' /\ at_frame m' (<[k := d']> fs) k /\ same_header m m'.
Proof.
  intros (z & Hz & Hfs & Hc & Hf) Hd Hl. unfold write_frame.
  rewrite Hz, Hf, !deref_Some, !bind_Ok.
  destruct (zframe_write_spec z k d d') as [Hw Hwc]; [by rewrite Hfs|done|].
  eexists. split; [done|]. split; [|done].
  exists (zframe_write z k d'). simpl. rewrite Hw, Hwc, Hfs. auto.
Qed.

Lemma at_has m fs k : at_frame m fs k -> has_frames m fs.
Proof. intros (z & ? & ? & _). by exists z. Qed.
End frames.
#[export] Hint Resolve at_has : singa.

(** A frame written by [AddFormatFrame] is read back by [ParseFormatFrame],
    with the same format or with any prefix of it, in any message where it is the
    current frame, provided the part that is read holds no string: the values
    and the number of bytes are those written. *)
Theorem FormatFrame_roundtrip `{C : Czmq} `{!CzmqLaws C}
    (fmt fmt' : string) (fields rest : list (Z * fmt_arg)) (m : Msg) (fs : list (list Z))
    (Hm : has_frames m fs)
    (Hfmt : bytes_of_string fmt = map fst (fields ++ rest))
    (Hfmt' : bytes_of_string fmt' = map fst fields)
    (Hfit : Forall fits fields) (Hrest : Forall fits_any rest)
    (Hlen : Z.of_nat (length (frame_of (fields ++ rest))) <= kMaxFrameLen) :
  let frame := frame_of (fields ++ rest) in
  exists m', AddFormatFrame fmt (map snd (fields ++ rest)) m = Ok (m', Z.of_nat (length frame)) /\
    has_frames m' (fs ++ [frame]) /\ same_header m m' /\
    forall m2 fs2 k, at_frame m2 fs2 k -> fs2 !! k = Some frame ->
      ParseFormatFrame fmt' m2 = Ok (map snd fields, (8 + length (enc_fields fields))%nat).
Proof.
  intros frame.
  destruct (AddFormatFrame_Ok fmt (fields ++ rest) m fs) as (m' & E & Hm' & Hh);
    [done|done| |done|].
  { apply Forall_app. split; [|done].
    eapply Forall_impl; [|exact Hfit]. by constructor. }
  exists m'. split; [done|]. split; [done|]. split; [done|].
  intros m2 fs2 k Hat Hk. by eapply ParseFormatFrame_Ok.
Qed.

(** Strings: the parser counts the tag of a string as one of its characters.
    A string that ends the format is still read back, with a length one larger
    than what was written; but any [int] after a string makes the parser stop on
    a [CHECK], unless the low byte of that [int] happens to be the letter i. *)
Theorem FormatFrame_string_misaligned (str : list Z) (x : Z)
    (Hstr : Forall (fun b => b <> 0) str) (Hx : x mod 256 <> ch_i) :
  parse_frame "s" (frame_of [(ch_s, AStr str)] ++ [0])
    = Ok ([AStr str], (1 + length (frame_of [(ch_s, AStr str)]))%nat) /\
  parse_frame "si" (frame_of [(ch_s, AStr str); (ch_i, AInt x)] ++ [0]) = Fatal.
Proof.
  assert (forall pre post, get_field ch_s (pre ++ (ch_s :: str ++ [0]) ++ post) (length pre)
    = Some (Ok (AStr str, (length pre + length str + 3)%nat))) as Hget.
  { intros pre post. unfold get_field. simpl.
    rewrite drop_app_length. f_equal.
    assert (existsb (Z.eqb 0) (ch_s :: (str ++ [0]) ++ post) = true) as ->.
    { apply existsb_exists. exists 0. split; [|done].
      right. rewrite !in_app_iff. simpl. auto. }
    rewrite bind_Ok, check_tag_app, bind_Ok.
    assert (cstr (ch_s :: (str ++ [0]) ++ post) = ch_s :: str) as ->.
    { rewrite <- app_assoc. simpl. by rewrite cstr_nonzero. }
    replace (pre ++ ch_s :: (str ++ [0]) ++ post) with ((pre ++ [ch_s]) ++ (str ++ [0]) ++ post)
      by by rewrite <- app_assoc.
    replace (S (length pre)) with (length (pre ++ [ch_s])) by len_lia.
    rewrite rd_app by len_lia. rewrite bind_Ok.
    rewrite <- app_assoc. simpl. rewrite cstr_nonzero by done. do 2 f_equal. len_lia. }
  assert (forall pre b post l n, b <> ch_i -> l = pre ++ b :: post -> n = length pre ->
    get_field ch_i l n = Some Fatal) as Hbad.
  { intros pre b post l n Hb -> ->. unfold get_field, check_tag. simpl.
    rewrite list_lookup_middle by done. rewrite deref_Some, bind_Ok.
    unfold CHECK. by destruct (Z.eqb_spec b ch_i). }
  unfold frame_of, enc_fields. cbn [map concat]. rewrite enc_string by done.
  split; rewrite <- !(app_assoc (FMARKER ++ [0])), parse_frame_prefix;
    remember (FMARKER ++ [0]) as pre eqn:Epre.
  - change (bytes_of_string "s") with [ch_s]. cbn [parse_fields].
    rewrite <- app_assoc, Hget, !bind_Ok. do 2 f_equal.
    len_lia.
  - change (bytes_of_string "si") with [ch_s; ch_i]. cbn [parse_fields].
    rewrite <- app_assoc, Hget, bind_Ok.
    rewrite (Hbad (pre ++ (ch_s :: str ++ [0]) ++ [ch_i]) (x mod 256)
      (le_split 3 (x / 256) ++ [0])); [done|done| |len_lia].
    rewrite <- !app_assoc. simpl. by rewrite <- !app_assoc.
Qed.

Lemma FormatFrame_string_misaligned_witness :
  parse_frame "s" (frame_of [(ch_s, AStr [84; 101; 115; 116])] ++ [0])
    = Ok ([AStr [84; 101; 115; 116]],
          S (length (frame_of [(ch_s, AStr [84; 101; 115; 116])]))) /\
  parse_frame "si" (frame_of [(ch_s, AStr [84; 101; 115; 116]); (ch_i, AInt 12)] ++ [0]) = Fatal.
Proof.
  apply (FormatFrame_string_misaligned [84; 101; 115; 116] 12).
  - repeat constructor; discriminate.
  - vm_compute. discriminate.
Defined.

#[local] Existing Instances ListCzmq.czmq ListCzmq.czmq_laws.

Lemma FormatFrame_roundtrip_witness :
  let fields := [(ch_i, AInt 1)] in
  let rest := [(ch_p, APtr 4096)] in
  let frame := frame_of (fields ++ rest) in
  exists m', AddFormatFrame "ip" (map snd (fields ++ rest)) Msg_new
      = Ok (m', Z.of_nat (length frame)) /\
    has_frames m' ([] ++ [frame]) /\ same_header Msg_new m' /\
    forall m2 fs2 k, at_frame m2 fs2 k -> fs2 !! k = Some frame ->
      ParseFormatFrame "i" m2 = Ok (map snd fields, (8 + length (enc_fields fields))%nat).
Proof.
  apply (FormatFrame_roundtrip "ip" "i" [(ch_i, AInt 1)] [(ch_p, APtr 4096)] Msg_new []).
  - by exists zmsg_new.
  - reflexivity.
  - reflexivity.
  - repeat constructor; discriminate.
  - repeat constructor; discriminate.
  - vm_compute. discriminate.
Defined.
