(* ===== verification/Float32.v ===== *)
(** * float: IEEE 754 binary32 on its 32 bits

    The code computes on [float]; a [float] is modelled by its bit pattern (a
    [Z] below [2^32]), and the operations by the Standard Library's
    specification of IEEE 754 arithmetic at precision 24 and exponent bound 128,
    rounding to nearest even.  A NaN result is the default quiet NaN. *)

From Stdlib Require Import SpecFloat.
From S2P Require Import Prelude.

Definition f32_decode (b : Z) : spec_float :=
  let s := Z.testbit b 31 in
  let e := (b / 2 ^ 23) mod 2 ^ 8 in
  let m := b mod 2 ^ 23 in
  if e =? 0 then
    if m =? 0 then S754_zero s else S754_finite s (Z.to_pos m) (-149)
  else if e =? 255 then
    if m =? 0 then S754_infinity s else S754_nan
  else S754_finite s (Z.to_pos (m + 2 ^ 23)) (e - 150).

Definition f32_sign (s : bool) : Z := if s then 2 ^ 31 else 0.
Definition f32_nan : Z := 255 * 2 ^ 23 + 2 ^ 22.

Definition f32_encode (f : spec_float) : Z :=
  match f with
  | S754_zero s => f32_sign s
  | S754_infinity s => f32_sign s + 255 * 2 ^ 23
  | S754_nan => f32_nan
  | S754_finite s m e =>
      u32 (if Zpos m <? 2 ^ 23 then f32_sign s + Zpos m
           else f32_sign s + (e + 150) * 2 ^ 23 + (Zpos m - 2 ^ 23))
  end.

Definition f32_op2 (op : spec_float -> spec_float -> spec_float) (a b : Z) : Z :=
  f32_encode (op (f32_decode a) (f32_decode b)).
Definition f32_add : Z -> Z -> Z := f32_op2 (SFadd 24 128).
Definition f32_sub : Z -> Z -> Z := f32_op2 (SFsub 24 128).
Definition f32_mul : Z -> Z -> Z := f32_op2 (SFmul 24 128).
Definition f32_div : Z -> Z -> Z := f32_op2 (SFdiv 24 128).
Definition f32_neg (a : Z) : Z := f32_encode (SFopp (f32_decode a)).
Definition f32_ltb (a b : Z) : bool := SFltb (f32_decode a) (f32_decode b).
Definition f32_eqb (a b : Z) : bool := SFeqb (f32_decode a) (f32_decode b).
(** Conversion of an integer to [float]. *)
Definition f32_of_Z (n : Z) : Z := f32_encode (binary_normalize 24 128 n 0 false).
Definition f32_one : Z := f32_of_Z 1.

Definition is_f32 (b : Z) : Prop := 0 <= b < 2 ^ 32.

Lemma f32_encode_range f : is_f32 (f32_encode f).
Proof.
  unfold is_f32. destruct f as [[]|[]| |s m e]; simpl; unfold f32_nan; try lia.
  unfold u32. apply Z.mod_pos_bound. lia.
Qed.

Lemma f32_add_range a b : is_f32 (f32_add a b).
Proof. apply f32_encode_range. Qed.
Lemma f32_sub_range a b : is_f32 (f32_sub a b).
Proof. apply f32_encode_range. Qed.
Lemma f32_div_range a b : is_f32 (f32_div a b).
Proof. apply f32_encode_range. Qed.
#[export] Hint Resolve f32_add_range f32_sub_range f32_div_range : singa.

Example f32_examples :
  f32_add (f32_of_Z 1) (f32_of_Z 2) = f32_of_Z 3 /\
  f32_div (f32_of_Z 1) (f32_of_Z 3) = 0x3eaaaaab /\
  f32_add (f32_of_Z 16777216) (f32_of_Z 1) = f32_of_Z 16777216.
Proof. repeat split; vm_compute; reflexivity. Qed.

(** ** Arrays of floats as bytes *)
Fixpoint f32s_of_bytes (bs : list Z) : list Z :=
  match bs with
  | b0 :: b1 :: b2 :: b3 :: bs => le_combine [b0; b1; b2; b3] :: f32s_of_bytes bs
  | _ => []
  end.
Definition bytes_of_f32s (vs : list Z) : list Z := concat (map (le_split 4) vs).

Lemma length_bytes_of_f32s vs : length (bytes_of_f32s vs) = (4 * length vs)%nat.
Proof. unfold bytes_of_f32s. induction vs as [|v vs IH]; [done|].
  cbn [map concat]. rewrite length_app, length_le_split, IH. simpl. lia. Qed.

Lemma f32s_of_bytes_of_f32s vs :
  Forall is_f32 vs -> f32s_of_bytes (bytes_of_f32s vs) = vs.
Proof.
  induction 1 as [|v vs Hv Hvs IH]; [done|].
  unfold bytes_of_f32s in *. cbn [map concat].
  pose proof (le_combine_split_small 4 v Hv) as E.
  destruct (le_split 4 v) as [|b0 [|b1 [|b2 [|b3 [|? ?]]]]] eqn:Es;
    try (pose proof (length_le_split 4 v) as Hl; rewrite Es in Hl; discriminate).
  cbn [app f32s_of_bytes]. by rewrite E, IH.
Qed.

Lemma length_f32s_of_bytes bs n :
  length bs = (4 * n)%nat -> length (f32s_of_bytes bs) = n.
Proof.
  revert bs. induction n as [|n IH]; intros bs Hl; [by destruct bs|].
  destruct bs as [|b0 [|b1 [|b2 [|b3 bs]]]]; simpl in Hl; try lia.
  simpl. rewrite IH; lia.
Qed.

(** [for (i...) a[i] op= b[i]] on two arrays of the same length. *)
Definition f32s_add (a b : list Z) : list Z := zip_with f32_add a b.
Definition f32s_sub (a b : list Z) : list Z := zip_with f32_sub a b.
Definition f32s_div (a : list Z) (d : Z) : list Z := map (fun x => f32_div x d) a.

Lemma f32s_add_range a b : Forall is_f32 (f32s_add a b).
Proof.
  unfold f32s_add. revert b. induction a as [|x a IH]; intros [|y b]; simpl; constructor; auto with singa.
Qed.
Lemma f32s_sub_range a b : Forall is_f32 (f32s_sub a b).
Proof.
  unfold f32s_sub. revert b. induction a as [|x a IH]; intros [|y b]; simpl; constructor; auto with singa.
Qed.
Lemma f32s_div_range a d : Forall is_f32 (f32s_div a d).
Proof. unfold f32s_div. induction a; simpl; constructor; auto with singa. Qed.
#[export] Hint Resolve f32s_add_range f32s_sub_range f32s_div_range : singa.

(** ** Double precision

    The learning-rate schedules compute on [double]; a [double] is a [spec_float]
    in the format of precision 53 and exponent bound 1024. *)
Definition f64_of_f32 (b : Z) : spec_float :=
  match f32_decode b with
  | S754_finite s m e => binary_normalize 53 1024 (if s then Zneg m else Zpos m) e s
  | f => f
  end.
Definition f32_of_f64 (f : spec_float) : Z :=
  f32_encode
    (match f with
     | S754_finite s m e => binary_normalize 24 128 (if s then Zneg m else Zpos m) e s
     | f => f
     end).
Definition f64_of_Z (n : Z) : spec_float := binary_normalize 53 1024 n 0 false.
Definition f64_add : spec_float -> spec_float -> spec_float := SFadd 53 1024.
Definition f64_sub : spec_float -> spec_float -> spec_float := SFsub 53 1024.
Definition f64_mul : spec_float -> spec_float -> spec_float := SFmul 53 1024.
Definition f64_div : spec_float -> spec_float -> spec_float := SFdiv 53 1024.

Definition f32_sqrt (a : Z) : Z := f32_encode (SFsqrt 24 128 (f32_decode a)).

Lemma f32_mul_range a b : is_f32 (f32_mul a b).
Proof. apply f32_encode_range. Qed.
Lemma f32_of_f64_range f : is_f32 (f32_of_f64 f).
Proof. apply f32_encode_range. Qed.
#[export] Hint Resolve f32_mul_range f32_of_f64_range : singa.

Lemma zip_with_range f (a b : list Z) :
  (forall x y, is_f32 (f x y)) -> Forall is_f32 (zip_with f a b).
Proof. intros Hf. revert b. induction a as [|x a IH]; intros [|y b]; simpl; constructor; auto. Qed.
Lemma map_range f (a : list Z) : (forall x, is_f32 (f x)) -> Forall is_f32 (map f a).
Proof. intros Hf. induction a; simpl; constructor; auto. Qed.

Example f64_examples :
  f32_of_f64 (f64_div (f64_of_Z 1) (f64_of_Z 3)) = f32_div (f32_of_Z 1) (f32_of_Z 3) /\
  f32_sqrt (f32_of_Z 9) = f32_of_Z 3.
Proof. split; vm_compute; reflexivity. Qed.
