(* ===== verification/Metric.v ===== *)
(** * utils/common.h, utils/common.cc: class Metric

    The counts and sums a worker's layers report, by name, and the message that carries
    them to the stub.  A [MetricProto] stands for its serialised bytes. *)

From S2P Require Import Prelude Float32.

(** [std::unordered_map<string, pair<int, float>>]; floats by their bits. *)
Definition Metric : Type := gmap string (Z * Z).
Definition Metric_new : Metric := ∅.
Record MetricProto := mkMetricProto { mp_name : list string; mp_count : list Z; mp_val : list Z }.

(** An [unordered_map] is gone through in an order of the library's. *)
Class MapOrder := {
  entries : Metric -> list (string * (Z * Z));
  entries_perm m : entries m ≡ₚ map_to_list m;
}.

Definition Metric_Add (name : string) (value : Z) (m : Metric) : outcome Metric :=
  match m !! name with
  | None => Ok (<[name := (1, value)]> m)
  | Some (n, v) => n ← iadd n 1; Ok (<[name := (n, f32_add v value)]> m)
  end.
Section metric.
Context `{O : MapOrder}.

(** The loop clears copies of the entries. *)
Definition Metric_Reset (m : Metric) : Metric :=
  foldl (fun (m : Metric) e => let e : string * (Z * Z) := (e.1, (0, 0)) in m) m (entries m).

Definition Metric_ToString (m : Metric) : MetricProto :=
  let es := entries m in mkMetricProto (map fst es) (map (fun e => e.2.1) es) (map (fun e => e.2.2) es).

Fixpoint parse_entries (names : list string) (i : Z) (proto : MetricProto) (m : Metric) : outcome Metric :=
  match names with
  | [] => Ok m
  | name :: names =>
      n ← idx (mp_count proto) i; v ← idx (mp_val proto) i;
      parse_entries names (i + 1) proto (<[name := (n, v)]> m)
  end.
Definition Metric_ParseFrom (proto : MetricProto) (m : Metric) : outcome Metric :=
  parse_entries (mp_name proto) 0 proto (Metric_Reset m).
Definition Metric_make (proto : MetricProto) : outcome Metric := Metric_ParseFrom proto Metric_new.

(** ** Properties *)
Lemma Metric_Reset_nothing m : Metric_Reset m = m.
Proof. unfold Metric_Reset. by induction (entries m). Qed.
Lemma parse_entries_Ok es : forall pre m,
  NoDup (map fst es) ->
  parse_entries (map fst es) (Z.of_nat (length pre))
    (mkMetricProto (map fst (pre ++ es)) (map (fun e => e.2.1) (pre ++ es)) (map (fun e => e.2.2) (pre ++ es))) m =
  Ok ((list_to_map es : Metric) ∪ m).
Proof.
  induction es as [|[k [n v]] es IH]; intros pre m Hnd.
  { cbn [map parse_entries]. f_equal. symmetry. apply (left_id_L ∅ (∪)). }
  change (map fst ((k, (n, v)) :: es)) with (k :: map fst es) in Hnd |- * at 1. cbn [parse_entries].
  apply list.NoDup_cons in Hnd as [Hk Hnd]. cbn [mp_count mp_val].
  assert ((pre ++ (k, (n, v)) :: es) !! length pre = Some (k, (n, v))) as Hl by (apply list_lookup_middle; done).
  rewrite (idx_lookup (map (fun e => e.2.1) _) (length pre) n), bind_Ok by (by rewrite list_lookup_fmap, Hl).
  rewrite (idx_lookup _ (length pre) v), bind_Ok by (by rewrite list_lookup_fmap, Hl).
  specialize (IH (pre ++ [(k, (n, v))]) (<[k := (n, v)]> m) Hnd). rewrite <- app_assoc, length_app in IH. simpl in IH.
  replace (Z.of_nat (length pre) + 1) with (Z.of_nat (length pre + 1)) by lia. rewrite IH. f_equal. simpl fst. simpl snd.
  change (list_to_map es ∪ <[k := (n, v)]> m = (<[k := (n, v)]> (list_to_map es : Metric)) ∪ m).
  etrans; [symmetry; apply insert_union_r; by apply not_elem_of_list_to_map_1|apply insert_union_l].
Qed.

(** Metrics through a message.  A new metric made from the message of another is that
    metric, in whatever order its entries are sent; parsed into a metric that has entries
    already, the message replaces those of its names and, as [Reset] does nothing, leaves the
    others. *)
Theorem Metric_roundtrip (m old : Metric) :
  Metric_ParseFrom (Metric_ToString m) old = Ok (m ∪ old) /\ Metric_make (Metric_ToString m) = Ok m.
Proof.
  assert (forall old, Metric_ParseFrom (Metric_ToString m) old = Ok (m ∪ old)) as H.
  { intros o. unfold Metric_ParseFrom, Metric_ToString. rewrite Metric_Reset_nothing. cbn [mp_name].
    pose proof (entries_perm m) as Hp.
    assert (NoDup (map fst (entries m))) as Hnd.
    { pose proof (NoDup_fst_map_to_list m) as Hn. by rewrite <- (fmap_Permutation fst _ _ Hp) in Hn. }
    etrans; [exact (parse_entries_Ok (entries m) [] o Hnd)|]. do 2 f_equal. rewrite <- (list_to_map_to_list m) at 2. by apply list_to_map_proper. }
  split; [apply H|]. unfold Metric_make. rewrite H. f_equal. apply (right_id_L ∅ (∪)).
Qed.
End metric.

Definition sorted_order : MapOrder := Build_MapOrder map_to_list (fun m => Permutation_refl _).
(** Two reports of a loss. *)
Example Metric_demo :
  (m ← Metric_Add "loss" f32_one Metric_new; m ← Metric_Add "loss" (f32_of_Z 2) m;
   Metric_make (O := sorted_order) (Metric_ToString (O := sorted_order) m)) = Ok {["loss"%string := (2, f32_of_Z 3)]}.
Proof. vm_compute. reflexivity. Qed.
