(* ===== verification/Memory.v ===== *)
(** * utils/blob.h, utils/blob.cc: memory, SyncedMemory and Blob<float>

    The store is explicit: a byte memory addressed by [Z], the [SyncedMemory]
    objects and the [Blob] objects that [shared_ptr]s refer to, each by a
    number.  Two blobs that share a [SyncedMemory] alias, and a pointer taken
    from one of them (with an offset) can be sent in a message and used later.
    The build is the repository's: [-DCPU_ONLY], so every GPU path is the
    [NO_GPU] abort.  Memory released by a [shared_ptr] destructor is not
    reclaimed; [FreeHost] is. *)

From S2P Require Import Prelude Float32.

(** ** Byte memory *)

(** [n] bytes at [p], if all are allocated. *)
Fixpoint peek (c : gmap Z Z) (p : Z) (n : nat) : option (list Z) :=
  match n with
  | O => Some []
  | S n =>
      match c !! p, peek c (p + 1) n with
      | Some v, Some vs => Some (v :: vs)
      | _, _ => None
      end
  end.
Fixpoint poke (c : gmap Z Z) (p : Z) (bs : list Z) : option (gmap Z Z) :=
  match bs with
  | [] => Some c
  | b :: bs =>
      match c !! p with Some _ => poke (<[p := b]> c) (p + 1) bs | None => None end
  end.
(** [malloc] and [memset(ptr, 0, n)]; [free]. *)
Fixpoint zeros (c : gmap Z Z) (p : Z) (n : nat) : gmap Z Z :=
  match n with O => c | S n => zeros (<[p := 0]> c) (p + 1) n end.
Fixpoint unalloc (c : gmap Z Z) (p : Z) (n : nat) : gmap Z Z :=
  match n with O => c | S n => unalloc (delete p c) (p + 1) n end.

Lemma peek_length c p n bs : peek c p n = Some bs -> length bs = n.
Proof.
  revert p bs. induction n as [|n IH]; intros p bs H; simpl in H; [by injection H as <-|].
  destruct (c !! p), (peek c (p + 1) n) eqn:E; try discriminate.
  injection H as <-. simpl. by rewrite (IH _ _ E).
Qed.

Lemma peek_app c p n m :
  peek c p (n + m) =
    match peek c p n, peek c (p + Z.of_nat n) m with
    | Some l, Some k => Some (l ++ k)
    | _, _ => None
    end.
Proof.
  revert p. induction n as [|n IH]; intros p; simpl.
  { rewrite Z.add_0_r. by destruct (peek c p m). }
  rewrite IH. replace (p + 1 + Z.of_nat n) with (p + Z.of_nat (S n)) by lia.
  destruct (c !! p), (peek c (p + 1) n), (peek c (p + Z.of_nat (S n)) m); done.
Qed.

Lemma peek_insert_ne c p n q v :
  q < p \/ p + Z.of_nat n <= q -> peek (<[q := v]> c) p n = peek c p n.
Proof.
  revert p. induction n as [|n IH]; intros p H; [done|]. simpl.
  rewrite lookup_insert_ne by lia. by rewrite IH by lia.
Qed.

Lemma poke_spec bs c p old :
  peek c p (length bs) = Some old ->
  exists c', poke c p bs = Some c' /\ peek c' p (length bs) = Some bs /\
    (forall q m, q + Z.of_nat m <= p \/ p + Z.of_nat (length bs) <= q ->
       peek c' q m = peek c q m).
Proof.
  revert c p old. induction bs as [|b bs IH]; intros c p old H.
  { exists c. done. }
  simpl in H |- *. destruct (c !! p) eqn:Ep; [|done].
  destruct (peek c (p + 1) (length bs)) eqn:E; [|done].
  destruct (IH (<[p := b]> c) (p + 1) l) as (c' & Hc' & Hp & Hd).
  { rewrite peek_insert_ne by lia. done. }
  exists c'. split; [done|]. split.
  - rewrite Hp. pose proof (Hd p 1%nat ltac:(lia)) as H1. simpl in H1.
    rewrite lookup_insert_eq in H1. by destruct (c' !! p); simplify_eq.
  - intros q m Hq. rewrite Hd by lia. apply peek_insert_ne. lia.
Qed.

(** A store inside an array changes that part of it. *)
Lemma poke_splice c p l1 l2 l3 bs :
  peek c p (length (l1 ++ l2 ++ l3)) = Some (l1 ++ l2 ++ l3) -> length bs = length l2 ->
  exists c', poke c (p + Z.of_nat (length l1)) bs = Some c' /\
    peek c' p (length (l1 ++ l2 ++ l3)) = Some (l1 ++ bs ++ l3) /\
    (forall q m, q + Z.of_nat m <= p \/ p + Z.of_nat (length (l1 ++ l2 ++ l3)) <= q ->
       peek c' q m = peek c q m).
Proof.
  rewrite !length_app, !peek_app. intros H Hl.
  destruct (peek c p (length l1)) as [k1|] eqn:E1; [|done].
  destruct (peek c (p + Z.of_nat (length l1)) (length l2)) as [k2|] eqn:E2; [|done].
  destruct (peek c (p + Z.of_nat (length l1) + Z.of_nat (length l2)) (length l3))
    as [k3|] eqn:E3; [|done].
  injection H as H.
  pose proof (peek_length _ _ _ _ E1) as L1. pose proof (peek_length _ _ _ _ E2) as L2.
  apply app_inj_1 in H as [-> H]; [|done]. apply app_inj_1 in H as [-> ->]; [|done].
  rewrite <- Hl in E2.
  destruct (poke_spec bs c (p + Z.of_nat (length l1)) l2 E2) as (c' & Hc & Hp & Hd).
  exists c'. split; [done|]. split.
  - rewrite !peek_app. rewrite <- Hl in E3 |- *. rewrite (Hd p (length l1)), E1, Hp, Hd, E3 by lia. done.
  - intros q m Hq. apply Hd. lia.
Qed.

Lemma peek_zeros c p n : peek (zeros c p n) p n = Some (replicate n 0).
Proof.
  assert (forall n c p q, q < p -> zeros c p n !! q = c !! q) as Hlow.
  { clear. induction n as [|n IH]; intros c p q Hq; simpl; [done|].
    rewrite IH by lia. by rewrite lookup_insert_ne by lia. }
  revert c p. induction n as [|n IH]; intros c p; [done|]. simpl.
  rewrite Hlow, lookup_insert_eq by lia. by rewrite IH.
Qed.

Lemma peek_zeros_ne c p n q m :
  q + Z.of_nat m <= p \/ p + Z.of_nat n <= q -> peek (zeros c p n) q m = peek c q m.
Proof.
  revert c p. induction n as [|n IH]; intros c p Hq; [done|]. simpl.
  rewrite IH by lia. apply peek_insert_ne. lia.
Qed.

Lemma peek_unalloc_ne c p n q m :
  q + Z.of_nat m <= p \/ p + Z.of_nat n <= q -> peek (unalloc c p n) q m = peek c q m.
Proof.
  revert c p. induction n as [|n IH]; intros c p Hq; [done|]. simpl. rewrite IH by lia.
  clear IH. assert (q + Z.of_nat m <= p \/ p < q) as Hp by lia. clear Hq.
  revert q Hp. induction m as [|m IH]; intros q Hp; [done|]. simpl.
  rewrite lookup_delete_ne by lia. by rewrite IH by lia.
Qed.

(** ** The store *)

Inductive SyncedHead := UNINITIALIZED | HEAD_AT_CPU | HEAD_AT_GPU | SYNCED.

(** [class SyncedMemory]; [gpu_ptr_] is never set in this build.  [cpu_ptr] 0 is
    NULL. *)
Record SyncedMemory := mkSM {
  cpu_ptr : Z;
  sm_size : Z;
  head : SyncedHead;
  own_cpu_data : bool;
}.

(** [class Blob<float>]; [data_] is a [shared_ptr<SyncedMemory>]. *)
Record Blob := mkBlob {
  data_ : option Z;
  shape_ : list Z;
  count_ : Z;
  capacity_ : Z;
  version_ : Z;
}.

Record heap := mkHeap {
  cells : gmap Z Z;
  brk : Z;
  sms : gmap Z SyncedMemory;
  blobs : gmap Z Blob;
  next_id : Z;
}.

Definition set_cells (c : gmap Z Z) (h : heap) : heap :=
  mkHeap c (brk h) (sms h) (blobs h) (next_id h).
Definition set_sm (i : Z) (s : SyncedMemory) (h : heap) : heap :=
  mkHeap (cells h) (brk h) (<[i := s]> (sms h)) (blobs h) (next_id h).
Definition set_blob (i : Z) (b : Blob) (h : heap) : heap :=
  mkHeap (cells h) (brk h) (sms h) (<[i := b]> (blobs h)) (next_id h).

(** [memcpy] out of and into memory. *)
Definition load (h : heap) (p : Z) (n : Z) : outcome (list Z) :=
  if n <? 0 then Undef else deref (peek (cells h) p (Z.to_nat n)).
Definition store (h : heap) (p : Z) (bs : list Z) : outcome heap :=
  c ← deref (poke (cells h) p bs); Ok (set_cells c h).

(** [MallocHost] then [memset] to 0; two blocks never touch. *)
Definition MallocHost (h : heap) (n : Z) : heap * Z :=
  (mkHeap (zeros (cells h) (brk h) (Z.to_nat n)) (brk h + Z.max n 0 + 1) (sms h)
     (blobs h) (next_id h), brk h).
Definition FreeHost (h : heap) (p n : Z) : heap :=
  set_cells (unalloc (cells h) p (Z.to_nat n)) h.

(** *** SyncedMemory *)
Definition to_cpu (h : heap) (i : Z) : outcome heap :=
  s ← deref (sms h !! i);
  match head s with
  | UNINITIALIZED =>
      let '(h, p) := MallocHost h (sm_size s) in
      Ok (set_sm i (mkSM p (sm_size s) HEAD_AT_CPU true) h)
  | HEAD_AT_GPU => Fatal
  | HEAD_AT_CPU | SYNCED => Ok h
  end.
Definition to_gpu (h : heap) (i : Z) : outcome heap := Fatal.

Definition sm_cpu_data (h : heap) (i : Z) : outcome (heap * Z) :=
  h ← to_cpu h i; s ← deref (sms h !! i); Ok (h, cpu_ptr s).
Definition sm_mutable_cpu_data (h : heap) (i : Z) : outcome (heap * Z) :=
  h ← to_cpu h i;
  s ← deref (sms h !! i);
  Ok (set_sm i (mkSM (cpu_ptr s) (sm_size s) HEAD_AT_CPU (own_cpu_data s)) h, cpu_ptr s).
Definition sm_set_cpu_data (h : heap) (i : Z) (p : Z) : outcome heap :=
  _ ← CHECK (negb (p =? 0));
  s ← deref (sms h !! i);
  let h := if own_cpu_data s then FreeHost h (cpu_ptr s) (sm_size s) else h in
  Ok (set_sm i (mkSM p (sm_size s) HEAD_AT_CPU false) h).
Definition sm_gpu_data (h : heap) (i : Z) : outcome (heap * Z) := Fatal.
Definition sm_mutable_gpu_data (h : heap) (i : Z) : outcome (heap * Z) := Fatal.

(** [new SyncedMemory(size)]. *)
Definition new_sm (h : heap) (size : Z) : heap * Z :=
  (mkHeap (cells h) (brk h) (<[next_id h := mkSM 0 size UNINITIALIZED false]> (sms h))
     (blobs h) (next_id h + 1), next_id h).

(** *** Blob<float> *)
Definition sizeof_float : Z := 4.
Definition Blob_new : Blob := mkBlob None [] 0 0 (-1).

(** The loop of [Reshape] that checks the shape and multiplies it up. *)
Fixpoint shape_count (shape : list Z) (count : Z) : outcome Z :=
  match shape with
  | [] => Ok count
  | d :: shape =>
      _ ← CHECK (negb (d =? 0));
      count ← int_ret (count * d);
      shape_count shape count
  end.

Definition Reshape (b : Blob) (shape : list Z) (h : heap) : outcome (heap * Blob) :=
  count ← shape_count shape 1;
  if capacity_ b <? count then
    let '(h, i) := new_sm h (count * sizeof_float) in
    Ok (h, mkBlob (Some i) shape count count (version_ b))
  else Ok (h, mkBlob (data_ b) shape count (capacity_ b) (version_ b)).
Definition Blob_make (shape : list Z) (h : heap) : outcome (heap * Blob) :=
  Reshape Blob_new shape h.
Definition ReshapeLike (b other : Blob) (h : heap) : outcome (heap * Blob) :=
  Reshape b (shape_ other) h.
Definition set_version (v : Z) (b : Blob) : Blob :=
  mkBlob (data_ b) (shape_ b) (count_ b) (capacity_ b) v.

(** [CHECK(data_)]. *)
Definition blob_data (b : Blob) : outcome Z :=
  match data_ b with Some i => Ok i | None => Fatal end.
Definition cpu_data (b : Blob) (h : heap) : outcome (heap * Z) :=
  i ← blob_data b; sm_cpu_data h i.
Definition mutable_cpu_data (b : Blob) (h : heap) : outcome (heap * Z) :=
  i ← blob_data b; sm_mutable_cpu_data h i.
Definition gpu_data (b : Blob) (h : heap) : outcome (heap * Z) :=
  i ← blob_data b; sm_gpu_data h i.
Definition mutable_gpu_data (b : Blob) (h : heap) : outcome (heap * Z) :=
  i ← blob_data b; sm_mutable_gpu_data h i.
Definition set_cpu_data (b : Blob) (p : Z) (h : heap) : outcome heap :=
  _ ← CHECK (negb (p =? 0)); i ← deref (data_ b); sm_set_cpu_data h i p.

Definition ShareData (b other : Blob) : outcome Blob :=
  _ ← CHECK (count_ b =? count_ other);
  i ← blob_data other;
  Ok (mkBlob (Some i) (shape_ b) (count_ b) (capacity_ b) (version_ b)).

(** [std::equal(a.begin(), a.end(), b.begin())]. *)
Fixpoint std_equal (a b : list Z) : outcome bool :=
  match a with
  | [] => Ok true
  | x :: a =>
      match b with
      | [] => Undef
      | y :: b => if x =? y then std_equal a b else Ok false
      end
  end.

Definition Swap (b other : Blob) : outcome (Blob * Blob) :=
  _ ← CHECK (count_ other =? count_ b);
  eq ← std_equal (shape_ b) (shape_ other);
  _ ← CHECK eq;
  Ok (mkBlob (data_ other) (shape_ b) (count_ b) (capacity_ other) (version_ b),
      mkBlob (data_ b) (shape_ other) (count_ other) (capacity_ b) (version_ other)).

Definition CopyFrom (b source : Blob) (reshape : bool) (h : heap)
    : outcome (heap * Blob) :=
  eq ← std_equal (shape_ b) (shape_ source);
  '(h, b) ← (if eq : bool then Ok (h, b)
             else if reshape then Reshape b (shape_ source) h else Fatal);
  i ← deref (data_ b);
  '(h, dst) ← sm_mutable_cpu_data h i;
  '(h, src) ← cpu_data source h;
  bytes ← load h src (sizeof_float * count_ b);
  h ← store h dst bytes;
  Ok (h, b).

(** [BlobProto], its floats by their bits. *)
Record BlobProto := mkBlobProto { proto_shape : list Z; proto_data : list Z }.

Definition FromProto (b : Blob) (proto : BlobProto) (h : heap) : outcome (heap * Blob) :=
  '(h, b) ← Reshape b (proto_shape proto) h;
  '(h, p) ← mutable_cpu_data b h;
  (* reading past the repeated field is undefined *)
  _ ← (if count_ b <=? Z.of_nat (length (proto_data proto)) then Ok tt else Undef);
  h ← store h p (bytes_of_f32s (take (Z.to_nat (count_ b)) (proto_data proto)));
  Ok (h, b).

Definition ToProto (b : Blob) (proto : BlobProto) (h : heap) : outcome (heap * BlobProto) :=
  '(h, p) ← cpu_data b h;
  bytes ← load h p (sizeof_float * count_ b);
  Ok (h, mkBlobProto (proto_shape proto ++ shape_ b) (f32s_of_bytes bytes)).

(** The average of [sum_data]: a left-to-right sum, divided by the count. *)
Definition sum_data (b : Blob) (h : heap) : outcome (heap * Z) :=
  if count_ b =? 0 then Ok (h, 0)
  else
    '(h, p) ← cpu_data b h;
    bytes ← load h p (sizeof_float * count_ b);
    Ok (h, f32_div (foldl f32_add 0 (f32s_of_bytes bytes)) (f32_of_Z (count_ b))).

(** ** What the operations keep *)

(** The bytes of a [SyncedMemory], whether or not they are allocated yet. *)
Definition sm_bytes (h : heap) (i : Z) : option (list Z) :=
  match sms h !! i with
  | Some s =>
      match head s with
      | UNINITIALIZED => Some (replicate (Z.to_nat (sm_size s)) 0)
      | HEAD_AT_CPU | SYNCED => peek (cells h) (cpu_ptr s) (Z.to_nat (sm_size s))
      | HEAD_AT_GPU => None
      end
  | None => None
  end.

(** The allocators only hand out new addresses and new objects. *)
Record heap_ok (h : heap) : Prop := {
  ok_brk : 0 < brk h;
  ok_cells a v : cells h !! a = Some v -> 0 < a < brk h;
  ok_sms i s : sms h !! i = Some s -> i < next_id h;
  ok_blobs i b : blobs h !! i = Some b -> i < next_id h;
}.

(** [h'] has everything [h] has: memory, contents of the [SyncedMemory]s, blobs. *)
Record keeps (h h' : heap) : Prop := {
  keeps_peek q m bs : peek (cells h) q m = Some bs -> peek (cells h') q m = Some bs;
  keeps_sm i bs : sm_bytes h i = Some bs -> sm_bytes h' i = Some bs;
  keeps_blob i b : blobs h !! i = Some b -> blobs h' !! i = Some b;
}.

#[export] Instance keeps_refl : Reflexive keeps.
Proof. intros h. by constructor. Qed.
#[export] Instance keeps_trans : Transitive keeps.
Proof. intros h1 h2 h3 [? ? ?] [? ? ?]. constructor; auto. Qed.

(** [p] is the CPU pointer of the allocated [SyncedMemory] [i]. *)
Definition ptr_at (h : heap) (i p : Z) : Prop :=
  exists s, sms h !! i = Some s /\ cpu_ptr s = p /\ head s = HEAD_AT_CPU.

Lemma sm_bytes_ptr h i p s bs :
  sms h !! i = Some s -> cpu_ptr s = p -> head s = HEAD_AT_CPU \/ head s = SYNCED ->
  sm_bytes h i = Some bs -> length bs = Z.to_nat (sm_size s) /\ peek (cells h) p (length bs) = Some bs.
Proof.
  unfold sm_bytes. intros -> <- [-> | ->] H; pose proof (peek_length _ _ _ _ H) as L;
    (split; [done|by rewrite L]).
Qed.

Lemma peek_below h q n bs :
  heap_ok h -> (0 < n)%nat -> peek (cells h) q n = Some bs -> 0 < q /\ q + Z.of_nat n <= brk h.
Proof.
  intros Hok Hn. revert q bs. induction n as [|[|n] IH]; intros q bs H; [lia| |].
  - simpl in H. destruct (cells h !! q) eqn:E; [|done].
    pose proof (ok_cells h Hok _ _ E). lia.
  - change (match cells h !! q, peek (cells h) (q + 1) (S n) with
            | Some v, Some vs => Some (v :: vs) | _, _ => None end = Some bs) in H.
    destruct (cells h !! q) eqn:E; [|done]. pose proof (ok_cells h Hok _ _ E).
    destruct (peek (cells h) (q + 1) (S n)) eqn:E'; [|done].
    destruct (IH ltac:(lia) _ _ E'). lia.
Qed.

Lemma zeros_lookup k c p a v :
  zeros c p k !! a = Some v -> c !! a = Some v \/ p <= a < p + Z.of_nat k.
Proof.
  revert c p. induction k as [|k IH]; intros c p H; simpl in H; [auto|].
  apply IH in H as [H|H]; [|lia].
  destruct (decide (p = a)) as [->|Hn]; [lia|].
  rewrite lookup_insert_ne in H by done. auto.
Qed.

Lemma MallocHost_spec h n h' p :
  heap_ok h -> MallocHost h n = (h', p) ->
  heap_ok h' /\ keeps h h' /\ p <> 0 /\ sms h' = sms h /\ next_id h' = next_id h /\
  peek (cells h') p (Z.to_nat n) = Some (replicate (Z.to_nat n) 0).
Proof.
  intros Hok [= <- <-]. simpl. pose proof (ok_brk h Hok) as Hb.
  assert (forall q m bs, peek (cells h) q m = Some bs ->
    peek (zeros (cells h) (brk h) (Z.to_nat n)) q m = Some bs) as Hk.
  { intros q [|m] bs H; [done|].
    pose proof (peek_below h q (S m) bs Hok ltac:(lia) H).
    by rewrite peek_zeros_ne by lia. }
  split; [|split; [|split; [lia|split; [done|split; [done|apply peek_zeros]]]]].
  - constructor; simpl; [lia| |apply Hok..].
    intros a v Ha. apply zeros_lookup in Ha as [Ha|Ha]; [|lia].
    pose proof (ok_cells h Hok _ _ Ha). lia.
  - constructor; simpl; [done| |done].
    intros i bs. unfold sm_bytes. simpl. destruct (sms h !! i) as [s|]; [|done].
    destruct (head s); auto.
Qed.

(** Changing how a [SyncedMemory] is described without changing its bytes. *)
Lemma set_sm_keeps h i s s' :
  heap_ok h -> sms h !! i = Some s -> (forall bs, sm_bytes h i = Some bs -> sm_bytes (set_sm i s' h) i = Some bs) ->
  heap_ok (set_sm i s' h) /\ keeps h (set_sm i s' h).
Proof.
  intros Hok Hi Hsame. split.
  - constructor; simpl; [apply ok_brk|apply ok_cells| |apply ok_blobs]; try done.
    intros j t. destruct (decide (i = j)) as [<-|Hn]; [intros _; by eapply ok_sms|].
    rewrite lookup_insert_ne by done. by apply ok_sms.
  - constructor; simpl; [done| |done].
    intros j bs Hj. destruct (decide (i = j)) as [<-|Hn]; [auto|].
    unfold sm_bytes in *. simpl. by rewrite lookup_insert_ne.
Qed.

Lemma to_cpu_spec h i bs :
  heap_ok h -> sm_bytes h i = Some bs ->
  exists h' s, to_cpu h i = Ok h' /\ heap_ok h' /\ keeps h h' /\ sms h' !! i = Some s /\
    (head s = HEAD_AT_CPU \/ head s = SYNCED) /\ next_id h' = next_id h.
Proof.
  intros Hok Hb. unfold to_cpu. unfold sm_bytes in Hb.
  destruct (sms h !! i) as [s|] eqn:Hs; [|done].
  rewrite deref_Some, bind_Ok.
  destruct (head s) eqn:Hh; [| |done|];
    [|exists h, s; split_and!; auto; reflexivity|exists h, s; split_and!; auto; reflexivity].
  destruct (MallocHost h (sm_size s)) as [h1 p] eqn:Em.
  destruct (MallocHost_spec _ _ _ _ Hok Em) as (Hok1 & Hk1 & Hp & Hsm & Hn & Hz).
  set (s' := mkSM p (sm_size s) HEAD_AT_CPU true).
  destruct (set_sm_keeps h1 i s s' Hok1) as [Hok2 Hk2]; [by rewrite Hsm| |].
  { intros bs'. unfold sm_bytes at 1. rewrite Hsm, Hs, Hh. intros [= <-].
    unfold sm_bytes. simpl. rewrite lookup_insert_eq. simpl. done. }
  exists (set_sm i s' h1), s'. split; [done|]. split; [done|].
  split; [by etransitivity|]. simpl. rewrite lookup_insert_eq. auto.
Qed.

(** Taking a CPU pointer: the object's bytes are at the pointer, and nothing else
    is disturbed. *)
Lemma sm_mutable_cpu_data_spec h i bs :
  heap_ok h -> sm_bytes h i = Some bs ->
  exists h' p, sm_mutable_cpu_data h i = Ok (h', p) /\ heap_ok h' /\ keeps h h' /\
    ptr_at h' i p /\ peek (cells h') p (length bs) = Some bs /\ next_id h' = next_id h.
Proof.
  intros Hok Hb. destruct (to_cpu_spec h i bs Hok Hb) as (h1 & s & E & Hok1 & Hk1 & Hs & Hh & Hn).
  unfold sm_mutable_cpu_data. rewrite E, bind_Ok, Hs, deref_Some, bind_Ok.
  pose proof (keeps_sm _ _ Hk1 _ _ Hb) as Hb1.
  destruct (sm_bytes_ptr h1 i (cpu_ptr s) s bs) as [Hl Hp]; [done..|].
  set (s' := mkSM (cpu_ptr s) (sm_size s) HEAD_AT_CPU (own_cpu_data s)).
  destruct (set_sm_keeps h1 i s s' Hok1 Hs) as [Hok2 Hk2].
  { intros bs'. unfold sm_bytes. simpl. rewrite Hs, lookup_insert_eq. simpl.
    by destruct Hh as [-> | ->]. }
  eexists _, (cpu_ptr s). split; [done|]. split; [done|]. split; [by etransitivity|].
  split; [|done]. exists s'. simpl. by rewrite lookup_insert_eq.
Qed.

Lemma sm_cpu_data_spec h i bs :
  heap_ok h -> sm_bytes h i = Some bs ->
  exists h' p, sm_cpu_data h i = Ok (h', p) /\ heap_ok h' /\ keeps h h' /\
    peek (cells h') p (length bs) = Some bs /\ next_id h' = next_id h.
Proof.
  intros Hok Hb. destruct (to_cpu_spec h i bs Hok Hb) as (h1 & s & E & Hok1 & Hk1 & Hs & Hh & Hn).
  unfold sm_cpu_data. rewrite E, bind_Ok, Hs, deref_Some, bind_Ok.
  pose proof (keeps_sm _ _ Hk1 _ _ Hb) as Hb1.
  destruct (sm_bytes_ptr h1 i (cpu_ptr s) s bs) as [Hl Hp]; [done..|].
  by exists h1, (cpu_ptr s).
Qed.

Lemma poke_dom bs c p c' a v :
  poke c p bs = Some c' -> c' !! a = Some v -> is_Some (c !! a).
Proof.
  revert c p. induction bs as [|b bs IH]; intros c p H Ha; simpl in H; [naive_solver|].
  destruct (c !! p) eqn:E; [|done]. destruct (IH _ _ H Ha) as [w Hw].
  destruct (decide (p = a)) as [->|Hn]; [eauto|].
  rewrite lookup_insert_ne in Hw by done. eauto.
Qed.

(** Storing through the pointer of an object changes its bytes there and nothing
    outside its memory. *)
Lemma store_spec h i p l1 l2 l3 bs :
  heap_ok h -> ptr_at h i p -> sm_bytes h i = Some (l1 ++ l2 ++ l3) -> length bs = length l2 ->
  exists h', store h (p + Z.of_nat (length l1)) bs = Ok h' /\ heap_ok h' /\
    ptr_at h' i p /\ sm_bytes h' i = Some (l1 ++ bs ++ l3) /\
    sms h' = sms h /\ blobs h' = blobs h /\ next_id h' = next_id h /\
    (forall q m, q + Z.of_nat m <= p \/ p + Z.of_nat (length (l1 ++ l2 ++ l3)) <= q ->
       peek (cells h') q m = peek (cells h) q m).
Proof.
  intros Hok (s & Hs & Hp & Hh) Hb Hl.
  destruct (sm_bytes_ptr h i p s _ Hs Hp (or_introl Hh) Hb) as [Hlen Hpk].
  destruct (poke_splice _ _ _ _ _ bs Hpk Hl) as (c' & Hc & Hp' & Hd).
  exists (set_cells c' h). unfold store. rewrite Hc, deref_Some, bind_Ok.
  split_and!; try done.
  - constructor; simpl; [by apply ok_brk| |by apply ok_sms|by apply ok_blobs].
    intros a v Ha. destruct (poke_dom _ _ _ _ _ _ Hc Ha) as [w Hw]. by eapply ok_cells.
  - by exists s.
  - unfold sm_bytes. simpl. rewrite Hs, Hh, Hp, <- Hlen. done.
Qed.

(** ** Blobs *)

(** The floats of a blob: [vs], by their bits. *)
Record blob_holds (h : heap) (b : Blob) (vs : list Z) : Prop := {
  holds_count : count_ b = Z.of_nat (length vs);
  holds_capacity : count_ b <= capacity_ b;
  holds_f32 : Forall is_f32 vs;
  holds_bytes : exists i rest, data_ b = Some i /\ sm_bytes h i = Some (bytes_of_f32s vs ++ rest) /\
    Z.of_nat (length (bytes_of_f32s vs ++ rest)) = sizeof_float * capacity_ b;
}.

(** A blob whose memory is as large as its capacity says (none for capacity 0). *)
Record blob_wf (h : heap) (b : Blob) : Prop := {
  wf_capacity : 0 <= capacity_ b;
  wf_data : 0 < capacity_ b -> exists i bs, data_ b = Some i /\ sm_bytes h i = Some bs /\
    Z.of_nat (length bs) = sizeof_float * capacity_ b;
}.

Lemma blob_holds_wf h b vs : blob_holds h b vs -> blob_wf h b.
Proof.
  intros [Hc Hcap Hf (i & rest & Hd & Hs & Hl)]. split; [lia|]. intros _. eauto.
Qed.

Lemma blob_holds_keeps h h' b vs : keeps h h' -> blob_holds h b vs -> blob_holds h' b vs.
Proof.
  intros Hk [Hc Hcap Hf (i & rest & Hd & Hs & Hl)]. constructor; try done.
  exists i, rest. split; [done|]. split; [|done]. by eapply keeps_sm.
Qed.

Lemma blob_wf_keeps h h' b : keeps h h' -> blob_wf h b -> blob_wf h' b.
Proof.
  intros Hk [Hc H]. split; [done|]. intros Hp. destruct (H Hp) as (i & bs & ? & ? & ?).
  exists i, bs. split; [done|]. split; [|done]. by eapply keeps_sm.
Qed.

Lemma shape_count_acc shape c :
  Forall (Z.lt 0) shape -> 0 < c -> c * foldr Z.mul 1 shape <= INT_MAX ->
  shape_count shape c = Ok (c * foldr Z.mul 1 shape).
Proof.
  intros Hs. revert c. induction Hs as [|d shape Hd Hs IH]; intros c Hc Hm.
  { simpl. f_equal. lia. }
  simpl in Hm |- *. destruct (Z.eqb_spec d 0); [lia|]. simpl.
  assert (0 < foldr Z.mul 1 shape) by (clear -Hs; induction Hs; simpl; nia).
  rewrite int_ret_Ok by (unfold INT_MIN; nia).
  simpl. rewrite IH by nia. f_equal. lia.
Qed.

Definition shape_size (shape : list Z) : Z := foldr Z.mul 1 shape.

Lemma shape_count_Ok shape :
  Forall (Z.lt 0) shape -> shape_size shape <= INT_MAX ->
  shape_count shape 1 = Ok (shape_size shape) /\ 0 < shape_size shape.
Proof.
  intros Hs Hm. unfold shape_size in *. rewrite shape_count_acc by (done || lia).
  split; [f_equal; lia|]. clear Hm. induction Hs; simpl; nia.
Qed.

Lemma new_sm_spec h n h' i :
  heap_ok h -> new_sm h n = (h', i) ->
  heap_ok h' /\ keeps h h' /\ sm_bytes h' i = Some (replicate (Z.to_nat n) 0).
Proof.
  intros Hok [= <- <-]. split_and!.
  - constructor; simpl; [by apply ok_brk|by apply ok_cells| |].
    + intros j t. destruct (decide (next_id h = j)) as [<-|Hn]; [intros; lia|].
      rewrite lookup_insert_ne by done. intros E. apply (ok_sms h Hok) in E. lia.
    + intros j t E. apply (ok_blobs h Hok) in E. lia.
  - constructor; simpl; [done| |done]. intros j bs Hj.
    destruct (decide (next_id h = j)) as [<-|Hn].
    + unfold sm_bytes in Hj. destruct (sms h !! next_id h) eqn:E; [|done].
      apply (ok_sms h Hok) in E. lia.
    + unfold sm_bytes in *. simpl. by rewrite lookup_insert_ne.
  - unfold sm_bytes. simpl. by rewrite lookup_insert_eq.
Qed.

Lemma shape_count_zero pre post c :
  Forall (Z.lt 0) pre -> 0 < c -> c * shape_size pre <= INT_MAX ->
  shape_count (pre ++ 0 :: post) c = Fatal.
Proof.
  unfold shape_size. intros Hpre. revert c.
  induction Hpre as [|d pre Hd Hpre IH]; intros c Hc Hm; [done|].
  simpl in Hm |- *. destruct (Z.eqb_spec d 0); [lia|]. simpl.
  assert (0 < foldr Z.mul 1 pre) by (clear -Hpre; induction Hpre; simpl; nia).
  rewrite int_ret_Ok by (unfold INT_MIN; nia). simpl. apply IH; nia.
Qed.

(** [Reshape] on a positive shape that fits an [int]. *)
Lemma Reshape_Ok (h : heap) (b : Blob) (shape : list Z) :
  heap_ok h -> blob_wf h b -> Forall (Z.lt 0) shape -> shape_size shape <= INT_MAX ->
  exists h' b',
    Reshape b shape h = Ok (h', b') /\ heap_ok h' /\ keeps h h' /\ blob_wf h' b' /\
    shape_ b' = shape /\ count_ b' = shape_size shape /\ version_ b' = version_ b /\
    capacity_ b' = Z.max (capacity_ b) (shape_size shape) /\ blobs h' = blobs h /\
    (if shape_size shape <=? capacity_ b then data_ b' = data_ b /\ h' = h
     else exists i, data_ b' = Some i /\
       sm_bytes h' i = Some (replicate (Z.to_nat (4 * shape_size shape)) 0)).
Proof.
  intros Hok Hwf Hs Hmax. destruct (shape_count_Ok shape Hs Hmax) as [Ec Hc].
  unfold Reshape. rewrite Ec, bind_Ok.
  destruct (Z.ltb_spec (capacity_ b) (shape_size shape)) as [Hlt|Hge];
    destruct (Z.leb_spec (shape_size shape) (capacity_ b)); try lia.
  - destruct (new_sm h (shape_size shape * sizeof_float)) as [h' i] eqn:En.
    destruct (new_sm_spec _ _ _ _ Hok En) as (Hok' & Hk & Hi).
    rewrite (Z.mul_comm _ sizeof_float) in Hi.
    eexists h', _. split; [done|]. split_and!; simpl; try done; try lia;
      [|by injection En as <- <-|by exists i].
    split; [simpl; lia|]. intros _. eexists i, _. split; [done|]. split; [done|].
    rewrite length_replicate. simpl. unfold sizeof_float. lia.
  - eexists h, _. split; [done|]. split_and!; simpl; done || lia || (by destruct Hwf).
Qed.

(** The store of a process that has allocated nothing. *)
Definition empty_heap : heap := mkHeap ∅ 1 ∅ ∅ 0.
Lemma empty_heap_ok : heap_ok empty_heap.
Proof. constructor; simpl; [lia|intros a v H|intros i s H|intros i b H]; by rewrite lookup_empty in H. Qed.

(** [Blob::Reshape]: a positive shape that fits an [int] sets the shape and
    the count; the memory is kept, contents included, when it is large enough,
    and replaced by zeroed memory of exactly the new size when it is not, so the
    capacity never shrinks.  A zero dimension is a failed [CHECK]. *)
Theorem Reshape_spec (h : heap) (b : Blob) (shape : list Z)
    (Hok : heap_ok h) (Hwf : blob_wf h b) (Hpos : Forall (Z.le 0) shape)
    (Hmax : shape_size shape <= INT_MAX) :
  (Forall (Z.lt 0) shape -> exists h' b',
     Reshape b shape h = Ok (h', b') /\ heap_ok h' /\ keeps h h' /\ blob_wf h' b' /\
     shape_ b' = shape /\ count_ b' = shape_size shape /\ version_ b' = version_ b /\
     capacity_ b' = Z.max (capacity_ b) (shape_size shape) /\
     (if shape_size shape <=? capacity_ b then data_ b' = data_ b /\ h' = h
      else exists i, data_ b' = Some i /\
        sm_bytes h' i = Some (replicate (Z.to_nat (4 * shape_size shape)) 0))) /\
  (forall pre post, shape = pre ++ 0 :: post -> Forall (Z.lt 0) pre ->
     shape_size pre <= INT_MAX -> Reshape b shape h = Fatal).
Proof.
  split.
  - intros Hs. destruct (Reshape_Ok h b shape Hok Hwf Hs Hmax) as
      (h' & b' & ? & ? & ? & ? & ? & ? & ? & ? & _ & ?).
    exists h', b'. by split_and!.
  - intros pre post -> Hpre Hm. unfold Reshape. rewrite shape_count_zero; [done|done|lia|lia].
Qed.

Lemma Reshape_spec_witness :
  let h := empty_heap in
  (Forall (Z.lt 0) [2; 3] -> exists h' b',
     Reshape Blob_new [2; 3] h = Ok (h', b') /\ heap_ok h' /\ keeps h h' /\ blob_wf h' b' /\
     shape_ b' = [2; 3] /\ count_ b' = shape_size [2; 3] /\ version_ b' = version_ Blob_new /\
     capacity_ b' = Z.max (capacity_ Blob_new) (shape_size [2; 3]) /\
     (if shape_size [2; 3] <=? capacity_ Blob_new then data_ b' = data_ Blob_new /\ h' = h
      else exists i, data_ b' = Some i /\
        sm_bytes h' i = Some (replicate (Z.to_nat (4 * shape_size [2; 3])) 0))) /\
  (forall pre post, [2; 3] = pre ++ 0 :: post -> Forall (Z.lt 0) pre ->
     shape_size pre <= INT_MAX -> Reshape Blob_new [2; 3] h = Fatal).
Proof.
  apply (Reshape_spec empty_heap Blob_new [2; 3]).
  - apply empty_heap_ok.
  - split; simpl; [lia|lia].
  - repeat constructor; discriminate.
  - vm_compute. discriminate.
Defined.

Lemma bytes_of_f32s_app us vs : bytes_of_f32s (us ++ vs) = bytes_of_f32s us ++ bytes_of_f32s vs.
Proof. unfold bytes_of_f32s. by rewrite map_app, concat_app. Qed.

Lemma peek_load h p bs n :
  peek (cells h) p (length bs) = Some bs -> n = Z.of_nat (length bs) -> load h p n = Ok bs.
Proof.
  intros H ->. unfold load. destruct (Z.ltb_spec (Z.of_nat (length bs)) 0); [lia|].
  by rewrite Nat2Z.id, H.
Qed.

(** The pointer to the data of a blob, and what can be read through it. *)
Lemma cpu_data_Ok h b vs :
  heap_ok h -> blob_holds h b vs ->
  exists h' p, cpu_data b h = Ok (h', p) /\ heap_ok h' /\ keeps h h' /\
    load h' p (sizeof_float * count_ b) = Ok (bytes_of_f32s vs) /\ next_id h' = next_id h.
Proof.
  intros Hok [Hc Hcap Hf (i & rest & Hd & Hs & Hl)].
  destruct (sm_cpu_data_spec h i _ Hok Hs) as (h' & p & E & Hok' & Hk & Hp & Hn).
  exists h', p. unfold cpu_data, blob_data. rewrite Hd, bind_Ok, E.
  split_and!; try done. apply peek_load.
  - rewrite length_app, peek_app in Hp.
    destruct (peek (cells h') p (length (bytes_of_f32s vs))) eqn:E1; [|done].
    destruct (peek (cells h') _ (length rest)) eqn:E2; [|done].
    pose proof (peek_length _ _ _ _ E1). injection Hp as Hp.
    by apply app_inj_1 in Hp as [-> _].
  - rewrite length_bytes_of_f32s. unfold sizeof_float. lia.
Qed.

Lemma mutable_cpu_data_Ok h b vs :
  heap_ok h -> blob_holds h b vs ->
  exists h' p i, mutable_cpu_data b h = Ok (h', p) /\ heap_ok h' /\ keeps h h' /\
    data_ b = Some i /\ ptr_at h' i p /\
    load h' p (sizeof_float * count_ b) = Ok (bytes_of_f32s vs) /\ next_id h' = next_id h.
Proof.
  intros Hok Hb. destruct (Hb) as [Hc Hcap Hf (i & rest & Hd & Hs & Hl)].
  destruct (sm_mutable_cpu_data_spec h i _ Hok Hs) as (h' & p & E & Hok' & Hk & Hpt & Hp & Hn).
  exists h', p, i. unfold mutable_cpu_data, blob_data. rewrite Hd, bind_Ok, E.
  split_and!; try done. apply peek_load.
  - rewrite length_app, peek_app in Hp.
    destruct (peek (cells h') p (length (bytes_of_f32s vs))) eqn:E1; [|done].
    destruct (peek (cells h') _ (length rest)) eqn:E2; [|done].
    pose proof (peek_length _ _ _ _ E1). injection Hp as Hp.
    by apply app_inj_1 in Hp as [-> _].
  - rewrite length_bytes_of_f32s. unfold sizeof_float. lia.
Qed.

(** Storing floats in the middle of a blob. *)
Lemma blob_store_Ok h b i p us ws ws' us' :
  heap_ok h -> data_ b = Some i -> ptr_at h i p -> blob_holds h b (us ++ ws ++ us') ->
  length ws' = length ws -> Forall is_f32 ws' ->
  exists h', store h (p + sizeof_float * Z.of_nat (length us)) (bytes_of_f32s ws') = Ok h' /\
    heap_ok h' /\ ptr_at h' i p /\ blob_holds h' b (us ++ ws' ++ us') /\
    sms h' = sms h /\ blobs h' = blobs h /\ next_id h' = next_id h /\
    (forall q m, q + Z.of_nat m <= p \/ p + sizeof_float * capacity_ b <= q ->
       peek (cells h') q m = peek (cells h) q m).
Proof.
  intros Hok Hd Hpt [Hc Hcap Hf (i' & rest & Hd' & Hs & Hl)] Hlen Hf'.
  assert (i' = i) as -> by congruence.
  rewrite !bytes_of_f32s_app, <- !app_assoc in Hs.
  destruct (store_spec h i p (bytes_of_f32s us) (bytes_of_f32s ws) (bytes_of_f32s us' ++ rest)
    (bytes_of_f32s ws')) as (h' & E & Hok' & Hpt' & Hs' & Hsm & Hbl & Hn & Hfr); [done..| |].
  { by rewrite !length_bytes_of_f32s, Hlen. }
  exists h'. replace (sizeof_float * Z.of_nat (length us)) with
    (Z.of_nat (length (bytes_of_f32s us)))
    by (rewrite length_bytes_of_f32s; unfold sizeof_float; lia).
  split; [done|]. split_and!; try done.
  - constructor; [|done| |].
    + rewrite Hc, !length_app. lia.
    + apply Forall_app in Hf as [? Hf]. apply Forall_app in Hf as [_ ?].
      apply Forall_app. split; [done|]. by apply Forall_app.
    + exists i, rest. split; [done|]. rewrite !bytes_of_f32s_app, <- !app_assoc.
      split; [done|]. rewrite <- Hl. rewrite !length_app, !length_bytes_of_f32s, !length_app. lia.
  - intros q m Hq. apply Hfr. rewrite <- Hl in Hq.
    rewrite !bytes_of_f32s_app, <- !app_assoc in Hq. done.
Qed.

(** Overwriting all the values of a blob, whatever its memory holds. *)
Lemma blob_fill_Ok h b vs :
  heap_ok h -> blob_wf h b -> count_ b = Z.of_nat (length vs) -> 0 < count_ b <= capacity_ b ->
  Forall is_f32 vs ->
  exists h1 p i h2, mutable_cpu_data b h = Ok (h1, p) /\ heap_ok h1 /\ keeps h h1 /\
    data_ b = Some i /\ ptr_at h1 i p /\
    store h1 p (bytes_of_f32s vs) = Ok h2 /\ heap_ok h2 /\ blob_holds h2 b vs /\
    ptr_at h2 i p /\ blobs h2 = blobs h1 /\ sms h2 = sms h1 /\
    next_id h1 = next_id h /\ next_id h2 = next_id h /\
    (forall q m, q + Z.of_nat m <= p \/ p + sizeof_float * capacity_ b <= q ->
       peek (cells h2) q m = peek (cells h1) q m).
Proof.
  intros Hok [Hcap Hdata] Hc Hle Hf.
  destruct (Hdata ltac:(lia)) as (i & bs & Hd & Hs & Hl).
  destruct (sm_mutable_cpu_data_spec h i bs Hok Hs) as (h1 & p & E & Hok1 & Hk1 & Hpt & Hp & Hn).
  pose proof (keeps_sm _ _ Hk1 _ _ Hs) as Hs1. unfold sizeof_float in *.
  rewrite <- (take_drop (4 * length vs) bs) in Hs1.
  assert (length (take (4 * length vs) bs) = (4 * length vs)%nat) as Hlt.
  { rewrite length_take. lia. }
  destruct (store_spec h1 i p [] _ _ (bytes_of_f32s vs) Hok1 Hpt Hs1)
    as (h2 & E2 & Hok2 & Hpt2 & Hs2 & Hsm & Hbl & Hn2 & Hfr).
  { by rewrite length_bytes_of_f32s. }
  simpl in E2. rewrite Z.add_0_r in E2.
  exists h1, p, i, h2. unfold mutable_cpu_data, blob_data. rewrite Hd, bind_Ok.
  split_and!; try done; try congruence.
  - constructor; [done|lia|done|]. eexists i, _. split; [done|]. split; [exact Hs2|].
    rewrite length_app, length_bytes_of_f32s, length_drop. unfold sizeof_float. lia.
  - intros q m Hq. apply Hfr. simpl. rewrite take_drop. lia.
Qed.

Lemma ToProto_Ok h b vs : heap_ok h -> blob_holds h b vs ->
  exists h1, ToProto b (mkBlobProto [] []) h = Ok (h1, mkBlobProto (shape_ b) vs) /\ heap_ok h1 /\ keeps h h1.
Proof.
  intros Hok Hb. destruct (cpu_data_Ok h b vs Hok Hb) as (h1 & p & E & Hok1 & Hk1 & Hload & _).
  exists h1. split; [|done]. unfold ToProto. rewrite E, bind_Ok, Hload, bind_Ok. simpl.
  rewrite f32s_of_bytes_of_f32s by apply Hb. done.
Qed.

Lemma FromProto_Ok h b2 shape vs : heap_ok h -> blob_wf h b2 -> Forall (Z.lt 0) shape ->
  Z.of_nat (length vs) = shape_size shape -> shape_size shape <= INT_MAX -> Forall is_f32 vs ->
  exists h2 b2', FromProto b2 (mkBlobProto shape vs) h = Ok (h2, b2') /\ heap_ok h2 /\
    blob_holds h2 b2' vs /\ shape_ b2' = shape.
Proof.
  intros Hok Hwf Hpos Hl Hmax Hf.
  destruct (Reshape_Ok h b2 shape Hok Hwf) as
    (h2 & b2' & E2 & Hok2 & Hk2 & [Hcap Hdata] & Hshape & Hcount & _ & Hc & _); [done|lia|].
  destruct (shape_count_Ok shape Hpos ltac:(lia)) as [_ Hp].
  destruct (blob_fill_Ok h2 b2' vs Hok2) as
    (h3 & p3 & i & h4 & E3 & _ & _ & _ & _ & E4 & Hok4 & Hb4 & _); [done| |lia|done|].
  { by rewrite Hcount. }
  exists h4, b2'. split; [|done].
  unfold FromProto. simpl proto_shape. rewrite E2, bind_Ok, E3, bind_Ok. simpl proto_data.
  assert (count_ b2' = Z.of_nat (length vs)) as -> by (by rewrite Hcount).
  by rewrite Z.leb_refl, bind_Ok, Nat2Z.id, firstn_all, E4.
Qed.

(** The checkpoint format: the values [ToProto] writes are those
    [FromProto] reads back, into any blob, whatever its size before. *)
Theorem Proto_roundtrip (h : heap) (b b2 : Blob) (vs : list Z)
    (Hok : heap_ok h) (Hb : blob_holds h b vs) (Hwf : blob_wf h b2)
    (Hpos : Forall (Z.lt 0) (shape_ b)) (Hsize : count_ b = shape_size (shape_ b))
    (Hmax : count_ b <= INT_MAX) :
  exists h1 proto h2 b2',
    ToProto b (mkBlobProto [] []) h = Ok (h1, proto) /\
    proto = mkBlobProto (shape_ b) vs /\
    FromProto b2 proto h1 = Ok (h2, b2') /\
    blob_holds h2 b2' vs /\ shape_ b2' = shape_ b.
Proof.
  destruct (ToProto_Ok h b vs Hok Hb) as (h1 & E1 & Hok1 & Hk1).
  destruct (FromProto_Ok h1 b2 (shape_ b) vs Hok1) as (h2 & b2' & E2 & _ & H); [by eapply blob_wf_keeps|done| |lia|apply Hb|].
  { rewrite <- Hsize. symmetry. apply Hb. }
  exists h1, (mkBlobProto (shape_ b) vs), h2, b2'. done.
Qed.

(** A store with one blob of two floats, used by the witnesses. *)
Definition demo_floats : list Z := [f32_of_Z 1; f32_of_Z 2].
Definition demo_blob : Blob := mkBlob (Some 0) [2] 2 2 0.
Definition demo_heap : heap :=
  mkHeap (list_to_map (zip (map Z.of_nat (seq 1 8)) (bytes_of_f32s demo_floats))) 9
    {[0 := mkSM 1 8 HEAD_AT_CPU true]} ∅ 1.

Lemma demo_heap_ok : heap_ok demo_heap.
Proof.
  constructor.
  - done.
  - intros a v Ha. apply elem_of_list_to_map_2 in Ha.
    apply elem_of_zip_l, list_elem_of_fmap in Ha as (n & -> & Hn).
    apply elem_of_seq in Hn. simpl. lia.
  - intros i s. simpl. rewrite lookup_singleton_Some. lia.
  - intros i b. simpl. by rewrite lookup_empty.
Qed.

Lemma demo_blob_holds : blob_holds demo_heap demo_blob demo_floats.
Proof.
  constructor; [done|done| |].
  - repeat constructor; vm_compute; done.
  - exists 0, []. split; [done|]. split; vm_compute; reflexivity.
Qed.

Lemma Proto_roundtrip_witness :
  exists h1 proto h2 b2',
    ToProto demo_blob (mkBlobProto [] []) demo_heap = Ok (h1, proto) /\
    proto = mkBlobProto (shape_ demo_blob) demo_floats /\
    FromProto Blob_new proto h1 = Ok (h2, b2') /\
    blob_holds h2 b2' demo_floats /\ shape_ b2' = shape_ demo_blob.
Proof.
  apply (Proto_roundtrip demo_heap demo_blob Blob_new demo_floats).
  - exact demo_heap_ok.
  - exact demo_blob_holds.
  - split; simpl; lia.
  - repeat constructor.
  - reflexivity.
  - vm_compute. discriminate.
Defined.

(** ** Blobs whose memory is allocated *)

(** The floats [vs] of [b] are in memory, at [base]. *)
Record at_cpu (h : heap) (b : Blob) (base : Z) (vs : list Z) : Prop := {
  at_holds : blob_holds h b vs;
  at_ptr : exists i, data_ b = Some i /\ ptr_at h i base;
}.

Lemma set_sm_same h i s : sms h !! i = Some s -> set_sm i s h = h.
Proof. intros E. unfold set_sm. rewrite insert_id by done. by destruct h. Qed.

(** Taking the pointer again changes nothing. *)
Lemma ptr_at_cpu_data h b i p :
  data_ b = Some i -> ptr_at h i p ->
  cpu_data b h = Ok (h, p) /\ mutable_cpu_data b h = Ok (h, p).
Proof.
  intros Hd (s & Hs & Hp & Hh). unfold cpu_data, mutable_cpu_data, blob_data.
  rewrite Hd, !bind_Ok. unfold sm_cpu_data, sm_mutable_cpu_data, to_cpu.
  rewrite Hs, !deref_Some, !bind_Ok, Hh, !bind_Ok, Hs, !deref_Some, !bind_Ok, Hp.
  split; [done|]. rewrite <- Hp, <- Hh.
  replace (mkSM (cpu_ptr s) (sm_size s) (head s) (own_cpu_data s)) with s by by destruct s.
  by rewrite set_sm_same.
Qed.

Lemma at_cpu_data h b p vs :
  at_cpu h b p vs -> cpu_data b h = Ok (h, p) /\ mutable_cpu_data b h = Ok (h, p).
Proof. intros [_ (i & Hd & Hp)]. by eapply ptr_at_cpu_data. Qed.

Lemma at_cpu_count h b p vs : at_cpu h b p vs -> count_ b = Z.of_nat (length vs).
Proof. intros [[] _]. done. Qed.

Lemma at_cpu_f32 h b p vs : at_cpu h b p vs -> Forall is_f32 vs.
Proof. intros [[] _]. done. Qed.

Lemma at_cpu_bytes h b p vs :
  at_cpu h b p vs -> peek (cells h) p (length (bytes_of_f32s vs)) = Some (bytes_of_f32s vs).
Proof.
  intros [[_ _ _ (i & rest & Hd & Hs & _)] (i' & Hd' & s & Hi & Hp & Hh)].
  assert (i' = i) as -> by congruence.
  destruct (sm_bytes_ptr h i p s _ Hi Hp (or_introl Hh) Hs) as [_ Hpk].
  rewrite length_app, peek_app in Hpk.
  destruct (peek (cells h) p (length (bytes_of_f32s vs))) eqn:E1; [|done].
  destruct (peek (cells h) _ (length rest)) eqn:E2; [|done].
  pose proof (peek_length _ _ _ _ E1). injection Hpk as Hpk.
  by apply app_inj_1 in Hpk as [-> _].
Qed.

(** Reading a part of the floats. *)
Lemma peek_slice c p us ws us' :
  peek c p (length (bytes_of_f32s (us ++ ws ++ us'))) = Some (bytes_of_f32s (us ++ ws ++ us')) ->
  peek c (p + sizeof_float * Z.of_nat (length us)) (length (bytes_of_f32s ws))
    = Some (bytes_of_f32s ws).
Proof.
  rewrite !bytes_of_f32s_app, !length_app, !peek_app. intros H.
  replace (sizeof_float * Z.of_nat (length us)) with (Z.of_nat (length (bytes_of_f32s us)))
    by (rewrite length_bytes_of_f32s; unfold sizeof_float; lia).
  destruct (peek c p (length (bytes_of_f32s us))) eqn:E1; [|done].
  destruct (peek c _ (length (bytes_of_f32s ws))) eqn:E2; [|done].
  destruct (peek c _ (length (bytes_of_f32s us'))) eqn:E3; [|done].
  pose proof (peek_length _ _ _ _ E1). pose proof (peek_length _ _ _ _ E2).
  injection H as H. apply app_inj_1 in H as [-> H]; [|done].
  by apply app_inj_1 in H as [-> _].
Qed.

Lemma at_cpu_load h b p us ws us' n :
  at_cpu h b p (us ++ ws ++ us') -> n = sizeof_float * Z.of_nat (length ws) ->
  load h (p + sizeof_float * Z.of_nat (length us)) n = Ok (bytes_of_f32s ws).
Proof.
  intros Ha ->. apply peek_load; [by eapply peek_slice, at_cpu_bytes|].
  rewrite length_bytes_of_f32s. unfold sizeof_float. lia.
Qed.

Lemma at_cpu_load_all h b p vs n :
  at_cpu h b p vs -> n = sizeof_float * Z.of_nat (length vs) ->
  load h p n = Ok (bytes_of_f32s vs).
Proof.
  intros Ha ->. apply peek_load; [by eapply at_cpu_bytes|].
  rewrite length_bytes_of_f32s. unfold sizeof_float. lia.
Qed.

(** Writing a part of them. *)
Lemma at_cpu_store h b p us ws us' ws' :
  heap_ok h -> at_cpu h b p (us ++ ws ++ us') -> length ws' = length ws -> Forall is_f32 ws' ->
  exists h', store h (p + sizeof_float * Z.of_nat (length us)) (bytes_of_f32s ws') = Ok h' /\
    heap_ok h' /\ at_cpu h' b p (us ++ ws' ++ us') /\
    sms h' = sms h /\ blobs h' = blobs h /\ next_id h' = next_id h /\ brk h' = brk h /\
    (forall q m, q + Z.of_nat m <= p \/ p + sizeof_float * capacity_ b <= q ->
       peek (cells h') q m = peek (cells h) q m).
Proof.
  intros Hok [Hb (i & Hd & Hp)] Hl Hf.
  destruct (blob_store_Ok h b i p us ws ws' us' Hok Hd Hp Hb Hl Hf)
    as (h' & E & Hok' & Hp' & Hb' & Hsm & Hbl & Hn & Hfr).
  exists h'. split_and!; try done; [split; [done|by exists i]|].
  unfold store in E. apply bind_Ok_inv in E as (c & _ & [= <-]). done.
Qed.

Lemma at_cpu_below h b p vs :
  heap_ok h -> at_cpu h b p vs -> vs <> [] ->
  0 < p /\ p + sizeof_float * Z.of_nat (length vs) <= brk h.
Proof.
  intros Hok Ha Hne. pose proof (at_cpu_bytes _ _ _ _ Ha) as H.
  apply peek_below in H; try done.
  - rewrite length_bytes_of_f32s in H. unfold sizeof_float. lia.
  - rewrite length_bytes_of_f32s. destruct vs; [done|]. simpl. lia.
Qed.

(** The memory of a blob, and what does not disturb it. *)
Lemma at_cpu_region h b p vs :
  at_cpu h b p vs -> exists i s bs, data_ b = Some i /\ sms h !! i = Some s /\ cpu_ptr s = p /\
    head s = HEAD_AT_CPU /\ sm_bytes h i = Some bs /\
    peek (cells h) p (length bs) = Some bs /\ length bs = Z.to_nat (sm_size s) /\
    Z.of_nat (length bs) = sizeof_float * capacity_ b.
Proof.
  intros [[_ _ _ (i & rest & Hd & Hs & Hl)] (i' & Hd' & s & Hi & Hp & Hh)].
  assert (i' = i) as -> by congruence.
  destruct (sm_bytes_ptr h i p s _ Hi Hp (or_introl Hh) Hs) as [Hlen Hpk].
  exists i, s, (bytes_of_f32s vs ++ rest). by split_and!.
Qed.

Lemma at_cpu_region_below h b p vs :
  heap_ok h -> at_cpu h b p vs -> 0 < capacity_ b -> 0 < p /\ p + sizeof_float * capacity_ b <= brk h.
Proof.
  intros Hok Ha Hc.
  destruct (at_cpu_region _ _ _ _ Ha) as (i & s & bs & _ & _ & _ & _ & _ & Hpk & _ & Hl).
  unfold sizeof_float in *. apply peek_below in Hpk; try done; lia.
Qed.

Lemma peek_cell c c' a : peek c' a 1 = peek c a 1 -> c' !! a = c !! a.
Proof. simpl. destruct (c !! a), (c' !! a); naive_solver. Qed.

Lemma peek_ext c c' q n :
  (forall a, q <= a < q + Z.of_nat n -> c' !! a = c !! a) -> peek c' q n = peek c q n.
Proof.
  revert q. induction n as [|n IH]; intros q H; [done|]. simpl.
  rewrite H, IH by (lia || (intros a Ha; apply H; lia)). done.
Qed.

Lemma at_cpu_frame h h' b p vs :
  at_cpu h b p vs -> (forall i, data_ b = Some i -> sms h' !! i = sms h !! i) ->
  (forall a, p <= a < p + sizeof_float * capacity_ b -> cells h' !! a = cells h !! a) ->
  at_cpu h' b p vs.
Proof.
  intros Ha Hsm Hfr.
  destruct (at_cpu_region _ _ _ _ Ha) as (k & t & bs & Hk & Ht & Hpt & Hht & Hsb & Hpk & _ & Hlen).
  destruct Ha as [[Hc Hcap Hf (i & rest & Hd & Hs & Hl)] (i' & Hd' & s & Hi & Hp & Hh)].
  assert (i' = i) as -> by congruence. assert (k = i) as -> by congruence.
  assert (t = s) as -> by congruence. split.
  - constructor; try done. exists i, rest. split; [done|]. split; [|done].
    rewrite <- Hs. unfold sm_bytes in *. rewrite Hsm, Hi, Hh, Hp in * by done.
    pose proof (peek_length _ _ _ _ Hsb) as L.
    apply peek_ext. intros a Ha. apply Hfr. rewrite <- L in Ha. lia.
  - exists i. split; [done|]. exists s. by rewrite Hsm.
Qed.

Lemma poke_lookup_ne c p bs c' a : poke c p bs = Some c' -> a < p -> c' !! a = c !! a.
Proof.
  revert c p. induction bs as [|b bs IH]; intros c p H Ha; simpl in H; [by injection H as <-|].
  destruct (c !! p); [|done]. rewrite (IH _ _ H) by lia. by rewrite lookup_insert_ne by lia.
Qed.

Lemma zeros_lookup_ne c p n a : a < p -> zeros c p n !! a = c !! a.
Proof.
  revert c p. induction n as [|n IH]; intros c p Ha; [done|]. simpl.
  rewrite IH by lia. by rewrite lookup_insert_ne by lia.
Qed.

(** ** Growth

    [h'] is [h] with new memory and new objects: everything [h] has is unchanged. *)
Record grows (h h' : heap) : Prop := {
  grows_cells a : a < brk h -> cells h' !! a = cells h !! a;
  grows_sms i s : sms h !! i = Some s -> sms h' !! i = Some s;
  grows_blobs i b : blobs h !! i = Some b -> blobs h' !! i = Some b;
  grows_brk : brk h <= brk h';
  grows_next : next_id h <= next_id h';
}.

#[export] Instance grows_refl : Reflexive grows.
Proof. intros h. constructor; done || lia. Qed.
#[export] Instance grows_trans : Transitive grows.
Proof.
  intros h1 h2 h3 [C1 S1 B1 K1 N1] [C2 S2 B2 K2 N2]. constructor; eauto with lia.
  intros a Ha. rewrite C2, C1 by lia. done.
Qed.

Lemma grows_peek h h' q n bs :
  heap_ok h -> grows h h' -> peek (cells h) q n = Some bs -> peek (cells h') q n = Some bs.
Proof.
  intros Hok Hg H. destruct n as [|n]; [done|].
  destruct (peek_below h q (S n) bs Hok ltac:(lia) H) as [_ Hb].
  rewrite <- H. apply peek_ext. intros a Ha. apply (grows_cells _ _ Hg). lia.
Qed.

Lemma grows_keeps h h' : heap_ok h -> grows h h' -> keeps h h'.
Proof.
  intros Hok Hg. constructor.
  - intros q m bs. by apply grows_peek.
  - intros i bs. unfold sm_bytes. destruct (sms h !! i) as [s|] eqn:E; [|done].
    rewrite (grows_sms _ _ Hg _ _ E). destruct (head s); try done; by apply grows_peek.
  - apply Hg.
Qed.

Lemma grows_at_cpu h h' b p vs : heap_ok h -> grows h h' -> at_cpu h b p vs -> at_cpu h' b p vs.
Proof.
  intros Hok Hg [Hb (i & Hd & s & Hs & Hp & Hh)]. split.
  - eapply blob_holds_keeps; [|done]. by apply grows_keeps.
  - exists i. split; [done|]. exists s. split; [|done]. by apply (grows_sms _ _ Hg).
Qed.

Lemma Reshape_grows b shape h h' b' :
  heap_ok h -> Reshape b shape h = Ok (h', b') -> grows h h'.
Proof.
  intros Hok H. unfold Reshape in H. inv_ok H. case_match; [|by injection H as <- _].
  injection H as <- _. constructor; simpl; try done; try lia.
  intros i s Hs. pose proof (ok_sms h Hok _ _ Hs). by rewrite lookup_insert_ne by lia.
Qed.

(** [h'] is [h] grown, except that the object [j] may have changed. *)
Record grows_but (j : Z) (h h' : heap) : Prop := {
  but_cells a : a < brk h -> cells h' !! a = cells h !! a;
  but_sms i : i <> j -> sms h' !! i = sms h !! i;
  but_blobs : blobs h' = blobs h;
  but_brk : brk h <= brk h';
  but_next : next_id h' = next_id h;
}.

Lemma grows_but_grows j h0 h h' :
  heap_ok h0 -> grows h0 h -> grows_but j h h' -> next_id h0 <= j -> grows h0 h'.
Proof.
  intros Hok [C1 S1 B1 K1 N1] [C2 S2 B2 K2 N2] Hj. constructor; try lia.
  - intros a Ha. rewrite C2, C1 by lia. done.
  - intros i s Hi. pose proof (ok_sms _ Hok _ _ Hi). rewrite S2 by lia. auto.
  - intros i b Hi. rewrite B2. auto.
Qed.

Lemma grows_but_wf j h h' b :
  heap_ok h -> grows_but j h h' -> data_ b <> Some j -> blob_wf h b -> blob_wf h' b.
Proof.
  intros Hok [C S _ _ _] Hd [Hc Hw]. split; [done|]. intros Hp.
  destruct (Hw Hp) as (i & bs & Hi & Hs & Hl). exists i, bs. split; [done|]. split; [|done].
  unfold sm_bytes in *. rewrite S by congruence. destruct (sms h !! i) as [s|]; [|done].
  assert (forall n, peek (cells h) (cpu_ptr s) n = Some bs -> peek (cells h') (cpu_ptr s) n = Some bs)
    as Hpk; [|destruct (head s); auto].
  intros [|n] H; [done|].
  destruct (peek_below h _ (Datatypes.S n) bs Hok ltac:(lia) H) as [_ Hb].
  rewrite <- H. apply peek_ext. intros a Ha. apply C. lia.
Qed.

(** The first pointer taken to a new object: its memory is new too, so writing
    through it leaves what was there before. *)
Lemma fresh_fill h b i vs n :
  heap_ok h -> data_ b = Some i -> sms h !! i = Some (mkSM 0 n UNINITIALIZED false) ->
  n = sizeof_float * Z.of_nat (length vs) -> count_ b = Z.of_nat (length vs) ->
  capacity_ b = count_ b -> Forall is_f32 vs -> vs <> [] ->
  exists h1 h2, mutable_cpu_data b h = Ok (h1, brk h) /\ blobs h1 = blobs h /\
    store h1 (brk h) (bytes_of_f32s vs) = Ok h2 /\ heap_ok h2 /\ grows_but i h h2 /\
    at_cpu h2 b (brk h) vs.
Proof.
  intros Hok Hd Hs Hn Hc Hcap Hf Hne.
  assert (blob_wf h b) as Hwf.
  { split; [lia|]. intros _. exists i, (replicate (Z.to_nat n) 0). split; [done|].
    unfold sm_bytes. rewrite Hs. simpl. split; [done|]. rewrite length_replicate.
    unfold sizeof_float in *. lia. }
  assert (0 < count_ b <= capacity_ b) as Hpos by (destruct vs; simpl in *; done || lia).
  destruct (blob_fill_Ok h b vs Hok Hwf Hc Hpos Hf) as
    (h1 & p & j & h2 & E1 & Hok1 & Hk1 & Hj & Hp1 & E2 & Hok2 & Hb2 & Hp2 & Hbl & Hsm & Hn1 & Hn2 & _).
  assert (j = i) as -> by congruence.
  assert (p = brk h /\
    (h1 = set_sm i (mkSM (brk h) n HEAD_AT_CPU true) (MallocHost h n).1)) as [-> Eh1].
  { unfold mutable_cpu_data, blob_data, sm_mutable_cpu_data, to_cpu in E1.
    rewrite Hd, bind_Ok, Hs, deref_Some, bind_Ok in E1. simpl in E1.
    rewrite lookup_insert_eq, deref_Some, bind_Ok in E1. simpl in E1.
    injection E1 as <- <-. unfold set_sm. simpl. by rewrite insert_insert_eq. }
  exists h1, h2. split; [done|]. split; [by rewrite Eh1|]. split; [done|]. split; [done|].
  split; [|split; [done|by exists i]]. constructor; [| | |..].
  - intros a Ha. unfold store in E2. apply bind_Ok_inv in E2 as (c & Ec & [= <-]). simpl.
    destruct (poke (cells h1) (brk h) (bytes_of_f32s vs)) as [c'|] eqn:Ep; [|done].
    injection Ec as <-. rewrite (poke_lookup_ne _ _ _ _ _ Ep) by lia.
    rewrite Eh1. simpl. by rewrite zeros_lookup_ne by lia.
  - intros k Hk. rewrite Hsm, Eh1. simpl. by rewrite lookup_insert_ne.
  - by rewrite Hbl, Eh1.
  - unfold store in E2. apply bind_Ok_inv in E2 as (c & Ec & [= <-]). simpl.
    rewrite Eh1. simpl. lia.
  - lia.
Qed.

Lemma grows_but_at_cpu j h h' b p vs :
  heap_ok h -> grows_but j h h' -> data_ b <> Some j -> 0 < capacity_ b ->
  at_cpu h b p vs -> at_cpu h' b p vs.
Proof.
  intros Hok Hg Hj Hc Ha. destruct (at_cpu_region_below _ _ _ _ Hok Ha Hc) as [_ Hb].
  eapply at_cpu_frame; [done|..].
  - intros i Hi. apply (but_sms _ _ _ Hg). congruence.
  - intros a Hr. apply (but_cells _ _ _ Hg). lia.
Qed.

(** The first pointer to an object without memory. *)
Lemma alloc_Ok h b i n :
  heap_ok h -> data_ b = Some i ->
  (exists s, sms h !! i = Some s /\ head s = UNINITIALIZED /\ sm_size s = n) ->
  exists h1, mutable_cpu_data b h = Ok (h1, brk h) /\ heap_ok h1 /\ keeps h h1 /\ grows_but i h h1 /\
    sms h1 !! i = Some (mkSM (brk h) n HEAD_AT_CPU true).
Proof.
  intros Hok Hd (s & Es & Eh & En).
  destruct (sm_mutable_cpu_data_spec h i (replicate (Z.to_nat n) 0) Hok)
    as (h1 & p & E & Hok1 & Hk1 & _); [unfold sm_bytes; by rewrite Es, Eh, En|].
  exists h1. unfold mutable_cpu_data, blob_data. rewrite Hd, bind_Ok. pose proof E as E'.
  unfold sm_mutable_cpu_data, to_cpu in E'. rewrite Es, deref_Some, bind_Ok, Eh, En in E'.
  simpl in E'. rewrite lookup_insert_eq, deref_Some, bind_Ok in E'. simpl in E'.
  injection E' as E1 E2. subst p. split; [done|]. split; [done|]. split; [done|].
  subst h1. simpl. split; [|by rewrite lookup_insert_eq]. constructor; simpl; try done; try lia.
  - intros a Ha. by rewrite zeros_lookup_ne.
  - intros k Hk. by rewrite !lookup_insert_ne.
Qed.
