(* ===== verification/Param.v ===== *)
(** * utils/param.h, utils/param.cc: parameters and their messages

    A [Param] is a vector of floats (its [data_] blob, shared between the [Param]s
    that share values, by a number of the store) with its gradient.  It is cut
    into slices; workers and stubs exchange each slice with the server that owns
    it, through put, get and update messages.  At the server a slice is a [Param]
    of its own. *)

From S2P Require Import Prelude Float32 Msg Format Memory.

(** ** Targets: a parameter id and a slice id in one [int] *)
Definition ParamTrgt (param_id slice_id : Z) : Z :=
  Z.lor (wrap32 (Z.shiftl param_id 16)) slice_id.
Definition ParamID (param_trgt : Z) : Z := Z.shiftr param_trgt 16.
Definition SliceID (param_trgt : Z) : Z := Z.land param_trgt (Z.shiftl 1 16 - 1).

(** ** The fields of ParamProto that the code uses *)
Record ParamProto := mkProto {
  pname : string;
  pid : Z;
  powner : Z;
  share_from : string;
  lr_mult : Z;
  wd_mult : Z;
}.
(** [ParamProto()]: the defaults of job.proto. *)
Definition ParamProto_default : ParamProto := mkProto "" 0 (-1) "" f32_one f32_one.

(** ** class Param *)
Record Param := mkParam {
  local_version : Z;
  slice_start : Z;
  num_slices : Z;
  slice_offset : list Z;
  slice_size : list Z;
  pending_put : list bool;
  pending_get : list bool;
  pending_update : list bool;
  num_pending_requests : Z;
  pdata : option Z;
  grad : Blob;
  history : Blob;
  proto_ : ParamProto;
}.

Definition Param_new : Param :=
  mkParam (-1) 0 0 [] [] [] [] [] 0 None Blob_new Blob_new ParamProto_default.

Definition set_blobs (d : option Z) (g hi : Blob) (pr : ParamProto) (p : Param) : Param :=
  mkParam (local_version p) (slice_start p) (num_slices p) (slice_offset p) (slice_size p)
    (pending_put p) (pending_get p) (pending_update p) (num_pending_requests p) d g hi pr.
Definition set_pending (pget pupd : list bool) (n : Z) (p : Param) : Param :=
  mkParam (local_version p) (slice_start p) (num_slices p) (slice_offset p) (slice_size p)
    (pending_put p) pget pupd n (pdata p) (grad p) (history p) (proto_ p).
Definition set_local_version (v : Z) (p : Param) : Param :=
  mkParam v (slice_start p) (num_slices p) (slice_offset p) (slice_size p)
    (pending_put p) (pending_get p) (pending_update p) (num_pending_requests p)
    (pdata p) (grad p) (history p) (proto_ p).

Definition owner (p : Param) : Z := powner (proto_ p).
Definition param_id (p : Param) : Z := pid (proto_ p).
Definition set_id (id : Z) (p : Param) : Param :=
  let pr := proto_ p in
  set_blobs (pdata p) (grad p) (history p)
    (mkProto (pname pr) id id (share_from pr) (lr_mult pr) (wd_mult pr)) p.

(** [*data_], and the members that go through it. *)
Definition data_blob (p : Param) (h : heap) : outcome Blob :=
  i ← deref (pdata p); deref (blobs h !! i).
Definition size (p : Param) (h : heap) : outcome Z := b ← data_blob p h; Ok (count_ b).
Definition version (p : Param) (h : heap) : outcome Z := b ← data_blob p h; Ok (version_ b).
Definition param_set_version (v : Z) (p : Param) (h : heap) : outcome heap :=
  i ← deref (pdata p); b ← deref (blobs h !! i); Ok (set_blob i (set_version v b) h).
Definition data_ptr (p : Param) (h : heap) : outcome (heap * Z) :=
  b ← data_blob p h; cpu_data b h.
Definition mutable_data_ptr (p : Param) (h : heap) : outcome (heap * Z) :=
  b ← data_blob p h; mutable_cpu_data b h.

Definition Setup (p : Param) (proto : ParamProto) (shape : list Z) (h : heap)
    : outcome (heap * Param) :=
  '(h, b) ← Blob_make shape h;
  let i := next_id h in
  let h := mkHeap (cells h) (brk h) (sms h) (<[i := b]> (blobs h)) (i + 1) in
  '(h, g) ← Reshape (grad p) shape h;
  '(h, hi) ← Reshape (history p) shape h;
  Ok (h, set_blobs (Some i) g hi proto p).

Definition AddSlice (slice_id sz : Z) (p : Param) : outcome Param :=
  '(start, offset) ←
    (match list.last (slice_offset p), list.last (slice_size p) with
     | Some o, Some s =>
         _ ← CHECK (slice_start p + num_slices p =? slice_id);
         Ok (slice_start p, o + s)
     | _, _ => Ok (slice_id, 0)
     end);
  Ok (mkParam (local_version p) start (num_slices p + 1)
        (slice_offset p ++ [offset]) (slice_size p ++ [sz])
        (pending_put p ++ [false]) (pending_get p ++ [false]) (pending_update p ++ [false])
        (num_pending_requests p) (pdata p) (grad p) (history p) (proto_ p)).

Definition ShareFrom (other p : Param) (h : heap) : outcome Param :=
  _ ← (match pdata p with
       | None => Ok tt
       | Some _ =>
           b ← data_blob p h; ob ← data_blob other h;
           eq ← std_equal (shape_ b) (shape_ ob);
           CHECK eq
       end);
  let pr := proto_ p in
  Ok (mkParam (local_version p) (slice_start other) (num_slices other)
        (slice_offset other) (slice_size other) (pending_put other) (pending_get other)
        (pending_update other) (num_pending_requests p) (pdata other) (grad p) (history p)
        (mkProto (pname pr) (pid pr) (owner other) (share_from pr) (lr_mult pr) (wd_mult pr))).

(** ** Messages *)
Section messages.
Context `{C : Czmq}.

(** [memcpy(dst, msg->FrameData(), n)]: the frame must hold [n] bytes. *)
Definition frame_bytes (n : Z) (m : Msg) : outcome (list Z) :=
  d ← FrameData m;
  if (0 <=? n) && (n <=? Z.of_nat (length d)) then Ok (take (Z.to_nat n) d) else Undef.

(** [int copy; msg->ParseFormatFrame("i", &copy)] *)
Definition parse_int (m : Msg) : outcome Z :=
  '(vs, _) ← ParseFormatFrame "i" m;
  match vs with [AInt x] => Ok x | _ => Undef end.

Definition GenPutMsg (copy : bool) (ix : Z) (p : Param) (h : heap) : outcome (heap * Msg) :=
  _ ← CHECK (ix <? num_slices p);
  let msg := set_type kPut Msg_new in
  '(h, base) ← mutable_data_ptr p h;
  off ← idx (slice_offset p) ix;
  sz ← idx (slice_size p) ix;
  let ptr := base + sizeof_float * off in
  '(msg, _) ← AddFormatFrame "iffp"
    [AInt sz; AFloat (lr_mult (proto_ p)); AFloat (wd_mult (proto_ p));
     APtr (if copy then 0 else ptr)] msg;
  if copy then
    bytes ← load h ptr (sz * sizeof_float);
    msg ← AddFrame bytes msg;
    Ok (h, msg)
  else Ok (h, msg).

Definition GenGetMsg (copy : bool) (ix : Z) (p : Param) (h : heap)
    : outcome (heap * Param * Msg) :=
  _ ← CHECK (ix <? num_slices p);
  let msg := set_type kGet Msg_new in
  '(h, base) ← data_ptr p h;
  off ← idx (slice_offset p) ix;
  '(msg, _) ← AddFormatFrame "ip" [AInt (Z.b2z copy); APtr (base + sizeof_float * off)] msg;
  pget ← set_idx (pending_get p) ix true;
  Ok (h, set_pending pget (pending_update p) (num_pending_requests p + 1) p, msg).

Definition GenUpdateMsg (copy : bool) (ix : Z) (p : Param) (h : heap)
    : outcome (heap * Param * Msg) :=
  _ ← CHECK (ix <? num_slices p);
  let msg := set_type kUpdate Msg_new in
  '(msg, _) ← AddFormatFrame "i" [AInt (Z.b2z copy)] msg;
  '(h, base) ← mutable_cpu_data (grad p) h;
  off ← idx (slice_offset p) ix;
  let ptr := base + sizeof_float * off in
  msg ← (if copy then
           sz ← idx (slice_size p) ix;
           bytes ← load h ptr (sz * sizeof_float);
           AddFrame bytes msg
         else
           '(msg, _) ← AddFormatFrame "p" [APtr ptr] msg; Ok msg);
  pupd ← set_idx (pending_update p) ix true;
  Ok (h, set_pending (pending_get p) pupd (num_pending_requests p + 1) p, msg).

(** [offset] and [size] are not used by the code either. *)
Definition GenSyncMsg (p : Param) (h : heap) : outcome (heap * Msg) :=
  let msg := set_type kSyncRequest Msg_new in
  let msg := set_trgt (ParamTrgt (-1) (param_id p)) (local_version p) msg in
  '(h, base) ← mutable_data_ptr p h;
  b ← data_blob p h;
  bytes ← load h base (count_ b * sizeof_float);
  msg ← AddFrame bytes msg;
  Ok (h, msg).

(** The message is given back unless [reserve] is false; there is no response. *)
Definition HandlePutMsg (msg : Msg) (reserve : bool) (p : Param) (h : heap)
    : outcome (heap * Param * option Msg) :=
  '(vs, _) ← ParseFormatFrame "iffp" msg;
  match vs with
  | [AInt sz; AFloat lr; AFloat wc; APtr ptr] =>
      let pr := proto_ p in
      let p := set_blobs (pdata p) (grad p) (history p)
        (mkProto (pname pr) (pid pr) (powner pr) (share_from pr) lr wc) p in
      '(h, p) ← Setup p ParamProto_default [sz] h;
      '(h, msg) ←
        (if ptr =? 0 then
           '(msg, next) ← NextFrame msg;
           _ ← CHECK next;
           n ← FrameSize msg;
           _ ← CHECK (sz * sizeof_float =? n);
           '(h, dst) ← mutable_data_ptr p h;
           bytes ← frame_bytes (sz * sizeof_float) msg;
           h ← store h dst bytes;
           Ok (h, msg)
         else
           b ← data_blob p h; h ← set_cpu_data b ptr h; Ok (h, msg));
      Ok (h, p, if reserve then Some msg else None)
  | _ => Undef
  end.

Definition HandleGetMsg (msg : Msg) (p : Param) (h : heap) : outcome (heap * Msg) :=
  '(vs, _) ← ParseFormatFrame "ip" msg;
  match vs with
  | [AInt copy; APtr ptr] =>
      n ← size p h;
      '(h, msg) ←
        (if negb (copy =? 0) then
           '(h, src) ← mutable_data_ptr p h;
           bytes ← load h src (sizeof_float * n);
           msg ← AddFrame bytes msg;
           Ok (h, msg)
         else
           '(h, src) ← data_ptr p h;
           if negb (ptr =? src) then
             bytes ← load h src (sizeof_float * n);
             h ← store h ptr bytes;
             b ← data_blob p h;
             h ← set_cpu_data b ptr h;
             Ok (h, msg)
           else Ok (h, msg));
      Ok (h, set_type kRGet (SwapAddr msg))
  | _ => Undef
  end.
(** The first loop of [ParseUpdateMsgs]: the copy flags, and whether all are set. *)
Fixpoint parse_copies (msgs : list Msg) (reset : bool) (copies : list Z)
    : outcome (bool * list Z) :=
  match msgs with
  | [] => Ok (reset, copies)
  | msg :: msgs =>
      copy ← parse_int msg;
      parse_copies msgs (reset && negb (copy =? 0)) (copies ++ [copy])
  end.

(** One iteration of the second loop: the message and the flag [reset] after it. *)
Definition update_grad (copy : Z) (msg : Msg) (reset : bool) (p : Param) (h : heap)
    : outcome (heap * Msg * bool) :=
  '(msg, next) ← NextFrame msg;
  _ ← CHECK next;
  if negb (copy =? 0) then
    '(h, server_grad) ← mutable_cpu_data (grad p) h;
    n ← size p h;
    worker_grad ← frame_bytes (sizeof_float * n) msg;
    if reset then
      h ← store h server_grad worker_grad; Ok (h, msg, false)
    else
      cur ← load h server_grad (sizeof_float * n);
      h ← store h server_grad
        (bytes_of_f32s (f32s_add (f32s_of_bytes cur) (f32s_of_bytes worker_grad)));
      Ok (h, msg, false)
  else
    '(vs, _) ← ParseFormatFrame "p" msg;
    match vs with
    | [APtr ptr] =>
        '(h, g) ← cpu_data (grad p) h;
        if negb (g =? ptr) then
          n ← FrameSize msg;
          bytes ← load h g n;
          h ← store h ptr bytes;
          h ← set_cpu_data (grad p) ptr h;
          Ok (h, msg, reset)
        else Ok (h, msg, reset)
    | _ => Undef
    end.

(** [treated]: the messages already dealt with. *)
Fixpoint update_loop (copies : list Z) (ix : Z) (msgs : list Msg) (reset : bool)
    (treated : list Msg) (p : Param) (h : heap) : outcome (heap * list Msg) :=
  match msgs with
  | [] => Ok (h, treated)
  | msg :: msgs =>
      copy ← vec_at copies ix;
      '(h, msg, reset) ← update_grad copy msg reset p h;
      update_loop copies (ix + 1) msgs reset (treated ++ [msg]) p h
  end.

(** The messages are the caller's: their cursors have moved. *)
Definition ParseUpdateMsgs (msgs : list Msg) (p : Param) (h : heap)
    : outcome (heap * list Msg) :=
  '(reset, copies) ← parse_copies msgs true [];
  '(h, msgs) ← update_loop copies 0 msgs reset [] p h;
  if (1 <? length msgs)%nat then
    '(h, server_grad) ← mutable_cpu_data (grad p) h;
    n ← size p h;
    cur ← load h server_grad (sizeof_float * n);
    h ← store h server_grad
      (bytes_of_f32s (f32s_div (f32s_of_bytes cur) (f32_of_Z (Z.of_nat (length msgs)))));
    Ok (h, msgs)
  else Ok (h, msgs).

Definition GenUpdateResponse (msg : Msg) (p : Param) (h : heap) : outcome (heap * Msg) :=
  msg ← FirstFrame msg;
  let msg := set_type kRUpdate (SwapAddr msg) in
  copy ← parse_int msg;
  if negb (copy =? 0) then
    '(msg, _) ← NextFrame msg;
    fs ← FrameSize msg;
    n ← size p h;
    _ ← CHECK (fs =? sizeof_float * n);
    '(h, src) ← mutable_data_ptr p h;
    bytes ← load h src fs;
    msg ← write_frame bytes msg;
    Ok (h, msg)
  else Ok (h, msg).

Fixpoint GenUpdateResponseMsgs (msgs : list Msg) (p : Param) (h : heap)
    : outcome (heap * list Msg) :=
  match msgs with
  | [] => Ok (h, [])
  | msg :: msgs =>
      '(h, msg) ← GenUpdateResponse msg p h;
      '(h, ret) ← GenUpdateResponseMsgs msgs p h;
      Ok (h, msg :: ret)
  end.

(** No response; the message is given back unless [reserve] is false. *)
Definition HandleSyncMsg (msg : Msg) (reserve : bool) : option Msg * option Msg :=
  (None, if reserve then Some msg else None).
Definition ParseSyncResponseMsg (msg : Msg) (slice_idx : Z) : Z := 1.

Definition ParseResponseMsg (msg : Msg) (slice_idx : Z) (p : Param) (h : heap)
    : outcome heap :=
  copy ← parse_int msg;
  '(msg, _) ← NextFrame msg;
  if negb (copy =? 0) then
    fs ← FrameSize msg;
    sz ← idx (slice_size p) slice_idx;
    _ ← CHECK (fs =? sz * sizeof_float);
    '(h, base) ← mutable_data_ptr p h;
    off ← idx (slice_offset p) slice_idx;
    bytes ← frame_bytes fs msg;
    store h (base + sizeof_float * off) bytes
  else Ok h.

(** [(--num_pending_requests_) % num_slices_ == 0] *)
Definition last_pending (n num_slices : Z) : outcome Z :=
  if num_slices =? 0 then Undef else Ok (Z.b2z (Z.rem n num_slices =? 0)).

Definition ParseGetResponseMsg (msg : Msg) (slice_idx : Z) (p : Param) (h : heap)
    : outcome (heap * Param * Z) :=
  pending ← idx (pending_get p) slice_idx;
  _ ← CHECK pending;
  pget ← set_idx (pending_get p) slice_idx false;
  h ← ParseResponseMsg msg slice_idx p h;
  let n := num_pending_requests p - 1 in
  r ← last_pending n (num_slices p);
  Ok (h, set_pending pget (pending_update p) n p, r).

Definition ParseUpdateResponseMsg (msg : Msg) (slice_idx : Z) (p : Param) (h : heap)
    : outcome (heap * Param * Z) :=
  pending ← idx (pending_update p) slice_idx;
  _ ← CHECK pending;
  pupd ← set_idx (pending_update p) slice_idx false;
  h ← ParseResponseMsg msg slice_idx p h;
  let n := num_pending_requests p - 1 in
  r ← last_pending n (num_slices p);
  Ok (h, set_pending (pending_get p) pupd n p, r).
End messages.

(** ** struct ParamEntry

    [shares] holds the [Param]s by their numbers.  The second constructor leaves
    [num_local] and [next_version] without a value. *)
Record ParamEntry := mkEntry {
  num_update : Z;
  next_version : option Z;
  num_local : option Z;
  num_total : Z;
  shares : list Z;
}.
Definition ParamEntry_new : ParamEntry := mkEntry 0 (Some (-1)) (Some 0) 0 [].
Definition ParamEntry_make (total : Z) (p : Z) : ParamEntry := mkEntry 0 None None total [p].
Definition AddParam (local : bool) (p : Z) (e : ParamEntry) : outcome ParamEntry :=
  nl ← deref (num_local e);
  Ok (mkEntry (num_update e) (next_version e) (Some (nl + Z.b2z local)) (num_total e + 1)
        (if local then shares e ++ [p] else shares e)).
