(* ===== verification/ParamProps.v ===== *)
(** * Properties of [Param]

    Slices tile the values of a parameter; a put, an update and its response
    carry a slice's floats between the worker's store and the server's; the
    pending flags count the outstanding requests of each slice. *)

From S2P Require Import Prelude Float32 Msg Format Memory Param.

(** ** Targets *)

Lemma ParamTrgt_fields (id slice : Z)
    (Hi : - 2 ^ 15 <= id < 2 ^ 15) (Hs : 0 <= slice < 2 ^ 16) :
  ParamID (ParamTrgt id slice) = id /\ SliceID (ParamTrgt id slice) = slice /\
  INT_MIN <= ParamTrgt id slice <= INT_MAX.
Proof.
  assert (ParamTrgt id slice = id * 2 ^ 16 + slice) as ->.
  { unfold ParamTrgt. rewrite Z.shiftl_mul_pow2, wrap32_id by (unfold INT_MIN, INT_MAX; lia).
    apply lor_pow2; lia. }
  unfold ParamID, SliceID, INT_MIN, INT_MAX. change (Z.shiftl 1 16 - 1) with (Z.ones 16).
  rewrite Z.land_ones, Z.shiftr_div_pow2 by lia. split_and!; try lia.
  - symmetry. apply (Z.div_unique _ _ _ slice); lia.
  - symmetry. apply (Z.mod_unique _ _ id); lia.
Qed.

(** A target packs a parameter id of 16 bits (signed) and a slice id of 16 bits
    (unsigned) in an [int], and both are read back. *)
Theorem ParamTrgt_roundtrip (id slice : Z)
    (Hi : - 2 ^ 15 <= id < 2 ^ 15) (Hs : 0 <= slice < 2 ^ 16) :
  ParamID (ParamTrgt id slice) = id /\ SliceID (ParamTrgt id slice) = slice /\
  INT_MIN <= ParamTrgt id slice <= INT_MAX.
Proof. by apply ParamTrgt_fields. Qed.

Lemma ParamTrgt_roundtrip_witness :
  ParamID (ParamTrgt (-1) 65535) = -1 /\ SliceID (ParamTrgt (-1) 65535) = 65535 /\
  INT_MIN <= ParamTrgt (-1) 65535 <= INT_MAX.
Proof. apply (ParamTrgt_roundtrip (-1) 65535); lia. Defined.

(** ** Slices *)

(** The slices recorded so far: each starts where the previous one ends, and there
    is one flag of each kind per slice. *)
Record slices_wf (p : Param) : Prop := {
  wf_offset i : (i < length (slice_size p))%nat ->
    slice_offset p !! i = Some (zsum (take i (slice_size p)));
  wf_num : num_slices p = Z.of_nat (length (slice_size p));
  wf_noff : length (slice_offset p) = length (slice_size p);
  wf_put : length (pending_put p) = length (slice_size p);
  wf_get : length (pending_get p) = length (slice_size p);
  wf_update : length (pending_update p) = length (slice_size p);
}.

Lemma Param_new_wf : slices_wf Param_new.
Proof. constructor; try done. simpl. lia. Qed.

Lemma AddSlice_Ok (p : Param) (slice_id sz : Z) (Hwf : slices_wf p) :
  (slice_size p = [] \/ slice_id = slice_start p + num_slices p -> exists p',
     AddSlice slice_id sz p = Ok p' /\ slices_wf p' /\
     slice_size p' = slice_size p ++ [sz] /\
     slice_start p' = (if slice_size p is [] then slice_id else slice_start p) /\
     pending_put p' = pending_put p ++ [false] /\ pending_get p' = pending_get p ++ [false] /\
     pending_update p' = pending_update p ++ [false] /\
     pdata p' = pdata p /\ grad p' = grad p /\ proto_ p' = proto_ p /\
     num_pending_requests p' = num_pending_requests p) /\
  (slice_size p <> [] -> slice_id <> slice_start p + num_slices p ->
     AddSlice slice_id sz p = Fatal).
Proof.
  destruct Hwf as [Hoff Hnum Hno Hput Hget Hupd].
  destruct (decide (slice_size p = [])) as [E|E].
  - assert (slice_offset p = []) as Eo by (rewrite E in Hno; by destruct (slice_offset p)).
    split; [intros _|done]. eexists. unfold AddSlice. rewrite E, Eo. split; [done|].
    rewrite E in *. simpl in *.
    split_and!; try done. constructor; simpl; try len_lia; rewrite ?E; simpl; try len_lia.
    + intros [|i]; simpl; rewrite ?Eo; done || lia.
  - assert (exists n, length (slice_size p) = S n) as [n Hn].
    { destruct (slice_size p) as [|x l]; [done|by exists (length l)]. }
    destruct (list.last (slice_size p)) as [s|] eqn:Es; [|by apply last_None in Es].
    rewrite last_lookup, Hn in Es. simpl in Es.
    assert (list.last (slice_offset p) = Some (zsum (take n (slice_size p)))) as Eo.
    { rewrite last_lookup, Hno, Hn. apply Hoff. lia. }
    assert (list.last (slice_size p) = Some s) as Es' by by rewrite last_lookup, Hn.
    assert (zsum (take n (slice_size p)) + s = zsum (slice_size p)) as Hsum.
    { rewrite <- (take_drop n (slice_size p)) at 2. rewrite zsum_app.
      rewrite (drop_S _ s n Es), drop_ge by lia. simpl. lia. }
    unfold AddSlice. rewrite Eo, Es'. split.
    + intros [Hd|Hid]; [done|]. rewrite <- Hid, Z.eqb_refl. simpl.
      eexists. split; [done|]. split_and!; simpl; try done; [|by destruct (slice_size p)].
      rewrite Hsum. constructor; simpl; try len_lia.
      intros i Hi. rewrite length_app in Hi. simpl in Hi.
      destruct (decide (i = length (slice_size p))) as [->|Hne].
      * rewrite <- Hno at 1. rewrite lookup_app_r, Nat.sub_diag by lia. simpl.
        by rewrite take_app_length.
      * rewrite lookup_app_l by lia. rewrite take_app_le by lia. apply Hoff. lia.
    + intros _ Hid. destruct (Z.eqb_spec (slice_start p + num_slices p) slice_id); [lia|done].
Qed.

(** [AddSlice]: slices are recorded in the order of their ids.  The first one
    sets the start id, each further one must have the next id (anything else is a
    failed [CHECK]), starts where the previous one ends, and has its flags clear;
    the other slices are as they were. *)
Theorem AddSlice_spec (p : Param) (slice_id sz : Z) (Hwf : slices_wf p) :
  (slice_size p = [] \/ slice_id = slice_start p + num_slices p -> exists p',
     AddSlice slice_id sz p = Ok p' /\ slices_wf p' /\
     slice_size p' = slice_size p ++ [sz] /\
     slice_start p' = (if slice_size p is [] then slice_id else slice_start p) /\
     pending_put p' = pending_put p ++ [false] /\ pending_get p' = pending_get p ++ [false] /\
     pending_update p' = pending_update p ++ [false] /\
     pdata p' = pdata p /\ grad p' = grad p /\ proto_ p' = proto_ p /\
     num_pending_requests p' = num_pending_requests p) /\
  (slice_size p <> [] -> slice_id <> slice_start p + num_slices p ->
     AddSlice slice_id sz p = Fatal).
Proof. by apply AddSlice_Ok. Qed.

Lemma AddSlice_spec_witness :
  let p := set_id 3 Param_new in
  (slice_size p = [] \/ 7 = slice_start p + num_slices p -> exists p',
     AddSlice 7 10 p = Ok p' /\ slices_wf p' /\
     slice_size p' = slice_size p ++ [10] /\
     slice_start p' = (if slice_size p is [] then 7 else slice_start p) /\
     pending_put p' = pending_put p ++ [false] /\ pending_get p' = pending_get p ++ [false] /\
     pending_update p' = pending_update p ++ [false] /\
     pdata p' = pdata p /\ grad p' = grad p /\ proto_ p' = proto_ p /\
     num_pending_requests p' = num_pending_requests p) /\
  (slice_size p <> [] -> 7 <> slice_start p + num_slices p -> AddSlice 7 10 p = Fatal).
Proof. apply (AddSlice_spec (set_id 3 Param_new) 7 10). constructor; simpl; done || lia. Defined.

(** *** The slices of a parameter's values *)

(** The slices of [p] tile [vs], and none is empty. *)
Record slices_cover (p : Param) (vs : list Z) : Prop := {
  cover_wf : slices_wf p;
  cover_pos : Forall (Z.lt 0) (slice_size p);
  cover_sum : zsum (slice_size p) = Z.of_nat (length vs);
}.

Definition slice_off (p : Param) (ix : nat) : nat := Z.to_nat (zsum (take ix (slice_size p))).
Definition slice_len (p : Param) (ix : nat) : nat := Z.to_nat (default 0 (slice_size p !! ix)).
(** The values of slice [ix], and the values with those of slice [ix] replaced. *)
Definition slice_vals (p : Param) (ix : nat) (vs : list Z) : list Z :=
  take (slice_len p ix) (drop (slice_off p ix) vs).
Definition slice_put (p : Param) (ix : nat) (ws vs : list Z) : list Z :=
  take (slice_off p ix) vs ++ ws ++ drop (slice_off p ix + slice_len p ix) vs.

Lemma slices_cover_slice p vs ix :
  slices_cover p vs -> (ix < length (slice_size p))%nat ->
  vs = take (slice_off p ix) vs ++ slice_vals p ix vs ++ drop (slice_off p ix + slice_len p ix) vs /\
  idx (slice_offset p) (Z.of_nat ix) = Ok (Z.of_nat (slice_off p ix)) /\
  idx (slice_size p) (Z.of_nat ix) = Ok (Z.of_nat (slice_len p ix)) /\
  length (take (slice_off p ix) vs) = slice_off p ix /\
  length (slice_vals p ix vs) = slice_len p ix /\ (0 < slice_len p ix)%nat /\
  (slice_off p ix + slice_len p ix <= length vs)%nat.
Proof.
  intros [Hwf Hpos Hsum] Hix.
  destruct (lookup_lt_is_Some_2 (slice_size p) ix Hix) as [sz Hsz].
  assert (Forall (Z.lt 0) (take ix (slice_size p)) /\ Forall (Z.lt 0) (drop ix (slice_size p)))
    as [Hp1 Hp2] by (apply Forall_app; by rewrite take_drop).
  assert (forall l, Forall (Z.lt 0) l -> 0 <= zsum l) as Hnn.
  { intros l Hl. apply zsum_nonneg. eapply Forall_impl; [|exact Hl]. simpl. lia. }
  rewrite <- (take_drop ix (slice_size p)), zsum_app, (drop_S _ sz ix Hsz) in Hsum.
  rewrite (drop_S _ sz ix Hsz) in Hp2. inversion Hp2 as [|? ? Hsz0 Hp3]; subst.
  simpl in Hsum. pose proof (Hnn _ Hp1). pose proof (Hnn _ Hp3). unfold slice_vals, slice_off, slice_len.
  rewrite Hsz. simpl. split_and!; try lia.
  - rewrite <- drop_drop. by rewrite !take_drop.
  - rewrite Z2Nat.id by done. apply idx_lookup. by apply (wf_offset p Hwf).
  - rewrite Z2Nat.id by lia. by apply idx_lookup.
  - rewrite length_take. lia.
  - rewrite length_take, length_drop. lia.
Qed.

Lemma slice_put_split p ix ws vs vs' :
  slices_cover p vs -> (ix < length (slice_size p))%nat -> length ws = slice_len p ix ->
  vs' = slice_put p ix ws vs ->
  length vs' = length vs /\ slice_vals p ix vs' = ws.
Proof.
  intros Hc Hix Hl ->. destruct (slices_cover_slice p vs ix Hc Hix) as (E & _ & _ & L1 & L2 & _ & L3).
  split.
  - unfold slice_put. rewrite !length_app, length_drop, L1, Hl. lia.
  - unfold slice_vals, slice_put. rewrite drop_app_length' by done.
    by rewrite take_app_length'.
Qed.

(** ** Parameters in a store *)

(** The values of [p] are [vs], in memory at [base]. *)
Definition param_at (h : heap) (p : Param) (base : Z) (vs : list Z) : Prop :=
  exists i b, pdata p = Some i /\ blobs h !! i = Some b /\ at_cpu h b base vs.

Lemma param_at_blob h p base vs :
  param_at h p base vs -> exists b, data_blob p h = Ok b /\ at_cpu h b base vs.
Proof.
  intros (i & b & Hi & Hb & Ha). exists b. unfold data_blob.
  by rewrite Hi, deref_Some, bind_Ok, Hb.
Qed.

Lemma param_at_ptr h p base vs :
  param_at h p base vs ->
  data_ptr p h = Ok (h, base) /\ mutable_data_ptr p h = Ok (h, base) /\
  size p h = Ok (Z.of_nat (length vs)).
Proof.
  intros Hp. destruct (param_at_blob _ _ _ _ Hp) as (b & E & Ha).
  unfold data_ptr, mutable_data_ptr, size. rewrite E, !bind_Ok.
  destruct (at_cpu_data _ _ _ _ Ha) as [-> ->]. by rewrite (at_cpu_count _ _ _ _ Ha).
Qed.

Lemma heap_add_blob h i b :
  heap_ok h -> next_id h = i ->
  let h' := mkHeap (cells h) (brk h) (sms h) (<[i := b]> (blobs h)) (i + 1) in
  heap_ok h' /\ grows h h'.
Proof.
  intros Hok <-. split; constructor; simpl; try apply Hok; try done; try lia.
  - intros j s Hj. apply (ok_sms h Hok) in Hj. lia.
  - intros j b'. destruct (decide (next_id h = j)) as [<-|Hn]; [lia|].
    rewrite lookup_insert_ne by done. intros Hj. apply (ok_blobs h Hok) in Hj. lia.
  - intros j b' Hj. pose proof (ok_blobs h Hok _ _ Hj). by rewrite lookup_insert_ne by lia.
Qed.

(** ** The gradient's memory is not the values' *)

(** The memory of the gradient is not yet allocated, or disjoint from the memory
    of the values, which starts at [base]. *)
Record grad_apart (h : heap) (p : Param) (base : Z) : Prop := {
  ga_wf : blob_wf h (grad p);
  ga_le : 0 < count_ (grad p) <= capacity_ (grad p);
  ga_mem : exists i b gi s, pdata p = Some i /\ blobs h !! i = Some b /\ 0 < capacity_ b /\
    data_ (grad p) = Some gi /\ data_ b <> Some gi /\ sms h !! gi = Some s /\
    sm_size s = sizeof_float * capacity_ (grad p) /\
    (head s = UNINITIALIZED \/
     head s = HEAD_AT_CPU /\
       (cpu_ptr s + sm_size s <= base \/ base + sizeof_float * capacity_ b <= cpu_ptr s));
}.

(** Blob [i] is [b], with [n] floats in the new object [j], not yet allocated. *)
Record fresh_blob (h0 h : heap) (i : Z) (b : Blob) (n j : Z) : Prop := {
  fr_id : next_id h0 <= i;
  fr_blob : blobs h !! i = Some b;
  fr_count : count_ b = n;
  fr_capacity : capacity_ b = n;
  fr_shape : shape_ b = [n];
  fr_data : data_ b = Some j;
  fr_new : next_id h0 <= j;
  fr_sm : sms h !! j = Some (mkSM 0 (sizeof_float * n) UNINITIALIZED false);
}.

(** A gradient (or history) reshaped to [n] floats. *)
Record grad_wf (h : heap) (b : Blob) (n : Z) : Prop := {
  gw_wf : blob_wf h b;
  gw_count : count_ b = n;
  gw_capacity : n <= capacity_ b;
}.

Lemma blob_wf_data h b i :
  heap_ok h -> blob_wf h b -> 0 < capacity_ b -> data_ b = Some i -> i < next_id h.
Proof.
  intros Hok [_ Hw] Hp Hi. destruct (Hw Hp) as (k & bs & Hk & Hs & _).
  assert (k = i) as -> by congruence. unfold sm_bytes in Hs.
  destruct (sms h !! i) eqn:E; [|done]. by eapply ok_sms.
Qed.

(** Reshaping to [n] floats a blob that was well formed in an earlier store: its
    object is an old one or a new one. *)
Lemma Reshape1_Ok h0 h b n :
  heap_ok h0 -> heap_ok h -> grows h0 h -> 0 < n <= INT_MAX -> blob_wf h0 b ->
  exists h' b' k, Reshape b [n] h = Ok (h', b') /\ heap_ok h' /\ grows h h' /\
    grad_wf h' b' n /\ data_ b' = Some k /\ (k < next_id h0 \/ next_id h <= k) /\
    shape_ b' = [n] /\
    (capacity_ b = 0 -> capacity_ b' = n /\ k = next_id h /\
       sms h' !! k = Some (mkSM 0 (sizeof_float * n) UNINITIALIZED false)).
Proof.
  intros Hok0 Hok Hg Hn Hb0.
  assert (blob_wf h b) as Hb by (eapply blob_wf_keeps; [|done]; by apply grows_keeps).
  assert (shape_size [n] = n) as Hsz by (unfold shape_size; simpl; lia).
  destruct (Reshape_Ok h b [n] Hok Hb) as
    (h' & b' & E & Hok' & _ & Hb' & Hsh & Hc & _ & Hcap & Hbl & Hd);
    [repeat constructor; lia|lia|].
  assert (grows h h') as Hgr by by eapply Reshape_grows.
  pose proof E as E'. unfold Reshape in E'. inv_ok E'.
  assert (a = n) as ->.
  { cbn [shape_count] in E0. destruct (Z.eqb_spec n 0); [lia|]. cbn [CHECK negb] in E0.
    rewrite bind_Ok, int_ret_Ok in E0 by (unfold INT_MIN; lia). injection E0 as <-. lia. }
  destruct Hb as [Hbc Hbd].
  destruct (Z.ltb_spec (capacity_ b) n) as [Hlt|Hge].
  - simpl in E'. exists h', b', (next_id h). split; [done|]. split; [done|]. split; [done|].
    split; [constructor; done || lia|]. injection E' as <- <-. split; [done|]. split; [lia|].
    split; [done|]. intros H0. split; [done|]. split; [done|]. simpl. by rewrite lookup_insert_eq, Z.mul_comm.
  - injection E' as -> <-. destruct (Hbd ltac:(lia)) as (k & bs & Hk & _).
    exists h', (mkBlob (data_ b) [n] n (capacity_ b) (version_ b)), k.
    split; [done|]. split; [done|]. split; [done|].
    split; [constructor; done || lia|]. split; [done|].
    split; [left; by apply (blob_wf_data h0 b); [..|lia|]|]. split; [done|]. lia.
Qed.

(** [Setup] with a one-dimensional shape: new values, and the gradient reshaped. *)
Lemma Setup_Ok h p proto n :
  heap_ok h -> 0 < n <= INT_MAX -> blob_wf h (grad p) -> blob_wf h (history p) ->
  exists h' p' i b j, Setup p proto [n] h = Ok (h', p') /\ heap_ok h' /\ grows h h' /\
    p' = set_blobs (Some i) (grad p') (history p') proto p /\ fresh_blob h h' i b n j /\
    grad_wf h' (grad p') n /\ grad_wf h' (history p') n /\
    data_ (grad p') <> Some j /\ data_ (history p') <> Some j /\
    (capacity_ (grad p) = 0 -> capacity_ (grad p') = n /\ exists k, data_ (grad p') = Some k /\
       sms h' !! k = Some (mkSM 0 (sizeof_float * n) UNINITIALIZED false)).
Proof.
  intros Hok Hn Hg Hhi. unfold Setup, Blob_make.
  destruct (Reshape1_Ok h h Blob_new n Hok Hok (reflexivity h) Hn)
    as (h1 & b & j & E1 & Hok1 & Hg1 & Hb1 & Hj & _ & Hshp & Hfr);
    [split; simpl; lia|].
  destruct (Hfr eq_refl) as (Hcap & -> & Hs).
  rewrite E1, bind_Ok. set (i := next_id h1).
  destruct (heap_add_blob h1 i b Hok1 eq_refl) as [Hok2 Hg2].
  set (h2 := mkHeap _ _ _ _ _) in *.
  assert (grows h h2) as Hg02 by by transitivity h1.
  assert (next_id h < next_id h2) as Hlt.
  { pose proof (ok_sms _ Hok1 _ _ Hs). unfold h2. simpl. lia. }
  destruct (Reshape1_Ok h h2 (grad p) n Hok Hok2 Hg02 Hn Hg)
    as (h3 & g & kg & E3 & Hok3 & Hg3 & Hb3 & Hkg & Hne & _ & Hgfr).
  assert (grows h h3) as Hg03 by by transitivity h2.
  rewrite E3, bind_Ok. pose proof (grows_next _ _ Hg3).
  destruct (Reshape1_Ok h h3 (history p) n Hok Hok3 Hg03 Hn Hhi)
    as (h4 & hi & kh & E4 & Hok4 & Hg4 & Hb4 & Hkh & Hneh & _ & _).
  rewrite E4, bind_Ok.
  assert (grows h2 h4) as Hg24 by by transitivity h3.
  eexists h4, _, i, b, (next_id h). split; [done|]. split; [done|].
  split; [by transitivity h2|]. split; [done|]. split.
  - constructor; try done; try apply Hb1; try lia.
    + apply (grows_next _ _ Hg1).
    + apply (grows_blobs _ _ Hg24). simpl. by rewrite lookup_insert_eq.
    + by apply (grows_sms _ _ Hg24).
  - split.
    { simpl. destruct Hb3 as [Hw ? ?]. constructor; [|done..].
      eapply blob_wf_keeps; [|done]. by apply grows_keeps. }
    split; [done|]. simpl. rewrite Hkg, Hkh. split; [intros [=]; lia|].
    split; [intros [=]; lia|]. intros H0. destruct (Hgfr H0) as (? & -> & Hs3).
    split; [done|]. eexists. split; [done|]. by apply (grows_sms _ _ Hg4).
Qed.

(** Filling the values of a new parameter. *)
Lemma param_fill_Ok h0 h p i b vs n j :
  heap_ok h0 -> heap_ok h -> grows h0 h -> pdata p = Some i -> fresh_blob h0 h i b n j ->
  n = Z.of_nat (length vs) -> vs <> [] -> Forall is_f32 vs ->
  exists h1 h2, mutable_data_ptr p h = Ok (h1, brk h) /\
    store h1 (brk h) (bytes_of_f32s vs) = Ok h2 /\ heap_ok h2 /\ grows h0 h2 /\
    grows_but j h h2 /\ param_at h2 p (brk h) vs /\ blobs h2 !! i = Some b /\ at_cpu h2 b (brk h) vs.
Proof.
  intros Hok0 Hok Hg Hi [Hid Hb Hc Hcap Hsh Hd Hj Hs] Hn Hne Hf.
  destruct (fresh_fill h b j vs (sizeof_float * n) Hok Hd Hs)
    as (h1 & h2 & E1 & Hbl & E2 & Hok2 & Hgb & Ha); [congruence..|done|done|].
  exists h1, h2. unfold mutable_data_ptr, data_blob.
  rewrite Hi, deref_Some, bind_Ok, Hb, deref_Some, bind_Ok.
  split; [done|]. split; [done|]. split; [done|]. split; [by eapply grows_but_grows|].
  split; [done|]. assert (blobs h2 !! i = Some b) as Hb2 by by rewrite (but_blobs _ _ _ Hgb).
  split; [by exists i, b|done].
Qed.

(** Reading and writing a slice through a pointer to the values. *)
Lemma at_cpu_slice h b base vs p ix n :
  at_cpu h b base vs -> slices_cover p vs -> (ix < length (slice_size p))%nat ->
  n = sizeof_float * Z.of_nat (slice_len p ix) ->
  load h (base + sizeof_float * Z.of_nat (slice_off p ix)) n
    = Ok (bytes_of_f32s (slice_vals p ix vs)).
Proof.
  intros Ha Hc Hix Hn.
  destruct (slices_cover_slice p vs ix Hc Hix) as (Evs & _ & _ & L1 & L2 & _).
  rewrite Evs in Ha. rewrite <- L1. apply (at_cpu_load h b base _ _ _ n Ha). by rewrite L2.
Qed.

Lemma at_cpu_slice_store h b base vs p ix ws :
  heap_ok h -> at_cpu h b base vs -> slices_cover p vs -> (ix < length (slice_size p))%nat ->
  length ws = slice_len p ix -> Forall is_f32 ws ->
  exists h', store h (base + sizeof_float * Z.of_nat (slice_off p ix)) (bytes_of_f32s ws) = Ok h' /\
    heap_ok h' /\ at_cpu h' b base (slice_put p ix ws vs) /\
    sms h' = sms h /\ blobs h' = blobs h /\ next_id h' = next_id h /\ brk h' = brk h /\
    (forall q m, q + Z.of_nat m <= base \/ base + sizeof_float * capacity_ b <= q ->
       peek (cells h') q m = peek (cells h) q m).
Proof.
  intros Hok Ha Hc Hix Hl Hf.
  destruct (slices_cover_slice p vs ix Hc Hix) as (Evs & _ & _ & L1 & L2 & _).
  rewrite Evs in Ha.
  destruct (at_cpu_store h b base _ _ _ ws Hok Ha) as (h' & E & H); [by rewrite L2|done|].
  exists h'. rewrite L1 in E. unfold slice_put. done.
Qed.

(** ** Put *)
Section put.
Context `{C : Czmq} `{!CzmqLaws C}.

Definition put_fields (sz lr wd ptr : Z) : list (Z * fmt_arg) :=
  [(ch_i, AInt sz); (ch_f, AFloat lr); (ch_f, AFloat wd); (ch_p, APtr ptr)].

Lemma Msg_new_frames : has_frames Msg_new [].
Proof. exists zmsg_new. split; [done|apply zframes_new]. Qed.

Lemma has_frames_type t m fs : has_frames m fs -> has_frames (set_type t m) fs.
Proof. done. Qed.

Lemma put_fields_fit sz lr wd ptr :
  INT_MIN <= sz <= INT_MAX -> is_f32 lr -> is_f32 wd -> 0 <= ptr < 2 ^ 64 ->
  Forall fits (put_fields sz lr wd ptr).
Proof. intros. repeat constructor; unfold is_f32 in *; lia. Qed.

Lemma Forall_fits_any fs : Forall fits fs -> Forall fits_any fs.
Proof. intros H. eapply Forall_impl; [|exact H]. by constructor. Qed.

(** The multipliers of a parameter are floats. *)
Definition mults_ok (p : Param) : Prop := is_f32 (lr_mult (proto_ p)) /\ is_f32 (wd_mult (proto_ p)).

(** The message a put makes: a format frame, and the slice if it is copied. *)
Lemma GenPutMsg_Ok h p base vs ix copy :
  heap_ok h -> param_at h p base vs -> slices_cover p vs -> (ix < length (slice_size p))%nat ->
  mults_ok p -> Z.of_nat (length vs) <= INT_MAX -> brk h <= 2 ^ 64 ->
  let ptr := base + sizeof_float * Z.of_nat (slice_off p ix) in
  exists msg, GenPutMsg copy (Z.of_nat ix) p h = Ok (h, msg) /\ type msg = kPut /\
    has_frames msg
      (frame_of (put_fields (Z.of_nat (slice_len p ix)) (lr_mult (proto_ p)) (wd_mult (proto_ p))
                   (if copy : bool then 0 else ptr))
       :: if copy : bool then [bytes_of_f32s (slice_vals p ix vs)] else []) /\
    0 < ptr < 2 ^ 64.
Proof.
  intros Hok Hp Hc Hix [Hlr Hwd] Hmax Hbrk ptr.
  destruct (slices_cover_slice p vs ix Hc Hix) as (Evs & Eoff & Esz & L1 & L2 & Hpos & L3).
  destruct (param_at_ptr _ _ _ _ Hp) as (_ & Eptr & _).
  destruct (param_at_blob _ _ _ _ Hp) as (b & Eb & Ha).
  destruct (at_cpu_below h b base vs Hok Ha) as [Hb1 Hb2]; [by intros ->; simpl in *; lia|].
  assert (0 < ptr < 2 ^ 64) as Hr by (unfold ptr, sizeof_float in *; lia).
  unfold GenPutMsg. rewrite (wf_num p (cover_wf p vs Hc)).
  destruct (Z.ltb_spec (Z.of_nat ix) (Z.of_nat (length (slice_size p)))); [|lia].
  simpl CHECK. rewrite bind_Ok, Eptr, bind_Ok, Eoff, bind_Ok, Esz, bind_Ok. fold ptr.
  edestruct (AddFormatFrame_Ok "iffp" (put_fields (Z.of_nat (slice_len p ix))
    (lr_mult (proto_ p)) (wd_mult (proto_ p)) (if copy : bool then 0 else ptr))
    (set_type kPut Msg_new) []) as (m1 & E1 & Hm1 & Hh1);
    [apply Msg_new_frames|done|apply Forall_fits_any, put_fields_fit; try done; [unfold INT_MIN; lia|by destruct copy; lia]|vm_compute; discriminate|].
  simpl map in E1. rewrite E1, bind_Ok.
  assert (type m1 = kPut) as Ht by apply Hh1.
  destruct copy; [|by exists m1].
  rewrite (at_cpu_slice h b base vs p ix _ Ha Hc Hix), bind_Ok by lia.
  destruct (AddFrame_Ok m1 _ (bytes_of_f32s (slice_vals p ix vs)) Hm1) as (m2 & E2 & Hm2 & Hh2).
  rewrite E2, bind_Ok. exists m2. split; [done|]. split; [|done].
  rewrite <- Ht. apply Hh2.
Qed.
(** What a put leaves at the server: its values, and a gradient of the same size.
    The multipliers the message carried are gone: [Setup] is given a default
    [ParamProto]. *)
Record put_done (h0 : heap) (h : heap) (p0 p : Param) (base : Z) (ws : list Z) : Prop := {
  pd_heap : heap_ok h;
  pd_grows : grows h0 h;
  pd_param : param_at h p base ws;
  pd_fresh : brk h0 <= base;
  pd_grad : grad_wf h (grad p) (Z.of_nat (length ws));
  pd_apart : capacity_ (grad p0) = 0 -> grad_apart h p base;
  pd_shape : exists b, data_blob p h = Ok b /\ shape_ b = [Z.of_nat (length ws)] /\ at_cpu h b base ws;
  pd_proto : proto_ p = ParamProto_default;
  pd_slices : slice_size p = slice_size p0;
  pd_new : exists i, pdata p = Some i /\ next_id h0 <= i;
}.

Lemma frame_bytes_Ok m fs k d n :
  at_frame m fs k -> fs !! k = Some d -> n = Z.of_nat (length d) -> frame_bytes n m = Ok d.
Proof.
  intros Hat Hd ->. unfold frame_bytes. rewrite (FrameData_Ok m fs k d Hat Hd), bind_Ok.
  destruct (Z.leb_spec 0 (Z.of_nat (length d))); [|lia].
  by rewrite Z.leb_refl, Nat2Z.id, firstn_all.
Qed.

Lemma FrameSize_Ok m fs k d : at_frame m fs k -> fs !! k = Some d -> FrameSize m = Ok (Z.of_nat (length d)).
Proof. intros Hat Hd. unfold FrameSize. by rewrite (FrameData_Ok m fs k d Hat Hd), bind_Ok. Qed.

Lemma HandlePutMsg_copy_Ok h p m ws lr wd reserve more :
  heap_ok h -> blob_wf h (grad p) -> blob_wf h (history p) ->
  Forall is_f32 ws -> ws <> [] -> Z.of_nat (length ws) <= INT_MAX -> is_f32 lr -> is_f32 wd ->
  let fs := frame_of (put_fields (Z.of_nat (length ws)) lr wd 0) :: bytes_of_f32s ws :: more in
  at_frame m fs 0 ->
  exists h' p' base r, HandlePutMsg m reserve p h = Ok (h', p', r) /\
    put_done h h' p p' base ws /\
    (if reserve then exists m', r = Some m' /\ at_frame m' fs 1 /\ same_header m m' else r = None).
Proof.
  intros Hok Hg Hhi Hf Hne Hmax Hlr Hwd fs Hm. unfold fs in *. clear fs.
  assert (0 < Z.of_nat (length ws)) as Hpos by (destruct ws; simpl in *; done || lia).
  unfold HandlePutMsg.
  rewrite (ParseFormatFrame_Ok "iffp" (put_fields (Z.of_nat (length ws)) lr wd 0) [] m _ 0 Hm);
    [|by rewrite app_nil_r|done|
    apply put_fields_fit; unfold INT_MIN, INT_MAX in *; done || lia].
  rewrite bind_Ok. simpl map. cbv iota beta.
  set (p1 := set_blobs _ _ _ _ p).
  destruct (Setup_Ok h p1 ParamProto_default (Z.of_nat (length ws)) Hok)
    as (h1 & p2 & i & b & j & E1 & Hok1 & Hg1 & Ep2 & Hfr & Hgw & Hhw & Hnj & _ & Hgfr); [lia|done..|].
  rewrite E1, bind_Ok. simpl Z.eqb. cbv iota.
  destruct (NextFrame_Ok m _ 0 Hm) as (m2 & E2 & Hm2 & Hh2); [simpl; lia|].
  rewrite E2, bind_Ok. simpl CHECK. rewrite bind_Ok.
  rewrite (FrameSize_Ok m2 _ 1 _ Hm2 eq_refl), bind_Ok, length_bytes_of_f32s.
  replace (Z.of_nat (length ws) * sizeof_float) with (Z.of_nat (4 * length ws))
    by (unfold sizeof_float; lia).
  rewrite Z.eqb_refl. simpl CHECK. rewrite bind_Ok.
  destruct (param_fill_Ok h h1 p2 i b ws (Z.of_nat (length ws)) j Hok Hok1 Hg1)
    as (h2 & h3 & E3 & E4 & Hok3 & Hg3 & Hgb & Ha & Hb3 & Hab); [by rewrite Ep2|done..|].
  rewrite E3, bind_Ok.
  rewrite (frame_bytes_Ok m2 _ 1 (bytes_of_f32s ws) _ Hm2 eq_refl), bind_Ok
    by (by rewrite length_bytes_of_f32s).
  rewrite E4, !bind_Ok. eexists h3, p2, (brk h1), _. split; [done|].
  split; [|destruct reserve; eauto]. constructor; try done.
  - apply Hg1.
  - destruct Hgw as [Hw ? ?]. constructor; [|done..]. by apply (grows_but_wf j h1).
  - intros H0. destruct Hgw as [Hw Hgc Hgl]. destruct (Hgfr H0) as (Hgcap & k & Hk & Hs).
    constructor; [by apply (grows_but_wf j h1)|lia|].
    exists i, b, k, (mkSM 0 (sizeof_float * Z.of_nat (length ws)) UNINITIALIZED false).
    rewrite (fr_data _ _ _ _ _ _ Hfr), (fr_capacity _ _ _ _ _ _ Hfr), Hgcap.
    split_and!; auto; [by rewrite Ep2|congruence|].
    rewrite (but_sms _ _ _ Hgb); [done|congruence].
  - exists b. unfold data_blob. rewrite Ep2. simpl pdata. rewrite deref_Some, bind_Ok, Hb3.
    split; [done|]. split; [apply (fr_shape _ _ _ _ _ _ Hfr)|done].
  - by rewrite Ep2.
  - by rewrite Ep2.
  - exists i. split; [by rewrite Ep2|apply (fr_id _ _ _ _ _ _ Hfr)].
Qed.
End put.

(** A put that copies carries a slice to a new parameter of the server: it is
    made without changing anything in the worker's store, and handling it, at a
    server with its own store, gives a parameter that holds exactly the slice's
    values, in new memory (nothing the server had is changed), with a gradient of
    the same size.  The learning-rate and weight-decay multipliers in the message
    are lost, as [Setup] is called with a default [ParamProto]. *)
Theorem Put_copies_slice `{C : Czmq} `{!CzmqLaws C}
    (h hs : heap) (p ps : Param) (base : Z) (vs : list Z) (ix : nat) (reserve : bool)
    (Hok : heap_ok h) (Hp : param_at h p base vs) (Hc : slices_cover p vs)
    (Hix : (ix < length (slice_size p))%nat) (Hmul : mults_ok p)
    (Hmax : Z.of_nat (length vs) <= INT_MAX) (Hbrk : brk h <= 2 ^ 64)
    (Hoks : heap_ok hs) (Hg : blob_wf hs (grad ps)) (Hhi : blob_wf hs (history ps)) :
  exists msg, GenPutMsg true (Z.of_nat ix) p h = Ok (h, msg) /\ type msg = kPut /\
    forall m2, delivered msg m2 ->
      exists hs' ps' base' r, HandlePutMsg m2 reserve ps hs = Ok (hs', ps', r) /\
        put_done hs hs' ps ps' base' (slice_vals p ix vs) /\
        bool_decide (is_Some r) = reserve.
Proof.
  destruct (GenPutMsg_Ok h p base vs ix true Hok Hp Hc Hix Hmul Hmax Hbrk)
    as (msg & E & Ht & Hm & _).
  exists msg. split; [done|]. split; [done|]. intros m2 Hd.
  destruct (slices_cover_slice p vs ix Hc Hix) as (Evs & _ & _ & _ & L2 & Hpos & L3).
  destruct (param_at_blob _ _ _ _ Hp) as (b & _ & Ha).
  pose proof (at_cpu_f32 _ _ _ _ Ha) as Hf. rewrite Evs in Hf.
  apply Forall_app in Hf as [_ Hf]. apply Forall_app in Hf as [Hf _].
  destruct (delivered_at _ _ _ Hd Hm) as [more Hat]. rewrite <- L2 in Hat.
  destruct Hmul as [Hlr Hwd].
  assert (slice_vals p ix vs <> []) as Hne by (intros E0; rewrite E0 in L2; simpl in L2; lia).
  assert (Z.of_nat (length (slice_vals p ix vs)) <= INT_MAX) as Hle by lia.
  destruct (HandlePutMsg_copy_Ok hs ps m2 _ _ _ reserve more Hoks Hg Hhi Hf Hne Hle Hlr Hwd Hat)
    as (hs' & ps' & base' & r & Eh & Hpd & Hr).
  exists hs', ps', base', r. split; [done|]. split; [done|].
  destruct reserve; [destruct Hr as (m3 & -> & _)|rewrite Hr]; done.
Qed.

(** *** A parameter of two slices of one float, used by the witnesses *)
Definition demo_pheap : heap := mkHeap (cells demo_heap) 9 (sms demo_heap) {[1 := demo_blob]} 2.
Definition demo_param : Param :=
  mkParam (-1) 0 2 [0; 1] [1; 1] [false; false] [false; false] [false; false] 0 (Some 1)
    Blob_new Blob_new ParamProto_default.

Lemma demo_pheap_ok : heap_ok demo_pheap.
Proof.
  destruct demo_heap_ok as [H1 H2 H3 H4]. constructor; [done|exact H2| |]; simpl.
  - intros i s. rewrite lookup_singleton_Some. lia.
  - intros i b. rewrite lookup_singleton_Some. lia.
Qed.

Lemma demo_at_cpu : at_cpu demo_pheap demo_blob 1 demo_floats.
Proof.
  destruct demo_blob_holds as [H1 H2 H3 H4]. split; [constructor; [done..|exact H4]|].
  exists 0. split; [done|]. eexists. split; [reflexivity|done].
Qed.

Lemma demo_param_at : param_at demo_pheap demo_param 1 demo_floats.
Proof. exists 1, demo_blob. split; [done|]. split; [done|]. apply demo_at_cpu. Qed.

Lemma demo_wf : slices_wf demo_param.
Proof. constructor; try done. intros [|[|i]]; simpl; try done. lia. Qed.

Lemma demo_cover : slices_cover demo_param demo_floats.
Proof. constructor; [apply demo_wf|repeat constructor|done]. Qed.

Lemma Blob_new_wf h : blob_wf h Blob_new.
Proof. split; simpl; lia. Qed.

Lemma demo_mults : mults_ok demo_param.
Proof. split; (split; [by vm_compute|by vm_compute]). Qed.

#[local] Existing Instances ListCzmq.czmq ListCzmq.czmq_laws.

Lemma Put_copies_slice_witness :
  exists msg, GenPutMsg true 1 demo_param demo_pheap = Ok (demo_pheap, msg) /\ type msg = kPut /\
    forall m2, delivered msg m2 ->
      exists hs' ps' base' r, HandlePutMsg m2 true Param_new (empty_heap) = Ok (hs', ps', r) /\
        put_done (empty_heap) hs' Param_new ps' base' (slice_vals demo_param 1 demo_floats) /\
        bool_decide (is_Some r) = true.
Proof.
  apply (Put_copies_slice demo_pheap (empty_heap) demo_param Param_new 1 demo_floats 1 true
    demo_pheap_ok demo_param_at demo_cover); simpl; try apply Blob_new_wf; try apply demo_mults.
  - lia.
  - apply empty_heap_ok.
Defined.

(** ** Put without copying *)
Section put_share.
Context `{C : Czmq} `{!CzmqLaws C}.

Lemma grows_param_at h h' p base vs :
  heap_ok h -> grows h h' -> param_at h p base vs -> param_at h' p base vs.
Proof.
  intros Hok Hg (i & b & Hi & Hb & Ha). exists i, b. split; [done|].
  split; [by apply (grows_blobs _ _ Hg)|]. by apply (grows_at_cpu h).
Qed.

(** Pointing an object that owns no memory at memory that holds [ws]. *)
Lemma share_Ok h0 h p i b j n ptr ws :
  heap_ok h0 -> heap_ok h -> grows h0 h -> pdata p = Some i -> fresh_blob h0 h i b n j ->
  n = Z.of_nat (length ws) -> Forall is_f32 ws -> 0 < ptr ->
  peek (cells h0) ptr (length (bytes_of_f32s ws)) = Some (bytes_of_f32s ws) ->
  exists h', set_cpu_data b ptr h = Ok h' /\ heap_ok h' /\ grows h0 h' /\ grows_but j h h' /\
    param_at h' p ptr ws.
Proof.
  intros Hok0 Hok Hg Hi [Hid Hb Hc Hcap Hsh Hd Hj Hs] Hn Hf Hptr Hpk.
  set (s' := mkSM ptr (sizeof_float * n) HEAD_AT_CPU false).
  assert (grows_but j h (set_sm j s' h)) as Hgb.
  { constructor; simpl; try done; try lia. intros k Hk. by rewrite lookup_insert_ne. }
  assert (sms (set_sm j s' h) !! j = Some s') as Hs' by by simpl; rewrite lookup_insert_eq.
  assert (heap_ok (set_sm j s' h)) as Hok'.
  { constructor; simpl; try apply Hok. intros k s. destruct (decide (j = k)) as [<-|Hk].
    - intros _. by eapply ok_sms.
    - rewrite lookup_insert_ne by done. by apply ok_sms. }
  exists (set_sm j s' h). unfold set_cpu_data, sm_set_cpu_data. rewrite Hd, deref_Some.
  destruct (Z.eqb_spec ptr 0); [lia|]. simpl CHECK. rewrite !bind_Ok, Hs, deref_Some, bind_Ok.
  split; [done|]. split; [done|]. split; [by eapply grows_but_grows|]. split; [done|].
  exists i, b. split; [done|]. split; [done|]. split.
  - constructor; [congruence|lia|done|]. exists j, []. rewrite app_nil_r. split; [done|].
    unfold sm_bytes. rewrite Hs'. simpl. rewrite length_bytes_of_f32s. split; [|unfold sizeof_float; lia].
    replace (Z.to_nat (sizeof_float * n)) with (length (bytes_of_f32s ws))
      by (rewrite length_bytes_of_f32s; unfold sizeof_float; lia).
    by apply (grows_peek h0).
  - exists j. split; [done|]. by exists s'.
Qed.

Lemma HandlePutMsg_share_Ok h p m ws lr wd ptr reserve more :
  heap_ok h -> blob_wf h (grad p) -> blob_wf h (history p) ->
  Forall is_f32 ws -> ws <> [] -> Z.of_nat (length ws) <= INT_MAX -> is_f32 lr -> is_f32 wd ->
  0 < ptr < 2 ^ 64 -> peek (cells h) ptr (length (bytes_of_f32s ws)) = Some (bytes_of_f32s ws) ->
  at_frame m (frame_of (put_fields (Z.of_nat (length ws)) lr wd ptr) :: more) 0 ->
  exists h' p' r, HandlePutMsg m reserve p h = Ok (h', p', r) /\ heap_ok h' /\ grows h h' /\
    param_at h' p' ptr ws /\ grad_wf h' (grad p') (Z.of_nat (length ws)) /\
    (if reserve then r = Some m else r = None).
Proof.
  intros Hok Hg Hhi Hf Hne Hmax Hlr Hwd Hptr Hpk Hm.
  assert (0 < Z.of_nat (length ws)) as Hpos by (destruct ws; simpl in *; done || lia).
  unfold HandlePutMsg.
  rewrite (ParseFormatFrame_Ok "iffp" (put_fields (Z.of_nat (length ws)) lr wd ptr) [] m _ 0 Hm);
    [|by rewrite app_nil_r|done|
    apply put_fields_fit; unfold INT_MIN, INT_MAX in *; done || lia].
  rewrite bind_Ok. simpl map. cbv iota beta. set (p1 := set_blobs _ _ _ _ p).
  destruct (Setup_Ok h p1 ParamProto_default (Z.of_nat (length ws)) Hok)
    as (h1 & p2 & i & b & j & E1 & Hok1 & Hg1 & Ep2 & Hfr & Hgw & Hhw & Hnj & _ & Hgfr); [lia|done..|].
  rewrite E1, bind_Ok. destruct (Z.eqb_spec ptr 0); [lia|].
  assert (pdata p2 = Some i) as Hi by by rewrite Ep2.
  destruct (share_Ok h h1 p2 i b j _ ptr ws Hok Hok1 Hg1 Hi Hfr)
    as (h2 & E2 & Hok2 & Hg2 & Hgb & Ha); [done..|lia|done|].
  unfold data_blob. rewrite Hi, deref_Some, bind_Ok, (fr_blob _ _ _ _ _ _ Hfr), deref_Some, bind_Ok.
  rewrite E2, !bind_Ok. eexists h2, p2, _. split; [done|]. split; [done|]. split; [done|].
  split; [done|]. split; [|destruct reserve; eauto].
  destruct Hgw as [Hw ? ?]. constructor; [|done..]. by apply (grows_but_wf j h1).
Qed.
End put_share.

(** A put that does not copy (worker and server in one process) makes the
    server's parameter share the worker's memory: its values are at the address of
    the slice inside the worker's values, and whatever is stored through it
    replaces that slice of the worker's parameter and nothing else of it. *)
Theorem Put_shares_slice `{C : Czmq} `{!CzmqLaws C}
    (h : heap) (p ps : Param) (base : Z) (vs : list Z) (ix : nat) (reserve : bool)
    (Hok : heap_ok h) (Hp : param_at h p base vs) (Hc : slices_cover p vs)
    (Hix : (ix < length (slice_size p))%nat) (Hmul : mults_ok p)
    (Hmax : Z.of_nat (length vs) <= INT_MAX) (Hbrk : brk h <= 2 ^ 64)
    (Hg : blob_wf h (grad ps)) (Hhi : blob_wf h (history ps)) :
  let ptr := base + sizeof_float * Z.of_nat (slice_off p ix) in
  exists msg, GenPutMsg false (Z.of_nat ix) p h = Ok (h, msg) /\ type msg = kPut /\
    forall m2, delivered msg m2 ->
      exists h' ps' r, HandlePutMsg m2 reserve ps h = Ok (h', ps', r) /\ heap_ok h' /\
        param_at h' p base vs /\ param_at h' ps' ptr (slice_vals p ix vs) /\
        forall ws, length ws = slice_len p ix -> Forall is_f32 ws ->
          exists h2, store h' ptr (bytes_of_f32s ws) = Ok h2 /\
            param_at h2 p base (slice_put p ix ws vs) /\ data_ptr ps' h2 = Ok (h2, ptr).
Proof.
  intros ptr. destruct (GenPutMsg_Ok h p base vs ix false Hok Hp Hc Hix Hmul Hmax Hbrk)
    as (msg & E & Ht & Hm & Hptr). fold ptr in Hm, Hptr.
  exists msg. split; [done|]. split; [done|]. intros m2 Hd.
  destruct (slices_cover_slice p vs ix Hc Hix) as (Evs & _ & _ & L1 & L2 & Hpos & L3).
  destruct (param_at_blob _ _ _ _ Hp) as (b & _ & Ha).
  pose proof (at_cpu_f32 _ _ _ _ Ha) as Hf. rewrite Evs in Hf.
  apply Forall_app in Hf as [_ Hf]. apply Forall_app in Hf as [Hf _].
  destruct (delivered_at _ _ _ Hd Hm) as [more Hat]. rewrite <- L2 in Hat. destruct Hmul as [Hlr Hwd].
  pose proof (at_cpu_bytes _ _ _ _ Ha) as Hpk. rewrite Evs in Hpk.
  apply peek_slice in Hpk. rewrite L1 in Hpk. fold ptr in Hpk.
  assert (slice_vals p ix vs <> []) as Hne by (intros E0; rewrite E0 in L2; simpl in L2; lia).
  assert (Z.of_nat (length (slice_vals p ix vs)) <= INT_MAX) as Hle by lia.
  destruct (HandlePutMsg_share_Ok h ps m2 _ _ _ ptr reserve more Hok Hg Hhi Hf Hne Hle Hlr Hwd Hptr
    Hpk Hat) as (h' & ps' & r & E2 & Hok' & Hgr & Hps & _ & _).
  exists h', ps', r. pose proof (grows_param_at _ _ _ _ _ Hok Hgr Hp) as Hp'.
  split; [done|]. split; [done|]. split; [done|]. split; [done|]. intros ws Hl Hfw.
  destruct Hp' as (i & b' & Hi & Hb & Ha').
  destruct (at_cpu_slice_store h' b' base vs p ix ws Hok' Ha' Hc Hix Hl Hfw)
    as (h2 & E3 & Hok2 & Ha2 & Hsm & Hbl & _ & _ & _).
  exists h2. split; [done|]. split.
  - exists i, b'. split; [done|]. by rewrite Hbl.
  - destruct Hps as (k & bs & Hk & Hbs & _ & (j & Hj & s & Hs & Hsp & Hsh)).
    unfold data_ptr, data_blob. rewrite Hk, deref_Some, bind_Ok, Hbl, Hbs, deref_Some, bind_Ok.
    apply (ptr_at_cpu_data h2 bs j ptr Hj). exists s. by rewrite Hsm.
Qed.

Lemma Put_shares_slice_witness :
  exists msg, GenPutMsg false 1 demo_param demo_pheap = Ok (demo_pheap, msg) /\ type msg = kPut /\
    forall m2, delivered msg m2 ->
      exists h' ps' r, HandlePutMsg m2 true Param_new demo_pheap = Ok (h', ps', r) /\ heap_ok h' /\
        param_at h' demo_param 1 demo_floats /\
        param_at h' ps' 5 (slice_vals demo_param 1 demo_floats) /\
        forall ws, length ws = slice_len demo_param 1 -> Forall is_f32 ws ->
          exists h2, store h' 5 (bytes_of_f32s ws) = Ok h2 /\
            param_at h2 demo_param 1 (slice_put demo_param 1 ws demo_floats) /\
            data_ptr ps' h2 = Ok (h2, 5).
Proof.
  apply (Put_shares_slice demo_pheap demo_param Param_new 1 demo_floats 1 true
    demo_pheap_ok demo_param_at demo_cover); simpl; try apply Blob_new_wf; try apply demo_mults.
  - lia.
Defined.
