(* ===== verification/ParamUpdate.v ===== *)
(** * Properties of [Param]: updates and responses

    The gradients that the workers of a group send for a slice are averaged into
    the gradient of the server's parameter; the response carries the server's
    values back into the slice of the worker's parameter; the pending flags tell
    when the last response has come. *)

From S2P Require Import Prelude Float32 Msg Format Memory Param ParamProps.

(** ** The gradient, once allocated *)

(** The gradient is allocated, at [gp]. *)
Record grad_ready (h : heap) (p : Param) (base gp : Z) : Prop := {
  gr_apart : grad_apart h p base;
  gr_ptr : exists gi, data_ (grad p) = Some gi /\ ptr_at h gi gp;
}.

(** Taking the pointer to the gradient. *)
Lemma grad_ready_Ok h p base vs :
  heap_ok h -> param_at h p base vs -> grad_apart h p base ->
  exists h1 gp, mutable_cpu_data (grad p) h = Ok (h1, gp) /\ heap_ok h1 /\
    param_at h1 p base vs /\ grad_ready h1 p base gp.
Proof.
  intros Hok Hp Hga. pose proof Hga as [Hwf Hle (i & b & gi & s & Hi & Hb & Hcb & Hgi & Hne & Hs & Hsz & Hcase)].
  assert (at_cpu h b base vs) as Ha by (destruct Hp as (i' & b' & ? & ? & ?); by simplify_eq).
  destruct Hcase as [Hu|[Hh Hdis]].
  - destruct (alloc_Ok h (grad p) gi (sm_size s) Hok Hgi) as (h1 & E & Hok1 & Hk1 & Hg1 & Hs1);
      [by exists s|].
    exists h1, (brk h). split; [done|]. split; [done|].
    assert (blobs h1 !! i = Some b) as Hb1 by by rewrite (but_blobs _ _ _ Hg1).
    destruct (at_cpu_region_below _ _ _ _ Hok Ha Hcb) as [_ Hbelow].
    split; [exists i, b; split; [done|]; split; [done|]; by apply (grows_but_at_cpu gi h)|].
    split; [|by exists gi; split; [done|]; eexists].
    constructor; [by apply (blob_wf_keeps h)|done|].
    exists i, b, gi, (mkSM (brk h) (sm_size s) HEAD_AT_CPU true). simpl. split_and!; auto.
  - exists h, (cpu_ptr s). assert (ptr_at h gi (cpu_ptr s)) as Hpt by by exists s.
    destruct (ptr_at_cpu_data h (grad p) gi (cpu_ptr s) Hgi Hpt) as [_ ->].
    split; [done|]. split; [done|]. split; [done|]. constructor; [done|by exists gi].
Qed.

(** Once it is allocated, taking it again changes nothing. *)
Lemma grad_ready_ptr h p base gp : grad_ready h p base gp -> mutable_cpu_data (grad p) h = Ok (h, gp).
Proof. intros [_ (gi & Hgi & Hp)]. by apply (ptr_at_cpu_data h (grad p) gi gp). Qed.

(** Storing a gradient. *)
Lemma grad_store_Ok h p base vs gp ws :
  heap_ok h -> param_at h p base vs -> grad_ready h p base gp ->
  count_ (grad p) = Z.of_nat (length ws) -> Forall is_f32 ws ->
  exists h2, store h gp (bytes_of_f32s ws) = Ok h2 /\ heap_ok h2 /\
    param_at h2 p base vs /\ grad_ready h2 p base gp /\ at_cpu h2 (grad p) gp ws.
Proof.
  intros Hok Hp Hgr Hc Hf. pose proof (grad_ready_ptr _ _ _ _ Hgr) as Em.
  destruct Hgr as [[Hwf Hle (i & b & gi & s & Hi & Hb & Hcb & Hgi & Hne & Hs & Hsz & Hcase)] (gi' & Hgi' & Hpt)].
  assert (gi' = gi) as -> by congruence.
  assert (at_cpu h b base vs) as Ha by (destruct Hp as (i' & b' & ? & ? & ?); by simplify_eq).
  destruct (blob_fill_Ok h (grad p) ws Hok Hwf Hc Hle Hf) as
    (h1 & p' & j & h2 & E1 & _ & _ & Hj & _ & E2 & Hok2 & Hbh & Hp2 & Hbl & Hsm & _ & _ & Hfr).
  rewrite Em in E1. injection E1 as <- <-. assert (j = gi) as -> by congruence.
  destruct Hpt as (s' & Hs' & Hsp & Hsh). assert (s' = s) as -> by congruence.
  assert (gp + sm_size s <= base \/ base + sizeof_float * capacity_ b <= gp) as Hdis
    by (rewrite <- Hsp; destruct Hcase as [?|[_ ?]]; [congruence|done]).
  exists h2. split; [done|]. split; [done|].
  assert (at_cpu h2 b base vs) as Ha2.
  { eapply at_cpu_frame; [done|by rewrite Hsm|]. intros a Hr. apply peek_cell, Hfr. lia. }
  split; [exists i, b; by rewrite Hbl|].
  split; [|split; [done|by exists gi]].
  constructor; [|by exists gi]. constructor; [by eapply blob_holds_wf|done|].
  exists i, b, gi, s. rewrite Hbl, Hsm, Hsp. split_and!; auto.
Qed.

(** ** Averaging the gradients *)

Definition f32s_sum (wss : list (list Z)) : list Z :=
  match wss with [] => [] | w :: wss => foldl f32s_add w wss end.
(** The average of gradients: their sum from left to right, divided by their
    number unless there is only one. *)
Definition f32s_mean (wss : list (list Z)) : list Z :=
  if (1 <? length wss)%nat then f32s_div (f32s_sum wss) (f32_of_Z (Z.of_nat (length wss)))
  else f32s_sum wss.

Lemma length_f32s_add n a b : length a = n -> length b = n -> length (f32s_add a b) = n.
Proof. intros H1 H2. unfold f32s_add. rewrite length_zip_with. lia. Qed.

Section update.
Context `{C : Czmq} `{!CzmqLaws C}.

Definition copy_frame : list Z := frame_of [(ch_i, AInt 1)].
(** A copied update of the gradient [ws], with its [k]-th frame current; the stub
    appends another frame. *)
Definition update_msg (k : nat) (m : Msg) (ws : list Z) : Prop :=
  exists more, at_frame m (copy_frame :: bytes_of_f32s ws :: more) k.

Lemma parse_int_Ok m fs k x rest :
  at_frame m fs k -> fs !! k = Some (frame_of ((ch_i, AInt x) :: rest)) ->
  INT_MIN <= x <= INT_MAX -> parse_int m = Ok x.
Proof.
  intros Hm Hk Hx. unfold parse_int.
  rewrite (ParseFormatFrame_Ok "i" [(ch_i, AInt x)] rest m fs k Hm Hk); [done..|].
  repeat constructor; lia.
Qed.

Lemma parse_copies_Ok msgs wss reset copies :
  Forall2 (update_msg 0) msgs wss ->
  parse_copies msgs reset copies = Ok (reset, copies ++ replicate (length msgs) 1).
Proof.
  intros H. revert reset copies. induction H as [|m ws msgs wss Hm H IH]; intros reset copies.
  { simpl. by rewrite app_nil_r. }
  destruct Hm as [more Hm]. simpl.
  rewrite (parse_int_Ok m _ 0 1 [] Hm eq_refl), bind_Ok, IH by (unfold INT_MIN, INT_MAX; lia).
  by rewrite andb_true_r, <- app_assoc.
Qed.

(** One copied update: the gradient becomes it, or has it added. *)
Lemma update_grad_Ok h p base vs gp m ws (cur : option (list Z)) :
  heap_ok h -> param_at h p base vs -> update_msg 0 m ws ->
  count_ (grad p) = Z.of_nat (length vs) -> length ws = length vs -> Forall is_f32 ws ->
  match cur with
  | None => grad_apart h p base
  | Some c => grad_ready h p base gp /\ at_cpu h (grad p) gp c /\ length c = length vs
  end ->
  exists h' m' gp', update_grad 1 m (match cur with None => true | _ => false end) p h
      = Ok (h', m', false) /\ heap_ok h' /\ param_at h' p base vs /\
    grad_ready h' p base gp' /\
    at_cpu h' (grad p) gp' (match cur with None => ws | Some c => f32s_add c ws end) /\
    update_msg 1 m' ws /\ same_header m m'.
Proof.
  intros Hok Hp [more Hm] Hc Hl Hf Hcur. unfold update_grad.
  destruct (NextFrame_Ok m _ 0 Hm) as (m' & E & Hm' & Hh); [simpl; lia|].
  rewrite E, bind_Ok. simpl CHECK. rewrite bind_Ok. simpl Z.eqb. cbn [negb].
  assert (exists h1 gp', mutable_cpu_data (grad p) h = Ok (h1, gp') /\ heap_ok h1 /\
    param_at h1 p base vs /\ grad_ready h1 p base gp' /\
    match cur with None => True | Some c => at_cpu h1 (grad p) gp' c end)
    as (h1 & gp' & E1 & Hok1 & Hp1 & Hr1 & Hcur1).
  { destruct cur as [c|].
    - destruct Hcur as (Hr & Hc0 & _). exists h, gp. by rewrite (grad_ready_ptr _ _ _ _ Hr).
    - destruct (grad_ready_Ok h p base vs Hok Hp Hcur) as (h1 & gp' & ? & ? & ? & ?).
      by exists h1, gp'. }
  rewrite E1, bind_Ok. destruct (param_at_ptr _ _ _ _ Hp1) as (_ & _ & ->). rewrite bind_Ok.
  rewrite (frame_bytes_Ok m' _ 1 _ (sizeof_float * Z.of_nat (length vs)) Hm' eq_refl), bind_Ok
    by (rewrite length_bytes_of_f32s; unfold sizeof_float; lia).
  destruct cur as [c|].
  - destruct Hcur as (_ & _ & Hlc).
    rewrite (at_cpu_load_all _ _ _ _ (sizeof_float * Z.of_nat (length vs)) Hcur1), bind_Ok by congruence.
    pose proof (at_cpu_f32 _ _ _ _ Hcur1). rewrite !f32s_of_bytes_of_f32s by done.
    destruct (grad_store_Ok h1 p base vs gp' (f32s_add c ws) Hok1 Hp1 Hr1)
      as (h2 & E2 & Hok2 & Hp2 & Hr2 & Ha2); [|auto with singa|].
    { rewrite Hc. f_equal. symmetry. by apply length_f32s_add. }
    rewrite E2, bind_Ok. exists h2, m', gp'. repeat (split; [done|]). split; [by exists more|done].
  - destruct (grad_store_Ok h1 p base vs gp' ws Hok1 Hp1 Hr1)
      as (h2 & E2 & Hok2 & Hp2 & Hr2 & Ha2); [congruence|done|].
    rewrite E2, bind_Ok. exists h2, m', gp'. repeat (split; [done|]). split; [by exists more|done].
Qed.

Lemma update_loop_Ok msgs wss p base vs N :
  Forall2 (update_msg 0) msgs wss ->
  Forall (fun ws => length ws = length vs /\ Forall is_f32 ws) wss ->
  count_ (grad p) = Z.of_nat (length vs) ->
  forall h gp c ix treated, heap_ok h -> param_at h p base vs -> grad_ready h p base gp ->
    at_cpu h (grad p) gp c -> length c = length vs -> N = (ix + length msgs)%nat ->
  exists h' msgs' gp', update_loop (replicate N 1) (Z.of_nat ix) msgs false treated p h
      = Ok (h', treated ++ msgs') /\ heap_ok h' /\ param_at h' p base vs /\
    grad_ready h' p base gp' /\ at_cpu h' (grad p) gp' (foldl f32s_add c wss) /\
    Forall2 (update_msg 1) msgs' wss /\ Forall2 same_header msgs msgs'.
Proof.
  intros Hm Hws Hcnt. induction Hm as [|m ws msgs wss Hm Hms IH];
    intros h gp c ix treated Hok Hp Hr Ha Hl HN; simpl.
  { exists h, [], gp. rewrite app_nil_r. by repeat (split; [done|]). }
  inversion Hws as [|? ? [Hlw Hfw] Hws']; subst. simpl.
  rewrite (vec_at_lookup _ ix 1) by (apply lookup_replicate; simpl; lia). rewrite bind_Ok.
  destruct (update_grad_Ok h p base vs gp m ws (Some c) Hok Hp Hm Hcnt Hlw Hfw)
    as (h1 & m1 & gp1 & E & Hok1 & Hp1 & Hr1 & Ha1 & Hm1 & Hh1); [done|].
  rewrite E, bind_Ok. replace (Z.of_nat ix + 1) with (Z.of_nat (S ix)) by lia.
  destruct (IH Hws' h1 gp1 (f32s_add c ws) (S ix) (treated ++ [m1]) Hok1 Hp1 Hr1 Ha1)
    as (h2 & msgs2 & gp2 & E2 & Hok2 & Hp2 & Hr2 & Ha2 & Hm2 & Hh2);
    [by apply length_f32s_add|simpl; lia|].
  exists h2, (m1 :: msgs2), gp2. simpl length in E2. rewrite E2, <- app_assoc. split; [done|]. split; [done|]. split; [done|]. split; [done|].
  split; [done|]. by split; constructor.
Qed.

Lemma length_f32s_sum n wss :
  wss <> [] -> Forall (fun ws : list Z => length ws = n) wss -> length (f32s_sum wss) = n.
Proof.
  destruct wss as [|w wss]; [done|]. intros _ H. inversion H as [|? ? Hw Hws]; subst. simpl.
  clear H. revert w Hws. induction wss as [|x wss IH]; intros w Hws; [done|]. simpl.
  inversion Hws as [|? ? Hx Hws']; subst.
  assert (length (f32s_add w x) = length w) as Hl by by apply length_f32s_add.
  rewrite IH; by rewrite Hl.
Qed.

Lemma ParseUpdateMsgs_Ok h p base vs msgs wss :
  heap_ok h -> param_at h p base vs -> grad_apart h p base ->
  count_ (grad p) = Z.of_nat (length vs) -> Forall2 (update_msg 0) msgs wss -> wss <> [] ->
  Forall (fun ws => length ws = length vs /\ Forall is_f32 ws) wss ->
  exists h' msgs' gp, ParseUpdateMsgs msgs p h = Ok (h', msgs') /\ heap_ok h' /\
    param_at h' p base vs /\ grad_ready h' p base gp /\ at_cpu h' (grad p) gp (f32s_mean wss) /\
    Forall2 (update_msg 1) msgs' wss /\ Forall2 same_header msgs msgs'.
Proof.
  intros Hok Hp Hga Hcnt Hms Hne Hws. unfold ParseUpdateMsgs.
  rewrite (parse_copies_Ok msgs wss) by done. rewrite bind_Ok. simpl app.
  destruct Hms as [|m ws msgs wss Hm Hms]; [done|]. cbn [update_loop].
  rewrite (vec_at_lookup _ 0 1) by done. rewrite bind_Ok.
  inversion Hws as [|? ? [Hlw Hfw] Hws']; subst.
  destruct (update_grad_Ok h p base vs 0 m ws None Hok Hp Hm Hcnt Hlw Hfw Hga)
    as (h1 & m1 & gp1 & E & Hok1 & Hp1 & Hr1 & Ha1 & Hm1 & Hh1).
  rewrite E, bind_Ok. simpl app.
  destruct (update_loop_Ok msgs wss p base vs (S (length msgs)) Hms Hws' Hcnt h1 gp1 ws 1 [m1]
    Hok1 Hp1 Hr1 Ha1 Hlw) as (h2 & msgs2 & gp2 & E2 & Hok2 & Hp2 & Hr2 & Ha2 & Hm2 & Hh2); [lia|].
  change (Z.of_nat 1) with (0 + 1) in E2. simpl length. rewrite E2, bind_Ok. simpl app.
  pose proof (Forall2_length Hms) as HL. pose proof (Forall2_length Hm2) as HL2.
  unfold f32s_mean. simpl length.
  rewrite HL2. destruct (Nat.ltb_spec 1 (S (length wss))) as [H1|H1].
  - rewrite (grad_ready_ptr _ _ _ _ Hr2), bind_Ok.
    destruct (param_at_ptr _ _ _ _ Hp2) as (_ & _ & ->). rewrite bind_Ok.
    pose proof (at_cpu_count _ _ _ _ Ha2) as Hlen. rewrite Hcnt in Hlen.
    rewrite (at_cpu_load_all _ _ _ _ (sizeof_float * Z.of_nat (length vs)) Ha2), bind_Ok by congruence.
    rewrite f32s_of_bytes_of_f32s by by eapply at_cpu_f32.
    destruct (grad_store_Ok h2 p base vs gp2
      (f32s_div (foldl f32s_add ws wss) (f32_of_Z (Z.of_nat (S (length wss))))) Hok2 Hp2 Hr2)
      as (h3 & E3 & Hok3 & Hp3 & Hr3 & Ha3); [|auto with singa|].
    { unfold f32s_div. rewrite length_map. congruence. }
    rewrite E3, bind_Ok. exists h3, (m1 :: msgs2), gp2. split; [done|]. split; [done|].
    split; [done|]. split; [done|]. split; [done|]. by split; constructor.
  - exists h2, (m1 :: msgs2), gp2. split; [done|]. split; [done|].
    split; [done|]. split; [done|]. split; [done|]. by split; constructor.
Qed.

(** The message an update makes: the gradient of the slice, or its address. *)
Definition update_body (copy : bool) (p : Param) (gp : Z) (gs : list Z) (ix : nat) : list (list Z) :=
  [frame_of [(ch_i, AInt (Z.b2z copy))];
   if copy then bytes_of_f32s (slice_vals p ix gs)
   else frame_of [(ch_p, APtr (gp + sizeof_float * Z.of_nat (slice_off p ix)))]].

Lemma GenUpdateMsg_frames h p gp gs ix copy :
  heap_ok h -> brk h <= 2 ^ 64 ->
  at_cpu h (grad p) gp gs -> slices_cover p gs -> (ix < length (slice_size p))%nat ->
  exists msg, GenUpdateMsg copy (Z.of_nat ix) p h
      = Ok (h, set_pending (pending_get p) (<[ix := true]> (pending_update p))
                 (num_pending_requests p + 1) p, msg) /\
    type msg = kUpdate /\ has_frames msg (update_body copy p gp gs ix).
Proof.
  intros Hok Hbrk Ha Hc Hix. pose proof (cover_wf p gs Hc) as Hwf.
  destruct (slices_cover_slice p gs ix Hc Hix) as (_ & Eoff & Esz & _ & _ & Hpos & L3).
  destruct (at_cpu_below h _ gp gs Hok Ha) as [Hb1 Hb2]; [by intros ->; simpl in *; lia|].
  unfold GenUpdateMsg. rewrite (wf_num p Hwf).
  destruct (Z.ltb_spec (Z.of_nat ix) (Z.of_nat (length (slice_size p)))); [|lia].
  simpl CHECK. rewrite bind_Ok.
  destruct (AddFormatFrame_Ok "i" [(ch_i, AInt (Z.b2z copy))] (set_type kUpdate Msg_new) []
    Msg_new_frames eq_refl) as (m1 & E1 & Hm1 & Hh1);
    [by destruct copy; repeat constructor|by destruct copy; vm_compute; discriminate|].
  simpl map in E1. rewrite E1, bind_Ok.
  destruct (at_cpu_data _ _ _ _ Ha) as [_ ->]. rewrite bind_Ok, Eoff, bind_Ok.
  assert (exists m2, (if copy then _ else _) = Ok m2 /\
    has_frames m2 (update_body copy p gp gs ix) /\ same_header m1 m2) as (m2 & -> & Hm2 & Hh2).
  2: { rewrite bind_Ok, set_idx_Ok, bind_Ok, Nat2Z.id by (rewrite (wf_update p Hwf); lia).
       exists m2. split; [done|]. split; [|done]. transitivity (type m1); [apply Hh2|apply Hh1]. }
  destruct copy.
  - rewrite Esz, bind_Ok, (at_cpu_slice h _ gp gs p ix _ Ha Hc Hix), bind_Ok by lia.
    by apply (AddFrame_Ok m1 _ _ Hm1).
  - set (ptr := gp + _).
    assert (0 < ptr < 2 ^ 64) as Hptr by (unfold ptr, sizeof_float in *; lia).
    destruct (AddFormatFrame_Ok "p" [(ch_p, APtr ptr)] m1 _ Hm1 eq_refl)
      as (m2 & E2 & Hm2 & Hh2); [repeat constructor; lia|vm_compute; discriminate|].
    simpl map in E2. rewrite E2, bind_Ok. by exists m2.
Qed.
End update.

(** Copied updates are averaged: for any positive number of update messages
    for a slice, each carrying a gradient of the parameter's size, the server's
    gradient becomes their left-to-right [float] sum divided by their number (the
    gradient itself if there is one); the values are not touched, and the messages
    are left on their gradient frame with their headers. *)
Theorem ParseUpdateMsgs_averages `{C : Czmq} `{!CzmqLaws C}
    (h : heap) (p : Param) (base : Z) (vs : list Z) (msgs : list Msg) (wss : list (list Z))
    (Hok : heap_ok h) (Hp : param_at h p base vs) (Hga : grad_apart h p base)
    (Hcnt : count_ (grad p) = Z.of_nat (length vs))
    (Hms : Forall2 (update_msg 0) msgs wss) (Hne : wss <> [])
    (Hws : Forall (fun ws => length ws = length vs /\ Forall is_f32 ws) wss) :
  exists h' msgs' gp, ParseUpdateMsgs msgs p h = Ok (h', msgs') /\ heap_ok h' /\
    param_at h' p base vs /\ at_cpu h' (grad p) gp (f32s_mean wss) /\
    Forall2 (update_msg 1) msgs' wss /\ Forall2 same_header msgs msgs'.
Proof.
  destruct (ParseUpdateMsgs_Ok h p base vs msgs wss Hok Hp Hga Hcnt Hms Hne Hws)
    as (h' & msgs' & gp & ? & ? & ? & _ & ? & ? & ?).
  exists h', msgs', gp. by repeat (split; [done|]).
Qed.

(** *** A server's parameter with two floats, used by the witnesses *)
Definition demo_sheap : heap :=
  mkHeap (cells demo_heap) 9
    {[0 := mkSM 1 8 HEAD_AT_CPU true; 2 := mkSM 0 8 UNINITIALIZED false]} {[1 := demo_blob]} 3.
Definition demo_sparam : Param :=
  mkParam (-1) 0 0 [] [] [] [] [] 0 (Some 1) (mkBlob (Some 2) [2] 2 2 (-1)) Blob_new
    ParamProto_default.

Lemma demo_sheap_ok : heap_ok demo_sheap.
Proof.
  destruct demo_heap_ok as [H1 H2 H3 H4]. constructor; [done|exact H2| |]; simpl.
  - intros i s. rewrite lookup_insert_Some, lookup_singleton_Some. lia.
  - intros i b. rewrite lookup_singleton_Some. lia.
Qed.

Lemma demo_sparam_at : param_at demo_sheap demo_sparam 1 demo_floats.
Proof.
  exists 1, demo_blob. split; [done|]. split; [done|]. split.
  - destruct demo_blob_holds as [H1 H2 H3 (i & rest & Hd & Hs & Hl)].
    constructor; [done..|]. exists 0, []. split; [done|]. split; vm_compute; reflexivity.
  - exists 0. split; [done|]. by eexists.
Qed.

Lemma demo_sparam_apart : grad_apart demo_sheap demo_sparam 1.
Proof.
  constructor.
  - split; simpl; [lia|]. intros _. exists 2, (replicate 8 0). by vm_compute.
  - simpl. lia.
  - exists 1, demo_blob, 2, (mkSM 0 8 UNINITIALIZED false). split_and!; try done. by left.
Qed.

#[local] Existing Instances ListCzmq.czmq ListCzmq.czmq_laws.

Definition demo_update (ws : list Z) : Msg :=
  mkMsg 0 0 kUpdate 0 0 (Some (ListCzmq.Build_t [copy_frame; bytes_of_f32s ws] (Some 0%nat))) (Some 0%nat).

Lemma demo_update_msg ws : update_msg 0 (demo_update ws) ws.
Proof. exists []. by eexists. Qed.

Lemma ParseUpdateMsgs_averages_witness :
  exists h' msgs' gp,
    ParseUpdateMsgs [demo_update demo_floats; demo_update demo_floats] demo_sparam demo_sheap
      = Ok (h', msgs') /\ heap_ok h' /\ param_at h' demo_sparam 1 demo_floats /\
    at_cpu h' (grad demo_sparam) gp (f32s_mean [demo_floats; demo_floats]) /\
    Forall2 (update_msg 1) msgs' [demo_floats; demo_floats] /\
    Forall2 same_header [demo_update demo_floats; demo_update demo_floats] msgs'.
Proof.
  apply (ParseUpdateMsgs_averages demo_sheap demo_sparam 1 demo_floats _ _
    demo_sheap_ok demo_sparam_at demo_sparam_apart); [done| |done|].
  - repeat constructor; apply demo_update_msg.
  - repeat constructor; vm_compute; done.
Defined.

(** ** Responses *)
Section response.
Context `{C : Czmq} `{!CzmqLaws C}.

(** The response to an update carries the server's values, to where it came from. *)
Lemma GenUpdateResponse_Ok h p base vs k m ws :
  param_at h p base vs -> update_msg k m ws -> length ws = length vs ->
  exists m', GenUpdateResponse m p h = Ok (h, m') /\
    update_msg 1 m' vs /\ type m' = kRUpdate /\
    src m' = dst m /\ dst m' = src m /\ trgt_val m' = trgt_val m /\
    trgt_version m' = trgt_version m.
Proof.
  intros Hp [more Hm] Hl. unfold GenUpdateResponse.
  destruct (FirstFrame_Ok m _ _ (at_has _ _ _ Hm)) as (m1 & E1 & Hm1 & Hh1).
  rewrite E1, bind_Ok. set (m2 := set_type kRUpdate (SwapAddr m1)).
  assert (at_frame m2 (copy_frame :: bytes_of_f32s ws :: more) 0) as Hm2 by done.
  rewrite (parse_int_Ok m2 _ 0 1 [] Hm2 eq_refl), bind_Ok by (unfold INT_MIN, INT_MAX; lia).
  simpl Z.eqb. cbn [negb].
  destruct (NextFrame_Ok m2 _ 0 Hm2) as (m3 & E3 & Hm3 & Hh3); [simpl; lia|].
  rewrite E3, bind_Ok, (FrameSize_Ok m3 _ 1 _ Hm3 eq_refl), bind_Ok.
  destruct (param_at_ptr _ _ _ _ Hp) as (_ & -> & ->). rewrite bind_Ok.
  rewrite length_bytes_of_f32s.
  destruct (Z.eqb_spec (Z.of_nat (4 * length ws)) (sizeof_float * Z.of_nat (length vs)));
    [|unfold sizeof_float in *; lia].
  simpl CHECK. rewrite !bind_Ok.
  destruct (param_at_blob _ _ _ _ Hp) as (b & _ & Ha).
  rewrite (at_cpu_load_all _ _ _ _ _ Ha e), bind_Ok.
  destruct (write_frame_Ok m3 _ 1 _ (bytes_of_f32s vs) Hm3 eq_refl) as (m4 & E4 & Hm4 & Hh4).
  { rewrite !length_bytes_of_f32s. lia. }
  rewrite E4, bind_Ok. exists m4. split; [done|]. split; [by exists more|].
  destruct Hh1 as (Hs1 & Hd1 & _ & Ht1 & Hv1), Hh3 as (Hs3 & Hd3 & Hy3 & Ht3 & Hv3),
    Hh4 as (-> & -> & -> & -> & ->).
  rewrite Hs3, Hd3, Hy3, Ht3, Hv3. simpl. by rewrite Hs1, Hd1, Ht1, Hv1.
Qed.

Lemma GenUpdateResponseMsgs_Ok h p base vs k msgs wss :
  param_at h p base vs -> Forall2 (update_msg k) msgs wss ->
  Forall (fun ws => length ws = length vs) wss ->
  exists ret, GenUpdateResponseMsgs msgs p h = Ok (h, ret) /\
    Forall2 (fun m m' => update_msg 1 m' vs /\ type m' = kRUpdate /\
      src m' = dst m /\ dst m' = src m /\ trgt_val m' = trgt_val m /\
      trgt_version m' = trgt_version m) msgs ret.
Proof.
  intros Hp Hm Hws. induction Hm as [|m ws msgs wss Hm Hms IH]; simpl.
  { by exists []. }
  inversion Hws as [|? ? Hw Hws']; subst.
  destruct (GenUpdateResponse_Ok h p base vs k m ws Hp Hm Hw) as (m' & E & H).
  destruct (IH Hws') as (ret & E' & H'). rewrite E, bind_Ok, E', bind_Ok.
  exists (m' :: ret). split; [done|]. by constructor.
Qed.

(** Reading a response into a slice. *)
Lemma ParseResponseMsg_Ok h p base vs ix m rest ws more :
  heap_ok h -> param_at h p base vs -> slices_cover p vs -> (ix < length (slice_size p))%nat ->
  at_frame m (frame_of ((ch_i, AInt 1) :: rest) :: bytes_of_f32s ws :: more) 0 ->
  length ws = slice_len p ix -> Forall is_f32 ws ->
  exists h', ParseResponseMsg m (Z.of_nat ix) p h = Ok h' /\ heap_ok h' /\
    param_at h' p base (slice_put p ix ws vs).
Proof.
  intros Hok Hp Hc Hix Hm Hl Hf. unfold ParseResponseMsg.
  destruct (slices_cover_slice p vs ix Hc Hix) as (_ & Eoff & Esz & _).
  rewrite (parse_int_Ok m _ 0 1 rest Hm eq_refl), bind_Ok by (unfold INT_MIN, INT_MAX; lia).
  destruct (NextFrame_Ok m _ 0 Hm) as (m1 & E1 & Hm1 & _); [simpl; lia|].
  rewrite E1, bind_Ok. simpl Z.eqb. cbn [negb].
  rewrite (FrameSize_Ok m1 _ 1 _ Hm1 eq_refl), bind_Ok, Esz, bind_Ok, length_bytes_of_f32s.
  destruct (Z.eqb_spec (Z.of_nat (4 * length ws)) (Z.of_nat (slice_len p ix) * sizeof_float));
    [|unfold sizeof_float in *; lia].
  simpl CHECK. rewrite bind_Ok. destruct (param_at_ptr _ _ _ _ Hp) as (_ & -> & _).
  rewrite bind_Ok, Eoff, bind_Ok.
  rewrite (frame_bytes_Ok m1 _ 1 _ _ Hm1 eq_refl), bind_Ok by (rewrite length_bytes_of_f32s; lia).
  destruct Hp as (i & b & Hi & Hb & Ha).
  destruct (at_cpu_slice_store h b base vs p ix ws Hok Ha Hc Hix Hl Hf)
    as (h' & E & Hok' & Ha' & _ & Hbl & _).
  exists h'. split; [done|]. split; [done|]. exists i, b. by rewrite Hbl.
Qed.

(** *** The pending flags *)

Definition count_true (l : list bool) : Z := zsum (map Z.b2z l).
(** The counter of outstanding requests is the number of flags set. *)
Definition pending_ok (p : Param) : Prop :=
  num_pending_requests p = count_true (pending_get p) + count_true (pending_update p).

Lemma count_true_insert l ix v b :
  l !! ix = Some v -> count_true (<[ix := b]> l) = count_true l - Z.b2z v + Z.b2z b.
Proof.
  unfold count_true. revert ix. induction l as [|x l IH]; intros [|ix] H; simpl in *; try done.
  - injection H as ->. lia.
  - rewrite (IH _ H). lia.
Qed.

Lemma count_true_range l : 0 <= count_true l <= Z.of_nat (length l).
Proof. unfold count_true. induction l as [|[] l IH]; simpl in *; lia. Qed.

Lemma count_true_0 l : count_true l = 0 <-> Forall (eq false) l.
Proof.
  split.
  - induction l as [|x l IH]; intros H; [done|].
    pose proof (count_true_range l). unfold count_true in *. simpl in H.
    destruct x; simpl in H; [lia|]. constructor; [done|]. apply IH. lia.
  - induction 1 as [|x l <- Hl IH]; [done|]. unfold count_true in *. simpl. lia.
Qed.

(** [(--num_pending_requests_) % num_slices_ == 0] when only one kind of request is
    pending. *)
Lemma last_pending_Ok l ix :
  l !! ix = Some true ->
  last_pending (count_true l - 1) (Z.of_nat (length l))
    = Ok (Z.b2z (bool_decide (Forall (eq false) (<[ix := false]> l)))).
Proof.
  intros H. pose proof (lookup_lt_Some _ _ _ H) as Hlt.
  pose proof (count_true_insert l ix true false H) as Hc. simpl in Hc.
  pose proof (count_true_range (<[ix := false]> l)) as Hr. pose proof (count_true_range l) as Hr2.
  unfold last_pending. destruct (Z.eqb_spec (Z.of_nat (length l)) 0); [lia|].
  rewrite Z.rem_small by lia. do 2 f_equal.
  destruct (Z.eqb_spec (count_true l - 1) 0) as [E|E]; symmetry.
  - apply bool_decide_eq_true, count_true_0. lia.
  - apply bool_decide_eq_false. intros Hf%count_true_0. lia.
Qed.
End response.

(** *** Writing one slice leaves the others *)
Lemma slice_order p i j :
  Forall (Z.lt 0) (slice_size p) -> (i < j)%nat -> (j < length (slice_size p))%nat ->
  (slice_off p i + slice_len p i <= slice_off p j)%nat.
Proof.
  intros Hpos Hij Hj. unfold slice_off, slice_len.
  destruct (lookup_lt_is_Some_2 (slice_size p) i ltac:(lia)) as [sz Hsz]. rewrite Hsz. simpl.
  assert (Forall (Z.le 0) (slice_size p)) as Hp
    by (eapply Forall_impl; [|exact Hpos]; simpl; lia).
  assert (zsum (take j (slice_size p))
    = zsum (take i (slice_size p)) + sz + zsum (drop (S i) (take j (slice_size p)))) as E.
  { rewrite <- (take_drop i (take j (slice_size p))) at 1. rewrite take_take, Nat.min_l by lia.
    rewrite zsum_app, (drop_S _ sz i); [simpl; lia|]. by rewrite lookup_take_lt by lia. }
  assert (forall n, 0 <= zsum (take n (slice_size p))) as H1.
  { intros n. apply zsum_nonneg. by apply Forall_take. }
  pose proof (zsum_nonneg (drop (S i) (take j (slice_size p)))) as H2.
  pose proof (H2 ltac:(by apply Forall_drop, Forall_take)). pose proof (H1 i).
  pose proof (proj1 (Forall_lookup _ _) Hpos _ _ Hsz) as Hs. simpl in Hs. lia.
Qed.

Lemma slice_put_lookup p i ws vs k :
  (slice_off p i + slice_len p i <= length vs)%nat -> length ws = slice_len p i ->
  (k < slice_off p i \/ slice_off p i + slice_len p i <= k)%nat ->
  slice_put p i ws vs !! k = vs !! k.
Proof.
  intros Hle Hl [Hk|Hk]; unfold slice_put.
  - rewrite lookup_app_l by (rewrite length_take; lia). by apply lookup_take_lt.
  - rewrite lookup_app_r by (rewrite length_take; lia).
    rewrite lookup_app_r by (rewrite length_take; lia).
    rewrite lookup_drop. f_equal. rewrite length_take. lia.
Qed.

Lemma slice_put_other p i j ws vs :
  slices_cover p vs -> i <> j -> (i < length (slice_size p))%nat ->
  (j < length (slice_size p))%nat -> length ws = slice_len p i ->
  slice_vals p j (slice_put p i ws vs) = slice_vals p j vs.
Proof.
  intros Hc Hij Hi Hj Hl. pose proof (cover_pos p vs Hc) as Hpos.
  destruct (slices_cover_slice p vs i Hc Hi) as (_ & _ & _ & _ & _ & _ & Hle).
  unfold slice_vals. apply list_eq. intros k.
  destruct (Nat.lt_ge_cases k (slice_len p j)).
  - rewrite !lookup_take_lt, !lookup_drop by done. apply slice_put_lookup; [done..|].
    destruct (Nat.lt_ge_cases i j).
    + pose proof (slice_order p i j Hpos). lia.
    + pose proof (slice_order p j i Hpos). lia.
  - by rewrite !lookup_take_ge.
Qed.

Lemma slice_put_cover p i ws vs :
  slices_cover p vs -> (i < length (slice_size p))%nat -> length ws = slice_len p i ->
  slices_cover p (slice_put p i ws vs).
Proof.
  intros Hc Hi Hl. destruct (slice_put_split p i ws vs _ Hc Hi Hl eq_refl) as [Hlen _].
  destruct Hc as [? ? ?]. constructor; [done..|]. by rewrite Hlen.
Qed.

(** ** A round of responses *)
Section round.
Context `{C : Czmq} `{!CzmqLaws C}.

(** The responses of a parameter's slices, parsed as they arrive. *)
Fixpoint parse_responses (rs : list (Msg * nat)) (p : Param) (h : heap)
    : outcome (heap * Param * list Z) :=
  match rs with
  | [] => Ok (h, p, [])
  | (m, ix) :: rs =>
      '(h, p, r) ← ParseUpdateResponseMsg m (Z.of_nat ix) p h;
      '(h, p, ret) ← parse_responses rs p h;
      Ok (h, p, r :: ret)
  end.

(** The message [r.1] carries [w (r.2)] for slice [r.2]. *)
Definition response_for (p : Param) (w : nat -> list Z) (r : Msg * nat) : Prop :=
  update_msg 0 r.1 (w r.2) /\ (r.2 < length (slice_size p))%nat /\
  length (w r.2) = slice_len p r.2 /\ Forall is_f32 (w r.2).

(** [p'] is [p] with other pending flags. *)
Definition same_slices (p p' : Param) : Prop :=
  slice_size p' = slice_size p /\ slice_offset p' = slice_offset p /\
  num_slices p' = num_slices p /\ pdata p' = pdata p /\ pending_get p' = pending_get p /\
  length (pending_update p') = length (pending_update p).

(** One response, when only updates are pending. *)
Lemma ParseUpdateResponseMsg_Ok h p base vs w m ix :
  heap_ok h -> param_at h p base vs -> slices_cover p vs -> response_for p w (m, ix) ->
  pending_update p !! ix = Some true -> Forall (eq false) (pending_get p) -> pending_ok p ->
  exists h' p', ParseUpdateResponseMsg m (Z.of_nat ix) p h
      = Ok (h', p', Z.b2z (bool_decide (Forall (eq false) (pending_update p')))) /\
    heap_ok h' /\ param_at h' p' base (slice_put p ix (w ix) vs) /\
    slices_cover p' (slice_put p ix (w ix) vs) /\
    pending_update p' = <[ix := false]> (pending_update p) /\ pending_ok p' /\ same_slices p p'.
Proof.
  intros Hok Hp Hc ([more Hm] & Hix & Hl & Hf) Hpend Hget Hpok. simpl in *.
  pose proof (cover_wf p vs Hc) as Hwf. unfold ParseUpdateResponseMsg.
  rewrite (idx_lookup _ ix true Hpend), bind_Ok. simpl CHECK. rewrite bind_Ok.
  rewrite set_idx_Ok by (rewrite (wf_update p Hwf); lia). rewrite bind_Ok, Nat2Z.id.
  destruct (ParseResponseMsg_Ok h p base vs ix m [] (w ix) more Hok Hp Hc Hix Hm Hl Hf)
    as (h' & E & Hok' & Hp').
  rewrite E, bind_Ok. unfold pending_ok in Hpok.
  rewrite (proj2 (count_true_0 (pending_get p)) Hget) in Hpok. rewrite Hpok, (wf_num p Hwf).
  rewrite <- (wf_update p Hwf), Z.add_0_l, (last_pending_Ok _ _ Hpend), bind_Ok.
  exists h', (set_pending (pending_get p) (<[ix := false]> (pending_update p))
    (count_true (pending_update p) - 1) p). split; [done|]. split; [done|]. split; [done|].
  pose proof (slice_put_cover p ix (w ix) vs Hc Hix Hl) as [[] Hpos Hsum].
  split; [constructor; [constructor|..]; try done; simpl; by rewrite length_insert|].
  split; [done|]. split; [|split_and!; try done; simpl; by rewrite length_insert].
  unfold pending_ok. simpl. rewrite (count_true_insert _ _ true false Hpend).
  rewrite (proj2 (count_true_0 (pending_get p)) Hget). simpl. lia.
Qed.

Lemma response_for_same p p' w r : slice_size p' = slice_size p -> response_for p w r -> response_for p' w r.
Proof. intros E (H1 & H2 & H3 & H4). unfold response_for, slice_len in *. by rewrite E. Qed.

Lemma slice_vals_same p p' j vs : slice_size p' = slice_size p -> slice_vals p' j vs = slice_vals p j vs.
Proof. intros E. unfold slice_vals, slice_len, slice_off. by rewrite E. Qed.

(** What a round of responses leaves. *)
Record round_done (h' : heap) (p p' : Param) (base : Z) (w : nat -> list Z)
    (ixs : list nat) (vs vs' : list Z) : Prop := {
  rd_heap : heap_ok h';
  rd_param : param_at h' p' base vs';
  rd_slices : slice_size p' = slice_size p;
  rd_written ix : ix ∈ ixs -> slice_vals p ix vs' = w ix;
  rd_kept ix : (ix < length (slice_size p))%nat -> ix ∉ ixs ->
    slice_vals p ix vs' = slice_vals p ix vs;
  rd_clear : Forall (eq false) (pending_update p');
  rd_count : num_pending_requests p' = 0;
}.

Lemma none_pending l : (forall j, l !! j <> Some true) -> Forall (eq false) l.
Proof.
  intros H. apply Forall_lookup. intros i [] Hi; [|done]. by destruct (H i).
Qed.

Lemma parse_responses_Ok rs : forall h p base vs w,
  heap_ok h -> param_at h p base vs -> slices_cover p vs ->
  Forall (response_for p w) rs -> NoDup (map snd rs) ->
  (forall j, pending_update p !! j = Some true <-> j ∈ map snd rs) ->
  Forall (eq false) (pending_get p) -> pending_ok p -> rs <> [] ->
  exists h' p' vs', parse_responses rs p h = Ok (h', p', replicate (length rs - 1) 0 ++ [1]) /\
    round_done h' p p' base w (map snd rs) vs vs'.
Proof.
  induction rs as [|[m ix] rs IH]; intros h p base vs w Hok Hp Hc Hrs Hnd Hpend Hget Hpok Hne;
    [done|]. clear Hne. cbn [map snd] in Hnd, Hpend. apply list.NoDup_cons in Hnd as [Hnin Hnd].
  inversion Hrs as [|? ? Hr Hrs']; subst. cbn [parse_responses].
  assert (pending_update p !! ix = Some true) as Hpx by (apply Hpend; left).
  destruct (ParseUpdateResponseMsg_Ok h p base vs w m ix Hok Hp Hc Hr Hpx Hget Hpok)
    as (h1 & p1 & E & Hok1 & Hp1 & Hc1 & Hpu & Hpok1 & (Hsz & _ & _ & _ & Hg1 & _)).
  assert (forall j, pending_update p1 !! j = Some true <-> j ∈ map snd rs) as Hpend1.
  { intros j. rewrite Hpu. destruct (decide (ix = j)) as [<-|Hj].
    - rewrite list_lookup_insert_eq by by eapply lookup_lt_Some. by split.
    - rewrite list_lookup_insert_ne by done. rewrite Hpend, elem_of_cons.
      split; [intros [->|?]; done|by right]. }
  pose proof Hr as (_ & Hix & Hlw & _). cbn [fst snd] in Hix, Hlw.
  destruct (slice_put_split p ix (w ix) vs _ Hc Hix Hlw eq_refl) as [_ Hput].
  rewrite E, bind_Ok. destruct (decide (rs = [])) as [->|Hne].
  - assert (Forall (eq false) (pending_update p1)) as Hclr.
    { apply none_pending. intros j Hj. apply Hpend1 in Hj. by inversion Hj. }
    exists h1, p1, (slice_put p ix (w ix) vs). rewrite bool_decide_eq_true_2 by done.
    split; [done|]. constructor; try done.
    + intros j Hj. simpl in Hj. apply list_elem_of_singleton in Hj as ->. done.
    + intros j Hj Hjn. simpl in Hjn. rewrite list_elem_of_singleton in Hjn.
      by apply slice_put_other.
    + unfold pending_ok in Hpok1. rewrite Hpok1, Hg1, !(proj2 (count_true_0 _)) by done. done.
  - destruct (IH h1 p1 base (slice_put p ix (w ix) vs) w Hok1 Hp1 Hc1)
      as (h2 & p2 & vs2 & E2 & [D1 D2 D3 D4 D5 D6 D7]); try done.
    { eapply Forall_impl; [|exact Hrs']. intros r. by apply response_for_same. }
    { by rewrite Hg1. }
    exists h2, p2, vs2. rewrite E2, bind_Ok. rewrite bool_decide_eq_false_2.
    2: { intros Hcl. destruct rs as [|[m' j] rs]; [done|].
         pose proof (proj2 (Hpend1 j) ltac:(left)) as Hj.
         by pose proof (proj1 (Forall_lookup _ _) Hcl _ _ Hj). }
    split; [destruct rs; [done|]; simpl; by rewrite Nat.sub_0_r|].
    constructor; try done; [congruence| |].
    + intros j Hj. cbn [map snd] in Hj. apply elem_of_cons in Hj as [->|Hj].
      * rewrite <- (slice_vals_same p p1) by done. rewrite D5 by (done || by rewrite Hsz).
        by rewrite (slice_vals_same p p1).
      * rewrite <- (slice_vals_same p p1) by done. by apply D4.
    + intros j Hj Hjn. cbn [map snd] in Hjn. apply not_elem_of_cons in Hjn as [Hj1 Hj2].
      rewrite <- (slice_vals_same p p1) by done. rewrite D5 by (done || by rewrite Hsz).
      rewrite (slice_vals_same p p1) by done. by apply slice_put_other.
Qed.
End round.

(** The response to an update brings the server's values back: it goes to where
    the update came from, for the same target and version, and parsing it writes
    the server's values over the slice of the worker's parameter and nothing else,
    clears the slice's flag and returns 1 exactly when no update is pending any
    more.  A response for a slice with no pending update is a failed [CHECK]. *)
Theorem Update_response `{C : Czmq} `{!CzmqLaws C}
    (hs : heap) (ps : Param) (bases : Z) (sv : list Z) (k : nat) (m : Msg) (ws : list Z)
    (h : heap) (p : Param) (base : Z) (vs : list Z) (ix : nat)
    (Hps : param_at hs ps bases sv) (Hm : update_msg k m ws) (Hws : length ws = length sv)
    (Hok : heap_ok h) (Hp : param_at h p base vs) (Hc : slices_cover p vs)
    (Hix : (ix < length (slice_size p))%nat) (Hsv : length sv = slice_len p ix)
    (Hget : Forall (eq false) (pending_get p)) (Hpok : pending_ok p) :
  exists m', GenUpdateResponse m ps hs = Ok (hs, m') /\ type m' = kRUpdate /\
    src m' = dst m /\ dst m' = src m /\ trgt_val m' = trgt_val m /\ trgt_version m' = trgt_version m /\
    forall m2, delivered m' m2 ->
      (pending_update p !! ix = Some true -> exists h' p',
         ParseUpdateResponseMsg m2 (Z.of_nat ix) p h
           = Ok (h', p', Z.b2z (bool_decide (Forall (eq false) (pending_update p')))) /\
         param_at h' p' base (slice_put p ix sv vs) /\
         pending_update p' = <[ix := false]> (pending_update p) /\ pending_ok p') /\
      (pending_update p !! ix = Some false -> ParseUpdateResponseMsg m2 (Z.of_nat ix) p h = Fatal).
Proof.
  destruct (GenUpdateResponse_Ok hs ps bases sv k m ws Hps Hm Hws)
    as (m' & E & Hm' & Ht & Hs & Hd & Htv & Htn).
  exists m'. do 6 (split; [done|]). intros m2 Hdel. destruct Hm' as [more Hm'].
  destruct (delivered_at _ _ _ Hdel (at_has _ _ _ Hm')) as [more' Hm2].
  assert (update_msg 0 m2 sv) as Hu2 by by exists (more ++ more').
  destruct (param_at_blob _ _ _ _ Hps) as (b & _ & Ha). pose proof (at_cpu_f32 _ _ _ _ Ha) as Hf.
  split.
  - intros Hpend.
    destruct (ParseUpdateResponseMsg_Ok h p base vs (fun _ => sv) m2 ix Hok Hp Hc) as
      (h' & p' & E' & _ & Hp' & _ & Hpu & Hpok' & _); [done..|]. exists h', p'. by split_and!.
  - intros Hpend. unfold ParseUpdateResponseMsg. by rewrite (idx_lookup _ ix false Hpend).
Qed.

(** A round of responses: when updates of some slices are pending and nothing
    else is, and one response arrives for each of them, in any order, every
    response is accepted, all but the last return 0 and the last returns 1, each
    slice that was updated holds what its response carried, the other slices are
    unchanged, and nothing is pending. *)
Theorem Update_round `{C : Czmq} `{!CzmqLaws C}
    (h : heap) (p : Param) (base : Z) (vs : list Z) (w : nat -> list Z) (rs : list (Msg * nat))
    (Hok : heap_ok h) (Hp : param_at h p base vs) (Hc : slices_cover p vs)
    (Hrs : Forall (response_for p w) rs) (Hnd : NoDup (map snd rs)) (Hne : rs <> [])
    (Hpend : forall j, pending_update p !! j = Some true <-> j ∈ map snd rs)
    (Hget : Forall (eq false) (pending_get p)) (Hpok : pending_ok p) :
  exists h' p' vs', parse_responses rs p h = Ok (h', p', replicate (length rs - 1) 0 ++ [1]) /\
    round_done h' p p' base w (map snd rs) vs vs'.
Proof. by apply parse_responses_Ok. Qed.

(** *** Witnesses: the worker's parameter with both updates pending *)
Definition demo_wparam : Param :=
  mkParam (-1) 0 2 [0; 1] [1; 1] [false; false] [false; false] [true; true] 2 (Some 1)
    Blob_new Blob_new ParamProto_default.

Lemma demo_wcover : slices_cover demo_wparam demo_floats.
Proof.
  constructor; [|repeat constructor|done]. constructor; try done.
  intros [|[|i]]; simpl; try done. lia.
Qed.

Lemma demo_wparam_at : param_at demo_pheap demo_wparam 1 demo_floats.
Proof. exists 1, demo_blob. split; [done|]. split; [done|]. apply demo_at_cpu. Qed.

Definition demo_response (v : Z) : Msg :=
  mkMsg 0 0 kRUpdate 0 0
    (Some (ListCzmq.Build_t [copy_frame; bytes_of_f32s [f32_of_Z v]] (Some 0%nat))) (Some 0%nat).

Lemma Update_response_witness :
  exists m', GenUpdateResponse (demo_update demo_floats) demo_sparam demo_sheap = Ok (demo_sheap, m').
Proof.
  destruct (Update_response demo_sheap demo_sparam 1 demo_floats 0 (demo_update demo_floats)
    demo_floats demo_pheap (mkParam (-1) 0 1 [0] [2] [false] [false] [true] 1 (Some 1) Blob_new
      Blob_new ParamProto_default) 1 demo_floats 0 demo_sparam_at (demo_update_msg demo_floats)
    eq_refl demo_pheap_ok) as (m' & E & _); simpl; try done; try lia.
  - exists 1, demo_blob. split; [done|]. split; [done|]. apply demo_at_cpu.
  - constructor; [|repeat constructor|done]. constructor; try done.
    intros [|i]; simpl; [done|lia].
  - repeat constructor.
  - by exists m'.
Defined.

Lemma Update_round_witness :
  exists h' p' vs',
    parse_responses [(demo_response 7, 1%nat); (demo_response 5, 0%nat)] demo_wparam demo_pheap
      = Ok (h', p', [0; 1]) /\
    round_done h' demo_wparam p' 1 (fun i => [f32_of_Z (if decide (i = 1%nat) then 7 else 5)])
      [1%nat; 0%nat] demo_floats vs'.
Proof.
  apply (Update_round demo_pheap demo_wparam 1 demo_floats
    (fun i => [f32_of_Z (if decide (i = 1%nat) then 7 else 5)])
    [(demo_response 7, 1%nat); (demo_response 5, 0%nat)] demo_pheap_ok demo_wparam_at demo_wcover).
  - repeat constructor; simpl; try lia; try (exists []; by eexists); vm_compute; done.
  - apply (bool_decide_eq_true_1 _). vm_compute. reflexivity.
  - done.
  - intros [|[|j]]; simpl; rewrite !elem_of_cons; split; try done; try lia; auto.
    intros [?|[?|H]]; [lia..|]. by inversion H.
  - repeat constructor.
  - done.
Defined.

(** ** Updates that do not copy *)

Lemma peek_prefix c p m n bs :
  (m <= n)%nat -> peek c p n = Some bs -> peek c p m = Some (take m bs).
Proof.
  intros Hle H. replace n with (m + (n - m))%nat in H by lia. rewrite peek_app in H.
  destruct (peek c p m) eqn:E; [|done]. destruct (peek c _ (n - m)); [|done].
  injection H as <-. pose proof (peek_length _ _ _ _ E) as <-. by rewrite take_app_length.
Qed.

Section nocopy.
Context `{C : Czmq} `{!CzmqLaws C}.

(** An update that does not copy: the address of the worker's gradient, in a frame
    of 17 bytes. *)
Definition share_msg (m : Msg) (ptr : Z) : Prop :=
  exists more, at_frame m (frame_of [(ch_i, AInt 0)] :: frame_of [(ch_p, APtr ptr)] :: more) 0.

Lemma length_ptr_frame ptr : Z.of_nat (length (frame_of [(ch_p, APtr ptr)])) = 17.
Proof. unfold frame_of, enc_fields. simpl. done. Qed.
End nocopy.

(** An update that does not copy, in the process of the server: when the
    server's gradient is not yet at the worker's address, the first 17 bytes of the
    worker's gradient (the size of the frame that holds the pointer) are
    overwritten with the server's old gradient before the server adopts the
    worker's memory, so what the worker computed for its first four floats is
    lost. *)
Theorem ParseUpdateMsgs_share_overwrites `{C : Czmq} `{!CzmqLaws C}
    (h : heap) (p : Param) (gp ptr : Z) (gs wg : list Z) (m : Msg)
    (Hg : at_cpu h (grad p) gp gs) (Hcap : capacity_ (grad p) = count_ (grad p))
    (Hm : share_msg m ptr) (Hptr : 0 < ptr < 2 ^ 64)
    (Hlen : (5 <= length gs)%nat) (Hwl : length wg = length gs)
    (Hw : peek (cells h) ptr (length (bytes_of_f32s wg)) = Some (bytes_of_f32s wg))
    (Hdis : ptr + 4 * Z.of_nat (length wg) <= gp \/ gp + 4 * Z.of_nat (length gs) <= ptr) :
  exists h' m', ParseUpdateMsgs [m] p h = Ok (h', [m']) /\
    cpu_data (grad p) h' = Ok (h', ptr) /\
    peek (cells h') ptr (length (bytes_of_f32s wg))
      = Some (take 17 (bytes_of_f32s gs) ++ drop 17 (bytes_of_f32s wg)).
Proof.
  assert (Forall fits [(ch_p, APtr ptr)]) as Hfit by (repeat constructor; lia).
  unfold ParseUpdateMsgs. cbn [parse_copies]. destruct Hm as [more Hm].
  rewrite (parse_int_Ok m _ 0 0 [] Hm eq_refl), !bind_Ok by (unfold INT_MIN, INT_MAX; lia).
  cbn [update_loop app]. rewrite (vec_at_lookup _ 0 0) by done. rewrite bind_Ok.
  unfold update_grad. destruct (NextFrame_Ok m _ 0 Hm) as (m1 & E1 & Hm1 & _); [simpl; lia|].
  rewrite E1, bind_Ok. simpl CHECK. rewrite bind_Ok. simpl Z.eqb. cbn [negb].
  rewrite (ParseFormatFrame_Ok "p" [(ch_p, APtr ptr)] [] m1 _ 1 Hm1 eq_refl eq_refl Hfit), bind_Ok.
  simpl map. cbv iota beta. destruct (at_cpu_data _ _ _ _ Hg) as [-> _]. rewrite bind_Ok.
  destruct (at_cpu_region _ _ _ _ Hg) as (i & s & bs & Hi & Hs & Hsp & Hsh & _ & _ & Hbl & Hbc).
  rewrite Hcap, (at_cpu_count _ _ _ _ Hg) in Hbc.
  assert (gp <> ptr) as Hne by lia. destruct (Z.eqb_spec gp ptr); [done|]. cbn [negb].
  rewrite (FrameSize_Ok m1 _ 1 _ Hm1 eq_refl), bind_Ok, length_ptr_frame.
  assert (load h gp 17 = Ok (take 17 (bytes_of_f32s gs))) as ->.
  { pose proof (at_cpu_bytes _ _ _ _ Hg) as Hb. unfold load. change (Z.to_nat 17) with 17%nat.
    assert (17 <= length (bytes_of_f32s gs))%nat as H17 by (rewrite length_bytes_of_f32s; lia).
    by rewrite (peek_prefix _ _ 17 _ _ H17 Hb). }
  rewrite bind_Ok.
  rewrite <- (take_drop 17 (bytes_of_f32s wg)) in Hw.
  destruct (poke_splice (cells h) ptr [] (take 17 (bytes_of_f32s wg)) (drop 17 (bytes_of_f32s wg))
    (take 17 (bytes_of_f32s gs)) Hw) as (c' & Ec & Hpk & _);
    [rewrite !length_take, !length_bytes_of_f32s; lia|].
  simpl in Ec. rewrite Z.add_0_r in Ec. unfold store. rewrite Ec, deref_Some, !bind_Ok.
  unfold set_cpu_data, sm_set_cpu_data. destruct (Z.eqb_spec ptr 0); [lia|]. simpl CHECK.
  rewrite !bind_Ok, Hi, deref_Some, bind_Ok. simpl sms. rewrite Hs, deref_Some, !bind_Ok.
  simpl length. cbn [Nat.ltb Nat.leb]. eexists _, m1. split; [done|]. split.
  - apply (ptr_at_cpu_data _ _ i ptr Hi). eexists. simpl. rewrite lookup_insert_eq. done.
  - simpl in Hpk. rewrite take_drop in Hpk. simpl cells.
    assert (sm_size s = 4 * Z.of_nat (length gs)) as Hsz by (unfold sizeof_float in *; lia).
    destruct (own_cpu_data s); simpl; [|exact Hpk].
    rewrite peek_unalloc_ne; [exact Hpk|].
    rewrite Hsp, Hsz, length_bytes_of_f32s. lia.
Qed.

Definition five (x : Z) : list Z := replicate 5 (f32_of_Z x).
(** The server's gradient at 1, the worker's at 21. *)
Definition demo_share_heap : heap :=
  mkHeap (list_to_map (zip (map Z.of_nat (seq 1 40)) (bytes_of_f32s (five 1 ++ five 2)))) 42
    {[0 := mkSM 1 20 HEAD_AT_CPU true]} ∅ 1.
Definition demo_share_param : Param :=
  mkParam (-1) 0 0 [] [] [] [] [] 0 None (mkBlob (Some 0) [5] 5 5 (-1)) Blob_new ParamProto_default.

Lemma ParseUpdateMsgs_share_overwrites_witness :
  exists h' m', ParseUpdateMsgs
      [mkMsg 0 0 kUpdate 0 0 (Some (ListCzmq.Build_t
         [frame_of [(ch_i, AInt 0)]; frame_of [(ch_p, APtr 21)]] (Some 0%nat))) (Some 0%nat)]
      demo_share_param demo_share_heap = Ok (h', [m']) /\
    cpu_data (grad demo_share_param) h' = Ok (h', 21) /\
    peek (cells h') 21 (length (bytes_of_f32s (five 2)))
      = Some (take 17 (bytes_of_f32s (five 1)) ++ drop 17 (bytes_of_f32s (five 2))).
Proof.
  apply (ParseUpdateMsgs_share_overwrites demo_share_heap demo_share_param 1 21 (five 1) (five 2));
    [| |exists []; by eexists|lia|simpl; lia|done|vm_compute; reflexivity|simpl; lia].
  - split.
    + constructor; [done|done|repeat constructor; vm_compute; done|].
      exists 0, []. split; [done|]. split; vm_compute; reflexivity.
    + exists 0. split; [done|]. eexists. split; [reflexivity|done].
  - done.
Defined.

(** ** Get *)
Section get.
Context `{C : Czmq} `{!CzmqLaws C}.

Definition get_frame (copy ptr : Z) : list Z := frame_of [(ch_i, AInt copy); (ch_p, APtr ptr)].

Lemma GenGetMsg_Ok h p base vs ix copy :
  heap_ok h -> param_at h p base vs -> slices_cover p vs -> (ix < length (slice_size p))%nat ->
  brk h <= 2 ^ 64 ->
  let ptr := base + sizeof_float * Z.of_nat (slice_off p ix) in
  exists msg, GenGetMsg copy (Z.of_nat ix) p h
      = Ok (h, set_pending (<[ix := true]> (pending_get p)) (pending_update p)
                 (num_pending_requests p + 1) p, msg) /\
    type msg = kGet /\ has_frames msg [get_frame (Z.b2z copy) ptr] /\ 0 < ptr < 2 ^ 64.
Proof.
  intros Hok Hp Hc Hix Hbrk ptr. pose proof (cover_wf p vs Hc) as Hwf.
  destruct (slices_cover_slice p vs ix Hc Hix) as (_ & Eoff & _ & _ & _ & Hpos & L3).
  destruct (param_at_ptr _ _ _ _ Hp) as (Eptr & _ & _).
  destruct (param_at_blob _ _ _ _ Hp) as (b & _ & Ha).
  destruct (at_cpu_below h b base vs Hok Ha) as [Hb1 Hb2]; [by intros ->; simpl in *; lia|].
  assert (0 < ptr < 2 ^ 64) as Hr by (unfold ptr, sizeof_float in *; lia).
  unfold GenGetMsg. rewrite (wf_num p Hwf).
  destruct (Z.ltb_spec (Z.of_nat ix) (Z.of_nat (length (slice_size p)))); [|lia].
  simpl CHECK. rewrite bind_Ok, Eptr, bind_Ok, Eoff, bind_Ok. fold ptr.
  destruct (AddFormatFrame_Ok "ip" [(ch_i, AInt (Z.b2z copy)); (ch_p, APtr ptr)] (set_type kGet Msg_new) []
    Msg_new_frames eq_refl) as (m1 & E1 & Hm1 & Hh1);
    [by destruct copy; repeat constructor; done || lia|by destruct copy; vm_compute; discriminate|].
  simpl map in E1. rewrite E1, bind_Ok.
  rewrite set_idx_Ok by (rewrite (wf_get p Hwf); lia). rewrite bind_Ok, Nat2Z.id.
  exists m1. split; [done|]. split; [apply Hh1|]. done.
Qed.

(** The server adds a copy of its values and sends the message back. *)
Lemma HandleGetMsg_Ok h p base vs m ptr :
  param_at h p base vs -> at_frame m [get_frame 1 ptr] 0 -> 0 <= ptr < 2 ^ 64 ->
  exists m', HandleGetMsg m p h = Ok (h, m') /\
    has_frames m' [get_frame 1 ptr; bytes_of_f32s vs] /\ type m' = kRGet /\
    src m' = dst m /\ dst m' = src m /\ trgt_val m' = trgt_val m.
Proof.
  intros Hp Hm Hptr. unfold HandleGetMsg.
  rewrite (ParseFormatFrame_Ok "ip" [(ch_i, AInt 1); (ch_p, APtr ptr)] [] m _ 0 Hm eq_refl eq_refl)
    by (repeat constructor; done || lia).
  rewrite bind_Ok. simpl map. cbv iota beta.
  destruct (param_at_ptr _ _ _ _ Hp) as (_ & -> & ->). rewrite bind_Ok.
  simpl Z.eqb. cbn [negb]. rewrite bind_Ok.
  destruct (param_at_blob _ _ _ _ Hp) as (b & _ & Ha).
  rewrite (at_cpu_load_all _ _ _ _ _ Ha eq_refl), bind_Ok.
  destruct (AddFrame_Ok m _ (bytes_of_f32s vs) (at_has _ _ _ Hm)) as (m1 & -> & Hm1 & (Hs & Hd & _ & Ht & _)).
  rewrite !bind_Ok. eexists. split; [done|]. simpl. by rewrite Hs, Hd, Ht.
Qed.
End get.

(** A get brings the server's values to the worker: the request marks the slice
    as pending, the server's answer goes back to the requester, and parsing it
    writes the server's values over the slice and nothing else, clears the flag
    and returns 1 when nothing else is pending. *)
Theorem Get_roundtrip `{C : Czmq} `{!CzmqLaws C}
    (h hs : heap) (p ps : Param) (base bases : Z) (vs sv : list Z) (ix : nat)
    (Hok : heap_ok h) (Hp : param_at h p base vs) (Hc : slices_cover p vs)
    (Hix : (ix < length (slice_size p))%nat) (Hbrk : brk h <= 2 ^ 64)
    (Hps : param_at hs ps bases sv) (Hsv : length sv = slice_len p ix)
    (Hidle : num_pending_requests p = 0) :
  exists p1 msg, GenGetMsg true (Z.of_nat ix) p h = Ok (h, p1, msg) /\ type msg = kGet /\
    pending_get p1 = <[ix := true]> (pending_get p) /\ num_pending_requests p1 = 1 /\
    forall m2, arrives msg m2 ->
      exists m3, HandleGetMsg m2 ps hs = Ok (hs, m3) /\ type m3 = kRGet /\
        src m3 = dst m2 /\ dst m3 = src m2 /\ trgt_val m3 = trgt_val m2 /\
        forall m4, arrives m3 m4 ->
          exists h' p', ParseGetResponseMsg m4 (Z.of_nat ix) p1 h = Ok (h', p', 1) /\
            param_at h' p' base (slice_put p ix sv vs) /\ num_pending_requests p' = 0 /\
            pending_get p' = <[ix := false]> (pending_get p).
Proof.
  destruct (GenGetMsg_Ok h p base vs ix true Hok Hp Hc Hix Hbrk) as (msg & E & Ht & Hm & Hptr).
  eexists _, msg. split; [exact E|]. split; [done|]. split; [done|]. split; [simpl; lia|].
  intros m2 Hd. pose proof (arrives_at _ _ _ Hd Hm) as Hm2.
  destruct (HandleGetMsg_Ok hs ps bases sv m2 _ Hps Hm2 ltac:(lia)) as (m3 & E3 & Hm3 & Ht3 & Hs3 & Hd3 & Htr3).
  exists m3. do 5 (split; [done|]). intros m4 Hd4. pose proof (arrives_at _ _ _ Hd4 Hm3) as Hm4.
  set (p1 := set_pending _ _ _ p). pose proof (cover_wf p vs Hc) as Hwf.
  assert (slices_cover p1 vs) as Hc1.
  { destruct Hc as [[] ? ?]. constructor; [|done..]. constructor; try done. simpl. by rewrite length_insert. }
  destruct (param_at_blob _ _ _ _ Hps) as (bs & _ & Has).
  destruct (ParseResponseMsg_Ok h p1 base vs ix m4 _ sv [] Hok Hp Hc1 Hix Hm4 Hsv
    (at_cpu_f32 _ _ _ _ Has)) as (h' & E4 & Hok' & Hp').
  unfold ParseGetResponseMsg.
  rewrite (idx_lookup _ ix true) by (simpl; apply list_lookup_insert_eq; rewrite (wf_get p Hwf); lia).
  rewrite bind_Ok. simpl CHECK. rewrite bind_Ok.
  rewrite set_idx_Ok by (simpl; rewrite length_insert, (wf_get p Hwf); lia).
  rewrite bind_Ok, E4, bind_Ok, Nat2Z.id. simpl num_pending_requests. rewrite Hidle.
  simpl num_slices. unfold last_pending. rewrite (wf_num p Hwf).
  destruct (Z.eqb_spec (Z.of_nat (length (slice_size p))) 0); [lia|].
  change (0 + 1 - 1) with 0. rewrite (Z.rem_0_l (Z.of_nat (length (slice_size p)))), bind_Ok by done.
  eexists h', _. split; [done|]. split; [exact Hp'|]. split; [done|].
  simpl. by rewrite list_insert_insert_eq.
Qed.

Definition demo_one_slice : Param :=
  mkParam (-1) 0 1 [0] [2] [false] [false] [false] 0 (Some 1) Blob_new Blob_new ParamProto_default.

Lemma Get_roundtrip_witness :
  exists p1 msg, GenGetMsg true 0 demo_one_slice demo_pheap = Ok (demo_pheap, p1, msg) /\
    num_pending_requests p1 = 1.
Proof.
  destruct (Get_roundtrip demo_pheap demo_sheap demo_one_slice demo_sparam 1 1 demo_floats
    demo_floats 0 demo_pheap_ok) as (p1 & msg & E & _ & _ & En & _); try done; try (simpl; lia).
  - exists 1, demo_blob. split; [done|]. split; [done|]. apply demo_at_cpu.
  - constructor; [|repeat constructor|done]. constructor; try done.
    intros [|i]; simpl; [done|lia].
  - apply demo_sparam_at.
  - by exists p1, msg.
Defined.
