(* ===== verification/Updater.v ===== *)
(** * utils/updater.h, utils/updater.cc: the updaters

    An updater changes the values of a parameter, given its gradient, in the
    store.  [GetLearningRate] is the schedule of the learning rate; [pow] of the C
    library is the only thing it needs from outside.  Class [Updater] is what the
    server calls and class [UpdaterLaws] what it relies on; the SGD updater
    without momentum is an instance.

    The tensors of the code are views of the arrays of the parameter; an
    expression over tensors is computed element by element, and stored. *)

From Stdlib Require Import SpecFloat.
From S2P Require Import Prelude Float32 Msg Format Memory Param ParamProps ParamUpdate.

(** ** Configuration (UpdaterProto) *)
Inductive ChangeMethod :=
| kFixed | kInverseT | kInverse | kExponential | kLinear | kStep | kFixedStep.

Record UpdaterProto := mkUpdaterProto {
  lr_change : ChangeMethod;
  base_lr : Z;
  momentum : Z;
  weight_decay : Z;
  delta : Z;
  rho : Z;
  linear_freq : Z; linear_final_lr : Z;
  exponential_freq : Z;
  inverset_final_lr : Z;
  inverse_gamma : Z; inverse_pow : Z;
  step_gamma : Z; step_freq : Z;
  fixed_steps : list Z; fixed_lrs : list Z;
}.

(** The C library's [double pow(double, double)]. *)
Class Libm := { pow : spec_float -> spec_float -> spec_float }.

Section updaters.
Context `{L : Libm}.

(** The loop of the fixed-step schedule, from entry [i]. *)
Fixpoint fixed_step_lr (step : Z) (steps lrs : list Z) (ret : Z) : outcome Z :=
  match steps with
  | [] => Ok ret
  | s :: steps =>
      match lrs with
      | [] => if s <? step then Undef else fixed_step_lr step steps [] ret
      | lr :: lrs => fixed_step_lr step steps lrs (if s <? step then lr else ret)
      end
  end.

Definition GetLearningRate (proto : UpdaterProto) (step : Z) : outcome Z :=
  let base := base_lr proto in
  let f := f64_of_f32 in
  match lr_change proto with
  | kFixed => Ok base
  | kLinear =>
      let r := f32_of_f64 (f64_div (f64_of_Z step) (f64_of_Z (linear_freq proto))) in
      Ok (f32_of_f64 (f64_add (f64_mul (f64_sub (f64_of_Z 1) (f r)) (f base))
                        (f (f32_mul r (linear_final_lr proto)))))
  | kExponential =>
      Ok (f32_of_f64 (f64_div (f base)
            (pow (f64_of_Z 2) (f64_div (f64_of_Z step) (f64_of_Z (exponential_freq proto))))))
  | kInverseT =>
      let final_lr := inverset_final_lr proto in
      _ ← CHECK (f32_eqb base (f32_mul (f32_of_Z 2) final_lr));
      Ok (f32_of_f64 (f64_div (f base)
            (f64_add (f64_of_Z 1) (f64_div (f64_of_Z step) (f final_lr)))))
  | kInverse =>
      let x := f32_add f32_one (f32_mul (inverse_gamma proto) (f32_of_Z step)) in
      Ok (f32_of_f64 (f64_mul (f base) (pow (f x) (f (f32_neg (inverse_pow proto))))))
  | kStep =>
      (* an [int] division *)
      if step_freq proto =? 0 then Undef
      else Ok (f32_of_f64 (f64_mul (f base)
                 (pow (f (step_gamma proto)) (f64_of_Z (Z.quot step (step_freq proto))))))
  | kFixedStep => fixed_step_lr step (fixed_steps proto) (fixed_lrs proto) 0
  end.

(** ** Arrays *)
Definition tensor (ptr n : Z) (h : heap) : outcome (list Z) :=
  bytes ← load h ptr (sizeof_float * n); Ok (f32s_of_bytes bytes).
Definition set_tensor (ptr : Z) (vs : list Z) (h : heap) : outcome heap :=
  store h ptr (bytes_of_f32s vs).
Definition scale (vs : list Z) (x : Z) : list Z := map (fun v => f32_mul v x) vs.
Definition scale_l (x : Z) (vs : list Z) : list Z := map (fun v => f32_mul x v) vs.

(** [float lr] and [float wd] of the [Update] functions. *)
Definition lr_of (proto : UpdaterProto) (step : Z) (p : Param) : outcome Z :=
  lr ← GetLearningRate proto step; Ok (f32_mul lr (lr_mult (proto_ p))).
Definition wd_of (weight_decay_ : Z) (p : Param) : Z :=
  f32_mul weight_decay_ (wd_mult (proto_ p)).
(** [if(wd>0) grad+=data*wd;] *)
Definition regularize (wd data grad n : Z) (h : heap) : outcome heap :=
  if f32_ltb 0 wd then
    d ← tensor data n h; g ← tensor grad n h;
    set_tensor grad (f32s_add g (scale d wd)) h
  else Ok h.
(** [if(step==0) history=0;] *)
Definition clear_history (step history n : Z) (h : heap) : outcome heap :=
  if step =? 0 then
    _ ← tensor history n h; set_tensor history (replicate (Z.to_nat n) 0) h
  else Ok h.

(** The members of the updaters; a member that [Init] leaves alone has no value, except
    that [Nesterov_Init] keeps the momentum the object was created with. *)
Record updater := mkUpdater {
  u_proto : UpdaterProto;
  momentum_ : option Z;
  weight_decay_ : Z;
  delta_ : option Z;
  rho_ : option Z;
}.

Definition SGD_Init (proto : UpdaterProto) : outcome updater :=
  Ok (mkUpdater proto (Some (momentum proto)) (weight_decay proto) None None).
Definition Nesterov_Init (momentum_ : option Z) (proto : UpdaterProto) : outcome updater :=
  _ ← CHECK (f32_ltb 0 (base_lr proto));
  Ok (mkUpdater proto momentum_ (weight_decay proto) None None).
Definition AdaGrad_Init (proto : UpdaterProto) : outcome updater :=
  _ ← CHECK (f32_ltb 0 (base_lr proto));
  Ok (mkUpdater proto None (weight_decay proto) (Some (delta proto)) None).
Definition RMSProp_Init (proto : UpdaterProto) : outcome updater :=
  _ ← CHECK (f32_ltb 0 (base_lr proto));
  Ok (mkUpdater proto None (weight_decay proto) (Some (delta proto)) (Some (rho proto))).

Definition SGD_Update (u : updater) (step : Z) (p : Param) (h : heap) : outcome heap :=
  n ← size p h;
  '(h, data) ← mutable_data_ptr p h;
  '(h, grad) ← mutable_cpu_data (grad p) h;
  lr ← lr_of (u_proto u) step p;
  h ← regularize (wd_of (weight_decay_ u) p) data grad n h;
  momentum_ ← deref (momentum_ u);
  if f32_ltb 0 momentum_ then
    '(h, history) ← mutable_cpu_data (history p) h;
    h ← clear_history step history n h;
    hist ← tensor history n h; g ← tensor grad n h;
    h ← set_tensor history (f32s_sub (scale hist momentum_) (scale_l lr g)) h;
    d ← tensor data n h; hist ← tensor history n h;
    set_tensor data (f32s_add d hist) h
  else
    g ← tensor grad n h;
    h ← set_tensor grad (scale g (f32_neg lr)) h;
    d ← tensor data n h; g ← tensor grad n h;
    set_tensor data (f32s_add d g) h.

Definition Nesterov_Update (u : updater) (step : Z) (p : Param) (h : heap) : outcome heap :=
  n ← size p h;
  '(h, data) ← mutable_data_ptr p h;
  '(h, grad) ← mutable_cpu_data (grad p) h;
  '(h, history) ← mutable_cpu_data (history p) h;
  h ← clear_history step history n h;
  lr ← lr_of (u_proto u) step p;
  h ← regularize (wd_of (weight_decay_ u) p) data grad n h;
  tmp ← tensor history n h;
  momentum_ ← deref (momentum_ u);
  g ← tensor grad n h;
  h ← set_tensor history (f32s_add (scale tmp momentum_) (scale_l lr g)) h;
  hist ← tensor history n h;
  let tmp := f32s_sub (scale hist (f32_add f32_one momentum_)) (scale tmp momentum_) in
  d ← tensor data n h;
  set_tensor data (f32s_sub d tmp) h.

(** [data-=lr*grad/(F<op::sqrtop>(history,delta_))] *)
Definition adapt (lr delta data grad history n : Z) (h : heap) : outcome heap :=
  d ← tensor data n h; g ← tensor grad n h; hist ← tensor history n h;
  set_tensor data
    (f32s_sub d (zip_with f32_div (scale_l lr g) (map (fun x => f32_sqrt (f32_add x delta)) hist))) h.
(** [F<op::square>(grad*grad_scale)], with [grad_scale] 1. *)
Definition squares (g : list Z) : list Z :=
  map (fun x => f32_mul x x) (scale g f32_one).

Definition AdaGrad_Update (u : updater) (step : Z) (p : Param) (h : heap) : outcome heap :=
  n ← size p h;
  '(h, data) ← mutable_data_ptr p h;
  '(h, grad) ← mutable_cpu_data (grad p) h;
  '(h, history) ← mutable_cpu_data (history p) h;
  h ← clear_history step history n h;
  hist ← tensor history n h; g ← tensor grad n h;
  h ← set_tensor history (f32s_add hist (squares g)) h;
  lr ← lr_of (u_proto u) step p;
  h ← regularize (wd_of (weight_decay_ u) p) data grad n h;
  delta ← deref (delta_ u);
  adapt lr delta data grad history n h.

Definition RMSProp_Update (u : updater) (step : Z) (p : Param) (h : heap) : outcome heap :=
  n ← size p h;
  '(h, data) ← mutable_data_ptr p h;
  '(h, grad) ← mutable_cpu_data (grad p) h;
  '(h, history) ← mutable_cpu_data (history p) h;
  h ← clear_history step history n h;
  rho ← deref (rho_ u);
  hist ← tensor history n h; g ← tensor grad n h;
  h ← set_tensor history (f32s_add (scale hist rho) (scale_l (f32_sub f32_one rho) (squares g))) h;
  lr ← lr_of (u_proto u) step p;
  h ← regularize (wd_of (weight_decay_ u) p) data grad n h;
  delta ← deref (delta_ u);
  adapt lr delta data grad history n h.
End updaters.

(** ** What a server needs of an updater *)
Class Updater := { Update : Z -> Param -> heap -> outcome heap }.

(** An update of a parameter with [values] [vs] and gradient [gs] replaces the
    values and leaves the parameter ready for the next one. *)
Class UpdaterLaws (U : Updater) := {
  new_values : Z -> ParamProto -> list Z -> list Z -> list Z;
  length_new_values step pr vs gs :
    length gs = length vs -> length (new_values step pr vs gs) = length vs;
  Update_Ok step h p base vs gp gs :
    heap_ok h -> param_at h p base vs -> grad_ready h p base gp -> at_cpu h (grad p) gp gs ->
    length gs = length vs ->
    exists h', Update step p h = Ok h' /\ heap_ok h' /\
      param_at h' p base (new_values step (proto_ p) vs gs) /\ grad_apart h' p base;
}.
