(* ===== verification/UpdaterProps.v ===== *)
(** * Properties of the updaters

    SGD computes the documented update on the parameter's own memory, and without
    momentum it is an implementation of the interface [UpdaterLaws] the server is
    proved against; the fixed-step schedule and the Nesterov updater do not do
    what their documentation says. *)

From Stdlib Require Import SpecFloat Sorted.
From S2P Require Import Prelude Float32 Msg Format Memory Param ParamProps ParamUpdate Updater.

(** Storing new values leaves the gradient. *)
Lemma value_store_Ok h p base vs gp gs ws :
  heap_ok h -> param_at h p base vs -> grad_ready h p base gp -> at_cpu h (grad p) gp gs ->
  length ws = length vs -> Forall is_f32 ws ->
  exists h', store h base (bytes_of_f32s ws) = Ok h' /\ heap_ok h' /\ param_at h' p base ws /\
    grad_ready h' p base gp /\ at_cpu h' (grad p) gp gs.
Proof.
  intros Hok (i & b & Hi & Hb & Ha) [[Hwf Hle (i' & b' & gi & s & Hi' & Hb' & Hcb & Hgi & Hne & Hs & Hsz & Hcase)]
    (gi' & Hgi' & s' & Hs' & Hsp & Hsh)] Hg Hl Hf. simplify_eq.
  assert (at_cpu h b base ([] ++ vs ++ [])) as Ha' by by rewrite app_nil_r.
  destruct (at_cpu_store h b base [] vs [] ws Hok Ha' Hl Hf)
    as (h' & E & Hok' & Hv & Hsm & Hbl & _ & _ & Hfr).
  simpl in E, Hv. rewrite app_nil_r in Hv. rewrite Z.add_0_r in E.
  destruct Hcase as [?|[_ Hdis]]; [congruence|].
  assert (at_cpu h' (grad p) (cpu_ptr s) gs) as Hg'.
  { eapply at_cpu_frame; [done|by rewrite Hsm|]. intros a Hr. apply peek_cell, Hfr. lia. }
  exists h'. split; [done|]. split; [done|]. split; [exists i, b; by rewrite Hbl|].
  split; [|done]. constructor; [|exists gi; split; [done|]; exists s; by rewrite Hsm].
  constructor; [by eapply blob_holds_wf, at_holds|done|].
  exists i, b, gi, s. rewrite Hbl, Hsm. split_and!; auto.
Qed.

Lemma tensor_Ok h b p vs n :
  at_cpu h b p vs -> n = Z.of_nat (length vs) -> tensor p n h = Ok vs.
Proof.
  intros Ha ->. unfold tensor. rewrite (at_cpu_load_all _ _ _ _ _ Ha eq_refl), bind_Ok.
  by rewrite f32s_of_bytes_of_f32s by by eapply at_cpu_f32.
Qed.

Lemma length_scale vs x : length (scale vs x) = length vs.
Proof. apply length_map. Qed.
Lemma scale_range vs x : Forall is_f32 (scale vs x).
Proof. apply map_range. auto with singa. Qed.
#[export] Hint Resolve scale_range : singa.

(** The gradient with weight decay, and the values after a step of SGD without
    momentum. *)
Definition decayed (wd : Z) (vs gs : list Z) : list Z :=
  if f32_ltb 0 wd then f32s_add gs (scale vs wd) else gs.
Definition sgd_values (lr wd : Z) (vs gs : list Z) : list Z :=
  f32s_add vs (scale (decayed wd vs gs) (f32_neg lr)).

Lemma length_decayed wd vs gs : length gs = length vs -> length (decayed wd vs gs) = length vs.
Proof.
  intros H. unfold decayed. destruct (f32_ltb 0 wd); [|done].
  apply length_f32s_add; [done|apply length_scale].
Qed.

Lemma regularize_Ok h p base vs gp gs wd :
  heap_ok h -> param_at h p base vs -> grad_ready h p base gp -> at_cpu h (grad p) gp gs ->
  length gs = length vs ->
  exists h', regularize wd base gp (Z.of_nat (length vs)) h = Ok h' /\ heap_ok h' /\
    param_at h' p base vs /\ grad_ready h' p base gp /\ at_cpu h' (grad p) gp (decayed wd vs gs).
Proof.
  intros Hok Hp Hr Hg Hl. unfold regularize, decayed. destruct (f32_ltb 0 wd); [|by exists h].
  destruct (param_at_blob _ _ _ _ Hp) as (b & _ & Ha).
  rewrite (tensor_Ok _ _ _ _ _ Ha eq_refl), bind_Ok.
  rewrite (tensor_Ok _ _ _ _ (Z.of_nat (length vs)) Hg), bind_Ok by congruence.
  pose proof (at_cpu_count _ _ _ _ Hg) as Hc.
  destruct (grad_store_Ok h p base vs gp (f32s_add gs (scale vs wd)) Hok Hp Hr)
    as (h' & E & H); [|auto with singa|by exists h'].
  rewrite Hc. f_equal. symmetry. apply length_f32s_add; [done|]. by rewrite length_scale.
Qed.

Section sgd.
Context `{L : Libm}.

(** One step of SGD without momentum. *)
Lemma SGD_Update_Ok u step h p base vs gp gs lr mom :
  heap_ok h -> param_at h p base vs -> grad_ready h p base gp -> at_cpu h (grad p) gp gs ->
  length gs = length vs -> GetLearningRate (u_proto u) step = Ok lr ->
  momentum_ u = Some mom -> f32_ltb 0 mom = false ->
  exists h', SGD_Update u step p h = Ok h' /\ heap_ok h' /\
    param_at h' p base
      (sgd_values (f32_mul lr (lr_mult (proto_ p))) (wd_of (weight_decay_ u) p) vs gs) /\
    grad_ready h' p base gp.
Proof.
  intros Hok Hp Hr Hg Hl Hlr Hm Hmom. unfold SGD_Update, lr_of.
  destruct (param_at_ptr _ _ _ _ Hp) as (_ & -> & ->). rewrite !bind_Ok.
  rewrite (grad_ready_ptr _ _ _ _ Hr), bind_Ok, Hlr, !bind_Ok.
  set (wd := wd_of (weight_decay_ u) p). set (l := f32_mul lr _).
  destruct (regularize_Ok h p base vs gp gs wd Hok Hp Hr Hg Hl) as (h1 & E1 & Hok1 & Hp1 & Hr1 & Hg1).
  rewrite E1, bind_Ok, Hm, deref_Some, bind_Ok, Hmom.
  pose proof (length_decayed wd vs gs Hl) as Hld.
  rewrite (tensor_Ok _ _ _ _ (Z.of_nat (length vs)) Hg1), bind_Ok by by rewrite Hld.
  pose proof (at_cpu_count _ _ _ _ Hg1) as Hc.
  destruct (grad_store_Ok h1 p base vs gp (scale (decayed wd vs gs) (f32_neg l)) Hok1 Hp1 Hr1)
    as (h2 & E2 & Hok2 & Hp2 & Hr2 & Hg2); [by rewrite length_scale|auto with singa|].
  unfold set_tensor. rewrite E2, bind_Ok.
  destruct (param_at_blob _ _ _ _ Hp2) as (b & _ & Ha).
  rewrite (tensor_Ok _ _ _ _ _ Ha eq_refl), bind_Ok.
  rewrite (tensor_Ok _ _ _ _ (Z.of_nat (length vs)) Hg2), bind_Ok by by rewrite length_scale, Hld.
  destruct (value_store_Ok h2 p base vs gp _ (sgd_values l wd vs gs) Hok2 Hp2 Hr2 Hg2)
    as (h3 & E3 & Hok3 & Hp3 & Hr3 & _); [|unfold sgd_values; auto with singa|by exists h3].
  unfold sgd_values. apply length_f32s_add; [done|]. by rewrite length_scale.
Qed.

Definition lr_val (proto : UpdaterProto) (step : Z) : Z :=
  match GetLearningRate proto step with Ok lr => lr | _ => 0 end.

(** SGD as the server's updater. *)
Definition SGD_updater (u : updater) : Updater := {| Update := SGD_Update u |}.

Lemma SGD_laws u :
  (forall step, is_ok (GetLearningRate (u_proto u) step) = true) ->
  (exists mom, momentum_ u = Some mom /\ f32_ltb 0 mom = false) ->
  UpdaterLaws (SGD_updater u).
Proof.
  intros Hlr Hmom. refine {|
    new_values step pr vs gs := sgd_values (f32_mul (lr_val (u_proto u) step) (lr_mult pr))
      (f32_mul (weight_decay_ u) (wd_mult pr)) vs gs |}.
  - intros step pr vs gs Hl. unfold sgd_values. apply length_f32s_add; [done|].
    rewrite length_scale. by apply length_decayed.
  - intros step h p base vs gp gs Hok Hp Hr Hg Hl. destruct Hmom as (mom & Hm & Hz).
    specialize (Hlr step). unfold lr_val.
    destruct (GetLearningRate (u_proto u) step) as [lr| | | |] eqn:E; try done.
    destruct (SGD_Update_Ok u step h p base vs gp gs lr mom Hok Hp Hr Hg Hl E Hm Hz)
      as (h' & ? & ? & ? & [? ?]). by exists h'.
Defined.
End sgd.

(** SGD without momentum: with learning rate [lr] (the schedule's rate times
    the parameter's multiplier) and weight decay [wd] (with its multiplier), the
    values become [data + (grad + data*wd) * -lr], element by element in [float]
    arithmetic, the decay term only when [wd > 0], in the parameter's own memory,
    and the gradient's memory stays apart from it. *)
Theorem SGD_Update_spec `{L : Libm} (u : updater) (step : Z) (h : heap) (p : Param)
    (base gp : Z) (vs gs : list Z) (lr mom : Z)
    (Hok : heap_ok h) (Hp : param_at h p base vs) (Hr : grad_ready h p base gp)
    (Hg : at_cpu h (grad p) gp gs) (Hl : length gs = length vs)
    (Hlr : GetLearningRate (u_proto u) step = Ok lr)
    (Hm : momentum_ u = Some mom) (Hmom : f32_ltb 0 mom = false) :
  let lr := f32_mul lr (lr_mult (proto_ p)) in
  let wd := f32_mul (weight_decay_ u) (wd_mult (proto_ p)) in
  exists h', SGD_Update u step p h = Ok h' /\ heap_ok h' /\ grad_ready h' p base gp /\
    param_at h' p base
      (zip_with (fun d g => f32_add d (f32_mul g (f32_neg lr))) vs
        (if f32_ltb 0 wd then zip_with (fun g d => f32_add g (f32_mul d wd)) gs vs else gs)).
Proof.
  intros lr' wd.
  destruct (SGD_Update_Ok u step h p base vs gp gs lr mom Hok Hp Hr Hg Hl Hlr Hm Hmom)
    as (h' & E & Hok' & Hp' & Hr').
  exists h'. split; [done|]. split; [done|]. split; [done|].
  unfold sgd_values, decayed, f32s_add, scale in Hp'. fold lr' in Hp'. unfold wd_of in Hp'. fold wd in Hp'.
  rewrite zip_with_fmap_r in Hp'. destruct (f32_ltb 0 wd); [|done].
  by rewrite zip_with_fmap_r in Hp'.
Qed.

(** The fixed-step schedule: with increasing steps, the rate is that of the
    last entry the step has passed strictly; up to and including the first entry
    it is 0, so nothing is learned there, whatever [base_lr] is (job.proto
    documents the entry as taking effect at its own step). *)
Theorem FixedStep_schedule `{L : Libm} (proto : UpdaterProto) (step : Z)
    (Hc : lr_change proto = kFixedStep)
    (Hlen : length (fixed_steps proto) = length (fixed_lrs proto))
    (Hinc : StronglySorted Z.lt (fixed_steps proto)) :
  ((forall s, s ∈ fixed_steps proto -> step <= s) -> GetLearningRate proto step = Ok 0) /\
  (forall i s lr, fixed_steps proto !! i = Some s -> fixed_lrs proto !! i = Some lr -> s < step ->
     (forall s', fixed_steps proto !! S i = Some s' -> step <= s') ->
     GetLearningRate proto step = Ok lr).
Proof.
  unfold GetLearningRate. rewrite Hc. clear Hc.
  generalize (fixed_lrs proto), (fixed_steps proto), 0, Hlen, Hinc. clear. intros lrs steps r0 Hlen Hinc.
  assert (forall steps lrs r, length steps = length lrs ->
    (forall s, s ∈ steps -> step <= s) -> fixed_step_lr step steps lrs r = Ok r) as Hnone.
  { clear. induction steps as [|s steps IH]; intros [|lr lrs] r Hl H; try done. simpl.
    destruct (Z.ltb_spec s step); [specialize (H s ltac:(left)); lia|].
    apply IH; [by injection Hl|]. intros t Ht. apply H. by right. }
  split; [by apply Hnone|].
  revert lrs r0 Hlen. induction Hinc as [|s steps Hs IH Hall]; intros lrs r0 Hlen i t lr Hi Hlr Hlt Hnext;
    [done|]. destruct lrs as [|l lrs]; [done|]. simpl in Hlen. injection Hlen as Hlen. simpl.
  destruct i as [|i]; simpl in *.
  - simplify_eq. destruct (Z.ltb_spec t step); [|lia]. apply Hnone; [done|].
    intros s' Hs'. destruct steps as [|s1 steps]; [by inversion Hs'|].
    specialize (Hnext s1 eq_refl). apply elem_of_cons in Hs' as [->|Hs']; [done|].
    inversion Hs as [|? ? _ Hall']; subst.
    pose proof (proj1 (List.Forall_forall _ _) Hall' s' ltac:(by apply list_elem_of_In)). lia.
  - by eapply IH.
Qed.

(** A Nesterov updater whose memory was not cleared when it was created never has a
    defined result: its [Init] does not set the momentum, which [Update] multiplies with. *)
Theorem Nesterov_undefined `{L : Libm} (proto : UpdaterProto) (u : updater) (step : Z)
    (p : Param) (h h' : heap) (Hinit : Nesterov_Init None proto = Ok u) :
  Nesterov_Update u step p h <> Ok h'.
Proof.
  unfold Nesterov_Init in Hinit. inv_ok Hinit. injection Hinit as <-.
  unfold Nesterov_Update. cbn [momentum_]. intros H.
  do 4 (inv_ok H; repeat match goal with x : _ * _ |- _ => destruct x end).
  do 5 inv_ok H. discriminate.
Qed.

(** ** Witnesses *)

(** Any function serves as [pow] for the schedules that do not use it. *)
Definition demo_libm : Libm := {| pow x _ := x |}.
#[local] Existing Instance demo_libm.

Definition demo_uproto (c : ChangeMethod) : UpdaterProto :=
  mkUpdaterProto c f32_one 0 0 0 0 0 0 0 0 0 0 0 0 [10; 20] [f32_of_Z 1; f32_of_Z 2].
Definition demo_updater : updater := mkUpdater (demo_uproto kFixed) (Some 0) 0 None None.

(** The values at 1 and the gradient at 10. *)
Definition demo_rheap : heap :=
  mkHeap (list_to_map (zip (map Z.of_nat (seq 1 8)) (bytes_of_f32s demo_floats) ++
            zip (map Z.of_nat (seq 10 8)) (bytes_of_f32s demo_floats))) 19
    {[0 := mkSM 1 8 HEAD_AT_CPU true; 2 := mkSM 10 8 HEAD_AT_CPU true]} {[1 := demo_blob]} 3.

Lemma demo_rheap_ok : heap_ok demo_rheap.
Proof.
  constructor.
  - simpl. lia.
  - intros a v Ha. unfold demo_rheap, cells in Ha. apply elem_of_list_to_map_2 in Ha.
    apply elem_of_app in Ha as [Ha|Ha];
      apply elem_of_zip_l, list_elem_of_fmap in Ha as (n & -> & Hn); apply elem_of_seq in Hn; simpl; lia.
  - intros i s. simpl. rewrite lookup_insert_Some, lookup_singleton_Some. lia.
  - intros i b. simpl. rewrite lookup_singleton_Some. lia.
Qed.

Lemma demo_holds (i p : Z) b :
  data_ b = Some i -> count_ b = 2 -> capacity_ b = 2 ->
  sms demo_rheap !! i = Some (mkSM p 8 HEAD_AT_CPU true) ->
  peek (cells demo_rheap) p 8 = Some (bytes_of_f32s demo_floats) ->
  at_cpu demo_rheap b p demo_floats.
Proof.
  intros Hd Hc Hcap Hs Hp. split.
  - constructor; [done|lia|repeat constructor; vm_compute; done|]. exists i, []. split; [done|].
    rewrite app_nil_r. split; [|by rewrite Hcap]. unfold sm_bytes. by rewrite Hs.
  - exists i. split; [done|]. by eexists.
Qed.

Lemma demo_rparam_at : param_at demo_rheap demo_sparam 1 demo_floats.
Proof. exists 1, demo_blob. split; [done|]. split; [done|]. by apply (demo_holds 0). Qed.

Lemma demo_rgrad : at_cpu demo_rheap (grad demo_sparam) 10 demo_floats.
Proof. by apply (demo_holds 2). Qed.

Lemma demo_rready : grad_ready demo_rheap demo_sparam 1 10.
Proof.
  constructor; [|exists 2; split; [done|]; by eexists]. constructor.
  - eapply blob_holds_wf, at_holds, demo_rgrad.
  - simpl. lia.
  - exists 1, demo_blob, 2, (mkSM 10 8 HEAD_AT_CPU true). split_and!; try done.
    right. split; [done|]. right. by vm_compute.
Qed.

Lemma SGD_Update_spec_witness :
  exists h', SGD_Update demo_updater 0 demo_sparam demo_rheap = Ok h' /\ heap_ok h' /\
    grad_ready h' demo_sparam 1 10 /\ param_at h' demo_sparam 1 [0; 0].
Proof.
  exact (SGD_Update_spec demo_updater 0 demo_rheap demo_sparam 1 10 demo_floats demo_floats
    f32_one 0 demo_rheap_ok demo_rparam_at demo_rready demo_rgrad eq_refl eq_refl eq_refl eq_refl).
Defined.

Lemma FixedStep_schedule_witness :
  GetLearningRate (demo_uproto kFixedStep) 10 = Ok 0 /\
  GetLearningRate (demo_uproto kFixedStep) 11 = Ok (f32_of_Z 1).
Proof.
  assert (StronglySorted Z.lt (fixed_steps (demo_uproto kFixedStep))) as Hs by (repeat constructor).
  split.
  - apply (FixedStep_schedule (demo_uproto kFixedStep) 10 eq_refl eq_refl Hs).
    intros s Hin. apply elem_of_cons in Hin as [->|Hin]; [done|].
    apply elem_of_cons in Hin as [->|Hin]; [done|by inversion Hin].
  - apply (proj2 (FixedStep_schedule (demo_uproto kFixedStep) 11 eq_refl eq_refl Hs) 0%nat 10);
      [done|done|lia|]. intros s' [= <-]. lia.
Defined.

Lemma Nesterov_undefined_witness :
  Nesterov_Update (mkUpdater (demo_uproto kFixed) None 0 None None) 0 demo_sparam demo_rheap
    <> Ok demo_rheap.
Proof. by apply (Nesterov_undefined (demo_uproto kFixed)). Defined.
