(* ===== verification/Server.v ===== *)
(** * trainer/server.h, trainer/server.cc: the parameter server

    A server keeps the slices put to it, answers gets, buffers the updates of a
    slice until all the workers that share it have sent theirs, and exchanges
    slices with other server groups.  [Run_step] is the body of the loop of
    [Server::Run]: one message in, the messages the dealer sends out.

    The process's store: [Param] objects by number, in [params]; [shard] is the map
    from slice ids to entries that all servers of a process are given
    ([Trainer::server_shard_]). *)

From S2P Require Import Prelude Float32 Msg Format Memory Param Updater.

Record world := mkWorld {
  hp : heap;
  params : gmap Z Param;
  next_param : Z;
  shard : gmap Z ParamEntry;
}.
Definition set_hp (h : heap) (w : world) : world :=
  mkWorld h (params w) (next_param w) (shard w).
Definition put_param (i : Z) (p : Param) (h : heap) (w : world) : world :=
  mkWorld h (<[i := p]> (params w)) (next_param w) (shard w).
Definition put_entry (slice : Z) (e : ParamEntry) (w : world) : world :=
  mkWorld (hp w) (params w) (next_param w) (<[slice := e]> (shard w)).
Definition set_num_update (n : Z) (e : ParamEntry) : ParamEntry :=
  mkEntry n (next_version e) (num_local e) (num_total e) (shares e).

(** [shard_->at(slice)->shares.at(0)] *)
Definition slice_param (slice : Z) (w : world) : outcome (Z * Param) :=
  e ← map_at (shard w !! slice);
  i ← vec_at (shares e) 0;
  p ← deref (params w !! i);
  Ok (i, p).

Section server.
Context `{C : Czmq} `{U : Updater}.

(** [master_params] and [syncEntry] are locals of [Run]. *)
Record Server := mkServer {
  thread_id_ : Z;
  grp_id_ : Z;
  id_ : Z;
  slice2group_ : list Z;
  last_data_ : gmap Z Blob;
  buffer_requests_ : gmap Z (list Msg);
  master_params : list Z;
  syncEntry : Z;
}.

Definition Server_make (thread_id group_id server_id : Z) : Server :=
  mkServer thread_id group_id server_id [] ∅ ∅ [] 0.
(** [shard] is the world's and the updater the instance. *)
Definition Server_Setup (slice2group : list Z) (s : Server) : Server :=
  mkServer (thread_id_ s) (grp_id_ s) (id_ s) slice2group (last_data_ s)
    (buffer_requests_ s) (master_params s) (syncEntry s).
Definition set_last (slice : Z) (b : Blob) (s : Server) : Server :=
  mkServer (thread_id_ s) (grp_id_ s) (id_ s) (slice2group_ s) (<[slice := b]> (last_data_ s))
    (buffer_requests_ s) (master_params s) (syncEntry s).
Definition set_buffer (slice : Z) (ms : list Msg) (s : Server) : Server :=
  mkServer (thread_id_ s) (grp_id_ s) (id_ s) (slice2group_ s) (last_data_ s)
    (<[slice := ms]> (buffer_requests_ s)) (master_params s) (syncEntry s).
Definition set_master (ps : list Z) (e : Z) (s : Server) : Server :=
  mkServer (thread_id_ s) (grp_id_ s) (id_ s) (slice2group_ s) (last_data_ s)
    (buffer_requests_ s) ps e.

(** [Cluster::Get()->nserver_groups()]. *)
Variable nserver_groups : Z.

(** ** HandlePut *)

(** The copy of the values kept to find what this group has changed since the last
    synchronisation. *)
Definition keep_last (slice_id : Z) (p : Param) (s : Server) (h : heap)
    : outcome (heap * Server) :=
  mastered ← (if 1 <? nserver_groups then
                g ← idx (slice2group_ s) slice_id; Ok (g =? grp_id_ s)
              else Ok true);
  if mastered : bool then Ok (h, s)
  else
    b ← data_blob p h;
    '(h, last) ← ReshapeLike Blob_new b h;
    '(h, last) ← CopyFrom last b false h;
    Ok (h, set_last slice_id last s).

Definition HandlePut (msg : Msg) (s : Server) (w : world)
    : outcome (world * Server * option Msg) :=
  let version := trgt_version msg in
  let slice_id := SliceID (trgt_val msg) in
  _ ← CHECK (bool_decide (shard w !! slice_id = None));
  '(h, p, reserved) ← HandlePutMsg msg true Param_new (hp w);
  msg ← deref reserved;
  '(msg, next) ← NextFrame msg;
  num_shares ← (if next : bool then parse_int msg else Ok 1);
  h ← param_set_version version p h;
  let p := set_id slice_id (set_local_version version p) in
  '(h, s) ← keep_last slice_id p s h;
  let i := next_param w in
  Ok (mkWorld h (<[i := p]> (params w)) (i + 1)
        (<[slice_id := ParamEntry_make num_shares i]> (shard w)), s, None).

(** ** HandleGet *)
Definition HandleGet (msg : Msg) (w : world) : outcome (world * option Msg) :=
  let val := trgt_val msg in
  '(_, p) ← slice_param (SliceID val) w;
  v ← version p (hp w);
  if v <? trgt_version msg then Ok (w, Some msg)
  else
    '(h, reply) ← HandleGetMsg msg p (hp w);
    v ← version p h;
    Ok (set_hp h w, Some (set_trgt val v reply)).

(** ** HandleUpdate *)

(** The requests of a slice, all there: aggregate, update, answer. *)
Definition do_update (msg : Msg) (requests : list Msg) (p : Param) (h : heap)
    : outcome (heap * Param * list Msg) :=
  let step := trgt_version msg in
  '(h, requests) ← ParseUpdateMsgs requests p h;
  h ← Update step p h;
  v ← int_ret (local_version p + 1);
  let p := set_local_version v p in
  '(h, ret) ← GenUpdateResponseMsgs requests p h;
  Ok (h, p, map (set_trgt (trgt_val msg) v) ret).

Definition HandleUpdate (msg : Msg) (s : Server) (w : world)
    : outcome (world * Server * list Msg) :=
  let sliceid := SliceID (trgt_val msg) in
  entry ← map_at (shard w !! sliceid);
  (* the buffer holds this very message *)
  msg ← LastFrame msg;
  n ← parse_int msg;
  msg ← FirstFrame msg;
  let requests := default [] (buffer_requests_ s !! sliceid) ++ [msg] in
  num_update ← int_ret (num_update entry + n);
  if num_total entry <=? num_update then
    _ ← CHECK (num_update =? num_total entry);
    i ← vec_at (shares entry) 0;
    p ← deref (params w !! i);
    '(h, p, ret) ← do_update msg requests p (hp w);
    Ok (put_entry sliceid (set_num_update 0 entry) (put_param i p h w),
        set_buffer sliceid [] s, ret)
  else
    Ok (put_entry sliceid (set_num_update num_update entry) w,
        set_buffer sliceid requests s, []).

(** ** Synchronisation between server groups *)

(** The loop over the groups [grps]; [msg] itself is sent to the last one. *)
Fixpoint gen_sync (grps : list Z) (msg : Msg) (s : Server) (p : Param) (h : heap)
    : outcome (heap * list Msg) :=
  match grps with
  | [] => Ok (h, [])
  | i :: grps =>
      if i =? grp_id_ s then gen_sync grps msg s p h
      else
        tmp ← (if i <? nserver_groups - 1 then Msg_copy msg else Ok msg);
        let tmp := set_src (Addr (grp_id_ s) (id_ s) (entity_num kServer))
                     (set_dst (Addr i 0 (entity_num kServer)) tmp) in
        h ← param_set_version (local_version p) p h;
        '(h, ret) ← gen_sync grps msg s p h;
        Ok (h, tmp :: ret)
  end.

Definition GenSyncMsgs (s : Server) (p : Param) (h : heap) : outcome (heap * list Msg) :=
  '(h, msg) ← GenSyncMsg p h;
  gen_sync (map Z.of_nat (seq 0 (Z.to_nat nserver_groups))) msg s p h.

(** The tensors [tmp], [cur], [prev] and [diff] of [HandleSyncRequest] are the
    message's values, the parameter's, those of the last synchronisation and their
    difference. *)
Definition HandleSyncRequest (msg : Msg) (s : Server) (w : world)
    : outcome (world * option Msg) :=
  let slice := SliceID (trgt_val msg) in
  '(i, p) ← slice_param slice w;
  n ← size p (hp w);
  fs ← FrameSize msg;
  _ ← CHECK (fs =? n * sizeof_float);
  bytes ← frame_bytes (n * sizeof_float) msg;
  let tmp := f32s_of_bytes bytes in
  '(h, cur_ptr) ← mutable_data_ptr p (hp w);
  cur ← tensor cur_ptr n h;
  g ← idx (slice2group_ s) slice;
  if g =? grp_id_ s then
    h ← set_tensor cur_ptr (f32s_add cur tmp) h;
    v ← int_ret (local_version p + 1);
    Ok (put_param i (set_local_version v p) h w, None)
  else
    last ← deref (last_data_ s !! param_id p);
    '(h, prev_ptr) ← mutable_cpu_data last h;
    prev ← tensor prev_ptr n h;
    let diff := f32s_sub cur prev in
    '(m, _) ← NextFrame msg;
    bandwidth ← parse_int m;
    if 0 <? bandwidth then
      v ← version p h;
      response ← AddFrame (bytes_of_f32s diff)
        (set_trgt (param_id p) v (set_type kSyncRequest (Msg_make (dst m) (src m))));
      h ← set_tensor prev_ptr (f32s_add diff tmp) h;
      prev ← tensor prev_ptr n h;
      h ← set_tensor cur_ptr prev h;
      Ok (set_hp h w, Some response)
    else
      h ← set_tensor prev_ptr tmp h;
      h ← set_tensor cur_ptr (f32s_add tmp diff) h;
      Ok (set_hp h w, None).

(** ** One iteration of the loop of [Run] *)
Definition Run_reminder (s : Server) (w : world) : outcome (world * Server * list Msg) :=
  if Z.of_nat (length (master_params s)) <=? syncEntry s then Ok (w, s, [])
  else
    i ← vec_at (master_params s) (syncEntry s);
    p ← deref (params w !! i);
    v ← version p (hp w);
    d ← int_ret (local_version p - v);
    if nserver_groups <=? Z.abs d then
      '(h, ret) ← GenSyncMsgs s p (hp w);
      Ok (set_hp h w,
          set_master (master_params s)
            (Z.rem (syncEntry s + 1) (Z.of_nat (length (master_params s)))) s, ret)
    else Ok (w, s, []).

Definition Run_step (msg : Msg) (s : Server) (w : world)
    : outcome (world * Server * list Msg) :=
  let slice_id := SliceID (trgt_val msg) in
  if type msg =? kPut then
    '(w, s, response) ← HandlePut msg s w;
    g ← idx (slice2group_ s) slice_id;
    s ← (if g =? grp_id_ s then
           '(i, _) ← slice_param slice_id w;
           Ok (set_master (master_params s ++ [i]) (syncEntry s) s)
         else Ok s);
    Ok (w, s, option_list response)
  else
    match shard w !! slice_id with
    | None => Ok (w, s, [msg])
    | Some _ =>
        if type msg =? kSyncReminder then Run_reminder s w
        else if type msg =? kGet then
          '(w, response) ← HandleGet msg w; Ok (w, s, option_list response)
        else if type msg =? kUpdate then HandleUpdate msg s w
        else if type msg =? kSyncRequest then
          '(w, response) ← HandleSyncRequest msg s w; Ok (w, s, option_list response)
        else Ok (w, s, [])
    end.
End server.
