(* ===== verification/ServerProps.v ===== *)
(** * Properties of the parameter server

    A put creates exactly one slice and disturbs no other; a get is answered with
    the values or sent back; a round of updates is answered once all shares have
    come, with the updated values; messages for slices that are not there, and
    the synchronisation reminders among them, are sent back. *)

From S2P Require Import Prelude Float32 Msg Format Memory Param ParamProps ParamUpdate Updater.
From S2P Require Import UpdaterProps Server.

(** ** The state of a slice *)
Record slice_ok (w : world) (slice i : Z) (p : Param) (base : Z) (vs : list Z) : Prop := {
  so_entry : exists e, shard w !! slice = Some e /\ shares e = [i];
  so_param : params w !! i = Some p;
  so_at : param_at (hp w) p base vs;
  so_apart : grad_apart (hp w) p base;
  so_count : count_ (grad p) = Z.of_nat (length vs);
  so_id : param_id p = slice;
}.
Record world_ok (w : world) : Prop := {
  wo_heap : heap_ok (hp w);
  wo_params i p : params w !! i = Some p -> i < next_param w;
}.

Lemma grad_apart_grows h h' p base :
  heap_ok h -> grows h h' -> grad_apart h p base -> grad_apart h' p base.
Proof.
  intros Hok Hg [Hwf Hle (i & b & gi & s & Hi & Hb & Hcb & Hgi & Hne & Hs & Hsz & Hcase)].
  constructor; [eapply blob_wf_keeps; [|done]; by apply grows_keeps|done|].
  exists i, b, gi, s. split_and!; try done; [by apply (grows_blobs _ _ Hg)|by apply (grows_sms _ _ Hg)].
Qed.

Lemma grad_apart_same h p p' base :
  pdata p' = pdata p -> grad p' = grad p -> grad_apart h p base -> grad_apart h p' base.
Proof.
  intros Hd Hg [? ? (i & b & gi & s & ?)]. constructor; rewrite ?Hg; try done.
  exists i, b, gi, s. by rewrite Hd.
Qed.

(** Changing the version of a blob. *)
Lemma set_version_Ok h p base vs v :
  heap_ok h -> param_at h p base vs ->
  exists i b, pdata p = Some i /\ blobs h !! i = Some b /\
    param_set_version v p h = Ok (set_blob i (set_version v b) h) /\
    let h' := set_blob i (set_version v b) h in
    heap_ok h' /\ param_at h' p base vs /\ version p h' = Ok v /\
    (grad_apart h p base -> grad_apart h' p base).
Proof.
  intros Hok (i & b & Hi & Hb & [[Hc Hcap Hf Hbytes] Hptr]). exists i, b. split; [done|].
  split; [done|]. unfold param_set_version. rewrite Hi, deref_Some, bind_Ok, Hb, deref_Some, bind_Ok.
  split; [done|]. split_and!.
  - constructor; try apply Hok. intros j c. simpl. destruct (decide (i = j)) as [<-|Hj].
    + intros _. by eapply ok_blobs.
    + rewrite lookup_insert_ne by done. by apply ok_blobs.
  - exists i, (set_version v b). split; [done|]. split; [simpl; by rewrite lookup_insert_eq|].
    split; [by constructor|done].
  - unfold version, data_blob. rewrite Hi, deref_Some, bind_Ok. simpl. by rewrite lookup_insert_eq.
  - intros [Hwf Hle (i' & b' & gi & s & Hi' & Hb' & ?)]. simplify_eq. constructor; [|done|].
    + destruct Hwf as [H1 H2]. by constructor.
    + exists i, (set_version v b), gi, s. split; [done|]. split; [simpl; by rewrite lookup_insert_eq|done].
Qed.

(** Everything a slice has is kept when the store grows. *)
Lemma slice_ok_grows w w' slice i p base vs :
  heap_ok (hp w) -> grows (hp w) (hp w') -> shard w' !! slice = shard w !! slice ->
  params w' !! i = params w !! i -> slice_ok w slice i p base vs -> slice_ok w' slice i p base vs.
Proof.
  intros Hok Hg Hs Hp [(e & He & Hsh) ? ? ? ? ?]. constructor; try done.
  - exists e. by rewrite Hs.
  - by rewrite Hp.
  - by apply (grows_param_at (hp w)).
  - by apply (grad_apart_grows (hp w)).
Qed.

Section put.
Context `{C : Czmq} `{!CzmqLaws C}.

(** The frames of a put as the stub sends it. *)
Definition put_frames (ws : list Z) (lr wd num : Z) : list (list Z) :=
  [frame_of (put_fields (Z.of_nat (length ws)) lr wd 0); bytes_of_f32s ws;
   frame_of [(ch_i, AInt num)]].

(** A slice this group masters needs no copy for synchronisation. *)
Definition masters (ngroups : Z) (s : Server) (slice : Z) : Prop :=
  ngroups <= 1 \/ idx (slice2group_ s) slice = Ok (grp_id_ s).

Lemma keep_last_mastered ngroups slice p s h :
  masters ngroups s slice -> keep_last ngroups slice p s h = Ok (h, s).
Proof.
  intros Hm. unfold keep_last. destruct (Z.ltb_spec 1 ngroups); [|done].
  destruct Hm as [?| ->]; [lia|]. by rewrite bind_Ok, Z.eqb_refl.
Qed.
End put.

Lemma HandlePut_Ok `{C : Czmq} `{!CzmqLaws C} (ngroups : Z) (msg : Msg) (s : Server) (w : world)
    (ws : list Z) (lr wd num : Z)
    (Hw : world_ok w) (Hm : at_frame msg (put_frames ws lr wd num) 0)
    (Hf : Forall is_f32 ws) (Hne : ws <> []) (Hmax : Z.of_nat (length ws) <= INT_MAX)
    (Hlr : is_f32 lr) (Hwd : is_f32 wd) (Hnum : INT_MIN <= num <= INT_MAX)
    (Hmaster : masters ngroups s (SliceID (trgt_val msg))) :
  let slice := SliceID (trgt_val msg) in
  (shard w !! slice = None -> exists w' p base,
     HandlePut ngroups msg s w = Ok (w', s, None) /\ world_ok w' /\
     slice_ok w' slice (next_param w) p base ws /\
     shard w' = <[slice := ParamEntry_make num (next_param w)]> (shard w) /\
     version p (hp w') = Ok (trgt_version msg) /\ local_version p = trgt_version msg /\
     forall slice' i q base' vs, slice_ok w slice' i q base' vs -> slice_ok w' slice' i q base' vs) /\
  (is_Some (shard w !! slice) -> HandlePut ngroups msg s w = Fatal).
Proof.
  intros slice. split; [|intros [e He]; unfold HandlePut; fold slice; by rewrite He].
  intros Hnone. unfold HandlePut. fold slice. rewrite bool_decide_eq_true_2 by done.
  simpl CHECK. rewrite bind_Ok. destruct Hw as [Hok Hps].
  destruct (HandlePutMsg_copy_Ok (hp w) Param_new msg ws lr wd true [frame_of [(ch_i, AInt num)]]
    Hok (Blob_new_wf _) (Blob_new_wf _) Hf Hne Hmax Hlr Hwd Hm)
    as (h1 & p1 & base & r & E1 & [Hok1 Hg1 Hp1 Hbase Hgw Hap _ Hproto _ (i0 & Hi0 & Hnew)] & m1 & -> & Hm1 & Hh1).
  rewrite E1, bind_Ok, deref_Some, bind_Ok.
  destruct (NextFrame_Ok m1 _ 1 Hm1) as (m2 & E2 & Hm2 & _); [simpl; lia|].
  rewrite E2, bind_Ok. cbv iota. rewrite (parse_int_Ok m2 _ 2 num [] Hm2 eq_refl Hnum), bind_Ok.
  destruct (set_version_Ok h1 p1 base ws (trgt_version msg) Hok1 Hp1)
    as (i & b & Hi & Hb & -> & Hok2 & Hp2 & Hv2 & Hap2).
  set (h2 := set_blob _ _ h1) in *. rewrite bind_Ok, keep_last_mastered, bind_Ok by done.
  assert (i = i0) as -> by congruence.
  assert (grows (hp w) h2) as Hg2.
  { destruct Hg1 as [G1 G2 G3 G4 G5]. constructor; try done. intros j c Hj.
    pose proof (ok_blobs _ Hok _ _ Hj). simpl. rewrite lookup_insert_ne by lia. auto. }
  eexists _, (set_id slice (set_local_version (trgt_version msg) p1)), base. split; [done|].
  split; [|split; [|split; [done|split; [exact Hv2|split; [done|]]]]].
  - constructor; [done|]. simpl. intros j q. destruct (decide (next_param w = j)) as [<-|Hj]; [lia|].
    rewrite lookup_insert_ne by done. intros Hq. apply Hps in Hq. lia.
  - constructor; simpl.
    + rewrite lookup_insert_eq. by eexists.
    + by rewrite lookup_insert_eq.
    + destruct Hp2 as (j & c & ? & ? & ?). by exists j, c.
    + by apply (grad_apart_same h2 p1), Hap2, Hap.
    + apply Hgw.
    + done.
  - intros slice' j q base' vs Hsl. pose proof Hsl as [(e & He & _) Hq _ _ _ _].
    eapply slice_ok_grows; [exact Hok|exact Hg2| | |exact Hsl]; simpl.
    + rewrite lookup_insert_ne; [done|congruence].
    + apply Hps in Hq. by rewrite lookup_insert_ne by lia.
Qed.

(** [HandlePut]: a put of a slice the process does not have creates its entry,
    expecting updates from as many shares as the put says, with a parameter that
    holds the values, at the version the message names, and is ready for updates;
    every slice that was there keeps its values and its memory.  A second put of a
    slice is fatal. *)
Theorem HandlePut_spec `{C : Czmq} `{!CzmqLaws C} (ngroups : Z) (msg : Msg) (s : Server) (w : world)
    (ws : list Z) (lr wd num : Z)
    (Hw : world_ok w) (Hm : at_frame msg (put_frames ws lr wd num) 0)
    (Hf : Forall is_f32 ws) (Hne : ws <> []) (Hmax : Z.of_nat (length ws) <= INT_MAX)
    (Hlr : is_f32 lr) (Hwd : is_f32 wd) (Hnum : INT_MIN <= num <= INT_MAX)
    (Hmaster : masters ngroups s (SliceID (trgt_val msg))) :
  let slice := SliceID (trgt_val msg) in
  (shard w !! slice = None -> exists w' p base,
     HandlePut ngroups msg s w = Ok (w', s, None) /\ world_ok w' /\
     slice_ok w' slice (next_param w) p base ws /\
     shard w' = <[slice := ParamEntry_make num (next_param w)]> (shard w) /\
     version p (hp w') = Ok (trgt_version msg) /\ local_version p = trgt_version msg /\
     forall slice' i q base' vs, slice_ok w slice' i q base' vs -> slice_ok w' slice' i q base' vs) /\
  (is_Some (shard w !! slice) -> HandlePut ngroups msg s w = Fatal).
Proof. by apply (HandlePut_Ok ngroups msg s w ws lr wd num). Qed.

(** ** Gets *)

Lemma slice_ok_param w slice i p base vs :
  slice_ok w slice i p base vs -> slice_param slice w = Ok (i, p).
Proof.
  intros [(e & He & Hs) Hp _ _ _ _]. unfold slice_param. rewrite He. simpl.
  rewrite Hs. simpl. by rewrite Hp.
Qed.

(** [HandleGet]: a get of a slice that has reached the version it asks for is
    answered to the requester with the slice's values and version; one that has
    not is sent back as it is, for the router to queue again. *)
Theorem HandleGet_spec `{C : Czmq} `{!CzmqLaws C} (msg : Msg) (w : world) (i : Z) (p : Param)
    (base : Z) (vs : list Z) (v ptr : Z)
    (Hs : slice_ok w (SliceID (trgt_val msg)) i p base vs) (Hv : version p (hp w) = Ok v)
    (Hm : at_frame msg [get_frame 1 ptr] 0) (Hptr : 0 <= ptr < 2 ^ 64) :
  (v < trgt_version msg -> HandleGet msg w = Ok (w, Some msg)) /\
  (trgt_version msg <= v -> exists reply, HandleGet msg w = Ok (w, Some reply) /\
     has_frames reply [get_frame 1 ptr; bytes_of_f32s vs] /\ type reply = kRGet /\
     src reply = dst msg /\ dst reply = src msg /\
     trgt_val reply = trgt_val msg /\ trgt_version reply = v).
Proof.
  unfold HandleGet. rewrite (slice_ok_param _ _ _ _ _ _ Hs), bind_Ok, Hv, bind_Ok.
  split; intros Hlt; destruct (Z.ltb_spec v (trgt_version msg)); try lia; [done|].
  destruct (HandleGetMsg_Ok (hp w) p base vs msg ptr (so_at _ _ _ _ _ _ Hs) Hm Hptr)
    as (m' & E & Hm' & Ht & Hsr & Hds & Htr).
  rewrite E, bind_Ok, Hv, bind_Ok. eexists.
  split; [by destruct w|]. done.
Qed.

(** ** Updates *)
Section update.
Context `{C : Czmq} `{!CzmqLaws C} `{U : Updater} `{!UpdaterLaws U}.

(** An update of [slice] as the stub sends it: the gradient, and the number of
    shares it stands for. *)
Definition update_frames (ws : list Z) (num : Z) : list (list Z) :=
  [copy_frame; bytes_of_f32s ws; frame_of [(ch_i, AInt num)]].
Definition update_req (slice : Z) (len : nat) (r : Msg * (list Z * Z)) : Prop :=
  let '(m, (ws, num)) := r in
  at_frame m (update_frames ws num) 0 /\ SliceID (trgt_val m) = slice /\ 0 < num <= INT_MAX /\
  length ws = len /\ Forall is_f32 ws.

(** [HandleUpdate] reads the number of shares and puts the message, rewound, in the
    buffer. *)
Lemma read_shares slice len m ws num :
  update_req slice len (m, (ws, num)) ->
  exists m1 m2, LastFrame m = Ok m1 /\ parse_int m1 = Ok num /\ FirstFrame m1 = Ok m2 /\
    update_msg 0 m2 ws /\ same_header m m2.
Proof.
  intros (Hm & _ & Hn & _).
  destruct (LastFrame_Ok m [copy_frame; bytes_of_f32s ws] (frame_of [(ch_i, AInt num)]))
    as (m1 & E1 & Hm1 & (H1 & H2 & H3 & H4 & H5)); [by apply at_has in Hm|].
  destruct (FirstFrame_Ok m1 copy_frame [bytes_of_f32s ws; frame_of [(ch_i, AInt num)]])
    as (m2 & E2 & Hm2 & (H1' & H2' & H3' & H4' & H5')); [by apply at_has in Hm1|].
  exists m1, m2. split; [done|]. split; [|split; [done|split]].
  - apply (parse_int_Ok m1 _ 2 num [] Hm1 eq_refl). unfold INT_MIN. lia.
  - by eexists.
  - repeat split; congruence.
Qed.

(** The requests buffered for a slice, and the shares they stand for. *)
Record buffered (s : Server) (slice : Z) (len : nat) (ms : list Msg) (wss : list (list Z)) : Prop := {
  bu_buffer : default [] (buffer_requests_ s !! slice) = ms;
  bu_msgs : Forall2 (update_msg 0) ms wss;
  bu_len : Forall (fun ws => length ws = len /\ Forall is_f32 ws) wss;
}.

Definition entry_is (w : world) (slice i total num : Z) : Prop :=
  exists e, shard w !! slice = Some e /\ shares e = [i] /\ num_total e = total /\ num_update e = num.

Lemma slice_ok_put_entry w slice i p base vs e :
  shares e = [i] -> slice_ok w slice i p base vs -> slice_ok (put_entry slice e w) slice i p base vs.
Proof.
  intros He [_ ? ? ? ? ?]. constructor; try done. exists e. simpl. by rewrite lookup_insert_eq.
Qed.

(** Not all shares yet: the request waits and nothing is sent. *)
Lemma HandleUpdate_wait w s slice i p base vs total num ms wss m ws n :
  slice_ok w slice i p base vs -> entry_is w slice i total num ->
  buffered s slice (length vs) ms wss -> update_req slice (length vs) (m, (ws, n)) ->
  num + n < total -> 0 <= num -> total <= INT_MAX ->
  exists w' s' m', HandleUpdate m s w = Ok (w', s', []) /\
    same_header m m' /\ (world_ok w -> world_ok w') /\
    slice_ok w' slice i p base vs /\ entry_is w' slice i total (num + n) /\
    buffered s' slice (length vs) (ms ++ [m']) (wss ++ [ws]).
Proof.
  intros Hs (e & He & Hsh & Htot & Hnum) [Hb Hms Hlen] Hr Hlt H0 Hmax.
  destruct (read_shares _ _ _ _ _ Hr) as (m1 & m2 & E1 & E2 & E3 & Hm2 & Hh).
  destruct Hr as (_ & Hsl & Hn & Hlw & Hfw).
  unfold HandleUpdate. rewrite Hsl, He. simpl map_at. rewrite bind_Ok, E1, bind_Ok, E2, bind_Ok, E3, bind_Ok.
  rewrite Hnum, int_ret_Ok by (unfold INT_MIN; lia). rewrite bind_Ok, Htot.
  destruct (Z.leb_spec total (num + n)); [lia|].
  eexists _, _, m2. split; [done|]. split; [done|]. split; [by intros []|].
  split; [by apply slice_ok_put_entry|]. split.
  - eexists. simpl. rewrite lookup_insert_eq. done.
  - constructor; [simpl; by rewrite lookup_insert_eq, Hb| |].
    + apply Forall2_app; [done|]. by constructor.
    + apply Forall_app. split; [done|]. by repeat constructor.
Qed.

(** The responses of a round. *)
Definition responses (requests ret : list Msg) (vs : list Z) (trgt v : Z) : Prop :=
  Forall2 (fun m m' => update_msg 1 m' vs /\ type m' = kRUpdate /\
    src m' = dst m /\ dst m' = src m /\ trgt_val m' = trgt /\ trgt_version m' = v) requests ret.

Lemma slice_ok_values w slice i p base vs h p' vs' e :
  slice_ok w slice i p base vs -> shares e = [i] ->
  param_at h p' base vs' -> grad_apart h p' base -> grad p' = grad p -> proto_ p' = proto_ p ->
  length vs' = length vs ->
  slice_ok (put_entry slice e (put_param i p' h w)) slice i p' base vs'.
Proof.
  intros [_ _ _ _ Hc Hid] He Hp Hg Hgr Hpr Hl. constructor; simpl; try done.
  - exists e. by rewrite lookup_insert_eq.
  - by rewrite lookup_insert_eq.
  - by rewrite Hgr, Hc, Hl.
  - unfold param_id in *. by rewrite Hpr.
Qed.

(** The last share: average, update, answer everybody, start over. *)
Lemma HandleUpdate_fire w s slice i p base vs total num ms wss m ws n :
  world_ok w -> slice_ok w slice i p base vs -> entry_is w slice i total num ->
  buffered s slice (length vs) ms wss -> update_req slice (length vs) (m, (ws, n)) ->
  num + n = total -> 0 <= num -> total <= INT_MAX -> INT_MIN <= local_version p + 1 <= INT_MAX ->
  let vs' := new_values (trgt_version m) (proto_ p) vs (f32s_mean (wss ++ [ws])) in
  let p' := set_local_version (local_version p + 1) p in
  exists w' s' m' ret, HandleUpdate m s w = Ok (w', s', ret) /\
    same_header m m' /\ world_ok w' /\ slice_ok w' slice i p' base vs' /\
    entry_is w' slice i total 0 /\ buffered s' slice (length vs) [] [] /\
    length vs' = length vs /\
    responses (ms ++ [m']) ret vs' (trgt_val m) (local_version p + 1).
Proof.
  intros [Hok Hps] Hs (e & He & Hsh & Htot & Hnum) [Hb Hms Hlen] Hr Heq H0 Hmax Hlv vs' p'.
  destruct (read_shares _ _ _ _ _ Hr) as (m1 & m2 & E1 & E2 & E3 & Hm2 & Hh).
  destruct Hr as (_ & Hsl & Hn & Hlw & Hfw). pose proof Hh as (Hh1 & Hh2 & Hh3 & Hh4 & Hh5).
  unfold HandleUpdate. rewrite Hsl, He. simpl map_at. rewrite bind_Ok, E1, bind_Ok, E2, bind_Ok, E3, bind_Ok.
  rewrite Hnum, int_ret_Ok by (unfold INT_MIN; lia). rewrite bind_Ok, Htot, Heq, Z.leb_refl, Z.eqb_refl.
  simpl CHECK. rewrite bind_Ok, Hsh. change (vec_at [i] 0) with (Ok i). rewrite bind_Ok.
  rewrite (so_param _ _ _ _ _ _ Hs), deref_Some, bind_Ok, Hb.
  assert (Forall2 (update_msg 0) (ms ++ [m2]) (wss ++ [ws])) as Hall.
  { apply Forall2_app; [done|]. by constructor. }
  assert (Forall (fun ws => length ws = length vs /\ Forall is_f32 ws) (wss ++ [ws])) as Hlall.
  { apply Forall_app. split; [done|]. by repeat constructor. }
  assert (wss ++ [ws] <> []) as Hne by by destruct wss.
  destruct (ParseUpdateMsgs_Ok (hp w) p base vs _ _ Hok (so_at _ _ _ _ _ _ Hs)
    (so_apart _ _ _ _ _ _ Hs) (so_count _ _ _ _ _ _ Hs) Hall Hne Hlall)
    as (h1 & msgs1 & gp & E4 & Hok1 & Hp1 & Hr1 & Hg1 & Hm1 & Hh1').
  assert (length (f32s_mean (wss ++ [ws])) = length vs) as Hlm.
  { pose proof (at_cpu_count _ _ _ _ Hg1). rewrite (so_count _ _ _ _ _ _ Hs) in *. lia. }
  destruct (Update_Ok (trgt_version m) h1 p base vs gp _ Hok1 Hp1 Hr1 Hg1 Hlm)
    as (h2 & E5 & Hok2 & Hp2 & Hga2). fold vs' in Hp2.
  pose proof (length_new_values (trgt_version m) (proto_ p) vs _ Hlm) as Hlv'. fold vs' in Hlv'.
  destruct (GenUpdateResponseMsgs_Ok h2 p' base vs' 1 msgs1 (wss ++ [ws]))
    as (ret & E6 & Hret); [done|done| |].
  { eapply Forall_impl; [|exact Hlall]. simpl. intros x [? _]. by rewrite Hlv'. }
  unfold do_update. rewrite E4, bind_Ok, Hh5, E5, bind_Ok, int_ret_Ok, bind_Ok by done.
  fold p'. rewrite E6, !bind_Ok.
  eexists _, _, m2, _. split; [done|]. split; [done|]. split.
  { constructor; [done|]. simpl. intros j q.
    pose proof (Hps _ _ (so_param _ _ _ _ _ _ Hs)) as Hi. destruct (decide (i = j)) as [<-|Hj]; [done|].
    rewrite lookup_insert_ne by done. apply Hps. }
  split; [apply (slice_ok_values w slice i p base vs); try done; by apply (grad_apart_same h2 p)|].
  split; [eexists; simpl; rewrite lookup_insert_eq; done|].
  split; [constructor; [simpl; by rewrite lookup_insert_eq|done|done]|]. split; [done|].
  unfold responses. rewrite Hh4. clear -Hret Hh1'.
  revert ret Hret. induction Hh1' as [|x y xs ys Hxy Hxs IH]; intros ret Hret;
    inversion Hret as [|? z ? ret' (Hu & Ht & Hs & Hd & _) Hret']; subst; constructor; [|by apply IH].
  destruct Hxy as (Hx1 & Hx2 & _). simpl. by rewrite Hs, Hd, Hx1, Hx2.
Qed.

(** The messages of a round, one after the other. *)
Fixpoint handle_updates (msgs : list Msg) (s : Server) (w : world)
    : outcome (world * Server * list (list Msg)) :=
  match msgs with
  | [] => Ok (w, s, [])
  | m :: msgs =>
      '(w, s, r) ← HandleUpdate m s w;
      '(w, s, rs) ← handle_updates msgs s w;
      Ok (w, s, r :: rs)
  end.

#[local] Instance same_header_refl : Reflexive same_header.
Proof. by intros m. Qed.

Definition req_grads (reqs : list (Msg * (list Z * Z))) : list (list Z) := map (fun r => r.2.1) reqs.
Definition req_shares (reqs : list (Msg * (list Z * Z))) : Z := zsum (map (fun r => r.2.2) reqs).

Lemma responses_headers ms ms' ret vs t v :
  Forall2 same_header ms ms' -> responses ms' ret vs t v -> responses ms ret vs t v.
Proof.
  unfold responses. intros Hh. revert ret. induction Hh as [|x y xs ys Hxy Hxs IH]; intros ret Hr;
    inversion Hr as [|? z ? ret' (H1 & H2 & H3 & H4 & H5) Hr']; subst; constructor; [|by apply IH].
  destruct Hxy as (<- & <- & _). done.
Qed.

Lemma req_shares_nonneg slice len reqs : Forall (update_req slice len) reqs -> 0 <= req_shares reqs.
Proof.
  intros H. apply zsum_nonneg, Forall_map. eapply Forall_impl; [|exact H].
  intros [m [ws n]] (_ & _ & ? & _). simpl. lia.
Qed.

Lemma handle_updates_Ok rs m ws n slice i p base vs total :
  forall w s num ms wss, world_ok w -> slice_ok w slice i p base vs -> entry_is w slice i total num ->
  buffered s slice (length vs) ms wss -> Forall (update_req slice (length vs)) rs ->
  update_req slice (length vs) (m, (ws, n)) -> num + req_shares rs + n = total -> 0 <= num ->
  total <= INT_MAX -> INT_MIN <= local_version p + 1 <= INT_MAX ->
  let vs' := new_values (trgt_version m) (proto_ p) vs (f32s_mean (wss ++ req_grads rs ++ [ws])) in
  exists w' s' ret, handle_updates (map fst rs ++ [m]) s w
      = Ok (w', s', replicate (length rs) [] ++ [ret]) /\
    world_ok w' /\ slice_ok w' slice i (set_local_version (local_version p + 1) p) base vs' /\
    entry_is w' slice i total 0 /\ buffered s' slice (length vs) [] [] /\ length vs' = length vs /\
    responses (ms ++ map fst rs ++ [m]) ret vs' (trgt_val m) (local_version p + 1).
Proof.
  induction rs as [|[m1 [ws1 n1]] rs IH]; intros w s num ms wss Hw Hs He Hb Hrs Hr Hsum H0 Hmax Hlv.
  - destruct (HandleUpdate_fire w s slice i p base vs total num ms wss m ws n Hw Hs He Hb Hr)
      as (w' & s' & m' & ret & E & Hh & Hw' & Hs' & He' & Hb' & Hl' & Hret);
      [unfold req_shares in Hsum; simpl in Hsum; lia|done..|].
    exists w', s', ret. cbn [map app handle_updates replicate length]. rewrite E, !bind_Ok.
    do 6 (split; [done|]). eapply responses_headers; [|exact Hret].
    apply Forall2_app; [reflexivity|by constructor].
  - inversion Hrs as [|? ? Hr1 Hrs' Ea]. clear Ea.
    change (req_shares ((m1, (ws1, n1)) :: rs)) with (n1 + req_shares rs) in Hsum.
    pose proof (req_shares_nonneg _ _ _ Hrs'). pose proof Hr as (_ & _ & Hn & _).
    destruct (HandleUpdate_wait w s slice i p base vs total num ms wss m1 ws1 n1 Hs He Hb Hr1)
      as (w1 & s1 & m1' & E1 & Hh1 & Hw1 & Hs1 & He1 & Hb1); [lia..|].
    destruct Hr1 as (_ & _ & Hn1 & _).
    destruct (IH w1 s1 (num + n1) (ms ++ [m1']) (wss ++ [ws1]) (Hw1 Hw) Hs1 He1 Hb1 Hrs' Hr)
      as (w' & s' & ret & E & Hw' & Hs' & He' & Hb' & Hl' & Hret); [lia..|done|].
    rewrite <- !app_assoc in *. exists w', s', ret. cbn [map app handle_updates replicate length fst].
    rewrite E1, bind_Ok, E, bind_Ok. do 6 (split; [done|]).
    eapply responses_headers; [|exact Hret].
    apply Forall2_app; [reflexivity|]. constructor; [done|reflexivity].
Qed.
End update.

(** C8. A round of updates: for a slice expecting [total] shares, with none received
    yet, update messages that stand for exactly [total] shares are handled in
    order without any answer to all but the last; the last one makes the server
    average all the gradients received, run the updater once at the last message's
    step, and answer every request, to where it came from, with the new values and
    the new version; the slice is then as before the round, with the new values,
    nothing buffered and no share counted. *)
Theorem HandleUpdate_round `{C : Czmq} `{!CzmqLaws C} `{U : Updater} `{!UpdaterLaws U}
    (rs : list (Msg * (list Z * Z))) (m : Msg) (ws : list Z) (n : Z)
    (w : world) (s : Server) (slice i : Z) (p : Param) (base : Z) (vs : list Z) (total : Z)
    (Hw : world_ok w) (Hs : slice_ok w slice i p base vs) (He : entry_is w slice i total 0)
    (Hb : buffered s slice (length vs) [] [])
    (Hrs : Forall (update_req slice (length vs)) rs)
    (Hr : update_req slice (length vs) (m, (ws, n)))
    (Hsum : req_shares rs + n = total) (Hmax : total <= INT_MAX)
    (Hlv : INT_MIN <= local_version p + 1 <= INT_MAX) :
  let vs' := new_values (trgt_version m) (proto_ p) vs (f32s_mean (req_grads rs ++ [ws])) in
  exists w' s' ret, handle_updates (map fst rs ++ [m]) s w
      = Ok (w', s', replicate (length rs) [] ++ [ret]) /\
    world_ok w' /\ slice_ok w' slice i (set_local_version (local_version p + 1) p) base vs' /\
    entry_is w' slice i total 0 /\ buffered s' slice (length vs) [] [] /\ length vs' = length vs /\
    responses (map fst rs ++ [m]) ret vs' (trgt_val m) (local_version p + 1).
Proof. by apply (handle_updates_Ok rs m ws n slice i p base vs total w s 0 [] []). Qed.

(** ** Synchronisation *)

(** Writing one of two blobs whose memories are disjoint. *)
Lemma store_sep h b p vs b2 p2 vs2 ws :
  heap_ok h -> at_cpu h b p vs -> at_cpu h b2 p2 vs2 ->
  p + sizeof_float * capacity_ b <= p2 \/ p2 + sizeof_float * capacity_ b2 <= p ->
  length ws = length vs -> Forall is_f32 ws ->
  exists h', store h p (bytes_of_f32s ws) = Ok h' /\ heap_ok h' /\ at_cpu h' b p ws /\
    at_cpu h' b2 p2 vs2 /\ blobs h' = blobs h.
Proof.
  intros Hok Ha Ha2 Hd Hl Hf.
  assert (at_cpu h b p ([] ++ vs ++ [])) as Ha' by by rewrite app_nil_r.
  destruct (at_cpu_store h b p [] vs [] ws Hok Ha' Hl Hf)
    as (h' & E & Hok' & Hv & Hsm & Hbl & _ & _ & Hfr).
  simpl in E, Hv. rewrite app_nil_r in Hv. rewrite Z.add_0_r in E.
  exists h'. split_and!; try done. eapply at_cpu_frame; [done|by rewrite Hsm|].
  intros a Hr. apply peek_cell, Hfr. lia.
Qed.

Lemma f32s_sub_length a b : length a = length b -> length (f32s_sub a b) = length a.
Proof. intros H. unfold f32s_sub. rewrite length_zip_with. lia. Qed.

Section sync.
Context `{C : Czmq} `{!CzmqLaws C}.

(** The copy kept of a slice of another group, in memory apart from the values. *)
Record last_ok (s : Server) (w : world) (p : Param) (base : Z) (prev : list Z) : Prop := {
  lo_last : exists b last lp, data_blob p (hp w) = Ok b /\
    last_data_ s !! param_id p = Some last /\ at_cpu (hp w) last lp prev /\
    (base + sizeof_float * capacity_ b <= lp \/ lp + sizeof_float * capacity_ last <= base);
}.

(** A request to synchronise, with the bandwidth frame of the stub. *)
Definition sync_frames (tmp : list Z) (bandwidth : Z) : list (list Z) :=
  [bytes_of_f32s tmp; frame_of [(ch_i, AInt bandwidth)]].

Lemma sync_read msg tmp bw n :
  at_frame msg (sync_frames tmp bw) 0 -> n = Z.of_nat (length tmp) -> Forall is_f32 tmp ->
  FrameSize msg = Ok (n * sizeof_float) /\
  frame_bytes (n * sizeof_float) msg = Ok (bytes_of_f32s tmp) /\
  f32s_of_bytes (bytes_of_f32s tmp) = tmp.
Proof.
  intros Hm -> Hf.
  assert (Z.of_nat (length (bytes_of_f32s tmp)) = Z.of_nat (length tmp) * sizeof_float) as E
    by (rewrite length_bytes_of_f32s; unfold sizeof_float; lia).
  rewrite (FrameSize_Ok msg _ 0 _ Hm eq_refl), E. split; [done|].
  rewrite (frame_bytes_Ok msg _ 0 _ _ Hm eq_refl) by done.
  split; [done|by apply f32s_of_bytes_of_f32s].
Qed.

Lemma param_at_frame h h' p base vs b :
  data_blob p h = Ok b -> param_at h p base vs -> blobs h' = blobs h -> forall vs',
  at_cpu h' b base vs' -> param_at h' p base vs'.
Proof.
  intros Eb (i & b' & Hi & Hb & _) Hbl vs' Ha. exists i, b'. unfold data_blob in Eb.
  rewrite Hi, deref_Some, bind_Ok, Hb in Eb. injection Eb as ->.
  rewrite Hbl. by split_and!.
Qed.

(** The slice is mastered by another group: what [cur] and [prev] become. *)
Lemma sync_other msg s w i p base cur prev tmp bw g :
  world_ok w -> slice_param (SliceID (trgt_val msg)) w = Ok (i, p) ->
  param_at (hp w) p base cur -> last_ok s w p base prev ->
  at_frame msg (sync_frames tmp bw) 0 -> length tmp = length cur -> length prev = length cur ->
  Forall is_f32 tmp -> INT_MIN <= bw <= INT_MAX ->
  idx (slice2group_ s) (SliceID (trgt_val msg)) = Ok g -> g <> grp_id_ s ->
  let diff := f32s_sub cur prev in
  exists w' r, HandleSyncRequest msg s w = Ok (w', r) /\ world_ok w' /\ params w' = params w /\
    (if 0 <? bw then
       (exists response v, r = Some response /\ type response = kSyncRequest /\
          src response = dst msg /\ dst response = src msg /\ trgt_val response = param_id p /\
          version p (hp w) = Ok v /\ trgt_version response = v /\
          has_frames response [bytes_of_f32s diff]) /\
       param_at (hp w') p base (f32s_add diff tmp) /\ last_ok s w' p base (f32s_add diff tmp)
     else r = None /\ param_at (hp w') p base (f32s_add tmp diff) /\ last_ok s w' p base tmp).
Proof.
  intros [Hok Hps] Hsl Hp [(b & last & lp & Eb & Hlast & Hal & Hdis)] Hm Hl Hlp Hf Hbw Hg Hne diff.
  destruct (sync_read msg tmp bw (Z.of_nat (length cur)) Hm ltac:(lia) Hf) as (Efs & Efb & Ef).
  destruct (param_at_ptr _ _ _ _ Hp) as (_ & Eptr & Esz).
  destruct (param_at_blob _ _ _ _ Hp) as (b' & Eb' & Ha). assert (b' = b) as -> by congruence.
  unfold HandleSyncRequest, set_tensor. rewrite Hsl, bind_Ok, Esz, bind_Ok, Efs, bind_Ok, Z.eqb_refl.
  simpl CHECK. rewrite bind_Ok, Efb, bind_Ok, Ef, Eptr, bind_Ok.
  rewrite (tensor_Ok _ _ _ _ _ Ha eq_refl), bind_Ok, Hg, bind_Ok.
  destruct (Z.eqb_spec g (grp_id_ s)); [done|]. rewrite Hlast, deref_Some, bind_Ok.
  destruct (at_cpu_data _ _ _ _ Hal) as [_ ->]. rewrite bind_Ok.
  rewrite (tensor_Ok _ _ _ _ (Z.of_nat (length cur)) Hal), bind_Ok by congruence. fold diff.
  destruct (NextFrame_Ok msg _ 0 Hm) as (m1 & E1 & Hm1 & (Hsrc & Hdst & _)); [simpl; lia|].
  rewrite E1, bind_Ok, (parse_int_Ok m1 _ 1 bw [] Hm1 eq_refl Hbw), bind_Ok.
  assert (length diff = length cur) as Hld by by apply f32s_sub_length.
  assert (length (f32s_add diff tmp) = length cur) as Hla by by apply length_f32s_add.
  assert (length (f32s_add tmp diff) = length cur) as Hla2 by by apply length_f32s_add.
  destruct (0 <? bw).
  - assert (exists v, version p (hp w) = Ok v) as [v Ev].
    { unfold version. rewrite Eb, bind_Ok. eauto. }
    rewrite Ev, bind_Ok.
    edestruct (AddFrame_Ok (set_trgt (param_id p) v (set_type kSyncRequest (Msg_make (dst m1) (src m1))))
      [] (bytes_of_f32s diff)) as (resp & Er & Hrf & (Hr1 & Hr2 & Hr3 & Hr4 & Hr5));
      [apply Msg_new_frames|].
    rewrite Er, bind_Ok.
    destruct (store_sep (hp w) last lp prev b base cur (f32s_add diff tmp) Hok Hal Ha)
      as (h1 & Es1 & Hok1 & Hal1 & Ha1 & Hbl1); [lia|congruence|auto with singa|].
    rewrite Es1, bind_Ok.
    rewrite (tensor_Ok _ _ _ _ (Z.of_nat (length cur)) Hal1), bind_Ok by by rewrite Hla.
    destruct (store_sep h1 b base cur last lp (f32s_add diff tmp) (f32s_add diff tmp) Hok1 Ha1 Hal1)
      as (h2 & Es2 & Hok2 & Ha2 & Hal2 & Hbl2); [lia|congruence|auto with singa|].
    rewrite Es2, bind_Ok. eexists _, _. split; [done|].
    split; [by constructor|]. split; [done|]. split; [|split].
    + exists resp, v. rewrite Hr1, Hr2, Hr3, Hr4, Hr5. simpl. by rewrite Hsrc, Hdst.
    + eapply (param_at_frame (hp w)); [done|done| |done]. simpl. congruence.
    + constructor. exists b, last, lp. split; [|done]. unfold data_blob in *. simpl.
      by rewrite Hbl2, Hbl1.
  - destruct (store_sep (hp w) last lp prev b base cur tmp Hok Hal Ha)
      as (h1 & Es1 & Hok1 & Hal1 & Ha1 & Hbl1); [lia|congruence|done|].
    rewrite Es1, bind_Ok.
    destruct (store_sep h1 b base cur last lp tmp (f32s_add tmp diff) Hok1 Ha1 Hal1)
      as (h2 & Es2 & Hok2 & Ha2 & Hal2 & Hbl2); [lia|congruence|auto with singa|].
    rewrite Es2, bind_Ok. eexists _, _. split; [done|].
    split; [by constructor|]. split; [done|]. split; [done|]. split.
    + eapply (param_at_frame (hp w)); [done|done| |done]. simpl. congruence.
    + constructor. exists b, last, lp. split; [|done]. unfold data_blob in *. simpl.
      by rewrite Hbl2, Hbl1.
Qed.
End sync.

(** Synchronisation of a slice: the group that masters it adds what it
    receives to its values and counts a version; another group takes the master's
    values plus what it has changed itself since the last synchronisation: with
    bandwidth left, it sends that difference back and remembers the sum; without,
    it remembers the master's values, so that the difference is sent next time. *)
Theorem HandleSyncRequest_spec `{C : Czmq} `{!CzmqLaws C} (msg : Msg) (s : Server) (w : world)
    (i : Z) (p : Param) (base : Z) (cur prev tmp : list Z) (bw g : Z)
    (Hw : world_ok w) (Hsl : slice_param (SliceID (trgt_val msg)) w = Ok (i, p))
    (Hp : param_at (hp w) p base cur) (Hlast : last_ok s w p base prev)
    (Hm : at_frame msg (sync_frames tmp bw) 0) (Hl : length tmp = length cur)
    (Hlp : length prev = length cur) (Hf : Forall is_f32 tmp) (Hbw : INT_MIN <= bw <= INT_MAX)
    (Hg : idx (slice2group_ s) (SliceID (trgt_val msg)) = Ok g)
    (Hlv : INT_MIN <= local_version p + 1 <= INT_MAX) :
  let diff := f32s_sub cur prev in
  exists w' r, HandleSyncRequest msg s w = Ok (w', r) /\
    (if g =? grp_id_ s then
       r = None /\ param_at (hp w') p base (f32s_add cur tmp) /\
       params w' !! i = Some (set_local_version (local_version p + 1) p)
     else if 0 <? bw then
       (exists response, r = Some response /\ type response = kSyncRequest /\
          src response = dst msg /\ dst response = src msg /\ trgt_val response = param_id p /\
          has_frames response [bytes_of_f32s diff]) /\
       param_at (hp w') p base (f32s_add diff tmp) /\ last_ok s w' p base (f32s_add diff tmp)
     else r = None /\ param_at (hp w') p base (f32s_add tmp diff) /\ last_ok s w' p base tmp).
Proof.
  intros diff. destruct (Z.eqb_spec g (grp_id_ s)) as [->|Hne].
  - destruct (sync_read msg tmp bw (Z.of_nat (length cur)) Hm ltac:(lia) Hf) as (Efs & Efb & Ef).
    destruct (param_at_ptr _ _ _ _ Hp) as (_ & Eptr & Esz). pose proof Hw as [Hok _].
    destruct (param_at_blob _ _ _ _ Hp) as (b & Eb & Ha).
    unfold HandleSyncRequest, set_tensor. rewrite Hsl, bind_Ok, Esz, bind_Ok, Efs, bind_Ok, Z.eqb_refl.
    simpl CHECK. rewrite bind_Ok, Efb, bind_Ok, Ef, Eptr, bind_Ok.
    rewrite (tensor_Ok _ _ _ _ _ Ha eq_refl), bind_Ok, Hg, bind_Ok, Z.eqb_refl.
    assert (at_cpu (hp w) b base ([] ++ cur ++ [])) as Ha' by by rewrite app_nil_r.
    destruct (at_cpu_store (hp w) b base [] cur [] (f32s_add cur tmp) Hok Ha')
      as (h1 & E1 & _ & Ha1 & _ & Hbl1 & _); [by apply length_f32s_add|auto with singa|].
    simpl in E1, Ha1. rewrite app_nil_r in Ha1. rewrite Z.add_0_r in E1.
    rewrite E1, bind_Ok, int_ret_Ok, bind_Ok by done. eexists _, _. split; [done|].
    split; [done|]. split; [|simpl; by rewrite lookup_insert_eq].
    by eapply (param_at_frame (hp w)).
  - destruct (sync_other msg s w i p base cur prev tmp bw g Hw Hsl Hp Hlast Hm Hl Hlp Hf Hbw Hg Hne)
      as (w' & r & E & _ & _ & H).
    exists w', r. split; [done|]. destruct (0 <? bw); [|done].
    destruct H as ((resp & v & ? & ? & ? & ? & ? & _ & _ & ?) & ? & ?).
    split; [|done]. exists resp. by split_and!.
Qed.

(** ** Witnesses *)
#[local] Existing Instances ListCzmq.czmq ListCzmq.czmq_laws demo_libm.
#[local] Instance demo_sgd : Updater := SGD_updater demo_updater.
#[local] Instance demo_sgd_laws : UpdaterLaws demo_sgd.
Proof. apply SGD_laws; [done|]. by exists 0. Defined.

Definition demo_msg (ty trgt ver : Z) (fs : list (list Z)) : Msg :=
  mkMsg 3 5 ty trgt ver (Some (ListCzmq.Build_t fs (Some 0%nat))) (Some 0%nat).
Definition demo_server : Server := Server_Setup [0; 1] (Server_make 1 0 0).
Definition demo_world : world :=
  mkWorld demo_sheap {[7 := demo_sparam]} 8 {[0 := mkEntry 0 None None 3 [7]]}.

Lemma demo_msg_at ty trgt ver f fs : at_frame (demo_msg ty trgt ver (f :: fs)) (f :: fs) 0.
Proof. by eexists. Qed.

Lemma demo_world_ok : world_ok demo_world.
Proof.
  constructor; [apply demo_sheap_ok|]. intros i p. simpl. rewrite lookup_singleton_Some. lia.
Qed.

Lemma demo_slice_ok : slice_ok demo_world 0 7 demo_sparam 1 demo_floats.
Proof.
  constructor; [by eexists|done|apply demo_sparam_at|apply demo_sparam_apart|done|done].
Qed.

Lemma demo_floats_f32 : Forall is_f32 demo_floats.
Proof. repeat constructor; vm_compute; done. Qed.

Lemma HandlePut_spec_witness :
  exists w', HandlePut 1 (demo_msg kPut 1 4 (put_frames demo_floats f32_one f32_one 2)) demo_server
    demo_world = Ok (w', demo_server, None) /\
    shard w' !! 1 = Some (ParamEntry_make 2 8).
Proof.
  destruct (HandlePut_spec 1 (demo_msg kPut 1 4 (put_frames demo_floats f32_one f32_one 2))
    demo_server demo_world demo_floats f32_one f32_one 2 demo_world_ok) as [H _].
  - apply demo_msg_at.
  - apply demo_floats_f32.
  - done.
  - by vm_compute.
  - by vm_compute.
  - by vm_compute.
  - by vm_compute.
  - left. lia.
  - destruct H as (w' & p & base & E & _ & _ & Hs & _); [reflexivity|].
    exists w'. split; [done|]. rewrite Hs. by apply lookup_insert_eq.
Defined.

Lemma HandleGet_spec_witness :
  HandleGet (demo_msg kGet 0 9 [get_frame 1 64]) demo_world
    = Ok (demo_world, Some (demo_msg kGet 0 9 [get_frame 1 64])).
Proof.
  destruct (HandleGet_spec (demo_msg kGet 0 9 [get_frame 1 64]) demo_world 7 demo_sparam 1
    demo_floats 0 64) as [H _]; [apply demo_slice_ok|done|apply demo_msg_at|lia|].
  apply H. simpl. lia.
Defined.

Definition demo_req (n : Z) : Msg := demo_msg kUpdate 0 0 (update_frames demo_floats n).

Lemma demo_req_ok n : 0 < n <= INT_MAX -> update_req 0 2 (demo_req n, (demo_floats, n)).
Proof. intros Hn. split; [apply demo_msg_at|]. split; [done|]. split; [done|]. split; [done|apply demo_floats_f32]. Qed.

Lemma HandleUpdate_round_witness :
  exists w' s' ret, handle_updates [demo_req 2; demo_req 1] demo_server demo_world
    = Ok (w', s', [[]; ret]) /\ length ret = 2%nat.
Proof.
  destruct (HandleUpdate_round [(demo_req 2, (demo_floats, 2))] (demo_req 1) demo_floats 1
    demo_world demo_server 0 7 demo_sparam 1 demo_floats 3 demo_world_ok demo_slice_ok)
    as (w' & s' & ret & E & _ & _ & _ & _ & _ & Hr).
  - eexists. by split_and!.
  - by constructor.
  - constructor; [|done]. apply (demo_req_ok 2). by vm_compute.
  - apply (demo_req_ok 1). by vm_compute.
  - done.
  - by vm_compute.
  - by vm_compute.
  - exists w', s', ret. split; [done|]. by rewrite <- (Forall2_length Hr).
Defined.

Definition demo_sync_world : world :=
  mkWorld demo_rheap {[7 := demo_sparam]} 8 {[0 := mkEntry 0 None None 3 [7]]}.
Definition demo_sync_server (grp : Z) : Server :=
  set_last 0 (mkBlob (Some 2) [2] 2 2 0) (Server_Setup [0; 1] (Server_make 1 grp 0)).

Lemma HandleSyncRequest_spec_witness :
  exists w' r, HandleSyncRequest
      (demo_msg kSyncRequest 0 0 (sync_frames demo_floats 10)) (demo_sync_server 1) demo_sync_world
    = Ok (w', Some r) /\ has_frames r [bytes_of_f32s [0; 0]].
Proof.
  destruct (HandleSyncRequest_spec
    (demo_msg kSyncRequest 0 0 (sync_frames demo_floats 10)) (demo_sync_server 1) demo_sync_world
    7 demo_sparam 1 demo_floats demo_floats demo_floats 10 0)
    as (w' & r & E & (resp & -> & _ & _ & _ & _ & Hf) & _).
  - constructor; [apply demo_rheap_ok|]. intros i p. simpl. rewrite lookup_singleton_Some. lia.
  - done.
  - apply demo_rparam_at.
  - constructor. exists demo_blob, (mkBlob (Some 2) [2] 2 2 0), 10. split; [done|].
    split; [done|]. split; [by apply (demo_holds 2)|]. left. by vm_compute.
  - apply demo_msg_at.
  - done.
  - done.
  - apply demo_floats_f32.
  - by vm_compute.
  - done.
  - by vm_compute.
  - exists w', resp. split; [done|]. exact Hf.
Defined.
