(* ===== verification/Cluster.v ===== *)
(** * utils/cluster.h, utils/cluster.cc: the topology of a job

    Which process runs which worker and server.  [Cluster_make] is the constructor
    of [Cluster], without the folders, the runtime (ClusterRT) and the host address;
    [CreateServers] and [CreateWorkers] of trainer/trainer.cc, which must agree
    with it, are here as well.  The products of cluster sizes are taken in [Z]: a
    cluster whose sizes overflow an [int] is not considered. *)

From S2P Require Import Prelude Msg.

(** The fields of ClusterProto the placement depends on. *)
Record ClusterProto := mkClusterProto {
  nworker_groups : Z;
  nserver_groups : Z;
  nworkers_per_group : Z;
  nservers_per_group : Z;
  nworkers_per_procs : Z;
  nservers_per_procs : Z;
  server_worker_separate : bool;
}.

Definition nworker_procs (c : ClusterProto) : outcome Z :=
  idiv (nworker_groups c * nworkers_per_group c) (nworkers_per_procs c).
Definition nserver_procs (c : ClusterProto) : outcome Z :=
  idiv (nserver_groups c * nservers_per_group c) (nservers_per_procs c).
Definition nworker_groups_per_server_group (c : ClusterProto) : outcome Z :=
  if (nserver_groups c =? 0) || (nservers_per_group c =? 0) then Ok 1
  else idiv (nworker_groups c) (nserver_groups c).

Definition Hash (c : ClusterProto) (gid id flag : Z) : Z :=
  if flag =? entity_num kServer then
    (flag * nserver_groups c + gid) * nservers_per_group c + id
  else (flag * nworker_groups c + gid) * nworkers_per_group c + id.

(** The iterations of the two nested loops, in order. *)
Definition members (ngrps grp_size : Z) : list (Z * Z) :=
  concat (map (fun i => map (fun j => (Z.of_nat i, Z.of_nat j)) (seq 0 (Z.to_nat grp_size)))
            (seq 0 (Z.to_nat ngrps))).

(** The loops over the workers: [procs] keeps the value of the last iteration. *)
Fixpoint place_workers (c : ClusterProto) (ms : list (Z * Z)) (ids : gmap Z Z) (procs : Z)
    : outcome (gmap Z Z * Z) :=
  match ms with
  | [] => Ok (ids, procs)
  | (i, j) :: ms =>
      procs ← idiv (i * nworkers_per_group c + j) (nworkers_per_procs c);
      place_workers c ms
        (<[Hash c i j (entity_num kWorkerParam) := procs]>
           (<[Hash c i j (entity_num kWorkerLayer) := procs]> ids)) procs
  end.
Fixpoint place_servers (c : ClusterProto) (offset : Z) (ms : list (Z * Z)) (ids : gmap Z Z)
    : outcome (gmap Z Z) :=
  match ms with
  | [] => Ok ids
  | (i, j) :: ms =>
      procs ← idiv (i * nservers_per_group c + j) (nservers_per_procs c);
      place_servers c offset ms (<[Hash c i j (entity_num kServer) := procs + offset]> ids)
  end.

Record Cluster := mkCluster {
  cluster_ : ClusterProto;
  nprocs_ : Z;
  procs_ids_ : gmap Z Z;
}.

Definition Cluster_make (c : ClusterProto) : outcome Cluster :=
  nw ← nworker_procs c;
  ns ← nserver_procs c;
  '(ids, procs) ← place_workers c (members (nworker_groups c) (nworkers_per_group c)) ∅ 0;
  ids ← place_servers c (if server_worker_separate c then procs + 1 else 0)
          (members (nserver_groups c) (nservers_per_group c)) ids;
  Ok (mkCluster c (if server_worker_separate c then nw + ns else Z.max nw ns) ids).

Definition ProcsIDOf (cl : Cluster) (group_id id flag : Z) : outcome Z :=
  map_at (procs_ids_ cl !! Hash (cluster_ cl) group_id id flag).

(** [Register]: the id the runtime gives this process ([procs_id_] from then on). *)
Definition Register_procs (cl : Cluster) (procs_id : Z) : outcome Z :=
  _ ← CHECK (0 <=? procs_id);
  _ ← CHECK (procs_id <? nprocs_ cl);
  Ok procs_id.

Definition has_server (cl : Cluster) (procs_id : Z) : outcome bool :=
  if server_worker_separate (cluster_ cl) then
    _ ← CHECK (procs_id <? nprocs_ cl);
    nw ← nworker_procs (cluster_ cl);
    Ok (nw <=? procs_id)
  else
    ns ← nserver_procs (cluster_ cl);
    Ok (procs_id <? ns).
Definition has_worker (cl : Cluster) (procs_id : Z) : outcome bool :=
  nw ← nworker_procs (cluster_ cl);
  Ok (procs_id <? nw).

(** ** trainer/trainer.cc: the servers and workers of a process *)

(** [start, ..., end - 1] *)
Definition range (first last : Z) : list Z :=
  map (fun k => first + Z.of_nat k) (seq 0 (Z.to_nat (last - first))).

(** The group and server ids of the new servers (thread ids are consecutive). *)
Definition CreateServers (cl : Cluster) (procs_id : Z) : outcome (list (Z * Z)) :=
  let c := cluster_ cl in
  has ← has_server cl procs_id;
  if negb has then Ok []
  else
    nw ← nworker_procs c;
    let pid := if server_worker_separate c then procs_id - nw else procs_id in
    let procs_size := nservers_per_procs c in
    let grp_size := nservers_per_group c in
    gid ← idiv (pid * procs_size) grp_size;
    start ← imod (pid * procs_size) grp_size;
    Ok (map (fun sid => (gid, sid)) (range start (start + procs_size))).

Definition CreateWorkers (cl : Cluster) (procs_id : Z) : outcome (list (Z * Z)) :=
  let c := cluster_ cl in
  has ← has_worker cl procs_id;
  if negb has then Ok []
  else
    let grp_size := nworkers_per_group c in
    let procs_size := nworkers_per_procs c in
    '(gstart, gend, wstart, wend) ←
      (if procs_size <=? grp_size then
         gstart ← idiv (procs_id * procs_size) grp_size;
         wstart ← imod (procs_id * procs_size) grp_size;
         Ok (gstart, gstart + 1, wstart, wstart + procs_size)
       else
         r ← imod procs_size grp_size;
         _ ← CHECK (r =? 0);
         groups_per_procs ← idiv procs_size grp_size;
         Ok (procs_id * groups_per_procs, (procs_id + 1) * groups_per_procs, 0, grp_size));
    Ok (concat (map (fun gid => map (fun wid => (gid, wid)) (range wstart wend))
                  (range gstart gend))).
