(* ===== verification/ClusterProps.v ===== *)
(** * Properties of the topology

    Servers are always found where they are placed; workers are, unless the keys
    of the servers overwrite theirs; the processes create exactly the workers (and,
    for groups no smaller than a process's share, the servers) placed on them. *)

From S2P Require Import Prelude Msg Cluster.

Record cluster_ok (c : ClusterProto) : Prop := {
  co_wg : 0 <= nworker_groups c;
  co_sg : 0 <= nserver_groups c;
  co_wpg : 0 < nworkers_per_group c;
  co_spg : 0 < nservers_per_group c;
  co_wpp : 0 < nworkers_per_procs c;
  co_spp : 0 < nservers_per_procs c;
}.
Definition nworkers (c : ClusterProto) : Z := nworker_groups c * nworkers_per_group c.
Definition nservers (c : ClusterProto) : Z := nserver_groups c * nservers_per_group c.


(** ** The loops *)

Lemma elem_of_members n m i j :
  (i, j) ∈ members n m <-> 0 <= i < n /\ 0 <= j < m.
Proof.
  unfold members. rewrite list_elem_of_In, in_concat. split.
  - intros (l & Hl & Hij). apply in_map_iff in Hl as (a & <- & Ha).
    apply in_map_iff in Hij as (b & [= <- <-] & Hb). apply in_seq in Ha, Hb. lia.
  - intros [Hi Hj].
    exists (map (fun j => (i, Z.of_nat j)) (seq 0 (Z.to_nat m))). split.
    + apply in_map_iff. exists (Z.to_nat i). rewrite Z2Nat.id by lia. split; [done|].
      apply in_seq. lia.
    + apply in_map_iff. exists (Z.to_nat j). rewrite Z2Nat.id by lia. split; [done|].
      apply in_seq. lia.
Qed.

(** The position of a member in its cluster. *)
Definition flat (m : Z) (ij : Z * Z) : Z := ij.1 * m + ij.2.

Lemma flat_members n m k :
  0 < m -> (exists ij, ij ∈ members n m /\ flat m ij = k) <-> 0 <= k < n * m.
Proof.
  intros Hm. split.
  - intros ([i j] & Hij & <-). apply elem_of_members in Hij. unfold flat. simpl. nia.
  - intros Hk. exists (k / m, k mod m). rewrite elem_of_members. unfold flat. simpl.
    pose proof (Z.mod_pos_bound k m Hm). pose proof (Z.div_mod k m).
    split; [|lia]. split; [|done]. split; [apply Z.div_pos; lia|].
    apply Z.div_lt_upper_bound; lia.
Qed.

Lemma place_servers_Ok c offset ms ids :
  cluster_ok c -> Forall (fun ij => 0 <= flat (nservers_per_group c) ij) ms ->
  exists ids', place_servers c offset ms ids = Ok ids' /\
    forall k, ids' !! k =
      if decide (k - 2 * nservers c ∈ map (flat (nservers_per_group c)) ms)
      then Some ((k - 2 * nservers c) / nservers_per_procs c + offset) else ids !! k.
Proof.
  intros Hc Hms. revert ids. induction Hms as [|[i j] ms Hij Hms IH]; intros ids.
  { exists ids. split; [done|]. intros k. rewrite decide_False; [done|]. by intros ?%elem_of_nil. }
  cbn [place_servers]. unfold flat in Hij. simpl in Hij.
  rewrite idiv_Ok by (apply Hij || apply Hc). rewrite bind_Ok.
  set (pos := i * nservers_per_group c + j) in *.
  assert (Hash c i j (entity_num kServer) = 2 * nservers c + pos) as ->.
  { unfold Hash, nservers, pos. simpl. lia. }
  destruct (IH (<[2 * nservers c + pos := pos / nservers_per_procs c + offset]> ids))
    as (ids' & E & H).
  exists ids'. split; [done|]. intros k. rewrite H. cbn [map]. change (flat (nservers_per_group c) (i, j)) with pos.
  destruct (decide (k - 2 * nservers c ∈ map _ ms)) as [Hin|Hnin].
  { by rewrite decide_True by by right. }
  destruct (decide (2 * nservers c + pos = k)) as [<-|Hk].
  - rewrite lookup_insert_eq, decide_True by (apply elem_of_cons; left; lia). do 2 f_equal. f_equal. lia.
  - rewrite lookup_insert_ne by done. rewrite decide_False; [done|].
    rewrite elem_of_cons. intros [?|?]; [lia|done].
Qed.

Lemma place_workers_Ok c ms ids procs :
  cluster_ok c ->
  Forall (fun ij => 0 <= flat (nworkers_per_group c) ij < nworkers c) ms ->
  exists ids' procs', place_workers c ms ids procs = Ok (ids', procs') /\
    (forall k, ids' !! k =
      if decide (k ∈ map (flat (nworkers_per_group c)) ms) then Some (k / nworkers_per_procs c)
      else if decide (k - nworkers c ∈ map (flat (nworkers_per_group c)) ms)
      then Some ((k - nworkers c) / nworkers_per_procs c) else ids !! k) /\
    procs' = match list.last ms with
             | Some ij => flat (nworkers_per_group c) ij / nworkers_per_procs c
             | None => procs end.
Proof.
  intros Hc Hms. revert ids procs. induction Hms as [|[i j] ms Hij Hms IH]; intros ids procs.
  { exists ids, procs. split; [done|]. split; [|done].
    intros k. rewrite !decide_False; [done|by intros ?%elem_of_nil..]. }
  cbn [place_workers]. unfold flat in Hij. simpl in Hij.
  rewrite idiv_Ok by (apply Hij || apply Hc). rewrite bind_Ok.
  set (pos := i * nworkers_per_group c + j) in *.
  assert (Hash c i j (entity_num kWorkerParam) = pos) as -> by (unfold Hash, pos; simpl; lia).
  assert (Hash c i j (entity_num kWorkerLayer) = nworkers c + pos) as ->
    by (unfold Hash, nworkers, pos; simpl; lia).
  set (v := pos / nworkers_per_procs c).
  destruct (IH (<[pos := v]> (<[nworkers c + pos := v]> ids)) v) as (ids' & procs' & E & H & Hl).
  exists ids', procs'. split; [done|]. split; [|rewrite Hl, last_cons; by destruct (list.last ms)].
  assert (forall x, x ∈ map (flat (nworkers_per_group c)) ms -> 0 <= x < nworkers c) as Hr.
  { intros x (y & -> & Hy)%list_elem_of_fmap. by apply (proj1 (list.Forall_forall _ _) Hms). }
  intros k. rewrite H. cbn [map]. change (flat (nworkers_per_group c) (i, j)) with pos.
  destruct (decide (k ∈ map _ ms)) as [Hin|Hnin]; [by rewrite decide_True by by right|].
  destruct (decide (pos = k)) as [<-|Hk].
  - rewrite (decide_False (P := pos - nworkers c ∈ _)) by (intros Hx%Hr; lia).
    rewrite lookup_insert_eq, decide_True by by left. done.
  - rewrite (decide_False (P := k ∈ pos :: _)) by (rewrite elem_of_cons; intros [?|?]; [lia|done]).
    destruct (decide (k - nworkers c ∈ map _ ms)) as [Hin2|Hnin2].
    { by rewrite decide_True by by right. }
    rewrite lookup_insert_ne by done. destruct (decide (nworkers c + pos = k)) as [<-|Hk2].
    + rewrite lookup_insert_eq, decide_True by (apply elem_of_cons; left; lia). unfold v. do 2 f_equal. lia.
    + rewrite lookup_insert_ne by done. rewrite decide_False; [done|].
      rewrite elem_of_cons. intros [?|?]; [lia|done].
Qed.

Lemma last_members n m :
  0 < n -> 0 < m -> list.last (members n m) = Some (n - 1, m - 1).
Proof.
  intros Hn Hm. unfold members.
  destruct (Z.to_nat n) as [|k] eqn:En; [lia|]. destruct (Z.to_nat m) as [|l] eqn:Em; [lia|].
  rewrite (seq_S k), map_app, concat_app. cbn [map concat]. rewrite app_nil_r, (seq_S l), map_app.
  cbn [map]. rewrite !Nat.add_0_l, app_assoc, last_snoc. f_equal. f_equal; lia.
Qed.

(** The number of the first process of the servers. *)
Definition server_offset (c : ClusterProto) : Z :=
  if server_worker_separate c then
    (if 0 <? nworkers c then (nworkers c - 1) / nworkers_per_procs c else 0) + 1
  else 0.

Lemma members_flat_in n m k :
  0 < m -> bool_decide (k ∈ map (flat m) (members n m)) = (0 <=? k) && (k <? n * m).
Proof.
  intros Hm. apply eq_true_iff_eq. rewrite bool_decide_eq_true, andb_true_iff, Z.leb_le, Z.ltb_lt.
  rewrite <- (flat_members n m k Hm), list_elem_of_fmap. split; intros (x & ? & ?); by exists x.
Qed.

Lemma place_members n m : 0 < m -> Forall (fun ij => 0 <= flat m ij < n * m) (members n m).
Proof. intros Hm. apply list.Forall_forall. intros ij Hij. apply (flat_members n m); eauto. Qed.

(** The map the constructor builds. *)
Lemma Cluster_make_Ok c :
  cluster_ok c ->
  exists cl, Cluster_make c = Ok cl /\ cluster_ cl = c /\
    nprocs_ cl = (let nw := nworkers c / nworkers_per_procs c in
                  let ns := nservers c / nservers_per_procs c in
                  if server_worker_separate c then nw + ns else Z.max nw ns) /\
    forall k, procs_ids_ cl !! k =
      if (2 * nservers c <=? k) && (k <? 3 * nservers c)
      then Some ((k - 2 * nservers c) / nservers_per_procs c + server_offset c)
      else if (0 <=? k) && (k <? nworkers c) then Some (k / nworkers_per_procs c)
      else if (nworkers c <=? k) && (k <? 2 * nworkers c)
      then Some ((k - nworkers c) / nworkers_per_procs c) else None.
Proof.
  intros Hc. pose proof Hc as [H1 H2 H3 H4 H5 H6]. unfold Cluster_make, nworker_procs, nserver_procs.
  fold (nworkers c) (nservers c).
  assert (0 <= nworkers c /\ 0 <= nservers c) as [Hw Hs] by (unfold nworkers, nservers; nia).
  rewrite !idiv_Ok, !bind_Ok by done.
  destruct (place_workers_Ok c (members (nworker_groups c) (nworkers_per_group c)) ∅ 0 Hc)
    as (ids & procs & E1 & Hids & Hprocs); [by apply place_members|].
  rewrite E1, bind_Ok.
  set (offset := if server_worker_separate c then procs + 1 else 0).
  assert (offset = server_offset c) as Hoff.
  { unfold offset, server_offset. destruct (server_worker_separate c); [|done]. f_equal.
    rewrite Hprocs. destruct (Z.ltb_spec 0 (nworkers c)) as [Hp|Hp].
    - rewrite last_members by (unfold nworkers in *; nia). unfold flat. simpl. f_equal.
      unfold nworkers. lia.
    - assert (nworker_groups c = 0) as E0 by (unfold nworkers in *; nia).
      unfold members. rewrite E0. done. }
  destruct (place_servers_Ok c offset (members (nserver_groups c) (nservers_per_group c)) ids Hc)
    as (ids' & E2 & Hids').
  { eapply Forall_impl; [|by apply place_members]. simpl. lia. }
  rewrite E2, bind_Ok. eexists. split; [done|]. split; [done|]. split; [done|].
  intros k. simpl. rewrite Hids', Hids, Hoff.
  rewrite !decide_bool_decide, !members_flat_in by done.
  fold (nworkers c) (nservers c). rewrite lookup_empty.
  repeat match goal with |- context [if ?b then _ else _] => destruct b eqn:? end; try done;
    rewrite ?andb_true_iff, ?andb_false_iff, ?Z.leb_le, ?Z.leb_gt, ?Z.ltb_lt, ?Z.ltb_ge in *; lia.
Qed.

(** Placement: a server is looked up at the process that holds its position
    among all the servers, after the worker processes when they are separate.  A
    worker is looked up at the process that holds its position among the workers,
    except that the keys of the servers run into those of the workers: with [S]
    servers, the workers at positions [2*S] to [3*S - 1] are looked up where a
    server is. *)
Theorem ProcsIDOf_spec (c : ClusterProto) (Hc : cluster_ok c) :
  exists cl, Cluster_make c = Ok cl /\
    (forall g id, 0 <= g < nserver_groups c -> 0 <= id < nservers_per_group c ->
       ProcsIDOf cl g id (entity_num kServer)
         = Ok ((g * nservers_per_group c + id) / nservers_per_procs c + server_offset c)) /\
    (forall g id, 0 <= g < nworker_groups c -> 0 <= id < nworkers_per_group c ->
       let k := g * nworkers_per_group c + id in
       ProcsIDOf cl g id (entity_num kWorkerParam)
         = Ok (if (2 * nservers c <=? k) && (k <? 3 * nservers c)
               then (k - 2 * nservers c) / nservers_per_procs c + server_offset c
               else k / nworkers_per_procs c)).
Proof.
  destruct (Cluster_make_Ok c Hc) as (cl & E & Ec & _ & H). exists cl. split; [done|].
  pose proof Hc as [H1 H2 H3 H4 H5 H6]. unfold ProcsIDOf. rewrite Ec. split.
  - intros g id Hg Hid. rewrite H. unfold Hash. cbn [entity_num Z.eqb Pos.eqb].
    assert (0 <= g * nservers_per_group c + id < nservers c) by (unfold nservers; nia).
    replace ((2 * nserver_groups c + g) * nservers_per_group c + id)
      with (2 * nservers c + (g * nservers_per_group c + id)) by (unfold nservers; lia).
    destruct (Z.leb_spec (2 * nservers c) (2 * nservers c + (g * nservers_per_group c + id))); [|lia].
    destruct (Z.ltb_spec (2 * nservers c + (g * nservers_per_group c + id)) (3 * nservers c)); [|lia].
    simpl. do 2 f_equal. f_equal. lia.
  - intros g id Hg Hid. set (k := g * nworkers_per_group c + id). rewrite H. unfold Hash. cbn [entity_num Z.eqb].
    assert (0 <= k < nworkers c) by (unfold nworkers, k; nia).
    replace ((0 * nworker_groups c + g) * nworkers_per_group c + id) with k by (unfold k; lia).
    destruct (_ && (k <? 3 * nservers c)); [done|].
    destruct (Z.leb_spec 0 k); [|lia]. destruct (Z.ltb_spec k (nworkers c)); [|lia]. done.
Qed.

Definition demo_cluster : ClusterProto := mkClusterProto 1 1 3 1 1 1 false.
Lemma demo_cluster_ok : cluster_ok demo_cluster.
Proof. constructor; simpl; lia. Qed.

(** The third worker of three, with one server, is looked up at process 0. *)
Lemma ProcsIDOf_spec_witness :
  exists cl, Cluster_make demo_cluster = Ok cl /\ ProcsIDOf cl 0 2 (entity_num kWorkerParam) = Ok 0 /\
    ProcsIDOf cl 0 1 (entity_num kWorkerParam) = Ok 1.
Proof.
  destruct (ProcsIDOf_spec demo_cluster demo_cluster_ok) as (cl & E & _ & H).
  exists cl. split; [done|]. split; apply H; simpl; lia.
Defined.

(** ** The members a process creates *)

Lemma elem_of_range a b x : x ∈ range a b <-> a <= x < b.
Proof.
  unfold range. rewrite list_elem_of_fmap. split.
  - intros (k & -> & Hk). apply elem_of_seq in Hk. lia.
  - intros H. exists (Z.to_nat (x - a)). split; [lia|]. apply elem_of_seq. lia.
Qed.

(** The block of [procs] consecutive positions from [p * procs], in groups of [grp]. *)
Lemma block_in_group p procs q g w :
  0 < procs -> 0 < q -> 0 <= p ->
  (g = p * procs / (q * procs) /\ p * procs mod (q * procs) <= w < p * procs mod (q * procs) + procs)
  <-> (0 <= w < q * procs /\ (g * (q * procs) + w) / procs = p).
Proof.
  intros Hp Hq Hp0. rewrite (Z.mul_comm p procs), (Z.mul_comm q procs).
  rewrite Z.div_mul_cancel_l, Z.mul_mod_distr_l by lia.
  pose proof (Z.mod_pos_bound p q Hq). pose proof (Z.div_mod p q).
  split.
  - intros [-> Hw]. split; [nia|]. symmetry.
    apply (Z.div_unique _ _ _ (w - procs * (p mod q))); [nia|]. nia.
  - intros [Hw Hd]. pose proof (Z.div_mod (g * (procs * q) + w) procs).
    pose proof (Z.mod_pos_bound (g * (procs * q) + w) procs Hp). rewrite Hd in *.
    assert (g = p / q) as ->.
    { apply (Z.div_unique _ _ _ (p - g * q)); [nia|lia]. }
    split; [done|]. nia.
Qed.

Lemma elem_of_block g w g1 g2 a b :
  (g, w) ∈ concat (map (fun gid => map (fun wid => (gid, wid)) (range a b)) (range g1 g2)) <->
  g1 <= g < g2 /\ a <= w < b.
Proof.
  rewrite list_elem_of_In, in_concat. setoid_rewrite in_map_iff. split.
  - intros (l & (gid & <- & Hg) & Hin). apply in_map_iff in Hin as (wid & [= -> ->] & Hw).
    apply list_elem_of_In, elem_of_range in Hg, Hw. done.
  - intros [Hg Hw]. exists (map (fun wid => (g, wid)) (range a b)). split.
    + exists g. split; [done|]. by apply list_elem_of_In, elem_of_range.
    + apply in_map_iff. exists w. split; [done|]. by apply list_elem_of_In, elem_of_range.
Qed.

(** Whole groups per process. *)
Lemma groups_in_block p grp q g w :
  0 < grp -> 0 < q ->
  (p * q <= g < (p + 1) * q /\ 0 <= w < grp) <->
  (0 <= w < grp /\ (g * grp + w) / (q * grp) = p).
Proof.
  intros Hg Hq. split.
  - intros [H1 H2]. split; [done|]. symmetry. apply (Z.div_unique _ _ _ (g * grp + w - q * grp * p)); nia.
  - intros [H1 H2]. split; [|done]. pose proof (Z.div_mod (g * grp + w) (q * grp)) as Hd.
    pose proof (Z.mod_pos_bound (g * grp + w) (q * grp)). rewrite H2 in Hd. nia.
Qed.

(** The group of a worker and the process of its position are in range together. *)
Lemma position_group g w grp size n ngrps p : 0 < size -> 0 <= p -> ngrps * grp = n * size ->
  0 <= w < grp -> (g * grp + w) / size = p -> 0 <= g /\ (p < n <-> g < ngrps).
Proof.
  intros Hs Hp Hn Hw Hd. pose proof (Z.div_mod (g * grp + w) size ltac:(lia)) as E.
  pose proof (Z.mod_pos_bound (g * grp + w) size Hs). rewrite Hd in E.
  assert (0 <= g) by nia. split; [done|]. split; intros; nia.
Qed.

(** The workers a process creates are those placed on it, when the processes
    divide the workers evenly and a group spans whole processes or a process
    whole groups: worker [w] of group [g] is created by exactly the process of its
    position. *)
Theorem CreateWorkers_spec (c : ClusterProto) (p : Z) (Hc : cluster_ok c) (Hp : 0 <= p)
    (Hdiv : (nworkers_per_procs c | nworkers c))
    (Hgrp : (nworkers_per_procs c | nworkers_per_group c) \/
            (nworkers_per_group c | nworkers_per_procs c)) :
  exists cl ws, Cluster_make c = Ok cl /\ CreateWorkers cl p = Ok ws /\
    forall g w, (g, w) ∈ ws <->
      0 <= g < nworker_groups c /\ 0 <= w < nworkers_per_group c /\
      (g * nworkers_per_group c + w) / nworkers_per_procs c = p.
Proof.
  destruct (Cluster_make_Ok c Hc) as (cl & E & Ec & _). exists cl.
  pose proof Hc as [H1 H2 H3 H4 H5 H6].
  assert (0 <= nworkers c) as Hw by (unfold nworkers; nia).
  unfold CreateWorkers, has_worker, nworker_procs. rewrite Ec. fold (nworkers c).
  rewrite (idiv_Ok (nworkers c)), !bind_Ok by done. destruct Hdiv as [n Hn].
  rewrite Hn, Z.div_mul by lia.
  assert (forall g w, 0 <= w < nworkers_per_group c -> (g * nworkers_per_group c + w) / nworkers_per_procs c = p ->
    0 <= g /\ (p < n <-> g < nworker_groups c)) as Hgrange.
  { intros g w Hw' Hd. by apply (position_group g w (nworkers_per_group c) (nworkers_per_procs c)). }
  destruct (Z.ltb_spec p n) as [Hpn|Hpn]; simpl negb; cbv iota.
  2: { exists []. split; [done|]. split; [done|]. intros g w. split; [by intros ?%elem_of_nil|].
       intros (Hg & Hw' & Hd). destruct (Hgrange g w Hw' Hd). lia. }
  destruct (Z.leb_spec (nworkers_per_procs c) (nworkers_per_group c)) as [Hle|Hgt].
  - assert (exists q, nworkers_per_group c = q * nworkers_per_procs c /\ 0 < q) as (q & Eq & Hq).
    { destruct Hgrp as [[q Eq]|[q Eq]]; [exists q; split; [done|nia]|]. exists 1. assert (q = 1) by nia. split; lia. }
    rewrite idiv_Ok, bind_Ok, imod_Ok, !bind_Ok by nia. eexists. split; [done|]. split; [done|].
    intros g w. rewrite elem_of_block.
    pose proof (block_in_group p (nworkers_per_procs c) q g w H5 Hq Hp) as Hb. rewrite <- Eq in Hb.
    split.
    + intros [? ?]. destruct Hb as [Hb _]. destruct Hb as [? ?]; [split; [lia|done]|].
      split; [|done]. destruct (Hgrange g w); [done..|]. lia.
    + intros (? & ? & ?). destruct Hb as [_ Hb]. destruct Hb as [? ?]; [done|]. split; [lia|done].
  - assert (exists q, nworkers_per_procs c = q * nworkers_per_group c /\ 0 < q) as (q & Eq & Hq).
    { destruct Hgrp as [[q Eq]|[q Eq]]; [|exists q; split; [done|nia]].
      exfalso. assert (1 <= q) by nia. nia. }
    rewrite imod_Ok, bind_Ok by lia. rewrite Eq, Z.mod_mul by lia. simpl CHECK.
    rewrite bind_Ok, idiv_Ok, !bind_Ok by nia. rewrite Z.div_mul by lia.
    eexists. split; [done|]. split; [done|]. intros g w. rewrite elem_of_block.
    rewrite (groups_in_block p (nworkers_per_group c) q g w) by done. rewrite <- Eq. split.
    + intros [? ?]. split; [|done]. destruct (Hgrange g w); [done..|]. lia.
    + by intros (_ & ? & ?).
Qed.

Lemma CreateWorkers_spec_witness :
  exists cl ws, Cluster_make (mkClusterProto 2 1 4 1 2 1 false) = Ok cl /\ CreateWorkers cl 3 = Ok ws /\
    (1, 2) ∈ ws /\ (1, 1) ∉ ws.
Proof.
  destruct (CreateWorkers_spec (mkClusterProto 2 1 4 1 2 1 false) 3) as (cl & ws & E1 & E2 & H).
  - constructor; simpl; lia.
  - lia.
  - exists 4. reflexivity.
  - left. exists 2. reflexivity.
  - exists cl, ws. split; [done|]. split; [done|]. split.
    + apply H. simpl. split; [lia|]. split; [lia|reflexivity].
    + intros (_ & _ & Hd)%H. by vm_compute in Hd.
Defined.


Lemma server_offset_even c :
  cluster_ok c ->
  (server_worker_separate c = true -> (nworkers_per_procs c | nworkers c) /\ 0 < nworkers c) ->
  server_offset c = if server_worker_separate c then nworkers c / nworkers_per_procs c else 0.
Proof.
  intros Hc Hsep. pose proof (co_wpp c Hc). unfold server_offset.
  destruct (server_worker_separate c); [|done].
  destruct (Hsep eq_refl) as [[n Hn] Hpos]. destruct (Z.ltb_spec 0 (nworkers c)); [|lia].
  rewrite Hn, Z.div_mul by lia. replace (n * nworkers_per_procs c - 1)
    with ((nworkers_per_procs c - 1) + (n - 1) * nworkers_per_procs c) by lia.
  rewrite Z.div_add, Z.div_small by lia. lia.
Qed.

(** Which processes have servers. *)
Lemma has_server_Ok cl p nw ns : nworker_procs (cluster_ cl) = Ok nw -> nserver_procs (cluster_ cl) = Ok ns ->
  nprocs_ cl = (if server_worker_separate (cluster_ cl) then nw + ns else Z.max nw ns) -> 0 <= p < nprocs_ cl ->
  has_server cl p = Ok (let pid := if server_worker_separate (cluster_ cl) then p - nw else p in (0 <=? pid) && (pid <? ns)).
Proof.
  intros Enw Ens En Hp. unfold has_server. rewrite Enw, Ens, !bind_Ok. rewrite En in *. cbv zeta.
  destruct (server_worker_separate (cluster_ cl)).
  - rewrite CHECK_holds, bind_Ok by lia. f_equal. apply eq_true_iff_eq. rewrite andb_true_iff, !Z.leb_le, Z.ltb_lt. lia.
  - f_equal. destruct (Z.leb_spec 0 p); [done|lia].
Qed.

(** The servers a process creates are those placed on it, when a group spans
    whole processes (and, with separate servers, the processes divide the workers
    evenly). *)
Theorem CreateServers_spec (c : ClusterProto) (p : Z) (Hc : cluster_ok c)
    (Hgrp : (nservers_per_procs c | nservers_per_group c))
    (Hsep : server_worker_separate c = true ->
            (nworkers_per_procs c | nworkers c) /\ 0 < nworkers c)
    (Hp : 0 <= p < (let nw := nworkers c / nworkers_per_procs c in
                    let ns := nservers c / nservers_per_procs c in
                    if server_worker_separate c then nw + ns else Z.max nw ns)) :
  exists cl ss, Cluster_make c = Ok cl /\ CreateServers cl p = Ok ss /\
    forall g id, (g, id) ∈ ss <->
      0 <= g < nserver_groups c /\ 0 <= id < nservers_per_group c /\
      (g * nservers_per_group c + id) / nservers_per_procs c + server_offset c = p.
Proof.
  destruct (Cluster_make_Ok c Hc) as (cl & E & Ec & En & _). exists cl.
  pose proof Hc as [H1 H2 H3 H4 H5 H6].
  assert (0 <= nworkers c /\ 0 <= nservers c) as [Hw Hs] by (unfold nworkers, nservers; nia).
  destruct Hgrp as [q Eq]. assert (0 < q) as Hq by nia.
  assert (nservers c / nservers_per_procs c = nserver_groups c * q) as Edn.
  { unfold nservers. rewrite Eq, Z.mul_assoc. apply Z.div_mul. lia. }
  pose proof (server_offset_even c Hc Hsep) as Eoff.
  unfold CreateServers. rewrite Ec.
  assert (nworker_procs c = Ok (nworkers c / nworkers_per_procs c)) as Enw by (by apply (idiv_Ok (nworkers c))).
  assert (nserver_procs c = Ok (nserver_groups c * q)) as Ens by (rewrite <- Edn; by apply (idiv_Ok (nservers c))).
  rewrite (has_server_Ok cl p (nworkers c / nworkers_per_procs c) (nserver_groups c * q)) by (rewrite ?Ec, ?En, ?Edn in *; done).
  rewrite Ec, Enw. cbv zeta. set (pid := if server_worker_separate c then p - _ else p).
  assert (pid = p - server_offset c) as Epid
    by (unfold pid; rewrite Eoff; destruct (server_worker_separate c); lia).
  rewrite bind_Ok.
  assert (forall g id, (0 <= g < nserver_groups c /\ 0 <= id < nservers_per_group c /\
      (g * nservers_per_group c + id) / nservers_per_procs c + server_offset c = p) <->
    (0 <= g < nserver_groups c) /\ 0 <= id < q * nservers_per_procs c /\
      (g * (q * nservers_per_procs c) + id) / nservers_per_procs c = pid) as Heq.
  { intros g id. rewrite <- Eq, Epid. split; intros (? & ? & ?); split_and!; lia. }
  assert (forall g id, 0 <= id < q * nservers_per_procs c ->
    (g * (q * nservers_per_procs c) + id) / nservers_per_procs c = pid ->
    (0 <= g < nserver_groups c <-> 0 <= pid < nserver_groups c * q)) as Hrange.
  { intros g id Hid Hd. rewrite Z.mul_assoc, Z.div_add_l in Hd by lia.
    pose proof (Z.div_pos id (nservers_per_procs c)).
    assert (id / nservers_per_procs c < q) by (apply Z.div_lt_upper_bound; lia).
    rewrite <- Hd. split; intros; nia. }
  destruct ((0 <=? pid) && (pid <? nserver_groups c * q)) eqn:Hb; simpl negb; cbv iota.
  - apply andb_true_iff in Hb as [Hb1%Z.leb_le Hb2%Z.ltb_lt].
    rewrite bind_Ok, idiv_Ok, bind_Ok, imod_Ok, bind_Ok by nia. eexists. split; [done|]. split; [done|].
    intros g id. rewrite Heq. rewrite Eq.
    pose proof (block_in_group pid (nservers_per_procs c) q g id H6 Hq Hb1) as Hblk.
    rewrite list_elem_of_fmap. split.
    + intros (sid & [= -> ->] & Hsid%elem_of_range).
      destruct (proj1 Hblk (conj eq_refl Hsid)) as [? ?]. split; [|done]. by eapply Hrange.
    + intros (Hg & Hid & Hd). destruct (proj2 Hblk (conj Hid Hd)) as [-> Hr].
      exists id. split; [done|]. by apply elem_of_range.
  - exists []. split; [done|]. split; [done|]. intros g id. rewrite Heq. split; [by intros ?%elem_of_nil|].
    intros (Hg & Hid & Hd). pose proof (proj1 (Hrange g id Hid Hd) Hg).
    apply andb_false_iff in Hb as [Hb%Z.leb_gt|Hb%Z.ltb_ge]; lia.
Qed.

Lemma CreateServers_spec_witness :
  exists cl ss, Cluster_make (mkClusterProto 2 2 2 4 1 2 true) = Ok cl /\ CreateServers cl 7 = Ok ss /\
    (1, 2) ∈ ss.
Proof.
  destruct (CreateServers_spec (mkClusterProto 2 2 2 4 1 2 true) 7) as (cl & ss & E1 & E2 & H).
  - constructor; simpl; lia.
  - exists 2. reflexivity.
  - intros _. split; [exists 4; reflexivity|reflexivity].
  - vm_compute. by split.
  - exists cl, ss. split; [done|]. split; [done|]. apply H. simpl. split; [lia|]. split; [lia|reflexivity].
Defined.

(** When a process holds several server groups (as [CreateWorkers] allows for
    workers), [CreateServers] is wrong: with two groups of one server and two
    servers per process, the only process creates servers 0 and 1 of group 0; there
    is no server 1 in that group (its key is that of the server of group 1), and
    the server of group 1, which the topology places on this process, is never
    created. *)
Theorem CreateServers_several_groups :
  exists cl, Cluster_make (mkClusterProto 1 2 1 1 1 2 false) = Ok cl /\
    CreateServers cl 0 = Ok [(0, 0); (0, 1)] /\
    CreateWorkers cl 0 = Ok [(0, 0)] /\
    ProcsIDOf cl 1 0 (entity_num kServer) = Ok 0 /\
    Hash (cluster_ cl) 0 1 (entity_num kServer) = Hash (cluster_ cl) 1 0 (entity_num kServer).
Proof. eexists. split; [reflexivity|]. by vm_compute. Qed.
