(* ===== verification/ClusterRT.v ===== *)
(** * utils/cluster_rt.h, utils/cluster_rt.cc: the cluster runtime on ZooKeeper

    Processes register under a job's folder of ZooKeeper and get their ids and addresses
    from there; servers watch the folder of their group and are told when its workers have
    left; the job manager hands out job ids, lists jobs and removes their nodes.

    ZooKeeper is not part of the repository: class [ZooKeeper] names the calls the code
    makes and class [ZkLaws] states what its manual says of them for a client that is
    connected; module [TreeZk] is a concrete implementation, used by the witnesses. *)

From Stdlib Require Import Strings.String Strings.Ascii.
From stdpp Require Import sorting.
From S2P Require Import Prelude Msg Cluster.
Local Open Scope string_scope.
Local Open Scope Z_scope.

(** ** The client library *)
Definition ZOK : Z := 0.
Definition ZCONNECTIONLOSS : Z := -4.
Definition ZNONODE : Z := -101.
Definition ZNODEEXISTS : Z := -110.
Definition ZNOCHILDRENFOREPHEMERALS : Z := -108.
Definition ZNOTEMPTY : Z := -111.
Definition ZOO_DELETED_EVENT : Z := 2.
Definition ZOO_CHILD_EVENT : Z := 4.

(** [zk] is a connected handle with what it is connected to.  Values and paths have no
    zero byte.  [zoo_create path value ephemeral sequence] gives the return code and the
    path created; [zoo_wget_children path w] leaves the watcher with context [w] for the
    next change of the children; [zk_event] takes the next event that waits for a watcher
    of this client: its type, its path and the watcher's context; [zk_sleep] is what happens
    in a second. *)
Class ZooKeeper := {
  zk : Type;
  zookeeper_init : string -> Z -> option zk;
  zoo_create : string -> option string -> bool -> bool -> zk -> zk * Z * option string;
  zoo_delete : string -> zk -> zk * Z;
  zoo_exists : string -> zk -> zk * Z;
  zoo_get : string -> zk -> zk * Z * option string;
  zoo_get_children : string -> zk -> zk * Z * list string;
  zoo_wget_children : string -> nat -> zk -> zk * Z * list string;
  zk_event : zk -> option (Z * string * nat * zk);
  zk_sleep : zk -> zk;
}.

(** ** Strings *)
Fixpoint slash_free (s : string) : bool :=
  match s with "" => true | String c s => negb (Ascii.eqb c "/") && slash_free s end.
Definition to_string (z : Z) : string := Header.print_d z.
Definition digit (d : Z) : ascii := ascii_of_N (Z.to_N (48 + d)).
Fixpoint digits (n : nat) (z : Z) : string :=
  match n with O => "" | S n => String (digit (z / 10 ^ Z.of_nat n mod 10)) (digits n z) end.
(** [%010d] of an [int] *)
Definition pad10 (z : Z) : string :=
  if z <? 0 then String "-" (digits (if - z <? 10 ^ 9 then 9 else 10) (- z)) else digits 10 z.
Definition atoi (s : string) : outcome Z :=
  match Header.scan_d s with Some (z, _) => int_ret z | None => Ok 0 end.
(** [s.substr(pos)] and [buf + pos] *)
Definition substr_from (pos : nat) (s : string) : string := substring pos (String.length s - pos) s.
Definition str_le (a b : string) : Prop := String.leb a b = true.
#[export] Instance str_le_dec : RelDecision str_le.
Proof. intros a b. unfold str_le. apply _. Defined.
(** [std::sort] *)
Definition sort_strings (l : list string) : list string := merge_sort str_le l.

Definition kZKBufSize : nat := 100.
Definition kZKPathSinga : string := "/singa".
Definition kZKPathSys : string := "/singa/sys".
Definition kZKPathJLock : string := "/singa/sys/job-lock".
Definition kZKPathApp : string := "/singa/app".
Definition kZKPathJob : string := "/singa/app/job-".
Definition kZKPathJobGroup : string := "/group".
Definition kZKPathJobProc : string := "/proc".
Definition kZKPathJobPLock : string := "/proc-lock".
Definition GetZKJobWorkspace (job_id : Z) : string := kZKPathJob +:+ pad10 job_id.

(** A node is named by its parent [p] and its own name [c]; the root's path is empty here. *)
Definition child (p c : string) : string := p +:+ "/" +:+ c.
(** Printable characters.  ZooKeeper allows more, but not all. *)
Definition printable_char (c : ascii) : bool := (32 <=? Z.of_N (N_of_ascii c)) && (Z.of_N (N_of_ascii c) <? 127).
Fixpoint printable (s : string) : bool :=
  match s with "" => true | String c s => printable_char c && printable s end.
(** Names a node can have: not empty, no slash, not "." or "..", not the reserved "zookeeper". *)
Definition node_name (c : string) : bool :=
  printable c && slash_free c && negb (String.eqb c "") && negb (String.eqb c ".") && negb (String.eqb c "..") &&
  negb (String.eqb c "zookeeper").
(** The paths of nodes other than the root. *)
Inductive zpath : string -> Prop :=
| zpath_top c : node_name c = true -> zpath (child "" c)
| zpath_child p c : zpath p -> node_name c = true -> zpath (child p c).
(** What ZooKeeper's limit on the size of a request (a megabyte) leaves room for. *)
Definition zk_max : nat := 1000.
Definition zk_path (p : string) : Prop := zpath p /\ (String.length p <= zk_max)%nat.
Definition zk_value (v : option string) : Prop :=
  match v with Some v => printable v = true /\ (String.length v <= zk_max)%nat | None => True end.

Record znode := mkZnode { zn_value : option string; zn_ephemeral : bool }.
(** What the laws speak of: the nodes; the counter of a node, which numbers its next
    sequential child; the watchers, by their contexts, that wait for a change of a node's
    children; the events that have happened and were not delivered yet. *)
Class ZkView (K : ZooKeeper) := {
  nodes : zk -> gmap string znode;
  counter : zk -> string -> Z;
  watches : zk -> string -> gset nat;
  pending : zk -> list (Z * string * nat);
}.

Section view.
Context {K : ZooKeeper} {V : ZkView K}.

(** A node that may have children. *)
Definition persistent (z : zk) (p : string) : Prop := zn_ephemeral <$> nodes z !! p = Some false.

(** The events for a set of watchers. *)
Definition fired (type : Z) (p : string) (ws : gset nat) : list (Z * string * nat) :=
  (fun w => (type, p, w)) <$> elements ws.

(** The node [child p c] is made: it counts from 0, the counters of the nodes that there were
    stay, but for the parent's, which does not go down; the watchers of the parent get
    their event and wait no longer. *)
Record created (z z' : zk) (p c : string) (v : option string) (e : bool) : Prop := {
  cr_nodes : nodes z' = <[child p c := mkZnode v e]> (nodes z);
  cr_counter : counter z' (child p c) = 0;
  cr_parent : counter z p <= counter z' p;
  cr_counters q : q <> p -> is_Some (nodes z !! q) -> counter z' q = counter z q;
  cr_watches q : watches z' q = if decide (q = p) then ∅ else watches z q;
  cr_pending : pending z' ≡ₚ (fired ZOO_CHILD_EVENT p (watches z p) ++ pending z)%list;
}.
(** The node [child p c] is deleted. *)
Record deleted (z z' : zk) (p c : string) : Prop := {
  dl_nodes : nodes z' = delete (child p c) (nodes z);
  dl_watches q : watches z' q = if decide (q = p \/ q = child p c) then ∅ else watches z q;
  dl_pending : pending z' ≡ₚ (fired ZOO_DELETED_EVENT (child p c) (watches z (child p c)) ++
                              fired ZOO_CHILD_EVENT p (watches z p) ++ pending z)%list;
}.
(** The names of the children of [p]. *)
Definition children_of (z : zk) (p : string) (l : list string) : Prop :=
  NoDup l /\ forall c, c ∈ l <-> slash_free c = true /\ is_Some (nodes z !! child p c).
End view.

(** What a connected client relies on, when nobody else acts between its calls: what
    ZooKeeper's programmer's guide says of names, of ephemeral and of sequential nodes, and of
    watches, which are left once and fire once. *)
Class ZkLaws (K : ZooKeeper) := {
  zk_view :: ZkView K;
  create_ok z p c v e : zk_path (child p c) -> node_name c = true -> zk_value v -> persistent z p ->
    nodes z !! child p c = None ->
    exists z', zoo_create (child p c) v e false z = (z', ZOK, Some (child p c)) /\ created z z' p c v e;
  create_exists z path v e : zk_path path -> zk_value v -> is_Some (nodes z !! path) ->
    zoo_create path v e false z = (z, ZNODEEXISTS, None);
  create_sequential z p c v e (c' := c +:+ pad10 (counter z p)) : zk_path (child p c') -> node_name c' = true ->
    zk_value v -> persistent z p -> 0 <= counter z p < INT_MAX -> nodes z !! child p c' = None ->
    exists z', zoo_create (child p c) v e true z = (z', ZOK, Some (child p c')) /\ created z z' p c' v e /\
      counter z' p = counter z p + 1;
  exists_ok z path : zk_path path ->
    zoo_exists path z = (z, if bool_decide (is_Some (nodes z !! path)) then ZOK else ZNONODE);
  get_ok z path n v : zk_path path -> nodes z !! path = Some n -> zn_value n = Some v ->
    (String.length v < kZKBufSize)%nat -> zoo_get path z = (z, ZOK, Some v);
  get_none z path : zk_path path -> nodes z !! path = None -> zoo_get path z = (z, ZNONODE, None);
  children_ok z p : zk_path p -> is_Some (nodes z !! p) ->
    exists l, zoo_get_children p z = (z, ZOK, l) /\ children_of z p l;
  watch_ok z p w : zk_path p -> is_Some (nodes z !! p) ->
    exists z' l, zoo_wget_children p w z = (z', ZOK, l) /\ children_of z p l /\ nodes z' = nodes z /\
      pending z' = pending z /\ forall q, watches z' q = if decide (q = p) then {[w]} ∪ watches z q else watches z q;
  delete_ok z p c : zk_path (child p c) -> node_name c = true -> is_Some (nodes z !! child p c) ->
    (forall d, slash_free d = true -> nodes z !! child (child p c) d = None) ->
    exists z', zoo_delete (child p c) z = (z', ZOK) /\ deleted z z' p c;
  delete_none z path : zk_path path -> nodes z !! path = None -> zoo_delete path z = (z, ZNONODE);
  event_none z : pending z = [] -> zk_event z = None;
  event_some z : pending z <> [] -> exists type path w z', zk_event z = Some (type, path, w, z') /\
    pending z ≡ₚ (type, path, w) :: pending z' /\ nodes z' = nodes z /\ forall q, watches z' q = watches z q;
}.

(** A callback [fn], null once it was called, and its context. *)
Record RTCallback := mkRTCallback { cb_fn : option Z; cb_ctx : Z }.
Record JobInfo := mkJobInfo { job_id : Z; job_procs : Z }.

Section service.
Context `{K : ZooKeeper}.

(** ** ZKService *)

(** The loop of [CreateNode]; [kNumRetry] is 10. *)
Fixpoint create_loop (n : nat) (path : string) (val : option string) (ephemeral sequence : bool) (z : zk)
    (ret : Z) (buf : option string) : zk * Z * option string :=
  match n with
  | O => (z, ret, buf)
  | S n =>
      let '(z, ret, buf) := zoo_create path val ephemeral sequence z in
      if (ret =? ZNONODE) || (ret =? ZCONNECTIONLOSS) then
        create_loop n path val ephemeral sequence (zk_sleep z) ret buf
      else (z, ret, buf)
  end.
(** [output] tells whether the caller wants the name of the node, which ZooKeeper cuts to
    the size of the buffer; nothing is put into the buffer when the node exists. *)
Definition CreateNode (path : string) (val : option string) (ephemeral sequence output : bool) (z : zk)
    : outcome (zk * bool * string) :=
  let '(z, ret, buf) := create_loop 10 path val ephemeral sequence z 0 None in
  if (ret =? ZOK) || (ret =? ZNODEEXISTS) then
    if output then
      match buf with
      | Some b => Ok (z, true, substring 0 (kZKBufSize - 1) b)
      | None => Undef
      end
    else Ok (z, true, "")
  else Fatal.
Definition DeleteNode (path : string) (z : zk) : outcome (zk * bool) :=
  let '(z, ret) := zoo_delete path z in
  if (ret =? ZOK) || (ret =? ZNONODE) then Ok (z, true) else Fatal.
Definition Exist (path : string) (z : zk) : zk * bool :=
  let '(z, ret) := zoo_exists path z in (z, ret =? ZOK).
(** The terminating zero is stored behind the value: at -1 when there is none, behind the
    buffer when the value fills it. *)
Definition GetNode (path : string) (z : zk) : outcome (zk * option string) :=
  let '(z, ret, val) := zoo_get path z in
  if ret =? ZOK then
    match val with
    | Some v => if (String.length v <? kZKBufSize)%nat then Ok (z, Some v) else Undef
    | None => Undef
    end
  else if ret =? ZNONODE then Ok (z, None)
  else Fatal.
Definition GetChild (path : string) (z : zk) : outcome (zk * list string) :=
  let '(z, ret, child) := zoo_get_children path z in
  if ret =? ZOK then Ok (z, child) else Fatal.
Definition WGetChild (path : string) (cb : nat) (z : zk) : outcome (zk * list string) :=
  let '(z, ret, child) := zoo_wget_children path cb z in
  if ret =? ZOK then Ok (z, child) else Fatal.

(** The watcher: [type] and [path] of the event, the index of the callback; the calls made. *)
Definition ChildChanges (type : Z) (path : string) (w : nat) (cb_vec_ : list RTCallback) (z : zk)
    : outcome (zk * list RTCallback * list (Z * Z)) :=
  cb ← deref (cb_vec_ !! w);
  match cb_fn cb with
  | None => Ok (z, cb_vec_, [])
  | Some fn =>
      if type =? ZOO_CHILD_EVENT then
        let '(z, ret, child) := zoo_wget_children path w z in
        if ret =? ZOK then
          if Z.of_nat (length child) =? 0
          then Ok (z, <[w := mkRTCallback None (cb_ctx cb)]> cb_vec_, [(fn, cb_ctx cb)])
          else Ok (z, cb_vec_, [])
        else Fatal
      else Fatal
  end.

(** ** ZKClusterRT *)
Record ZKClusterRT := mkRT {
  rt_timeout : Z;
  rt_host : string;
  workspace_ : string;
  group_path_ : string;
  proc_path_ : string;
  proc_lock_path_ : string;
  cb_vec_ : list RTCallback;
}.
Definition ZKClusterRT_make (host : string) (job_id timeout : Z) : ZKClusterRT :=
  let w := GetZKJobWorkspace job_id in
  mkRT timeout host w (w +:+ kZKPathJobGroup) (w +:+ kZKPathJobProc) (w +:+ kZKPathJobPLock) [].
Definition ZKClusterRT_new (host : string) (job_id : Z) : ZKClusterRT := ZKClusterRT_make host job_id 30000.

(** Creates the nodes one after the other. *)
Fixpoint create_all (paths : list string) (z : zk) : outcome (zk * bool) :=
  match paths with
  | [] => Ok (z, true)
  | p :: paths =>
      '(z, ok, _) ← CreateNode p None false false false z;
      if ok : bool then create_all paths z else Ok (z, false)
  end.
Definition RT_Init (rt : ZKClusterRT) : outcome (option zk) :=
  match zookeeper_init (rt_host rt) (rt_timeout rt) with
  | None => Ok None
  | Some z =>
      '(z, ok) ← create_all [kZKPathSinga; kZKPathApp; workspace_ rt; group_path_ rt; proc_path_ rt; proc_lock_path_ rt] z;
      Ok (if ok : bool then Some z else None)
  end.

(** The index of the own node among the locks, or -1. *)
Fixpoint find_own (lock_path buf : string) (vt : list string) (i : Z) : Z :=
  match vt with
  | [] => -1
  | v :: vt => if decide (lock_path +:+ "/" +:+ v = buf) then i else find_own lock_path buf vt (i + 1)
  end.
Definition RegistProc (rt : ZKClusterRT) (host_addr : string) (pid : Z) (z : zk) : outcome (zk * Z) :=
  let lock := proc_lock_path_ rt +:+ "/lock-" in
  '(z, ok, buf) ← CreateNode lock None true true true z;
  if negb ok then Ok (z, -1) else
  '(z, vt) ← GetChild (proc_lock_path_ rt) z;
  let id := find_own (proc_lock_path_ rt) buf (sort_strings vt) 0 in
  if id =? -1 then Ok (z, -1) else
  let path := proc_path_ rt +:+ "/proc-" +:+ to_string id in
  let content := host_addr +:+ "|" +:+ to_string pid in
  '(z, ok, _) ← CreateNode path (Some content) true false false z;
  Ok (z, if ok : bool then id else -1).

(** [while (len && val[len] != '|') --len;] *)
Fixpoint back_to_bar (val : string) (len : nat) : nat :=
  match len with
  | O => O
  | S n => if decide (String.get len val = Some "|"%char) then len else back_to_bar val n
  end.
Definition GetProcHost (rt : ZKClusterRT) (proc_id : Z) (z : zk) : outcome (zk * string) :=
  let path := proc_path_ rt +:+ "/proc-" +:+ to_string proc_id in
  '(z, val) ← GetNode path z;
  match val with
  | None => Ok (z, "")
  | Some val =>
      (* [val[-1]] of an empty value *)
      if decide (val = "") then Undef
      else
        let len := back_to_bar val (String.length val - 1) in
        _ ← CHECK (negb (len =? 0)%nat);
        Ok (z, substring 0 len val)
  end.

Definition groupPath (rt : ZKClusterRT) (gid : Z) : string := group_path_ rt +:+ "/sg" +:+ to_string gid.
Definition workerPath (gid wid : Z) : string := "/g" +:+ to_string gid +:+ "_w" +:+ to_string wid.
Definition WatchSGroup (rt : ZKClusterRT) (gid : Z) (fn : option Z) (ctx : Z) (z : zk)
    : outcome (zk * ZKClusterRT * bool) :=
  _ ← CHECK (bool_decide (is_Some fn));
  let path := groupPath rt gid in
  '(z, ok, _) ← CreateNode path None false false false z;
  if negb ok then Ok (z, rt, false) else
  let w := length (cb_vec_ rt) in
  let rt := mkRT (rt_timeout rt) (rt_host rt) (workspace_ rt) (group_path_ rt) (proc_path_ rt) (proc_lock_path_ rt)
              (cb_vec_ rt ++ [mkRTCallback fn ctx]) in
  '(z, _) ← WGetChild path w z;
  Ok (z, rt, true).
Definition JoinSGroup (rt : ZKClusterRT) (gid wid s_group : Z) (z : zk) : outcome (zk * bool) :=
  '(z, ok, _) ← CreateNode (groupPath rt s_group +:+ workerPath gid wid) None true false false z; Ok (z, ok).
Definition LeaveSGroup (rt : ZKClusterRT) (gid wid s_group : Z) (z : zk) : outcome (zk * bool) :=
  DeleteNode (groupPath rt s_group +:+ workerPath gid wid) z.

(** ** JobManager *)
Definition JM_Init (host : string) (timeout : Z) : outcome (option zk) :=
  match zookeeper_init host timeout with
  | None => Ok None
  | Some z =>
      '(z, ok) ← create_all [kZKPathSinga; kZKPathSys; kZKPathJLock; kZKPathApp] z;
      Ok (if ok : bool then Some z else None)
  end.
Definition GenerateJobID (z : zk) : outcome (zk * Z) :=
  '(z, ok, buf) ← CreateNode (kZKPathJLock +:+ "/lock-") None true true true z;
  if negb ok then Ok (z, -1)
  else if (String.length buf <? 10)%nat then Undef
  else id ← atoi (substr_from (String.length buf - 10) buf); Ok (z, id).

(** [CleanPath]; the fuel bounds the height of the tree below the node. *)
Fixpoint clean_children (clean : string -> zk -> outcome (zk * bool)) (path : string) (child : list string) (z : zk)
    : outcome (zk * bool) :=
  match child with
  | [] => Ok (z, true)
  | c :: child =>
      '(z, ok) ← clean (path +:+ "/" +:+ c) z;
      if ok : bool then clean_children clean path child z else Ok (z, false)
  end.
Fixpoint CleanPath (fuel : nat) (remove : bool) (path : string) (z : zk) : outcome (zk * bool) :=
  match fuel with
  | O => OutOfFuel
  | S fuel =>
      '(z, child) ← GetChild path z;
      '(z, ok) ← clean_children (CleanPath fuel true) path child z;
      if negb ok then Ok (z, false)
      else if remove then DeleteNode path z
      else Ok (z, true)
  end.
Definition Clean (fuel : nat) (job : Z) (z : zk) : outcome (zk * bool) :=
  let path := GetZKJobWorkspace job +:+ kZKPathJobProc in
  let '(z, e) := Exist path z in
  if e then CleanPath fuel false path z else Ok (z, true).
Definition Cleanup (fuel : nat) (z : zk) : outcome (zk * bool) :=
  let '(z, e) := Exist kZKPathSinga z in
  if e then CleanPath fuel true kZKPathSinga z else Ok (z, true).

(** [kJobsNotRemoved] is 10. *)
Fixpoint list_jobs (fuel : nat) (i size : Z) (vt : list string) (z : zk) : outcome (zk * list JobInfo) :=
  match vt with
  | [] => Ok (z, [])
  | v :: vt =>
      '(z, procs) ← GetChild (kZKPathApp +:+ "/" +:+ v +:+ kZKPathJobProc) z;
      (* [substr] of a position past the end *)
      if (String.length v <? 10)%nat then Throw
      else
        id ← atoi (substr_from (String.length v - 10) v);
        let n := Z.of_nat (length procs) in
        '(z, _) ← (if (n =? 0) && (i + 10 <? size) then CleanPath fuel true (kZKPathApp +:+ "/" +:+ v) z
                   else Ok (z, true));
        '(z, jobs) ← list_jobs fuel (i + 1) size vt z;
        Ok (z, mkJobInfo id n :: jobs)
  end.
Definition ListJobs (fuel : nat) (z : zk) : outcome (zk * list JobInfo) :=
  '(z, vt) ← GetChild kZKPathApp z;
  list_jobs fuel 0 (Z.of_nat (length vt)) (sort_strings vt) z.

(** The string at [i], up to the next zero byte. *)
Fixpoint c_str (l : list ascii) : string :=
  match l with
  | [] => ""
  | c :: l => if Ascii.eqb c zero then "" else String c (c_str l)
  end.
Fixpoint proc_name (n i : nat) (buf : list ascii) (proc : string) : string :=
  match n with
  | O => proc
  | S n =>
      match buf !! i with
      | None => proc
      | Some c =>
          if Ascii.eqb c zero then proc
          else if Ascii.eqb c ":" then
            let buf := <[i := zero]> buf in proc_name n (S i) buf (proc +:+ c_str buf)
          else if Ascii.eqb c "|" then proc_name n (S i) buf (proc +:+ c_str (drop i buf))
          else proc_name n (S i) buf proc
      end
  end.
Fixpoint list_procs (proc_path : string) (vt : list string) (z : zk) : outcome (zk * list string) :=
  match vt with
  | [] => Ok (z, [])
  | v :: vt =>
      '(z, val) ← GetNode (proc_path +:+ "/" +:+ v) z;
      '(z, procs) ← list_procs proc_path vt z;
      Ok (z, match val with
             | Some val => let buf := list_ascii_of_string val in proc_name (length buf) 0 buf "" :: procs
             | None => procs
             end)
  end.
Definition ListJobProcs (job : Z) (z : zk) : outcome (zk * list string) :=
  let job_path := GetZKJobWorkspace job in
  let '(z, e) := Exist job_path z in
  if negb e then Ok (z, [])
  else
    let proc_path := job_path +:+ kZKPathJobProc in
    '(z, vt) ← GetChild proc_path z;
    list_procs proc_path vt z.

(** ** utils/cluster.cc: a process of the cluster registers, and looks other processes up *)
Definition Cluster_Register (cl : Cluster) (rt : ZKClusterRT) (pid : Z) (endpoint : string) (z : zk) : outcome (zk * Z) :=
  '(z, procs_id) ← RegistProc rt endpoint pid z;
  procs_id ← Register_procs cl procs_id;
  Ok (z, procs_id).
Definition Cluster_endpoint (cl : Cluster) (rt : ZKClusterRT) (endpoints_ : list string) (procsid : Z) (z : zk)
    : outcome (zk * string) :=
  _ ← CHECK (procsid <? nprocs_ cl);
  _ ← CHECK (0 <=? procsid);
  if (0 <? length endpoints_)%nat then
    e ← map_at (endpoints_ !! Z.to_nat procsid); Ok (z, e)
  else GetProcHost rt procsid z.
End service.
