(* ===== verification/ZkTree.v ===== *)
(** * ZooKeeper's paths and a concrete ZooKeeper

    Lemmas on the strings of the cluster runtime (a path determines its parent and its name,
    numbers of ten digits are ordered like their values, sorting) and module [TreeZk], a
    tree of nodes in memory that satisfies the laws of [ZkLaws]. *)

From Stdlib Require Import Strings.String Strings.Ascii.
From Stdlib Require OrdersEx.
From stdpp Require Import sorting.
From S2P Require Import Prelude Msg Cluster ClusterRT.
Local Open Scope string_scope.
Local Open Scope Z_scope.

(** ** Strings *)
Lemma append_assoc (a b c : string) : (a +:+ b) +:+ c = a +:+ (b +:+ c).
Proof. induction a as [|x a IH]; [done|]. rewrite !Header.string_app_cons. by rewrite IH. Qed.
Lemma append_inj (a b c : string) : a +:+ b = a +:+ c -> b = c.
Proof. induction a as [|x a IH]; [done|]. rewrite !Header.string_app_cons. intros [= H]. auto. Qed.
Lemma length_append (a b : string) : String.length (a +:+ b) = (String.length a + String.length b)%nat.
Proof. induction a as [|x a IH]; [done|]. rewrite Header.string_app_cons. simpl. by rewrite IH. Qed.
Lemma substring_front (a b : string) : substring 0 (String.length a) (a +:+ b) = a.
Proof. induction a as [|x a IH]; [by destruct b|]. rewrite Header.string_app_cons. simpl. by rewrite IH. Qed.
Lemma substring_short n (a : string) : (String.length a <= n)%nat -> substring 0 n a = a.
Proof.
  revert n. induction a as [|x a IH]; intros n H; destruct n; try done; simpl in *; [lia|]. by rewrite IH by lia.
Qed.
Lemma slash_free_app a b : slash_free (a +:+ b) = slash_free a && slash_free b.
Proof. induction a as [|x a IH]; [done|]. rewrite Header.string_app_cons. simpl. by rewrite IH, andb_assoc. Qed.

(** A node's parent and name are determined by its path. *)
Fixpoint split_path (s : string) : option (string * string) :=
  match s with
  | "" => None
  | String c s =>
      match split_path s with
      | Some (d, b) => Some (String c d, b)
      | None => if Ascii.eqb c "/" then Some ("", s) else None
      end
  end.
Lemma split_path_none c : slash_free c = true -> split_path c = None.
Proof.
  induction c as [|x c IH]; [done|]. simpl. rewrite andb_true_iff, negb_true_iff. intros [-> Hc]. by rewrite IH.
Qed.
Lemma split_path_child p c : slash_free c = true -> split_path (child p c) = Some (p, c).
Proof.
  intros Hc. unfold child. induction p as [|x p IH].
  - change ("" +:+ "/" +:+ c) with (String "/" c). simpl. by rewrite split_path_none.
  - rewrite Header.string_app_cons. simpl. by rewrite IH.
Qed.
Lemma split_path_Some s d b : split_path s = Some (d, b) -> s = child d b /\ slash_free b = true.
Proof.
  revert d. induction s as [|x s IH]; intros d H; [done|]. simpl in H. destruct (split_path s) as [[d' b']|] eqn:E.
  - injection H as <- ->. destruct (IH d' eq_refl) as [-> ?]. done.
  - destruct (Ascii.eqb_spec x "/") as [->|]; [|done]. injection H as <- <-. split; [done|].
    clear IH. induction s as [|y s IHs]; [done|]. simpl in *. destruct (split_path s) as [[? ?]|]; [done|].
    destruct (Ascii.eqb_spec y "/"); [done|]. by rewrite IHs.
Qed.
Lemma child_inj p c p' c' : slash_free c = true -> slash_free c' = true -> child p c = child p' c' -> p = p' /\ c = c'.
Proof. intros Hc Hc' E. apply (f_equal split_path) in E. rewrite !split_path_child in E by done. by injection E. Qed.

(** *** Numbers *)
Fixpoint plain (s : string) : bool :=
  match s with "" => true | String c s => negb (Ascii.eqb c "/") && negb (Ascii.eqb c "|") && plain s end.
Lemma plain_slash_free s : plain s = true -> slash_free s = true.
Proof. induction s as [|c s IH]; [done|]. simpl. rewrite !andb_true_iff. intros [[H1 _] H2]. auto. Qed.
Lemma plain_to_string z : plain (to_string z) = true.
Proof.
  assert (forall u, plain (DecimalString.NilEmpty.string_of_uint u) = true) as Hu by (induction u; done).
  unfold to_string, Header.print_d, DecimalString.NilZero.string_of_int.
  assert (forall u, plain (DecimalString.NilZero.string_of_uint u) = true) as Hz by (intros []; [done|apply Hu..]).
  destruct (Z.to_int z); simpl; [apply Hz|]. by rewrite Hz.
Qed.
#[export] Instance to_string_inj : Inj (=) (=) to_string.
Proof.
  intros a b E. pose proof (Header.scan_print_d a "" I) as Ea. pose proof (Header.scan_print_d b "" I) as Eb.
  unfold to_string in E. rewrite E, Eb in Ea. congruence.
Qed.

Lemma digit_code d : 0 <= d < 10 -> N_of_ascii (digit d) = Z.to_N (48 + d).
Proof. intros H. unfold digit. apply N_ascii_embedding. lia. Qed.
Lemma digits_mod n z : digits n (z mod 10 ^ Z.of_nat n) = digits n z.
Proof.
  assert (forall n m z, (n <= m)%nat -> digits n (z mod 10 ^ Z.of_nat m) = digits n z) as H; [|by apply H].
  clear. induction n as [|n IH]; intros m z Hm; [done|]. cbn [digits]. rewrite IH by lia. f_equal. f_equal.
  replace (Z.of_nat m) with (Z.of_nat n + 1 + (Z.of_nat m - Z.of_nat n - 1)) by lia.
  rewrite !Z.pow_add_r by lia. rewrite <- Z.mul_assoc, Z.rem_mul_r by (try apply Z.pow_nonzero; nia).
  rewrite Z.mul_comm, Z.div_add by (apply Z.pow_nonzero; lia).
  rewrite Z.div_small by (apply Z.mod_pos_bound; lia). rewrite Z.add_0_l.
  set (q := z / 10 ^ Z.of_nat n). rewrite Z.rem_mul_r by (try apply Z.pow_pos_nonneg; lia).
  rewrite Z.mul_comm, Z.mod_add, Z.mod_mod; lia.
Qed.
Lemma digits_lt n : forall a b, 0 <= a < b -> b < 10 ^ Z.of_nat n -> String.compare (digits n a) (digits n b) = Lt.
Proof.
  induction n as [|n IH]; intros a b Hab Hb; [change (10 ^ Z.of_nat 0) with 1 in Hb; lia|]. cbn [digits String.compare].
  set (P := 10 ^ Z.of_nat n) in *. assert (0 < P) by (apply Z.pow_pos_nonneg; lia).
  assert (10 ^ Z.of_nat (S n) = 10 * P) as EP by (rewrite Nat2Z.inj_succ, Z.pow_succ_r by lia; done). rewrite EP in Hb.
  assert (a / P < 10 /\ b / P < 10) as [Ha Hb'] by (split; apply Z.div_lt_upper_bound; lia).
  pose proof (Z.div_pos a P ltac:(lia) ltac:(lia)). pose proof (Z.div_pos b P ltac:(lia) ltac:(lia)).
  rewrite !(Z.mod_small _ 10) by lia. unfold Ascii.compare. rewrite !digit_code by lia.
  pose proof (Z.div_le_mono a b P ltac:(lia) ltac:(lia)).
  destruct (N.compare_spec (Z.to_N (48 + a / P)) (Z.to_N (48 + b / P))) as [E|E|E]; [|done|lia].
  assert (a / P = b / P) as E' by lia. rewrite <- (digits_mod n a), <- (digits_mod n b). fold P.
  pose proof (Z.mod_pos_bound a P ltac:(lia)). pose proof (Z.mod_pos_bound b P ltac:(lia)).
  pose proof (Z.div_mod a P ltac:(lia)). pose proof (Z.div_mod b P ltac:(lia)). apply IH; nia.
Qed.
Lemma compare_prefix p a b : String.compare (p +:+ a) (p +:+ b) = String.compare a b.
Proof.
  induction p as [|c p IH]; [done|]. rewrite !Header.string_app_cons. simpl. unfold Ascii.compare. by rewrite N.compare_refl.
Qed.
Lemma plain_digits n z : plain (digits n z) = true.
Proof.
  induction n as [|n IH]; [done|]. cbn [digits plain]. rewrite IH.
  pose proof (Z.mod_pos_bound (z / 10 ^ Z.of_nat n) 10 ltac:(lia)) as Hd. set (d := z / 10 ^ Z.of_nat n mod 10) in *.
  assert (d = 0 \/ d = 1 \/ d = 2 \/ d = 3 \/ d = 4 \/ d = 5 \/ d = 6 \/ d = 7 \/ d = 8 \/ d = 9) as
    [->|[->|[->|[->|[->|[->|[->|[->|[->| ->]]]]]]]]] by lia; reflexivity.
Qed.
Lemma length_digits n z : String.length (digits n z) = n.
Proof. induction n as [|n IH]; [done|]. simpl. by rewrite IH. Qed.

(** *** Names *)
Lemma node_name_inv c : node_name c = true -> printable c = true /\ slash_free c = true.
Proof. unfold node_name. rewrite !andb_true_iff. naive_solver. Qed.
Lemma node_name_slash_free c : node_name c = true -> slash_free c = true.
Proof. intros H. by apply node_name_inv. Qed.
Lemma printable_app a b : printable (a +:+ b) = printable a && printable b.
Proof. induction a as [|x a IH]; [done|]. rewrite Header.string_app_cons. simpl. by rewrite IH, andb_assoc. Qed.
Lemma printable_to_string z : printable (to_string z) = true.
Proof.
  assert (forall u, printable (DecimalString.NilEmpty.string_of_uint u) = true) as Hu by (induction u; done).
  unfold to_string, Header.print_d, DecimalString.NilZero.string_of_int.
  assert (forall u, printable (DecimalString.NilZero.string_of_uint u) = true) as Hz by (intros []; [done|apply Hu..]).
  destruct (Z.to_int z); simpl; [apply Hz|]. by rewrite Hz.
Qed.
Lemma printable_digits n z : printable (digits n z) = true.
Proof.
  induction n as [|n IH]; [done|]. cbn [digits printable]. rewrite IH, andb_true_r. unfold printable_char.
  pose proof (Z.mod_pos_bound (z / 10 ^ Z.of_nat n) 10 ltac:(lia)) as Hd.
  rewrite digit_code by done. rewrite Z2N.id by lia. rewrite (proj2 (Z.leb_le _ _)), (proj2 (Z.ltb_lt _ _)); [done|lia..].
Qed.
Lemma printable_pad10 z : printable (pad10 z) = true.
Proof.
  unfold pad10. destruct (z <? 0); [|apply printable_digits]. cbn [printable].
  by rewrite printable_digits.
Qed.
Lemma slash_free_pad10 z : slash_free (pad10 z) = true.
Proof.
  unfold pad10. destruct (z <? 0); [|apply plain_slash_free, plain_digits].
  cbn [slash_free]. rewrite plain_slash_free by apply plain_digits. done.
Qed.
Lemma length_pad10 z : (String.length (pad10 z) <= 11)%nat.
Proof.
  unfold pad10. destruct (z <? 0); cbn [String.length]; rewrite length_digits; [destruct (_ <? _)|]; lia.
Qed.
(** A name that starts like [a]. *)
Lemma node_name_app a b :
  match a with String c _ => negb (Ascii.eqb c ".") && negb (Ascii.eqb c "z") | "" => false end &&
    printable a && slash_free a = true ->
  printable b = true -> slash_free b = true -> node_name (a +:+ b) = true.
Proof.
  destruct a as [|c a]; [done|]. rewrite !andb_true_iff, !negb_true_iff. intros [[[Hd Hz] Hp] Hs] Hpb Hsb.
  unfold node_name. rewrite printable_app, slash_free_app, Hp, Hs, Hpb, Hsb, Header.string_app_cons. cbn [String.eqb andb negb].
  by rewrite Hd, Hz.
Qed.

(** The digits of an [int] are few. *)
Lemma nb_digits_double d : (Decimal.nb_digits (Decimal.Little.double d) <= S (Decimal.nb_digits d))%nat /\
  (Decimal.nb_digits (Decimal.Little.succ_double d) <= S (Decimal.nb_digits d))%nat.
Proof. induction d; simpl; lia. Qed.
Lemma nb_digits_little p : (Decimal.nb_digits (Pos.to_little_uint p) <= Pos.size_nat p)%nat.
Proof.
  induction p as [p IH|p IH|]; [..|done]; cbn [Pos.to_little_uint Pos.size_nat];
    destruct (nb_digits_double (Pos.to_little_uint p)); lia.
Qed.
Lemma nb_digits_revapp d d' : Decimal.nb_digits (Decimal.revapp d d') = (Decimal.nb_digits d + Decimal.nb_digits d')%nat.
Proof. revert d'. induction d; intros d'; [done|..]; simpl; rewrite IHd; simpl; lia. Qed.
Lemma length_string_of_uint u : String.length (DecimalString.NilZero.string_of_uint u) = Nat.max 1 (Decimal.nb_digits u).
Proof.
  assert (forall u, String.length (DecimalString.NilEmpty.string_of_uint u) = Decimal.nb_digits u) as H.
  { clear u. induction u; [done|..]; simpl; by rewrite IHu. }
  destruct u; [done|..]; unfold DecimalString.NilZero.string_of_uint; rewrite H; simpl; lia.
Qed.
Lemma length_to_string z : in_int z = true -> (String.length (to_string z) <= 33)%nat.
Proof.
  intros [Hl Hu]%in_int_spec. unfold INT_MIN, INT_MAX in *.
  assert (forall p, Z.pos p <= 2 ^ 31 -> (String.length (DecimalString.NilZero.string_of_uint (Pos.to_uint p)) <= 32)%nat) as H.
  { intros p Hp. rewrite length_string_of_uint. unfold Pos.to_uint, Decimal.rev. rewrite nb_digits_revapp.
    pose proof (nb_digits_little p). simpl Decimal.nb_digits at 2.
    assert (Pos.size_nat p <= 32)%nat; [|lia]. change 32%nat with (Pos.size_nat (2 ^ 31)%positive).
    destruct (Pos.eq_dec p (2 ^ 31)) as [->|Hne]; [done|]. apply Pos.size_nat_monotone. lia. }
  unfold to_string, Header.print_d, DecimalString.NilZero.string_of_int. destruct z as [|p|p]; simpl Z.to_int.
  - simpl. lia.
  - pose proof (H p ltac:(lia)). lia.
  - cbn [String.length]. pose proof (H p ltac:(lia)). lia.
Qed.

(** *** Sorting *)
#[export] Instance str_le_total : Total str_le.
Proof. intros a b. unfold str_le. destruct (String.leb_total a b); auto. Qed.
Lemma str_le_iff a b : str_le a b <-> a = b \/ String.compare a b = Lt.
Proof.
  unfold str_le, String.leb. destruct (String.compare a b) eqn:E; [|naive_solver|].
  - apply String.compare_eq_iff in E. naive_solver.
  - split; [done|]. intros [->|]; [|done]. pose proof (String.compare_antisym b b) as Ha. by rewrite E in Ha.
Qed.
#[export] Instance str_le_trans : Transitive str_le.
Proof.
  intros a b c. rewrite !str_le_iff. intros [->|H1] [->|H2]; auto. right.
  exact (RelationClasses.StrictOrder_Transitive (R := OrdersEx.String_as_OT.lt) _ _ _ H1 H2).
Qed.
#[export] Instance str_le_antisym : AntiSymm (=) str_le.
Proof.
  intros a b. rewrite !str_le_iff. intros [?|H1] [?|H2]; auto.
  destruct (RelationClasses.StrictOrder_Irreflexive (R := OrdersEx.String_as_OT.lt) a).
  exact (RelationClasses.StrictOrder_Transitive (R := OrdersEx.String_as_OT.lt) _ _ _ H1 H2).
Qed.
Lemma sort_strings_unique l k : StronglySorted str_le k -> l ≡ₚ k -> sort_strings l = k.
Proof.
  intros Hk Hp. eapply StronglySorted_unique; [apply _|apply StronglySorted_merge_sort; apply _|done|].
  etrans; [apply merge_sort_Permutation|done].
Qed.

(** ** A ZooKeeper on a map *)
Module TreeZk.
Record tree := mkTree {
  t_nodes : gmap string znode;
  t_count : gmap string Z;
  t_watches : gmap string (gset nat);
  t_pending : list (Z * string * nat);
}.
Definition count (t : tree) (p : string) : Z := default 0 (t_count t !! p).
Definition watchers (t : tree) (p : string) : gset nat := default ∅ (t_watches t !! p).
(** The watchers of [p] are told. *)
Definition fire (type : Z) (p : string) (t : tree) : tree :=
  mkTree (t_nodes t) (t_count t) (delete p (t_watches t)) (fired type p (watchers t p) ++ t_pending t)%list.
Definition add (d c : string) (v : option string) (e : bool) (t : tree) : tree :=
  fire ZOO_CHILD_EVENT d
    (mkTree (<[child d c := mkZnode v e]> (t_nodes t)) (delete (child d c) (<[d := count t d + 1]> (t_count t)))
       (t_watches t) (t_pending t)).
Definition create (path : string) (v : option string) (ephemeral sequence : bool) (t : tree)
    : tree * Z * option string :=
  match split_path path with
  | None => (t, ZNONODE, None)
  | Some (d, c) =>
      let c := if sequence then c +:+ pad10 (count t d) else c in
      if bool_decide (is_Some (t_nodes t !! child d c)) then (t, ZNODEEXISTS, None)
      else
        match t_nodes t !! d with
        | None => (t, ZNONODE, None)
        | Some n =>
            if zn_ephemeral n then (t, ZNOCHILDRENFOREPHEMERALS, None)
            else (add d c v ephemeral t, ZOK, Some (child d c))
        end
  end.
Definition names (p : string) (t : tree) : list string :=
  omap (fun e => match split_path e.1 with
                 | Some (d, c) => if decide (d = p) then Some c else None
                 | None => None
                 end) (map_to_list (t_nodes t)).
Definition remove (path : string) (t : tree) : tree * Z :=
  match split_path path with
  | None => (t, ZNONODE)
  | Some (d, c) =>
      if bool_decide (is_Some (t_nodes t !! path)) then
        if bool_decide (names path t = []) then
          (fire ZOO_DELETED_EVENT path (fire ZOO_CHILD_EVENT d
             (mkTree (delete path (t_nodes t)) (t_count t) (t_watches t) (t_pending t))), ZOK)
        else (t, ZNOTEMPTY)
      else (t, ZNONODE)
  end.
Definition get (path : string) (t : tree) : tree * Z * option string :=
  match t_nodes t !! path with Some n => (t, ZOK, zn_value n) | None => (t, ZNONODE, None) end.
Definition get_children (p : string) (t : tree) : tree * Z * list string :=
  if bool_decide (is_Some (t_nodes t !! p)) then (t, ZOK, names p t) else (t, ZNONODE, []).
Definition watch (p : string) (w : nat) (t : tree) : tree * Z * list string :=
  if bool_decide (is_Some (t_nodes t !! p)) then
    (mkTree (t_nodes t) (t_count t) (<[p := {[w]} ∪ watchers t p]> (t_watches t)) (t_pending t), ZOK, names p t)
  else (t, ZNONODE, []).
Definition event (t : tree) : option (Z * string * nat * tree) :=
  match t_pending t with
  | [] => None
  | e :: es => Some (e, mkTree (t_nodes t) (t_count t) (t_watches t) es)
  end.
(** The root is the empty path. *)
Definition empty : tree := mkTree {["" := mkZnode None false]} ∅ ∅ [].

Definition service : ZooKeeper := {|
  zk := tree;
  zookeeper_init _ _ := Some empty;
  zoo_create := create;
  zoo_delete := remove;
  zoo_exists path t := (t, if bool_decide (is_Some (t_nodes t !! path)) then ZOK else ZNONODE);
  zoo_get := get;
  zoo_get_children := get_children;
  zoo_wget_children := watch;
  zk_event := event;
  zk_sleep t := t;
|}.
Definition view : ZkView service := Build_ZkView service t_nodes count watchers t_pending.

Lemma names_spec p t : NoDup (names p t) /\
  forall c, c ∈ names p t <-> slash_free c = true /\ is_Some (t_nodes t !! child p c).
Proof.
  unfold names. split.
  - pose proof (NoDup_fst_map_to_list (t_nodes t)) as Hnd. induction (map_to_list (t_nodes t)) as [|[k v] l IH]; [constructor|].
    simpl in Hnd. apply list.NoDup_cons in Hnd as [Hk Hnd]. simpl.
    destruct (split_path k) as [[d c]|] eqn:E; [|auto]. destruct (decide (d = p)) as [->|]; [|auto].
    apply NoDup_cons_2; [|auto]. intros ([k' v'] & Hin & Hc)%list_elem_of_omap. simpl in Hc.
    destruct (split_path k') as [[d' c']|] eqn:E'; [|done]. destruct (decide (d' = p)) as [->|]; [|done]. injection Hc as ->.
    apply split_path_Some in E as [-> _], E' as [-> _]. apply Hk. by apply (list_elem_of_fmap_2 fst) in Hin.
  - intros c. rewrite list_elem_of_omap. split.
    + intros ([k v] & Hin & Hc). simpl in Hc. destruct (split_path k) as [[d c']|] eqn:E; [|done].
      destruct (decide (d = p)) as [->|]; [|done]. injection Hc as ->. apply split_path_Some in E as [-> ?].
      apply elem_of_map_to_list in Hin. eauto.
    + intros [Hc [v Hv]]. exists (child p c, v). rewrite elem_of_map_to_list. split; [done|]. simpl.
      rewrite split_path_child by done. by rewrite decide_True.
Qed.
Lemma watchers_fire type p t q : watchers (fire type p t) q = if decide (q = p) then ∅ else watchers t q.
Proof.
  unfold watchers, fire. simpl. case_decide as H; [by rewrite H, lookup_delete_eq|].
  by rewrite lookup_delete_ne by auto.
Qed.
Lemma add_created d c v e t : t_nodes t !! child d c = None -> is_Some (t_nodes t !! d) ->
  @created service view t (add d c v e t) d c v e /\ count (add d c v e t) d = count t d + 1.
Proof.
  intros Hn Hd. assert (child d c <> d) as Hne by (intros E; rewrite E in Hn; rewrite Hn in Hd; by destruct Hd).
  assert (count (add d c v e t) d = count t d + 1) as Hc.
  { unfold add, fire, count. simpl. by rewrite lookup_delete_ne, lookup_insert_eq. }
  split; [|done]. split; simpl.
  - done.
  - unfold count. simpl. by rewrite lookup_delete_eq.
  - rewrite Hc. lia.
  - intros q Hq Hs. unfold count. simpl. rewrite lookup_delete_ne, lookup_insert_ne; [done|auto|].
    intros E. rewrite <- E, Hn in Hs. by destruct Hs.
  - intros q. exact (watchers_fire ZOO_CHILD_EVENT d _ q).
  - done.
Qed.
Lemma zpath_split p : zpath p -> exists d c, split_path p = Some (d, c).
Proof. intros H. inversion H as [c Hc|d c Hd Hc]; subst; rewrite split_path_child by (by apply node_name_slash_free); eauto. Qed.

#[export] Instance laws : ZkLaws service.
Proof.
  refine (Build_ZkLaws service view _ _ _ _ _ _ _ _ _ _ _ _).
  - intros z p c v e _ Hc _ Hp Hn. simpl in *. unfold persistent in Hp. simpl in Hp.
    destruct (t_nodes z !! p) as [n|] eqn:E; [|done]. injection Hp as Hp.
    eexists. unfold create. rewrite split_path_child by (by apply node_name_slash_free).
    rewrite bool_decide_eq_false_2 by (rewrite Hn; by intros []). rewrite E, Hp. split; [done|]. apply add_created; [done|by rewrite E].
  - intros z path v e [Hz _] _ Hs. simpl in *. destruct (zpath_split path Hz) as (d & c & Es). unfold create. rewrite Es.
    apply split_path_Some in Es as [-> Hc]. by rewrite bool_decide_eq_true_2.
  - intros z p c v e c' _ Hc _ Hp _ Hn. simpl in *. unfold persistent in Hp. simpl in Hp.
    destruct (t_nodes z !! p) as [n|] eqn:E; [|done]. injection Hp as Hp.
    assert (slash_free c = true) as Sc.
    { apply node_name_slash_free in Hc. unfold c' in Hc. rewrite slash_free_app, andb_true_iff in Hc. by destruct Hc. }
    eexists. unfold create. rewrite split_path_child by done. fold c'.
    rewrite bool_decide_eq_false_2 by (rewrite Hn; by intros []). rewrite E, Hp. split; [done|]. apply add_created; [done|by rewrite E].
  - done.
  - intros z path n v _ Hn Hv _. simpl in *. unfold get. by rewrite Hn, Hv.
  - intros z path _ Hn. simpl in *. unfold get. by rewrite Hn.
  - intros z p _ Hp. simpl in *. unfold get_children. rewrite bool_decide_eq_true_2 by done. eexists. split; [done|]. apply names_spec.
  - intros z p w _ Hp. simpl in *. unfold watch. rewrite bool_decide_eq_true_2 by done. eexists _, _.
    split; [done|]. split; [apply names_spec|]. split; [done|]. split; [done|]. intros q. unfold watchers. simpl.
    case_decide as H; [by rewrite H, lookup_insert_eq|]. by rewrite lookup_insert_ne by auto.
  - intros z p c _ Hc Hp Hn. simpl in *. unfold remove. rewrite split_path_child by (by apply node_name_slash_free).
    rewrite bool_decide_eq_true_2 by done. rewrite bool_decide_eq_true_2.
    + eexists. split; [done|]. split; simpl; [done| |].
      * intros q. rewrite !watchers_fire. repeat case_decide; naive_solver.
      * rewrite watchers_fire. rewrite decide_False; [done|]. intros E.
        apply (f_equal String.length) in E. unfold child in E. rewrite !length_append in E. simpl in E. lia.
    + destruct (names (child p c) z) as [|d l] eqn:E; [done|]. destruct (names_spec (child p c) z) as [_ H].
      destruct (proj1 (H d)) as [Hd Hs]; [rewrite E; left|]. rewrite Hn in Hs by done. by destruct Hs.
  - intros z path [Hz _] Hn. simpl in *. destruct (zpath_split path Hz) as (d & c & Es). unfold remove. rewrite Es.
    by rewrite bool_decide_eq_false_2 by (rewrite Hn; by intros []).
  - intros z Hz. simpl in *. unfold event. by rewrite Hz.
  - intros z Hz. simpl in *. unfold event. destruct (t_pending z) as [|[[type p] w] es] eqn:E; [done|].
    eexists type, p, w, _. split; [done|]. split; [done|]. by split.
Defined.
End TreeZk.
