(* ===== verification/ClusterRTProps.v ===== *)
(** * Properties of the cluster runtime: ids and addresses of processes, departures of workers, removal of nodes *)

From Stdlib Require Import Strings.String Strings.Ascii.
From stdpp Require Import sorting.
From S2P Require Import Prelude Msg Cluster ClusterRT ZkTree.
Local Open Scope string_scope.
Local Open Scope Z_scope.

(** ** Registration *)
Section laws.
Context {K : ZooKeeper} {L : ZkLaws K}.

Lemma CreateNode_child p c v e z : zk_path (child p c) -> node_name c = true -> zk_value v -> persistent z p ->
  nodes z !! child p c = None ->
  exists z', CreateNode (child p c) v e false false z = Ok (z', true, "") /\ created z z' p c v e.
Proof.
  intros Hz Hc Hv Hp Hn. destruct (create_ok z p c v e Hz Hc Hv Hp Hn) as (z' & E & H). exists z'. split; [|done].
  unfold CreateNode. cbn [create_loop]. by rewrite E.
Qed.
Lemma length_child p c : String.length (child p c) = (String.length p + 1 + String.length c)%nat.
Proof. unfold child. rewrite !length_append. simpl. lia. Qed.
Lemma CreateNode_sequential p c e z (c' := c +:+ pad10 (counter z p)) : zpath (child p c') -> node_name c' = true ->
  persistent z p -> 0 <= counter z p < INT_MAX -> nodes z !! child p c' = None ->
  (String.length (child p c') < kZKBufSize)%nat ->
  exists z', CreateNode (child p c) None e true true z = Ok (z', true, child p c') /\
    created z z' p c' None e /\ counter z' p = counter z p + 1.
Proof.
  intros Hz Hc Hp Hk Hn Hl. destruct (create_sequential z p c None e) as (z' & E & H); [|done..|].
  { split; [done|]. unfold kZKBufSize, zk_max in *. fold c'. lia. }
  exists z'. split; [|done]. unfold CreateNode. cbn [create_loop]. rewrite E. cbv zeta. fold c'.
  change (substring 0 (kZKBufSize - 1)) with (substring 0 99). simpl. rewrite substring_short; [done|].
  unfold kZKBufSize in Hl. lia.
Qed.
Lemma GetNode_Ok path n v z : zk_path path -> nodes z !! path = Some n -> zn_value n = Some v ->
  (String.length v < kZKBufSize)%nat -> GetNode path z = Ok (z, Some v).
Proof.
  intros Hz Hn Hv Hl. unfold GetNode. rewrite (get_ok z path n v Hz Hn Hv Hl). change (ZOK =? ZOK) with true. cbv iota beta.
  by rewrite (proj2 (Nat.ltb_lt _ _)).
Qed.
Lemma GetChild_Ok p z : zk_path p -> is_Some (nodes z !! p) -> exists l, GetChild p z = Ok (z, l) /\ children_of z p l.
Proof. intros Hz Hp. destruct (children_ok z p Hz Hp) as (l & E & H). exists l. unfold GetChild. by rewrite E. Qed.
Lemma persistent_Some z p : persistent z p -> is_Some (nodes z !! p).
Proof. unfold persistent. by destruct (nodes z !! p). Qed.
(** A node that is made leaves the others. *)
Lemma created_lookup z z' p c v e q : created z z' p c v e -> q <> child p c -> nodes z' !! q = nodes z !! q.
Proof. intros H Hq. rewrite (cr_nodes _ _ _ _ _ _ H). by rewrite lookup_insert_ne by auto. Qed.
Lemma created_new z z' p c v e : created z z' p c v e -> nodes z' !! child p c = Some (mkZnode v e).
Proof. intros H. rewrite (cr_nodes _ _ _ _ _ _ H). apply lookup_insert_eq. Qed.
Lemma created_is_Some z z' p c v e q : created z z' p c v e ->
  is_Some (nodes z' !! q) <-> q = child p c \/ is_Some (nodes z !! q).
Proof.
  intros H. destruct (decide (q = child p c)) as [->|Hq].
  - rewrite (created_new _ _ _ _ _ _ H). split; [by left|by eexists].
  - rewrite (created_lookup _ _ _ _ _ _ _ H Hq). naive_solver.
Qed.
Lemma created_persistent z z' p c v e q : created z z' p c v e -> nodes z !! child p c = None ->
  persistent z q -> persistent z' q.
Proof.
  intros H Hn Hq. unfold persistent. rewrite (created_lookup _ _ _ _ _ _ _ H); [done|].
  intros ->. unfold persistent in Hq. by rewrite Hn in Hq.
Qed.
Lemma child_not_parent p c : child p c <> p.
Proof. intros E. apply (f_equal String.length) in E. rewrite length_child in E. lia. Qed.

(** The nodes of the locks and of the processes. *)
Definition lock_name (i : nat) : string := "lock-" +:+ pad10 (Z.of_nat i).
Definition proc_node (i : nat) : string := "proc-" +:+ to_string (Z.of_nat i).
Lemma lock_slash_free i : slash_free (lock_name i) = true.
Proof.
  unfold lock_name, pad10. rewrite (proj2 (Z.ltb_ge _ 0)) by lia. rewrite slash_free_app. apply plain_slash_free, plain_digits.
Qed.
Lemma proc_slash_free i : slash_free (proc_node i) = true.
Proof. unfold proc_node. rewrite slash_free_app. apply plain_slash_free, plain_to_string. Qed.
Lemma lock_name_ok i : node_name (lock_name i) = true.
Proof. apply node_name_app; [done|apply printable_pad10|apply slash_free_pad10]. Qed.
Lemma proc_node_ok i : node_name (proc_node i) = true.
Proof. apply node_name_app; [done|apply printable_to_string|apply plain_slash_free, plain_to_string]. Qed.
Lemma length_lock_name i : (String.length (lock_name i) <= 16)%nat.
Proof. unfold lock_name. rewrite length_append. pose proof (length_pad10 (Z.of_nat i)). simpl. lia. Qed.
Lemma length_proc_node i : Z.of_nat i <= INT_MAX -> (String.length (proc_node i) <= 38)%nat.
Proof.
  intros Hi. unfold proc_node. rewrite length_append. pose proof (length_to_string (Z.of_nat i)) as H.
  simpl. rewrite in_int_spec in H. unfold INT_MIN in H. lia.
Qed.
Lemma lock_name_lt i j : (i < j)%nat -> Z.of_nat j <= INT_MAX -> String.compare (lock_name i) (lock_name j) = Lt.
Proof.
  intros Hij Hj. unfold lock_name, pad10. rewrite !(proj2 (Z.ltb_ge _ 0)) by lia. rewrite compare_prefix.
  apply digits_lt; [lia|]. unfold INT_MAX in Hj. lia.
Qed.
Lemma lock_name_inj i j : Z.of_nat i <= INT_MAX -> Z.of_nat j <= INT_MAX -> lock_name i = lock_name j -> i = j.
Proof.
  intros Hi Hj E. destruct (Nat.lt_trichotomy i j) as [H|[H|H]]; [|done|]; apply lock_name_lt in H; try done;
    rewrite E in H; pose proof (String.compare_antisym (lock_name j) (lock_name j)) as Ha; by rewrite H in Ha.
Qed.
Lemma locks_sorted n k : Z.of_nat (k + n) <= INT_MAX -> StronglySorted str_le (map lock_name (seq k n)).
Proof.
  revert k. induction n as [|n IH]; intros k Hk; simpl; [constructor|]. constructor; [apply IH; lia|].
  apply List.Forall_forall. intros s (j & <- & Hj)%in_map_iff. apply in_seq in Hj. apply str_le_iff. right.
  apply lock_name_lt; lia.
Qed.
Lemma locks_nodup n k : Z.of_nat (k + n) <= INT_MAX -> NoDup (map lock_name (seq k n)).
Proof.
  revert k. induction n as [|n IH]; intros k Hk; simpl; [constructor|]. apply NoDup_cons_2; [|apply IH; lia].
  intros (j & E & Hj)%list_elem_of_In%in_map_iff. apply in_seq in Hj. apply lock_name_inj in E; lia.
Qed.
Lemma sort_locks n l : Z.of_nat n <= INT_MAX -> NoDup l -> (forall c, c ∈ l <-> exists i, (i < n)%nat /\ c = lock_name i) ->
  sort_strings l = map lock_name (seq 0 n).
Proof.
  intros Hn Hnd Hl. apply sort_strings_unique; [apply locks_sorted; lia|].
  apply NoDup_Permutation; [done|apply locks_nodup; lia|]. intros c. rewrite Hl, list_elem_of_In, in_map_iff.
  split; intros (i & H1 & H2); exists i.
  - split; [done|]. apply in_seq. lia.
  - apply in_seq in H2. split; [lia|done].
Qed.
Lemma find_own_locks lp n : forall k j, (k <= j < k + n)%nat -> Z.of_nat (k + n) <= INT_MAX ->
  find_own lp (child lp (lock_name j)) (map lock_name (seq k n)) (Z.of_nat k) = Z.of_nat j.
Proof.
  induction n as [|n IH]; intros k j Hj Hm; [lia|]. simpl map. cbn [find_own]. case_decide as Hd.
  - apply child_inj in Hd as [_ Hd]; [|apply lock_slash_free..]. apply lock_name_inj in Hd; lia.
  - assert (k <> j) by (intros ->; done). replace (Z.of_nat k + 1) with (Z.of_nat (S k)) by lia. apply IH; lia.
Qed.

Context (rt : ZKClusterRT).
#[local] Notation lp := (proc_lock_path_ rt).
#[local] Notation pp := (proc_path_ rt).
Context (Hpaths : lp <> pp) (Hlen : (String.length lp + 17 < kZKBufSize)%nat) (Hplen : (String.length pp < kZKBufSize)%nat)
  (Hzl : zpath lp) (Hzp : zpath pp).

(** A process: its address and pid. *)
Definition content (h : string * Z) : string := h.1 +:+ "|" +:+ to_string h.2.
Definition good_host (h : string * Z) : Prop :=
  h.1 <> "" /\ printable h.1 = true /\ (String.length (content h) < kZKBufSize)%nat.
Lemma good_host_value h : good_host h -> zk_value (Some (content h)).
Proof.
  intros (_ & Hp & Hl). unfold kZKBufSize, zk_max in *. split; [|unfold zk_max; lia].
  unfold content. by rewrite !printable_app, Hp, printable_to_string.
Qed.
Lemma lock_path i : zk_path (child lp (lock_name i)).
Proof.
  split; [apply zpath_child; [done|apply lock_name_ok]|]. rewrite length_child. pose proof (length_lock_name i).
  unfold kZKBufSize, zk_max in *. lia.
Qed.
Lemma proc_path i : Z.of_nat i <= INT_MAX -> zk_path (child pp (proc_node i)).
Proof.
  intros Hi. split; [apply zpath_child; [done|apply proc_node_ok]|]. rewrite length_child. pose proof (length_proc_node i Hi).
  unfold kZKBufSize, zk_max in *. lia.
Qed.

(** The processes [hs] have registered. *)
Record registered (hs : list (string * Z)) (z : zk) : Prop := {
  rg_lock : persistent z lp;
  rg_proc : persistent z pp;
  rg_count : counter z lp = Z.of_nat (length hs);
  rg_locks c : slash_free c = true -> is_Some (nodes z !! child lp c) <-> exists i, (i < length hs)%nat /\ c = lock_name i;
  rg_procs i : nodes z !! child pp (proc_node i) = (fun h => mkZnode (Some (content h)) true) <$> hs !! i;
}.
Lemma child_ne p q c d : p <> q -> slash_free c = true -> slash_free d = true -> child p c <> child q d.
Proof. intros H Hc Hd E. by apply child_inj in E as [? _]. Qed.

Lemma RegistProc_step hs z h : registered hs z -> Z.of_nat (length hs) < INT_MAX -> good_host h ->
  exists z', RegistProc rt h.1 h.2 z = Ok (z', Z.of_nat (length hs)) /\ registered (hs ++ [h]) z'.
Proof.
  intros [R1 R2 R3 R4 R5] Hm Hh. set (k := length hs) in *.
  assert (nodes z !! child lp (lock_name k) = None) as Hnew.
  { destruct (nodes z !! child lp (lock_name k)) eqn:E; [|done].
    destruct (proj1 (R4 (lock_name k) (lock_slash_free k))) as (i & Hi & Ei); [by rewrite E|]. apply lock_name_inj in Ei; lia. }
  assert ("lock-" +:+ pad10 (counter z lp) = lock_name k) as Ek by (by rewrite R3).
  destruct (CreateNode_sequential lp "lock-" true z) as (z1 & E1 & N1 & C1); rewrite ?Ek;
    [apply lock_path|apply lock_name_ok|done|lia|done| |].
  { rewrite length_child. pose proof (length_lock_name k). lia. }
  rewrite Ek in *.
  assert (forall c, slash_free c = true -> is_Some (nodes z1 !! child lp c) <-> exists i, (i < S k)%nat /\ c = lock_name i) as L1.
  { intros c Hc. rewrite (created_is_Some _ _ _ _ _ _ _ N1), R4 by done. split.
    - intros [E|(i & Hi & ->)]; [|exists i; split; [lia|done]].
      apply child_inj in E as [_ ->]; [|done|apply lock_slash_free]. exists k. split; [lia|done].
    - intros (i & Hi & ->). destruct (decide (i = k)) as [->|Hne]; [by left|right]. exists i. split; [lia|done]. }
  assert (persistent z1 lp) as P1l by (by apply (created_persistent _ _ _ _ _ _ _ N1)).
  assert (persistent z1 pp) as P1p by (by apply (created_persistent _ _ _ _ _ _ _ N1)).
  destruct (GetChild_Ok lp z1) as (l & E2 & Hnd & Hl); [split; [done|unfold kZKBufSize, zk_max in *; lia]|by apply persistent_Some|].
  assert (sort_strings l = map lock_name (seq 0 (S k))) as Hsort.
  { apply sort_locks; [lia|done|]. intros c. rewrite Hl. split; [intros [Hc Hs]; by apply L1|].
    intros (i & Hi & ->). split; [apply lock_slash_free|]. apply L1; [apply lock_slash_free|eauto]. }
  assert (forall i, nodes z1 !! child pp (proc_node i) = nodes z !! child pp (proc_node i)) as P1.
  { intros i. apply (created_lookup _ _ _ _ _ _ _ N1), child_ne; [done|apply proc_slash_free|apply lock_slash_free]. }
  assert (nodes z1 !! child pp (proc_node k) = None) as Hnewp by (by rewrite P1, R5, lookup_ge_None_2).
  destruct (CreateNode_child pp (proc_node k) (Some (content h)) true z1) as (z2 & E3 & N2);
    [apply proc_path; lia|apply proc_node_ok|by apply good_host_value|done|done|].
  exists z2. split.
  - unfold RegistProc. change (lp +:+ "/lock-") with (child lp "lock-"). rewrite E1, bind_Ok. cbn [negb]. rewrite E2, bind_Ok, Hsort.
    pose proof (find_own_locks lp (S k) 0 k ltac:(lia) ltac:(lia)) as F. change (Z.of_nat 0) with 0 in F. rewrite F. cbv zeta. rewrite (proj2 (Z.eqb_neq _ _)) by lia.
    change (pp +:+ "/proc-" +:+ to_string (Z.of_nat k)) with (child pp (proc_node k)). fold (content h). by rewrite E3, bind_Ok.
  - split.
    + by apply (created_persistent _ _ _ _ _ _ _ N2).
    + by apply (created_persistent _ _ _ _ _ _ _ N2).
    + rewrite (cr_counters _ _ _ _ _ _ N2), C1, length_app by (done || by apply persistent_Some). simpl. lia.
    + intros c Hc. rewrite (created_lookup _ _ _ _ _ _ _ N2), L1, length_app by (done || (apply child_ne; [done|done|apply proc_slash_free])).
      simpl. by rewrite Nat.add_1_r.
    + intros i. destruct (decide (i = k)) as [->|Hne].
      * rewrite (created_new _ _ _ _ _ _ N2). unfold k. by rewrite list_lookup_middle.
      * rewrite (created_lookup _ _ _ _ _ _ _ N2), P1, R5.
        { destruct (decide (i < k)%nat); [by rewrite lookup_app_l|]. rewrite !lookup_ge_None_2; [done| |]; rewrite ?length_app; simpl; lia. }
        intros E. apply child_inj in E as [_ E]; [|apply proc_slash_free..]. apply append_inj, to_string_inj in E. lia.
Qed.

Lemma get_app_ge (a b : string) n : String.get (String.length a + n) (a +:+ b) = String.get n b.
Proof. induction a as [|x a IH]; [done|]. rewrite Header.string_app_cons. exact IH. Qed.
Lemma plain_get s n : plain s = true -> String.get n s <> Some "|"%char.
Proof.
  revert n. induction s as [|c s IH]; intros n; [done|]. simpl. rewrite !andb_true_iff, !negb_true_iff.
  intros [[_ Hc] Hs]. destruct n; [|auto]. intros [= ->]. done.
Qed.
Lemma back_to_bar_content a d : a <> "" -> plain d = true ->
  back_to_bar (a +:+ "|" +:+ d) (String.length (a +:+ "|" +:+ d) - 1) = String.length a.
Proof.
  intros Ha Hd. assert (String.length a <> 0)%nat as Hl by (destruct a; simpl; [done|lia]).
  assert (forall m, back_to_bar (a +:+ "|" +:+ d) (String.length a + m) = String.length a) as H.
  { induction m as [|m IH].
    - rewrite Nat.add_0_r. destruct (String.length a) as [|l] eqn:El; [done|]. cbn [back_to_bar]. rewrite <- El.
      rewrite decide_True; [done|]. by rewrite <- (Nat.add_0_r (String.length a)), get_app_ge.
    - rewrite Nat.add_succ_r. cbn [back_to_bar]. rewrite decide_False; [done|]. rewrite <- Nat.add_succ_r, get_app_ge.
      change ("|" +:+ d) with (String "|" d). exact (plain_get d m Hd). }
  rewrite !length_append. simpl String.length. rewrite <- (H (String.length d)) at 2. f_equal. lia.
Qed.
Lemma GetProcHost_Ok hs z i : registered hs z -> Forall good_host hs -> Z.of_nat i <= INT_MAX ->
  GetProcHost rt (Z.of_nat i) z = Ok (z, default "" (fst <$> hs !! i)).
Proof.
  intros R Hg Hi. unfold GetProcHost. change (pp +:+ "/proc-" +:+ to_string (Z.of_nat i)) with (child pp (proc_node i)).
  pose proof (rg_procs hs z R i) as Hp. destruct (hs !! i) as [h|] eqn:E; simpl in Hp |- *.
  - destruct (proj1 (list.Forall_lookup _ _) Hg i h E) as (Hne & _ & Hlen').
    rewrite (GetNode_Ok _ _ _ _ (proc_path i Hi) Hp eq_refl Hlen'), bind_Ok.
    unfold content in *. rewrite decide_False by (destruct h as [[] ?]; done). rewrite back_to_bar_content by (done || apply plain_to_string).
    cbv zeta. rewrite (CHECK_holds (negb _)) by (destruct h as [[] ?]; done). by rewrite bind_Ok, substring_front.
  - unfold GetNode. by rewrite (get_none z _ (proc_path i Hi) Hp).
Qed.
End laws.

(** *** The folders of a job *)
Section init.
Context {K : ZooKeeper} {L : ZkLaws K}.

(** [CreateNode] of a permanent node makes sure that it exists. *)
Lemma CreateNode_ensure p c z : zk_path (child p c) -> node_name c = true -> persistent z p ->
  (forall n, nodes z !! child p c = Some n -> zn_ephemeral n = false) ->
  exists z', CreateNode (child p c) None false false false z = Ok (z', true, "") /\
    persistent z' (child p c) /\ (forall q, q <> child p c -> nodes z' !! q = nodes z !! q) /\
    (nodes z !! child p c = None -> counter z' (child p c) = 0).
Proof.
  intros Hz Hc Hp He. destruct (nodes z !! child p c) as [n|] eqn:E.
  - exists z. unfold CreateNode. cbn [create_loop]. rewrite create_exists by (done || by rewrite E). simpl.
    unfold persistent. rewrite E. simpl. rewrite (He n eq_refl). by split_and!.
  - destruct (CreateNode_child p c None false z Hz Hc I Hp E) as (z' & Ez & H). exists z'. split; [done|].
    unfold persistent. rewrite (created_new _ _ _ _ _ _ H). split; [done|]. split; [|intros _; apply (cr_counter _ _ _ _ _ _ H)].
    intros q Hq. by apply (created_lookup _ _ _ _ _ _ _ H).
Qed.

(** No process of the job has come yet; the folders of the job that are there can have children. *)
Record fresh (rt : ZKClusterRT) (z : zk) : Prop := {
  fr_root : persistent z "";
  fr_folders q n : q ∈ [kZKPathSinga; kZKPathApp; workspace_ rt; group_path_ rt; proc_path_ rt] ->
    nodes z !! q = Some n -> zn_ephemeral n = false;
  fr_lock : nodes z !! proc_lock_path_ rt = None;
  fr_locks c : slash_free c = true -> nodes z !! child (proc_lock_path_ rt) c = None;
  fr_procs c : slash_free c = true -> nodes z !! child (proc_path_ rt) c = None;
}.

(** The depth of a node. *)
Fixpoint slashes (s : string) : nat :=
  match s with "" => 0 | String c s => ((if Ascii.eqb c "/" then 1 else 0) + slashes s)%nat end.
Lemma slashes_child p c : slash_free c = true -> slashes (child p c) = S (slashes p).
Proof.
  intros Hc. unfold child. induction p as [|x p IH].
  - change ("" +:+ "/" +:+ c) with (String "/" c). simpl. f_equal.
    induction c as [|y c IHc]; [done|]. simpl in Hc |- *. destruct (Ascii.eqb y "/"); [done|]. auto.
  - rewrite Header.string_app_cons. simpl. rewrite IH. lia.
Qed.

(** The paths of a job. *)
Lemma workspace_child job : GetZKJobWorkspace job = child kZKPathApp ("job-" +:+ pad10 job).
Proof. reflexivity. Qed.
Lemma job_name_ok job : node_name ("job-" +:+ pad10 job) = true.
Proof. apply node_name_app; [done|apply printable_pad10|apply slash_free_pad10]. Qed.
Lemma zpath_app : zpath kZKPathApp.
Proof. apply (zpath_child "/singa" "app"); [|done]. by apply (zpath_top "singa"). Qed.
Lemma zpath_workspace job : zpath (GetZKJobWorkspace job).
Proof. rewrite workspace_child. apply zpath_child; [apply zpath_app|apply job_name_ok]. Qed.
Lemma length_workspace job : (String.length (GetZKJobWorkspace job) <= 27)%nat.
Proof. rewrite workspace_child, length_child, length_append. pose proof (length_pad10 job). simpl. lia. Qed.
Lemma slashes_workspace job : slashes (GetZKJobWorkspace job) = 3%nat.
Proof. rewrite workspace_child, slashes_child by (apply node_name_slash_free, job_name_ok). done. Qed.
Lemma job_folder job c : node_name c = true -> (String.length c <= 20)%nat ->
  zk_path (child (GetZKJobWorkspace job) c) /\ (String.length (child (GetZKJobWorkspace job) c) <= 48)%nat.
Proof.
  intros Hc Hl. pose proof (length_workspace job). unfold zk_path. rewrite length_child. unfold zk_max.
  split; [split; [apply zpath_child; [apply zpath_workspace|done]|lia]|lia].
Qed.

Lemma RT_Init_fresh host job timeout z0 (rt := ZKClusterRT_make host job timeout) :
  zookeeper_init host timeout = Some z0 -> fresh rt z0 ->
  exists z, RT_Init rt = Ok (Some z) /\ registered rt [] z.
Proof.
  intros E0 [F1 Fe F2 F3 F4]. unfold RT_Init. cbn [rt ZKClusterRT_make rt_host rt_timeout workspace_ group_path_] in *. rewrite E0.
  set (ws := GetZKJobWorkspace job) in *.
  assert (proc_lock_path_ rt = child ws "proc-lock") as Elp by done. assert (proc_path_ rt = child ws "proc") as Epp by done.
  rewrite ?Elp, ?Epp in *. clearbody rt.
  assert (ws = child kZKPathApp ("job-" +:+ pad10 job)) as Ews by reflexivity.
  assert (zk_path (child kZKPathApp ("job-" +:+ pad10 job))) as Zws.
  { rewrite <- Ews. split; [apply zpath_workspace|]. pose proof (length_workspace job). unfold zk_max, ws. lia. }
  assert (slash_free ("job-" +:+ pad10 job) = true) as Sws by (apply node_name_slash_free, job_name_ok).
  destruct (job_folder job "group" eq_refl ltac:(simpl; lia)) as [Zg _].
  destruct (job_folder job "proc" eq_refl ltac:(simpl; lia)) as [Zp _].
  destruct (job_folder job "proc-lock" eq_refl ltac:(simpl; lia)) as [Zl _]. fold ws in Zg, Zp, Zl.
  pose proof (slashes_workspace job) as D. fold ws in D.
  assert (forall q z z', (forall r, r <> q -> nodes z' !! r = nodes z !! r) -> forall r, slashes r <> slashes q ->
    nodes z' !! r = nodes z !! r) as Hne by (intros q z z' H r Hr; apply H; by intros ->).
  change (ws +:+ kZKPathJobGroup) with (child ws "group") in *.
  change kZKPathSinga with (child "" "singa") in *. change kZKPathApp with (child (child "" "singa") "app") in *.
  assert (slashes (child "" "singa") = 1 /\ slashes (child (child "" "singa") "app") = 2)%nat as [D1 D2] by done.
  assert (slashes (child ws "group") = 4 /\ slashes (child ws "proc") = 4 /\ slashes (child ws "proc-lock") = 4)%nat as (D4 & D5 & D6).
  { rewrite !slashes_child by done. by rewrite D. }
  destruct (CreateNode_ensure "" "singa" z0) as (z1 & E1 & N1 & O1 & _); [split; [by apply zpath_top|unfold zk_max; simpl; lia]|done|done|intros n; refine (Fe _ n _); left|].
  destruct (CreateNode_ensure (child "" "singa") "app" z1) as (z2 & E2 & N2 & O2 & _);
    [split; [apply zpath_app|unfold zk_max; simpl; lia]|done|done|intros n; rewrite (Hne _ _ _ O1) by lia; refine (Fe _ n _); right; left|].
  destruct (CreateNode_ensure _ _ z2 Zws (job_name_ok job) N2) as (z3 & E3 & N3 & O3 & _); rewrite <- ?Ews in *.
  { intros n. rewrite (Hne _ _ _ O2), (Hne _ _ _ O1) by lia. refine (Fe _ n _). do 2 right. left. }
  destruct (CreateNode_ensure _ "group" z3 Zg eq_refl N3) as (z4 & E4 & N4 & O4 & _).
  { intros n. rewrite (Hne _ _ _ O3), (Hne _ _ _ O2), (Hne _ _ _ O1) by lia. refine (Fe _ n _). do 3 right. left. }
  assert (persistent z4 ws) as N4' by (unfold persistent; by rewrite (Hne _ _ _ O4) by lia).
  assert (child ws "proc" <> child ws "group" /\ child ws "proc-lock" <> child ws "group" /\
    child ws "proc-lock" <> child ws "proc" /\ child ws "proc" <> child ws "proc-lock") as (Hd1 & Hd2 & Hd3 & Hd4).
  { split_and!; intros E; by apply child_inj in E as [_ E]. }
  destruct (CreateNode_ensure _ "proc" z4 Zp eq_refl N4') as (z5 & E5 & N5 & O5 & _).
  { intros n. rewrite O4, (Hne _ _ _ O3), (Hne _ _ _ O2), (Hne _ _ _ O1) by (done || lia). refine (Fe _ n _). do 4 right. left. }
  assert (persistent z5 ws) as N5' by (unfold persistent; by rewrite (Hne _ _ _ O5) by lia).
  assert (nodes z5 !! child ws "proc-lock" = None) as H5.
  { by rewrite O5, O4, (Hne _ _ _ O3), (Hne _ _ _ O2), (Hne _ _ _ O1) by (done || lia). }
  destruct (CreateNode_ensure _ "proc-lock" z5 Zl eq_refl N5') as (z6 & E6 & N6 & O6 & C6); [by rewrite H5|].
  assert (forall q, (4 < slashes q)%nat -> nodes z6 !! q = nodes z0 !! q) as Old.
  { intros q Hq. by rewrite (Hne _ _ _ O6), (Hne _ _ _ O5), (Hne _ _ _ O4), (Hne _ _ _ O3), (Hne _ _ _ O2), (Hne _ _ _ O1) by lia. }
  exists z6. cbn [create_all]. rewrite E1, bind_Ok, E2, bind_Ok, E3, bind_Ok, E4, bind_Ok, E5, bind_Ok, E6, !bind_Ok.
  split; [done|]. split; rewrite ?Elp, ?Epp.
  - exact N6.
  - unfold persistent. by rewrite O6.
  - by apply C6.
  - intros c Hc. rewrite Old, F3 by (rewrite ?slashes_child by done; lia || done).
    split; [intros []; done|]. intros (i & Hi & _). simpl in Hi. lia.
  - intros i. rewrite Old, F4; [done|apply proc_slash_free|].
    rewrite !slashes_child by (done || apply proc_slash_free). rewrite D. lia.
Qed.
End init.

(** The processes of a cluster. *)
Fixpoint register_all {K : ZooKeeper} (cl : Cluster) (rt : ZKClusterRT) (hs : list (string * Z)) (z : zk) : outcome (zk * list Z) :=
  match hs with
  | [] => Ok (z, [])
  | h :: hs => '(z, id) ← Cluster_Register cl rt h.2 h.1 z; '(z, ids) ← register_all cl rt hs z; Ok (z, id :: ids)
  end.
(** The paths of the runtime: valid, and short enough for the buffers. *)
Record paths_ok (rt : ZKClusterRT) : Prop := {
  po_ne : proc_lock_path_ rt <> proc_path_ rt;
  po_lock_len : (String.length (proc_lock_path_ rt) + 17 < kZKBufSize)%nat;
  po_proc_len : (String.length (proc_path_ rt) < kZKBufSize)%nat;
  po_lock : zpath (proc_lock_path_ rt);
  po_proc : zpath (proc_path_ rt);
}.
Lemma job_paths_ok host job timeout : paths_ok (ZKClusterRT_make host job timeout).
Proof.
  destruct (job_folder job "proc" eq_refl ltac:(simpl; lia)) as [[Zp _] Lp].
  destruct (job_folder job "proc-lock" eq_refl ltac:(simpl; lia)) as [[Zl _] Ll].
  unfold ZKClusterRT_make. split; cbn [proc_lock_path_ proc_path_]; change (GetZKJobWorkspace job +:+ kZKPathJobPLock) with (child (GetZKJobWorkspace job) "proc-lock");
    change (GetZKJobWorkspace job +:+ kZKPathJobProc) with (child (GetZKJobWorkspace job) "proc"); unfold kZKBufSize; [|lia|lia|done..].
  intros E. by apply child_inj in E as [_ E].
Qed.
Lemma register_all_Ok {K : ZooKeeper} {L : ZkLaws K} cl rt (P : paths_ok rt) gs : nprocs_ cl <= INT_MAX -> Forall good_host gs ->
  forall hs z, registered rt hs z -> Z.of_nat (length hs + length gs) <= nprocs_ cl ->
  exists z', register_all cl rt gs z = Ok (z', map Z.of_nat (seq (length hs) (length gs))) /\ registered rt (hs ++ gs)%list z'.
Proof.
  intros Hmax Hg. destruct P as [P1 P2 P3 P4 P5]. induction Hg as [|h gs Hh Hg IH]; intros hs z R Hm.
  - exists z. by rewrite app_nil_r.
  - simpl length in Hm. destruct (RegistProc_step rt P1 P2 P3 P4 P5 hs z h R ltac:(lia) Hh) as (z1 & E1 & R1).
    destruct (IH (hs ++ [h])%list z1 R1) as (z2 & E2 & R2); [rewrite length_app; simpl; lia|].
    exists z2. split; [|by rewrite (cons_middle h), app_assoc]. simpl. unfold Cluster_Register, Register_procs.
    rewrite E1, bind_Ok, (CHECK_holds (0 <=? _)), bind_Ok, (CHECK_holds (_ <? _)), !bind_Ok, E2, bind_Ok by lia.
    by rewrite length_app, Nat.add_1_r.
Qed.

(** C37. When the processes of a job that nobody has joined register one after the other, as many
    as the topology of the cluster has, they get the ids 0, 1, 2, ... in the order of their
    registration; from then on [endpoint] of every id is the address that its process registered
    with; and a process too many dies. *)
Theorem Cluster_endpoints {K : ZooKeeper} {L : ZkLaws K} cl host job timeout z0 (hs : list (string * Z)) (h : string * Z) :
  let rt := ZKClusterRT_make host job timeout in
  zookeeper_init host timeout = Some z0 -> fresh rt z0 -> Forall good_host hs -> good_host h ->
  nprocs_ cl = Z.of_nat (length hs) -> nprocs_ cl < INT_MAX ->
  exists z z', RT_Init rt = Ok (Some z) /\
    register_all cl rt hs z = Ok (z', map Z.of_nat (seq 0 (length hs))) /\
    (forall i h, hs !! i = Some h -> Cluster_endpoint cl rt [] (Z.of_nat i) z' = Ok (z', h.1)) /\
    Cluster_Register cl rt h.2 h.1 z' = Fatal.
Proof.
  intros rt E0 F Hg Hh Hn Hm. destruct (RT_Init_fresh host job timeout z0 E0 F) as (z & Ei & R). exists z.
  pose proof (job_paths_ok host job timeout) as P. fold rt in P.
  destruct (register_all_Ok cl rt P hs ltac:(lia) Hg [] z R) as (z' & Er & R'); [simpl; lia|]. destruct P as [P1 P2 P3 P4 P5].
  exists z'. split_and!; [done|done| |].
  - intros i h' Hi. pose proof (lookup_lt_Some _ _ _ Hi). unfold Cluster_endpoint.
    rewrite (CHECK_holds (_ <? _)), bind_Ok, (CHECK_holds (0 <=? _)), bind_Ok by lia. cbn [length Nat.ltb Nat.leb].
    rewrite (GetProcHost_Ok rt P2 P3 P5 hs z' i R' Hg) by lia. by rewrite Hi.
  - destruct (RegistProc_step rt P1 P2 P3 P4 P5 hs z' h R' ltac:(lia) Hh) as (z2 & E2 & _). unfold Cluster_Register, Register_procs.
    rewrite E2, bind_Ok, (CHECK_holds (0 <=? _)), bind_Ok by lia. by rewrite Hn, Z.ltb_irrefl.
Qed.
Lemma Cluster_endpoints_witness : exists (cl : Cluster) (z z' : @zk TreeZk.service),
  let rt := ZKClusterRT_make "zk:2181" 7 30000 in
  Cluster_make (mkClusterProto 2 1 1 1 1 1 false) = Ok cl /\ RT_Init rt = Ok (Some z) /\
  register_all cl rt [("10.0.0.1:49152", 411); ("10.0.0.2:49152", 7)] z = Ok (z', [0; 1]) /\
  Cluster_endpoint cl rt [] 1 z' = Ok (z', "10.0.0.2:49152").
Proof.
  eexists. destruct (@Cluster_endpoints TreeZk.service TreeZk.laws
    (match Cluster_make (mkClusterProto 2 1 1 1 1 1 false) with Ok cl => cl | _ => mkCluster (mkClusterProto 2 1 1 1 1 1 false) 0 ∅ end)
    "zk:2181" 7 30000 TreeZk.empty [("10.0.0.1:49152", 411); ("10.0.0.2:49152", 7)] ("10.0.0.3:1", 9) eq_refl)
    as (z & z' & E1 & E2 & E3 & _).
  - split; [reflexivity| |reflexivity|..].
    + intros q n Hq Hn. change (({["" := mkZnode None false]} : gmap string znode) !! q = Some n) in Hn.
      by apply lookup_singleton_Some in Hn as [_ <-].
    + intros c _. by apply lookup_singleton_ne.
    + intros c _. by apply lookup_singleton_ne.
  - by repeat constructor.
  - by repeat constructor.
  - reflexivity.
  - vm_compute. done.
  - exists z, z'. split; [reflexivity|]. split; [exact E1|]. split; [exact E2|]. exact (E3 1%nat _ eq_refl).
Defined.

(** ** Server groups *)
Section group.
Context {K : ZooKeeper} {L : ZkLaws K}.

(** A worker [(gid, wid)] joins or leaves the server group; an event, if there is one, is
    delivered to its watcher. *)
Inductive group_op := Join (x : Z * Z) | Leave (x : Z * Z) | Deliver.
Definition group_step (rt : ZKClusterRT) (sg : Z) (op : group_op) (cbs : list RTCallback) (z : zk)
    : outcome (zk * list RTCallback * list (Z * Z)) :=
  match op with
  | Join x => '(z, _) ← JoinSGroup rt x.1 x.2 sg z; Ok (z, cbs, [])
  | Leave x => '(z, _) ← LeaveSGroup rt x.1 x.2 sg z; Ok (z, cbs, [])
  | Deliver =>
      match zk_event z with
      | Some (type, path, w, z) => ChildChanges type path w cbs z
      | None => Ok (z, cbs, [])
      end
  end.
Fixpoint group_run (rt : ZKClusterRT) (sg : Z) (ops : list group_op) (cbs : list RTCallback) (z : zk)
    : outcome (zk * list RTCallback * list (Z * Z)) :=
  match ops with
  | [] => Ok (z, cbs, [])
  | op :: ops =>
      '(z, cbs, calls) ← group_step rt sg op cbs z;
      '(z, cbs, calls') ← group_run rt sg ops cbs z;
      Ok (z, cbs, (calls ++ calls')%list)
  end.

Definition member_step (m : gset (Z * Z)) (op : group_op) : gset (Z * Z) :=
  match op with Join x => {[x]} ∪ m | Leave x => m ∖ {[x]} | Deliver => m end.
(** A worker, whose ids are [int]s, joins when it is out and leaves when it is in. *)
Fixpoint effective (m : gset (Z * Z)) (ops : list group_op) : Prop :=
  match ops with
  | [] => True
  | op :: ops =>
      match op with
      | Join x => x ∉ m /\ in_int x.1 = true /\ in_int x.2 = true
      | Leave x => x ∈ m
      | Deliver => True
      end /\ effective (member_step m op) ops
  end.
(** At one of the deliveries the group is empty, and somebody came or left since the one before
    ([changed] at the beginning). *)
Fixpoint seen_empty (m : gset (Z * Z)) (changed : bool) (ops : list group_op) : bool :=
  match ops with
  | [] => false
  | Deliver :: ops => (changed && bool_decide (m = ∅)) || seen_empty m false ops
  | op :: ops => seen_empty (member_step m op) true ops
  end.

Definition worker_name (x : Z * Z) : string := "g" +:+ to_string x.1 +:+ "_w" +:+ to_string x.2.
Lemma worker_path gp x : gp +:+ workerPath x.1 x.2 = child gp (worker_name x).
Proof. done. Qed.
Lemma worker_slash_free x : slash_free (worker_name x) = true.
Proof.
  unfold worker_name. rewrite !slash_free_app, !(plain_slash_free (to_string _)) by apply plain_to_string. done.
Qed.
Lemma worker_name_inj x y : worker_name x = worker_name y -> x = y.
Proof.
  destruct x as [g v], y as [g' v']. unfold worker_name, to_string. simpl. intros E%append_inj.
  pose proof (Header.scan_print_d g ("_w" +:+ Header.print_d v) eq_refl) as H. rewrite E, Header.scan_print_d in H by exact eq_refl.
  injection H as <- E'. apply to_string_inj in E'. by rewrite E'.
Qed.

Lemma worker_name_ok x : node_name (worker_name x) = true.
Proof.
  apply node_name_app; [done|..]; rewrite ?printable_app, ?slash_free_app, ?printable_to_string,
    ?(plain_slash_free (to_string _)) by apply plain_to_string; done.
Qed.
Lemma length_worker_name x : in_int x.1 = true -> in_int x.2 = true -> (String.length (worker_name x) <= 69)%nat.
Proof.
  intros H1%length_to_string H2%length_to_string. unfold worker_name. rewrite !length_append. simpl. lia.
Qed.
Lemma grandchild_ne gp x y c : slash_free c = true -> child gp (worker_name x) <> child (child gp (worker_name y)) c.
Proof.
  intros Hc E. apply child_inj in E as [E _]; [|apply worker_slash_free|done]. exact (child_not_parent _ _ (eq_sym E)).
Qed.

Section members.
Context (gp : string) (Hgp : zpath gp) (Hgl : (String.length gp <= 200)%nat).

(** The nodes of a group with members [m]. *)
Record group_inv (m : gset (Z * Z)) (z : zk) : Prop := {
  gi_folder : persistent z gp;
  gi_int x : x ∈ m -> in_int x.1 = true /\ in_int x.2 = true;
  gi_members c : slash_free c = true -> is_Some (nodes z !! child gp c) <-> exists x, x ∈ m /\ c = worker_name x;
  gi_leaves x c : slash_free c = true -> nodes z !! child (child gp (worker_name x)) c = None;
  gi_unwatched x : watches z (child gp (worker_name x)) = ∅;
}.
Lemma worker_zk_path x : in_int x.1 = true -> in_int x.2 = true -> zk_path (child gp (worker_name x)).
Proof.
  intros H1 H2. split; [apply zpath_child; [done|apply worker_name_ok]|]. rewrite length_child.
  pose proof (length_worker_name x H1 H2). unfold zk_max. lia.
Qed.
Lemma gp_zk_path : zk_path gp.
Proof. split; [done|]. unfold zk_max. lia. Qed.

(** What a change does to the watchers of the group and to the events. *)
Definition changes (z z' : zk) : Prop :=
  watches z' gp = ∅ /\ pending z' ≡ₚ (fired ZOO_CHILD_EVENT gp (watches z gp) ++ pending z)%list.

Lemma join_Ok m x z : group_inv m z -> x ∉ m -> in_int x.1 = true -> in_int x.2 = true ->
  exists z', CreateNode (child gp (worker_name x)) None true false false z = Ok (z', true, "") /\
    group_inv ({[x]} ∪ m) z' /\ changes z z'.
Proof.
  intros [H1 H0 H2 H3 H4] Hx Hi1 Hi2.
  assert (nodes z !! child gp (worker_name x) = None) as Hn.
  { destruct (nodes z !! child gp (worker_name x)) eqn:E; [|done].
    destruct (proj1 (H2 _ (worker_slash_free x))) as (y & Hy & Ey); [by rewrite E|]. apply worker_name_inj in Ey. congruence. }
  destruct (CreateNode_child gp (worker_name x) None true z) as (z' & E & N); [by apply worker_zk_path|apply worker_name_ok|done..|].
  exists z'. split; [done|]. split.
  - split.
    + by apply (created_persistent _ _ _ _ _ _ _ N).
    + intros y [->%elem_of_singleton|Hy]%elem_of_union; [done|by apply H0].
    + intros c Hc. rewrite (created_is_Some _ _ _ _ _ _ _ N), H2 by done. split.
      * intros [Ec|(y & Hy & ->)]; [|exists y; set_solver].
        apply child_inj in Ec as [_ ->]; [|done|apply worker_slash_free]. exists x. set_solver.
      * intros (y & [->%elem_of_singleton|Hy]%elem_of_union & ->); [by left|right; eauto].
    + intros y c Hc. rewrite (created_lookup _ _ _ _ _ _ _ N); [auto|]. apply not_eq_sym. by apply grandchild_ne.
    + intros y. rewrite (cr_watches _ _ _ _ _ _ N). case_decide; [done|apply H4].
  - split; [|apply (cr_pending _ _ _ _ _ _ N)]. rewrite (cr_watches _ _ _ _ _ _ N). by rewrite decide_True.
Qed.
Lemma leave_Ok m x z : group_inv m z -> x ∈ m ->
  exists z', DeleteNode (child gp (worker_name x)) z = Ok (z', true) /\
    group_inv (m ∖ {[x]}) z' /\ changes z z'.
Proof.
  intros [H1 H0 H2 H3 H4] Hx. destruct (H0 x Hx) as [Hi1 Hi2].
  destruct (delete_ok z gp (worker_name x)) as (z' & E & N); [by apply worker_zk_path|apply worker_name_ok|..].
  { apply H2; [apply worker_slash_free|eauto]. } { intros c Hc. by apply H3. }
  pose proof (dl_nodes _ _ _ _ N) as Nn.
  exists z'. unfold DeleteNode. rewrite E. split; [done|]. split.
  - split; rewrite ?Nn.
    + unfold persistent. rewrite Nn, lookup_delete_ne by apply child_not_parent. exact H1.
    + intros y [Hy _]%elem_of_difference. by apply H0.
    + intros c Hc. rewrite lookup_delete_is_Some, H2 by done. split.
      * intros [Hne (y & Hy & ->)]. exists y. split; [|done]. apply elem_of_difference. split; [done|].
        intros ->%elem_of_singleton. done.
      * intros (y & [Hy Hxy]%elem_of_difference & ->). split; [|eauto].
        intros Ec. apply child_inj in Ec as [_ Ec]; [|apply worker_slash_free..]. apply worker_name_inj in Ec.
        apply Hxy. by apply elem_of_singleton.
    + intros y c Hc. rewrite lookup_delete_ne by (by apply grandchild_ne). auto.
    + intros y. rewrite (dl_watches _ _ _ _ N). case_decide; [done|apply H4].
  - split; [rewrite (dl_watches _ _ _ _ N); by rewrite decide_True by auto|].
    rewrite (dl_pending _ _ _ _ N), H4. done.
Qed.

(** A delivered event: the children are read, and the watch is left again. *)
Lemma ChildChanges_Ok m w cbs z fn ctx : group_inv m z -> watches z gp = ∅ -> cbs !! w = Some (mkRTCallback (Some fn) ctx) ->
  exists z', group_inv m z' /\ watches z' gp = {[w]} /\ pending z' = pending z /\
    ChildChanges ZOO_CHILD_EVENT gp w cbs z =
    if bool_decide (m = ∅) then Ok (z', <[w := mkRTCallback None ctx]> cbs, [(fn, ctx)]) else Ok (z', cbs, []).
Proof.
  intros Hi Hww Hw. destruct (watch_ok z gp w gp_zk_path (persistent_Some _ _ (gi_folder _ _ Hi))) as (z' & l & E & [_ Hl] & N & P & W).
  exists z'. split; [|split; [|split; [done|]]].
  - destruct Hi as [H1 H0 H2 H3 H4]. split; unfold persistent in *; rewrite ?N; [done..|].
    intros x. rewrite W. case_decide as Hd; [by apply child_not_parent in Hd|apply H4].
  - rewrite W, decide_True, Hww by done. set_solver.
  - unfold ChildChanges. rewrite Hw. cbn [deref]. rewrite bind_Ok.
    cbn [cb_fn cb_ctx]. change (ZOO_CHILD_EVENT =? ZOO_CHILD_EVENT) with true. cbv iota. rewrite E.
    change (ZOK =? ZOK) with true. cbv iota. destruct l as [|c l]; simpl.
    + rewrite bool_decide_eq_true_2; [done|]. apply elem_of_equiv_empty_L. intros x Hx. apply (not_elem_of_nil (worker_name x)), Hl.
      split; [apply worker_slash_free|]. apply (gi_members _ _ Hi); [apply worker_slash_free|eauto].
    + destruct (proj1 (Hl c)) as [Hc Hs]; [left|]. apply (gi_members _ _ Hi) in Hs as (x & Hx & _); [|done].
      rewrite bool_decide_eq_false_2; [done|]. intros E0. rewrite E0 in Hx. set_solver.
Qed.

(** The watcher [w] of the group: it waits, or its event does, once the group has [changed];
    when its callback was called ([fn] is null) it may also be gone. *)
Definition armed (w : nat) (fn : option Z) (changed : bool) (z : zk) : Prop :=
  (changed = false /\ watches z gp = {[w]} /\ pending z = []) \/
  (changed = true /\ watches z gp = ∅ /\ pending z = [(ZOO_CHILD_EVENT, gp, w)]) \/
  (fn = None /\ watches z gp = ∅ /\ pending z = []).
Lemma armed_changes w fn changed z z' : armed w fn changed z -> changes z z' -> armed w fn true z'.
Proof.
  intros H [W P]. right. destruct H as [(_ & Hw & Hp)|[(_ & Hw & Hp)|(Hf & Hw & Hp)]]; rewrite Hw, Hp in P; unfold fired in P.
  - left. rewrite elements_singleton in P. apply Permutation_singleton_r in P. done.
  - left. rewrite elements_empty in P. apply Permutation_singleton_r in P. done.
  - right. rewrite elements_empty in P. apply Permutation_nil_r in P. done.
Qed.
End members.

Lemma group_run_Ok rt sg w ops (gp := groupPath rt sg) (Hgp : zpath gp) (Hgl : (String.length gp <= 200)%nat) :
  forall m changed cbs z fn ctx,
  group_inv gp m z -> armed gp w fn changed z -> effective m ops -> cbs !! w = Some (mkRTCallback fn ctx) ->
  exists z', group_inv gp (foldl member_step m ops) z' /\
    group_run rt sg ops cbs z =
    match fn with
    | Some f => if seen_empty m changed ops then Ok (z', <[w := mkRTCallback None ctx]> cbs, [(f, ctx)]) else Ok (z', cbs, [])
    | None => Ok (z', cbs, [])
    end.
Proof.
  induction ops as [|op ops IH]; intros m changed cbs z fn ctx Hi Ha He Hw; [exists z; by destruct fn|].
  destruct He as [Hop He]. cbn [group_run foldl].
  assert (forall z', group_inv gp (member_step m op) z' -> armed gp w fn true z' -> op <> Deliver ->
    group_step rt sg op cbs z = Ok (z', cbs, []) ->
    exists z', group_inv gp (foldl member_step (member_step m op) ops) z' /\
    ('(z, cbs, calls) ← group_step rt sg op cbs z; '(z, cbs, calls') ← group_run rt sg ops cbs z; Ok (z, cbs, (calls ++ calls')%list)) =
    match fn with
    | Some f => if seen_empty m changed (op :: ops) then Ok (z', <[w := mkRTCallback None ctx]> cbs, [(f, ctx)]) else Ok (z', cbs, [])
    | None => Ok (z', cbs, [])
    end) as Hchange.
  { intros z1 I1 A1 Hne E1. destruct (IH _ true cbs z1 fn ctx I1 A1 He Hw) as (z2 & I2 & E2). exists z2. split; [done|].
    rewrite E1, bind_Ok, E2. destruct op; [..|done]; destruct fn; try done; cbn [seen_empty]; by destruct (seen_empty _ _ _). }
  destruct op as [x|x|].
  - destruct Hop as (Hx & Hx1 & Hx2). destruct (join_Ok gp Hgp Hgl m x z Hi Hx Hx1 Hx2) as (z1 & E1 & I1 & C1).
    apply (Hchange z1); [done|by apply armed_changes with changed z|done|].
    simpl. unfold JoinSGroup. rewrite worker_path. fold gp. by rewrite E1.
  - destruct (leave_Ok gp Hgp Hgl m x z Hi Hop) as (z1 & E1 & I1 & C1).
    apply (Hchange z1); [done|by apply armed_changes with changed z|done|].
    simpl. unfold LeaveSGroup. rewrite worker_path. fold gp. by rewrite E1.
  - clear Hchange Hop. cbn [member_step seen_empty] in *. destruct Ha as [(-> & W & P)|[(-> & W & P)|(-> & W & P)]].
    + destruct (IH m false cbs z fn ctx Hi ltac:(by left) He Hw) as (z2 & I2 & E2). exists z2. split; [done|].
      unfold group_step. rewrite event_none, bind_Ok, E2 by done. destruct fn; [|done]. simpl. by destruct (seen_empty _ _ _).
    + destruct (event_some z) as (t & p & w' & z1 & Ee & Pe & N & W1); [by rewrite P|].
      rewrite P in Pe. symmetry in Pe. apply Permutation_singleton_r in Pe. injection Pe as -> -> -> Pn.
      assert (group_inv gp m z1) as I1.
      { destruct Hi as [H1 H0 H2 H3 H4]. split; unfold persistent in *; rewrite ?N; [done..|]. intros x. by rewrite W1. }
      assert (watches z1 gp = ∅) as W1' by (by rewrite W1).
      unfold group_step. rewrite Ee. destruct fn as [f|].
      * destruct (ChildChanges_Ok gp Hgp Hgl m w cbs z1 f ctx I1 W1' Hw) as (z2 & I2 & W2 & P2 & E2). rewrite E2. cbn [andb].
        destruct (bool_decide (m = ∅)); rewrite bind_Ok.
        { destruct (IH m false (<[w := mkRTCallback None ctx]> cbs) z2 None ctx I2) as (z3 & I3 & E3);
            [left; by rewrite P2|done|apply list_lookup_insert_eq; by apply lookup_lt_Some in Hw|].
          exists z3. by rewrite E3. }
        destruct (IH m false cbs z2 (Some f) ctx I2) as (z3 & I3 & E3); [left; by rewrite P2|done|done|].
        exists z3. rewrite E3. split; [done|]. cbn [orb]. by destruct (seen_empty _ _ _).
      * unfold ChildChanges. rewrite Hw. simpl.
        destruct (IH m false cbs z1 None ctx I1) as (z3 & I3 & E3); [by do 2 right|done|done|]. exists z3. by rewrite E3.
    + destruct (IH m false cbs z None ctx Hi ltac:(by do 2 right) He Hw) as (z2 & I2 & E2). exists z2. split; [done|].
      unfold group_step. by rewrite event_none, bind_Ok, E2 by done.
Qed.
End group.

(** When the last worker has left and its event was delivered, the group has been seen empty. *)
Lemma seen_empty_last ops x : forall m changed, foldl member_step m ops ⊆ {[x]} ->
  seen_empty m changed (ops ++ [Leave x; Deliver])%list = true.
Proof.
  induction ops as [|op ops IH]; intros m changed H; simpl in *.
  - rewrite bool_decide_eq_true_2 by set_solver. done.
  - destruct op; [by apply IH..|]. by rewrite IH, orb_true_r.
Qed.

(** Nobody has joined the group or watches it, and the folder of the groups can have children. *)
Record untouched (rt : ZKClusterRT) (sg : Z) {K : ZooKeeper} {L : ZkLaws K} (z : zk) : Prop := {
  un_groups : persistent z (group_path_ rt);
  un_folder : nodes z !! groupPath rt sg = None;
  un_members c : slash_free c = true -> nodes z !! child (groupPath rt sg) c = None;
  un_leaves c d : slash_free c = true -> slash_free d = true -> nodes z !! child (child (groupPath rt sg) c) d = None;
  un_watches q : q = group_path_ rt \/ q = groupPath rt sg \/ (exists c, q = child (groupPath rt sg) c) -> watches z q = ∅;
  un_pending : pending z = [];
}.

(** C38. After [WatchSGroup] on a group that nobody has joined, let workers join and leave the
    group one after the other, and let the events of the changes be delivered at any times
    between them, each to the watcher that waited for it.  The callback is called with its
    context exactly once, at the first delivery that finds the group without workers, and not
    at all while every delivery finds one, although ZooKeeper's watches fire only once: each
    delivery leaves the watch again.  The children of the folder are the present members. *)
Theorem WatchSGroup_calls {K : ZooKeeper} {L : ZkLaws K} rt sg f ctx ops z :
  zpath (group_path_ rt) -> (String.length (group_path_ rt) < kZKBufSize)%nat -> in_int sg = true ->
  untouched rt sg z -> effective ∅ ops ->
  exists z1 rt1 z2 cbs, WatchSGroup rt sg (Some f) ctx z = Ok (z1, rt1, true) /\
    group_run rt1 sg ops (cb_vec_ rt1) z1 = Ok (z2, cbs, if seen_empty ∅ false ops then [(f, ctx)] else []) /\
    exists l, GetChild (groupPath rt sg) z2 = Ok (z2, l) /\
      forall x, worker_name x ∈ l <-> x ∈ foldl member_step ∅ ops.
Proof.
  intros Hz Hl Hsg [U1 U2 U3 U4 U5 U6] He. set (gp := groupPath rt sg) in *. set (w := length (cb_vec_ rt)).
  assert (node_name ("sg" +:+ to_string sg) = true) as Hs.
  { apply node_name_app; [done|apply printable_to_string|apply plain_slash_free, plain_to_string]. }
  assert (gp = child (group_path_ rt) ("sg" +:+ to_string sg)) as Egp by done.
  assert (zpath gp) as Hgp by (rewrite Egp; by apply zpath_child).
  assert (String.length gp <= 200)%nat as Hgl.
  { rewrite Egp, length_child, length_append. pose proof (length_to_string sg Hsg). unfold kZKBufSize in Hl. simpl. lia. }
  destruct (CreateNode_child (group_path_ rt) ("sg" +:+ to_string sg) None false z) as (z1 & E1 & N1); rewrite <- ?Egp; [|done..|].
  { split; [done|]. unfold zk_max. lia. }
  rewrite <- Egp in E1. pose proof (created_new _ _ _ _ _ _ N1) as N1'. rewrite <- Egp in N1'.
  assert (forall q, q <> gp -> nodes z1 !! q = nodes z !! q) as Old by (intros q Hq; by apply (created_lookup _ _ _ _ _ _ _ N1)).
  assert (gp <> group_path_ rt) as Hne by (rewrite Egp; apply child_not_parent).
  assert (forall q, q = gp \/ (exists c, q = child gp c) -> watches z1 q = ∅) as W1.
  { intros q Hq. rewrite (cr_watches _ _ _ _ _ _ N1). case_decide; [done|]. apply U5. naive_solver. }
  assert (pending z1 = []) as P1.
  { apply Permutation_nil_r. rewrite (cr_pending _ _ _ _ _ _ N1), U5, U6 by auto. done. }
  assert (persistent z1 gp) as G1 by (unfold persistent; by rewrite N1').
  destruct (watch_ok z1 gp w (gp_zk_path gp Hgp Hgl) (persistent_Some _ _ G1)) as (z2 & l & E2 & _ & N2 & P2 & W2).
  set (rt1 := mkRT (rt_timeout rt) (rt_host rt) (workspace_ rt) (group_path_ rt) (proc_path_ rt) (proc_lock_path_ rt)
                (cb_vec_ rt ++ [mkRTCallback (Some f) ctx])).
  assert (group_inv gp ∅ z2) as I2.
  { split; unfold persistent in *; rewrite ?N2.
    - exact G1.
    - intros x Hx. set_solver.
    - intros c Hf. rewrite Old, U3 by (done || apply child_not_parent). split; [intros []; done|]. intros (x & Hx & _). set_solver.
    - intros x c Hf. rewrite Old; [apply U4; [apply worker_slash_free|done]|].
      intros E. apply (f_equal String.length) in E. rewrite !length_child in E. lia.
    - intros x. rewrite W2, decide_False by apply child_not_parent. apply W1. eauto. }
  assert (armed gp w (Some f) false z2) as A2.
  { left. split; [done|]. rewrite W2, decide_True, W1, P2 by auto. split; [set_solver|done]. }
  destruct (group_run_Ok rt1 sg w ops Hgp Hgl ∅ false (cb_vec_ rt1) z2 (Some f) ctx I2 A2 He) as (z3 & I3 & E3).
  { simpl. by apply list_lookup_middle. }
  exists z2, rt1, z3, (if seen_empty ∅ false ops then <[w := mkRTCallback None ctx]> (cb_vec_ rt1) else cb_vec_ rt1).
  split_and!; [|rewrite E3; by destruct (seen_empty _ _ _)|].
  { unfold WatchSGroup, WGetChild. rewrite CHECK_holds, bind_Ok by (by apply bool_decide_eq_true_2).
    fold gp. rewrite E1, bind_Ok. cbn [negb]. fold w. rewrite E2. done. }
  change (groupPath rt1 sg) with gp in I3.
  destruct (GetChild_Ok gp z3 (gp_zk_path gp Hgp Hgl) (persistent_Some _ _ (gi_folder _ _ _ I3))) as (l' & E4 & _ & Hl').
  exists l'. split; [done|]. intros x.
  rewrite Hl', (gi_members gp _ _ I3 _ (worker_slash_free x)). split.
  - intros [_ (y & Hy & Ey)]. apply worker_name_inj in Ey. by subst y.
  - intros Hx. split; [apply worker_slash_free|eauto].
Qed.
(** The servers are told that the workers have left although a second worker is still to come;
    they are told at the second of the events, by the watch that the first has left again. *)
Lemma WatchSGroup_calls_witness :
  let rt := ZKClusterRT_new "zk:2181" 7 in
  let z : @zk TreeZk.service := TreeZk.mkTree {[group_path_ rt := mkZnode None false]} ∅ ∅ [] in
  exists z1 rt1 z2 cbs, WatchSGroup rt 0 (Some 1) 2 z = Ok (z1, rt1, true) /\
    group_run rt1 0 [Join (0, 0); Deliver; Leave (0, 0); Deliver; Join (0, 1); Deliver] (cb_vec_ rt1) z1 = Ok (z2, cbs, [(1, 2)]).
Proof.
  intros rt z. destruct (@WatchSGroup_calls TreeZk.service TreeZk.laws rt 0 1 2
    [Join (0, 0); Deliver; Leave (0, 0); Deliver; Join (0, 1); Deliver] z) as (z1 & rt1 & z2 & cbs & E1 & E2 & _).
  - apply (job_folder 7 "group"); [done|simpl; lia].
  - vm_compute. lia.
  - reflexivity.
  - split; [reflexivity|reflexivity|..].
    + intros c _. by apply lookup_singleton_ne.
    + intros c d _ _. by apply lookup_singleton_ne.
    + reflexivity.
    + reflexivity.
  - simpl. set_solver.
  - exists z1, rt1, z2, cbs. split; [exact E1|exact E2].
Defined.

(** ** Removal of nodes *)
Section clean.
Context {K : ZooKeeper} {L : ZkLaws K}.

(** [q] is [p] or a node below it. *)
Definition below (p q : string) : Prop := q = p \/ exists s, q = child p s.
Lemma child_assoc p c s : child (child p c) s = child p (child c s).
Proof. unfold child. by rewrite !append_assoc. Qed.
Lemma below_up r p c : below r p -> below r (child p c).
Proof. intros [->|[s ->]]; right; [by exists c|]. rewrite child_assoc. by eexists. Qed.
Lemma below_child p c q : below (child p c) q -> below p q /\ q <> p.
Proof.
  intros H. assert (exists s, q = child p s) as [s ->].
  { destruct H as [->|[s ->]]; [by eexists|]. rewrite child_assoc. by eexists. }
  split; [right; by eexists|apply child_not_parent].
Qed.
Lemma slash_free_child c s : slash_free (child c s) = false.
Proof. unfold child. rewrite slash_free_app. by rewrite andb_comm. Qed.
Lemma below_sibling p c d : slash_free c = true -> slash_free d = true -> below (child p c) (child p d) -> d = c.
Proof.
  intros Hc Hd [E|[s E]]; [by apply child_inj in E as [_ ?]|].
  rewrite child_assoc in E. unfold child in E at 1 2. apply append_inj, (append_inj "/") in E. subst d.
  by rewrite slash_free_child in Hd.
Qed.

(** Every node's parent is there, and the nodes have valid paths. *)
Definition closed (z : zk) : Prop :=
  (forall p c, slash_free c = true -> is_Some (nodes z !! child p c) -> is_Some (nodes z !! p)) /\
  forall p, is_Some (nodes z !! p) -> p = "" \/ zk_path p.
Lemma closed_child p c z : closed z -> slash_free c = true -> is_Some (nodes z !! child p c) ->
  node_name c = true /\ zk_path (child p c).
Proof.
  intros [_ Hz] Hc Hs. destruct (Hz _ Hs) as [E|H]; [by destruct p|]. split; [|done]. destruct H as [H _]. inversion H as [d Hd E|q d Hq Hd E];
    apply child_inj in E as [_ <-]; (done || by apply node_name_slash_free).
Qed.
Lemma below_split p s z : closed z -> is_Some (nodes z !! child p s) ->
  exists c, slash_free c = true /\ is_Some (nodes z !! child p c) /\ below (child p c) (child p s).
Proof.
  intros [Hz _]. remember (String.length s) as n eqn:En. revert s En. induction (lt_wf n) as [n _ IH]. intros s -> Hs.
  destruct (split_path s) as [[d c]|] eqn:E.
  - apply split_path_Some in E as [-> Hc]. rewrite <- child_assoc in Hs |- *. pose proof (Hz _ _ Hc Hs) as Hd.
    destruct (IH (String.length d)) with (s := d) as (c' & ? & ? & ?); [|done|done|].
    { unfold child. rewrite !length_append. simpl. lia. }
    exists c'. split_and!; [done|done|by apply below_up].
  - exists s. split_and!; [|done|by left]. clear -E. induction s as [|x s IH]; [done|]. simpl in *.
    destruct (split_path s) as [[]|]; [done|]. destruct (Ascii.eqb x "/"); [done|]. auto.
Qed.

(** The nodes of [P] are gone, the others as before. *)
Record removed (P : string -> Prop) (z z' : zk) : Prop := {
  rm_none q : P q -> nodes z' !! q = None;
  rm_keep q : ~ P q -> nodes z' !! q = nodes z !! q;
  rm_mono q : nodes z !! q = None -> nodes z' !! q = None;
}.
Lemma removed_trans P Q R z z1 z2 : removed P z z1 -> removed Q z1 z2 -> (forall q, R q <-> P q \/ Q q) -> removed R z z2.
Proof.
  intros [H1 H2 H3] [H4 H5 H6] HR. split; intros q Hq; [|rewrite H5, H2; [done|..]|auto]; rewrite HR in Hq; naive_solver.
Qed.
Lemma removed_closed P z z' : removed P z z' -> (forall p c, P p -> P (child p c)) -> closed z -> closed z'.
Proof.
  intros [H1 H2 H3] HP [Hz Hv]. split.
  - intros p c Hc [v Hs]. rewrite H2; [apply (Hz p c Hc)|].
    + destruct (nodes z !! child p c) eqn:E; [done|]. apply H3 in E. congruence.
    + intros H%(HP p c)%H1. congruence.
  - intros p [v Hs]. apply Hv. destruct (nodes z !! p) eqn:E; [done|]. apply H3 in E. congruence.
Qed.
Lemma removed_Some P z z' q : removed P z z' -> is_Some (nodes z' !! q) -> is_Some (nodes z !! q).
Proof. intros H [v Hv]. destruct (nodes z !! q) eqn:E; [done|]. apply (rm_mono _ _ _ H) in E. congruence. Qed.

(** [fuel] bounds the height of the tree below [p]. *)
Definition height_le (z : zk) (p : string) (fuel : nat) : Prop :=
  forall q, is_Some (nodes z !! q) -> below p q -> (slashes q < slashes p + fuel)%nat.
Lemma height_le_child z z' P p c fuel : removed P z z' -> slash_free c = true -> height_le z p (S fuel) ->
  height_le z' (child p c) fuel.
Proof.
  intros R Hc H q Hq Hb. pose proof (H q (removed_Some _ _ _ _ R Hq) (proj1 (below_child _ _ _ Hb))) as Hl.
  rewrite slashes_child by done. lia.
Qed.

Definition clean_ok (fuel : nat) : Prop := forall p z, closed z -> zk_path p -> is_Some (nodes z !! p) -> height_le z p fuel ->
  exists z', CleanPath fuel true p z = Ok (z', true) /\ removed (below p) z z'.
Lemma clean_children_Ok fuel p l : clean_ok fuel -> NoDup l -> forall z, closed z -> height_le z p (S fuel) ->
  (forall c, c ∈ l -> slash_free c = true /\ is_Some (nodes z !! child p c)) ->
  exists z', clean_children (CleanPath fuel true) p l z = Ok (z', true) /\
    removed (fun q => exists c, c ∈ l /\ below (child p c) q) z z'.
Proof.
  intros IHf Hnd. induction Hnd as [|c l Hc Hnd IH]; intros z Hz Hh Hl.
  - exists z. split; [done|]. split; [|done|done]. intros q (c & Hc & _). by apply elem_of_nil in Hc.
  - destruct (Hl c) as [Sc Nc]; [left|].
    destruct (IHf (child p c) z Hz (proj2 (closed_child p c z Hz Sc Nc)) Nc) as (z1 & E1 & R1).
    { apply (height_le_child z z (fun _ => False)); [by split|done|done]. }
    destruct (IH z1) as (z2 & E2 & R2).
    + apply (removed_closed _ _ _ R1); [intros; by apply below_up|done].
    + intros q Hq. apply Hh. by apply (removed_Some _ _ _ _ R1).
    + intros d Hd. destruct (Hl d) as [Sd Nd]; [by right|]. split; [done|]. rewrite (rm_keep _ _ _ R1); [done|].
      intros Hb%below_sibling; [|done|done]. by subst.
    + exists z2. cbn [clean_children]. change (p +:+ "/" +:+ c) with (child p c). rewrite E1, bind_Ok. split; [done|].
      apply (removed_trans _ _ _ _ _ _ R1 R2). intros q. setoid_rewrite elem_of_cons. naive_solver.
Qed.

(** What [CleanPath] removes. *)
Definition cleaned (remove : bool) (p q : string) : Prop := below p q /\ (q = p -> remove = true).
Lemma CleanPath_Ok fuel : forall remove p z, closed z -> zk_path p -> is_Some (nodes z !! p) -> height_le z p fuel ->
  exists z', CleanPath fuel remove p z = Ok (z', true) /\ removed (cleaned remove p) z z'.
Proof.
  induction fuel as [|fuel IH]; intros remove p z Hz Hzp Hp Hh; [exfalso; specialize (Hh p Hp (or_introl eq_refl)); lia|].
  assert (clean_ok fuel) as IHf.
  { intros p' z' ? ? ? ?. destruct (IH true p' z') as (z2 & E & R); [done..|]. exists z2. split; [done|].
    destruct R as [R1 R2 R3]. split; [|intros q Hq; apply R2; by intros []|done]. intros q Hq. apply R1. by split. }
  destruct (GetChild_Ok p z Hzp Hp) as (l & E1 & Hnd & Hl).
  destruct (clean_children_Ok fuel p l IHf Hnd z Hz Hh) as (z1 & E2 & R1); [intros c; apply Hl|].
  assert (removed (fun q => below p q /\ q <> p) z z1) as R.
  { destruct R1 as [R1 R2 R3]. split; [|intros q Hq; apply R2; intros (c & Hc & [? ?]%below_child); naive_solver|done].
    intros q [[->|[s ->]] Hne]; [done|]. destruct (nodes z !! child p s) as [v|] eqn:E; [|auto].
    destruct (below_split p s z Hz) as (c & Hc & Hs & Hb); [by rewrite E|]. apply R1. exists c. split; [|done]. by apply Hl. }
  cbn [CleanPath]. rewrite E1, bind_Ok, E2, bind_Ok. cbn [negb]. destruct remove.
  - assert (exists d c, p = child d c /\ node_name c = true) as (d & c & Ep & Hc).
    { destruct Hzp as [Hzp _]. inversion Hzp; eauto. }
    destruct (delete_ok z1 d c) as (z2 & E3 & N); rewrite <- ?Ep; [done|done|..].
    { rewrite (rm_keep _ _ _ R) by (by intros []). done. }
    { intros c' Hc'. apply (rm_none _ _ _ R). split; [right; by eexists|apply child_not_parent]. }
    apply dl_nodes in N. rewrite <- Ep in N, E3.
    exists z2. unfold DeleteNode. rewrite E3. split; [done|].
    apply (removed_trans (fun q => below p q /\ q <> p) (fun q => q = p) _ z z1 z2 R).
    + split; rewrite N; [intros q ->; apply lookup_delete_eq|intros q Hq; by rewrite lookup_delete_ne by auto|].
      intros q Hq. destruct (decide (p = q)) as [->|]; [apply lookup_delete_eq|by rewrite lookup_delete_ne].
    + intros q. unfold cleaned, below. destruct (decide (q = p)) as [->|]; naive_solver.
  - exists z1. split; [done|]. destruct R as [A B C]. unfold cleaned.
    split; [|intros q Hq; apply B; naive_solver|done]. intros q [Hb Hf]. apply A. split; [done|]. intros ->. by specialize (Hf eq_refl).
Qed.
End clean.

(** With fuel for the depth of the tree [Clean] of a job removes all nodes below the folder of
    its processes and nothing else, the folder itself included among what stays (the nodes of a
    job without this folder stay as they are), and [Cleanup] removes /singa with everything below it. *)
Theorem Clean_removes {K : ZooKeeper} {L : ZkLaws K} fuel job z :
  closed z -> (forall q, is_Some (nodes z !! q) -> (slashes q < fuel)%nat) ->
  (exists z', Clean fuel job z = Ok (z', true) /\
     removed (cleaned false (GetZKJobWorkspace job +:+ kZKPathJobProc)) z z') /\
  (exists z', Cleanup fuel z = Ok (z', true) /\ removed (cleaned true kZKPathSinga) z z').
Proof.
  intros Hz Hf. assert (forall p r, zk_path p -> exists z', (let '(z, e) := Exist p z in if e then CleanPath fuel r p z else Ok (z, true)) = Ok (z', true) /\
    removed (cleaned r p) z z') as H.
  2: { split; [apply (H _ false), (job_folder job "proc"); [done|simpl; lia]|apply (H _ true)].
       split; [by apply (zpath_top "singa")|unfold zk_max; simpl; lia]. }
  intros p r Hp0. unfold Exist. rewrite exists_ok by done. destruct (bool_decide_reflect (is_Some (nodes z !! p))) as [Hp|Hp].
  - change (ZOK =? ZOK) with true. cbv iota. apply CleanPath_Ok; [done..|]. intros q Hq _. specialize (Hf q Hq). lia.
  - change (ZNONODE =? ZOK) with false. cbv iota. exists z. split; [done|]. split; [|done|done].
    intros q [[->|[s ->]] _]; [by apply eq_None_not_Some|]. destruct (nodes z !! child p s) as [v|] eqn:E; [|done].
    destruct (below_split p s z Hz) as (c & Hc & Hs & _); [by rewrite E|]. destruct Hz as [Hz _]. by destruct (Hp (Hz _ _ Hc Hs)).
Qed.
Lemma Clean_removes_witness :
  let z : @zk TreeZk.service := TreeZk.mkTree {["" := mkZnode None false; "/singa" := mkZnode None false; "/singa/app" := mkZnode None false]} ∅ ∅ [] in
  (exists z', Clean 3 7 z = Ok (z', true) /\ TreeZk.t_nodes z' !! "/singa/app" = Some (mkZnode None false)) /\
  (exists z', Cleanup 3 z = Ok (z', true) /\ TreeZk.t_nodes z' !! "/singa/app" = None /\ TreeZk.t_nodes z' !! "" = Some (mkZnode None false)).
Proof.
  intros z. assert (forall q, is_Some (TreeZk.t_nodes z !! q) -> q = "" \/ q = "/singa" \/ q = "/singa/app") as Hq.
  { intros q [v Hv]. simpl in Hv. rewrite !lookup_insert_Some, lookup_singleton_Some in Hv. naive_solver. }
  destruct (@Clean_removes TreeZk.service TreeZk.laws 3 7 z) as [(z1 & E1 & R1) (z2 & E2 & R2)].
  - split; [|intros p Hs; destruct (Hq _ Hs) as [->|[->| ->]]; [by left|right..]].
    2: { split; [by apply (zpath_top "singa")|unfold zk_max; simpl; lia]. }
    2: { split; [apply zpath_app|unfold zk_max; simpl; lia]. }
    intros p c Hc Hs. destruct (Hq _ Hs) as [E|[E|E]]; [by destruct p| |].
    + change "/singa" with (child "" "singa") in E. apply child_inj in E as [-> _]; [by eexists|done|done].
    + change "/singa/app" with (child "/singa" "app") in E. apply child_inj in E as [-> _]; [by eexists|done|done].
  - intros q Hs. destruct (Hq _ Hs) as [->|[->| ->]]; simpl; lia.
  - split; [exists z1|exists z2].
    + split; [done|]. rewrite (rm_keep _ _ _ R1); [done|]. intros [[E|[s E]] _]; by vm_compute in E.
    + split; [done|]. split.
      * apply (rm_none _ _ _ R2). split; [right; by exists "app"|done].
      * rewrite (rm_keep _ _ _ R2); [done|]. intros [[E|[s E]] _]; done.
Defined.

(** When the first of two processes has left, its lock and its node with it, the next one to
    register gets the id of the second and that one's address stays. *)
Example RegistProc_same_id :
  let rt := ZKClusterRT_make "zk:2181" 7 30000 in
  let cl := mkCluster (mkClusterProto 3 1 1 1 1 1 false) 3 ∅ in
  (z ← @RT_Init TreeZk.service rt;
   z ← deref z;
   '(z, _) ← register_all cl rt [("10.0.0.1:1", 41); ("10.0.0.2:1", 42)] z;
   '(z, _) ← DeleteNode (child (proc_lock_path_ rt) (lock_name 0)) z;
   '(z, _) ← DeleteNode (child (proc_path_ rt) (proc_node 0)) z;
   '(z, id) ← Cluster_Register cl rt 43 "10.0.0.3:1" z;
   '(_, host) ← Cluster_endpoint cl rt [] id z;
   Ok (id, host)) = Ok (1, "10.0.0.2:1").
Proof. vm_compute. reflexivity. Qed.
(** The list of a job's processes has their hosts, without the ports, and pids; a job of two
    processes is listed with its id. *)
Example ListJobs_example :
  let rt := ZKClusterRT_make "zk:2181" 7 30000 in
  let cl := mkCluster (mkClusterProto 2 1 1 1 1 1 false) 2 ∅ in
  (z ← @RT_Init TreeZk.service rt;
   z ← deref z;
   '(z, _) ← register_all cl rt [("10.0.0.1:80", 41); ("10.0.0.2:81", 42)] z;
   '(z, procs) ← ListJobProcs 7 z;
   '(_, jobs) ← ListJobs 5 z;
   Ok (procs, jobs)) = Ok (["10.0.0.2|42"; "10.0.0.1|41"], [mkJobInfo 7 2]).
Proof. vm_compute. reflexivity. Qed.
