(* ===== verification/Tool.v ===== *)
(** * utils/tool.cc: singatool

    The command line tool for jobs: [create] makes an id for a job, [list] and [listall] show the
    jobs, [view] the processes of a job, [clean] and [cleanup] remove what they left in
    ZooKeeper.  [argv] is without the name of the program; what is printed is a list of lines. *)

From Stdlib Require Import DecimalString.
From S2P Require Import Prelude Msg Cluster ClusterRT ZkTree ClusterRTProps.

(** [%-10d] *)
Definition pad_right (n : nat) (s : string) : string :=
  s +:+ String.concat EmptyString (replicate (n - String.length s) " ").
Definition d10 (z : Z) : string := pad_right 10 (to_string z).
Definition job_line (j : JobInfo) : string := d10 (job_id j) +:+ "|" +:+ d10 (job_procs j).
Definition job_header : list string := ["JOB ID    |NUM PROCS  "; "----------|-----------"].

Section tool.
Context `{K : ZooKeeper}.

(** The exit code, the lines, and the service afterwards, if it was reached. *)
Record ran := mkRan { exit_code : Z; printed : list string; service_ : option zk }.
Definition exited (code : Z) (z : zk) : ran := mkRan code [] (Some z).

Definition tool_list (all : bool) (fuel : nat) (z : zk) : outcome ran :=
  '(z, jobs) ← ListJobs fuel z;
  let shown := if all then jobs else filter (fun j => job_procs j <> 0) jobs in
  Ok (mkRan 0 (job_header ++ map job_line shown) (Some z)).
Definition tool_main (host : string) (argv : list string) (fuel : nat) : outcome ran :=
  match argv with
  | [] => Ok (mkRan 1 [] None)
  | command :: args =>
      z ← JM_Init host 30000;
      match z with
      | None => Ok (mkRan 1 [] None)
      | Some z =>
          if decide (command = "create") then '(z, id) ← GenerateJobID z; Ok (mkRan 0 [to_string id] (Some z))
          else if decide (command = "list") then tool_list false fuel z
          else if decide (command = "listall") then tool_list true fuel z
          else if decide (command = "view") then
            match args with
            | [] => Ok (exited 1 z)
            | a :: _ => id ← atoi a; '(z, procs) ← ListJobProcs id z; Ok (mkRan 0 procs (Some z))
            end
          else if decide (command = "clean") then
            match args with
            | [] => Ok (exited 1 z)
            | a :: _ => id ← atoi a; '(z, ok) ← Clean fuel id z; Ok (exited (if ok : bool then 0 else 1) z)
            end
          else if decide (command = "cleanup") then
            '(z, ok) ← Cleanup fuel z; Ok (exited (if ok : bool then 0 else 1) z)
          else Ok (exited 1 z)
      end
  end.
End tool.

(** ** The ids of jobs *)

(** The number a string of digits stands for. *)
Fixpoint uint_of (n : nat) (z : Z) : Decimal.uint :=
  match n with
  | O => Decimal.Nil
  | S n =>
      let u := uint_of n z in
      match z / 10 ^ Z.of_nat n mod 10 with
      | 0 => Decimal.D0 u | 1 => Decimal.D1 u | 2 => Decimal.D2 u | 3 => Decimal.D3 u | 4 => Decimal.D4 u
      | 5 => Decimal.D5 u | 6 => Decimal.D6 u | 7 => Decimal.D7 u | 8 => Decimal.D8 u | _ => Decimal.D9 u
      end
  end.
Lemma uint_digits n z : NilEmpty.string_of_uint (uint_of n z) = digits n z.
Proof.
  induction n as [|n IH]; [done|]. cbn [uint_of digits]. pose proof (Z.mod_pos_bound (z / 10 ^ Z.of_nat n) 10 ltac:(lia)) as H.
  assert (Hd : exists d, z / 10 ^ Z.of_nat n mod 10 = d /\ (d = 0 \/ d = 1 \/ d = 2 \/ d = 3 \/ d = 4 \/ d = 5 \/ d = 6 \/ d = 7 \/ d = 8 \/ d = 9))
    by (eexists; split; [done|lia]).
  destruct Hd as (d & -> & Hd). destruct_or! Hd; subst d; cbn [NilEmpty.string_of_uint]; by rewrite IH.
Qed.
Lemma of_uint_acc_value u : forall acc,
  Z.pos (Pos.of_uint_acc u acc) = Z.pos acc * 10 ^ Z.of_nat (Decimal.nb_digits u) + Z.of_uint u.
Proof.
  unfold Z.of_uint. induction u as [|u IH|u IH|u IH|u IH|u IH|u IH|u IH|u IH|u IH|u IH]; intros acc; cbn [Pos.of_uint_acc Decimal.nb_digits];
    [simpl; lia|..]; rewrite IH; cbn [Pos.of_uint]; rewrite Nat2Z.inj_succ, Z.pow_succ_r by lia; cbn [Z.of_N]; rewrite ?IH; nia.
Qed.
Lemma uint_value n z : Decimal.nb_digits (uint_of n z) = n /\ Z.of_uint (uint_of n z) = z mod 10 ^ Z.of_nat n.
Proof.
  induction n as [|n [IHn IH]]; [split; [done|]; by rewrite Z.mod_1_r|]. cbn [uint_of]. set (P := 10 ^ Z.of_nat n) in *.
  assert (0 < P) by (apply Z.pow_pos_nonneg; lia). pose proof (Z.mod_pos_bound (z / P) 10 ltac:(lia)) as H10.
  assert (E : z mod 10 ^ Z.of_nat (S n) = z / P mod 10 * P + Z.of_uint (uint_of n z)).
  { rewrite Nat2Z.inj_succ, Z.pow_succ_r, Z.mul_comm by lia. fold P. rewrite Z.rem_mul_r by lia. lia. }
  rewrite E. clear E. pose proof (of_uint_acc_value (uint_of n z)) as A. rewrite IHn in A. fold P in A.
  assert (Hd : exists d, z / P mod 10 = d /\ (d = 0 \/ d = 1 \/ d = 2 \/ d = 3 \/ d = 4 \/ d = 5 \/ d = 6 \/ d = 7 \/ d = 8 \/ d = 9))
    by (eexists; split; [done|lia]).
  destruct Hd as (d & -> & Hd). destruct_or! Hd; subst d; (split; [cbn [Decimal.nb_digits]; by rewrite IHn|]);
    [unfold Z.of_uint; cbn [Pos.of_uint]; lia|..]; exact (A _).
Qed.
Lemma uint_not_nil n z : uint_of (S n) z <> Decimal.Nil.
Proof. cbn [uint_of]. generalize (uint_of n z). intros u. by repeat case_match. Qed.
Lemma atoi_digits n z : atoi (digits (S n) z) = int_ret (z mod 10 ^ Z.of_nat (S n)).
Proof.
  rewrite <- uint_digits. destruct (uint_value (S n) z) as [_ Hv]. pose proof (uint_not_nil n z) as Hn.
  generalize dependent (uint_of (S n) z). intros u Hv Hn. rewrite <- Hv.
  destruct (Header.scan_d_uint u EmptyString Hn I) as [E _]. rewrite Header.string_app_nil_r in E.
  unfold atoi. by rewrite E.
Qed.
Lemma atoi_pad10 k : 0 <= k <= INT_MAX -> atoi (pad10 k) = Ok k.
Proof.
  intros Hk. unfold pad10. rewrite (proj2 (Z.ltb_ge k 0)) by lia. rewrite (atoi_digits 9).
  rewrite Z.mod_small by (unfold INT_MAX in *; lia). apply int_ret_Ok. unfold INT_MIN. lia.
Qed.
Lemma substring_all b : String.substring 0 (String.length b) b = b.
Proof. induction b as [|c b IH]; [done|]. simpl. by rewrite IH. Qed.
Lemma substr_from_app a b : substr_from (String.length (a +:+ b) - String.length b) (a +:+ b) = b.
Proof.
  unfold substr_from. rewrite length_append. replace (String.length a + String.length b - String.length b)%nat with (String.length a) by lia.
  replace (String.length a + String.length b - String.length a)%nat with (String.length b) by lia.
  induction a as [|c a IH]; [apply substring_all|]. rewrite Header.string_app_cons. exact IH.
Qed.

(** The id of a new job is what the folder of the locks counts; the next one gets one more. *)
Lemma GenerateJobID_next {K : ZooKeeper} {L : ZkLaws K} z (k := counter z kZKPathJLock) (c := "lock-" +:+ pad10 k) :
  persistent z kZKPathJLock -> 0 <= k < INT_MAX -> nodes z !! child kZKPathJLock c = None ->
  exists z', GenerateJobID z = Ok (z', k) /\ counter z' kZKPathJLock = k + 1 /\
    nodes z' = <[child kZKPathJLock c := mkZnode None true]> (nodes z).
Proof.
  intros Hp Hk Hn.
  assert (Hl : String.length (pad10 k) = 10%nat) by (unfold pad10; rewrite (proj2 (Z.ltb_ge k 0)) by lia; apply length_digits).
  assert (Hc : node_name c = true) by (apply node_name_app; [done|apply printable_pad10|apply slash_free_pad10]).
  destruct (CreateNode_sequential kZKPathJLock "lock-" true z) as (z' & E & Hz & Hcn); [|done..| |].
  { apply zpath_child; [|done]. apply (zpath_child "/singa/sys" "job-lock"); [|done].
    apply (zpath_child "/singa" "sys"); [|done]. by apply (zpath_top "singa"). }
  { rewrite length_child, length_append. fold k. rewrite Hl. unfold kZKBufSize. simpl. lia. }
  exists z'. split; [|split; [done|apply (cr_nodes _ _ _ _ _ _ Hz)]]. fold k in E. fold c in E. clear Hz Hcn. subst c.
  unfold GenerateJobID. change (kZKPathJLock +:+ "/lock-") with (child kZKPathJLock "lock-").
  rewrite E, bind_Ok. cbn [negb]. fold k.
  assert (Ec : child kZKPathJLock ("lock-" +:+ pad10 k) = (kZKPathJLock +:+ "/lock-") +:+ pad10 k) by done.
  rewrite Ec. pose proof (substr_from_app (kZKPathJLock +:+ "/lock-") (pad10 k)) as Es. rewrite Hl in Es. rewrite Es, atoi_pad10 by lia.
  replace (String.length ((kZKPathJLock +:+ "/lock-") +:+ pad10 k) <? 10)%nat with false; [done|].
  symmetry. apply Nat.ltb_ge. rewrite length_append, Hl. lia.
Qed.

(** A fresh service: the first job gets the id 0, no job is listed, and a command without its
    argument fails. *)
Example tool_example :
  let run argv := r ← @tool_main TreeZk.service "zk:2181" argv 9; Ok (exit_code r, printed r) in
  run ["create"] = Ok (0, ["0"]) /\ run ["list"] = Ok (0, job_header) /\ run ["view"] = Ok (1, []) /\ run [] = Ok (1, []).
Proof. by vm_compute. Qed.
