(* ===== verification/Stub.v ===== *)
(** * trainer/trainer.h, trainer/trainer.cc: the stub of a process

    The main thread of a process stands between its workers and the servers: it
    cuts the parameters into slices ([SliceParams]), merges the requests of the
    local workers for a parameter into one message per slice ([HandleLocalMsg],
    [GenMsgs]), hands the responses back to the parameters, and routes every other
    message to a local thread or to another process ([Run_msg]).

    [Param] objects are those of the process's store ([Server.world]); a pointer to
    one is its number.  The measured bandwidth is an input of the steps of [Run],
    what [Run] sends is a list of [action]s. *)

From S2P Require Import Prelude Common Float32 Msg Format Memory Param Updater Server Cluster.

(** ** SliceParams *)

(** The sizes of the parameters that own their values. *)
Fixpoint owner_sizes (params_ : list Z) (w : world) : outcome (list Z) :=
  match params_ with
  | [] => Ok []
  | i :: params_ =>
      p ← deref (params w !! i);
      if param_id p =? owner p then
        n ← size p (hp w); ns ← owner_sizes params_ w; Ok (n :: ns)
      else owner_sizes params_ w
  end.

(** The entries [<slice id, len>] of one parameter. *)
Fixpoint slice_entries (slice_id : Z) (lens : list Z) : list (Z * Z) :=
  match lens with
  | [] => []
  | len :: lens => (slice_id, len) :: slice_entries (slice_id + 1) lens
  end.

(** The construction of [paramid2slices], for the owners among [params_]; [it] is the
    rest of [param_slice]. *)
Fixpoint map_slices (params_ : list Z) (it : list (list Z)) (slice_id : Z)
    (paramid2slices : gmap Z (list (Z * Z))) (w : world)
    : outcome (gmap Z (list (Z * Z))) :=
  match params_ with
  | [] => Ok paramid2slices
  | i :: params_ =>
      p ← deref (params w !! i);
      if param_id p =? owner p then
        match it with
        | [] => Undef
        | lens :: it =>
            map_slices params_ it (slice_id + Z.of_nat (length lens))
              (<[param_id p := default [] (paramid2slices !! param_id p)
                   ++ slice_entries slice_id lens]> paramid2slices) w
        end
      else map_slices params_ it slice_id paramid2slices w
  end.

Fixpoint add_slices (entries : list (Z * Z)) (p : Param) : outcome Param :=
  match entries with
  | [] => Ok p
  | (slice_id, len) :: entries => p ← AddSlice slice_id len p; add_slices entries p
  end.
Fixpoint add_all_slices (params_ : list Z) (paramid2slices : gmap Z (list (Z * Z))) (w : world)
    : outcome world :=
  match params_ with
  | [] => Ok w
  | i :: params_ =>
      p ← deref (params w !! i);
      p' ← add_slices (default [] (paramid2slices !! owner p)) p;
      add_all_slices params_ paramid2slices (put_param i p' (hp w) w)
  end.

Definition SliceParams (c : ClusterProto) (params_ : list Z) (w : world)
    : outcome (world * list Z) :=
  lcm ← LeastCommonMultiple (nserver_groups c) (nservers_per_group c);
  paramsize ← owner_sizes params_ w;
  param_slice ← Slice lcm paramsize;
  paramid2slices ← map_slices params_ param_slice 0 ∅ w;
  w ← add_all_slices params_ paramid2slices w;
  Ok (w, concat param_slice).

(** ** The stub *)

(** [Trainer::Hash] *)
Definition Hash (grp_id param_id : Z) : Z := grp_id * 997 + param_id.

Record Trainer := mkTrainer {
  procs_id_ : Z;
  worker_shard_ : gmap Z ParamEntry;
  slice2server_ : list Z;
}.
Definition set_shard (k : Z) (e : ParamEntry) (t : Trainer) : Trainer :=
  mkTrainer (procs_id_ t) (<[k := e]> (worker_shard_ t)) (slice2server_ t).

(** The part of [SetupWorkerServer] that fills [worker_shard_] for a group: the
    layers come with their partition ids and parameters; [first] and [last] are the
    ids of the first and last worker of the process. *)
Fixpoint add_params (grp : Z) (local : bool) (ps : list Z) (w : world)
    (shard : gmap Z ParamEntry) : outcome (gmap Z ParamEntry) :=
  match ps with
  | [] => Ok shard
  | i :: ps =>
      p ← deref (params w !! i);
      let hash := Hash grp (owner p) in
      e ← AddParam local i (default ParamEntry_new (shard !! hash));
      add_params grp local ps w (<[hash := e]> shard)
  end.
Fixpoint prepare_params (grp first last : Z) (layers : list (Z * list Z)) (w : world)
    (shard : gmap Z ParamEntry) : outcome (gmap Z ParamEntry) :=
  match layers with
  | [] => Ok shard
  | (partition_id, ps) :: layers =>
      let local := (first <=? partition_id) && (partition_id <=? last) in
      shard ← add_params grp local ps w shard;
      prepare_params grp first last layers w shard
  end.

Section stub.
Context `{C : Czmq}.

(** ** GenMsgs *)

(** One iteration: the message for slice [ix] of [param]. *)
Definition gen_msg (cl : Cluster) (t : Trainer) (ty version : Z) (entry : ParamEntry)
    (src_grp dst_grp ix : Z) (param : Param) (h : heap) : outcome (heap * Param * Msg) :=
  let slice_id := slice_start param + ix in
  server ← idx (slice2server_ t) slice_id;
  procs ← ProcsIDOf cl dst_grp server (entity_num kServer);
  let copy := negb (procs =? procs_id_ t) in
  '(h, param, new_msg) ←
    (if ty =? kPut then
       _ ← CHECK (0 <? num_total entry);
       '(h, m) ← GenPutMsg copy ix param h;
       '(m, _) ← AddFormatFrame "i" [AInt (num_total entry)] m;
       Ok (h, param, m)
     else if ty =? kGet then GenGetMsg copy ix param h
     else if ty =? kUpdate then
       '(h, param, m) ← GenUpdateMsg copy ix param h;
       n ← deref (num_local entry);
       '(m, _) ← AddFormatFrame "i" [AInt n] m;
       Ok (h, param, m)
     else Fatal);
  Ok (h, param,
      set_dst (Addr dst_grp server (entity_num kServer))
        (set_src (Addr src_grp (procs_id_ t) (entity_num kStub))
          (set_trgt (ParamTrgt (owner param) slice_id) version new_msg))).

Fixpoint gen_msgs (cl : Cluster) (t : Trainer) (ty version : Z) (entry : ParamEntry)
    (src_grp dst_grp : Z) (ixs : list Z) (param : Param) (h : heap)
    : outcome (heap * Param * list Msg) :=
  match ixs with
  | [] => Ok (h, param, [])
  | ix :: ixs =>
      '(h, param, m) ← gen_msg cl t ty version entry src_grp dst_grp ix param h;
      '(h, param, ret) ← gen_msgs cl t ty version entry src_grp dst_grp ixs param h;
      Ok (h, param, m :: ret)
  end.

Definition GenMsgs (cl : Cluster) (t : Trainer) (ty version : Z) (entry : ParamEntry)
    (msg : Msg) (w : world) : outcome (world * list Msg) :=
  let src_grp := AddrGrp (src msg) in
  per ← nworker_groups_per_server_group (cluster_ cl);
  dst_grp ← idiv src_grp per;
  i ← vec_at (shares entry) 0;
  param ← deref (params w !! i);
  '(h, param, ret) ← gen_msgs cl t ty version entry src_grp dst_grp
    (range 0 (num_slices param)) param (hp w);
  Ok (put_param i param h w, ret).

(** ** The requests of the local workers *)
Definition HandleGet (cl : Cluster) (t : Trainer) (entry : ParamEntry) (msg : Msg) (w : world)
    : outcome (world * ParamEntry * list Msg) :=
  let version := trgt_version msg in
  next ← deref (next_version entry);
  if next <? version then
    let entry := mkEntry (num_update entry) (Some version) (num_local entry) (num_total entry)
      (shares entry) in
    '(w, ret) ← GenMsgs cl t kGet version entry msg w;
    Ok (w, entry, ret)
  else Ok (w, entry, []).

(** [sum += grad] for the rest of the shares. *)
Fixpoint sum_grads (rest : list Z) (sum n : Z) (w : world) (h : heap) : outcome heap :=
  match rest with
  | [] => Ok h
  | i :: rest =>
      p ← deref (params w !! i);
      '(h, g) ← mutable_cpu_data (grad p) h;
      s ← tensor sum n h; x ← tensor g n h;
      h ← set_tensor sum (f32s_add s x) h;
      sum_grads rest sum n w h
  end.

(** The average of the local gradients, left in the gradient of the first share. *)
Definition average_local (entry : ParamEntry) (n_local : Z) (w : world) : outcome heap :=
  if 1 <? n_local then
    match shares entry with
    | [] => Undef
    | i :: rest =>
        p ← deref (params w !! i);
        n ← size p (hp w);
        '(h, sum) ← mutable_cpu_data (grad p) (hp w);
        h ← sum_grads rest sum n w h;
        s ← tensor sum n h;
        set_tensor sum (f32s_div s (f32_of_Z (num_total entry))) h
    end
  else Ok (hp w).

Definition HandleUpdate (cl : Cluster) (t : Trainer) (entry : ParamEntry) (msg : Msg) (w : world)
    : outcome (world * ParamEntry * list Msg) :=
  num ← int_ret (num_update entry + 1);
  let entry := set_num_update num entry in
  n_local ← deref (num_local entry);
  if n_local <=? num then
    h ← average_local entry n_local w;
    '(w, ret) ← GenMsgs cl t kUpdate (trgt_version msg) entry msg (set_hp h w);
    Ok (w, set_num_update 0 entry, ret)
  else Ok (w, entry, []).

Definition HandlePut (cl : Cluster) (t : Trainer) (entry : ParamEntry) (msg : Msg) (w : world)
    : outcome (world * list Msg) :=
  GenMsgs cl t kPut (trgt_version msg) entry msg w.

(** ** The responses of the servers *)
Definition HandleGetResponse (entry : ParamEntry) (msg : Msg) (w : world) : outcome world :=
  let sliceid := SliceID (trgt_val msg) in
  i ← vec_at (shares entry) 0;
  p ← deref (params w !! i);
  '(h, p, last) ← ParseGetResponseMsg msg (sliceid - slice_start p) p (hp w);
  h ← (if last =? 0 then Ok h else param_set_version (trgt_version msg) p h);
  Ok (put_param i p h w).
Definition HandleUpdateResponse (entry : ParamEntry) (msg : Msg) (w : world) : outcome world :=
  let sliceid := SliceID (trgt_val msg) in
  i ← vec_at (shares entry) 0;
  p ← deref (params w !! i);
  '(h, p, last) ← ParseUpdateResponseMsg msg (sliceid - slice_start p) p (hp w);
  h ← (if last =? 0 then Ok h else param_set_version (trgt_version msg) p h);
  Ok (put_param i p h w).

(** The messages pushed on the queue; the request is deleted (a message of another
    type is dropped as well). *)
Definition HandleLocalMsg (cl : Cluster) (msg : Msg) (t : Trainer) (w : world)
    : outcome (world * Trainer * list Msg) :=
  let paramid := ParamID (trgt_val msg) in
  let src_key := Hash (AddrGrp (src msg)) paramid in
  let dst_key := Hash (AddrGrp (dst msg)) paramid in
  if type msg =? kUpdate then
    entry ← map_at (worker_shard_ t !! src_key);
    '(w, entry, ret) ← HandleUpdate cl t entry msg w;
    Ok (w, set_shard src_key entry t, ret)
  else if type msg =? kRUpdate then
    entry ← map_at (worker_shard_ t !! dst_key);
    w ← HandleUpdateResponse entry msg w;
    Ok (w, t, [])
  else if type msg =? kGet then
    entry ← map_at (worker_shard_ t !! src_key);
    '(w, entry, ret) ← HandleGet cl t entry msg w;
    Ok (w, set_shard src_key entry t, ret)
  else if type msg =? kRGet then
    entry ← map_at (worker_shard_ t !! dst_key);
    w ← HandleGetResponse entry msg w;
    Ok (w, t, [])
  else if type msg =? kPut then
    entry ← map_at (worker_shard_ t !! src_key);
    '(w, ret) ← HandlePut cl t entry msg w;
    Ok (w, t, ret)
  else Ok (w, t, []).

(** ** The loop of Run *)

(** What the stub sends: to a thread of the process through the router, to another
    process through its dealer, to the log. *)
Inductive action :=
| SendLocal (m : Msg)
| SendRemote (procs : Z) (m : Msg)
| Display (prefix : list Z) (step : Z) (metric : list Z).

(** The locals of [Run]. *)
Record Run_state := mkRun {
  nworkers : Z;
  nservers : Z;
  sync_server_id : Z;
  inter_dealers : gset Z;
  msg_queue : list Msg;
}.
Definition set_queue (q : list Msg) (r : Run_state) : Run_state :=
  mkRun (nworkers r) (nservers r) (sync_server_id r) (inter_dealers r) q.

(** [char prefix[128]] *)
Definition DisplayMetric (msg : Msg) : outcome (list action) :=
  if AddrGrp (src msg) =? 0 then
    '(vs, _) ← ParseFormatFrame "s" msg;
    match vs with
    | [AStr prefix] =>
        if Z.of_nat (length prefix) + 2 <=? 128 then
          '(m, next) ← NextFrame msg;
          _ ← CHECK next;
          perf ← FrameData m;
          Ok [Display prefix (trgt_version msg) perf]
        else Undef
    | _ => Undef
    end
  else Ok [].

(** The groups and ids of the local servers are [servers]. *)
Definition GenSyncReminderMsg (server : Z) (servers : list (Z * Z)) : outcome Msg :=
  '(grp_id, id) ← idx servers server;
  Ok (set_type kSyncReminder
       (set_dst (Addr grp_id id (entity_num kServer))
         (set_src (Addr (-1) (-1) (entity_num kStub)) Msg_new))).

(** The poll expired: [bw] is the bandwidth measured. *)
Definition Run_expired (c : ClusterProto) (max_bandwidth bw : Z) (servers : list (Z * Z))
    (r : Run_state) : outcome (Run_state * list action) :=
  if (1 <? nserver_groups c) && (bw <? max_bandwidth) then
    msg ← GenSyncReminderMsg (sync_server_id r) servers;
    id ← imod (sync_server_id r + 1) (nservers r);
    Ok (mkRun (nworkers r) (nservers r) id (inter_dealers r) (msg_queue r), [SendLocal msg])
  else Ok (r, []).

(** The rest of an iteration, for the message at the head of the queue; the boolean
    says that the loop ends.  [r] is the state without that message. *)
Definition Run_msg (cl : Cluster) (max_bandwidth bw : Z) (msg : Msg) (r : Run_state)
    (t : Trainer) (w : world) : outcome (world * Trainer * Run_state * list action * bool) :=
  let dst := dst msg in
  let flag := AddrType dst in
  if (flag =? entity_num kStub) && ((AddrProc dst =? procs_id_ t) || (AddrGrp dst =? -1)) then
    if type msg =? kConnect then Ok (w, t, r, [], false)
    else if type msg =? kMetric then
      acts ← DisplayMetric msg; Ok (w, t, r, acts, false)
    else if type msg =? kStop then
      let src_flag := AddrType (src msg) in
      let r :=
        if src_flag =? entity_num kServer then
          mkRun (nworkers r) (nservers r - 1) (sync_server_id r) (inter_dealers r) (msg_queue r)
        else if src_flag =? entity_num kWorkerParam then
          mkRun (nworkers r - 1) (nservers r) (sync_server_id r) (inter_dealers r) (msg_queue r)
        else r in
      Ok (w, t, r, [], (nworkers r =? 0) && (nservers r =? 0))
    else if 0 <? nserver_groups (cluster_ cl) then
      '(w, t, ret) ← HandleLocalMsg cl msg t w;
      Ok (w, t, set_queue (msg_queue r ++ ret) r, [], false)
    else Ok (w, t, r, [], false)
  else
    dst_procs ← (if negb (flag =? entity_num kStub) then
                   ProcsIDOf cl (AddrGrp dst) (AddrID dst) flag
                 else Ok (AddrProc dst));
    if negb (dst_procs =? procs_id_ t) then
      Ok (w, t,
          mkRun (nworkers r) (nservers r) (sync_server_id r)
            ({[dst_procs]} ∪ inter_dealers r) (msg_queue r),
          [SendRemote dst_procs msg], false)
    else
      msg ← (if type msg =? kSyncRequest then
               left ← int_ret (max_bandwidth - bw);
               '(m, _) ← AddFormatFrame "i" [AInt left] msg; Ok m
             else Ok msg);
      Ok (w, t, r, [SendLocal msg], false).

(** An iteration: [None] is an expired poll, [Some m] a message received (only when
    the queue is empty). *)
Definition Run_step (cl : Cluster) (max_bandwidth bw : Z) (servers : list (Z * Z))
    (received : option Msg) (r : Run_state) (t : Trainer) (w : world)
    : outcome (world * Trainer * Run_state * list action * bool) :=
  match msg_queue r with
  | m :: q => Run_msg cl max_bandwidth bw m (set_queue q r) t w
  | [] =>
      match received with
      | None =>
          '(r, acts) ← Run_expired (cluster_ cl) max_bandwidth bw servers r;
          Ok (w, t, r, acts, false)
      | Some m => Run_msg cl max_bandwidth bw m r t w
      end
  end.
End stub.
