(* ===== verification/SliceProps.v ===== *)
(** * Properties of [SliceParams]

    After [SliceParams] every parameter of the net has its slices: they tile its
    values, their ids are consecutive, parameters that share values have the same
    slices, and the slices of the owners, in order, are the list that is handed to
    [PartitionSlices]. *)

From S2P Require Import Prelude Common Float32 Msg Format Memory Param ParamProps Updater.
From S2P Require Import Server Cluster Stub.

(** The ids of the owners among the parameters. *)
Fixpoint owner_ids (params_ : list Z) (w : world) : list Z :=
  match params_ with
  | [] => []
  | i :: params_ =>
      match params w !! i with
      | Some p => if param_id p =? owner p then param_id p :: owner_ids params_ w
                  else owner_ids params_ w
      | None => []
      end
  end.

(** A net's parameters before slicing: distinct objects without slices, one owner
    per id, and every parameter's owner is among them, with as many values. *)
Record sliceable (params_ : list Z) (w : world) : Prop := {
  sl_nodup : NoDup params_;
  sl_params : Forall (fun i => exists p n, params w !! i = Some p /\ size p (hp w) = Ok n /\
    0 <= n /\ slices_wf p /\ slice_size p = []) params_;
  sl_owners : NoDup (owner_ids params_ w);
  sl_share i p : i ∈ params_ -> params w !! i = Some p ->
    exists j q, j ∈ params_ /\ params w !! j = Some q /\ param_id q = owner q /\
      owner q = owner p /\ size q (hp w) = size p (hp w);
}.

Lemma owner_sizes_Ok params_ w :
  Forall (fun i => exists p n, params w !! i = Some p /\ size p (hp w) = Ok n /\
    0 <= n /\ slices_wf p /\ slice_size p = []) params_ ->
  exists ns, owner_sizes params_ w = Ok ns /\ Forall (Z.le 0) ns /\
    length ns = length (owner_ids params_ w) /\
    forall j q, j ∈ params_ -> params w !! j = Some q -> param_id q = owner q ->
      exists k n, owner_ids params_ w !! k = Some (param_id q) /\ ns !! k = Some n /\
        size q (hp w) = Ok n.
Proof.
  induction 1 as [|i params_ (p & n & Hp & Hn & H0 & _) _ IH].
  { exists []. repeat (split; [done|]). by intros ? ? ?%elem_of_nil. }
  destruct IH as (ns & E & Hns & Hl & H). simpl. rewrite Hp, deref_Some, bind_Ok.
  destruct (Z.eqb_spec (param_id p) (owner p)) as [Ho|Ho].
  - rewrite Hn, bind_Ok, E, bind_Ok. exists (n :: ns). split; [done|]. split; [by constructor|].
    split; [simpl; lia|]. intros j q [->|Hj]%elem_of_cons Hq Hqo.
    + exists 0%nat, n. by simplify_eq.
    + destruct (H j q Hj Hq Hqo) as (k & m & ? & ? & ?). by exists (S k), m.
  - rewrite E. exists ns. split; [done|]. split; [done|]. split; [done|].
    intros j q [->|Hj]%elem_of_cons Hq Hqo; [by simplify_eq|by apply (H j q)].
Qed.

(** The map from owners to slice entries: the [k]-th owner has the [k]-th list of
    sizes, numbered after those before it. *)
Lemma map_slices_Ok params_ w : forall it slice_id m,
  Forall (fun i => is_Some (params w !! i)) params_ ->
  NoDup (owner_ids params_ w) -> length it = length (owner_ids params_ w) ->
  Forall (fun id => m !! id = None) (owner_ids params_ w) ->
  exists m', map_slices params_ it slice_id m w = Ok m' /\
    (forall id, id ∉ owner_ids params_ w -> m' !! id = m !! id) /\
    forall k id lens, owner_ids params_ w !! k = Some id -> it !! k = Some lens ->
      m' !! id = Some (slice_entries (slice_id + Z.of_nat (length (concat (take k it)))) lens).
Proof.
  induction params_ as [|i params_ IH]; intros it slice_id m Hp Hnd Hl Hm.
  { exists m. by repeat (split; [done|]). }
  inversion Hp as [|? ? [p Hi] Hp']; subst. cbn [map_slices].
  rewrite Hi, deref_Some, bind_Ok. simpl owner_ids in *. rewrite Hi in *.
  destruct (Z.eqb_spec (param_id p) (owner p)) as [Ho|Ho]; [|by apply IH].
  destruct it as [|lens it]; [done|]. simpl in Hl.
  apply list.NoDup_cons in Hnd as [Hn Hnd]. inversion Hm as [|? ? Hm0 Hm']; subst.
  destruct (IH it (slice_id + Z.of_nat (length lens))
    (<[param_id p := default [] (m !! param_id p) ++ slice_entries slice_id lens]> m) Hp' Hnd)
    as (m' & E & Hother & Hk); [lia| |].
  { apply list.Forall_forall. intros id Hid. rewrite lookup_insert_ne by congruence.
    by eapply list.Forall_forall in Hm'. }
  exists m'. split; [done|]. split.
  - intros id [Hid Hid2]%not_elem_of_cons. rewrite Hother, lookup_insert_ne by done. done.
  - intros [|k] id lens' Hkid Hlens; simpl in Hkid, Hlens.
    + injection Hkid as <-. injection Hlens as <-.
      rewrite Hother, lookup_insert_eq, Hm0 by done. simpl. by rewrite Z.add_0_r.
    + rewrite (Hk k id lens' Hkid Hlens). do 2 f_equal. cbn [take concat].
      rewrite length_app. lia.
Qed.

(** A parameter given its slices: they are [lens], numbered from [start]. *)
Record given_slices (p p' : Param) (start : Z) (lens : list Z) : Prop := {
  gs_wf : slices_wf p';
  gs_size : slice_size p' = lens;
  gs_start : lens <> [] -> slice_start p' = start;
  gs_data : pdata p' = pdata p;
  gs_grad : grad p' = grad p;
  gs_proto : proto_ p' = proto_ p;
  gs_pending : num_pending_requests p' = num_pending_requests p;
}.

Lemma add_slices_Ok lens : forall p pre start,
  slices_wf p -> slice_size p = pre -> (pre <> [] -> slice_start p = start) ->
  exists p', add_slices (slice_entries (start + Z.of_nat (length pre)) lens) p = Ok p' /\
    given_slices p p' start (pre ++ lens).
Proof.
  induction lens as [|len lens IH]; intros p pre start Hwf Hpre Hst; simpl.
  { exists p. split; [done|]. rewrite app_nil_r. by constructor. }
  destruct (AddSlice_Ok p (start + Z.of_nat (length pre)) len Hwf) as [H _].
  destruct H as (p1 & E & Hwf1 & Hsz1 & Hst1 & _ & _ & _ & Hd & Hg & Hpr & Hnp).
  { destruct pre as [|x pre]; [by left|right]. rewrite (wf_num p Hwf), Hpre, Hst by done. done. }
  rewrite E, bind_Ok.
  destruct (IH p1 (pre ++ [len]) start Hwf1) as (p' & E' & Hgs); [by rewrite Hsz1, Hpre| |].
  { intros _. rewrite Hst1, Hpre. destruct pre; [simpl; lia|by apply Hst]. }
  rewrite length_app, Nat2Z.inj_add, Z.add_assoc in E'. simpl in E'.
  exists p'. split; [done|]. destruct Hgs. rewrite <- app_assoc in *.
  constructor; try done; congruence.
Qed.

Lemma add_all_slices_Ok params_ m : forall w,
  NoDup params_ ->
  Forall (fun i => exists p start lens, params w !! i = Some p /\ slices_wf p /\
    slice_size p = [] /\ m !! owner p = Some (slice_entries start lens)) params_ ->
  exists w', add_all_slices params_ m w = Ok w' /\ hp w' = hp w /\ shard w' = shard w /\
    next_param w' = next_param w /\
    (forall i, i ∉ params_ -> params w' !! i = params w !! i) /\
    forall i p start lens, i ∈ params_ -> params w !! i = Some p ->
      m !! owner p = Some (slice_entries start lens) ->
      exists p', params w' !! i = Some p' /\ given_slices p p' start lens.
Proof.
  induction params_ as [|i params_ IH]; intros w Hnd Hall; simpl.
  { exists w. repeat (split; [done|]). by intros ? ? ? ? ?%elem_of_nil. }
  apply list.NoDup_cons in Hnd as [Hni Hnd].
  inversion Hall as [|? ? (p & start & lens & Hp & Hwf & Hsz & Hm) Hall']; subst.
  rewrite Hp, deref_Some, bind_Ok, Hm. simpl default.
  destruct (add_slices_Ok lens p [] start Hwf Hsz) as (p' & E & Hgs); [done|].
  simpl in E, Hgs. rewrite Z.add_0_r in E. rewrite E, bind_Ok.
  destruct (IH (put_param i p' (hp w) w) Hnd) as (w' & E' & Hh & Hs & Hnp & Hother & H).
  { apply list.Forall_forall. intros j Hj. eapply list.Forall_forall in Hall'; [|exact Hj].
    simpl. rewrite lookup_insert_ne by congruence. done. }
  exists w'. split; [done|]. split; [done|]. split; [done|]. split; [done|]. split.
  - intros j [Hj1 Hj2]%not_elem_of_cons. rewrite Hother by done. simpl. by rewrite lookup_insert_ne.
  - intros j q st ls [->|Hj]%elem_of_cons Hq Hmq.
    + assert (q = p) as -> by congruence. exists p'. split.
      * rewrite Hother by done. simpl. by rewrite lookup_insert_eq.
      * clear IH H E'. rewrite Hmq in Hm. injection Hm as Hm.
        enough (ls = lens /\ (ls <> [] -> st = start)) as [-> Hst].
        { destruct Hgs. constructor; try done. intros Hne. rewrite Hst; auto. }
        clear -Hm. revert st start lens Hm.
        induction ls as [|l ls IH]; intros st start [|l' lens]; simpl; intros [=]; [done|].
        subst. destruct (IH (start + 1) (start + 1) lens) as [-> _]; [congruence|]. done.
    + apply (H j q st ls Hj); [|done]. simpl. rewrite lookup_insert_ne by congruence. done.
Qed.

Lemma owner_ids_lookup params_ w k id :
  owner_ids params_ w !! k = Some id ->
  exists j q, j ∈ params_ /\ params w !! j = Some q /\ param_id q = id /\ owner q = id.
Proof.
  revert k. induction params_ as [|i params_ IH]; intros k; [done|]. simpl.
  destruct (params w !! i) as [p|] eqn:Hp; [|done].
  destruct (Z.eqb_spec (param_id p) (owner p)) as [Ho|Ho].
  - destruct k as [|k]; simpl.
    + intros [= <-]. exists i, p. split; [by left|]. by rewrite <- Ho.
    + intros (j & q & ? & ?)%IH. exists j, q. split; [by right|done].
  - intros (j & q & ? & ?)%IH. exists j, q. split; [by right|done].
Qed.

(** Blocks of a concatenation. *)
Lemma concat_block {A} (ll : list (list A)) k l :
  ll !! k = Some l ->
  l = take (length l) (drop (length (concat (take k ll))) (concat ll)) /\
  (length (concat (take k ll)) + length l <= length (concat ll))%nat.
Proof.
  revert k. induction ll as [|x ll IH]; intros k; [done|]. destruct k as [|k]; simpl.
  - intros [= ->]. rewrite drop_0, take_app_length, length_app. split; [done|lia].
  - intros Hl. destruct (IH k Hl) as [E Hle]. rewrite !length_app. split; [|lia].
    rewrite drop_app_ge by lia. rewrite E at 1. do 2 f_equal. lia.
Qed.

Lemma concat_block_le {A} (ll : list (list A)) k k' l :
  ll !! k = Some l -> (k < k')%nat ->
  (length (concat (take k ll)) + length l <= length (concat (take k' ll)))%nat.
Proof.
  intros Hl Hk. replace (take k' ll) with (take (S k) ll ++ take (k' - S k) (drop (S k) ll))
    by (rewrite take_take_drop; f_equal; lia).
  rewrite (take_S_r _ _ _ Hl), !concat_app, !length_app. simpl. rewrite length_app. lia.
Qed.

Lemma concat_block_of {A} (ll : list (list A)) s :
  (s < length (concat ll))%nat ->
  exists k l, ll !! k = Some l /\
    (length (concat (take k ll)) <= s < length (concat (take k ll)) + length l)%nat.
Proof.
  revert s. induction ll as [|x ll IH]; intros s; simpl; [lia|]. rewrite length_app. intros Hs.
  destruct (decide (s < length x)%nat).
  - exists 0%nat, x. simpl. split; [done|lia].
  - destruct (IH (s - length x)%nat) as (k & l & Hl & Hk); [lia|].
    exists (S k), l. simpl. rewrite length_app. split; [done|lia].
Qed.

(** The parameter [p'] has the block of [slices] that starts at its start id. *)
Record has_block (slices : list Z) (n : Z) (p p' : Param) : Prop := {
  hb_wf : slices_wf p';
  hb_sum : zsum (slice_size p') = n;
  hb_pos : Forall (Z.lt 0) (slice_size p');
  hb_block : 0 < n -> 0 <= slice_start p' /\
    slice_size p' = take (length (slice_size p')) (drop (Z.to_nat (slice_start p')) slices);
  hb_data : pdata p' = pdata p;
  hb_grad : grad p' = grad p;
  hb_proto : proto_ p' = proto_ p;
  hb_pending : num_pending_requests p' = num_pending_requests p;
}.
Definition in_block (p : Param) (s : Z) : Prop := slice_start p <= s < slice_start p + num_slices p.

Lemma SliceParams_Ok c params_ w ns pieces :
  sliceable params_ w -> owner_sizes params_ w = Ok ns ->
  Z.lcm (nserver_groups c) (nservers_per_group c) <= INT_MAX ->
  0 <= nserver_groups c -> 0 <= nservers_per_group c ->
  Slice (Z.lcm (nserver_groups c) (nservers_per_group c)) ns = Ok pieces ->
  Forall2 (fun ps n => zsum ps = n /\ Forall (Z.lt 0) ps) pieces ns ->
  exists w', SliceParams c params_ w = Ok (w', concat pieces) /\ hp w' = hp w /\
    forall i p, i ∈ params_ -> params w !! i = Some p ->
      exists k n lens p', owner_ids params_ w !! k = Some (owner p) /\ pieces !! k = Some lens /\
        ns !! k = Some n /\ size p (hp w) = Ok n /\ params w' !! i = Some p' /\
        given_slices p p' (Z.of_nat (length (concat (take k pieces)))) lens.
Proof.
  intros [Hnd Hps Hown Hsh] Hns Hlcm Hg Hs Esl Hf.
  destruct (owner_sizes_Ok params_ w Hps) as (ns' & E & Hpos & Hl & Hk).
  assert (ns' = ns) as -> by congruence.
  unfold SliceParams. rewrite LeastCommonMultiple_correct, bind_Ok, Hns, bind_Ok, Esl, bind_Ok by done.
  pose proof (Forall2_length Hf) as Hlp.
  destruct (map_slices_Ok params_ w pieces 0 ∅) as (m & Em & _ & Hm).
  { eapply Forall_impl; [|exact Hps]. intros i (p & n & -> & _). by eexists. }
  { done. }
  { lia. }
  { apply list.Forall_forall. intros id _. apply lookup_empty. }
  rewrite Em, bind_Ok.
  assert (forall i p, i ∈ params_ -> params w !! i = Some p ->
    exists k n lens, owner_ids params_ w !! k = Some (owner p) /\ pieces !! k = Some lens /\
      ns !! k = Some n /\ size p (hp w) = Ok n /\
      m !! owner p = Some (slice_entries (Z.of_nat (length (concat (take k pieces)))) lens)) as Hmap.
  { intros i p Hi Hp. destruct (Hsh i p Hi Hp) as (j & q & Hj & Hq & Hqo & Hop & Hsz).
    destruct (Hk j q Hj Hq Hqo) as (k & n & Hid & Hn & Hqn). rewrite Hqo, Hop in Hid.
    destruct (lookup_lt_is_Some_2 pieces k) as [lens Hlens].
    { apply lookup_lt_Some in Hn. lia. }
    exists k, n, lens. do 3 (split; [done|]). split; [congruence|]. by apply (Hm k). }
  destruct (add_all_slices_Ok params_ m w Hnd) as (w' & Ew & Hh & _ & _ & _ & H).
  { apply list.Forall_forall. intros i Hi. eapply list.Forall_forall in Hps as Hpi; [|exact Hi].
    destruct Hpi as (p & n & Hp & _ & _ & Hwf & Hemp).
    destruct (Hmap i p Hi Hp) as (k & _ & lens & _ & _ & _ & _ & Hm'). exists p. by eexists _, lens. }
  rewrite Ew, bind_Ok. exists w'. split; [done|]. split; [done|]. intros i p Hi Hp.
  destruct (Hmap i p Hi Hp) as (k & n & lens & ? & ? & ? & ? & Hm').
  destruct (H i p _ lens Hi Hp Hm') as (p' & ? & ?). by exists k, n, lens, p'.
Qed.

Lemma given_slices_block p p' k pieces lens n :
  pieces !! k = Some lens -> zsum lens = n -> Forall (Z.lt 0) lens ->
  given_slices p p' (Z.of_nat (length (concat (take k pieces)))) lens ->
  has_block (concat pieces) n p p'.
Proof.
  intros Hk Hsum Hpos [Hwf Hsz Hst ? ? ? ?]. constructor; try done; try congruence.
  intros Hn. assert (lens <> []) as Hne by (intros ->; simpl in *; lia).
  rewrite Hst, Hsz, Nat2Z.id by done. split; [lia|]. by apply concat_block.
Qed.

(** What [SliceParams] leaves, by the position [k] of the owner among the owners. *)
Definition sliced (params_ : list Z) (pieces : list (list Z)) (w w' : world) : Prop :=
  forall i p', i ∈ params_ -> params w' !! i = Some p' -> exists k lens,
    owner_ids params_ w !! k = Some (owner p') /\ pieces !! k = Some lens /\ slice_size p' = lens /\
    num_slices p' = Z.of_nat (length lens) /\
    (lens <> [] -> slice_start p' = Z.of_nat (length (concat (take k pieces)))).

Lemma sliced_disjoint params_ pieces w w' i j p q :
  NoDup (owner_ids params_ w) -> sliced params_ pieces w w' ->
  i ∈ params_ -> j ∈ params_ -> params w' !! i = Some p -> params w' !! j = Some q ->
  (owner p = owner q -> slice_size p = slice_size q) /\
  (owner p = owner q -> slice_size p <> [] -> slice_start p = slice_start q) /\
  (owner p <> owner q -> forall s, in_block p s -> in_block q s -> False).
Proof.
  intros Hnd Hafter Hi Hj Hpi Hqj.
  destruct (Hafter i p Hi Hpi) as (k & lens & Ho & Hk & Hsz & Hnn & Hst).
  destruct (Hafter j q Hj Hqj) as (k' & lens' & Ho' & Hk' & Hsz' & Hnn' & Hst').
  assert (owner p = owner q -> k = k') as Heq.
  { intros Hpq. rewrite Hpq in Ho. by eapply (NoDup_lookup _ _ _ _ Hnd). }
  split; [|split].
  - intros Hpq. rewrite Heq in Hk by done. congruence.
  - intros Hpq Hne. rewrite Hst, Hst' by (rewrite Heq in Hk by done; congruence).
    by rewrite Heq.
  - unfold in_block. intros Hne s [Hs1 Hs2] [Hs3 Hs4].
    assert (lens <> []) as Hl1 by (intros ->; simpl in *; lia).
    assert (lens' <> []) as Hl2 by (intros ->; simpl in *; lia).
    rewrite (Hst Hl1), Hnn in *. rewrite (Hst' Hl2), Hnn' in *.
    assert (k <> k') as Hkk by congruence.
    destruct (decide (k < k')%nat) as [Hlt|Hge].
    + pose proof (concat_block_le pieces k k' lens Hk Hlt). lia.
    + pose proof (concat_block_le pieces k' k lens' Hk' ltac:(lia)). lia.
Qed.

(** C5. [SliceParams] cuts a net's parameters into the slices that workers and
    servers exchange, or fails the final [CHECK] of [Slice].  Afterwards every
    parameter's slices are positive and tile its values; they are a block of the
    list of all slices that is returned, from its start id on; parameters with the
    same owner have the same block, those with different owners disjoint ones, and
    every slice id belongs to some parameter.  Nothing else of the parameters or of
    the store changes. *)
Theorem SliceParams_spec (c : ClusterProto) (params_ : list Z) (w : world) (ns : list Z)
    (Hw : sliceable params_ w) (Hns : owner_sizes params_ w = Ok ns)
    (Hg : 0 < nserver_groups c) (Hs : 0 < nservers_per_group c)
    (Hlcm : Z.lcm (nserver_groups c) (nservers_per_group c) <= INT_MAX)
    (Hmax : zsum ns + zsum ns / 10 <= INT_MAX) :
  let num := Z.lcm (nserver_groups c) (nservers_per_group c) in
  (Slice num ns = Fatal /\ SliceParams c params_ w = Fatal) \/
  exists slices w', SliceParams c params_ w = Ok (w', slices) /\ hp w' = hp w /\
    zsum slices = zsum ns /\ Forall (Z.lt 0) slices /\
    (forall i p n, i ∈ params_ -> params w !! i = Some p -> size p (hp w) = Ok n ->
       exists p', params w' !! i = Some p' /\ has_block slices n p p') /\
    (forall i j p q, i ∈ params_ -> j ∈ params_ -> params w' !! i = Some p -> params w' !! j = Some q ->
       (owner p = owner q -> slice_size p = slice_size q) /\
       (owner p = owner q -> slice_size p <> [] -> slice_start p = slice_start q) /\
       (owner p <> owner q -> forall s, in_block p s -> in_block q s -> False)) /\
    (forall s, 0 <= s < Z.of_nat (length slices) ->
       exists i p, i ∈ params_ /\ params w' !! i = Some p /\ in_block p s).
Proof.
  intros num. destruct (owner_sizes_Ok params_ w (sl_params _ _ Hw)) as (ns' & E & Hpos & Hl & _).
  assert (ns' = ns) as -> by congruence.
  assert (0 < num) as Hnum.
  { assert (0 <= num) by apply Z.lcm_nonneg. assert (num <> 0); [|lia].
    unfold num. rewrite Z.lcm_eq_0. lia. }
  destruct (Slice_Ok num ns Hnum Hpos Hmax) as (pieces & nbox & _ & Esl & Hf).
  destruct (nbox <=? num).
  2: { left. split; [done|]. unfold SliceParams.
       rewrite LeastCommonMultiple_correct by lia. fold num. by rewrite bind_Ok, Hns, bind_Ok, Esl. }
  right. assert (Forall2 (fun ps n => zsum ps = n /\ Forall (Z.lt 0) ps) pieces ns) as Hf'.
  { eapply Forall2_impl; [|exact Hf]. intros ps n [? Hps]. split; [done|].
    eapply Forall_impl; [|exact Hps]. unfold piece_ok. intros. lia. }
  destruct (SliceParams_Ok c params_ w ns pieces Hw Hns Hlcm) as (w' & Ew & Hh & Hp); [lia|lia|done..|].
  exists (concat pieces), w'. split; [done|]. split; [done|]. split; [|split; [|split; [|split]]].
  - rewrite zsum_concat. clear -Hf'. induction Hf' as [|? ? ? ? [? _]]; simpl; lia.
  - clear -Hf'. induction Hf' as [|? ? ? ? [_ ?]]; simpl; [done|]. by apply Forall_app.
  - intros i p n Hi Hpi Hn. destruct (Hp i p Hi Hpi) as (k & n' & lens & p' & _ & Hk & Hnk & Hn' & Hp' & Hgs).
    exists p'. split; [done|]. assert (n' = n) as -> by congruence.
    destruct (Forall2_lookup_lr _ _ _ _ _ _ Hf' Hk Hnk). by eapply given_slices_block.
  - intros i j p q. apply (sliced_disjoint _ pieces w); [apply Hw|].
    intros j' p' Hj' Hp'. pose proof (sl_params _ _ Hw) as Hall.
    eapply list.Forall_forall in Hall; [|exact Hj']. destruct Hall as (p0 & _ & Hp0 & _).
    destruct (Hp j' p0 Hj' Hp0) as (k & n & lens & p2 & Ho & Hk & _ & _ & Hp2 & [Hwf ? Hst _ _ Hpr _]).
    assert (p2 = p') as -> by congruence. exists k, lens. unfold owner in *. rewrite Hpr.
    split; [done|]. split; [done|]. split; [done|]. split; [|done]. rewrite (wf_num _ Hwf). congruence.
  - intros s Hs0. destruct (concat_block_of pieces (Z.to_nat s)) as (k & lens & Hk & Hs1); [lia|].
    destruct (lookup_lt_is_Some_2 (owner_ids params_ w) k) as [id Hid].
    { apply lookup_lt_Some in Hk. pose proof (Forall2_length Hf'). lia. }
    destruct (owner_ids_lookup params_ w k id Hid) as (j & q & Hj & Hq & _ & Hqo).
    destruct (Hp j q Hj Hq) as (k' & n & lens' & p' & Ho & Hk' & _ & _ & Hp' & [Hwf Hsz Hst _ _ _ _]).
    assert (k' = k) as ->.
    { eapply (NoDup_lookup _ _ _ _ (sl_owners _ _ Hw)); [exact Ho|congruence]. }
    assert (lens' = lens) as -> by congruence. exists j, p'. split; [done|]. split; [done|].
    unfold in_block. rewrite Hst, (wf_num _ Hwf), Hsz by (intros ->; simpl in *; lia). lia.
Qed.

(** *** A net of two parameters, of 3 and 5 floats, and one that shares the first *)
Definition demo_net_blob (n : Z) : Blob := mkBlob None [n] n n 0.
Definition demo_net_param (id owner blob : Z) : Param :=
  mkParam (-1) 0 0 [] [] [] [] [] 0 (Some blob) Blob_new Blob_new
    (mkProto "" id owner "" f32_one f32_one).
Definition demo_net : world :=
  mkWorld (mkHeap ∅ 1 ∅ {[0 := demo_net_blob 3; 1 := demo_net_blob 5]} 2)
    {[0 := demo_net_param 4 4 0; 1 := demo_net_param 6 6 1; 2 := demo_net_param 5 4 0]} 3 ∅.
Definition demo_topology : ClusterProto := mkClusterProto 1 1 1 2 1 1 false.

Lemma demo_sliceable : sliceable [0; 1; 2] demo_net.
Proof.
  constructor.
  - by apply (bool_decide_eq_true_1 _).
  - assert (forall i o b, slices_wf (demo_net_param i o b)) as Hwf.
    { intros i o b. constructor; simpl; try done. intros ?. lia. }
    repeat constructor; eexists _, _; (split; [reflexivity|]); (split; [reflexivity|]);
      (split; [done|]); (split; [apply Hwf|done]).
  - by apply (bool_decide_eq_true_1 _).
  - intros i p Hi. apply elem_of_cons in Hi as [->|Hi]; [|apply elem_of_cons in Hi as [->|Hi];
      [|apply list_elem_of_singleton in Hi as ->]]; intros Hp; injection Hp as <-.
    + exists 0, (demo_net_param 4 4 0). split; [by left|done].
    + exists 1, (demo_net_param 6 6 1). split; [right; by left|done].
    + exists 0, (demo_net_param 4 4 0). split; [by left|done].
Qed.

Lemma SliceParams_spec_witness :
  exists slices w', SliceParams demo_topology [0; 1; 2] demo_net = Ok (w', slices) /\ zsum slices = 8.
Proof.
  destruct (SliceParams_spec demo_topology [0; 1; 2] demo_net [3; 5] demo_sliceable)
    as [[_ E]|(slices & w' & E & _ & Hs & _)]; try reflexivity; try (vm_compute; discriminate).
  by exists slices, w'.
Defined.
