(* ===== verification/StubProps.v ===== *)
(** * Properties of the stub

    A request of the workers of a process for a parameter becomes one message per
    slice, addressed to the server of the worker's server group that has the slice
    ([GenMsgs]); gets of a version that was asked for are not repeated; updates
    wait for all local workers and carry the average of their gradients; the
    messages are those the server handles ([Put_through]). *)

From S2P Require Import Prelude Common Float32 Msg Format Memory Param ParamProps ParamUpdate.
From S2P Require Import Updater UpdaterProps Server ServerProps Cluster ClusterProps Stub.

(** ** The messages of [GenMsgs] *)

(** The header of the message for a slice. *)
Record addressed (t : Trainer) (ty version : Z) (p : Param) (ix : nat) (src_grp dst_grp server : Z)
    `{C : Czmq} (m : Msg) : Prop := {
  ad_type : type m = ty;
  ad_val : trgt_val m = ParamTrgt (owner p) (slice_start p + Z.of_nat ix);
  ad_version : trgt_version m = version;
  ad_src : src m = Addr src_grp (procs_id_ t) (entity_num kStub);
  ad_dst : dst m = Addr dst_grp server (entity_num kServer);
}.

(** The server of group [dst_grp] for slice [ix], and the process that runs it. *)
Definition slice_server (cl : Cluster) (t : Trainer) (dst_grp : Z) (p : Param) (ix : nat)
    (server procs : Z) : Prop :=
  idx (slice2server_ t) (slice_start p + Z.of_nat ix) = Ok server /\
  ProcsIDOf cl dst_grp server (entity_num kServer) = Ok procs.

Definition num_frame (n : Z) : list Z := frame_of [(ch_i, AInt n)].

Section gen.
Context `{C : Czmq} `{!CzmqLaws C}.
Variables (cl : Cluster) (t : Trainer) (version : Z) (entry : ParamEntry) (src_grp dst_grp : Z).

Lemma append_num m fs n :
  INT_MIN <= n <= INT_MAX -> has_frames m fs ->
  exists m' sz, AddFormatFrame "i" [AInt n] m = Ok (m', sz) /\
    has_frames m' (fs ++ [num_frame n]) /\ same_header m m'.
Proof.
  intros Hn Hm.
  destruct (AddFormatFrame_Ok "i" [(ch_i, AInt n)] m fs Hm eq_refl) as (m' & E & H1 & H2);
    [repeat constructor; unfold INT_MIN, INT_MAX in *; simpl; lia|vm_compute; discriminate|].
  simpl map in E. exists m'. by eexists.
Qed.

(** Marking the slices of [done_] as pending. *)
Definition mark (done_ : list nat) (flags : list bool) : list bool :=
  foldl (fun l ix => <[ix := true]> l) flags done_.

Lemma length_mark done_ flags : length (mark done_ flags) = length flags.
Proof.
  unfold mark. revert flags. induction done_ as [|ix done_ IH]; intros flags; simpl; [done|].
  by rewrite IH, length_insert.
Qed.

Lemma mark_all flags : mark (seq 0 (length flags)) flags = replicate (length flags) true.
Proof.
  apply list_eq. intros i.
  enough (forall n k (l : list bool), foldl (fun l ix => <[ix := true]> l) l (seq k n) !! i
    = if decide (k <= i < k + n /\ i < length l)%nat then Some true else l !! i) as H.
  { unfold mark. rewrite H. destruct (decide _) as [?|Hn].
    - symmetry. apply lookup_replicate. split; [done|lia].
    - rewrite !lookup_ge_None_2; [done|rewrite length_replicate; lia|lia]. }
  induction n as [|n IH]; intros k l; simpl.
  { rewrite decide_False by lia. done. }
  rewrite IH, length_insert. destruct (decide (i = k)) as [->|Hne].
  - rewrite (decide_False (P := (S k <= k < S k + n /\ k < length l)%nat)) by lia.
    destruct (decide (k < length l)%nat).
    + rewrite decide_True by lia. by apply list_lookup_insert_eq.
    + rewrite decide_False by lia. rewrite !lookup_ge_None_2; rewrite ?length_insert; done || lia.
  - rewrite list_lookup_insert_ne by done.
    destruct (decide (S k <= i < S k + n /\ i < length l)%nat),
      (decide (k <= i < k + S n /\ i < length l)%nat); done || lia.
Qed.

(** Going through the slices [ixs], with an invariant of the parameter that knows
    the slices already done. *)
Lemma gen_msgs_Ok ty h (I : list nat -> Param -> Prop) (M : nat -> Msg -> Prop) ixs :
  (forall done_ ix p, I done_ p -> ix ∈ ixs -> exists p' m,
     gen_msg cl t ty version entry src_grp dst_grp (Z.of_nat ix) p h = Ok (h, p', m) /\
     I (done_ ++ [ix]) p' /\ M ix m) ->
  forall done_ p, I done_ p -> exists p' ms,
    gen_msgs cl t ty version entry src_grp dst_grp (map Z.of_nat ixs) p h = Ok (h, p', ms) /\
    I (done_ ++ ixs) p' /\ Forall2 M ixs ms.
Proof.
  induction ixs as [|ix ixs IH]; intros Hstep done_ p Hp; simpl.
  { exists p, []. rewrite app_nil_r. by split. }
  destruct (Hstep done_ ix p Hp) as (p1 & m & E & Hp1 & Hm); [by left|]. rewrite E, bind_Ok.
  destruct IH with (done_ ++ [ix]) p1 as (p' & ms & E' & Hp' & Hms); [|done|].
  { intros d ix' q Hq Hi. apply Hstep; [done|by right]. }
  rewrite E', bind_Ok. exists p', (m :: ms). rewrite <- app_assoc in Hp'.
  split; [done|]. split; [done|]. by constructor.
Qed.

(** A parameter in the worker's store, ready to be sent: its values at [base] and its
    gradient at [gp]. *)
Record sendable (h : heap) (p : Param) (base : Z) (vs : list Z) (gp : Z) (gs : list Z) : Prop := {
  se_ok : heap_ok h;
  se_param : param_at h p base vs;
  se_cover : slices_cover p vs;
  se_grad : at_cpu h (grad p) gp gs;
  se_gcover : slices_cover p gs;
  se_mults : mults_ok p;
  se_max : Z.of_nat (length vs) <= INT_MAX;
  se_brk : brk h <= 2 ^ 64;
}.

Lemma sendable_pending h p base vs gp gs pget pupd n :
  length pget = length (slice_size p) -> length pupd = length (slice_size p) ->
  sendable h p base vs gp gs -> sendable h (set_pending pget pupd n p) base vs gp gs.
Proof.
  intros H1 H2 [Hok Hp Hc Hg Hgc Hm Hmax Hbrk]. constructor; try done.
  - destruct Hc as [[] ? ?]. by constructor.
  - destruct Hgc as [[] ? ?]. by constructor.
Qed.

(** What the message for slice [ix] of a parameter carries. *)
Definition request_frames (ty : Z) (copy : bool) (p : Param) (base : Z) (vs : list Z) (gp : Z)
    (gs : list Z) (num : Z) (ix : nat) : list (list Z) :=
  let ptr := base + sizeof_float * Z.of_nat (slice_off p ix) in
  if ty =? kPut then
    frame_of (put_fields (Z.of_nat (slice_len p ix)) (lr_mult (proto_ p)) (wd_mult (proto_ p))
                (if copy then 0 else ptr))
    :: (if copy then [bytes_of_f32s (slice_vals p ix vs)] else []) ++ [num_frame num]
  else if ty =? kGet then [get_frame (Z.b2z copy) ptr]
  else update_body copy p gp gs ix ++ [num_frame num].

(** The number the message ends with: of all shares, or of the local ones. *)
Definition request_num (ty num : Z) : Prop :=
  INT_MIN <= num <= INT_MAX /\
  (ty = kPut /\ num = num_total entry /\ 0 < num \/ ty = kGet \/
   ty = kUpdate /\ num_local entry = Some num).

(** The parameter after the messages for the slices [done_]. *)
Definition requested (ty : Z) (done_ : list nat) (p : Param) : Param :=
  if ty =? kPut then p
  else if ty =? kGet then
    set_pending (mark done_ (pending_get p)) (pending_update p)
      (num_pending_requests p + Z.of_nat (length done_)) p
  else
    set_pending (pending_get p) (mark done_ (pending_update p))
      (num_pending_requests p + Z.of_nat (length done_)) p.

Lemma requested_sendable ty done_ h p base vs gp gs :
  sendable h p base vs gp gs -> sendable h (requested ty done_ p) base vs gp gs.
Proof.
  intros Hs. pose proof (cover_wf _ _ (se_cover _ _ _ _ _ _ Hs)) as Hwf. unfold requested.
  destruct (ty =? kPut); [done|]. destruct (ty =? kGet); apply sendable_pending;
    rewrite ?length_mark; done || apply Hwf.
Qed.

Lemma requested_same ty done_ p :
  slice_size (requested ty done_ p) = slice_size p /\ slice_start (requested ty done_ p) = slice_start p /\
  proto_ (requested ty done_ p) = proto_ p.
Proof. unfold requested. by destruct (ty =? kPut), (ty =? kGet). Qed.

Lemma mark_snoc done_ ix flags : mark (done_ ++ [ix]) flags = <[ix := true]> (mark done_ flags).
Proof. unfold mark. by rewrite foldl_app. Qed.

(** The message for one slice. *)
Lemma gen_msg_Ok ty num done_ ix h p base vs gp gs server procs :
  sendable h p base vs gp gs -> request_num ty num -> (ix < length (slice_size p))%nat ->
  slice_server cl t dst_grp p ix server procs ->
  exists m, gen_msg cl t ty version entry src_grp dst_grp (Z.of_nat ix) (requested ty done_ p) h
      = Ok (h, requested ty (done_ ++ [ix]) p, m) /\
    addressed t ty version p ix src_grp dst_grp server m /\
    has_frames m (request_frames ty (negb (procs =? procs_id_ t)) p base vs gp gs num ix).
Proof.
  intros Hs [Hn Hty] Hix [Esv Epr]. set (copy := negb _).
  pose proof (requested_sendable ty done_ _ _ _ _ _ _ Hs) as [Hok Hp Hc Hg Hgc Hm Hmax Hbrk].
  destruct (requested_same ty done_ p) as (Hsz & Hst & Hpr).
  unfold gen_msg, owner. rewrite Hst, Esv, bind_Ok, Epr, bind_Ok. fold copy.
  set (q := requested ty done_ p) in *. rewrite <- Hsz in Hix.
  unfold request_frames, slice_off, slice_len, update_body, slice_vals, slice_off, slice_len.
  rewrite <- Hsz, <- Hpr.
  destruct Hty as [(-> & -> & Hpos)|[->|(-> & Hnl)]]; cbn [Z.eqb kPut kGet kUpdate Pos.eqb].
  - destruct (Z.ltb_spec 0 (num_total entry)); [|lia]. simpl CHECK. rewrite bind_Ok.
    destruct (GenPutMsg_Ok h q base vs ix copy Hok Hp Hc Hix Hm Hmax Hbrk) as (m & E & Ht & Hf & _).
    rewrite E, bind_Ok. destruct (append_num m _ _ Hn Hf) as (m' & sz & E' & Hf' & Hh).
    rewrite E', !bind_Ok. eexists. split; [done|]. split; [|exact Hf'].
    constructor; simpl; unfold owner; rewrite ?Hpr; try done. by destruct Hh as (_ & _ & -> & _).
  - destruct (GenGetMsg_Ok h q base vs ix copy Hok Hp Hc Hix Hbrk) as (m & E & Ht & Hf & _).
    assert (set_pending (<[ix:=true]> (pending_get q)) (pending_update q) (num_pending_requests q + 1) q
      = requested kGet (done_ ++ [ix]) p) as Eq.
    { unfold q, requested. cbn [Z.eqb kPut kGet kUpdate Pos.eqb]. rewrite mark_snoc, length_app.
      unfold set_pending. simpl. f_equal. lia. }
    rewrite E, bind_Ok, Eq. eexists. split; [done|]. split; [|exact Hf].
    constructor; simpl; unfold owner; by rewrite ?Hpr.
  - destruct (GenUpdateMsg_frames h q gp gs ix copy Hok Hbrk Hg Hgc Hix) as (m & E & Ht & Hf).
    assert (set_pending (pending_get q) (<[ix:=true]> (pending_update q)) (num_pending_requests q + 1) q
      = requested kUpdate (done_ ++ [ix]) p) as Eq.
    { unfold q, requested. cbn [Z.eqb kPut kGet kUpdate Pos.eqb]. rewrite mark_snoc, length_app.
      unfold set_pending. simpl. f_equal. lia. }
    rewrite E, bind_Ok, Hnl, deref_Some, bind_Ok, Eq.
    destruct (append_num m _ _ Hn Hf) as (m' & sz & E' & Hf' & Hh).
    rewrite E', !bind_Ok. eexists. split; [done|]. split; [|exact Hf'].
    constructor; simpl; unfold owner; rewrite ?Hpr; try done. by destruct Hh as (_ & _ & -> & _).
Qed.
End gen.

(** A request for a parameter whose first share is object [i], with values [vs] and
    gradient [gs] in the store, and whose slices' servers are known: [route ix] is the
    server of slice [ix] and its process. *)
Record request_ready (cl : Cluster) (t : Trainer) (entry : ParamEntry) (g : Z) (w : world) (i : Z)
    (p : Param) (dst_grp : Z) (route : nat -> Z * Z) : Prop := {
  rr_per : exists per, nworker_groups_per_server_group (cluster_ cl) = Ok per /\ 0 < per /\
    dst_grp = g / per;
  rr_grp : 0 <= g;
  rr_share : shares entry !! 0%nat = Some i;
  rr_param : params w !! i = Some p;
  rr_route ix : (ix < length (slice_size p))%nat ->
    slice_server cl t dst_grp p ix (route ix).1 (route ix).2;
}.

(** The message for slice [ix]: its header and its frames. *)
Definition slice_request `{C : Czmq} `{!CzmqLaws C} (t : Trainer) (ty version num src_grp dst_grp : Z)
    (p : Param) (base : Z) (vs : list Z) (gp : Z) (gs : list Z) (route : nat -> Z * Z)
    (ix : nat) (m : Msg) : Prop :=
  addressed t ty version p ix src_grp dst_grp (route ix).1 m /\
  has_frames m (request_frames ty (negb ((route ix).2 =? procs_id_ t)) p base vs gp gs num ix).

Lemma range_seq n : range 0 (Z.of_nat n) = map Z.of_nat (seq 0 n).
Proof. unfold range. rewrite Z.sub_0_r, Nat2Z.id. by apply map_ext. Qed.

Lemma GenMsgs_Ok `{C : Czmq} `{!CzmqLaws C} cl t ty version num entry msg w i p base vs gp gs dst_grp
    route :
  request_ready cl t entry (AddrGrp (src msg)) w i p dst_grp route ->
  sendable (hp w) p base vs gp gs -> request_num entry ty num ->
  let n := length (slice_size p) in
  exists ms, GenMsgs cl t ty version entry msg w
      = Ok (put_param i (requested ty (seq 0 n) p) (hp w) w, ms) /\
    Forall2 (slice_request t ty version num (AddrGrp (src msg)) dst_grp p base vs gp gs route)
      (seq 0 n) ms.
Proof.
  intros [(per & Eper & Hper & ->) Hg Hsh Hp Hr] Hs Hn n. unfold GenMsgs.
  rewrite Eper, bind_Ok, (idiv_Ok (AddrGrp (src msg)) per Hg Hper), bind_Ok.
  rewrite (vec_at_lookup (shares entry) 0 i Hsh : vec_at (shares entry) 0 = Ok i), bind_Ok, Hp, deref_Some, bind_Ok.
  rewrite (wf_num p (cover_wf _ _ (se_cover _ _ _ _ _ _ Hs))), range_seq. fold n.
  set (dg := _ / per) in *.
  destruct (gen_msgs_Ok cl t version entry (AddrGrp (src msg)) dg ty (hp w)
    (fun done_ q => q = requested ty done_ p)
    (slice_request t ty version num (AddrGrp (src msg)) dg p base vs gp gs route) (seq 0 n))
    with (done_ := @nil nat) (p := p) as (p' & ms & E & -> & Hms).
  - intros done_ ix q -> Hix%elem_of_seq.
    destruct (gen_msg_Ok cl t version entry (AddrGrp (src msg)) dg ty num done_ ix (hp w) p base vs gp gs
      _ _ Hs Hn ltac:(lia) (Hr ix ltac:(lia))) as (m & E & Ha & Hf).
    by exists (requested ty (done_ ++ [ix]) p), m.
  - unfold requested. destruct (ty =? kPut); [done|].
    destruct (ty =? kGet); unfold set_pending; simpl; rewrite Z.add_0_r; by destruct p.
  - rewrite E, bind_Ok. by exists ms.
Qed.

(** [GenMsgs] turns a request of a worker into one message per slice of the
    parameter, in the order of the slices.  The message for a slice goes from the
    stub to the server of the worker's server group that holds the slice, names
    the parameter's owner, the slice and the version, and carries the slice's
    values and the number of shares (put), the address to fill (get), or the
    slice's gradient and the number of local shares (update): the floats
    themselves when the server is in another process, their address when it is in
    this one.  The values and the gradient stay as they are; gets and updates are
    marked as pending, one per slice. *)
Theorem GenMsgs_spec `{C : Czmq} `{!CzmqLaws C} (cl : Cluster) (t : Trainer) (ty version num : Z)
    (entry : ParamEntry) (msg : Msg) (w : world) (i : Z) (p : Param) (base : Z) (vs : list Z)
    (gp : Z) (gs : list Z) (dst_grp : Z) (route : nat -> Z * Z)
    (Hr : request_ready cl t entry (AddrGrp (src msg)) w i p dst_grp route)
    (Hs : sendable (hp w) p base vs gp gs) (Hn : request_num entry ty num) :
  let n := length (slice_size p) in
  exists p' ms, GenMsgs cl t ty version entry msg w = Ok (put_param i p' (hp w) w, ms) /\
    length ms = n /\
    (forall ix m, ms !! ix = Some m ->
       slice_request t ty version num (AddrGrp (src msg)) dst_grp p base vs gp gs route ix m) /\
    param_at (hp w) p' base vs /\ grad p' = grad p /\ slice_size p' = slice_size p /\
    (ty = kGet ->
       pending_get p' = replicate n true /\ num_pending_requests p' = num_pending_requests p + Z.of_nat n) /\
    (ty = kUpdate ->
       pending_update p' = replicate n true /\ num_pending_requests p' = num_pending_requests p + Z.of_nat n).
Proof.
  intros n. destruct (GenMsgs_Ok cl t ty version num entry msg w i p base vs gp gs dst_grp route Hr Hs Hn)
    as (ms & E & Hms). fold n in E, Hms.
  pose proof (cover_wf _ _ (se_cover _ _ _ _ _ _ Hs)) as Hwf.
  exists (requested ty (seq 0 n) p), ms. split; [done|].
  pose proof (Forall2_length Hms) as Hlen. rewrite length_seq in Hlen.
  split; [done|]. split; [|split; [|split; [|split; [|split]]]].
  - intros ix m Hm. eapply Forall2_lookup_r in Hms as (ix' & Hix & H); [|exact Hm].
    apply lookup_seq in Hix as [-> _]. done.
  - by apply (requested_sendable ty (seq 0 n)) in Hs as [].
  - unfold requested. by destruct (ty =? kPut), (ty =? kGet).
  - apply requested_same.
  - intros ->. unfold requested. cbn [Z.eqb kPut kGet kUpdate Pos.eqb pending_get set_pending num_pending_requests].
    rewrite length_seq. split; [|done]. unfold n. by rewrite <- (wf_get p Hwf), mark_all.
  - intros ->. unfold requested. cbn [Z.eqb kPut kGet kUpdate Pos.eqb pending_update set_pending num_pending_requests].
    rewrite length_seq. split; [|done]. unfold n. by rewrite <- (wf_update p Hwf), mark_all.
Qed.

(** ** Averaging the gradients of the local workers *)

(** The gradient of another share, apart from the memory at [gp] of capacity [cap]. *)
Definition other_share (w : world) (h : heap) (gp cap : Z) (jw : Z * list Z) : Prop :=
  exists q gq, params w !! jw.1 = Some q /\ at_cpu h (grad q) gq jw.2 /\
    (gp + sizeof_float * cap <= gq \/ gq + sizeof_float * capacity_ (grad q) <= gp).

Lemma set_tensor_brk p vs h h' : set_tensor p vs h = Ok h' -> brk h' = brk h.
Proof. unfold set_tensor, store. intros H. inv_ok H. by injection H as <-. Qed.

(** Storing the gradient of the first share. *)
Lemma first_store w h p base vs gp gs ws rest :
  heap_ok h -> param_at h p base vs -> grad_ready h p base gp -> at_cpu h (grad p) gp gs ->
  Forall (other_share w h gp (capacity_ (grad p))) rest -> length ws = length gs -> Forall is_f32 ws ->
  exists h', set_tensor gp ws h = Ok h' /\ heap_ok h' /\ param_at h' p base vs /\
    grad_ready h' p base gp /\ at_cpu h' (grad p) gp ws /\
    Forall (other_share w h' gp (capacity_ (grad p))) rest.
Proof.
  intros Hok Hp Hgr Ha Hrest Hl Hf.
  destruct (grad_store_Ok h p base vs gp ws Hok Hp Hgr) as (h' & E & Hok' & Hp' & Hgr' & Ha');
    [by rewrite (at_cpu_count _ _ _ _ Ha), Hl|done|].
  exists h'. do 5 (split; [done|]). eapply Forall_impl; [|exact Hrest].
  intros [j us] (q & gq & Hq & Haq & Hd). exists q, gq. split; [done|]. split; [|done].
  destruct (store_sep h _ _ _ _ _ _ ws Hok Ha Haq Hd Hl Hf) as (h2 & E2 & _ & _ & Haq' & _).
  congruence.
Qed.

Lemma sum_grads_Ok w p base vs gp rest : forall h gs,
  heap_ok h -> param_at h p base vs -> grad_ready h p base gp -> at_cpu h (grad p) gp gs ->
  Forall (other_share w h gp (capacity_ (grad p))) rest ->
  Forall (fun jw => length jw.2 = length gs) rest ->
  exists h', sum_grads (map fst rest) gp (Z.of_nat (length gs)) w h = Ok h' /\ heap_ok h' /\
    brk h' = brk h /\ param_at h' p base vs /\ grad_ready h' p base gp /\
    at_cpu h' (grad p) gp (foldl f32s_add gs (map snd rest)) /\
    length (foldl f32s_add gs (map snd rest)) = length gs.
Proof.
  induction rest as [|[j ws] rest IH]; intros h gs Hok Hp Hgr Ha Hrest Hlen.
  { by exists h. }
  inversion Hrest as [|? ? (q & gq & Hq & Haq & Hd) Hrest' Ea]; clear Ea.
  inversion Hlen as [|? ? Hl Hlen' Ea]; clear Ea. simpl in Hq, Haq, Hl. cbn [map sum_grads fst snd foldl].
  destruct (at_cpu_data _ _ _ _ Haq) as [_ Eq].
  rewrite Hq, deref_Some, bind_Ok, Eq, bind_Ok, (tensor_Ok h _ _ _ _ Ha eq_refl), bind_Ok.
  rewrite (tensor_Ok h _ _ _ _ Haq), bind_Ok by (f_equal; done).
  assert (length (f32s_add gs ws) = length gs) as Hla by by apply length_f32s_add.
  destruct (first_store w h p base vs gp gs (f32s_add gs ws) rest Hok Hp Hgr Ha Hrest')
    as (h1 & E1 & Hok1 & Hp1 & Hgr1 & Ha1 & Hr1); [done|auto with singa|].
  rewrite E1, bind_Ok. rewrite <- Hla, <- (set_tensor_brk _ _ _ _ E1). apply IH; try done.
  eapply Forall_impl; [|exact Hlen']. intros jw. by rewrite Hla.
Qed.

(** The gradients of all the local shares, the first one's at [gp]. *)
Record local_grads (entry : ParamEntry) (w : world) (i : Z) (p : Param) (base : Z) (vs : list Z)
    (gp : Z) (gs : list Z) (rest : list (Z * list Z)) : Prop := {
  lg_shares : shares entry = i :: map fst rest;
  lg_ready : grad_ready (hp w) p base gp;
  lg_len : length gs = length vs;
  lg_rest : Forall (other_share w (hp w) gp (capacity_ (grad p))) rest;
  lg_rlen : Forall (fun jw => length jw.2 = length gs) rest;
  lg_total : 0 < num_total entry;
}.

(** What is sent: the sum of the local gradients divided by the number of all the
    shares, or the gradient itself if there is one local share. *)
Definition local_average (n_local total : Z) (gs : list Z) (rest : list (Z * list Z)) : list Z :=
  if 1 <? n_local then f32s_div (foldl f32s_add gs (map snd rest)) (f32_of_Z total) else gs.

Lemma average_local_Ok entry w i p base vs gp gs rest n_local :
  local_grads entry w i p base vs gp gs rest -> params w !! i = Some p ->
  heap_ok (hp w) -> param_at (hp w) p base vs -> at_cpu (hp w) (grad p) gp gs ->
  exists h', average_local entry n_local w = Ok h' /\ heap_ok h' /\ brk h' = brk (hp w) /\
    param_at h' p base vs /\
    at_cpu h' (grad p) gp (local_average n_local (num_total entry) gs rest) /\
    length (local_average n_local (num_total entry) gs rest) = length vs.
Proof.
  intros [Hsh Hgr Hlv Hrest Hlen Htot] Hpi Hok Hp Ha. unfold average_local, local_average.
  destruct (1 <? n_local); [|by exists (hp w)].
  rewrite Hsh, Hpi, deref_Some, bind_Ok. destruct (param_at_ptr _ _ _ _ Hp) as (_ & _ & ->).
  rewrite bind_Ok, (grad_ready_ptr _ _ _ _ Hgr), bind_Ok, <- Hlv.
  destruct (sum_grads_Ok w p base vs gp rest (hp w) gs Hok Hp Hgr Ha Hrest Hlen)
    as (h1 & E1 & Hok1 & Hb1 & Hp1 & Hgr1 & Ha1 & Hl1).
  rewrite E1, bind_Ok, (tensor_Ok h1 _ _ _ _ Ha1), bind_Ok by (by rewrite Hl1).
  set (sum := foldl _ _ _) in *.
  assert (length (f32s_div sum (f32_of_Z (num_total entry))) = length sum) as Hl
    by apply length_map.
  destruct (first_store w h1 p base vs gp sum _ [] Hok1 Hp1 Hgr1 Ha1 (List.Forall_nil _) Hl)
    as (h2 & E2 & Hok2 & Hp2 & _ & Ha2 & _); [auto with singa|].
  exists h2. split; [done|]. split; [done|].
  split; [by rewrite (set_tensor_brk _ _ _ _ E2)|]. split; [done|]. split; [done|]. congruence.
Qed.

Lemma HandleUpdate_Ok `{C : Czmq} `{!CzmqLaws C} (cl : Cluster) (t : Trainer)
    (entry : ParamEntry) (msg : Msg) (w : world) (i : Z) (p : Param) (base : Z) (vs : list Z)
    (gp : Z) (gs : list Z) (rest : list (Z * list Z)) (n_local dst_grp : Z) (route : nat -> Z * Z)
    (Hr : request_ready cl t entry (AddrGrp (src msg)) w i p dst_grp route)
    (Hs : sendable (hp w) p base vs gp gs) (Hl : local_grads entry w i p base vs gp gs rest)
    (Hn : num_local entry = Some n_local) (Hnum : 0 <= num_update entry)
    (Hmax : n_local <= INT_MAX) :
  (num_update entry + 1 < n_local ->
     HandleUpdate cl t entry msg w = Ok (w, set_num_update (num_update entry + 1) entry, [])) /\
  (num_update entry + 1 = n_local ->
     let avg := local_average n_local (num_total entry) gs rest in
     let p' := requested kUpdate (seq 0 (length (slice_size p))) p in
     exists h' ms,
       HandleUpdate cl t entry msg w = Ok (put_param i p' h' w, set_num_update 0 entry, ms) /\
       Forall2 (slice_request t kUpdate (trgt_version msg) n_local (AddrGrp (src msg)) dst_grp
                  p base vs gp avg route) (seq 0 (length (slice_size p))) ms /\
       sendable h' p' base vs gp avg /\ sendable h' p base vs gp avg).
Proof.
  unfold HandleUpdate. split; intros Hc; rewrite int_ret_Ok, bind_Ok by (unfold INT_MIN; lia);
    cbv zeta; cbn [num_local set_num_update]; rewrite Hn, deref_Some, bind_Ok.
  - by destruct (Z.leb_spec n_local (num_update entry + 1)); [lia|].
  - destruct (Z.leb_spec n_local (num_update entry + 1)); [|lia].
    set (avg := local_average _ _ _ _). set (e := set_num_update (num_update entry + 1) entry).
    assert (local_grads e w i p base vs gp gs rest) as Hl' by by destruct Hl.
    destruct (average_local_Ok e w i p base vs gp gs rest n_local Hl' (rr_param _ _ _ _ _ _ _ _ _ Hr))
      as (h1 & E1 & Hok1 & Hb1 & Hp1 & Ha1 & Hl1); [apply Hs..|].
    change (num_total e) with (num_total entry) in Ha1, Hl1. fold avg in Ha1, Hl1. rewrite E1, bind_Ok.
    destruct Hs as [Hok Hp Hcov Hg Hgc Hm Hmx Hbrk].
    assert (sendable h1 p base vs gp avg) as Hs1.
    { constructor; try done; [|by rewrite Hb1]. destruct Hcov as [? ? Hsum]. constructor; try done.
      by rewrite Hl1. }
    destruct (GenMsgs_Ok cl t kUpdate (trgt_version msg) n_local e msg (set_hp h1 w) i p base vs gp avg
      dst_grp route) as (ms & E & Hms); [by destruct Hr|done|by split; [unfold INT_MIN; lia|auto]|].
    rewrite E, bind_Ok. eexists h1, ms. split; [done|]. split; [done|].
    split; [by apply requested_sendable|done].
Qed.

(** The stub merges the updates of the local workers.  It counts them, and while
    one is missing it sends nothing; with the last one it averages the gradients of
    the local shares into that of the first share (without touching its values) and
    sends, for each slice, that gradient with the number of local shares, and
    starts counting anew. *)
Theorem HandleUpdate_spec `{C : Czmq} `{!CzmqLaws C} (cl : Cluster) (t : Trainer)
    (entry : ParamEntry) (msg : Msg) (w : world) (i : Z) (p : Param) (base : Z) (vs : list Z)
    (gp : Z) (gs : list Z) (rest : list (Z * list Z)) (n_local dst_grp : Z) (route : nat -> Z * Z)
    (Hr : request_ready cl t entry (AddrGrp (src msg)) w i p dst_grp route)
    (Hs : sendable (hp w) p base vs gp gs) (Hl : local_grads entry w i p base vs gp gs rest)
    (Hn : num_local entry = Some n_local) (Hnum : 0 <= num_update entry)
    (Hmax : n_local <= INT_MAX) :
  (num_update entry + 1 < n_local ->
     HandleUpdate cl t entry msg w = Ok (w, set_num_update (num_update entry + 1) entry, [])) /\
  (num_update entry + 1 = n_local ->
     let avg := local_average n_local (num_total entry) gs rest in
     exists h' p' ms,
       HandleUpdate cl t entry msg w = Ok (put_param i p' h' w, set_num_update 0 entry, ms) /\
       Forall2 (slice_request t kUpdate (trgt_version msg) n_local (AddrGrp (src msg)) dst_grp
                  p base vs gp avg route) (seq 0 (length (slice_size p))) ms /\
       param_at h' p' base vs /\ at_cpu h' (grad p') gp avg).
Proof.
  destruct (HandleUpdate_Ok cl t entry msg w i p base vs gp gs rest n_local dst_grp route Hr Hs Hl Hn
    Hnum Hmax) as [H1 H2]. split; [done|].
  intros E. destruct (H2 E) as (h' & ms & E' & Hms & Hs' & _).
  eexists h', _, ms. split; [done|]. split; [done|]. split; apply Hs'.
Qed.

Lemma HandleGet_Ok `{C : Czmq} `{!CzmqLaws C} (cl : Cluster) (t : Trainer)
    (entry : ParamEntry) (msg : Msg) (w : world) (i : Z) (p : Param) (base : Z) (vs : list Z)
    (gp : Z) (gs : list Z) (next dst_grp : Z) (route : nat -> Z * Z)
    (Hr : request_ready cl t entry (AddrGrp (src msg)) w i p dst_grp route)
    (Hs : sendable (hp w) p base vs gp gs) (Hv : next_version entry = Some next) :
  (trgt_version msg <= next -> HandleGet cl t entry msg w = Ok (w, entry, [])) /\
  (next < trgt_version msg -> exists w' entry' ms, HandleGet cl t entry msg w = Ok (w', entry', ms) /\
     Forall2 (slice_request t kGet (trgt_version msg) 0 (AddrGrp (src msg)) dst_grp
                p base vs gp gs route) (seq 0 (length (slice_size p))) ms /\
     hp w' = hp w /\ num_update entry' = num_update entry /\
     forall msg2 w2, trgt_version msg2 <= trgt_version msg ->
       HandleGet cl t entry' msg2 w2 = Ok (w2, entry', [])).
Proof.
  unfold HandleGet. rewrite Hv, deref_Some, bind_Ok.
  split; intros Hlt; destruct (Z.ltb_spec next (trgt_version msg)); try lia; [done|].
  set (e := mkEntry (num_update entry) _ _ _ _).
  destruct (GenMsgs_Ok cl t kGet (trgt_version msg) 0 e msg w i p base vs gp gs dst_grp route)
    as (ms & E & Hms); [by destruct Hr|done|by split; [done|auto]|].
  rewrite E, bind_Ok. eexists _, e, ms. split; [done|]. split; [done|]. split; [done|].
  split; [done|]. intros msg2 w2 Hle. simpl.
  by destruct (Z.ltb_spec (trgt_version msg) (trgt_version msg2)); [lia|].
Qed.

(** A get is sent to the servers only when it asks for a later version than the
    gets before it: then there is one request per slice, and the same get of
    another worker, or an older one, sends nothing. *)
Theorem HandleGet_once `{C : Czmq} `{!CzmqLaws C} (cl : Cluster) (t : Trainer)
    (entry : ParamEntry) (msg : Msg) (w : world) (i : Z) (p : Param) (base : Z) (vs : list Z)
    (gp : Z) (gs : list Z) (next dst_grp : Z) (route : nat -> Z * Z)
    (Hr : request_ready cl t entry (AddrGrp (src msg)) w i p dst_grp route)
    (Hs : sendable (hp w) p base vs gp gs) (Hv : next_version entry = Some next) :
  (trgt_version msg <= next -> HandleGet cl t entry msg w = Ok (w, entry, [])) /\
  (next < trgt_version msg -> exists w' entry' ms, HandleGet cl t entry msg w = Ok (w', entry', ms) /\
     Forall2 (slice_request t kGet (trgt_version msg) 0 (AddrGrp (src msg)) dst_grp
                p base vs gp gs route) (seq 0 (length (slice_size p))) ms /\
     hp w' = hp w /\ num_update entry' = num_update entry /\
     forall msg2 w2, trgt_version msg2 <= trgt_version msg ->
       HandleGet cl t entry' msg2 w2 = Ok (w2, entry', [])).
Proof. by apply (HandleGet_Ok cl t entry msg w i p base vs gp gs next dst_grp route). Qed.

(** ** Witnesses: a worker process (0), and the server in another one (1)

    The parameter is object 7, two floats at 1 with their gradient at 10, in two
    slices. *)
#[local] Existing Instances ListCzmq.czmq ListCzmq.czmq_laws.

Definition demo_two_procs : ClusterProto := mkClusterProto 1 1 1 1 1 1 true.
Definition demo_cl : Cluster :=
  match Cluster_make demo_two_procs with Ok cl => cl | _ => mkCluster demo_two_procs 0 ∅ end.
Definition demo_stub : Trainer := mkTrainer 0 ∅ [0; 0].
Definition demo_wp2 : Param :=
  mkParam (-1) 0 2 [0; 1] [1; 1] [false; false] [false; false] [false; false] 0 (Some 1)
    (mkBlob (Some 2) [2] 2 2 (-1)) Blob_new ParamProto_default.
Definition demo_worker : world := mkWorld demo_rheap {[7 := demo_wp2]} 8 ∅.
Definition demo_entry (num : Z) : ParamEntry := mkEntry num (Some (-1)) (Some 1) 1 [7].

Lemma demo_wp2_cover : slices_cover demo_wp2 demo_floats.
Proof.
  constructor; [|repeat constructor|done]. constructor; try done.
  intros [|[|i]]; simpl; try done. lia.
Qed.

Lemma demo_sendable : sendable demo_rheap demo_wp2 1 demo_floats 10 demo_floats.
Proof.
  constructor; [apply demo_rheap_ok| |apply demo_wp2_cover|by apply (demo_holds 2)|
    apply demo_wp2_cover|by split; vm_compute|by vm_compute|by vm_compute].
  exists 1, demo_blob. split; [done|]. split; [done|]. by apply (demo_holds 0).
Qed.

Lemma demo_request_ready num : request_ready demo_cl demo_stub (demo_entry num) 0 demo_worker 7 demo_wp2 0
  (fun _ => (0, 1)).
Proof.
  constructor; try done; [by exists 1|]. intros [|[|ix]] Hix; simpl in Hix; [done..|lia].
Qed.

Lemma GenMsgs_spec_witness :
  exists p' ms, GenMsgs demo_cl demo_stub kPut 0 (demo_entry 0) (demo_msg kPut 0 0 []) demo_worker
      = Ok (put_param 7 p' demo_rheap demo_worker, ms) /\ length ms = 2%nat.
Proof.
  destruct (GenMsgs_spec demo_cl demo_stub kPut 0 1 (demo_entry 0) (demo_msg kPut 0 0 []) demo_worker 7
    demo_wp2 1 demo_floats 10 demo_floats 0 _ (demo_request_ready 0) demo_sendable)
    as (p' & ms & E & Hl & _).
  - split; [done|]. left. by split.
  - by exists p', ms.
Defined.

Lemma demo_local_grads num :
  local_grads (demo_entry num) demo_worker 7 demo_wp2 1 demo_floats 10 demo_floats [].
Proof.
  constructor; try done. constructor; [|exists 2; split; [done|]; by eexists].
  constructor.
  - eapply blob_holds_wf, at_holds. by apply (demo_holds 2).
  - simpl. lia.
  - exists 1, demo_blob, 2, (mkSM 10 8 HEAD_AT_CPU true). split_and!; try done.
    right. split; [done|]. right. by vm_compute.
Qed.

Lemma HandleUpdate_spec_witness :
  exists h' p' ms, HandleUpdate demo_cl demo_stub (demo_entry 0) (demo_msg kUpdate 0 0 []) demo_worker
      = Ok (put_param 7 p' h' demo_worker, demo_entry 0, ms) /\ length ms = 2%nat.
Proof.
  destruct (HandleUpdate_spec demo_cl demo_stub (demo_entry 0) (demo_msg kUpdate 0 0 []) demo_worker 7
    demo_wp2 1 demo_floats 10 demo_floats [] 1 0 _ (demo_request_ready 0) demo_sendable
    (demo_local_grads 0) eq_refl) as [_ H]; [done..|].
  destruct (H eq_refl) as (h' & p' & ms & E & Hms & _). exists h', p', ms. split; [done|].
  by rewrite <- (Forall2_length Hms).
Defined.

Lemma HandleGet_once_witness :
  HandleGet demo_cl demo_stub (demo_entry 0) (demo_msg kGet 0 (-1) []) demo_worker
    = Ok (demo_worker, demo_entry 0, []) /\
  exists w' entry' ms, HandleGet demo_cl demo_stub (demo_entry 0) (demo_msg kGet 0 0 []) demo_worker
    = Ok (w', entry', ms) /\ length ms = 2%nat.
Proof.
  split.
  - apply (HandleGet_once demo_cl demo_stub (demo_entry 0) (demo_msg kGet 0 (-1) []) demo_worker 7
      demo_wp2 1 demo_floats 10 demo_floats (-1) 0 _ (demo_request_ready 0) demo_sendable eq_refl).
    simpl. lia.
  - destruct (HandleGet_once demo_cl demo_stub (demo_entry 0) (demo_msg kGet 0 0 []) demo_worker 7
      demo_wp2 1 demo_floats 10 demo_floats (-1) 0 _ (demo_request_ready 0) demo_sendable eq_refl)
      as [_ H].
    destruct H as (w' & e' & ms & E & Hms & _); [simpl; lia|]. exists w', e', ms.
    split; [done|]. by rewrite <- (Forall2_length Hms).
Defined.
