(* ===== verification/StubServer.v ===== *)
(** * The stub and the servers together

    What the stub sends is what the servers of another process handle: a put of a
    worker ends with every slice of the parameter at its server ([Put_through]),
    and the updates of all processes end with the servers' answer ([Update_through]). *)

From S2P Require Import Prelude Common Float32 Msg Format Memory Param ParamProps ParamUpdate.
From S2P Require Import Updater UpdaterProps Server ServerProps Cluster ClusterProps Stub.
From S2P Require Import StubProps.

(** ** Puts *)
Section puts.
Context `{C : Czmq} `{!CzmqLaws C}.
Variable ngroups : Z.

(** The servers of a process handling the puts that come to them, in order. *)
Fixpoint handle_puts (puts : list (Msg * Server)) (w : world) : outcome (world * list Server) :=
  match puts with
  | [] => Ok (w, [])
  | (m, s) :: puts =>
      '(w, s, _) ← Server.HandlePut ngroups m s w;
      '(w, ss) ← handle_puts puts w;
      Ok (w, s :: ss)
  end.

(** A put of the values [ws] as [slice]. *)
Record put_req (num version slice : Z) (ws : list Z) (ms : Msg * Server) : Prop := {
  pr_frames : exists lr wd, at_frame ms.1 (put_frames ws lr wd num) 0 /\ is_f32 lr /\ is_f32 wd;
  pr_slice : SliceID (trgt_val ms.1) = slice;
  pr_version : trgt_version ms.1 = version;
  pr_values : Forall is_f32 ws /\ ws <> [] /\ Z.of_nat (length ws) <= INT_MAX;
  pr_masters : masters ngroups ms.2 slice;
}.

(** The slice as the server has it after a put. *)
Definition slice_put_at (w : world) (num version slice : Z) (ws : list Z) : Prop :=
  exists i p base, slice_ok w slice i p base ws /\ local_version p = version /\
    shard w !! slice = Some (ParamEntry_make num i).

Lemma handle_puts_Ok num version slices puts : INT_MIN <= num <= INT_MAX -> forall w, world_ok w ->
  Forall2 (fun sw => put_req num version sw.1 sw.2) slices puts ->
  NoDup (map fst slices) -> (forall sw, sw ∈ slices -> shard w !! sw.1 = None) ->
  exists w', handle_puts puts w = Ok (w', map snd puts) /\ world_ok w' /\
    (forall sw, sw ∈ slices -> slice_put_at w' num version sw.1 sw.2) /\
    (forall slice i p base vs, slice_ok w slice i p base vs -> slice_ok w' slice i p base vs) /\
    (forall k, k ∉ map fst slices -> shard w' !! k = shard w !! k).
Proof.
  intros Hnum w Hw Hall. revert w Hw.
  induction Hall as [|[slice ws] [m s] slices puts [(lr & wd & Hm & Hlr & Hwd) Hsl Hv (Hf & Hne & Hmax) Hma] _ IH];
    intros w Hw Hnd Hnew; cbn [handle_puts map fst snd] in *.
  { exists w. do 2 (split; [done|]). split; [by intros ? ?%elem_of_nil|]. by split. }
  apply list.NoDup_cons in Hnd as [Hns Hnd].
  destruct (HandlePut_Ok ngroups m s w ws lr wd num Hw Hm Hf Hne Hmax Hlr Hwd Hnum) as [H _];
    [by rewrite Hsl|].
  rewrite Hsl, Hv in H.
  destruct H as (w1 & p & base & E & Hw1 & Hso & Hsh & _ & Hlv & Hold);
    [apply (Hnew (slice, ws)); by left|].
  destruct (IH w1 Hw1 Hnd) as (w' & E' & Hw' & Hput & Hold' & Hsh').
  { intros sw Hsw. rewrite Hsh, lookup_insert_ne; [apply Hnew; by right|].
    intros ->. apply Hns. by apply list_elem_of_fmap_2. }
  rewrite E, bind_Ok, E', bind_Ok. exists w'. split; [done|]. split; [done|]. split; [|split].
  - intros sw [->|Hsw]%elem_of_cons; [|by apply Hput]. exists (next_param w), p, base. simpl.
    split; [by apply Hold'|]. split; [done|].
    rewrite Hsh', Hsh by done. apply lookup_insert_eq.
  - intros sl i q b vs Hq. by apply Hold', Hold.
  - intros k [Hk1 Hk2]%not_elem_of_cons. rewrite Hsh', Hsh by done. by apply lookup_insert_ne.
Qed.
End puts.

(** The ids of the slices of a parameter fit their field of a target, and so does
    its owner. *)
Record ids_fit (p : Param) : Prop := {
  if_owner : - 2 ^ 15 <= owner p < 2 ^ 15;
  if_slices : 0 <= slice_start p /\ slice_start p + Z.of_nat (length (slice_size p)) <= 2 ^ 16;
}.

Lemma addressed_slice `{C : Czmq} t ty v p ix sg dg sv m :
  ids_fit p -> (ix < length (slice_size p))%nat -> addressed t ty v p ix sg dg sv m ->
  SliceID (trgt_val m) = slice_start p + Z.of_nat ix /\ ParamID (trgt_val m) = owner p.
Proof.
  intros [Ho [Hs1 Hs2]] Hix [_ -> _ _ _].
  by destruct (ParamTrgt_fields (owner p) (slice_start p + Z.of_nat ix)) as (? & ? & _); [lia..|].
Qed.

(** A message as it is received: its header, and its frames from the first on. *)
Definition received `{C : Czmq} `{!CzmqLaws C} (m m' : Msg) : Prop := arrives m m' /\ same_header m m'.

(** The stub's put of a slice, as it arrives. *)
Lemma put_request_req `{C : Czmq} `{!CzmqLaws C} ngroups t version num sg dg h p base vs gp gs route
    ix m m2 s :
  sendable h p base vs gp gs -> ids_fit p -> (ix < length (slice_size p))%nat ->
  (route ix).2 <> procs_id_ t -> slice_request t kPut version num sg dg p base vs gp gs route ix m ->
  arrives m m2 -> same_header m m2 -> masters ngroups s (slice_start p + Z.of_nat ix) ->
  put_req ngroups num version (slice_start p + Z.of_nat ix) (slice_vals p ix vs) (m2, s).
Proof.
  intros Hs Hids Hix Hfar [Had Hf] Harr (_ & _ & _ & Hv & Hvn) Hma.
  destruct (addressed_slice _ _ _ _ _ _ _ _ _ Hids Hix Had) as [Hsl _].
  destruct (slices_cover_slice p vs ix (se_cover _ _ _ _ _ _ Hs) Hix) as (Evs & _ & _ & _ & L2 & Hpos & L3).
  destruct (param_at_blob _ _ _ _ (se_param _ _ _ _ _ _ Hs)) as (b & _ & Ha).
  pose proof (at_cpu_f32 _ _ _ _ Ha) as Hfl. rewrite Evs in Hfl.
  apply Forall_app in Hfl as [_ Hfl]. apply Forall_app in Hfl as [Hfl _].
  constructor; simpl; try done.
  - exists (lr_mult (proto_ p)), (wd_mult (proto_ p)). split; [|apply (se_mults _ _ _ _ _ _ Hs)].
    pose proof (arrives_at _ _ _ Harr Hf) as Hat. unfold request_frames in Hat.
    destruct (Z.eqb_spec (route ix).2 (procs_id_ t)); [done|]. cbn [negb Z.eqb kPut] in Hat.
    unfold put_frames. by rewrite L2.
  - by rewrite Hv.
  - rewrite Hvn. apply Had.
  - pose proof (se_max _ _ _ _ _ _ Hs). split; [done|]. split; [|lia].
    intros E0. rewrite E0 in L2. simpl in L2. lia.
Qed.

(** C2. A put of a parameter goes through: the stub sends, for every slice, a message
    whose handling by the servers of the other process (whatever they hold already)
    gives each slice an entry, its values at the version of the put, expecting
    updates from as many shares as the parameter has; what the servers held is
    kept. *)
Theorem Put_through `{C : Czmq} `{!CzmqLaws C} (cl : Cluster) (t : Trainer) (entry : ParamEntry)
    (msg : Msg) (w ws : world) (i : Z) (p : Param) (base : Z) (vs : list Z) (gp : Z) (gs : list Z)
    (dst_grp : Z) (route : nat -> Z * Z) (ngroups : Z)
    (Hr : request_ready cl t entry (AddrGrp (src msg)) w i p dst_grp route)
    (Hs : sendable (hp w) p base vs gp gs) (Htot : 0 < num_total entry <= INT_MAX)
    (Hids : ids_fit p) (Hw : world_ok ws)
    (Hfar : forall ix, (ix < length (slice_size p))%nat -> (route ix).2 <> procs_id_ t)
    (Hnew : forall ix, (ix < length (slice_size p))%nat ->
              shard ws !! (slice_start p + Z.of_nat ix) = None) :
  let n := length (slice_size p) in
  exists w' ms, Stub.HandlePut cl t entry msg w = Ok (w', ms) /\ hp w' = hp w /\ length ms = n /\
    forall ms2 servers, Forall2 received ms ms2 -> length servers = n ->
      (forall ix s, servers !! ix = Some s -> masters ngroups s (slice_start p + Z.of_nat ix)) ->
      exists ws', handle_puts ngroups (zip ms2 servers) ws = Ok (ws', servers) /\ world_ok ws' /\
        (forall ix, (ix < n)%nat ->
           slice_put_at ws' (num_total entry) (trgt_version msg) (slice_start p + Z.of_nat ix)
             (slice_vals p ix vs)) /\
        (forall slice j q b us, slice_ok ws slice j q b us -> slice_ok ws' slice j q b us).
Proof.
  intros n. unfold Stub.HandlePut.
  destruct (GenMsgs_Ok cl t kPut (trgt_version msg) (num_total entry) entry msg w i p base vs gp gs
    dst_grp route Hr Hs) as (ms & E & Hms); [split; [unfold INT_MIN; lia|auto with lia]|].
  fold n in E, Hms. eexists _, ms. split; [exact E|]. split; [done|].
  pose proof (Forall2_length Hms) as Hl. rewrite length_seq in Hl. split; [done|].
  intros ms2 servers Harr Hls Hma.
  set (slices := map (fun ix => (slice_start p + Z.of_nat ix, slice_vals p ix vs)) (seq 0 n)).
  assert (length ms2 = n) as Hl2 by (pose proof (Forall2_length Harr); lia).
  destruct (handle_puts_Ok ngroups (num_total entry) (trgt_version msg) slices (zip ms2 servers))
    with (w := ws) as (ws' & E' & Hw' & Hput & Hold & _); try done.
  - unfold INT_MIN. lia.
  - apply Forall2_fmap_l, Forall2_same_length_lookup_2.
    { rewrite length_seq, length_zip_with. lia. }
    intros ix' ix [m2 s] Hix Hms2. apply lookup_seq in Hix as [-> Hix].
    apply lookup_zip_with_Some in Hms2 as (m2' & s' & [= <- <-] & Hm2 & Hsv).
    eapply Forall2_lookup_r in Harr as (m & Hm & [Ha Hh]); [|exact Hm2].
    eapply Forall2_lookup_r in Hms as (ix0 & Hix0 & Hreq); [|exact Hm].
    apply lookup_seq in Hix0 as [-> _]. simpl in *.
    eapply put_request_req; try done; [by apply Hfar|by apply Hma].
  - unfold slices. rewrite map_map. simpl. apply list.NoDup_fmap_2; [|apply NoDup_seq].
    intros x y. lia.
  - intros sw (ix & -> & Hix%elem_of_seq)%list_elem_of_fmap. apply Hnew. lia.
  - exists ws'. rewrite snd_zip in E' by lia. split; [done|]. split; [done|]. split; [|done].
    intros ix Hix. apply (Hput (slice_start p + Z.of_nat ix, slice_vals p ix vs)).
    apply list_elem_of_fmap. exists ix. split; [done|]. apply elem_of_seq. lia.
Qed.

(** ** Updates *)
Section updates.
Context `{C : Czmq} `{!CzmqLaws C}.

(** A stub handling the updates that its workers make for an entry, in order. *)
Fixpoint stub_updates (cl : Cluster) (t : Trainer) (msgs : list Msg) (entry : ParamEntry) (w : world)
    : outcome (world * ParamEntry * list Msg) :=
  match msgs with
  | [] => Ok (w, entry, [])
  | m :: msgs =>
      '(w, entry, ms) ← Stub.HandleUpdate cl t entry m w;
      '(w, entry, rest) ← stub_updates cl t msgs entry w;
      Ok (w, entry, ms ++ rest)
  end.

(** A process that takes part in the round: its stub, the entry of the parameter and
    the updates of the local workers ([sd_first], then [sd_msg]), the store with the
    parameter (the first share, [sd_rest] are the gradients of the others), and the
    index of the slice in the parameter. *)
Record sender := mkSender {
  sd_cl : Cluster; sd_stub : Trainer; sd_entry : ParamEntry;
  sd_first : list Msg; sd_msg : Msg; sd_world : world;
  sd_obj : Z; sd_param : Param; sd_base : Z; sd_vals : list Z;
  sd_gp : Z; sd_grad : list Z; sd_rest : list (Z * list Z);
  sd_local : Z; sd_group : Z; sd_route : nat -> Z * Z; sd_ix : nat;
}.

Definition sender_run (x : sender) : outcome (world * ParamEntry * list Msg) :=
  stub_updates (sd_cl x) (sd_stub x) (sd_first x ++ [sd_msg x]) (sd_entry x) (sd_world x).

(** The message it sends for the slice. *)
Definition sent (x : sender) : option Msg :=
  match sender_run x with Ok (_, _, ms) => ms !! sd_ix x | _ => None end.

(** The gradient of all its shares together, and that of the slice. *)
Definition sd_average (total : Z) (x : sender) : list Z :=
  local_average (sd_local x) total (sd_grad x) (sd_rest x).
Definition sd_gradient (total : Z) (x : sender) : list Z :=
  slice_vals (sd_param x) (sd_ix x) (sd_average total x).

(** It is ready: nothing of the parameter is pending, every local worker makes its
    update, and the server of the slice, of [len] floats, is in another process. *)
Record ready (slice : Z) (len : nat) (total : Z) (x : sender) : Prop := {
  rd_request : request_ready (sd_cl x) (sd_stub x) (sd_entry x) (AddrGrp (src (sd_msg x)))
    (sd_world x) (sd_obj x) (sd_param x) (sd_group x) (sd_route x);
  rd_sendable : sendable (hp (sd_world x)) (sd_param x) (sd_base x) (sd_vals x) (sd_gp x) (sd_grad x);
  rd_grads : local_grads (sd_entry x) (sd_world x) (sd_obj x) (sd_param x) (sd_base x) (sd_vals x)
    (sd_gp x) (sd_grad x) (sd_rest x);
  rd_total : num_total (sd_entry x) = total;
  rd_local : num_local (sd_entry x) = Some (sd_local x) /\ sd_local x <= INT_MAX;
  rd_none : num_update (sd_entry x) = 0;
  rd_all : Z.of_nat (length (sd_first x)) + 1 = sd_local x;
  rd_ids : ids_fit (sd_param x);
  rd_ix : (sd_ix x < length (slice_size (sd_param x)))%nat;
  rd_slice : slice = slice_start (sd_param x) + Z.of_nat (sd_ix x);
  rd_len : slice_len (sd_param x) (sd_ix x) = len;
  rd_far : (sd_route x (sd_ix x)).2 <> procs_id_ (sd_stub x);
  rd_idle : num_pending_requests (sd_param x) = 0;
  rd_no_get : Forall (eq false) (pending_get (sd_param x));
}.

(** The first share of a parameter's entry, waiting for the answer to its update of
    slice [ix]. *)
Record waiting (entry : ParamEntry) (w : world) (j : Z) (q : Param) (base : Z) (vs : list Z)
    (ix : nat) : Prop := {
  wt_share : shares entry !! 0%nat = Some j;
  wt_param : params w !! j = Some q;
  wt_heap : heap_ok (hp w);
  wt_at : param_at (hp w) q base vs;
  wt_cover : slices_cover q vs;
  wt_ids : ids_fit q;
  wt_pending : pending_update q !! ix = Some true;
  wt_no_get : Forall (eq false) (pending_get q);
  wt_count : pending_ok q;
}.

(** The updates before the last one are counted only. *)
Lemma stub_updates_last cl t first msg entry w n_local :
  num_local entry = Some n_local -> n_local <= INT_MAX -> 0 <= num_update entry ->
  num_update entry + Z.of_nat (length first) < n_local ->
  stub_updates cl t (first ++ [msg]) entry w =
    ('(w, entry, ms) ← Stub.HandleUpdate cl t
       (set_num_update (num_update entry + Z.of_nat (length first)) entry) msg w;
     Ok (w, entry, ms)).
Proof.
  intros Hn Hmax. revert entry Hn. induction first as [|m first IH]; intros entry Hn H0 Hlt.
  - cbn [app stub_updates length]. rewrite Z.add_0_r. destruct entry. cbn [set_num_update]. simpl.
    destruct (HandleUpdate _ _ _ _ _) as [[[w' e'] ms]| | | |]; simpl; [|done..]. by rewrite app_nil_r.
  - cbn [length] in Hlt. cbn [app stub_updates]. unfold Stub.HandleUpdate at 1.
    rewrite (int_ret_Ok (num_update entry + 1)) by (unfold INT_MIN; lia). rewrite bind_Ok. cbv zeta.
    cbn [num_local set_num_update]. rewrite Hn, deref_Some, bind_Ok.
    destruct (Z.leb_spec n_local (num_update entry + 1)); [lia|]. rewrite bind_Ok.
    rewrite IH by (done || (cbn [num_update set_num_update]; lia)). cbn [num_update set_num_update length app].
    replace (num_update entry + 1 + Z.of_nat (length first))
      with (num_update entry + Z.of_nat (S (length first))) by lia.
    by destruct (HandleUpdate _ _ _ _ _) as [[[w' e'] ms]| | | |].
Qed.

(** What a process that is ready sends, and that it waits then for the answer. *)
Lemma sender_run_Ok slice len total x : ready slice len total x ->
  let n := length (slice_size (sd_param x)) in
  exists h' ms, let q := requested kUpdate (seq 0 n) (sd_param x) in
    let w' := put_param (sd_obj x) q h' (sd_world x) in
    sender_run x = Ok (w', sd_entry x, ms) /\
    Forall2 (slice_request (sd_stub x) kUpdate (trgt_version (sd_msg x)) (sd_local x)
               (AddrGrp (src (sd_msg x))) (sd_group x) (sd_param x) (sd_base x) (sd_vals x) (sd_gp x)
               (sd_average total x) (sd_route x)) (seq 0 n) ms /\
    sendable h' (sd_param x) (sd_base x) (sd_vals x) (sd_gp x) (sd_average total x) /\
    pending_update q = replicate n true /\
    waiting (sd_entry x) w' (sd_obj x) q (sd_base x) (sd_vals x) (sd_ix x).
Proof.
  intros [Hr Hs Hg <- [Hl Hmax] H0 Hall Hids Hix Hsl Hlen Hfar Hidle Hget] n. unfold sender_run.
  rewrite (stub_updates_last _ _ _ _ _ _ (sd_local x)) by (done || lia).
  set (e := set_num_update _ _).
  destruct (HandleUpdate_Ok (sd_cl x) (sd_stub x) e (sd_msg x) (sd_world x) (sd_obj x) (sd_param x)
    (sd_base x) (sd_vals x) (sd_gp x) (sd_grad x) (sd_rest x) (sd_local x) (sd_group x) (sd_route x))
    as [_ H]; [by destruct Hr|done|by destruct Hg|done|simpl; lia|done|].
  destruct H as (h' & ms & E & Hms & Hs' & Hs2); [simpl; lia|].
  exists h', ms. cbv zeta. rewrite E, bind_Ok. cbn [e set_num_update num_update].
  assert (set_num_update 0 e = sd_entry x) as ->.
  { subst e. destruct (sd_entry x). simpl in *. by subst. }
  split; [done|]. split; [done|]. split; [done|].
  pose proof (cover_wf _ _ (se_cover _ _ _ _ _ _ Hs)) as Hwf.
  assert (pending_update (requested kUpdate (seq 0 n) (sd_param x)) = replicate n true) as Hpu.
  { unfold n. rewrite <- (wf_update _ Hwf). apply (mark_all (pending_update (sd_param x))). }
  split; [done|]. constructor; try done.
  - by destruct Hr.
  - simpl. apply lookup_insert_eq.
  - apply Hs'.
  - apply Hs'.
  - apply Hs'.
  - by destruct Hids.
  - rewrite Hpu. by apply lookup_replicate_2.
  - unfold pending_ok. rewrite Hpu. simpl. rewrite (proj2 (count_true_0 _) Hget), Hidle, length_seq.
    unfold count_true. clear. induction n as [|n IH]; simpl in *; lia.
Qed.

(** The update of a process that is ready, as it arrives. *)
Lemma sender_req slice len total x m0 m : ready slice len total x -> sent x = Some m0 ->
  received m0 m ->
  update_req slice len (m, (sd_gradient total x, sd_local x)) /\
  trgt_version m = trgt_version (sd_msg x) /\
  src m = Addr (AddrGrp (src (sd_msg x))) (procs_id_ (sd_stub x)) (entity_num kStub).
Proof.
  intros Hx Hm0 [Ha (Hsrc & _ & _ & Hv & Hvn)]. unfold sent in Hm0.
  destruct (sender_run_Ok _ _ _ _ Hx) as (h' & ms & E & Hms & Hs & _). rewrite E in Hm0.
  destruct Hx as [_ _ _ _ [_ Hmax] _ Hall Hids Hix -> <- Hfar _ _].
  eapply Forall2_lookup_r in Hms as (ix & Hi & Had & Hf); [|exact Hm0].
  apply lookup_seq in Hi as [-> _]. simpl in Had, Hf.
  destruct (addressed_slice _ _ _ _ _ _ _ _ _ Hids Hix Had) as [Hsl _].
  destruct (slices_cover_slice (sd_param x) (sd_average total x) (sd_ix x) (se_gcover _ _ _ _ _ _ Hs) Hix)
    as (Egs & _ & _ & _ & L2 & _).
  pose proof (at_cpu_f32 _ _ _ _ (se_grad _ _ _ _ _ _ Hs)) as Hfl. rewrite Egs in Hfl.
  apply Forall_app in Hfl as [_ Hfl]. apply Forall_app in Hfl as [Hfl _].
  pose proof (arrives_at _ _ _ Ha Hf) as Hat. unfold request_frames, update_body in Hat.
  destruct (Z.eqb_spec (sd_route x (sd_ix x)).2 (procs_id_ (sd_stub x))); [done|].
  split; [|rewrite Hvn, Hsrc; split; apply Had].
  split; [exact Hat|]. split; [by rewrite Hv|]. split; [lia|done].
Qed.

(** [m] is the message that process [x] sends for the slice, as it arrives. *)
Definition sent_as (x : sender) (m : Msg) : Prop := exists m0, sent x = Some m0 /\ received m0 m.

Lemma sent_as_reqs slice len total xs ms : Forall (ready slice len total) xs -> Forall2 sent_as xs ms ->
  exists rs, map fst rs = ms /\ Forall (update_req slice len) rs /\ length rs = length xs /\
    req_grads rs = map (sd_gradient total) xs /\ req_shares rs = zsum (map sd_local xs).
Proof.
  intros Hr Hs. induction Hs as [|x m xs ms (m0 & Hm0 & Hm) _ IH].
  { by exists []. }
  inversion Hr as [|? ? Hx Hr' Ea]; clear Ea.
  destruct (IH Hr') as (rs & <- & Hreqs & Hl & Hg & Hn).
  destruct (sender_req _ _ _ _ _ _ Hx Hm0 Hm) as (Hreq & _).
  exists ((m, (sd_gradient total x, sd_local x)) :: rs). split; [done|]. split; [by constructor|].
  unfold req_grads, req_shares in *. simpl. by rewrite Hl, Hg, Hn.
Qed.

Lemma round_reqs slice len total xs x reqs :
  Forall (ready slice len total) (xs ++ [x]) -> Forall2 sent_as (xs ++ [x]) reqs ->
  exists rs m, reqs = map fst rs ++ [m] /\ Forall (update_req slice len) rs /\
    update_req slice len (m, (sd_gradient total x, sd_local x)) /\ length rs = length xs /\
    req_grads rs = map (sd_gradient total) xs /\ req_shares rs = zsum (map sd_local xs) /\
    trgt_version m = trgt_version (sd_msg x).
Proof.
  intros [Hr Hx]%Forall_app Hs. inversion Hx as [|? ? Hx' _ Ea]; clear Ea.
  apply Forall2_app_inv_l in Hs as (ms & l1 & Hs & Hl & ->).
  apply Forall2_cons_inv_l in Hl as (m & l2 & (m0 & Hm0 & Hm) & Hl2 & ->).
  apply Forall2_nil_inv_l in Hl2 as ->.
  destruct (sent_as_reqs _ _ _ _ _ Hr Hs) as (rs & <- & ? & ? & ? & ?).
  destruct (sender_req _ _ _ _ _ _ Hx' Hm0 Hm) as (? & ? & _). by exists rs, m.
Qed.

(** The parameter [q], object [j] of the store [w], takes the answer [m] to its update
    of slice [ix]: the slice gets the values [ws], the others keep theirs, and with the
    last answer pending the parameter is at [version]. *)
Definition takes_answer (entry : ParamEntry) (w : world) (j : Z) (q : Param) (base : Z) (vs : list Z)
    (ix : nat) (ws : list Z) (version : Z) (m : Msg) : Prop :=
  exists h' q', HandleUpdateResponse entry m w = Ok (put_param j q' h' w) /\
    param_at h' q' base (slice_put q ix ws vs) /\
    pending_update q' = <[ix := false]> (pending_update q) /\
    (Forall (eq false) (pending_update q') -> Param.version q' h' = Ok version).

Lemma HandleUpdateResponse_Ok entry w j q base vs ix m ws more :
  waiting entry w j q base vs ix -> at_frame m (copy_frame :: bytes_of_f32s ws :: more) 0 ->
  SliceID (trgt_val m) = slice_start q + Z.of_nat ix ->
  length ws = slice_len q ix -> Forall is_f32 ws ->
  exists h' q', HandleUpdateResponse entry m w = Ok (put_param j q' h' w) /\ heap_ok h' /\
    param_at h' q' base (slice_put q ix ws vs) /\
    pending_update q' = <[ix := false]> (pending_update q) /\
    (Forall (eq false) (pending_update q') -> version q' h' = Ok (trgt_version m)).
Proof.
  intros [Hsh Hq Hok Hp Hc Hids Hpend Hget Hpok] Hm Hsl Hl Hf. unfold HandleUpdateResponse.
  rewrite (vec_at_lookup (shares entry) 0 j Hsh : vec_at (shares entry) 0 = Ok j), bind_Ok, Hq, deref_Some, bind_Ok.
  replace (SliceID (trgt_val m) - slice_start q) with (Z.of_nat ix) by lia.
  assert ((ix < length (slice_size q))%nat) as Hix.
  { rewrite <- (wf_update q (cover_wf _ _ Hc)). by eapply lookup_lt_Some. }
  destruct (ParseUpdateResponseMsg_Ok (hp w) q base vs (fun _ => ws) m ix Hok Hp Hc) as
    (h1 & q1 & E & Hok1 & Hp1 & _ & Hpu & _); try done.
  { split; [by exists more|done]. }
  rewrite E, bind_Ok.
  destruct (bool_decide (Forall (eq false) (pending_update q1))) eqn:Hb; simpl Z.b2z; cbv iota.
  - destruct (set_version_Ok h1 q1 base _ (trgt_version m) Hok1 Hp1) as
      (i & b & _ & _ & E2 & Hok2 & Hp2 & Hv & _).
    cbn [Z.eqb]. rewrite E2, bind_Ok. by eexists _, q1.
  - cbn [Z.eqb]. rewrite bind_Ok. exists h1, q1. do 4 (split; [done|]).
    intros Hclr. by apply bool_decide_eq_false in Hb.
Qed.


Lemma response_taken ws v slice r r2 entry w j q base vs ix :
  update_msg 1 r ws -> SliceID (trgt_val r) = slice -> trgt_version r = v -> Forall is_f32 ws ->
  received r r2 -> waiting entry w j q base vs ix -> slice_start q + Z.of_nat ix = slice ->
  slice_len q ix = length ws -> takes_answer entry w j q base vs ix ws v r2.
Proof.
  intros (more & Hat) Hsl <- Hf [Ha (_ & _ & _ & Hv & Hvn)] Hwt Hix Hlen.
  pose proof (arrives_at _ _ _ Ha (at_has _ _ _ Hat)) as Hat2.
  destruct (HandleUpdateResponse_Ok entry w j q base vs ix r2 ws more Hwt Hat2)
    as (h' & q' & E & _ & Hp & Hpu & Hvq); [by rewrite Hv, Hsl|done|done|].
  exists h', q'. do 3 (split; [done|]). intros Hclr. rewrite <- Hvn. by apply Hvq.
Qed.
End updates.

(** C1. A round of updates goes through.  In every process the local workers make
    their updates of a parameter, and the stub, when it has them all, sends for the
    slice the average of their gradients ([sd_gradient]: the sum of the local ones
    over the number of all shares, or the gradient itself of a single local share);
    until then it sends nothing.  When the processes have all the shares, the server
    that gets the messages, in any order, averages what it got, updates the slice
    once, and answers each of them, to the stub it came from; and when an answer is
    received by its stub, the slice of the process's parameter gets the new values
    of the server, its other slices keep theirs, and with the last pending answer
    the parameter takes the server's version.  So does any other parameter that
    waits for the slice ([waiting]), as one that has taken answers for other slices
    already. *)
Theorem Update_through `{C : Czmq} `{!CzmqLaws C} `{U : Updater} `{!UpdaterLaws U}
    (xs : list sender) (x : sender) (w : world) (s : Server) (slice i : Z) (p : Param) (base : Z)
    (vs : list Z) (total : Z)
    (Hready : Forall (ready slice (length vs) total) (xs ++ [x]))
    (Hsum : zsum (map sd_local (xs ++ [x])) = total) (Hmax : total <= INT_MAX)
    (Hw : world_ok w) (Hs : slice_ok w slice i p base vs) (He : entry_is w slice i total 0)
    (Hb : buffered s slice (length vs) [] []) (Hlv : INT_MIN <= local_version p + 1 <= INT_MAX) :
  let vs' := new_values (trgt_version (sd_msg x)) (proto_ p) vs
               (f32s_mean (map (sd_gradient total) (xs ++ [x]))) in
  (forall y, y ∈ xs ++ [x] -> exists h' q ms,
     sender_run y = Ok (put_param (sd_obj y) q h' (sd_world y), sd_entry y, ms) /\
     length ms = length (slice_size (sd_param y)) /\ slice_size q = slice_size (sd_param y) /\
     pending_update q = replicate (length ms) true) /\
  forall reqs, Forall2 sent_as (xs ++ [x]) reqs ->
    exists w' s' ret p', handle_updates reqs s w = Ok (w', s', replicate (length xs) [] ++ [ret]) /\
      slice_ok w' slice i p' base vs' /\ local_version p' = local_version p + 1 /\
      entry_is w' slice i total 0 /\ buffered s' slice (length vs) [] [] /\
      length ret = length (xs ++ [x]) /\
      (forall k y r, (xs ++ [x]) !! k = Some y -> ret !! k = Some r ->
         dst r = Addr (AddrGrp (src (sd_msg y))) (procs_id_ (sd_stub y)) (entity_num kStub) /\
         forall r2, received r r2 -> forall h' q ms,
           sender_run y = Ok (put_param (sd_obj y) q h' (sd_world y), sd_entry y, ms) ->
           takes_answer (sd_entry y) (put_param (sd_obj y) q h' (sd_world y)) (sd_obj y) q
             (sd_base y) (sd_vals y) (sd_ix y) vs' (local_version p + 1) r2) /\
      (forall r r2, r ∈ ret -> received r r2 ->
         forall entry wk j q baseq vq ix, waiting entry wk j q baseq vq ix ->
           slice_start q + Z.of_nat ix = slice -> slice_len q ix = length vs ->
           takes_answer entry wk j q baseq vq ix vs' (local_version p + 1) r2).
Proof.
  intros vs'. split.
  { intros y Hy. rewrite list.Forall_forall in Hready.
    destruct (sender_run_Ok _ _ _ _ (Hready y Hy)) as (h' & ms & E & Hms & _ & Hpu & _).
    pose proof (Forall2_length Hms) as Hl. rewrite length_seq in Hl.
    eexists h', _, ms. split; [exact E|]. do 2 (split; [done|]). by rewrite Hpu, Hl. }
  intros reqs Hreqs. destruct (round_reqs _ _ _ _ _ _ Hready Hreqs)
    as (rs & m & -> & Hrs & Hr & Hl & Hg & Hn & Hvn).
  assert (vs' = new_values (trgt_version m) (proto_ p) vs (f32s_mean (req_grads rs ++ [sd_gradient total x])))
    as Ev by (unfold vs'; by rewrite Hvn, Hg, map_app).
  destruct (handle_updates_Ok rs m (sd_gradient total x) (sd_local x) slice i p base vs total w s 0 [] []
    Hw Hs He Hb Hrs Hr) as (w' & s' & ret & E & _ & Hs' & He' & Hb' & Hlv' & Hret);
    [rewrite map_app, zsum_app in Hsum; simpl in Hsum; lia|done..|].
  simpl app in Hret, Hs', Hlv'. rewrite <- Ev in Hs', Hret, Hlv'.
  rewrite Hl in E. exists w', s', ret, (set_local_version (local_version p + 1) p).
  do 5 (split; [done|]).
  assert (length ret = length (xs ++ [x])) as Hlr.
  { rewrite <- (Forall2_length Hret). by rewrite <- (Forall2_length Hreqs). }
  split; [done|].
  assert (Forall is_f32 vs') as Hf.
  { destruct (param_at_blob _ _ _ _ (so_at _ _ _ _ _ _ Hs')) as (b & _ & Ha). by eapply at_cpu_f32. }
  destruct Hr as (_ & Hsl & _).
  assert (forall k r, ret !! k = Some r -> forall r2, received r r2 ->
    forall entry wk j q baseq vq ix, waiting entry wk j q baseq vq ix ->
    slice_start q + Z.of_nat ix = slice -> slice_len q ix = length vs ->
    takes_answer entry wk j q baseq vq ix vs' (local_version p + 1) r2) as Htakes.
  { intros k r Hk r2 Hr2 entry wk j q baseq vq ix Hwt Hix Hlen.
    eapply Forall2_lookup_r in Hret as (m0 & _ & Hat & _ & _ & _ & Hrv & Hrn); [|exact Hk].
    eapply response_taken; try done; [by rewrite Hrv, Hsl|by rewrite Hlv']. }
  split; [|intros r r2 [k Hk]%list_elem_of_lookup_1; by eapply Htakes].
  intros k y r Hy Hk. pose proof (proj1 (Forall_lookup _ _) Hready _ _ Hy) as Hry.
  split.
  - destruct (Forall2_lookup_r _ _ _ _ _ Hret Hk) as (m0 & Hm0 & _ & _ & _ & -> & _).
    destruct (Forall2_lookup_l _ _ _ _ _ Hreqs Hy) as (m1 & Hm1 & ms & Hsent & Hrecv).
    rewrite Hm0 in Hm1. injection Hm1 as ->. by apply (sender_req _ _ _ _ _ _ Hry Hsent Hrecv).
  - intros r2 Hr2 h' q ms E2.
    destruct (sender_run_Ok _ _ _ _ Hry) as (h0 & ms0 & E0 & _ & _ & _ & Hwt). rewrite E0 in E2.
    injection E2 as <- E2 _. apply (f_equal (fun ps => ps !! sd_obj y)) in E2.
    rewrite !lookup_insert_eq in E2. injection E2 as <-.
    apply (Htakes k r Hk r2 Hr2 _ _ _ _ _ _ _ Hwt); [symmetry|]; apply Hry.
Qed.

(** ** Witnesses *)
#[local] Existing Instances ListCzmq.czmq ListCzmq.czmq_laws demo_libm.
#[local] Instance demo_sgd_rule : Updater := SGD_updater demo_updater.
#[local] Instance demo_sgd_rule_laws : UpdaterLaws demo_sgd_rule.
Proof. apply SGD_laws; [done|]. by exists 0. Defined.

Lemma Put_through_witness :
  exists w' ms, Stub.HandlePut demo_cl demo_stub (demo_entry 0) (demo_msg kPut 0 0 []) demo_worker
      = Ok (w', ms) /\ length ms = 2%nat.
Proof.
  destruct (Put_through demo_cl demo_stub (demo_entry 0) (demo_msg kPut 0 0 []) demo_worker
    (mkWorld empty_heap ∅ 0 ∅) 7 demo_wp2 1 demo_floats 10 demo_floats 0 _ 1
    (demo_request_ready 0) demo_sendable) as (w' & ms & E & _ & Hl & _); try done.
  by exists w', ms.
Defined.

(** A round of two processes of two workers each, the server in a third one.  In each
    process the parameter has two shares, objects 7 and 8: one slice of two floats,
    the values at 1, the gradients at 10 and at 20. *)
Definition round_heap : heap :=
  mkHeap (list_to_map (zip (map Z.of_nat (seq 1 8)) (bytes_of_f32s demo_floats) ++
            zip (map Z.of_nat (seq 10 8)) (bytes_of_f32s demo_floats) ++
            zip (map Z.of_nat (seq 20 8)) (bytes_of_f32s demo_floats))) 29
    {[0 := mkSM 1 8 HEAD_AT_CPU true; 2 := mkSM 10 8 HEAD_AT_CPU true; 4 := mkSM 20 8 HEAD_AT_CPU true]}
    {[1 := demo_blob]} 5.
Definition round_param (gi : Z) : Param :=
  mkParam (-1) 0 1 [0] [2] [false] [false] [false] 0 (Some 1)
    (mkBlob (Some gi) [2] 2 2 (-1)) Blob_new ParamProto_default.
Definition round_world : world := mkWorld round_heap {[7 := round_param 2; 8 := round_param 4]} 9 ∅.
Definition round_cl : Cluster :=
  let c := mkClusterProto 1 1 4 1 2 1 true in
  match Cluster_make c with Ok cl => cl | _ => mkCluster c 0 ∅ end.
Definition round_sender (procs : Z) : sender :=
  mkSender round_cl (mkTrainer procs ∅ [0]) (mkEntry 0 (Some (-1)) (Some 2) 4 [7; 8])
    [demo_msg kUpdate 0 0 []] (demo_msg kUpdate 0 0 []) round_world 7 (round_param 2) 1 demo_floats
    10 demo_floats [(8, demo_floats)] 2 0 (fun _ => (0, 2)) 0.

Lemma round_heap_ok : heap_ok round_heap.
Proof.
  constructor.
  - simpl. lia.
  - intros a v Ha. unfold round_heap, cells in Ha. apply elem_of_list_to_map_2 in Ha.
    rewrite !elem_of_app in Ha. destruct Ha as [Ha|[Ha|Ha]];
      apply elem_of_zip_l, list_elem_of_fmap in Ha as (n & -> & Hn); apply elem_of_seq in Hn; simpl; lia.
  - intros i s. simpl. rewrite !lookup_insert_Some, lookup_singleton_Some. lia.
  - intros i b. simpl. rewrite lookup_singleton_Some. lia.
Qed.

Lemma round_holds (i p : Z) b :
  data_ b = Some i -> count_ b = 2 -> capacity_ b = 2 ->
  sms round_heap !! i = Some (mkSM p 8 HEAD_AT_CPU true) ->
  peek (cells round_heap) p 8 = Some (bytes_of_f32s demo_floats) ->
  at_cpu round_heap b p demo_floats.
Proof.
  intros Hd Hc Hcap Hs Hp. split.
  - constructor; [done|lia|repeat constructor; vm_compute; done|]. exists i, []. split; [done|].
    rewrite app_nil_r. split; [|by rewrite Hcap]. unfold sm_bytes. by rewrite Hs.
  - exists i. split; [done|]. by eexists.
Qed.

Lemma round_cover gi : slices_cover (round_param gi) demo_floats.
Proof.
  constructor; [|repeat constructor|done]. constructor; try done. intros [|i]; simpl; [done|lia].
Qed.
Lemma round_sendable : sendable round_heap (round_param 2) 1 demo_floats 10 demo_floats.
Proof.
  constructor; [apply round_heap_ok| |apply round_cover|by apply (round_holds 2)|
    apply round_cover|by split; vm_compute|by vm_compute|by vm_compute].
  exists 1, demo_blob. split; [done|]. split; [done|]. by apply (round_holds 0).
Qed.

Lemma round_grads : local_grads (mkEntry 0 (Some (-1)) (Some 2) 4 [7; 8]) round_world 7 (round_param 2)
  1 demo_floats 10 demo_floats [(8, demo_floats)].
Proof.
  constructor; try done; [| |by constructor].
  - constructor; [|exists 2; split; [done|]; by eexists]. constructor.
    + eapply blob_holds_wf, at_holds. by apply (round_holds 2).
    + simpl. lia.
    + exists 1, demo_blob, 2, (mkSM 10 8 HEAD_AT_CPU true). split_and!; try done.
      right. split; [done|]. right. by vm_compute.
  - constructor; [|done]. exists (round_param 4), 20. split; [done|].
    split; [by apply (round_holds 4)|]. left. by vm_compute.
Qed.

Lemma round_ready procs : procs <> 2 -> ready 0 2 4 (round_sender procs).
Proof.
  intros Hp. constructor; try done; [| | | |by constructor].
  - constructor; try done; [by exists 1|]. intros [|ix] Hix; simpl in Hix; [done|lia].
  - apply round_sendable.
  - apply round_grads.
  - simpl. lia.
Qed.

(** The server's side: one parameter with all four shares to come. *)
Definition round_server_world : world :=
  mkWorld demo_sheap {[7 := demo_sparam]} 8 {[0 := mkEntry 0 None None 4 [7]]}.
Lemma round_world_ok : world_ok round_server_world.
Proof.
  constructor; [apply demo_sheap_ok|]. intros i p. simpl. rewrite lookup_singleton_Some. lia.
Qed.
Lemma round_slice_ok : slice_ok round_server_world 0 7 demo_sparam 1 demo_floats.
Proof.
  constructor; [by eexists|done|apply demo_sparam_at|apply demo_sparam_apart|done|done].
Qed.

Lemma round_entry_is : entry_is round_server_world 0 7 4 0.
Proof. eexists. by split_and!. Qed.

(** A message as its receiver has it. *)
Definition round_received (m : Msg) : Msg :=
  mkMsg (src m) (dst m) (type m) (trgt_val m) (trgt_version m)
    (option_map (fun z => ListCzmq.Build_t (zframes z) (Some 0%nat)) (msg_ m)) (Some 0%nat).

Lemma round_received_is m fs : has_frames m fs -> received m (round_received m).
Proof.
  intros (z & Hz & <-). split; [|done]. exists (zframes z). split; [by exists z|].
  unfold round_received. rewrite Hz. by eexists.
Qed.

Definition round_sent (procs : Z) : Msg := round_received (default Msg_new (sent (round_sender procs))).
Lemma round_sent_as : Forall2 sent_as ([round_sender 0] ++ [round_sender 1]) [round_sent 0; round_sent 1].
Proof.
  constructor; [|constructor; [|constructor]]; (eexists; split; [by vm_compute|]);
    eapply round_received_is; by eexists.
Qed.

(** The new values, 1 - 0.5 and 2 - 1: the stubs send a quarter of (2, 4). *)
Definition round_values : list Z := [1056964608; f32_of_Z 1].

Lemma Update_through_witness :
  exists w' s' r0 r1 p' h0 q0 ms,
    handle_updates [round_sent 0; round_sent 1] demo_server round_server_world
      = Ok (w', s', [[]; [r0; r1]]) /\
    slice_ok w' 0 7 p' 1 round_values /\
    sender_run (round_sender 0) = Ok (put_param 7 q0 h0 round_world, sd_entry (round_sender 0), ms) /\
    forall r2, received r0 r2 -> exists h' q',
      HandleUpdateResponse (sd_entry (round_sender 0)) r2 (put_param 7 q0 h0 round_world)
        = Ok (put_param 7 q' h' (put_param 7 q0 h0 round_world)) /\
      param_at h' q' 1 round_values /\ Param.version q' h' = Ok 0.
Proof.
  destruct (Update_through [round_sender 0] (round_sender 1) round_server_world demo_server 0 7
    demo_sparam 1 demo_floats 4) as [Hsend Hround].
  - constructor; [by apply round_ready|]. constructor; [by apply round_ready|constructor].
  - by vm_compute.
  - by vm_compute.
  - apply round_world_ok.
  - apply round_slice_ok.
  - apply round_entry_is.
  - constructor; [done|constructor|constructor].
  - by vm_compute.
  - destruct (Hsend (round_sender 0)) as (h0 & q0 & ms & E0 & Hms & Hsz & Hpu0); [by left|].
    destruct (Hround _ round_sent_as) as (w' & s' & ret & p' & E & Hs & _ & _ & _ & Hl & Hans & _).
    destruct ret as [|r0 [|r1 [|r ret]]]; [done|done| |done].
    destruct (Hans 0%nat (round_sender 0) r0 eq_refl eq_refl) as [_ Htake].
    exists w', s', r0, r1, p', h0, q0, ms. split; [exact E|]. split; [exact Hs|]. split; [exact E0|].
    intros r2 Hr2. destruct (Htake r2 Hr2 _ _ _ E0) as (h' & q' & E2 & Hp & Hpu & Hv).
    exists h', q'. split; [exact E2|]. split.
    + unfold slice_put, slice_off, slice_len in Hp. rewrite Hsz in Hp. exact Hp.
    + apply Hv. rewrite Hpu, Hpu0, Hms. by constructor.
Defined.
