(* ===== verification/Routing.v ===== *)
(** * Properties of the loop of [Trainer::Run]

    A request of a worker that is answered by messages to servers leaves the stub as
    exactly one message per slice, sent to the process of its server
    ([Request_routed]); the synchronisation reminders need a local server, and one
    that has slice 0 ([Reminder_no_server], [Reminder_bounces]). *)

From S2P Require Import Prelude Common Float32 Msg Format Memory Param ParamProps ParamUpdate.
From S2P Require Import Updater UpdaterProps Server ServerProps Cluster ClusterProps Stub.
From S2P Require Import StubProps.

(** [n] iterations without anything received, or fewer if the loop ends. *)
Fixpoint drain `{C : Czmq} (n : nat) (cl : Cluster) (max_bandwidth bw : Z) (servers : list (Z * Z))
    (r : Run_state) (t : Trainer) (w : world)
    : outcome (world * Trainer * Run_state * list action) :=
  match n with
  | O => Ok (w, t, r, [])
  | S n =>
      '(w, t, r, acts, stop) ← Run_step cl max_bandwidth bw servers None r t w;
      if stop : bool then Ok (w, t, r, acts)
      else
        '(w, t, r, acts') ← drain n cl max_bandwidth bw servers r t w;
        Ok (w, t, r, acts ++ acts')
  end.

(** What the stub of process [me] does with a message for a thread of [procs]. *)
Definition send_to `{C : Czmq} (me procs : Z) (m : Msg) : action :=
  if procs =? me then SendLocal m else SendRemote procs m.

Section routing.
Context `{C : Czmq} `{!CzmqLaws C}.
Variables (cl : Cluster) (max_bandwidth bw : Z) (servers : list (Z * Z)).

(** A message for a server of [procs], other than a synchronisation. *)
Definition to_server (m : Msg) (procs : Z) : Prop :=
  type m <> kSyncRequest /\ exists g id,
    dst m = Addr g id (entity_num kServer) /\ - 2 ^ 15 <= g < 2 ^ 15 /\ 0 <= id < 2 ^ 8 /\
    ProcsIDOf cl g id (entity_num kServer) = Ok procs.

Lemma Run_msg_server m procs r t w :
  to_server m procs ->
  exists d, Run_msg cl max_bandwidth bw m r t w
    = Ok (w, t, mkRun (nworkers r) (nservers r) (sync_server_id r) d (msg_queue r),
          [send_to (procs_id_ t) procs m], false).
Proof.
  intros (Hty & g & id & Hd & Hg & Hid & Hp).
  destruct (Addr_fields g id (entity_num kServer) Hg Hid ltac:(simpl; lia)) as (Eg & Ei & _ & Et).
  unfold Run_msg, send_to. rewrite Hd, Et, Eg, Ei, Hp.
  cbn [entity_num Z.eqb Pos.eqb negb andb]. rewrite bind_Ok.
  destruct (Z.eqb_spec procs (procs_id_ t)); cbn [negb].
  - destruct (Z.eqb_spec (type m) kSyncRequest); [done|]. rewrite bind_Ok.
    exists (inter_dealers r). by destruct r.
  - by eexists.
Qed.

Lemma drain_servers q procs : Forall2 to_server q procs -> forall r t w, msg_queue r = q ->
  exists r', drain (length q) cl max_bandwidth bw servers r t w
      = Ok (w, t, r', zip_with (send_to (procs_id_ t)) procs q) /\
    msg_queue r' = [] /\ nworkers r' = nworkers r /\ nservers r' = nservers r.
Proof.
  induction 1 as [|m pr q procs Hm _ IH]; intros r t w Hq; cbn [length drain].
  { by exists r. }
  unfold Run_step. rewrite Hq.
  destruct (Run_msg_server m pr (set_queue q r) t w Hm) as (d & ->). rewrite bind_Ok. cbv iota.
  destruct (IH (mkRun (nworkers (set_queue q r)) (nservers (set_queue q r))
    (sync_server_id (set_queue q r)) d (msg_queue (set_queue q r))) t w eq_refl)
    as (r' & E & ? & ? & ?).
  rewrite E, bind_Ok. by exists r'.
Qed.

(** The request makes the stub send messages for [n_local] local shares at once: it is
    a put, a get of a new version, or the last update. *)
Inductive fires (entry : ParamEntry) (msg : Msg) (w : world) (i : Z) (p : Param) (base : Z)
    (vs : list Z) (gp : Z) (gs : list Z) : Prop :=
| fires_put : type msg = kPut -> 0 < num_total entry <= INT_MAX -> fires entry msg w i p base vs gp gs
| fires_get next : type msg = kGet -> next_version entry = Some next -> next < trgt_version msg ->
    fires entry msg w i p base vs gp gs
| fires_update n rest : type msg = kUpdate -> num_local entry = Some n ->
    local_grads entry w i p base vs gp gs rest -> 0 <= num_update entry ->
    num_update entry + 1 = n -> n <= INT_MAX -> fires entry msg w i p base vs gp gs.

Lemma HandleLocalMsg_fires t entry msg w i p base vs gp gs dst_grp route :
  worker_shard_ t !! Stub.Hash (AddrGrp (src msg)) (ParamID (trgt_val msg)) = Some entry ->
  request_ready cl t entry (AddrGrp (src msg)) w i p dst_grp route ->
  sendable (hp w) p base vs gp gs -> fires entry msg w i p base vs gp gs ->
  exists w' t' ms, HandleLocalMsg cl msg t w = Ok (w', t', ms) /\ procs_id_ t' = procs_id_ t /\
    Forall2 (fun ix m => addressed t (type msg) (trgt_version msg) p ix (AddrGrp (src msg)) dst_grp
               (route ix).1 m) (seq 0 (length (slice_size p))) ms.
Proof.
  intros He Hr Hs Hf. unfold HandleLocalMsg.
  assert (forall num ms gs', Forall2 (slice_request t (type msg) (trgt_version msg) num
    (AddrGrp (src msg)) dst_grp p base vs gp gs' route) (seq 0 (length (slice_size p))) ms ->
    Forall2 (fun ix m => addressed t (type msg) (trgt_version msg) p ix (AddrGrp (src msg)) dst_grp
               (route ix).1 m) (seq 0 (length (slice_size p))) ms) as Hweak.
  { intros num ms gs' H. eapply Forall2_impl; [|exact H]. by intros ix m []. }
  destruct Hf as [Hty Htot|next Hty Hv Hlt|n rest Hty Hn Hl H0 Hlast Hmax]; rewrite Hty in *;
    cbn [Z.eqb Pos.eqb kPut kGet kUpdate kRUpdate kRGet]; rewrite He; simpl map_at; rewrite bind_Ok.
  - unfold HandlePut. destruct (GenMsgs_Ok cl t kPut (trgt_version msg) (num_total entry) entry msg w
      i p base vs gp gs dst_grp route Hr Hs) as (ms & E & Hms);
      [split; [unfold INT_MIN; lia|left; by split; [|split; [|lia]]]|].
    rewrite E, bind_Ok. eexists _, t, ms. split; [done|]. split; [done|]. by eapply Hweak.
  - destruct (HandleGet_Ok cl t entry msg w i p base vs gp gs next dst_grp route Hr Hs Hv) as [_ H].
    destruct (H Hlt) as (w' & e' & ms & E & Hms & _). rewrite E, bind_Ok.
    eexists _, _, ms. split; [done|]. split; [done|]. by eapply Hweak.
  - destruct (HandleUpdate_Ok cl t entry msg w i p base vs gp gs rest n dst_grp route Hr Hs Hl Hn H0 Hmax)
      as [_ H]. destruct (H Hlast) as (h' & ms & E & Hms & _). rewrite E, bind_Ok.
    eexists _, _, ms. split; [done|]. split; [done|]. by eapply Hweak.
Qed.
End routing.

(** A message of one of the three request types is of no other type. *)
Ltac not_type Hty Hx :=
  exfalso; rewrite Hx in Hty; vm_compute in Hty; destruct Hty as [Hty|[Hty|Hty]]; discriminate Hty.

Lemma addressed_to_server `{C : Czmq} cl t ty v p ix sg dg sv procs m :
  addressed t ty v p ix sg dg sv m -> ty = kPut \/ ty = kGet \/ ty = kUpdate ->
  - 2 ^ 15 <= dg < 2 ^ 15 -> 0 <= sv < 2 ^ 8 -> ProcsIDOf cl dg sv (entity_num kServer) = Ok procs ->
  to_server cl m procs.
Proof.
  intros [Ht _ _ _ Hd] Hty Hdg Hsv Hp. split; [|by exists dg, sv].
  intros Hx. rewrite Ht in Hx. not_type Hty Hx.
Qed.

(** C9. A put, a get of a new version or the last update of a group's local workers,
    alone in the queue of the stub, leaves it after one iteration for the request
    and one for each slice: each slice's message is sent once, in order, to the
    process of the slice's server (through the router when it is this one), and
    the queue is empty. *)
Theorem Request_routed `{C : Czmq} `{!CzmqLaws C} (cl : Cluster) (max_bandwidth bw : Z)
    (servers : list (Z * Z)) (r : Run_state) (t : Trainer) (w : world) (entry : ParamEntry) (msg : Msg)
    (i : Z) (p : Param) (base : Z) (vs : list Z) (gp : Z) (gs : list Z) (dst_grp : Z)
    (route : nat -> Z * Z)
    (Hq : msg_queue r = [msg]) (Hg : AddrGrp (dst msg) = -1) (Hd : AddrType (dst msg) = entity_num kStub)
    (Hc : 0 < nserver_groups (cluster_ cl))
    (He : worker_shard_ t !! Stub.Hash (AddrGrp (src msg)) (ParamID (trgt_val msg)) = Some entry)
    (Hr : request_ready cl t entry (AddrGrp (src msg)) w i p dst_grp route)
    (Hs : sendable (hp w) p base vs gp gs) (Hf : fires entry msg w i p base vs gp gs)
    (Hdg : - 2 ^ 15 <= dst_grp < 2 ^ 15)
    (Hids : forall ix, (ix < length (slice_size p))%nat -> 0 <= (route ix).1 < 2 ^ 8) :
  let n := length (slice_size p) in
  exists w' t' r' acts, drain (1 + n) cl max_bandwidth bw servers r t w = Ok (w', t', r', acts) /\
    msg_queue r' = [] /\
    Forall2 (fun ix a => exists m,
        addressed t (type msg) (trgt_version msg) p ix (AddrGrp (src msg)) dst_grp (route ix).1 m /\
        a = send_to (procs_id_ t) (route ix).2 m) (seq 0 n) acts.
Proof.
  intros n.
  destruct (HandleLocalMsg_fires cl t entry msg w i p base vs gp gs dst_grp route He Hr Hs Hf)
    as (w' & t' & ms & E & Ht' & Hms). fold n in Hms.
  assert (type msg = kPut \/ type msg = kGet \/ type msg = kUpdate) as Hty by (destruct Hf; auto).
  assert (Run_msg cl max_bandwidth bw msg (set_queue [] r) t w
    = Ok (w', t', set_queue ms (set_queue [] r), [], false)) as E1.
  { unfold Run_msg. rewrite Hd, Hg, Z.eqb_refl, orb_true_r. cbn [andb].
    destruct (Z.eqb_spec (type msg) kConnect) as [Hx|_]; [by not_type Hty Hx|].
    destruct (Z.eqb_spec (type msg) kMetric) as [Hx|_]; [by not_type Hty Hx|].
    destruct (Z.eqb_spec (type msg) kStop) as [Hx|_]; [by not_type Hty Hx|].
    destruct (Z.ltb_spec 0 (nserver_groups (cluster_ cl))); [|lia]. by rewrite E, bind_Ok. }
  assert (Forall2 (to_server cl) ms (map (fun ix => (route ix).2) (seq 0 n))) as Hto.
  { apply Forall2_fmap_r, Forall2_flip, Forall2_same_length_lookup_2; [by eapply Forall2_length|].
    intros k ix m Hk Hm. pose proof (Forall2_lookup_lr _ _ _ _ _ _ Hms Hk Hm) as Ha.
    apply lookup_seq in Hk as [-> Hix].
    apply (addressed_to_server cl _ _ _ _ _ _ _ _ _ _ Ha Hty Hdg (Hids _ Hix)).
    apply (rr_route _ _ _ _ _ _ _ _ _ Hr). done. }
  destruct (drain_servers cl max_bandwidth bw servers ms _ Hto (set_queue ms (set_queue [] r)) t' w' eq_refl)
    as (r' & E2 & Hr' & _).
  pose proof (Forall2_length Hms) as Hlen. rewrite length_seq in Hlen.
  cbn [Nat.add drain]. unfold Run_step. rewrite Hq, E1, bind_Ok. cbv iota.
  rewrite <- Hlen in E2. rewrite E2, bind_Ok. exists w', t', r'. eexists. split; [done|]. split; [done|].
  cbn [app]. rewrite Ht'. apply Forall2_same_length_lookup_2.
  { rewrite length_zip_with, length_map, !length_seq. lia. }
  intros k ix a Hk Ha. apply lookup_zip_with_Some in Ha as (pr & m & -> & Hpr & Hm).
  exists m. split; [exact (Forall2_lookup_lr _ _ _ _ _ _ Hms Hk Hm)|].
  by apply list_lookup_fmap_Some_1 in Hpr as (ix' & -> & ?); simplify_eq.
Qed.

(** ** Synchronisation reminders *)

(** A process without servers (workers only) in a cluster with several server
    groups: as soon as a poll expires with bandwidth to spare, the stub takes the
    first of its (no) servers to remind. *)
Theorem Reminder_no_server `{C : Czmq} (cl : Cluster) (max_bandwidth bw : Z) (r : Run_state)
    (t : Trainer) (w : world)
    (Hg : 1 < nserver_groups (cluster_ cl)) (Hbw : bw < max_bandwidth) (Hq : msg_queue r = []) :
  Run_step cl max_bandwidth bw [] None r t w = Undef.
Proof.
  unfold Run_step, Run_expired. rewrite Hq.
  destruct (Z.ltb_spec 1 (nserver_groups (cluster_ cl))), (Z.ltb_spec bw max_bandwidth); try lia.
  simpl. unfold GenSyncReminderMsg, idx. by destruct (0 <=? sync_server_id r).
Qed.

(** A reminder as the stub makes it. *)
Definition reminder `{C : Czmq} (grp id : Z) : Msg :=
  set_type kSyncReminder
    (set_dst (Addr grp id (entity_num kServer))
      (set_src (Addr (-1) (-1) (entity_num kStub)) Msg_new)).

(** A server and its stub passing messages: what the server answers to the messages
    of the stub, and the stub's actions on the answers, [n] times. *)
Fixpoint exchange `{C : Czmq} `{U : Updater} (n : nat) (ngroups : Z) (cl : Cluster)
    (max_bandwidth bw : Z) (m : Msg) (s : Server) (r : Run_state) (t : Trainer) (w : world)
    : outcome (world * Trainer * Run_state * Server * list action) :=
  match n with
  | O => Ok (w, t, r, s, [SendLocal m])
  | S n =>
      '(w, s, ms) ← Server.Run_step ngroups m s w;
      match ms with
      | [m'] =>
          '(w, t, r, acts, _) ← Run_msg cl max_bandwidth bw m' r t w;
          match acts with
          | [SendLocal m''] => exchange n ngroups cl max_bandwidth bw m'' s r t w
          | _ => Ok (w, t, r, s, acts)
          end
      | _ => Ok (w, t, r, s, [])
      end
  end.

(** A synchronisation reminder is for slice 0 (its target is never set).  At a
    process where slice 0 is not kept, the server sends it back, and the stub sends
    it to the server again: the two pass it to each other for ever, and nothing is
    synchronised. *)
Theorem Reminder_bounces `{C : Czmq} `{U : Updater} (n : nat) (ngroups : Z) (cl : Cluster)
    (max_bandwidth bw grp id : Z) (s : Server) (r : Run_state) (t : Trainer) (w : world)
    (Hg : - 2 ^ 15 <= grp < 2 ^ 15) (Hid : 0 <= id < 2 ^ 8)
    (Hp : ProcsIDOf cl grp id (entity_num kServer) = Ok (procs_id_ t))
    (Hno : shard w !! 0 = None) :
  exchange n ngroups cl max_bandwidth bw (reminder grp id) s r t w
    = Ok (w, t, r, s, [SendLocal (reminder grp id)]).
Proof.
  induction n as [|n IH]; [done|]. cbn [exchange]. unfold Server.Run_step.
  change (type (reminder grp id) =? kPut) with false.
  change (SliceID (trgt_val (reminder grp id))) with 0. cbv iota zeta. rewrite Hno, bind_Ok.
  destruct (Addr_fields grp id (entity_num kServer) Hg Hid ltac:(simpl; lia)) as (Eg & Ei & _ & Et).
  unfold Run_msg. change (dst (reminder grp id)) with (Addr grp id (entity_num kServer)).
  rewrite Et, Eg, Ei, Hp. cbn [entity_num Z.eqb Pos.eqb negb andb].
  rewrite bind_Ok, Z.eqb_refl. cbn [negb].
  change (type (reminder grp id) =? kSyncRequest) with false. cbv iota. by rewrite !bind_Ok.
Qed.

(** ** Witnesses *)
#[local] Existing Instances ListCzmq.czmq ListCzmq.czmq_laws demo_libm.
#[local] Instance demo_rule : Updater := SGD_updater demo_updater.

Definition demo_run (q : list Msg) : Run_state := mkRun 1 0 0 ∅ q.
(** The group of a worker is 0 and its parameter the default one, with owner -1. *)
Definition demo_put : Msg :=
  set_dst (Addr (-1) (-1) (entity_num kStub)) (demo_msg kPut (ParamTrgt (-1) 0) 0 []).
Definition demo_stub_with (e : ParamEntry) : Trainer :=
  mkTrainer 0 {[Stub.Hash 0 (-1) := e]} [0; 0].

Lemma Request_routed_witness :
  exists w' t' r' a1 a2,
    drain 3 demo_cl 100 0 [] (demo_run [demo_put]) (demo_stub_with (demo_entry 0)) demo_worker
      = Ok (w', t', r', [a1; a2]) /\ msg_queue r' = [].
Proof.
  destruct (Request_routed demo_cl 100 0 [] (demo_run [demo_put]) (demo_stub_with (demo_entry 0)) demo_worker
    (demo_entry 0) demo_put 7 demo_wp2 1 demo_floats 10 demo_floats 0 (fun _ => (0, 1)))
    as (w' & t' & r' & acts & E & Hr & Ha).
  - reflexivity.
  - reflexivity.
  - reflexivity.
  - reflexivity.
  - reflexivity.
  - destruct (demo_request_ready 0) as [H1 H2 H3 H4 H5]. by constructor.
  - apply demo_sendable.
  - apply fires_put; [reflexivity|by vm_compute].
  - lia.
  - simpl. lia.
  - pose proof (Forall2_length Ha) as Hl. destruct acts as [|a1 [|a2 [|]]]; try discriminate Hl.
    exists w', t', r', a1, a2. split; [exact E|exact Hr].
Defined.

Lemma Reminder_no_server_witness :
  Run_step (mkCluster (mkClusterProto 2 2 1 1 1 1 true) 4 ∅) 100 0 [] None (demo_run [])
    demo_stub demo_worker = Undef.
Proof. apply Reminder_no_server; reflexivity. Defined.

Lemma Reminder_bounces_witness :
  exchange 5 2 demo_cl 100 0 (reminder 0 0) demo_server (demo_run []) (mkTrainer 1 ∅ [0]) demo_worker
    = Ok (demo_worker, mkTrainer 1 ∅ [0], demo_run [], demo_server, [SendLocal (reminder 0 0)]).
Proof. apply Reminder_bounces; [lia|lia|reflexivity|reflexivity]. Defined.

(** ** The gradients of several processes are divided twice *)

(** Two shares in a process: gradients of two floats at 1 and at 9, objects 0 and 1;
    the values are at 17 and shared. *)
Definition demo_fours : list Z := [f32_of_Z 4; f32_of_Z 4].
Definition demo_pair_heap : heap :=
  mkHeap (list_to_map (zip (map Z.of_nat (seq 1 24)) (bytes_of_f32s (demo_fours ++ demo_fours ++ demo_fours))))
    26 {[0 := mkSM 1 8 HEAD_AT_CPU true; 1 := mkSM 9 8 HEAD_AT_CPU true; 2 := mkSM 17 8 HEAD_AT_CPU true]}
    {[0 := mkBlob (Some 2) [2] 2 2 0]} 3.
Definition demo_pair_param (g : Z) : Param :=
  mkParam (-1) 0 1 [0] [2] [false] [false] [false] 0 (Some 0) (mkBlob (Some g) [2] 2 2 (-1)) Blob_new
    ParamProto_default.
Definition demo_pair : world :=
  mkWorld demo_pair_heap {[7 := demo_pair_param 0; 8 := demo_pair_param 1]} 9 ∅.

(** The gradient the server has after the updates of two such processes. *)
Definition demo_two_by_two : outcome (list Z) :=
  let entry := mkEntry 0 (Some (-1)) (Some 2) 4 [7; 8] in
  '(w, entry, _) ← Stub.HandleUpdate demo_cl demo_stub entry (demo_msg kUpdate 0 0 []) demo_pair;
  '(_, _, ms) ← Stub.HandleUpdate demo_cl demo_stub entry (demo_msg kUpdate 0 0 []) w;
  m ← vec_at ms 0;
  m ← FirstFrame m;
  '(h, _) ← ParseUpdateMsgs [m; m] demo_sparam demo_sheap;
  '(h, g) ← mutable_cpu_data (grad demo_sparam) h;
  tensor g 2 h.

(** Two processes with two workers each, whose gradients are all 4: each stub
    sends (4 + 4) / 4 = 2, as it divides the sum of its workers by the number of all
    workers, and the server divides the sum of these by the number of messages: it
    uses 2, half of the average gradient. *)
Theorem Gradients_divided_twice : demo_two_by_two = Ok [f32_of_Z 2; f32_of_Z 2].
Proof. by vm_compute. Qed.
