(* ===== verification/Router.v ===== *)
(** * communication/socket.h, communication/socket.cc: the router

    The router of a process knows a dealer only once it has received a message from
    it; what is sent before is buffered by destination, up to [bufsize_] messages,
    and sent on when the destination's first message comes.  ZeroMQ is outside: a
    message from it is an identity frame and the rest, and [zmsg_send] after
    [zmsg_prepend] of an identity is a pair handed to it. *)

From S2P Require Import Prelude Msg.

Section router.
Context `{C : Czmq}.

(** The bytes of an identity frame. *)
Definition identity : Type := list Z.

Record Router := mkRouter {
  nBufmsg_ : Z;
  bufsize_ : Z;
  id2addr_ : gmap Z identity;
  bufmsg_ : gmap Z (list zmsg);
}.
Definition Router_make (bufsize : Z) : Router := mkRouter 0 bufsize ∅ ∅.
Definition Router_new : Router := Router_make 100.

Definition Router_Send (msg : Msg) (r : Router) : outcome (Router * list (identity * zmsg)) :=
  '(zmsg, _) ← DumpToZmsg msg;
  let dstid := dst msg in
  match id2addr_ r !! dstid with
  | Some addr => Ok (r, [(addr, zmsg)])
  | None =>
      let n := if decide (size (bufmsg_ r) = 0%nat) then 0 else nBufmsg_ r in
      n ← int_ret (n + 1);
      _ ← CHECK (n <=? bufsize_ r);
      Ok (mkRouter n (bufsize_ r) (id2addr_ r)
            (<[dstid := default [] (bufmsg_ r !! dstid) ++ [zmsg]]> (bufmsg_ r)), [])
  end.

Definition Router_Receive (dealer : identity) (z : zmsg) (r : Router)
    : outcome (Msg * Router * list (identity * zmsg)) :=
  msg ← ParseFromZmsg z Msg_new;
  match id2addr_ r !! src msg with
  | Some _ => Ok (msg, r, [])
  | None =>
      let r1 := mkRouter (nBufmsg_ r) (bufsize_ r) (<[src msg := dealer]> (id2addr_ r)) in
      match bufmsg_ r !! src msg with
      | Some zs => Ok (msg, r1 (delete (src msg) (bufmsg_ r)), map (fun z => (dealer, z)) zs)
      | None => Ok (msg, r1 (bufmsg_ r), [])
      end
  end.

(** ** A run of the router: the calls of the stub, in order *)
Inductive call :=
| CSend (m : Msg)
| CReceive (dealer : identity) (z : zmsg).

Fixpoint calls (cs : list call) (r : Router) : outcome (Router * list (identity * zmsg)) :=
  match cs with
  | [] => Ok (r, [])
  | c :: cs =>
      '(r, out) ← (match c with
                   | CSend m => Router_Send m r
                   | CReceive dealer z => '(_, r, out) ← Router_Receive dealer z r; Ok (r, out)
                   end);
      '(r, out') ← calls cs r;
      Ok (r, out ++ out')
  end.

(** The messages sent to destination [d], as they go on the wire, in order. *)
Fixpoint sent_to (d : Z) (cs : list call) : list zmsg :=
  match cs with
  | [] => []
  | CSend m :: cs =>
      (if dst m =? d then match DumpToZmsg m with Ok (z, _) => [z] | _ => [] end else [])
      ++ sent_to d cs
  | CReceive _ _ :: cs => sent_to d cs
  end.

(** What ZeroMQ was handed for identity [a]. *)
Definition given_to (a : identity) (out : list (identity * zmsg)) : list zmsg :=
  map snd (filter (fun az => az.1 = a) out).

(** A router with distinct identities, that buffers only for those it does not know. *)
Record router_ok (r : Router) : Prop := {
  ro_inj d d' a : id2addr_ r !! d = Some a -> id2addr_ r !! d' = Some a -> d = d';
  ro_buf d : is_Some (id2addr_ r !! d) -> bufmsg_ r !! d = None;
}.
(** Each received message's source and identity determine each other. *)
Fixpoint identities_ok (known : gmap Z identity) (cs : list call) : Prop :=
  match cs with
  | [] => True
  | CSend _ :: cs => identities_ok known cs
  | CReceive a z :: cs =>
      match ParseFromZmsg z Msg_new with
      | Ok m =>
          (forall d, known !! d = Some a -> d = src m) /\
          identities_ok (match known !! src m with Some _ => known | None => <[src m := a]> known end) cs
      | _ => True
      end
  end.

Definition buffered_for (d : Z) (r : Router) : list zmsg := default [] (bufmsg_ r !! d).
Definition given_for (d : Z) (r : Router) (out : list (identity * zmsg)) : list zmsg :=
  match id2addr_ r !! d with Some a => given_to a out | None => [] end.

Lemma given_to_app a out out' : given_to a (out ++ out') = given_to a out ++ given_to a out'.
Proof. unfold given_to. by rewrite list.filter_app, map_app. Qed.

Lemma given_to_all a (zs : list zmsg) : given_to a (map (fun z => (a, z)) zs) = zs.
Proof.
  unfold given_to. induction zs as [|z zs IH]; simpl; [done|].
  rewrite filter_cons_True by done. simpl. by rewrite IH.
Qed.

Lemma given_to_none a b (zs : list zmsg) : a <> b -> given_to a (map (fun z => (b, z)) zs) = [].
Proof.
  intros Hne. unfold given_to. induction zs as [|z zs IH]; simpl; [done|].
  rewrite filter_cons_False; [done|]. simpl. by intros ->.
Qed.
End router.

(** A call keeps the router well-formed, keeps what it knows, and gives or buffers
    exactly the message sent. *)
Definition step_ok `{C : Czmq} (c : call) (r r' : Router) (out : list (identity * zmsg)) : Prop :=
  router_ok r' /\ (forall d a, id2addr_ r !! d = Some a -> id2addr_ r' !! d = Some a) /\
  (forall d, given_for d r' out ++ buffered_for d r' = buffered_for d r ++ sent_to d [c]) /\
  (forall a, (forall d, id2addr_ r' !! d <> Some a) -> given_to a out = []) /\
  (forall cs, identities_ok (id2addr_ r) (c :: cs) -> identities_ok (id2addr_ r') cs).
Lemma send_step `{C : Czmq} m (r r' : Router) out : router_ok r -> Router_Send m r = Ok (r', out) ->
  step_ok (CSend m) r r' out.
Proof.
  intros [Hinj Hbuf] E. unfold step_ok, Router_Send in *. apply bind_Ok_inv in E as ([zm m'] & Ed & E).
  unfold sent_to. rewrite Ed. destruct (id2addr_ r !! dst m) as [addr|] eqn:Ha.
  - injection E as <- <-. split; [done|]. split; [done|]. split; [|split; [|done]].
    + intros d. rewrite app_nil_r. unfold given_for, buffered_for.
      destruct (Z.eqb_spec (dst m) d) as [<-|Hne].
      * rewrite Ha, (Hbuf (dst m)) by eauto. simpl. unfold given_to. by rewrite filter_cons_True.
      * rewrite app_nil_r. destruct (id2addr_ r !! d) as [a|] eqn:Hd; [|done].
        unfold given_to. rewrite filter_cons_False; [done|]. simpl. intros ->. apply Hne. by eapply Hinj.
    + intros a Hno. unfold given_to. rewrite filter_cons_False; [done|]. simpl. intros ->. by eapply Hno.
  - inv_ok E. inv_ok E. injection E as <- <-. simpl. split; [constructor; simpl|].
    + done.
    + intros d [a' Hd]. rewrite lookup_insert_ne by congruence. by apply Hbuf.
    + split; [done|]. split; [|done]. intros d. rewrite app_nil_r.
      assert (given_for d r [] = []) as Hg by (unfold given_for; by destruct (id2addr_ r !! d)).
      unfold given_for in *. simpl. rewrite Hg. unfold buffered_for. simpl.
      destruct (Z.eqb_spec (dst m) d) as [<-|Hne].
      * by rewrite lookup_insert_eq.
      * by rewrite lookup_insert_ne, app_nil_r.
Qed.
Lemma receive_step `{C : Czmq} dealer z m (r r' : Router) out : router_ok r -> identities_ok (id2addr_ r) [CReceive dealer z] ->
  Router_Receive dealer z r = Ok (m, r', out) -> step_ok (CReceive dealer z) r r' out.
Proof.
  intros [Hinj Hbuf] Hid E. unfold step_ok. simpl in Hid. unfold Router_Receive in E. apply bind_Ok_inv in E as (m0 & Em & E).
  rewrite Em in Hid. destruct Hid as [Hid _]. simpl sent_to.
  destruct (id2addr_ r !! src m0) as [a0|] eqn:Ha.
  - injection E as <- <- <-. split; [done|]. split; [done|]. split; [|split; [done|]].
    + intros d. rewrite app_nil_r. unfold given_for. by destruct (id2addr_ r !! d).
    + intros cs Hcs. simpl in Hcs. rewrite Em, Ha in Hcs. apply Hcs.
  - set (r1 := mkRouter (nBufmsg_ r) (bufsize_ r) (<[src m0:=dealer]> (id2addr_ r))) in E.
    assert (r' = r1 (delete (src m0) (bufmsg_ r)) /\ out = map (fun z => (dealer, z)) (buffered_for (src m0) r)) as [-> ->].
    { unfold buffered_for. destruct (bufmsg_ r !! src m0) as [zs|] eqn:Hb; injection E as <- <- <-; [done|].
      by rewrite delete_id. }
    clear E. unfold r1. split; [constructor; simpl|split; [|split; [|split]]]; simpl.
    + intros d d' a. rewrite !lookup_insert_Some.
      intros [[<- E1]|[Hne Hd]] [[<- E2]|[Hne' Hd']]; try done.
      * rewrite <- E1 in Hd'. by apply Hid in Hd'.
      * rewrite <- E2 in Hd. by apply Hid in Hd.
      * by eapply Hinj.
    + intros d. rewrite lookup_delete_None. destruct (decide (src m0 = d)) as [<-|Hne]; [by left|].
      rewrite lookup_insert_ne by done. intros Hd. right. by apply Hbuf.
    + intros d a Hd. rewrite lookup_insert_ne; [done|congruence].
    + intros d. rewrite app_nil_r. unfold given_for, buffered_for. simpl.
      destruct (decide (src m0 = d)) as [<-|Hne].
      * rewrite lookup_insert_eq, lookup_delete_eq. simpl. rewrite app_nil_r. apply given_to_all.
      * rewrite lookup_insert_ne, lookup_delete_ne by done.
        destruct (id2addr_ r !! d) as [a|] eqn:Hd; [|done].
        rewrite given_to_none; [done|]. intros ->. by apply Hid in Hd.
    + intros a Hno. apply given_to_none. intros ->. apply (Hno (src m0)). apply lookup_insert_eq.
    + intros cs. rewrite Em, Ha. by intros [_ ?].
Qed.
Lemma call_step `{C : Czmq} (c : call) (r r' : Router) out :
  router_ok r -> identities_ok (id2addr_ r) [c] ->
  match c with
  | CSend m => Router_Send m r
  | CReceive dealer z => '(_, r, out) ← Router_Receive dealer z r; Ok (r, out)
  end = Ok (r', out) ->
  step_ok c r r' out.
Proof.
  intros Hr Hid E. destruct c as [m|dealer z]; [by apply send_step|].
  apply bind_Ok_inv in E as ([[m r1] out1] & E1 & [= <- <-]). by apply (receive_step dealer z m).
Qed.

Lemma calls_fifo `{C : Czmq} cs : forall r r' out,
  router_ok r -> identities_ok (id2addr_ r) cs -> calls cs r = Ok (r', out) ->
  router_ok r' /\ (forall d a, id2addr_ r !! d = Some a -> id2addr_ r' !! d = Some a) /\
  (forall a, (forall d, id2addr_ r' !! d <> Some a) -> given_to a out = []) /\
  forall d, given_for d r' out ++ buffered_for d r' = buffered_for d r ++ sent_to d cs.
Proof.
  induction cs as [|c cs IH]; intros r r' out Hr Hid E; cbn [calls] in E.
  { injection E as <- <-. split; [done|]. split; [done|]. split; [done|].
    intros d. rewrite app_nil_r. unfold given_for. by destruct (id2addr_ r !! d). }
  apply bind_Ok_inv in E as ([r1 out1] & E1 & E). apply bind_Ok_inv in E as ([r2 out2] & E2 & E).
  injection E as <- <-.
  assert (identities_ok (id2addr_ r) [c]) as Hid1.
  { destruct c as [m|dealer z]; simpl in *; [done|]. destruct (ParseFromZmsg z Msg_new); try done.
    by destruct Hid as [? _]. }
  destruct (call_step c r r1 out1 Hr Hid1 E1) as (Hr1 & Hk1 & Hg1 & Hn1 & Hid').
  destruct (IH r1 r2 out2 Hr1 (Hid' cs Hid) E2) as (Hr2 & Hk2 & Hn2 & Hg2).
  assert (forall a, (forall d, id2addr_ r2 !! d <> Some a) -> given_to a out1 = []) as Hn1'.
  { intros a Ha. apply Hn1. intros d Hd. apply (Ha d). by apply Hk2. }
  split; [done|]. split; [by auto|]. split.
  { intros a Ha. by rewrite given_to_app, Hn1', Hn2. }
  intros d. assert (sent_to d (c :: cs) = sent_to d [c] ++ sent_to d cs) as ->.
  { destruct c; simpl; [|done]. by rewrite app_nil_r. }
  rewrite app_assoc, <- Hg1, <- app_assoc, <- Hg2, !app_assoc. f_equal.
  unfold given_for. destruct (id2addr_ r2 !! d) as [a|] eqn:Hd2.
  - rewrite given_to_app. f_equal. destruct (id2addr_ r1 !! d) as [a1|] eqn:Hd1.
    + apply Hk2 in Hd1. congruence.
    + apply Hn1. intros d' Hd'. apply Hk2 in Hd' as Hd''.
      assert (d' = d) as -> by by eapply (ro_inj r2). congruence.
  - destruct (id2addr_ r1 !! d) as [a1|] eqn:Hd1; [|done]. apply Hk2 in Hd1. congruence.
Qed.

(** A run whose messages have frames and whose received messages parse. *)
Definition call_ok `{C : Czmq} (c : call) : Prop :=
  match c with
  | CSend m => is_Some (msg_ m)
  | CReceive _ z => exists m, ParseFromZmsg z Msg_new = Ok m
  end.
Fixpoint nsends `{C : Czmq} (cs : list call) : nat :=
  match cs with
  | [] => O
  | CSend _ :: cs => S (nsends cs)
  | CReceive _ _ :: cs => nsends cs
  end.

Lemma calls_return `{C : Czmq} cs : forall r,
  Forall call_ok cs -> 0 <= nBufmsg_ r -> nBufmsg_ r + Z.of_nat (nsends cs) <= bufsize_ r ->
  bufsize_ r <= INT_MAX -> exists r' out, calls cs r = Ok (r', out).
Proof.
  induction cs as [|c cs IH]; intros r Hok H0 Hn Hmax; [by exists r, []|].
  inversion Hok as [|? ? Hc Hcs Ea]; clear Ea. cbn [calls].
  destruct c as [m|dealer z].
  - destruct Hc as [zm Hm]. change (nsends (CSend m :: cs)) with (S (nsends cs)) in Hn.
    unfold Router_Send, DumpToZmsg. rewrite Hm, deref_Some, !bind_Ok.
    destruct (id2addr_ r !! dst m).
    + rewrite bind_Ok. destruct (IH r Hcs H0) as (r' & out & E); [lia|done|].
      rewrite E. by eexists _, _.
    + set (k := if decide _ then 0 else nBufmsg_ r).
      assert (0 <= k <= nBufmsg_ r) as Hk by (unfold k; destruct (decide _); lia).
      rewrite int_ret_Ok by (unfold INT_MIN; lia). rewrite bind_Ok.
      destruct (Z.leb_spec (k + 1) (bufsize_ r)); [|lia]. simpl CHECK. rewrite !bind_Ok.
      edestruct IH as (r' & out & E); [done|..|rewrite E; by eexists _, _]; simpl; lia.
  - destruct Hc as [m Hm]. change (nsends (CReceive dealer z :: cs)) with (nsends cs) in Hn.
    unfold Router_Receive. rewrite Hm, bind_Ok.
    destruct (id2addr_ r !! src m); [|destruct (bufmsg_ r !! src m)]; rewrite !bind_Ok;
      (edestruct IH as (r' & out & E); [done|..|rewrite E; by eexists _, _]; simpl; lia).
Qed.

(** C33. The router neither loses nor reorders messages.  Over any run of sends and
    receives with at most [bufsize] sends, in which each dealer uses its own
    identity, it returns, and for every destination: if its dealer has sent
    something, what ZeroMQ was handed for that dealer is exactly the messages sent
    to the destination, in order, and nothing is buffered; otherwise exactly these
    messages are buffered. *)
Theorem Router_fifo `{C : Czmq} (bufsize : Z) (cs : list call)
    (Hcs : Forall call_ok cs) (Hn : Z.of_nat (nsends cs) <= bufsize <= INT_MAX)
    (Hid : identities_ok ∅ cs) :
  exists r out, calls cs (Router_make bufsize) = Ok (r, out) /\
    forall d, match id2addr_ r !! d with
              | Some a => given_to a out = sent_to d cs /\ bufmsg_ r !! d = None
              | None => default [] (bufmsg_ r !! d) = sent_to d cs
              end.
Proof.
  destruct (calls_return cs (Router_make bufsize) Hcs) as (r & out & E); [simpl; lia..|].
  exists r, out. split; [done|].
  destruct (calls_fifo cs (Router_make bufsize) r out) as (Hr & _ & _ & H); [|done|done|].
  { constructor; simpl; [done|]. intros d. by rewrite !lookup_empty. }
  intros d. specialize (H d). unfold given_for, buffered_for in H.
  change (bufmsg_ (Router_make bufsize) !! d) with (@None (list zmsg)) in H.
  destruct (id2addr_ r !! d) as [a|] eqn:Hd; simpl in H.
  - rewrite (ro_buf r Hr d) in H by eauto. rewrite app_nil_r in H. split; [done|].
    apply (ro_buf r Hr). by exists a.
  - done.
Qed.

(** ** Witnesses *)
#[local] Existing Instances ListCzmq.czmq ListCzmq.czmq_laws.
Definition demo_ping (s : Z) : zmsg :=
  ListCzmq.Build_t [bytes_of_string (Header.print_ds [s; 3; kConnect; 0; 0])] None.
Definition demo_to (d : Z) : Msg := Msg_make 3 d.
Definition demo_calls : list call :=
  [CSend (demo_to 7); CSend (demo_to 8); CReceive [1] (demo_ping 8); CSend (demo_to 8)].

Lemma Router_fifo_witness :
  exists r out, calls demo_calls (Router_make 100) = Ok (r, out) /\
    default [] (bufmsg_ r !! 7) = sent_to 7 demo_calls.
Proof.
  destruct (Router_fifo 100 demo_calls) as (r & out & E & H).
  - repeat constructor; by eexists.
  - by vm_compute.
  - by vm_compute.
  - exists r, out. split; [exact E|]. specialize (H 7).
    assert (id2addr_ r !! 7 = None) as Hn.
    { vm_compute in E. injection E as <- _. by vm_compute. }
    by rewrite Hn in H.
Defined.

(** The count of buffered messages is not lowered when buffered messages are sent
    on: as long as one destination stays silent, each message that was ever buffered
    counts.  With room for two, the third buffered message fails the [CHECK] although
    only one other is in the buffer. *)
Theorem Router_count_leaks :
  match calls [CSend (demo_to 7); CSend (demo_to 8); CReceive [1] (demo_ping 8)] (Router_make 2) with
  | Ok (r, _) => size (bufmsg_ r) = 1%nat /\ buffered_for 7 r = sent_to 7 [CSend (demo_to 7)] /\
      Router_Send (demo_to 9) r = Fatal
  | _ => False
  end.
Proof. by vm_compute. Qed.
