(* ===== verification/Sockets.v ===== *)
(** * communication/socket.cc: dealers, pollers and the binding of the router

    The parts of the sockets around ZeroMQ's calls, whose results are arguments: the return code
    of [zsock_connect], the port of [zsock_bind], the message of [zmsg_recv], and the socket
    [zpoller_wait] finds ready.  Sockets are pointers, null is 0. *)

From S2P Require Import Prelude Msg.

Section sockets.
Context `{C : Czmq}.

(** [zsock2Socket_]; a ready socket that was not added would get a null entry. *)
Record Poller := mkPoller { poller_ : list Z; zsock2Socket_ : gmap Z Z }.
Definition Poller_new : Poller := mkPoller [] ∅.
Definition Poller_Add (zsock socket : Z) (p : Poller) : Poller :=
  mkPoller (poller_ p ++ [zsock]) (<[zsock := socket]> (zsock2Socket_ p)).
Definition Poller_make (zsock socket : Z) : Poller := Poller_Add zsock socket Poller_new.
Definition Poller_Wait (ready : Z) (p : Poller) : Poller * Z :=
  if ready =? 0 then (p, 0)
  else match zsock2Socket_ p !! ready with
       | Some socket => (p, socket)
       | None => (mkPoller (poller_ p) (<[ready := 0]> (zsock2Socket_ p)), 0)
       end.

Definition Dealer_Connect (rc : Z) (endpoint : string) : outcome Z :=
  _ ← CHECK (bool_decide (endpoint <> ""%string)); _ ← CHECK (rc =? 0); Ok 1.
Definition Dealer_Send (msg : Msg) : outcome (zmsg * Z) := '(z, _) ← DumpToZmsg msg; Ok (z, 1).
Definition Dealer_Receive (z : option zmsg) : outcome (option Msg) :=
  match z with
  | None => Ok None
  | Some z => msg ← ParseFromZmsg z Msg_new; Ok (Some msg)
  end.
Definition Router_Bind (bound : Z) (endpoint : string) : outcome Z :=
  let port := if bool_decide (endpoint <> ""%string) then bound else -1 in
  _ ← CHECK (negb (port =? -1)); Ok port.

(** What was added is found, and the poller is left as it is. *)
Lemma Poller_Wait_added (l : list (Z * Z)) zsock socket p : NoDup l.*1 -> (zsock, socket) ∈ l -> zsock <> 0 ->
  let p' := foldl (fun p zs => Poller_Add zs.1 zs.2 p) p l in Poller_Wait zsock p' = (p', socket).
Proof.
  intros Hnd Hin H0. simpl. unfold Poller_Wait. rewrite (proj2 (Z.eqb_neq _ _) H0).
  enough (zsock2Socket_ (foldl (fun p zs => Poller_Add zs.1 zs.2 p) p l) !! zsock = Some socket) as -> by done.
  revert p. induction l as [|[z s] l IH] using rev_ind; intros p; [by apply elem_of_nil in Hin|].
  rewrite foldl_app. simpl. rewrite fmap_app in Hnd. apply list.NoDup_app in Hnd as (Hnd & Hne & _).
  apply elem_of_app in Hin as [Hin|[= -> ->]%list_elem_of_singleton]; [|apply lookup_insert_eq].
  rewrite lookup_insert_ne; [by apply IH|]. intros ->. apply (Hne zsock); [|by left].
  apply list_elem_of_fmap. by exists (zsock, socket).
Qed.
(** A dealer's message is what the dealer at the other end receives. *)
Lemma Dealer_Send_Receive `{!CzmqLaws C} (m : Msg) (z0 : zmsg) : msg_ m = Some z0 -> header_ok m ->
  exists z m', Dealer_Send m = Ok (z, 1) /\ Dealer_Receive (Some z) = Ok (Some m') /\
    [src m'; dst m'; type m'; trgt_val m'; trgt_version m'] = [src m; dst m; type m; trgt_val m; trgt_version m] /\
    exists z', msg_ m' = Some z' /\ zframes z' = zframes z0.
Proof.
  intros Hz Hok. destruct (Dump_Parse_roundtrip m z0 Hz Hok) as (z & m1 & z' & m' & E & _ & E' & Hm & Hfr & _ & _ & Hh).
  exists z, m'. unfold Dealer_Send, Dealer_Receive. rewrite E, E', !bind_Ok. eauto 10.
Qed.
(** An empty endpoint ends the program, in [Connect] and in [Bind]. *)
Lemma no_endpoint rc bound : Dealer_Connect rc "" = Fatal /\ Router_Bind bound "" = Fatal.
Proof. by split. Qed.
End sockets.
