(* ===== verification/GraphProps.v ===== *)
(** * Properties of the graph: topological sorting *)

From S2P Require Import Prelude Graph.

(** A graph whose edges are known at both ends and stay among its nodes. *)
Record graph_ok (g : Graph) : Prop := {
  go_nodup : NoDup (nodes_ g);
  go_nodes i : i ∈ nodes_ g -> is_Some (store g !! i);
  go_src i n s : i ∈ nodes_ g -> store g !! i = Some n -> s ∈ srcnodes n ->
    s ∈ nodes_ g /\ exists m, store g !! s = Some m /\ i ∈ dstnodes m;
  go_dst i n d : i ∈ nodes_ g -> store g !! i = Some n -> d ∈ dstnodes n ->
    d ∈ nodes_ g /\ exists m, store g !! d = Some m /\ i ∈ srcnodes m;
  go_names i j n m : i ∈ nodes_ g -> j ∈ nodes_ g -> store g !! i = Some n -> store g !! j = Some m ->
    name n = name m -> i = j;
}.
(** The sources of a node have a lower rank. *)
Definition acyclic (g : Graph) (rank : Z -> nat) : Prop :=
  forall i n s, i ∈ nodes_ g -> store g !! i = Some n -> s ∈ srcnodes n -> (rank s < rank i)%nat.

(** Every node comes after its sources. *)
Definition topological (g : Graph) (ns : list Z) : Prop :=
  forall pre i suf n s, ns = pre ++ i :: suf -> store g !! i = Some n -> s ∈ srcnodes n -> s ∈ pre.

Section sort.
Variables (g : Graph) (rank : Z -> nat).
Hypotheses (Hg : graph_ok g) (Hac : acyclic g rank).

Lemma get_node_Ok i : i ∈ nodes_ g -> exists n, store g !! i = Some n /\ get_node i g = Ok n.
Proof.
  intros Hi. destruct (go_nodes g Hg i Hi) as [n Hn]. exists n. unfold get_node. by rewrite Hn.
Qed.

(** Without cycles there is no bi-directional edge. *)
Lemma has_source_named_Ok nm ss :
  (forall s, s ∈ ss -> s ∈ nodes_ g) ->
  (forall s m, s ∈ ss -> store g !! s = Some m -> name m <> nm) ->
  has_source_named nm ss g = Ok false.
Proof.
  induction ss as [|s ss IH]; intros Hin Hne; simpl; [done|].
  destruct (get_node_Ok s) as (m & Hm & ->); [apply Hin; left|]. rewrite bind_Ok.
  rewrite decide_False by (apply (Hne s); [left|done]).
  apply IH; intros; [apply Hin|eapply Hne]; try done; by right.
Qed.

Lemma bi_direction_Ok i n srcs :
  i ∈ nodes_ g -> store g !! i = Some n -> (forall s, s ∈ srcs -> s ∈ srcnodes n) ->
  bi_direction (name n) srcs g = Ok false.
Proof.
  intros Hi Hn. induction srcs as [|s srcs IH]; intros Hin; simpl; [done|].
  assert (s ∈ srcnodes n) as Hs by (apply Hin; left).
  destruct (go_src g Hg i n s Hi Hn Hs) as [Hsn (m & Hm & _)].
  unfold get_node. rewrite Hm, deref_Some, bind_Ok.
  rewrite has_source_named_Ok, bind_Ok, IH; [done| | |].
  - intros s' Hs'. apply Hin. by right.
  - intros s' Hs'. by destruct (go_src g Hg s m s' Hsn Hm Hs').
  - intros s' m' Hs' Hm' Hname.
    destruct (go_src g Hg s m s' Hsn Hm Hs') as [Hs'n _].
    assert (s' = i) as -> by by eapply (go_names g Hg s' i).
    pose proof (Hac i n s Hi Hn Hs). pose proof (Hac s m i Hsn Hm Hs'). lia.
Qed.

Definition ready (visited : list Z) (i : Z) : Prop :=
  forall n s, store g !! i = Some n -> s ∈ srcnodes n -> s ∈ visited.

Lemma can_visit_Ok i n visited :
  i ∈ nodes_ g -> store g !! i = Some n ->
  exists b, can_visit n visited g = Ok b /\ (b = true <-> ready visited i).
Proof.
  intros Hi Hn. unfold can_visit. rewrite (bi_direction_Ok i n (srcnodes n) Hi Hn), bind_Ok by done.
  simpl andb. eexists. split; [done|]. rewrite forallb_forall. split.
  - intros H n' s Hn' Hs. assert (n' = n) as -> by congruence.
    apply list_elem_of_In in Hs. by apply H, bool_decide_eq_true in Hs.
  - intros H s Hs. apply bool_decide_eq_true, (H n s Hn). by apply list_elem_of_In.
Qed.

(** The nodes queued or visited. *)
Record loop_ok (visiting visited : list Z) (visit_set : gset Z) : Prop := {
  lk_nodup : NoDup (visiting ++ visited);
  lk_set i : i ∈ visit_set <-> i ∈ visiting ++ visited;
  lk_in i : i ∈ visiting ++ visited -> i ∈ nodes_ g;
  lk_roots i n : i ∈ nodes_ g -> store g !! i = Some n -> srcnodes n = [] -> i ∈ visiting ++ visited;
  lk_dsts i n d : i ∈ visited -> store g !! i = Some n -> d ∈ dstnodes n -> d ∈ visiting ++ visited;
  lk_topo : topological g visited;
}.

(** As long as a node is not visited, the queue has a node that can be. *)
Lemma some_ready visiting visited vs :
  loop_ok visiting visited vs -> (exists i, i ∈ nodes_ g /\ i ∉ visited) ->
  exists i, i ∈ visiting /\ ready visited i.
Proof.
  intros [Hnd Hset Hin Hroots Hdsts Htopo] (i & Hi & Hiv).
  remember (rank i) as r eqn:Hr. revert i Hi Hiv Hr.
  induction (lt_wf r) as [r _ IH]. intros i Hi Hiv ->.
  destruct (get_node_Ok i Hi) as (n & Hn & _).
  destruct (decide (Forall (fun s => s ∈ visited) (srcnodes n))) as [Hall|Hex].
  - rewrite list.Forall_forall in Hall. exists i. split.
    + destruct (srcnodes n) as [|s ss] eqn:Es.
      * pose proof (Hroots i n Hi Hn Es) as H. apply elem_of_app in H as [H|H]; done.
      * assert (s ∈ srcnodes n) as Hs by (rewrite Es; left).
        destruct (go_src g Hg i n s Hi Hn Hs) as [_ (m & Hm & Him)].
        assert (s ∈ visited) as Hsv by (apply Hall; left).
        pose proof (Hdsts s m i Hsv Hm Him) as H. apply elem_of_app in H as [H|H]; done.
    + intros n' s Hn' Hs. assert (n' = n) as -> by congruence. by apply Hall.
  - apply not_Forall_Exists in Hex; [|apply _]. apply list.Exists_exists in Hex as (s & Hs & Hsv).
    destruct (go_src g Hg i n s Hi Hn Hs) as [Hsn _].
    apply (IH (rank s)) with s; try done. by apply (Hac i n).
Qed.

Lemma queue_dsts_Ok dsts : forall visiting vs,
  (forall i, i ∈ visiting -> i ∈ vs) -> NoDup visiting ->
  exists new, queue_dsts dsts visiting vs = (visiting ++ new, (list_to_set new : gset Z) ∪ vs) /\
    NoDup new /\ (forall i, i ∈ new -> i ∉ vs /\ i ∈ dsts) /\
    (forall d, d ∈ dsts -> d ∈ vs \/ d ∈ new).
Proof.
  induction dsts as [|d dsts IH]; intros visiting vs Hin Hnd; simpl.
  { exists []. rewrite app_nil_r. split; [f_equal; set_solver|]. split; [constructor|]. set_solver. }
  destruct (decide (d ∈ vs)) as [Hd|Hd].
  - destruct (IH visiting vs Hin Hnd) as (new & E & Hn & H1 & H2). exists new.
    split; [done|]. split; [done|]. split; [set_solver|]. intros x [->|Hx]%elem_of_cons; auto.
  - destruct (IH (visiting ++ [d]) ({[d]} ∪ vs)) as (new & E & Hn & H1 & H2).
    { set_solver. }
    { apply list.NoDup_app. split; [done|]. split; [|apply list.NoDup_singleton]. set_solver. }
    exists (d :: new). rewrite E, <- app_assoc. split; [f_equal; set_solver|]. split.
    + constructor; [|done]. intros Hd'. apply H1 in Hd'. set_solver.
    + split; [set_solver|]. intros x [->|Hx]%elem_of_cons; [set_solver|]. apply H2 in Hx. set_solver.
Qed.

Lemma rotate_ok i q visited vs : loop_ok (i :: q) visited vs -> loop_ok (q ++ [i]) visited vs.
Proof.
  intros [H1 H2 H3 H4 H5 H6].
  assert ((i :: q) ++ visited ≡ₚ (q ++ [i]) ++ visited) as Hp by (by rewrite <- Permutation_cons_append).
  assert (forall j, j ∈ (q ++ [i]) ++ visited <-> j ∈ (i :: q) ++ visited) as He by (intros j; by rewrite Hp).
  constructor; try done.
  - by rewrite <- Hp.
  - intros j. by rewrite H2, He.
  - intros j. rewrite He. apply H3.
  - intros j n ? ? ?. apply He. by eapply H4.
  - intros j n d ? ? ?. apply He. by eapply H5.
Qed.

Lemma topological_snoc visited i : topological g visited -> ready visited i -> topological g (visited ++ [i]).
Proof.
  intros Ht Hr pre j suf n s E Hn Hs. destruct (decide (suf = [])) as [->|Hne].
  - apply app_inj_tail in E as [<- <-]. by eapply Hr.
  - destruct (exists_last Hne) as (suf' & x & ->). rewrite app_comm_cons, app_assoc in E.
    apply app_inj_tail in E as [-> _]. by eapply Ht.
Qed.

Lemma visit_ok i n q visited vs q' vs' :
  loop_ok (i :: q) visited vs -> store g !! i = Some n -> ready visited i ->
  queue_dsts (dstnodes n) q vs = (q', vs') -> loop_ok q' (visited ++ [i]) vs'.
Proof.
  intros [H1 H2 H3 H4 H5 H6] Hn Hr E.
  assert (i ∈ nodes_ g) as Hi by (apply H3; left).
  apply list.NoDup_app in H1 as (Hq & Hqv & Hv). apply list.NoDup_cons in Hq as [Hiq Hq].
  destruct (queue_dsts_Ok (dstnodes n) q vs) as (new & E' & Hnew & Hn1 & Hn2); [set_solver|done|].
  rewrite E' in E. injection E as <- <-.
  assert (forall j, j ∈ (q ++ new) ++ visited ++ [i] <-> j ∈ (i :: q) ++ visited \/ j ∈ new) as He
    by set_solver.
  constructor.
  - apply list.NoDup_app. split; [apply list.NoDup_app; split; [done|]; split; [set_solver|done]|].
    split; [set_solver|]. apply list.NoDup_app. split; [done|]. split; [set_solver|apply list.NoDup_singleton].
  - intros j. rewrite He, <- H2. set_solver.
  - intros j. rewrite He. intros [Hj|Hj]; [by apply H3|]. apply Hn1 in Hj as [_ Hj].
    by destruct (go_dst g Hg i n j Hi Hn Hj).
  - intros j m Hj Hm Hs. apply He. left. by eapply H4.
  - intros j m d Hj Hm Hd. apply He. apply elem_of_app in Hj as [Hj|Hj].
    + left. by eapply H5.
    + apply list_elem_of_singleton in Hj as ->. assert (m = n) as -> by congruence.
      rewrite <- H2. by apply Hn2.
  - by apply topological_snoc.
Qed.

Lemma nodup_length l : NoDup l -> (forall i, i ∈ l -> i ∈ nodes_ g) -> (length l <= length (nodes_ g))%nat.
Proof. intros Hl Hin. apply submseteq_length, NoDup_submseteq; [done|]. intros i. apply Hin. Qed.

(** What the loop gives. *)
Definition sorted (ns : list Z) : Prop := ns ≡ₚ nodes_ g /\ topological g ns.

Lemma loop_done visiting visited vs fuel :
  loop_ok visiting visited vs -> length visited = length (nodes_ g) ->
  exists ns, sort_loop (S fuel) visiting visited vs g = Ok ns /\ sorted ns.
Proof.
  intros [H1 _ H3 _ _ H6] Hl. pose proof (nodup_length _ H1 H3) as Hle. rewrite length_app in Hle.
  destruct visiting as [|i q]; [|simpl in Hle; lia]. exists visited. split; [done|]. split; [|done].
  apply submseteq_length_Permutation; [|lia]. apply NoDup_submseteq; [done|]. intros i. apply H3.
Qed.

(** The number [u] of nodes left, and the position of the first one that can be
    visited, bound the iterations. *)
Definition loop_returns (u : nat) : Prop := forall pre i suf visited vs fuel,
  loop_ok (pre ++ i :: suf) visited vs -> ready visited i ->
  length (nodes_ g) = (length visited + S u)%nat ->
  (length pre + 2 + u * length (nodes_ g) <= fuel)%nat ->
  exists ns, sort_loop fuel (pre ++ i :: suf) visited vs g = Ok ns /\ sorted ns.

(** Visiting the head of the queue. *)
Lemma loop_visit u i n q q' visited vs vs' fuel :
  (forall v, (v < u)%nat -> loop_returns v) ->
  loop_ok (i :: q) visited vs -> store g !! i = Some n -> ready visited i ->
  queue_dsts (dstnodes n) q vs = (q', vs') ->
  length (nodes_ g) = (length visited + S u)%nat -> (1 + u * length (nodes_ g) <= fuel)%nat ->
  exists ns, sort_loop fuel q' (visited ++ [i]) vs' g = Ok ns /\ sorted ns.
Proof.
  intros IHu Hl Hn Hr E HN Hf. pose proof (visit_ok _ _ _ _ _ _ _ Hl Hn Hr E) as Hl'.
  destruct u as [|u].
  { destruct fuel as [|fuel]; [lia|]. apply loop_done; [done|]. rewrite length_app. simpl. lia. }
  destruct (some_ready q' (visited ++ [i]) vs' Hl') as (j & Hj & Hrj).
  { destruct (decide (Forall (fun x => x ∈ visited ++ [i]) (nodes_ g))) as [Hall|Hex].
    - exfalso. rewrite list.Forall_forall in Hall.
      assert (length (nodes_ g) <= length (visited ++ [i]))%nat as Hle
        by (apply submseteq_length, NoDup_submseteq; [apply Hg|done]).
      rewrite length_app in Hle. simpl in Hle. lia.
    - apply not_Forall_Exists in Hex; [|apply _]. by apply list.Exists_exists in Hex. }
  apply list_elem_of_split in Hj as (pre & suf & ->).
  apply (IHu u); try done; [lia|rewrite length_app; simpl; lia|].
  pose proof (nodup_length _ (lk_nodup _ _ _ Hl') (lk_in _ _ _ Hl')) as Hle.
  rewrite !length_app in Hle. simpl in Hle. lia.
Qed.

Lemma sort_loop_Ok u : loop_returns u.
Proof.
  induction (lt_wf u) as [u _ IHu]. intros pre. remember (length pre) as m eqn:Hm. revert pre Hm.
  induction m as [|m IHm]; intros pre Hm i suf visited vs fuel Hl Hr HN Hf;
    (destruct fuel as [|fuel]; [lia|]);
    (destruct pre as [|j pre]; [|]); try discriminate Hm; cbn [app sort_loop] in *.
  - assert (i ∈ nodes_ g) as Hi by (apply (lk_in _ _ _ Hl); left).
    destruct (get_node_Ok i Hi) as (n & Hn & ->). rewrite bind_Ok.
    destruct (can_visit_Ok i n visited Hi Hn) as (b & -> & Hb). rewrite bind_Ok.
    rewrite (proj2 Hb Hr). destruct (queue_dsts (dstnodes n) suf vs) as [q' vs'] eqn:E.
    eapply (loop_visit u); try done. lia.
  - assert (j ∈ nodes_ g) as Hj by (apply (lk_in _ _ _ Hl); left).
    destruct (get_node_Ok j Hj) as (n & Hn & ->). rewrite bind_Ok.
    destruct (can_visit_Ok j n visited Hj Hn) as (b & -> & Hb). rewrite bind_Ok. destruct b.
    + destruct (queue_dsts (dstnodes n) (pre ++ i :: suf) vs) as [q' vs'] eqn:E.
      eapply (loop_visit u); try done; [by apply Hb|lia].
    + rewrite <- app_assoc. cbn [app]. apply IHm; try done; [simpl in Hm; lia| |simpl in Hf; lia].
      apply rotate_ok in Hl. by rewrite <- app_assoc in Hl.
Qed.

Lemma roots_Ok ns : NoDup ns -> (forall i, i ∈ ns -> i ∈ nodes_ g) ->
  exists rs, roots ns g = Ok rs /\ NoDup rs /\
    forall i, i ∈ rs <-> i ∈ ns /\ exists n, store g !! i = Some n /\ srcnodes n = [].
Proof.
  intros Hnd. induction Hnd as [|i ns Hi _ IH]; intros Hin; simpl.
  { exists []. split; [done|]. split; [constructor|]. intros i. rewrite elem_of_nil. by split; [|intros []]. }
  destruct (get_node_Ok i) as (n & Hn & ->); [apply Hin; left|]. rewrite bind_Ok.
  destruct IH as (rs & -> & Hrs & H); [intros j Hj; apply Hin; by right|]. rewrite bind_Ok.
  eexists. split; [done|]. destruct (decide (length (srcnodes n) = 0%nat)) as [Hl|Hl].
  - apply nil_length_inv in Hl. split.
    + constructor; [|done]. rewrite H. by intros [? _].
    + intros j. rewrite !elem_of_cons, H. split; [intros [->|[? ?]]; eauto|intros [[->|?] ?]; auto].
  - split; [done|]. intros j. rewrite elem_of_cons, H. split; [intros [? ?]; auto|].
    intros [[->|?] (m & Hm & Hs)]; [|eauto]. assert (m = n) as -> by congruence. by rewrite Hs in Hl.
Qed.

Lemma Sort_Ok : exists g', Sort g = Ok g' /\ store g' = store g /\ name2node_ g' = name2node_ g /\
  sorted (nodes_ g').
Proof.
  destruct (roots_Ok (nodes_ g) (go_nodup g Hg)) as (rs & E & Hrs & Hin); [done|].
  unfold Sort, Sort_fuel. rewrite E, bind_Ok.
  assert (loop_ok rs [] (list_to_set rs)) as Hl.
  { constructor; rewrite ?app_nil_r; try done.
    - intros i. apply elem_of_list_to_set.
    - intros i. rewrite Hin. by intros [? _].
    - intros i n Hi Hn Hs. apply Hin. eauto.
    - intros i n d Hi. by apply elem_of_nil in Hi.
    - intros pre i suf n s Hp. by destruct pre. }
  assert (exists ns, sort_loop (S (length (nodes_ g) * length (nodes_ g))) rs [] (list_to_set rs) g = Ok ns /\
    sorted ns) as (ns & -> & Hs).
  { destruct (decide (length (nodes_ g) = 0%nat)) as [H0|H0]; [by apply loop_done|].
    assert (exists i, i ∈ nodes_ g) as [i Hi].
    { destruct (nodes_ g) as [|i l]; [done|]. exists i. left. }
    destruct (some_ready rs [] (list_to_set rs) Hl) as (j & Hj & Hr).
    { exists i. split; [done|]. apply not_elem_of_nil. }
    apply list_elem_of_split in Hj as (pre & suf & ->).
    pose proof (nodup_length _ (lk_nodup _ _ _ Hl) (lk_in _ _ _ Hl)) as Hle.
    rewrite !length_app in Hle. simpl in Hle.
    apply (sort_loop_Ok (length (nodes_ g) - 1)); try done; [simpl; lia|].
    destruct (length (nodes_ g)) as [|k]; [lia|]. simpl. lia. }
  rewrite bind_Ok, (Permutation_length (proj1 Hs)), Z.eqb_refl. simpl CHECK. rewrite bind_Ok. eauto.
Qed.
End sort.

(** *** Deciding the hypotheses *)
Definition edge_check (g : Graph) (i : Z) (n : Node) (lt : Z -> Z -> bool) : bool :=
  forallb (fun s => bool_decide (s ∈ nodes_ g) && lt s i &&
    match store g !! s with Some m => bool_decide (i ∈ dstnodes m) | None => false end) (srcnodes n) &&
  forallb (fun d => bool_decide (d ∈ nodes_ g) &&
    match store g !! d with Some m => bool_decide (i ∈ srcnodes m) | None => false end) (dstnodes n) &&
  forallb (fun j => match store g !! j with
    | Some m => bool_decide (name m = name n -> j = i) | None => false end) (nodes_ g).
Definition graph_check (g : Graph) (lt : Z -> Z -> bool) : bool :=
  bool_decide (NoDup (nodes_ g)) &&
  forallb (fun i => match store g !! i with Some n => edge_check g i n lt | None => false end) (nodes_ g).

Lemma forallb_elem {A} (f : A -> bool) l x : forallb f l = true -> x ∈ l -> f x = true.
Proof. rewrite forallb_forall. intros H Hx. by apply H, list_elem_of_In. Qed.

Lemma graph_check_node g lt i : graph_check g lt = true -> i ∈ nodes_ g ->
  exists n, store g !! i = Some n /\ edge_check g i n lt = true.
Proof.
  intros [_ H]%andb_true_iff Hi. apply (forallb_elem _ _ i H) in Hi.
  destruct (store g !! i) as [n|]; [eauto|done].
Qed.

Lemma graph_check_ok g lt : graph_check g lt = true -> graph_ok g /\
  forall i n s, i ∈ nodes_ g -> store g !! i = Some n -> s ∈ srcnodes n -> lt s i = true.
Proof.
  intros H. pose proof (graph_check_node g lt) as Hn.
  assert (forall i n, i ∈ nodes_ g -> store g !! i = Some n -> edge_check g i n lt = true) as He.
  { intros i n Hi E. destruct (Hn i H Hi) as (n' & E' & ?). congruence. }
  assert (forall i n s, i ∈ nodes_ g -> store g !! i = Some n -> s ∈ srcnodes n ->
    s ∈ nodes_ g /\ lt s i = true /\ exists m, store g !! s = Some m /\ i ∈ dstnodes m) as Hs.
  { intros i n s Hi E Hs. apply He in E as [[E _]%andb_true_iff _]%andb_true_iff; [|done].
    apply (forallb_elem _ _ s E) in Hs. apply andb_true_iff in Hs as [[Hs Hr]%andb_true_iff Hm].
    apply bool_decide_eq_true in Hs.  split; [done|]. split; [done|].
    destruct (store g !! s) as [m|]; [|done]. apply bool_decide_eq_true in Hm. eauto. }
  split; [|intros i n s Hi E Hss; by destruct (Hs i n s Hi E Hss) as (_ & ? & _)].
  constructor.
  - apply andb_true_iff in H as [H _]. by apply bool_decide_eq_true in H.
  - intros i Hi. destruct (Hn i H Hi) as (n & -> & _). eauto.
  - intros i n s Hi E Hss. destruct (Hs i n s Hi E Hss) as (? & _ & ?). eauto.
  - intros i n d Hi E Hd. apply He in E as [[_ E]%andb_true_iff _]%andb_true_iff; [|done].
    apply (forallb_elem _ _ d E) in Hd. apply andb_true_iff in Hd as [Hd Hm].
    apply bool_decide_eq_true in Hd. split; [done|].
    destruct (store g !! d) as [m|]; [|done]. apply bool_decide_eq_true in Hm. eauto.
  - intros i j n m Hi Hj Ei Ej Hnm. apply He in Ej as [_ E]%andb_true_iff; [|done].
    apply (forallb_elem _ _ i E) in Hi. rewrite Ei in Hi. apply bool_decide_eq_true in Hi. auto.
Qed.

Lemma rank_check_ok g rank :
  graph_check g (fun s i => (rank s <? rank i)%nat) = true -> graph_ok g /\ acyclic g rank.
Proof.
  intros [Hg Hr]%graph_check_ok. split; [done|].
  intros i n s Hi E Hs. by apply Nat.ltb_lt, (Hr i n s).
Qed.

(** C32. [Sort] sorts topologically.  On a graph without cycles, whose edges are known
    at both ends and whose nodes have distinct names, it returns with the same nodes
    and edges, in an order in which every node comes after all its sources. *)
Theorem Sort_topological (g : Graph) (rank : Z -> nat) (Hg : graph_ok g) (Hac : acyclic g rank) :
  exists g', Sort g = Ok g' /\ store g' = store g /\ nodes_ g' ≡ₚ nodes_ g /\ topological g (nodes_ g').
Proof.
  destruct (Sort_Ok g rank Hg Hac) as (g' & E & Hs & _ & Hp & Ht). by exists g'.
Qed.

(** *** Witness: a diamond, its nodes added in the wrong order *)
Definition demo_diamond : outcome Graph :=
  let g := AddNode_name 3 "d" (AddNode_name 1 "b"
    (AddNode_name 0 "a" (AddNode_name 2 "c" Graph_new))) in
  g ← AddEdge_names "a" "b" g; g ← AddEdge_names "a" "c" g;
  g ← AddEdge_names "b" "d" g; AddEdge_names "c" "d" g.

Definition demo_graph (g : outcome Graph) : Graph := match g with Ok g => g | _ => Graph_new end.

Lemma Sort_topological_witness :
  let g := demo_graph demo_diamond in
  demo_diamond = Ok g /\ nodes_ g = [2; 0; 1; 3] /\ exists g', Sort g = Ok g' /\ topological g (nodes_ g').
Proof.
  intros g. split; [reflexivity|]. split; [reflexivity|].
  destruct (Sort_topological g Z.to_nat) as (g' & E & _ & _ & Ht).
  - apply (rank_check_ok g Z.to_nat). vm_compute. reflexivity.
  - apply (rank_check_ok g Z.to_nat). vm_compute. reflexivity.
  - exists g'. split; [exact E|exact Ht].
Defined.

(** ** Cycles *)
Definition demo_cycle : outcome Graph :=
  let g := AddNode_name 3 "c" (AddNode_name 2 "b"
    (AddNode_name 1 "a" (AddNode_name 0 "s" Graph_new))) in
  g ← AddEdge_names "s" "a" g; g ← AddEdge_names "a" "b" g;
  g ← AddEdge_names "b" "c" g; AddEdge_names "c" "a" g.

(** Once the source is visited, the node of the cycle behind it is queued again and
    again. *)
Lemma cycle_turns fuel : sort_loop fuel [1] [0] {[0; 1]} (demo_graph demo_cycle) = OutOfFuel.
Proof. induction fuel as [|fuel IH]; [reflexivity|exact IH]. Qed.

(** [Sort] does not return on a graph with a cycle of three nodes: the bi-directional
    edges it looks for are cycles of two. *)
Theorem Sort_cycle_diverges :
  let g := demo_graph demo_cycle in
  demo_cycle = Ok g /\ graph_ok g /\ forall fuel, Sort_fuel fuel g = OutOfFuel.
Proof.
  intros g. split; [reflexivity|]. split.
  { apply (graph_check_ok g (fun _ _ => true)). vm_compute. reflexivity. }
  intros [|[|fuel]]; [reflexivity..|]. unfold Sort_fuel.
  assert (roots (nodes_ g) g = Ok [0]) as -> by reflexivity. rewrite bind_Ok.
  pose proof (cycle_turns fuel) as H.
  assert (sort_loop (S (S fuel)) [0] [] (list_to_set [0]) g = OutOfFuel) as ->; [|reflexivity].
  exact H.
Qed.
