(* ===== verification/GraphEdit.v ===== *)
(** * Edits of a graph keep it well-formed

    A graph is described by its nodes, their names, and how many edges there are from
    a node to another ([edges]); in a well-formed graph both ends of an edge agree on
    that number.  [AddNode], [AddEdge] and [RemoveEdge] are specified by what they do
    to this description. *)

From S2P Require Import Prelude Graph GraphProps.

Definition count (j : Z) (l : list Z) : nat := count_occ Z.eq_dec l j.
Arguments count : simpl never.
Definition edges (g : Graph) (i j : Z) : nat :=
  match store g !! i with Some n => count j (dstnodes n) | None => 0%nat end.
Definition sources (g : Graph) (i j : Z) : nat :=
  match store g !! j with Some n => count i (srcnodes n) | None => 0%nat end.
Definition name_of (g : Graph) (i : Z) : option string := name <$> store g !! i.
Definition names_distinct (g : Graph) : Prop :=
  forall i j nm, i ∈ nodes_ g -> j ∈ nodes_ g -> name_of g i = Some nm -> name_of g j = Some nm -> i = j.

Record graph_wf (g : Graph) : Prop := {
  wf_nodup : NoDup (nodes_ g);
  wf_store i : i ∈ nodes_ g -> is_Some (store g !! i);
  wf_edges i j : edges g i j = sources g i j;
  wf_ends i j : edges g i j <> 0%nat -> i ∈ nodes_ g /\ j ∈ nodes_ g;
  wf_names : names_distinct g;
}.

(** [i1] is [i] and [j1] is [j]. *)
Definition at_edge (i j i1 j1 : Z) : nat := if decide (i1 = i /\ j1 = j) then 1%nat else 0%nat.
Definition same_nodes (g g' : Graph) : Prop :=
  nodes_ g' = nodes_ g /\ forall i, name_of g' i = name_of g i.
#[export] Instance same_nodes_preorder : PreOrder same_nodes.
Proof. split; [done|]. intros g1 g2 g3 [H1 H2] [H3 H4]. split; [congruence|]. intros i. by rewrite H4. Qed.

Lemma count_app j l k : count j (l ++ k) = (count j l + count j k)%nat.
Proof. apply count_occ_app. Qed.
Lemma count_in j l : j ∈ l <-> count j l <> 0%nat.
Proof. rewrite list_elem_of_In, (count_occ_In Z.eq_dec). unfold count. lia. Qed.
Lemma count_single j k : count j [k] = if decide (j = k) then 1%nat else 0%nat.
Proof. unfold count. simpl. destruct (Z.eq_dec k j), (decide (j = k)); congruence. Qed.
Lemma count_cons j k l : count j (k :: l) = (count j [k] + count j l)%nat.
Proof. apply (count_app j [k] l). Qed.

Lemma edge_dst g i j n : store g !! i = Some n -> (j ∈ dstnodes n <-> edges g i j <> 0%nat).
Proof. intros H. unfold edges. by rewrite H, count_in. Qed.
Lemma edge_src g i j n : store g !! j = Some n -> (i ∈ srcnodes n <-> sources g i j <> 0%nat).
Proof. intros H. unfold sources. by rewrite H, count_in. Qed.

(** A well-formed graph is one [Sort] can handle. *)
Lemma wf_graph_ok g : graph_wf g -> graph_ok g.
Proof.
  intros [H1 H2 H3 H4 H5]. constructor; try done.
  - intros i n s Hi Hn Hs. apply (edge_src g s i n Hn) in Hs. rewrite <- H3 in Hs.
    destruct (H4 _ _ Hs) as [Hsn _]. split; [done|]. destruct (H2 s Hsn) as [m Hm]. exists m.
    split; [done|]. by apply (edge_dst g s i m Hm).
  - intros i n d Hi Hn Hd. apply (edge_dst g i d n Hn) in Hd. pose proof (H4 _ _ Hd) as [_ Hdn].
    split; [done|]. destruct (H2 d Hdn) as [m Hm]. exists m. split; [done|].
    apply (edge_src g i d m Hm). by rewrite <- H3.
  - intros i j n m Hi Hj Hn Hm E. apply (H5 i j (name n)); [done|done| |]; unfold name_of.
    + by rewrite Hn.
    + by rewrite Hm, E.
Qed.

Definition increasing (g : Graph) (rank : Z -> nat) : Prop :=
  forall i j, edges g i j <> 0%nat -> (rank i < rank j)%nat.
Lemma increasing_acyclic g rank : graph_wf g -> increasing g rank -> acyclic g rank.
Proof.
  intros Hwf Hi i n s Hin Hn Hs. apply Hi. rewrite (wf_edges g Hwf). by apply (edge_src g s i n Hn).
Qed.

Lemma Graph_new_wf : graph_wf Graph_new.
Proof.
  constructor.
  - apply NoDup_nil_2.
  - intros i Hi. by apply elem_of_nil in Hi.
  - done.
  - done.
  - intros i j nm Hi. by apply elem_of_nil in Hi.
Qed.

(** ** AddNode *)
Lemma AddNode_wf g i n : graph_wf g -> i ∉ nodes_ g -> dstnodes n = [] -> srcnodes n = [] ->
  (forall j, j ∈ nodes_ g -> name_of g j <> Some (name n)) ->
  graph_wf (AddNode i n g) /\
  (forall a b, edges (AddNode i n g) a b = edges g a b) /\
  (forall j, name_of (AddNode i n g) j = if decide (j = i) then Some (name n) else name_of g j).
Proof.
  intros Hwf Hi Hd Hs Hn. pose proof (wf_ends g Hwf) as He.
  assert (forall a b, edges (AddNode i n g) a b = edges g a b) as Hedges.
  { intros a b. unfold edges at 1. simpl. destruct (decide (i = a)) as [<-|Hia].
    - rewrite lookup_insert_eq, Hd. simpl. destruct (edges g i b) eqn:E; [done|].
      destruct (He i b) as [? _]; [lia|done].
    - by rewrite lookup_insert_ne. }
  assert (forall a b, sources (AddNode i n g) a b = sources g a b) as Hsources.
  { intros a b. unfold sources at 1. simpl. destruct (decide (i = b)) as [<-|Hib].
    - rewrite lookup_insert_eq, Hs. simpl. rewrite <- (wf_edges g Hwf).
      destruct (edges g a i) eqn:E; [done|]. destruct (He a i) as [_ ?]; [lia|done].
    - by rewrite lookup_insert_ne. }
  assert (forall j, name_of (AddNode i n g) j = if decide (j = i) then Some (name n) else name_of g j) as Hname.
  { intros j. unfold name_of. simpl. destruct (decide (j = i)) as [->|Hj].
    - by rewrite lookup_insert_eq.
    - by rewrite lookup_insert_ne. }
  split; [|done]. constructor.
  - simpl. apply list.NoDup_app. split; [apply Hwf|]. split; [|apply list.NoDup_singleton].
    intros j Hj ->%list_elem_of_singleton. done.
  - intros j Hj. simpl in *. destruct (decide (i = j)) as [<-|Hij]; [by rewrite lookup_insert_eq|].
    rewrite lookup_insert_ne by done. apply (wf_store g Hwf).
    apply elem_of_app in Hj as [Hj|Hj%list_elem_of_singleton]; [done|by subst].
  - intros a b. by rewrite Hedges, Hsources, (wf_edges g Hwf).
  - intros a b Hab. rewrite Hedges in Hab. destruct (He a b Hab). simpl. split; apply elem_of_app; by left.
  - intros a b nm Ha Hb. rewrite !Hname. simpl in Ha, Hb.
    apply elem_of_app in Ha as [Ha|Ha%list_elem_of_singleton], Hb as [Hb|Hb%list_elem_of_singleton]; subst; try done.
    + rewrite !decide_False by (intros ->; done). by apply (wf_names g Hwf).
    + rewrite decide_False, decide_True by (done || by intros ->).
      intros E [= <-]. by destruct (Hn a Ha).
    + rewrite decide_True, decide_False by (done || by intros ->).
      intros [= <-] E. by destruct (Hn b Hb).
Qed.

(** A change of the edges keeps a graph well-formed. *)
Lemma wf_same g g' : graph_wf g -> same_nodes g g' -> (forall a b, edges g' a b = sources g' a b) ->
  (forall a b, edges g' a b <> 0%nat -> a ∈ nodes_ g /\ b ∈ nodes_ g) -> graph_wf g'.
Proof.
  intros [F1 F2 F3 F4 F5] [Hsn Hnm] He Hends. constructor; rewrite ?Hsn; try done.
  - intros i Hi. specialize (Hnm i). unfold name_of in Hnm. destruct (F2 i Hi) as [x Hx]. rewrite Hx in Hnm.
    destruct (store g' !! i); [eauto|done].
  - intros a b nm. rewrite Hsn, !Hnm. apply F5.
Qed.

(** ** AddEdge *)
Lemma AddEdge_wf g s d : graph_wf g -> s ∈ nodes_ g -> d ∈ nodes_ g ->
  exists g', AddEdge s d g = Ok g' /\ graph_wf g' /\ same_nodes g g' /\
    forall a b, edges g' a b = (edges g a b + at_edge s d a b)%nat.
Proof.
  intros Hwf Hs Hd. destruct (wf_store g Hwf s Hs) as [n Hn]. destruct (wf_store g Hwf d Hd) as [m Hm].
  unfold AddEdge, get_node. rewrite Hn, deref_Some, bind_Ok. simpl.
  assert (exists m', <[s := AddDstNode d n]> (store g) !! d = Some m' /\ srcnodes m' = srcnodes m /\
    name m' = name m /\ dstnodes m' = if decide (s = d) then dstnodes n ++ [d] else dstnodes m)
    as (m' & Hm' & Hms & Hmn & Hmd).
  { destruct (decide (s = d)) as [->|Hsd].
    - rewrite lookup_insert_eq. eexists. split; [done|]. assert (m = n) as -> by congruence. done.
    - rewrite lookup_insert_ne by done. by exists m. }
  rewrite Hm', deref_Some, bind_Ok. eexists. split; [done|].
  match goal with |- graph_wf ?h /\ _ => set (g' := h) end.
  assert (same_nodes g g') as [Hsn Hnm].
  { split; [done|]. intros i. unfold name_of, g'. simpl. destruct (decide (d = i)) as [<-|Hdi].
    - rewrite lookup_insert_eq. simpl. by rewrite Hmn, Hm.
    - rewrite lookup_insert_ne by done. destruct (decide (s = i)) as [<-|Hsi].
      + rewrite lookup_insert_eq. simpl. by rewrite Hn.
      + by rewrite lookup_insert_ne. }
  assert (forall a b, edges g' a b = (edges g a b + at_edge s d a b)%nat) as Hedges.
  { intros a b. unfold edges, g', at_edge. simpl. destruct (decide (d = a)) as [<-|Hda].
    - rewrite lookup_insert_eq. simpl. rewrite Hmd, Hm. destruct (decide (s = d)) as [->|Hsd].
      + assert (m = n) as -> by congruence. rewrite count_app, count_single.
        destruct (decide (b = d)), (decide (d = d /\ b = d)); naive_solver lia.
      + rewrite decide_False by naive_solver. lia.
    - rewrite lookup_insert_ne by done. destruct (decide (s = a)) as [<-|Hsa].
      + rewrite lookup_insert_eq, Hn. simpl. rewrite count_app, count_single.
        destruct (decide (b = d)), (decide (s = s /\ b = d)); naive_solver lia.
      + rewrite lookup_insert_ne by done. rewrite decide_False by naive_solver. lia. }
  assert (forall a b, sources g' a b = (sources g a b + at_edge s d a b)%nat) as Hsources.
  { intros a b. unfold sources, g', at_edge. simpl. destruct (decide (d = b)) as [<-|Hdb].
    - rewrite lookup_insert_eq, Hm. simpl. rewrite Hms, count_app, count_single.
      destruct (decide (a = s)), (decide (a = s /\ d = d)); naive_solver lia.
    - rewrite lookup_insert_ne by done. rewrite decide_False by naive_solver.
      destruct (decide (s = b)) as [<-|Hsb].
      + rewrite lookup_insert_eq, Hn. simpl. lia.
      + rewrite lookup_insert_ne by done. lia. }
  split; [|done]. apply (wf_same g); [done|done| |].
  - intros a b. by rewrite Hedges, Hsources, (wf_edges g Hwf).
  - intros a b. rewrite Hedges. unfold at_edge. destruct (decide (a = s /\ b = d)) as [[-> ->]|]; [done|].
    rewrite Nat.add_0_r. by apply wf_ends.
Qed.

(** ** RemoveEdge *)

(** Searching by name finds the node itself. *)
Lemma remove_named_Ok g d nm l : graph_wf g -> name_of g d = Some nm -> d ∈ nodes_ g ->
  (forall i, i ∈ l -> i ∈ nodes_ g) -> d ∈ l ->
  exists l', remove_named nm l g = Ok l' /\ forall j, count j l = (count j l' + count j [d])%nat.
Proof.
  intros Hwf Hnm Hd. induction l as [|i l IH]; intros Hin Hdl; [by apply elem_of_nil in Hdl|].
  assert (i ∈ nodes_ g) as Hi by (apply Hin; left).
  destruct (wf_store g Hwf i Hi) as [x Hx]. simpl. unfold get_node. rewrite Hx, deref_Some, bind_Ok.
  destruct (decide (name x = nm)) as [E|E].
  - assert (i = d) as Hid.
    { apply (wf_names g Hwf i d nm); try done. unfold name_of. by rewrite Hx, <- E. }
    subst i. exists l. split; [done|]. intros j. rewrite (count_cons j d l). lia.
  - apply elem_of_cons in Hdl as [->|Hdl].
    { destruct E. unfold name_of in Hnm. rewrite Hx in Hnm. by injection Hnm. }
    destruct IH as (l' & -> & Hl'); [|done|].
    { intros j Hj. apply Hin. by right. }
    rewrite bind_Ok. exists (i :: l'). split; [done|]. intros j. rewrite (count_cons j i l), (count_cons j i l'), Hl'. lia.
Qed.

(** The search reads only names. *)
Lemma remove_named_names g1 g : (forall i, name_of g1 i = name_of g i) ->
  forall nm l, remove_named nm l g1 = remove_named nm l g.
Proof.
  intros Hnm nm l. induction l as [|i l IH]; simpl; [done|]. unfold get_node. specialize (Hnm i).
  unfold name_of in Hnm. destruct (store g1 !! i) as [x|], (store g !! i) as [y|]; simpl in Hnm; try done.
  injection Hnm as Hxy. rewrite !deref_Some, !bind_Ok, Hxy, IH. done.
Qed.

(** Removing an edge that is there. *)
Lemma RemoveEdge_wf g s d : graph_wf g -> edges g s d <> 0%nat ->
  exists g', RemoveEdge s d g = Ok g' /\ graph_wf g' /\ same_nodes g g' /\
    forall a b, edges g a b = (edges g' a b + at_edge s d a b)%nat.
Proof.
  intros Hwf He. destruct (wf_ends g Hwf s d He) as [Hs Hd].
  destruct (wf_store g Hwf s Hs) as [n Hn]. destruct (wf_store g Hwf d Hd) as [m Hm].
  pose proof (wf_graph_ok g Hwf) as Hok.
  assert (name_of g s = Some (name n)) as Hns by (unfold name_of; by rewrite Hn).
  assert (name_of g d = Some (name m)) as Hnd by (unfold name_of; by rewrite Hm).
  destruct (remove_named_Ok g d (name m) (dstnodes n) Hwf Hnd Hd) as (l1 & E1 & H1).
  { intros i Hi. by destruct (go_dst g Hok s n i Hs Hn Hi). }
  { by apply (edge_dst g s d n Hn). }
  unfold RemoveEdge, RemoveDstNode, get_node. rewrite Hn, deref_Some, bind_Ok, Hm, deref_Some, bind_Ok, E1, !bind_Ok.
  set (g1 := put_node s _ g).
  assert (forall i, name_of g1 i = name_of g i) as Hnm1.
  { intros i. unfold name_of, g1. simpl. destruct (decide (s = i)) as [<-|Hsi].
    - rewrite lookup_insert_eq, Hn. done.
    - by rewrite lookup_insert_ne. }
  assert (exists m1, store g1 !! d = Some m1 /\ name m1 = name m /\ srcnodes m1 = srcnodes m /\
    dstnodes m1 = if decide (s = d) then l1 else dstnodes m) as (m1 & Hm1 & Hmn1 & Hms1 & Hmd1).
  { unfold g1. simpl. destruct (decide (s = d)) as [<-|Hsd].
    - rewrite lookup_insert_eq. eexists. split; [done|]. simpl. assert (m = n) as -> by congruence. done.
    - rewrite lookup_insert_ne by done. by exists m. }
  assert (exists n1, store g1 !! s = Some n1 /\ name n1 = name n) as (n1 & Hn1 & Hnn1).
  { unfold g1. simpl. rewrite lookup_insert_eq. eexists. by split. }
  pose proof (remove_named_names g1 g Hnm1) as Hsame.
  destruct (remove_named_Ok g s (name n) (srcnodes m) Hwf Hns Hs) as (l2 & E2 & H2).
  { intros i Hi. by destruct (go_src g Hok d m i Hd Hm Hi). }
  { apply (edge_src g s d m Hm). by rewrite <- (wf_edges g Hwf). }
  unfold RemoveSrcNode, get_node. rewrite Hm1, deref_Some, bind_Ok, Hn1, deref_Some, bind_Ok.
  rewrite Hsame, Hms1, Hnn1, E2, bind_Ok. eexists. split; [done|].
  match goal with |- graph_wf ?h /\ _ => set (g' := h) end.
  assert (same_nodes g g') as [Hsn Hnm].
  { split; [done|]. intros i. rewrite <- Hnm1. unfold name_of at 1, g'. cbn [store put_node].
    destruct (decide (d = i)) as [<-|Hdi].
    - rewrite lookup_insert_eq. unfold name_of. by rewrite Hm1.
    - by rewrite lookup_insert_ne. }
  assert (forall a b, edges g a b = (edges g' a b + at_edge s d a b)%nat) as Hedges.
  { intros a b. unfold edges, g', at_edge. simpl. destruct (decide (d = a)) as [<-|Hda].
    - rewrite lookup_insert_eq, Hm. simpl. rewrite Hmd1. destruct (decide (s = d)) as [->|Hsd].
      + assert (m = n) as -> by congruence. rewrite H1, count_single.
        destruct (decide (b = d)), (decide (d = d /\ b = d)); naive_solver lia.
      + rewrite decide_False by naive_solver. lia.
    - rewrite lookup_insert_ne by done. unfold g1. simpl. destruct (decide (s = a)) as [<-|Hsa].
      + rewrite lookup_insert_eq, Hn. simpl. rewrite H1, count_single.
        destruct (decide (b = d)), (decide (s = s /\ b = d)); naive_solver lia.
      + rewrite lookup_insert_ne by done. rewrite decide_False by naive_solver. lia. }
  assert (forall a b, sources g a b = (sources g' a b + at_edge s d a b)%nat) as Hsources.
  { intros a b. unfold sources, g', at_edge. simpl. destruct (decide (d = b)) as [<-|Hdb].
    - rewrite lookup_insert_eq, Hm. simpl. rewrite H2, count_single.
      destruct (decide (a = s)), (decide (a = s /\ d = d)); naive_solver lia.
    - rewrite lookup_insert_ne by done. rewrite decide_False by naive_solver. unfold g1. simpl.
      destruct (decide (s = b)) as [<-|Hsb].
      + rewrite lookup_insert_eq, Hn. simpl. lia.
      + rewrite lookup_insert_ne by done. lia. }
  split; [|done]. apply (wf_same g); [done|done| |].
  - intros a b. pose proof (wf_edges g Hwf a b) as F. rewrite Hedges, Hsources in F. lia.
  - intros a b Hab. apply (wf_ends g Hwf). rewrite Hedges. lia.
Qed.

(** Edges come and go.  In a well-formed graph [AddEdge] adds one edge between two
    nodes, [RemoveEdge] then takes it away again and leaves the graph with the same
    nodes, names and edges; both keep it well-formed. *)
Theorem AddEdge_RemoveEdge (g : Graph) (s d : Z) (Hwf : graph_wf g) (Hs : s ∈ nodes_ g) (Hd : d ∈ nodes_ g) :
  exists g1 g2, AddEdge s d g = Ok g1 /\ graph_wf g1 /\ edges g1 s d = S (edges g s d) /\
    RemoveEdge s d g1 = Ok g2 /\ graph_wf g2 /\ same_nodes g g2 /\
    forall a b, edges g2 a b = edges g a b.
Proof.
  destruct (AddEdge_wf g s d Hwf Hs Hd) as (g1 & E1 & Hwf1 & Hs1 & H1).
  assert (edges g1 s d = S (edges g s d)) as Hsd.
  { rewrite H1. unfold at_edge. rewrite decide_True by done. lia. }
  destruct (RemoveEdge_wf g1 s d Hwf1) as (g2 & E2 & Hwf2 & Hs2 & H2); [lia|].
  exists g1, g2. do 5 (split; [done|]). split; [by etrans|]. intros a b. specialize (H1 a b). specialize (H2 a b). lia.
Qed.

Lemma demo_graph_wf : graph_wf (AddNode_name 1 "b" (AddNode_name 0 "a" Graph_new)).
Proof.
  apply AddNode_wf; [apply AddNode_wf; [apply Graph_new_wf|apply not_elem_of_nil|reflexivity|reflexivity|]|..|]; try reflexivity.
  - intros j Hj. by apply elem_of_nil in Hj.
  - simpl. rewrite list_elem_of_singleton. done.
  - intros j Hj. apply list_elem_of_singleton in Hj as ->. vm_compute. discriminate.
Qed.

Lemma AddEdge_RemoveEdge_witness : exists g1 g2,
  AddEdge 0 1 (AddNode_name 1 "b" (AddNode_name 0 "a" Graph_new)) = Ok g1 /\ edges g1 0 1 = 1%nat /\
  RemoveEdge 0 1 g1 = Ok g2 /\ edges g2 0 1 = 0%nat.
Proof.
  destruct (AddEdge_RemoveEdge _ 0 1 demo_graph_wf) as (g1 & g2 & E1 & _ & H1 & E2 & _ & _ & H2).
  - left.
  - right. left.
  - exists g1, g2. split; [exact E1|]. split; [exact H1|]. split; [exact E2|exact (H2 0 1)].
Defined.
