(* ===== verification/DataShard.v ===== *)
(** * utils/data_shard.h, utils/data_shard.cc: the file of training tuples

    The file [shard.dat] is a list of bytes and the shard reads or writes it through a
    buffer of [capacity_] bytes.  A [std::string] is a list of bytes here, a [size_t] is
    8 bytes.  The stream [fdat_] keeps its position and its state bits; what the C
    library buffers is taken as written.  Tuples are written in [Insert] and [Flush],
    read in [Next_string], and the end of the complete tuples of an existing file is
    found in [PrepareForAppend]. *)

From S2P Require Import Prelude.

Definition kRead : Z := 0.
Definition kCreate : Z := 1.
Definition kAppend : Z := 2.

(** ** Streams on a file *)
Record fstream := mkStream {
  is_open : bool;
  readable : bool;
  writable : bool;
  fpos : Z;
  eofbit : bool;
  failbit : bool;  (* failbit or badbit *)
}.
Definition closed : fstream := mkStream false false false 0 false false.
Definition open_in : fstream := mkStream true true false 0 false false.
Definition open_out : fstream := mkStream true false true 0 false false.
Definition open_inout (pos : Z) : fstream := mkStream true true true pos false false.
Definition good (st : fstream) : bool := negb (eofbit st) && negb (failbit st).
Definition set_stream (pos : Z) (eof fail : bool) (st : fstream) : fstream :=
  mkStream (is_open st) (readable st) (writable st) pos eof fail.

(** [read(buf, n)]: the bytes read ([gcount] of them) and the stream. *)
Definition stream_read (n : Z) (file : list Z) (st : fstream) : list Z * fstream :=
  if good st then
    let got := if is_open st && readable st
               then take (Z.to_nat n) (drop (Z.to_nat (fpos st)) file) else [] in
    let short := Z.of_nat (length got) <? n in
    (got, set_stream (fpos st + Z.of_nat (length got)) short short st)
  else ([], set_stream (fpos st) (eofbit st) true st).
(** Writing past the end fills the hole with zeros. *)
Definition overwrite (file : list Z) (pos : nat) (bs : list Z) : list Z :=
  let f := file ++ replicate (pos - length file) 0 in
  take pos f ++ bs ++ drop (pos + length bs) f.
Definition stream_write (bs : list Z) (file : list Z) (st : fstream) : list Z * fstream :=
  if good st then
    if decide (bs = []) then (file, st)
    else if is_open st && writable st then
      (overwrite file (Z.to_nat (fpos st)) bs,
       set_stream (fpos st + Z.of_nat (length bs)) false false st)
    else (file, set_stream (fpos st) false true st)
  else (file, set_stream (fpos st) (eofbit st) true st).
(** [seekg(off, cur)] may go past the end of the file. *)
Definition stream_seekg (off : Z) (st : fstream) : fstream :=
  if failbit st then set_stream (fpos st) false true st
  else if fpos st + off <? 0 then set_stream (fpos st) false true st
  else set_stream (fpos st + off) false false st.

(** ** The buffer: bytes that are not initialised are [None] *)
Definition load (pos n : Z) (buf : list (option Z)) : outcome (list Z) :=
  if n <=? 0 then Ok []
  else if (0 <=? pos) && (pos + n <=? Z.of_nat (length buf)) then
    deref (mapM id (take (Z.to_nat n) (drop (Z.to_nat pos) buf)))
  else Undef.
Definition store (pos : Z) (bs : list Z) (buf : list (option Z)) : outcome (list (option Z)) :=
  if (0 <=? pos) && (pos + Z.of_nat (length bs) <=? Z.of_nat (length buf)) then
    Ok (take (Z.to_nat pos) buf ++ (Some <$> bs) ++ drop (Z.to_nat pos + length bs) buf)
  else Undef.
(** [*reinterpret_cast<size_t*>(buf_ + pos)] *)
Definition load_size (pos : Z) (buf : list (option Z)) : outcome Z :=
  bs ← load pos 8 buf; Ok (le_combine bs).
Definition size_bytes (n : nat) : list Z := le_split 8 (Z.of_nat n).

Record DataShard := mkShard {
  file : list Z;  (* the contents of path_ *)
  mode_ : Z;
  fdat_ : fstream;
  keys_ : gset (list Z);
  buf_ : list (option Z);
  offset_ : Z;
  capacity_ : Z;
  bufsize_ : Z;
}.
Definition set_buffer (b : list (option Z)) (off n : Z) (s : DataShard) : DataShard :=
  mkShard (file s) (mode_ s) (fdat_ s) (keys_ s) b off (capacity_ s) n.
Definition set_file (f : list Z) (st : fstream) (s : DataShard) : DataShard :=
  mkShard f (mode_ s) st (keys_ s) (buf_ s) (offset_ s) (capacity_ s) (bufsize_ s).

(** [std::string(buf)] for bytes ended by a 0. *)
Fixpoint c_string (bs : list Z) : list Z :=
  match bs with
  | [] => []
  | b :: bs => if b =? 0 then [] else b :: c_string bs
  end.

(** The loop of [PrepareForAppend], with its [char buf[256]]. *)
Fixpoint append_loop (fuel : nat) (f : list Z) (fin : fstream) (keys : gset (list Z)) (last : Z)
    : outcome (Z * gset (list Z)) :=
  match fuel with
  | O => OutOfFuel
  | S fuel =>
      let '(bs, fin) := stream_read 8 f fin in
      if negb (good fin) then Ok (last, keys) else
      let len := le_combine bs in
      if 256 <=? len then Undef else
      let '(key, fin) := stream_read len f fin in
      if negb (good fin) then Ok (last, keys) else
      let '(bs, fin) := stream_read 8 f fin in
      if negb (good fin) then Ok (last, keys) else
      let fin := stream_seekg (wrap64 (le_combine bs)) fin in
      if negb (good fin) then Ok (last, keys) else
      append_loop fuel f fin ({[c_string key]} ∪ keys) (wrap32 (fpos fin))
  end.
Definition PrepareForAppend (fuel : nat) (file : option (list Z)) : outcome (Z * gset (list Z)) :=
  match file with
  | None => Ok (0, ∅)
  | Some f => append_loop fuel f open_in ∅ 0
  end.

(** The constructor: [dir] tells whether the folder is there, [file] is the contents
    of its [shard.dat], if there is one. *)
Definition DataShard_open (fuel : nat) (dir : bool) (file : option (list Z)) (mode capacity : Z)
    : outcome DataShard :=
  _ ← CHECK dir;
  '(f, st, keys) ←
    if mode =? kRead then
      _ ← CHECK (bool_decide (is_Some file)); Ok (default [] file, open_in, ∅)
    else if mode =? kCreate then Ok ([], open_out, ∅)
    else if mode =? kAppend then
      '(last_tuple, keys) ← PrepareForAppend fuel file;
      _ ← CHECK (bool_decide (is_Some file));
      Ok (default [] file, open_inout last_tuple, keys)
    else Ok (default [] file, closed, ∅);
  if capacity <? 0 then Throw
  else Ok (mkShard f mode st keys (replicate (Z.to_nat capacity) None) 0 capacity 0).
(** The default is a buffer of 100 MB. *)
Definition DataShard_default (fuel : nat) (dir : bool) (file : option (list Z)) (mode : Z)
    : outcome DataShard :=
  DataShard_open fuel dir file mode 104857600.

(** ** Writing *)
Definition write_buffer (s : DataShard) : outcome DataShard :=
  bs ← load 0 (bufsize_ s) (buf_ s);
  let '(f, st) := stream_write bs (file s) (fdat_ s) in
  Ok (set_buffer (buf_ s) (offset_ s) 0 (set_file f st s)).
Definition Flush (s : DataShard) : outcome DataShard := write_buffer s.

(** A store to the buffer at [bufsize_], which moves behind it. *)
Definition append_bytes (bs : list Z) (s : DataShard) : outcome DataShard :=
  b ← store (bufsize_ s) bs (buf_ s);
  n ← int_ret (bufsize_ s + Z.of_nat (length bs));
  Ok (set_buffer b (offset_ s) n s).

Definition Insert (key val : list Z) (s : DataShard) : outcome (bool * DataShard) :=
  if bool_decide (key ∈ keys_ s) || (Z.of_nat (length val) =? 0) then Ok (false, s)
  else
    let size := wrap32 (Z.of_nat (length key) + Z.of_nat (length val) + 2 * 8) in
    e ← int_ret (bufsize_ s + size);
    s ← (if capacity_ s <? e then
           s ← write_buffer s; _ ← CHECK (size <=? capacity_ s); Ok s
         else Ok s);
    s ← append_bytes (size_bytes (length key)) s;
    s ← append_bytes key s;
    s ← append_bytes (size_bytes (length val)) s;
    s ← append_bytes val s;
    Ok (true, s).

(** ** Reading *)
Definition PrepareNextField (size : Z) (s : DataShard) : outcome (bool * DataShard) :=
  e ← int_ret (offset_ s + size);
  if bufsize_ s <? e then
    n ← int_ret (bufsize_ s - offset_ s);
    bs ← load (offset_ s) n (buf_ s);
    b ← store 0 bs (buf_ s);
    let s := set_buffer b 0 n s in
    if eofbit (fdat_ s) then Ok (false, s)
    else
      let '(got, st) := stream_read (capacity_ s - n) (file s) (fdat_ s) in
      b ← store n got b;
      let n := n + Z.of_nat (length got) in
      Ok (negb (n <? size), set_buffer b 0 n (set_file (file s) st s))
  else Ok (true, s).
Definition skip (n : Z) (s : DataShard) : outcome DataShard :=
  o ← int_ret (offset_ s + n); Ok (set_buffer (buf_ s) o (bufsize_ s) s).

(** [int Next(key)]: the key and the length of the value; 0 at the end. *)
Definition Next (s : DataShard) : outcome (list Z * Z * DataShard) :=
  '(b, s) ← PrepareNextField 8 s;
  if negb b then Ok ([], 0, s) else
  keylen ← load_size (offset_ s) (buf_ s);
  let keylen := wrap32 keylen in
  s ← skip 8 s;
  '(b, s) ← PrepareNextField keylen s;
  if negb b then Ok ([], 0, s) else
  key ← load (offset_ s) keylen (buf_ s);
  s ← skip keylen s;
  '(b, s) ← PrepareNextField 8 s;
  if negb b then Ok (key, 0, s) else
  vallen ← load_size (offset_ s) (buf_ s);
  let vallen := wrap32 vallen in
  s ← skip 8 s;
  '(b, s) ← PrepareNextField vallen s;
  if negb b then Ok (key, 0, s) else Ok (key, vallen, s).
(** [bool Next(key, val)] with a string; [None] is [false]. *)
Definition Next_string (s : DataShard) : outcome (option (list Z * list Z) * DataShard) :=
  '(key, vallen, s) ← Next s;
  if vallen =? 0 then Ok (None, s)
  else
    val ← load (offset_ s) vallen (buf_ s);
    s ← skip vallen s;
    Ok (Some (key, val), s).

Definition SeekToFirst (s : DataShard) : outcome DataShard :=
  _ ← CHECK (mode_ s =? kRead);
  Ok (set_buffer (buf_ s) 0 0 (set_file (file s) open_in s)).

(** ** Counting *)
Fixpoint count_loop (fuel : nat) (f : list Z) (fin : fstream) (count : Z) : outcome Z :=
  match fuel with
  | O => OutOfFuel
  | S fuel =>
      let '(bs, fin) := stream_read 8 f fin in
      if negb (good fin) then Ok count else
      let fin := stream_seekg (wrap64 (le_combine bs)) fin in
      if negb (good fin) then Ok count else
      let '(bs, fin) := stream_read 8 f fin in
      if negb (good fin) then Ok count else
      let fin := stream_seekg (wrap64 (le_combine bs)) fin in
      if negb (good fin) then Ok count else
      count ← int_ret (count + 1);
      count_loop fuel f fin count
  end.
Definition Count (fuel : nat) (s : DataShard) : outcome Z :=
  _ ← CHECK (is_open (fdat_ s));
  count_loop fuel (file s) open_in 0.
