(* ===== verification/DataShardProps.v ===== *)
(** * Properties of the shard files: what is inserted is read back *)

From S2P Require Import Prelude DataShard.

(** A tuple on disk: [key_len key record_len val], the lengths of 8 bytes each. *)
Definition enc (t : list Z * list Z) : list Z :=
  size_bytes (length t.1) ++ t.1 ++ size_bytes (length t.2) ++ t.2.
Definition encs (ts : list (list Z * list Z)) : list Z := concat (map enc ts).

Lemma length_size_bytes n : length (size_bytes n) = 8%nat.
Proof. apply length_le_split. Qed.
Lemma length_enc t : length (enc t) = (16 + length t.1 + length t.2)%nat.
Proof. unfold enc. rewrite !length_app, !length_size_bytes. lia. Qed.
Lemma encs_snoc ts t : encs (ts ++ [t]) = encs ts ++ enc t.
Proof. unfold encs. rewrite map_app, concat_app. simpl. by rewrite app_nil_r. Qed.
Lemma size_value n : Z.of_nat n <= INT_MAX -> le_combine (size_bytes n) = Z.of_nat n.
Proof. intros H. apply le_combine_split_small. unfold INT_MAX in H. lia. Qed.

(** ** The buffer *)

(** The bytes [bs] are in the buffer from [pos]. *)
Definition holds (buf : list (option Z)) (pos : Z) (bs : list Z) : Prop :=
  exists pre post, buf = pre ++ (Some <$> bs) ++ post /\ Z.of_nat (length pre) = pos.

Lemma holds_nil buf pos : 0 <= pos <= Z.of_nat (length buf) -> holds buf pos [].
Proof.
  intros H. exists (take (Z.to_nat pos) buf), (drop (Z.to_nat pos) buf).
  simpl. rewrite take_drop, length_take. split; [done|lia].
Qed.

Lemma holds_le buf pos bs : holds buf pos bs ->
  0 <= pos /\ pos + Z.of_nat (length bs) <= Z.of_nat (length buf).
Proof. intros (pre & post & -> & <-). rewrite !length_app, length_fmap. lia. Qed.

Lemma holds_app buf pos a b : holds buf pos (a ++ b) ->
  holds buf pos a /\ holds buf (pos + Z.of_nat (length a)) b.
Proof.
  intros (pre & post & -> & <-). rewrite fmap_app, <- app_assoc. split.
  - by exists pre, ((Some <$> b) ++ post).
  - exists (pre ++ (Some <$> a)), post. rewrite <- app_assoc, length_app, length_fmap.
    split; [done|lia].
Qed.

Lemma load_holds buf pos bs : holds buf pos bs ->
  load pos (Z.of_nat (length bs)) buf = Ok bs.
Proof.
  intros H. pose proof (holds_le _ _ _ H) as Hle. unfold load.
  destruct bs as [|x bs]; [done|]. remember (x :: bs) as l.
  rewrite (proj2 (Z.leb_gt _ _)) by (subst; simpl; lia).
  rewrite !(proj2 (Z.leb_le _ _)) by lia. simpl andb. cbv iota.
  destruct H as (pre & post & -> & <-).
  rewrite !Nat2Z.id, drop_app_length, take_app_length' by (by rewrite length_fmap).
  by rewrite mapM_fmap_Some by done.
Qed.

Lemma store_holds buf pos pre bs : holds buf 0 pre -> Z.of_nat (length pre) = pos ->
  pos + Z.of_nat (length bs) <= Z.of_nat (length buf) ->
  exists buf', store pos bs buf = Ok buf' /\ holds buf' 0 (pre ++ bs) /\ length buf' = length buf.
Proof.
  intros (p & post & -> & Hp) <- Hle. destruct p; [|done]. cbn [app] in *.
  unfold store. rewrite !(proj2 (Z.leb_le _ _)) by lia. simpl andb. cbv iota.
  rewrite length_app, length_fmap in Hle.
  eexists. split; [done|]. rewrite Nat2Z.id, take_app_length' by (by rewrite length_fmap).
  rewrite drop_app_ge by (rewrite length_fmap; lia). rewrite length_fmap.
  replace (length pre + length bs - length pre)%nat with (length bs) by lia. split.
  - exists [], (drop (length bs) post). rewrite fmap_app, <- app_assoc. done.
  - rewrite !length_app, !length_fmap, length_drop. lia.
Qed.

(** ** Reading *)

(** What the shard has left to read: the bytes of the buffer, then those of the file. *)
Record reading (s : DataShard) (pend rem : list Z) : Prop := {
  rd_buf : holds (buf_ s) (offset_ s) pend;
  rd_end : offset_ s + Z.of_nat (length pend) = bufsize_ s;
  rd_len : Z.of_nat (length (buf_ s)) = capacity_ s;
  rd_cap : 2 * capacity_ s <= INT_MAX;
  rd_open : is_open (fdat_ s) = true /\ readable (fdat_ s) = true;
  rd_bits : failbit (fdat_ s) = eofbit (fdat_ s);
  rd_pos : 0 <= fpos (fdat_ s);
  rd_eof : eofbit (fdat_ s) = true -> drop (Z.to_nat (fpos (fdat_ s))) (file s) = [];
  rd_rem : rem = pend ++ drop (Z.to_nat (fpos (fdat_ s))) (file s);
}.
(** The members reading leaves alone. *)
Definition same_shard (s s' : DataShard) : Prop :=
  file s' = file s /\ mode_ s' = mode_ s /\ keys_ s' = keys_ s /\ capacity_ s' = capacity_ s.
#[export] Instance same_shard_preorder : PreOrder same_shard.
Proof. split; [done|]. intros ? ? ? (?&?&?&?) (?&?&?&?). repeat split; congruence. Qed.

Lemma prep_step s pend rem n : reading s pend rem -> 0 <= n <= capacity_ s ->
  exists b s' pend', PrepareNextField n s = Ok (b, s') /\ reading s' pend' rem /\ same_shard s s' /\
    (b = true -> n <= Z.of_nat (length pend')) /\ (b = false -> Z.of_nat (length rem) < n).
Proof.
  intros [H1 H2 H3 H4 [H5 H5'] H6 H7 H8 H9] Hn.
  pose proof (holds_le _ _ _ H1) as Hle. unfold PrepareNextField.
  unfold INT_MAX in H4. rewrite (int_ret_Ok (offset_ s + n)), bind_Ok by (unfold INT_MIN, INT_MAX; lia).
  destruct (Z.ltb_spec (bufsize_ s) (offset_ s + n)) as [Hlt|Hge].
  2:{ exists true, s, pend. split; [done|]. split; [by constructor|]. split; [done|].
      split; [lia|done]. }
  rewrite int_ret_Ok, bind_Ok by (unfold INT_MIN, INT_MAX; lia).
  replace (bufsize_ s - offset_ s) with (Z.of_nat (length pend)) by lia.
  rewrite (load_holds _ _ _ H1), bind_Ok.
  destruct (store_holds (buf_ s) 0 [] pend) as (b & -> & Hb & Hbl); [apply holds_nil; lia|done|lia|].
  rewrite bind_Ok. cbn [app] in Hb. cbn zeta. change (fdat_ (set_buffer _ _ _ s)) with (fdat_ s).
  destruct (eofbit (fdat_ s)) eqn:Eeof.
  - exists false, (set_buffer b 0 (Z.of_nat (length pend)) s), pend. split; [done|]. split.
    { constructor; simpl; rewrite ?Hbl, ?Eeof; try done. }
    split; [done|]. split; [done|]. intros _. rewrite H9, (H8 eq_refl), app_nil_r. lia.
  - unfold stream_read, good. rewrite H6. simpl. rewrite Eeof, H5, H5'. simpl.
    set (got := take _ _).
    destruct (store_holds b (Z.of_nat (length pend)) pend got) as (b' & -> & Hb' & Hbl'); [done|done| |].
    { subst got. rewrite length_take. lia. }
    rewrite bind_Ok. eexists _, _, (pend ++ got). split; [done|].
    assert (Hgot : got ++ drop (length got) (drop (Z.to_nat (fpos (fdat_ s))) (file s)) =
      drop (Z.to_nat (fpos (fdat_ s))) (file s)).
    { subst got. rewrite length_take. set (d := drop _ (file s)).
      destruct (decide (Z.to_nat (capacity_ s - Z.of_nat (length pend)) <= length d)%nat).
      - rewrite Nat.min_l by done. apply take_drop.
      - rewrite Nat.min_r, drop_all, take_ge, app_nil_r by lia. done. }
    assert (Hdrop : drop (Z.to_nat (fpos (fdat_ s) + Z.of_nat (length got))) (file s) =
      drop (length got) (drop (Z.to_nat (fpos (fdat_ s))) (file s))).
    { rewrite drop_drop. f_equal. lia. }
    assert (Hshort : Z.of_nat (length got) < capacity_ s - Z.of_nat (length pend) ->
      drop (length got) (drop (Z.to_nat (fpos (fdat_ s))) (file s)) = []).
    { subst got. rewrite length_take. intros Hs. rewrite Nat.min_r by lia. by rewrite drop_all. }
    split; [|split; [done|split]].
    + constructor; simpl; rewrite ?length_app; try done; try lia.
      * intros Hs%Z.ltb_lt. by rewrite Hdrop, Hshort.
      * by rewrite Hdrop, <- app_assoc, Hgot.
    + rewrite length_app. intros Hc%negb_true_iff%Z.ltb_ge. lia.
    + intros Hc%negb_false_iff%Z.ltb_lt.
      rewrite H9, <- Hgot, !length_app.
      rewrite Hshort by lia. simpl. lia.
Qed.

(** A field of the remaining bytes: it is brought into the buffer, loaded and skipped. *)
Lemma field_Ok s bs rem pend : reading s pend (bs ++ rem) -> Z.of_nat (length bs) <= capacity_ s ->
  exists s1 s2 pend2, PrepareNextField (Z.of_nat (length bs)) s = Ok (true, s1) /\
    load (offset_ s1) (Z.of_nat (length bs)) (buf_ s1) = Ok bs /\
    skip (Z.of_nat (length bs)) s1 = Ok s2 /\ reading s2 pend2 rem /\ same_shard s s2.
Proof.
  intros H Hn. destruct (prep_step s pend _ (Z.of_nat (length bs)) H) as (b & s1 & pend1 & -> & H1 & Hs & Ht & Hf); [lia|].
  destruct b; [|rewrite length_app in Hf; specialize (Hf eq_refl); lia]. specialize (Ht eq_refl).
  destruct H1 as [H1 H2 H3 H4 H5 H6 H7 H8 H9].
  assert (exists pend2, pend1 = bs ++ pend2) as [pend2 ->].
  { exists (drop (length bs) pend1). rewrite <- (take_drop (length bs) pend1) at 1. f_equal.
    apply (f_equal (take (length bs))) in H9. rewrite take_app_length, take_app_le in H9 by lia. done. }
  rewrite <- app_assoc in H9. apply app_inv_head in H9.
  destruct (holds_app _ _ _ _ H1) as [Ha Hb]. pose proof (holds_le _ _ _ H1) as Hle.
  rewrite length_app in *. unfold skip.
  exists s1. eexists. exists pend2. split; [done|]. split; [by apply load_holds|].
  unfold INT_MAX in H4.
  split; [rewrite int_ret_Ok, bind_Ok; [done|unfold INT_MIN, INT_MAX; lia]|].
  split; [|done]. constructor; simpl; try done; lia.
Qed.

(** A length field. *)
Lemma size_field_Ok s n rem pend : reading s pend (size_bytes n ++ rem) -> 8 <= capacity_ s ->
  Z.of_nat n <= INT_MAX ->
  exists s1 s2 pend2, PrepareNextField 8 s = Ok (true, s1) /\
    load_size (offset_ s1) (buf_ s1) = Ok (Z.of_nat n) /\
    skip 8 s1 = Ok s2 /\ reading s2 pend2 rem /\ same_shard s s2.
Proof.
  intros H Hc Hn. destruct (field_Ok s (size_bytes n) rem pend H) as (s1 & s2 & pend2 & H1 & H2 & H3 & H4).
  { by rewrite length_size_bytes. }
  rewrite length_size_bytes in *. change (Z.of_nat 8) with 8 in *. exists s1, s2, pend2. split; [done|]. split; [|done].
  unfold load_size. by rewrite H2, bind_Ok, size_value.
Qed.

Lemma prep_end s rem pend n : reading s pend rem -> Z.of_nat (length rem) < n <= capacity_ s ->
  exists s' pend', PrepareNextField n s = Ok (false, s') /\ reading s' pend' rem /\ same_shard s s'.
Proof.
  intros H Hn. destruct (prep_step s pend rem n H) as (b & s' & pend' & E & Hr & Hs & Ht & _); [lia|].
  destruct b; [|eauto]. specialize (Ht eq_refl). rewrite (rd_rem _ _ _ Hr), length_app in Hn. lia.
Qed.

Lemma app_cut (rem tl a b : list Z) : rem ++ tl = a ++ b -> (length a <= length rem)%nat ->
  exists rem', rem = a ++ rem' /\ rem' ++ tl = b.
Proof.
  intros H Hl. exists (drop (length a) rem).
  assert (rem = a ++ drop (length a) rem) as Hr.
  { rewrite <- (take_drop (length a) rem) at 1. f_equal.
    apply (f_equal (take (length a))) in H. rewrite take_app_length, take_app_le in H by done. done. }
  split; [done|]. rewrite Hr, <- app_assoc in H. by apply app_inv_head in H.
Qed.

Section tuple.
Context (k v : list Z) (cap : Z).
Hypotheses (Hk : Z.of_nat (length k) <= cap) (Hv : Z.of_nat (length v) <= cap)
  (H8 : 8 <= cap) (Hcap : cap <= INT_MAX).

Lemma Next_string_Ok s pend rem : capacity_ s = cap -> v <> [] -> reading s pend (enc (k, v) ++ rem) ->
  exists s' pend', Next_string s = Ok (Some (k, v), s') /\ reading s' pend' rem /\ same_shard s s'.
Proof.
  intros <- Hne H. unfold enc in H. rewrite <- !app_assoc in H. simpl in H.
  destruct (size_field_Ok _ _ _ _ H) as (s1 & s2 & p2 & E1 & E2 & E3 & H2 & Hs2); [done|lia|].
  destruct (field_Ok _ _ _ _ H2) as (s3 & s4 & p4 & E4 & E5 & E6 & H4 & Hs4).
  { by rewrite (proj2 (proj2 (proj2 Hs2))). }
  assert (Hs04 : same_shard s s4) by (by etrans). pose proof Hs04 as (_ & _ & _ & Hc4).
  destruct (size_field_Ok _ _ _ _ H4) as (s5 & s6 & p6 & E7 & E8 & E9 & H6 & Hs6); [lia|lia|].
  assert (Hs06 : same_shard s s6) by (by etrans). pose proof Hs06 as (_ & _ & _ & Hc6).
  destruct (field_Ok _ _ _ _ H6) as (s7 & s8 & p8 & E10 & E11 & E12 & Hr8 & Hs8); [lia|].
  exists s8, p8. split; [|split; [done|by etrans]]. unfold INT_MAX in *.
  unfold Next_string, Next.
  repeat (rewrite ?E1, ?E2, ?E3, ?E4, ?E5, ?E6, ?E7, ?E8, ?E9, ?E10, ?E11, ?E12, ?bind_Ok,
    ?wrap32_id by (unfold INT_MIN, INT_MAX; lia); cbn [negb]; cbv zeta).
  destruct (Z.eqb_spec (Z.of_nat (length v)) 0); [destruct v; [done|simpl in *; lia]|].
  done.
Qed.

(** Only part of a tuple is left: the call fails in the field that is cut. *)
Lemma Next_string_cut s pend rem tl : capacity_ s = cap -> v <> [] -> tl <> [] ->
  rem ++ tl = enc (k, v) -> reading s pend rem ->
  exists s' pend' rem', Next_string s = Ok (None, s') /\ reading s' pend' rem' /\ same_shard s s'.
Proof.
  intros <- Hne Htl Hcut H. unfold enc in Hcut. simpl in Hcut. unfold Next_string, Next.
  unfold INT_MAX in *.
  destruct (decide (Z.of_nat (length rem) < 8)) as [Hl|Hl].
  { destruct (prep_end s rem pend 8 H) as (s' & p' & -> & Hr & Hs); [lia|]. eauto 10. }
  destruct (app_cut rem tl (size_bytes (length k)) _ Hcut) as (rem1 & -> & Hcut1).
  { rewrite length_size_bytes. lia. }
  destruct (size_field_Ok _ _ _ _ H) as (s1 & s2 & p2 & -> & E2 & E3 & H2 & Hs2); [done|unfold INT_MAX; lia|].
  rewrite bind_Ok. cbn [negb]. rewrite E2, bind_Ok, wrap32_id, E3, bind_Ok by (unfold INT_MIN, INT_MAX; lia).
  pose proof Hs2 as (_ & _ & _ & Hc2).
  destruct (decide (length rem1 < length k)%nat) as [Hl1|Hl1].
  { destruct (prep_end s2 rem1 p2 (Z.of_nat (length k)) H2) as (s' & p' & -> & Hr & Hs); [lia|].
    rewrite bind_Ok. eexists s', p', _. split; [done|]. split; [done|by etrans]. }
  destruct (app_cut rem1 tl k _ Hcut1) as (rem2 & -> & Hcut2); [lia|].
  destruct (field_Ok _ _ _ _ H2) as (s3 & s4 & p4 & -> & E5 & E6 & H4 & Hs4); [lia|].
  rewrite bind_Ok. cbn [negb]. rewrite E5, bind_Ok, E6, bind_Ok.
  assert (Hs04 : same_shard s s4) by (by etrans). pose proof Hs04 as (_ & _ & _ & Hc4).
  destruct (decide (Z.of_nat (length rem2) < 8)) as [Hl2|Hl2].
  { destruct (prep_end s4 rem2 p4 8 H4) as (s' & p' & -> & Hr & Hs); [lia|].
    rewrite bind_Ok. eexists s', p', _. split; [done|]. split; [done|by etrans]. }
  destruct (app_cut rem2 tl (size_bytes (length v)) _ Hcut2) as (rem3 & -> & Hcut3).
  { rewrite length_size_bytes. lia. }
  destruct (size_field_Ok _ _ _ _ H4) as (s5 & s6 & p6 & -> & E8 & E9 & H6 & Hs6); [lia|unfold INT_MAX; lia|].
  rewrite bind_Ok. cbn [negb]. rewrite E8, bind_Ok, wrap32_id, E9, bind_Ok by (unfold INT_MIN, INT_MAX; lia).
  assert (Hs06 : same_shard s s6) by (by etrans). pose proof Hs06 as (_ & _ & _ & Hc6).
  destruct (prep_end s6 rem3 p6 (Z.of_nat (length v)) H6) as (s' & p' & -> & Hr & Hs).
  { apply (f_equal length) in Hcut3. rewrite length_app in Hcut3. destruct tl; [done|]. simpl in Hcut3. lia. }
  rewrite bind_Ok. eexists s', p', _. split; [done|]. split; [done|by etrans].
Qed.
End tuple.

(** ** Writing *)

(** The shard writes at the end of the file; [pend] is what is still in the buffer. *)
Record writing (s : DataShard) (pend : list Z) : Prop := {
  wr_stream : fdat_ s = mkStream true (readable (fdat_ s)) true (Z.of_nat (length (file s))) false false;
  wr_buf : holds (buf_ s) 0 pend;
  wr_size : bufsize_ s = Z.of_nat (length pend);
  wr_len : Z.of_nat (length (buf_ s)) = capacity_ s;
  wr_cap : 2 * capacity_ s <= INT_MAX;
}.
Definition same_keys (s s' : DataShard) : Prop := keys_ s' = keys_ s /\ capacity_ s' = capacity_ s.

Lemma overwrite_end f bs : overwrite f (length f) bs = f ++ bs.
Proof.
  unfold overwrite. rewrite Nat.sub_diag. simpl. rewrite app_nil_r, take_ge, drop_ge, app_nil_r by lia. done.
Qed.

Lemma write_buffer_Ok s pend : writing s pend ->
  exists s', write_buffer s = Ok s' /\ writing s' [] /\ file s' = file s ++ pend /\ same_keys s s'.
Proof.
  intros [H1 H2 H3 H4 H5]. unfold write_buffer. rewrite H3, (load_holds _ _ _ H2), bind_Ok.
  unfold stream_write. rewrite H1. simpl.
  destruct (decide (pend = [])) as [->|Hne]; (eexists; split; [done|]).
  - split; [|split; [by rewrite app_nil_r|done]]. constructor; simpl; try done.
  - rewrite Nat2Z.id, overwrite_end. split; [|done].
    constructor; simpl; try done; [|apply holds_nil; lia].
    unfold set_stream. simpl. rewrite length_app. f_equal. lia.
Qed.

Lemma append_bytes_Ok s pend bs : writing s pend ->
  bufsize_ s + Z.of_nat (length bs) <= capacity_ s ->
  exists s', append_bytes bs s = Ok s' /\ writing s' (pend ++ bs) /\ file s' = file s /\ same_keys s s' /\
    bufsize_ s' = bufsize_ s + Z.of_nat (length bs).
Proof.
  intros [H1 H2 H3 H4 H5] Hle. unfold append_bytes.
  destruct (store_holds (buf_ s) (bufsize_ s) pend bs) as (b & -> & Hb & Hl); [done|done|lia|].
  rewrite bind_Ok, int_ret_Ok, bind_Ok by (unfold INT_MIN, INT_MAX in *; lia).
  eexists. split; [done|]. split; [|done]. constructor; simpl; try done.
  - rewrite length_app. lia.
  - by rewrite Hl.
Qed.

Lemma Insert_Ok s pend k v : writing s pend -> k ∉ keys_ s -> v <> [] ->
  Z.of_nat (length (enc (k, v))) <= capacity_ s ->
  exists s' pend', Insert k v s = Ok (true, s') /\ writing s' pend' /\
    file s' ++ pend' = file s ++ pend ++ enc (k, v) /\ same_keys s s'.
Proof.
  intros Hw Hk Hv Hc. rewrite length_enc in Hc. simpl in Hc. unfold Insert.
  rewrite bool_decide_eq_false_2 by done. simpl.
  destruct (Z.eqb_spec (Z.of_nat (length v)) 0); [destruct v; [done|simpl in *; lia]|].
  pose proof (wr_cap _ _ Hw) as Hcap. pose proof (wr_size _ _ Hw) as Hsz.
  pose proof (holds_le _ _ _ (wr_buf _ _ Hw)) as Hle. pose proof (wr_len _ _ Hw) as Hlen.
  unfold INT_MAX in Hcap.
  rewrite wrap32_id, int_ret_Ok, bind_Ok by (unfold INT_MIN, INT_MAX; lia).
  assert (exists s0 p0, (if capacity_ s <? bufsize_ s + (Z.of_nat (length k) + Z.of_nat (length v) + 2 * 8)
    then s ← write_buffer s; _ ← CHECK (Z.of_nat (length k) + Z.of_nat (length v) + 2 * 8 <=? capacity_ s); Ok s
    else Ok s) = Ok s0 /\ writing s0 p0 /\ file s0 ++ p0 = file s ++ pend /\ same_keys s s0 /\
    bufsize_ s0 + (Z.of_nat (length k) + Z.of_nat (length v) + 2 * 8) <= capacity_ s)
    as (s0 & p0 & -> & Hw0 & Hf0 & [Hk0 Hc0] & Hroom).
  { destruct (Z.ltb_spec (capacity_ s) (bufsize_ s + (Z.of_nat (length k) + Z.of_nat (length v) + 2 * 8))).
    - destruct (write_buffer_Ok s pend Hw) as (s0 & -> & Hw0 & Hf0 & Hs0). rewrite bind_Ok.
      rewrite (proj2 (Z.leb_le _ _)) by (rewrite (proj2 Hs0); lia).
      exists s0, []. rewrite app_nil_r, (wr_size _ _ Hw0). simpl length.
      split; [done|]. split; [done|]. split; [done|]. split; [done|]. lia.
    - exists s, pend. split; [done|]. split; [done|]. split; [done|]. split; [done|]. lia. }
  rewrite bind_Ok.
  destruct (append_bytes_Ok s0 p0 (size_bytes (length k)) Hw0) as (s1 & -> & Hw1 & Hf1 & [Hk1 Hc1] & Hb1);
    rewrite ?length_size_bytes in *; [lia|].
  destruct (append_bytes_Ok s1 _ k Hw1) as (s2 & E2 & Hw2 & Hf2 & [Hk2 Hc2] & Hb2); [lia|].
  destruct (append_bytes_Ok s2 _ (size_bytes (length v)) Hw2) as (s3 & E3 & Hw3 & Hf3 & [Hk3 Hc3] & Hb3);
    rewrite ?length_size_bytes in *; [lia|].
  destruct (append_bytes_Ok s3 _ v Hw3) as (s4 & E4 & Hw4 & Hf4 & [Hk4 Hc4] & Hb4); [lia|].
  rewrite bind_Ok, E2, bind_Ok, E3, bind_Ok, E4, bind_Ok. eexists _, _. split; [done|]. split; [done|]. split.
  - rewrite Hf4, Hf3, Hf2, Hf1. unfold enc. cbn [fst snd]. rewrite !app_assoc, Hf0. done.
  - split; congruence.
Qed.

Lemma Insert_false s k v : k ∈ keys_ s \/ v = [] -> Insert k v s = Ok (false, s).
Proof.
  intros [H| ->]; unfold Insert.
  - by rewrite bool_decide_eq_true_2.
  - by rewrite orb_true_r.
Qed.

Lemma Insert_large s pend k v : writing s pend -> k ∉ keys_ s -> v <> [] ->
  capacity_ s < Z.of_nat (length (enc (k, v))) -> Z.of_nat (length (enc (k, v))) + capacity_ s <= INT_MAX ->
  Insert k v s = Fatal.
Proof.
  intros Hw Hk Hv Hc Hi. rewrite length_enc in *. simpl in *. unfold Insert.
  rewrite bool_decide_eq_false_2 by done. simpl.
  destruct (Z.eqb_spec (Z.of_nat (length v)) 0); [destruct v; [done|simpl in *; lia]|].
  pose proof (wr_size _ _ Hw) as Hsz. pose proof (holds_le _ _ _ (wr_buf _ _ Hw)) as Hle.
  pose proof (wr_len _ _ Hw) as Hlen. unfold INT_MAX in Hi.
  rewrite wrap32_id, int_ret_Ok, bind_Ok by (unfold INT_MIN, INT_MAX; lia).
  rewrite (proj2 (Z.ltb_lt _ _)) by lia.
  destruct (write_buffer_Ok s pend Hw) as (s0 & -> & _ & _ & [_ Hc0]). rewrite bind_Ok, Hc0.
  by rewrite (proj2 (Z.leb_gt _ _)) by lia.
Qed.

(** ** Scanning a file: [PrepareForAppend] and [Count] *)
Definition at_pos (p : Z) : fstream := mkStream true true false p false false.

Lemma stream_read_Ok a bs c :
  stream_read (Z.of_nat (length bs)) (a ++ bs ++ c) (at_pos (Z.of_nat (length a))) =
  (bs, at_pos (Z.of_nat (length (a ++ bs)))).
Proof.
  unfold stream_read. simpl. rewrite !Nat2Z.id, drop_app_length, take_app_length.
  by rewrite Z.ltb_irrefl, length_app, Nat2Z.inj_add.
Qed.

Lemma stream_read_short a c n : Z.of_nat (length c) < n ->
  stream_read n (a ++ c) (at_pos (Z.of_nat (length a))) =
  (c, mkStream true true false (Z.of_nat (length (a ++ c))) true true).
Proof.
  intros Hn. unfold stream_read. simpl. rewrite Nat2Z.id, drop_app_length, take_ge by lia.
  rewrite (proj2 (Z.ltb_lt _ _)) by done. by rewrite length_app, Nat2Z.inj_add.
Qed.

Lemma stream_seekg_Ok p n : 0 <= p -> 0 <= n -> stream_seekg n (at_pos p) = at_pos (p + n).
Proof. intros Hp Hn. unfold stream_seekg. simpl. by rewrite (proj2 (Z.ltb_ge _ _)) by lia. Qed.

Lemma wrap64_id z : 0 <= z < 2 ^ 63 -> wrap64 z = z.
Proof. intros H. unfold wrap64. rewrite Z.mod_small; lia. Qed.

(** Tuples a scan can handle: short keys without a zero byte. *)
Definition scannable (t : list Z * list Z) : Prop :=
  Z.of_nat (length t.1) < 256 /\ Z.of_nat (length t.2) <= INT_MAX /\ 0 ∉ t.1.
Definition keys_of (ts : list (list Z * list Z)) : gset (list Z) := list_to_set (map fst ts).

Lemma c_string_id k : 0 ∉ k -> c_string k = k.
Proof.
  induction k as [|b k IH]; [done|]. rewrite not_elem_of_cons. intros [Hb Hk]. simpl.
  destruct (Z.eqb_spec b 0); [by subst|]. by rewrite IH.
Qed.

(** Reading a length field. *)
Lemma read_size_Ok a n c : Z.of_nat n <= INT_MAX ->
  stream_read 8 (a ++ size_bytes n ++ c) (at_pos (Z.of_nat (length a))) =
  (size_bytes n, at_pos (Z.of_nat (length (a ++ size_bytes n)))).
Proof. intros Hn. rewrite <- stream_read_Ok with (c := c). by rewrite length_size_bytes. Qed.

Section scan.
Context (t : list Z * list Z) (Ht : scannable t).

(** One turn of [append_loop] over a tuple of which only a part of the value may be
    there. *)
Lemma append_turn fuel a c keys last : Z.of_nat (length a + length (enc t)) <= INT_MAX ->
  append_loop (S fuel) (a ++ (size_bytes (length t.1) ++ t.1 ++ size_bytes (length t.2)) ++ c)
    (at_pos (Z.of_nat (length a))) keys last =
  append_loop fuel (a ++ (size_bytes (length t.1) ++ t.1 ++ size_bytes (length t.2)) ++ c)
    (at_pos (Z.of_nat (length a + length (enc t))))
    ({[t.1]} ∪ keys) (Z.of_nat (length a + length (enc t))).
Proof.
  intros Hmax. destruct Ht as (Hk & Hv & H0). rewrite length_enc in *. unfold INT_MAX in *.
  cbn [append_loop]. rewrite <- (app_assoc (size_bytes (length t.1))), read_size_Ok by (unfold INT_MAX; lia).
  cbn [good at_pos eofbit failbit negb andb]. rewrite size_value by (unfold INT_MAX; lia).
  rewrite (proj2 (Z.leb_gt 256 _)) by done.
  rewrite <- (app_assoc t.1), (app_assoc a), stream_read_Ok.
  cbn [good at_pos eofbit failbit negb andb].
  rewrite (app_assoc (a ++ _) t.1), read_size_Ok by (unfold INT_MAX; lia).
  cbn [good at_pos eofbit failbit negb andb]. rewrite size_value, wrap64_id by (unfold INT_MAX; lia).
  rewrite stream_seekg_Ok by lia. cbn [good at_pos eofbit failbit negb andb fpos].
  rewrite c_string_id by done. rewrite !length_app, !length_size_bytes, <- !app_assoc.
  unfold at_pos. cbn [fpos]. rewrite wrap32_id by (unfold INT_MIN, INT_MAX; lia).
  do 2 f_equal; f_equal; lia.
Qed.

(** Nothing but a part of the lengths and the key is left. *)
Lemma append_stop fuel a cut tl keys last :
  cut ++ tl = enc t -> (length cut < 16 + length t.1)%nat ->
  append_loop (S fuel) (a ++ cut) (at_pos (Z.of_nat (length a))) keys last = Ok (last, keys).
Proof.
  intros Hcut Hl. destruct Ht as (Hk & Hv & H0). unfold enc in Hcut. cbn [append_loop]. unfold INT_MAX in *.
  destruct (decide (length cut < 8)%nat) as [H8|H8].
  { by rewrite stream_read_short by lia. }
  destruct (app_cut _ _ _ _ Hcut) as (c1 & -> & Hcut1); [by rewrite length_size_bytes; lia|].
  rewrite read_size_Ok by (unfold INT_MAX; lia).
  cbn [good at_pos eofbit failbit negb andb]. rewrite size_value by (unfold INT_MAX; lia).
  rewrite (proj2 (Z.leb_gt 256 _)) by done.
  rewrite length_app, length_size_bytes in Hl. rewrite app_assoc.
  destruct (decide (length c1 < length t.1)%nat) as [Hl1|Hl1].
  { by rewrite stream_read_short by lia. }
  destruct (app_cut _ _ _ _ Hcut1) as (c2 & -> & Hcut2); [lia|].
  rewrite stream_read_Ok. cbn [good at_pos eofbit failbit negb andb].
  rewrite length_app in Hl. rewrite app_assoc. by rewrite stream_read_short by lia.
Qed.

Lemma count_turn fuel a c count :
  0 <= count -> count + 1 <= INT_MAX ->
  count_loop (S fuel) (a ++ (size_bytes (length t.1) ++ t.1 ++ size_bytes (length t.2)) ++ c)
    (at_pos (Z.of_nat (length a))) count =
  count_loop fuel (a ++ (size_bytes (length t.1) ++ t.1 ++ size_bytes (length t.2)) ++ c)
    (at_pos (Z.of_nat (length a + length (enc t)))) (count + 1).
Proof.
  intros H0 Hmax. destruct Ht as (Hk & Hv & _). rewrite length_enc. unfold INT_MAX in *.
  cbn [count_loop]. rewrite <- (app_assoc (size_bytes (length t.1))), read_size_Ok by (unfold INT_MAX; lia).
  cbn [good at_pos eofbit failbit negb andb]. rewrite size_value, wrap64_id by (unfold INT_MAX; lia).
  rewrite stream_seekg_Ok by lia. cbn [good at_pos eofbit failbit negb andb].
  rewrite <- (app_assoc t.1), (app_assoc a), (app_assoc (a ++ _) t.1).
  rewrite <- Nat2Z.inj_add, <- length_app, read_size_Ok by (unfold INT_MAX; lia).
  cbn [good at_pos eofbit failbit negb andb]. rewrite size_value, wrap64_id by (unfold INT_MAX; lia).
  rewrite stream_seekg_Ok by lia. cbn [good at_pos eofbit failbit negb andb].
  rewrite int_ret_Ok, bind_Ok by (unfold INT_MIN, INT_MAX; lia).
  rewrite !length_app, !length_size_bytes, <- !app_assoc. do 2 f_equal. lia.
Qed.

Lemma count_stop fuel a cut tl count :
  cut ++ tl = enc t -> (length cut < 16 + length t.1)%nat ->
  count_loop (S fuel) (a ++ cut) (at_pos (Z.of_nat (length a))) count = Ok count.
Proof.
  intros Hcut Hl. destruct Ht as (Hk & Hv & H0). unfold enc in Hcut. cbn [count_loop]. unfold INT_MAX in *.
  destruct (decide (length cut < 8)%nat) as [H8|H8].
  { by rewrite stream_read_short by lia. }
  destruct (app_cut _ _ _ _ Hcut) as (c1 & -> & Hcut1); [by rewrite length_size_bytes; lia|].
  rewrite read_size_Ok by (unfold INT_MAX; lia).
  cbn [good at_pos eofbit failbit negb andb]. rewrite size_value, wrap64_id by (unfold INT_MAX; lia).
  rewrite stream_seekg_Ok by lia. cbn [good at_pos eofbit failbit negb andb].
  rewrite length_app, length_size_bytes in Hl. rewrite app_assoc.
  unfold stream_read. cbn [good at_pos eofbit failbit negb andb is_open readable fpos].
  rewrite (proj2 (Z.ltb_lt _ 8)); [done|]. rewrite length_take, length_drop, !length_app, length_size_bytes. lia.
Qed.
End scan.

(** A read from behind the end. *)
Lemma read_behind f p : Z.of_nat (length f) <= p ->
  stream_read 8 f (at_pos p) = ([], mkStream true true false p true true).
Proof.
  intros H. unfold stream_read. simpl. rewrite drop_ge, take_nil by lia. simpl. by rewrite Z.add_0_r.
Qed.

Lemma enc_split t : enc t = (size_bytes (length t.1) ++ t.1 ++ size_bytes (length t.2)) ++ t.2.
Proof. unfold enc. by rewrite <- !app_assoc. Qed.

Lemma append_loop_encs ts : Forall scannable ts -> forall fuel a c keys,
  Z.of_nat (length (a ++ encs ts)) <= INT_MAX ->
  append_loop (length ts + fuel) (a ++ encs ts ++ c) (at_pos (Z.of_nat (length a))) keys (Z.of_nat (length a)) =
  append_loop fuel (a ++ encs ts ++ c) (at_pos (Z.of_nat (length (a ++ encs ts)))) (keys_of ts ∪ keys)
    (Z.of_nat (length (a ++ encs ts))).
Proof.
  induction 1 as [|t ts Ht _ IH]; intros fuel a c keys Hmax.
  { unfold encs, keys_of. simpl. by rewrite app_nil_r, union_empty_l_L. }
  change (encs (t :: ts)) with (enc t ++ encs ts) in *. rewrite <- app_assoc.
  cbn [length Nat.add]. rewrite enc_split at 1. rewrite <- (app_assoc _ t.2), append_turn; [|done|].
  2:{ rewrite !length_app in Hmax. lia. }
  rewrite (app_assoc _ t.2), <- enc_split, <- length_app, (app_assoc a), IH by (by rewrite <- app_assoc).
  rewrite <- !app_assoc. f_equal. unfold keys_of. set_solver.
Qed.

Lemma count_loop_encs ts : Forall scannable ts -> forall fuel a c count, 0 <= count ->
  count + Z.of_nat (length ts) <= INT_MAX ->
  count_loop (length ts + fuel) (a ++ encs ts ++ c) (at_pos (Z.of_nat (length a))) count =
  count_loop fuel (a ++ encs ts ++ c) (at_pos (Z.of_nat (length (a ++ encs ts)))) (count + Z.of_nat (length ts)).
Proof.
  induction 1 as [|t ts Ht _ IH]; intros fuel a c count H0 Hmax.
  { unfold encs. simpl. by rewrite app_nil_r, Z.add_0_r. }
  change (encs (t :: ts)) with (enc t ++ encs ts) in *. rewrite <- app_assoc. simpl length in Hmax.
  cbn [length Nat.add]. rewrite enc_split at 1. rewrite <- (app_assoc _ t.2), count_turn; [|done|lia|lia].
  rewrite (app_assoc _ t.2), <- enc_split, <- length_app, (app_assoc a), IH by lia.
  rewrite <- !app_assoc. f_equal. lia.
Qed.

(** ** Sequences of calls *)
Fixpoint insert_all (ts : list (list Z * list Z)) (s : DataShard) : outcome (list bool * DataShard) :=
  match ts with
  | [] => Ok ([], s)
  | t :: ts => '(b, s) ← Insert t.1 t.2 s; '(bs, s) ← insert_all ts s; Ok (b :: bs, s)
  end.
Fixpoint next_all (n : nat) (s : DataShard) : outcome (list (option (list Z * list Z)) * DataShard) :=
  match n with
  | O => Ok ([], s)
  | S n => '(o, s) ← Next_string s; '(os, s) ← next_all n s; Ok (o :: os, s)
  end.

(** A tuple a buffer of [cap] bytes can hold when writing, and when reading. *)
Definition writable_tuple (cap : Z) (t : list Z * list Z) : Prop :=
  t.2 <> [] /\ Z.of_nat (length (enc t)) <= cap.
Definition readable_tuple (cap : Z) (t : list Z * list Z) : Prop :=
  t.2 <> [] /\ Z.of_nat (length t.1) <= cap /\ Z.of_nat (length t.2) <= cap.

Lemma insert_all_Ok ts : forall s pend, writing s pend -> Forall (writable_tuple (capacity_ s)) ts ->
  Forall (fun t => t.1 ∉ keys_ s) ts ->
  exists s' pend', insert_all ts s = Ok (replicate (length ts) true, s') /\ writing s' pend' /\
    file s' ++ pend' = file s ++ pend ++ encs ts /\ same_keys s s'.
Proof.
  induction ts as [|t ts IH]; intros s pend Hw Ht Hk.
  { exists s, pend. unfold encs. simpl. by rewrite app_nil_r. }
  apply list.Forall_cons in Ht as [[Hv Hl] Ht]. apply list.Forall_cons in Hk as [Hkt Hk].
  destruct (Insert_Ok s pend t.1 t.2 Hw) as (s1 & p1 & E1 & Hw1 & Hf1 & [Hk1 Hc1]); [done|done|by destruct t|].
  destruct (IH s1 p1) as (s2 & p2 & E2 & Hw2 & Hf2 & [Hk2 Hc2]); [done|by rewrite Hc1|by rewrite Hk1|].
  exists s2, p2. split; [|split; [done|split; [|split; congruence]]].
  - simpl. by rewrite E1, bind_Ok, E2, bind_Ok.
  - rewrite Hf2, app_assoc, Hf1. change (encs (t :: ts)) with (enc t ++ encs ts).
    rewrite <- !app_assoc. by destruct t.
Qed.

Lemma next_all_Ok ts cut tl t : forall s pend, reading s pend (encs ts ++ cut) -> 8 <= capacity_ s ->
  Forall (readable_tuple (capacity_ s)) (ts ++ [t]) -> cut ++ tl = enc t -> tl <> [] ->
  exists s' pend' rem', next_all (S (length ts)) s = Ok (map Some ts ++ [None], s') /\
    reading s' pend' rem' /\ same_shard s s'.
Proof.
  induction ts as [|u ts IH]; intros s pend Hr H8 Ht Hcut Htl;
    pose proof (rd_cap _ _ _ Hr) as Hcap; simpl app in Ht; apply list.Forall_cons in Ht as [(Hv & Hk & Hl) Ht].
  - destruct t as [k v]. destruct (Next_string_cut k v (capacity_ s) Hk Hl H8) with (s := s) (pend := pend)
      (rem := cut) (tl := tl) as (s' & p' & r' & E & Hr' & Hs'); [lia|done|done|done|done|done|].
    exists s', p', r'. simpl. by rewrite E, bind_Ok.
  - change (encs (u :: ts)) with (enc u ++ encs ts) in Hr. rewrite <- app_assoc in Hr. destruct u as [k v].
    destruct (Next_string_Ok k v (capacity_ s) Hk Hl H8) with (s := s) (pend := pend) (rem := encs ts ++ cut)
      as (s1 & p1 & E1 & Hr1 & Hs1); [lia|done|done|done|].
    pose proof Hs1 as (_ & _ & _ & Hc1).
    destruct (IH s1 p1) as (s2 & p2 & r2 & E2 & Hr2 & Hs2); [done|lia|by rewrite Hc1|done|done|].
    exists s2, p2, r2. split; [|split; [done|by etrans]].
    cbn [length next_all map app]. rewrite E1, bind_Ok.
    cbn [length next_all] in E2. by rewrite E2, bind_Ok.
Qed.

Lemma open_Create fuel old cap : 0 <= cap -> 2 * cap <= INT_MAX ->
  exists s, DataShard_open fuel true old kCreate cap = Ok s /\ writing s [] /\ file s = [] /\
    keys_ s = ∅ /\ capacity_ s = cap.
Proof.
  intros H0 H2. unfold DataShard_open. simpl. rewrite (proj2 (Z.ltb_ge _ _)) by done.
  eexists. split; [done|]. split; [|done]. constructor; simpl; try done.
  - apply holds_nil. lia.
  - rewrite length_replicate. lia.
Qed.

Lemma open_Read fuel f cap : 0 <= cap -> 2 * cap <= INT_MAX ->
  exists s, DataShard_open fuel true (Some f) kRead cap = Ok s /\ reading s [] f /\
    capacity_ s = cap /\ mode_ s = kRead /\ file s = f.
Proof.
  intros H0 H2. unfold DataShard_open. simpl. rewrite (proj2 (Z.ltb_ge _ _)) by done.
  eexists. split; [done|]. split; [|done]. constructor; simpl; try done.
  - apply holds_nil. lia.
  - rewrite length_replicate. lia.
Qed.

Lemma SeekToFirst_Ok s pend rem : reading s pend rem -> mode_ s = kRead ->
  exists s', SeekToFirst s = Ok s' /\ reading s' [] (file s) /\ same_shard s s'.
Proof.
  intros [H1 H2 H3 H4 H5 H6 H7 H8 H9] Hm. unfold SeekToFirst. rewrite Hm, Z.eqb_refl. simpl.
  eexists. split; [done|]. split; [|done]. pose proof (holds_le _ _ _ H1).
  constructor; simpl; try done. apply holds_nil. lia.
Qed.

(** C31. The shard round trip.  Tuples with values and with different keys, that fit the
    buffers, are all accepted by a new shard, and once flushed are read back in order,
    unchanged, by a shard with any other buffer size; then [Next] says that there are no
    more.  The shard that wrote them does not remember their keys, against its
    documentation: another tuple with one of these keys is accepted as well. *)
Theorem Insert_Next_roundtrip (ts : list (list Z * list Z)) (old : option (list Z)) (cap cap' : Z) (fuel : nat)
    (Hcap : 0 <= cap) (Hcap2 : 2 * cap <= INT_MAX) (Hw : Forall (writable_tuple cap) ts) (Hkeys : NoDup ts.*1)
    (Hcap' : 8 <= cap') (Hcap2' : 2 * cap' <= INT_MAX) (Hr : Forall (readable_tuple cap') ts) :
  exists w s s' r r',
    DataShard_open fuel true old kCreate cap = Ok w /\
    insert_all ts w = Ok (replicate (length ts) true, s) /\ Flush s = Ok s' /\
    DataShard_open fuel true (Some (file s')) kRead cap' = Ok r /\
    next_all (S (length ts)) r = Ok (map Some ts ++ [None], r') /\
    (forall k v, k ∈ ts.*1 -> writable_tuple cap (k, v) ->
       exists s1 s2, Insert k v s = Ok (true, s1) /\ Flush s1 = Ok s2 /\ file s2 = encs (ts ++ [(k, v)])).
Proof.
  destruct (open_Create fuel old cap Hcap Hcap2) as (w & Ew & Hww & Hfw & Hkw & Hcw).
  destruct (insert_all_Ok ts w [] Hww) as (s & p & Es & Hws & Hfs & [Hks Hcs]).
  { by rewrite Hcw. }
  { apply list.Forall_forall. intros t _. rewrite Hkw. set_solver. }
  destruct (write_buffer_Ok s p Hws) as (s' & Es' & _ & Hfs' & _).
  destruct (open_Read fuel (file s') cap') as (r & Er & Hrr & Hcr & _ & _); [lia|done|].
  destruct (next_all_Ok ts [] (enc ([], [0])) ([], [0]) r []) as (r' & _ & _ & En & _ & _);
    [|lia| |done|done|].
  - rewrite Hfs', Hfs, Hfw in Hrr. by rewrite app_nil_r.
  - rewrite Hcr. apply Forall_app. split; [done|]. repeat constructor; simpl; lia || done.
  - exists w, s, s', r, r'. split_and!; [done..|]. intros k v _ [Hv Hl].
    destruct (Insert_Ok s p k v Hws) as (s1 & p1 & E1 & Hw1 & Hf1 & _); [rewrite Hks, Hkw; set_solver|done|by rewrite Hcs, Hcw|].
    destruct (write_buffer_Ok s1 p1 Hw1) as (s2 & E2 & _ & Hf2 & _). exists s1, s2. split_and!; [done..|].
    rewrite Hf2, Hf1, app_assoc, Hfs, Hfw. unfold encs. rewrite map_app, concat_app. simpl. by rewrite app_nil_r.
Qed.

(** Reading after a crash.  From a file whose last tuple was cut short anywhere,
    [Next] gives the complete tuples and then fails; after [SeekToFirst] it gives
    them again. *)
Theorem Next_cut_tuple (ts : list (list Z * list Z)) (t : list Z * list Z) (cut tl : list Z) (cap : Z) (fuel : nat)
    (Hcap : 8 <= cap) (Hcap2 : 2 * cap <= INT_MAX) (Hr : Forall (readable_tuple cap) (ts ++ [t]))
    (Hcut : cut ++ tl = enc t) (Htl : tl <> []) :
  exists r r' r2 r3,
    DataShard_open fuel true (Some (encs ts ++ cut)) kRead cap = Ok r /\
    next_all (S (length ts)) r = Ok (map Some ts ++ [None], r') /\
    SeekToFirst r' = Ok r2 /\
    next_all (S (length ts)) r2 = Ok (map Some ts ++ [None], r3).
Proof.
  destruct (open_Read fuel (encs ts ++ cut) cap) as (r & Er & Hrr & <- & Hm & Hf); [lia|done|].
  destruct (next_all_Ok ts cut tl t r [] Hrr Hcap Hr Hcut Htl) as (r' & p' & m' & En & Hr' & (Hf' & Hm' & _ & Hc')).
  destruct (SeekToFirst_Ok r' p' m' Hr') as (r2 & E2 & Hr2 & (_ & _ & _ & Hc2)); [by rewrite Hm'|].
  destruct (next_all_Ok ts cut tl t r2 []) as (r3 & _ & _ & E3 & _); try done.
  - by rewrite <- Hf, <- Hf'.
  - lia.
  - by rewrite Hc2, Hc'.
  - by exists r, r', r2, r3.
Qed.

(** ** Appending *)
Lemma PrepareForAppend_Ok ts t cut tl fuel :
  Forall scannable (ts ++ [t]) -> cut ++ tl = enc t -> (length cut < 16 + length t.1)%nat ->
  Z.of_nat (length (encs ts)) <= INT_MAX ->
  PrepareForAppend (length ts + S fuel) (Some (encs ts ++ cut)) =
    Ok (Z.of_nat (length (encs ts)), keys_of ts).
Proof.
  intros [Hts Ht]%Forall_app Hcut Hl Hmax. rewrite list.Forall_singleton in Ht.
  unfold PrepareForAppend. change open_in with (at_pos (Z.of_nat (length (@nil Z)))).
  pose proof (append_loop_encs ts Hts (S fuel) [] cut ∅ Hmax) as H. simpl app in H. simpl length in H at 2.
  etrans; [exact H|].
  rewrite (append_stop t Ht fuel (encs ts) cut tl _ _ Hcut Hl). by rewrite union_empty_r_L.
Qed.

Lemma cut_in_value (t : list Z * list Z) cut tl : cut ++ tl = enc t -> (16 + length t.1 <= length cut)%nat ->
  exists v1, cut = (size_bytes (length t.1) ++ t.1 ++ size_bytes (length t.2)) ++ v1 /\ v1 ++ tl = t.2.
Proof.
  intros Hcut Hl. rewrite enc_split in Hcut. apply app_cut in Hcut; [done|].
  rewrite !length_app, !length_size_bytes. lia.
Qed.

Lemma behind_cut (ts : list (list Z * list Z)) (t : list Z * list Z) cut tl : cut ++ tl = enc t ->
  Z.of_nat (length (encs ts ++ cut)) <= Z.of_nat (length (encs ts) + length (enc t)).
Proof. intros <-. rewrite !length_app. lia. Qed.

(** [PrepareForAppend] finds the end of the complete tuples and their keys when the
    last tuple was cut in its lengths or its key.  One cut in its value is taken for
    complete: its key is kept, and the offset is behind the end of the file. *)
Theorem PrepareForAppend_spec (ts : list (list Z * list Z)) (t : list Z * list Z) (cut tl : list Z) (fuel : nat)
    (Hts : Forall scannable (ts ++ [t])) (Hcut : cut ++ tl = enc t)
    (Hmax : Z.of_nat (length (encs (ts ++ [t]))) <= INT_MAX) :
  PrepareForAppend (length ts + S (S fuel)) (Some (encs ts ++ cut)) =
    if decide (length cut < 16 + length t.1)%nat
    then Ok (Z.of_nat (length (encs ts)), keys_of ts)
    else Ok (Z.of_nat (length (encs (ts ++ [t]))), keys_of (ts ++ [t])).
Proof.
  rewrite encs_snoc, length_app in *. destruct (decide _) as [Hl|Hl].
  - eapply PrepareForAppend_Ok; try done. lia.
  - apply Forall_app in Hts as [Hts Ht]. rewrite list.Forall_singleton in Ht.
    destruct (cut_in_value t cut tl Hcut) as (v1 & Hc & _); [lia|].
    pose proof (behind_cut ts t cut tl Hcut) as Hb. unfold PrepareForAppend.
    assert (Hmax' : Z.of_nat (length ([] ++ encs ts)) <= INT_MAX) by (simpl; lia).
    etrans; [exact (append_loop_encs ts Hts (S (S fuel)) [] cut ∅ Hmax')|]. simpl app.
    rewrite Hc, append_turn by done. rewrite <- Hc. cbn [append_loop]. rewrite read_behind by done. simpl.
    do 2 f_equal. unfold keys_of. rewrite map_app. set_solver.
Qed.

Lemma open_Append ts cap fuel : Forall scannable ts -> Z.of_nat (length (encs ts)) <= INT_MAX ->
  0 <= cap -> 2 * cap <= INT_MAX -> (length ts < fuel)%nat ->
  exists s, DataShard_open fuel true (Some (encs ts)) kAppend cap = Ok s /\ writing s [] /\
    file s = encs ts /\ keys_ s = keys_of ts /\ capacity_ s = cap.
Proof.
  intros Hts Hmax H0 H2 Hf. unfold DataShard_open. simpl CHECK. rewrite bind_Ok.
  change (kAppend =? kRead) with false. change (kAppend =? kCreate) with false.
  change (kAppend =? kAppend) with true. cbv iota.
  assert (PrepareForAppend fuel (Some (encs ts)) = Ok (Z.of_nat (length (encs ts)), keys_of ts)) as ->.
  { pose proof (PrepareForAppend_Ok ts ([], []) [] (enc ([], [])) (fuel - S (length ts))) as H.
    rewrite app_nil_r in H. replace (length ts + S (fuel - S (length ts)))%nat with fuel in H by lia.
    apply H; [|done|simpl; lia|done]. apply Forall_app. split; [done|]. apply list.Forall_singleton. split; [simpl; lia|]. split; [simpl; unfold INT_MAX; lia|].
    apply not_elem_of_nil. }
  rewrite bind_Ok. simpl. rewrite (proj2 (Z.ltb_ge _ _)) by done.
  eexists. split; [done|]. split; [|done]. constructor; simpl; try done.
  - apply holds_nil. lia.
  - rewrite length_replicate. lia.
Qed.

(** Appending to a file of complete tuples: a tuple with a key of the file is
    refused, the others come behind those of the file. *)
Theorem Append_spec (ts new : list (list Z * list Z)) (cap : Z) (fuel : nat)
    (Hts : Forall scannable ts) (Hmax : Z.of_nat (length (encs ts)) <= INT_MAX)
    (Hcap : 0 <= cap) (Hcap2 : 2 * cap <= INT_MAX) (Hfuel : (length ts < fuel)%nat)
    (Hnew : Forall (writable_tuple cap) new) (Hkeys : Forall (fun t => t.1 ∉ map fst ts) new) :
  exists a s s', DataShard_open fuel true (Some (encs ts)) kAppend cap = Ok a /\
    (forall t v, t ∈ ts -> Insert t.1 v a = Ok (false, a)) /\
    insert_all new a = Ok (replicate (length new) true, s) /\ Flush s = Ok s' /\
    file s' = encs (ts ++ new).
Proof.
  destruct (open_Append ts cap fuel Hts Hmax Hcap Hcap2 Hfuel) as (a & Ea & Hw & Hf & Hk & Hc).
  destruct (insert_all_Ok new a [] Hw) as (s & p & Es & Hws & Hfs & _).
  { by rewrite Hc. }
  { eapply list.Forall_impl; [exact Hkeys|]. intros t Ht. rewrite Hk. unfold keys_of.
    by rewrite elem_of_list_to_set. }
  destruct (write_buffer_Ok s p Hws) as (s' & Es' & _ & Hf' & _).
  exists a, s, s'. split; [done|]. split.
  { intros t v Ht. apply Insert_false. left. rewrite Hk. unfold keys_of. apply elem_of_list_to_set.
    by apply list_elem_of_fmap_2. }
  split; [done|]. split; [done|]. rewrite Hf', Hfs, Hf. unfold encs. by rewrite map_app, concat_app.
Qed.

(** [Count] counts the complete tuples, and one more when the last one is cut in
    its value. *)
Theorem Count_spec (ts : list (list Z * list Z)) (t : list Z * list Z) (cut tl : list Z) (s : DataShard) (fuel : nat)
    (Hts : Forall scannable (ts ++ [t])) (Hcut : cut ++ tl = enc t) (Hf : file s = encs ts ++ cut)
    (Hopen : is_open (fdat_ s) = true) (Hmax : Z.of_nat (length ts) < INT_MAX) :
  Count (length ts + S (S fuel)) s =
    Ok (Z.of_nat (length ts) + if decide (length cut < 16 + length t.1)%nat then 0 else 1).
Proof.
  unfold Count. rewrite Hopen, Hf. simpl CHECK. rewrite bind_Ok.
  apply Forall_app in Hts as [Hts Ht]. rewrite list.Forall_singleton in Ht.
  etrans; [exact (count_loop_encs ts Hts (S (S fuel)) [] cut 0 ltac:(lia) ltac:(lia))|]. simpl app. rewrite Z.add_0_l.
  destruct (decide _) as [Hl|Hl].
  - rewrite (count_stop t Ht (S fuel) (encs ts) cut tl) by done. by rewrite Z.add_0_r.
  - destruct (cut_in_value t cut tl Hcut) as (v1 & Hc & _); [lia|].
    pose proof (behind_cut ts t cut tl Hcut) as Hb.
    rewrite Hc, count_turn by (done || lia). rewrite <- Hc. cbn [count_loop]. by rewrite read_behind by done.
Qed.

(** ** Departures from the documentation *)
Definition demo_shard (mode : Z) (old : option (list Z)) : outcome DataShard :=
  DataShard_open 10 true old mode 64.

(** A key inserted in the life of a shard is not remembered: the second tuple with
    that key is accepted and written as well. *)
Theorem Insert_twice (s : DataShard) (pend k v v' : list Z) (Hw : writing s pend) (Hk : k ∉ keys_ s)
    (Hv : writable_tuple (capacity_ s) (k, v)) (Hv' : writable_tuple (capacity_ s) (k, v')) :
  exists s1 s2 s3, Insert k v s = Ok (true, s1) /\ Insert k v' s1 = Ok (true, s2) /\
    Flush s2 = Ok s3 /\ file s3 = file s ++ pend ++ encs [(k, v); (k, v')].
Proof.
  destruct Hv as [Hn Hl], Hv' as [Hn' Hl'].
  destruct (Insert_Ok s pend k v Hw Hk Hn Hl) as (s1 & p1 & E1 & Hw1 & Hf1 & [Hk1 Hc1]).
  destruct (Insert_Ok s1 p1 k v' Hw1) as (s2 & p2 & E2 & Hw2 & Hf2 & _); [by rewrite Hk1|done|by rewrite Hc1|].
  destruct (write_buffer_Ok s2 p2 Hw2) as (s3 & E3 & _ & Hf3 & _).
  exists s1, s2, s3. split; [done|]. split; [done|]. split; [done|].
  rewrite Hf3, Hf2, app_assoc, Hf1. unfold encs. cbn [map concat]. by rewrite app_nil_r, <- !app_assoc.
Qed.

Lemma Insert_twice_witness : exists s s1 s2 s3, demo_shard kCreate None = Ok s /\
  Insert [1] [2] s = Ok (true, s1) /\ Insert [1] [3] s1 = Ok (true, s2) /\ Flush s2 = Ok s3 /\
  file s3 = encs [([1], [2]); ([1], [3])].
Proof.
  destruct (open_Create 10 None 64) as (s & E & Hw & Hf & Hk & Hc); [lia|unfold INT_MAX; lia|].
  destruct (Insert_twice s [] [1] [2] [3] Hw) as (s1 & s2 & s3 & E1 & E2 & E3 & H3).
  - rewrite Hk. apply not_elem_of_empty.
  - rewrite Hc. split; [discriminate|vm_compute; discriminate].
  - rewrite Hc. split; [discriminate|vm_compute; discriminate].
  - exists s, s1, s2, s3. rewrite Hf in H3. done.
Defined.

(** A tuple that does not fit the buffer aborts the program. *)
Theorem Insert_too_large (s : DataShard) (pend k v : list Z) (Hw : writing s pend) (Hk : k ∉ keys_ s)
    (Hv : v <> []) (Hc : capacity_ s < Z.of_nat (length (enc (k, v))))
    (Hi : Z.of_nat (length (enc (k, v))) + capacity_ s <= INT_MAX) :
  Insert k v s = Fatal.
Proof. by eapply Insert_large. Qed.

Lemma Insert_too_large_witness : exists s, demo_shard kCreate None = Ok s /\ Insert [] (replicate 50 7) s = Fatal.
Proof.
  destruct (open_Create 10 None 64) as (s & E & Hw & Hf & Hk & Hc); [lia|unfold INT_MAX; lia|].
  exists s. split; [done|]. apply (Insert_too_large s [] [] (replicate 50 7) Hw).
  - rewrite Hk. apply not_elem_of_empty.
  - discriminate.
  - rewrite Hc. reflexivity.
  - rewrite Hc. unfold INT_MAX. vm_compute. discriminate.
Defined.

(** Appends [t] to [old] and reads the file that results. *)
Definition append_and_read (n : nat) (old : list Z) (t : list Z * list Z)
    : outcome (list (option (list Z * list Z))) :=
  s ← demo_shard kAppend (Some old); '(_, s) ← Insert t.1 t.2 s; s ← Flush s;
  r ← demo_shard kRead (Some (file s)); '(os, _) ← next_all n r; Ok os.

(** A tuple whose key has the form of a tuple; it is cut behind the key. *)
Definition demo_cut : list Z := size_bytes 27 ++ replicate 10 5 ++ enc ([], [9]).

(** Appending after a crash does not cut the file: bytes of the broken tuple that are
    not overwritten may be read as a tuple, and a value that was cut is filled with a
    zero and kept. *)
Theorem Append_after_crash :
  (exists t tl, demo_cut ++ tl = enc t /\ tl <> []) /\
  append_and_read 3 demo_cut ([1], [2]) = Ok [Some ([1], [2]); Some ([], [9]); None] /\
  append_and_read 3 (take 18 (enc ([1], [2; 3]))) ([4], [5]) = Ok [Some ([1], [2; 0]); Some ([4], [5]); None].
Proof.
  split.
  { exists (replicate 10 5 ++ enc ([], [9]), [1]), (size_bytes 1 ++ [1]).
    split; [by rewrite enc_split; unfold demo_cut; cbn [fst snd]; rewrite <- !app_assoc|discriminate]. }
  split; vm_compute; reflexivity.
Qed.

(** ** Witnesses *)
Definition demo_tuples : list (list Z * list Z) := [([1; 2], [3]); ([4], [5; 6; 7])].

Lemma Insert_Next_roundtrip_witness : exists w s s' r r',
  demo_shard kCreate None = Ok w /\ insert_all demo_tuples w = Ok ([true; true], s) /\ Flush s = Ok s' /\
  DataShard_open 10 true (Some (file s')) kRead 8 = Ok r /\
  next_all 3 r = Ok ([Some ([1; 2], [3]); Some ([4], [5; 6; 7]); None], r') /\
  exists s1 s2, Insert [4] [9] s = Ok (true, s1) /\ Flush s1 = Ok s2 /\ file s2 = encs (demo_tuples ++ [([4], [9])]).
Proof.
  destruct (Insert_Next_roundtrip demo_tuples None 64 8 10) as (w & s & s' & r & r' & E1 & E2 & E3 & E4 & E5 & E6).
  - lia.
  - unfold INT_MAX. lia.
  - repeat constructor; vm_compute; discriminate.
  - apply (bool_decide_unpack _). by vm_compute.
  - lia.
  - unfold INT_MAX. lia.
  - repeat constructor; vm_compute; discriminate.
  - exists w, s, s', r, r'. split_and!; [exact E1|exact E2|exact E3|exact E4|exact E5|].
    apply E6; [by right; left|]. split; [discriminate|vm_compute; discriminate].
Defined.

Lemma Next_cut_tuple_witness : exists r r' r2 r3,
  DataShard_open 10 true (Some (encs demo_tuples ++ take 18 (enc ([8], [9; 9])))) kRead 8 = Ok r /\
  next_all 3 r = Ok ([Some ([1; 2], [3]); Some ([4], [5; 6; 7]); None], r') /\
  SeekToFirst r' = Ok r2 /\
  next_all 3 r2 = Ok ([Some ([1; 2], [3]); Some ([4], [5; 6; 7]); None], r3).
Proof.
  apply (Next_cut_tuple demo_tuples ([8], [9; 9]) (take 18 (enc ([8], [9; 9]))) [9] 8 10).
  - lia.
  - unfold INT_MAX. lia.
  - repeat constructor; vm_compute; discriminate.
  - reflexivity.
  - discriminate.
Defined.

Lemma demo_scannable : Forall scannable (demo_tuples ++ [([8], [9; 9])]).
Proof.
  repeat (apply list.Forall_cons; split;
    [split; [vm_compute; done|split; [vm_compute; discriminate|apply (bool_decide_unpack _); vm_compute; exact I]]|]).
  constructor.
Qed.

Lemma PrepareForAppend_spec_witness :
  PrepareForAppend 5 (Some (encs demo_tuples ++ take 18 (enc ([8], [9; 9])))) =
    Ok (Z.of_nat (length (encs (demo_tuples ++ [([8], [9; 9])]))), keys_of (demo_tuples ++ [([8], [9; 9])])).
Proof.
  etrans; [apply (PrepareForAppend_spec demo_tuples ([8], [9; 9]) (take 18 (enc ([8], [9; 9]))) [9] 1)|].
  - exact demo_scannable.
  - reflexivity.
  - vm_compute. discriminate.
  - reflexivity.
Defined.

Lemma Append_spec_witness : exists a s s',
  DataShard_open 10 true (Some (encs demo_tuples)) kAppend 64 = Ok a /\
  (forall t v, t ∈ demo_tuples -> Insert t.1 v a = Ok (false, a)) /\
  insert_all [([8], [9; 9])] a = Ok ([true], s) /\ Flush s = Ok s' /\
  file s' = encs (demo_tuples ++ [([8], [9; 9])]).
Proof.
  apply (Append_spec demo_tuples [([8], [9; 9])] 64 10).
  - exact (proj1 (proj1 (Forall_app _ _ _) demo_scannable)).
  - vm_compute. discriminate.
  - lia.
  - unfold INT_MAX. lia.
  - simpl. lia.
  - repeat constructor; vm_compute; discriminate.
  - apply list.Forall_singleton. apply (bool_decide_unpack _). vm_compute. exact I.
Defined.

Lemma Count_spec_witness : exists s,
  DataShard_open 10 true (Some (encs demo_tuples ++ take 11 (enc ([8], [9; 9])))) kRead 64 = Ok s /\
  Count 5 s = Ok 2.
Proof.
  eexists. split; [reflexivity|].
  etrans; [apply (Count_spec demo_tuples ([8], [9; 9]) (take 11 (enc ([8], [9; 9]))) (drop 11 (enc ([8], [9; 9]))) _ 1)|].
  - exact demo_scannable.
  - reflexivity.
  - reflexivity.
  - reflexivity.
  - vm_compute. reflexivity.
  - reflexivity.
Defined.
