(* ===== verification/Worker.v ===== *)
(** * trainer/worker.h, trainer/worker.cc: the workers

    A worker runs the layers of its partition, forwards and backwards.  It shares the
    [Param]s of the store with the stub of its process, asks the stub to get and
    update them ([Get], [Update]) and waits for an update by watching the version
    ([Collect]).  The virtual functions of the layers are the operations of the class
    [Layers]; every other thread acts while the worker sleeps: [others] lists what they
    do to the store in the sleeps to come, and [inbox] the messages that reach the
    layer dealer.  What the worker does is recorded in [trace]. *)

From S2P Require Import Prelude Msg Format Memory Param Updater Server Cluster.

(** ** Layers *)
Inductive Phase := kTrain | kValidation | kTest | kPositive | kNegative | kForward | kBackward | kLoss.

(** A layer of the net, by what the worker asks of it; [ldata] is [data(nullptr)]. *)
Record Layer := mkLayer {
  lname : string;
  lpartition : Z;
  lparams : list Z;
  is_bridgesrclayer : bool;
  is_bridgedstlayer : bool;
  is_vislayer : bool;
  is_hidlayer : bool;
  dstlayers : list Z;
  ldata : Blob;
}.
Definition is_bridgelayer (l : Layer) : bool := is_bridgesrclayer l || is_bridgedstlayer l.

(** The virtual functions of the layers, which work on the store; a layer is its index
    in the net.  [sample] is the distribution [InitValues] draws from. *)
Class Layers := {
  ComputeFeature : Z -> Phase -> world -> outcome world;
  ComputeGradient : Z -> Phase -> world -> outcome world;
  ComputeLoss : Z -> world -> outcome world;
  sample : Param -> heap -> outcome heap;
}.

(** The fields of ModelProto the worker reads. *)
Record ModelProto := mkModel {
  display_frequency : Z; display_after : Z; debug : bool;
  train_steps : Z;
  checkpoint_frequency : Z; checkpoint_after : Z;
  test_frequency : Z; test_steps : Z; test_after : Z;
  validation_frequency : Z; validation_steps : Z; validation_after : Z;
  vis_frequency : Z; vis_after : Z;
  step : Z; reset_param_version : bool;
  pcd_k : Z;
}.

(** Targets of blobs. *)
Definition BlobTrgt (grp layer : Z) : Z := Z.lor (wrap32 (Z.shiftl grp 16)) layer.
Definition BlobGrp (blob_trgt : Z) : Z := Z.shiftr blob_trgt 16.
Definition BlobLayer (blob_trgt : Z) : Z := Z.land blob_trgt (Z.shiftl 1 16 - 1).

Section worker.
Context `{C : Czmq} `{U : Updater} `{L : Layers}.

Record Worker := mkWorker {
  w_thread_id : Z;
  w_grp_id : Z;
  w_id : Z;
  modelproto_ : ModelProto;
  updater_ : bool;  (* whether there is one *)
}.
(** The constructor and [Setup]. *)
Definition Worker_Setup (thread_id grp_id id : Z) (model : ModelProto) (c : ClusterProto)
    (server_update : bool) : Worker :=
  mkWorker thread_id grp_id id model (negb (negb (nserver_groups c =? 0) && server_update)).

(** ** What the worker does *)
Inductive event :=
| Send (m : Msg)          (* on dealer_ *)
| SendLayer (m : Msg)     (* on layer_dealer_ *)
| Feature (l : Z) (phase : Phase)
| Gradient (l : Z)
| Loss (l : Z)
| Waited (i : Z).         (* Collect returned for the param i *)

Record state := mkState {
  wd : world;
  ready : gmap Z bool;  (* ready_ of the bridge layers, false to begin with *)
  others : list (world -> outcome world);
  inbox : list Msg;
  trace : list event;
}.
Definition set_world (w : world) (s : state) : state :=
  mkState w (ready s) (others s) (inbox s) (trace s).
Definition set_ready (l : Z) (b : bool) (s : state) : state :=
  mkState (wd s) (<[l := b]> (ready s)) (others s) (inbox s) (trace s).
Definition emit (e : event) (s : state) : state :=
  mkState (wd s) (ready s) (others s) (inbox s) (trace s ++ [e]).

Definition get_param (i : Z) (s : state) : outcome Param := deref (params (wd s) !! i).

(** ** Requests to the stub *)
Definition request (t : Worker) (ty : Z) (p : Param) (step : Z) : Msg :=
  set_type ty (set_trgt (ParamTrgt (owner p) 0) step
    (Msg_make (Addr (w_grp_id t) (w_id t) (entity_num kWorkerParam)) (Addr (-1) (-1) (entity_num kStub)))).
Definition Put (t : Worker) (i step : Z) (s : state) : outcome state :=
  p ← get_param i s; Ok (emit (Send (request t kPut p step)) s).
Definition Get (t : Worker) (i step : Z) (s : state) : outcome state :=
  p ← get_param i s;
  v ← version p (hp (wd s));
  if step <=? v then Ok s else Ok (emit (Send (request t kGet p step)) s).
Definition Update_param (t : Worker) (i step : Z) (s : state) : outcome state :=
  p ← get_param i s;
  v ← version p (hp (wd s));
  let p := set_local_version v p in
  let s := set_world (put_param i p (hp (wd s)) (wd s)) s in
  if updater_ t then
    h ← Update step p (hp (wd s));
    v ← version p h;
    v ← int_ret (v + 1);
    h ← param_set_version v p h;
    Ok (set_world (set_hp h (wd s)) s)
  else Ok (emit (Send (request t kUpdate p step)) s).

(** The loop of [Collect]; it does not return as long as nobody raises the version. *)
Fixpoint collect_loop (i : Z) (os : list (world -> outcome world)) (w : world)
    : outcome (world * list (world -> outcome world)) :=
  p ← deref (params w !! i);
  v ← version p (hp w);
  if v <=? local_version p then
    match os with
    | [] => OutOfFuel
    | o :: os => w ← o w; collect_loop i os w
    end
  else Ok (w, os).
Definition Collect (i : Z) (s : state) : outcome state :=
  '(w, os) ← collect_loop i (others s) (wd s);
  Ok (mkState w (ready s) os (inbox s) (trace s ++ [Waited i])).

(** A loop over a list. *)
Fixpoint for_each {A} (f : A -> state -> outcome state) (l : list A) (s : state) : outcome state :=
  match l with
  | [] => Ok s
  | x :: l => s ← f x s; for_each f l s
  end.

(** The layers with their indices. *)
Fixpoint number (k : Z) (net : list Layer) : list (Z * Layer) :=
  match net with
  | [] => []
  | l :: net => (k, l) :: number (k + 1) net
  end.
Definition layers (net : list Layer) : list (Z * Layer) := number 0 net.

Definition CollectAll (t : Worker) (net : list Layer) (s : state) : outcome state :=
  for_each (fun '(_, l) s =>
    if lpartition l =? w_id t then for_each Collect (lparams l) s else Ok s) (layers net) s.

(** [perf] is what [Metric::ToString] gives. *)
Definition Report (t : Worker) (step : Z) (prefix : list Z) (perf : list Z) (s : state) : outcome state :=
  let msg := set_type kMetric (set_trgt 0 step
    (Msg_make (Addr (w_grp_id t) (w_id t) (entity_num kWorkerParam)) (Addr (-1) (-1) (entity_num kStub)))) in
  '(msg, _) ← AddFormatFrame "s" [AStr prefix] msg;
  msg ← AddFrame perf msg;
  Ok (emit (Send msg) s).

(** ** Blobs between workers *)

(** [net->name2layer(name)]: the last layer of that name, [None] is a null pointer. *)
Definition name2layer (net : list Layer) (name : list Z) : option (Z * Layer) :=
  list.last (filter (fun nl => bytes_of_string (lname nl.2) = name) (layers net)).

Fixpoint receive_loop (t : Worker) (layer : Z) (net : list Layer) (inb : list Msg) (s : state)
    : outcome state :=
  if default false (ready s !! layer) then Ok (mkState (wd s) (ready s) (others s) inb (trace s))
  else
    match inb with
    | [] => OutOfFuel
    | msg :: inb =>
        _ ← CHECK (AddrGrp (src msg) =? w_grp_id t);
        name ← FrameData msg;
        '(r, rl) ← deref (name2layer net name);
        _ ← CHECK (is_bridgelayer rl);
        '(msg, _) ← NextFrame msg;
        '(h, p) ← mutable_cpu_data (ldata rl) (hp (wd s));
        bytes ← FrameData msg;
        h ← store h p bytes;
        receive_loop t layer net inb (set_ready r true (set_world (set_hp h (wd s)) s))
    end.
Definition ReceiveBlobs (t : Worker) (layer : Z) (net : list Layer) (s : state) : outcome state :=
  receive_loop t layer net (inbox s) s.

Definition SendBlobs (t : Worker) (layer : Layer) (net : list Layer) (s : state) : outcome state :=
  d ← vec_at (dstlayers layer) 0;
  dst ← idx net d;
  let msg := set_dst (Addr (w_grp_id t) (lpartition dst) (entity_num kWorkerLayer))
    (set_src (Addr (w_grp_id t) (w_id t) (entity_num kWorkerLayer)) Msg_new) in
  msg ← AddFrame (bytes_of_string (lname dst)) msg;
  '(h, p) ← cpu_data (ldata layer) (hp (wd s));
  bytes ← load h p (count_ (ldata layer) * sizeof_float);
  msg ← AddFrame bytes msg;
  Ok (emit (SendLayer msg) (set_world (set_hp h (wd s)) s)).

(** ** The back-propagation worker *)

(** The calls of the layers; the bridge layers reset [ready_]. *)
Definition compute_feature (n : Z) (l : Layer) (phase : Phase) (s : state) : outcome state :=
  w ← ComputeFeature n phase (wd s);
  let s := emit (Feature n phase) (set_world w s) in
  Ok (if is_bridgedstlayer l then set_ready n false s else s).
Definition compute_gradient (n : Z) (l : Layer) (s : state) : outcome state :=
  w ← ComputeGradient n kTrain (wd s);
  let s := emit (Gradient n) (set_world w s) in
  Ok (if is_bridgesrclayer l then set_ready n false s else s).

Definition forward_layer (t : Worker) (phase : Phase) (net : list Layer) (nl : Z * Layer) (s : state)
    : outcome state :=
  let '(n, l) := nl in
  if lpartition l =? w_id t then
    s ← (if is_bridgedstlayer l then ReceiveBlobs t n net s else Ok s);
    s ← (match phase with kTrain => for_each Collect (lparams l) s | _ => Ok s end);
    s ← compute_feature n l phase s;
    if is_bridgesrclayer l then SendBlobs t l net s else Ok s
  else Ok s.
Definition Forward (t : Worker) (phase : Phase) (net : list Layer) (s : state) : outcome state :=
  for_each (forward_layer t phase net) (layers net) s.

Definition backward_layer (t : Worker) (step : Z) (nl : Z * Layer) (s : state) : outcome state :=
  let '(n, l) := nl in
  if lpartition l =? w_id t then
    s ← compute_gradient n l s;
    for_each (fun i => Update_param t i step) (lparams l) s
  else Ok s.
Definition Backward (t : Worker) (step : Z) (net : list Layer) (s : state) : outcome state :=
  for_each (backward_layer t step) (reverse (layers net)) s.

Definition TrainOneBatch (t : Worker) (step : Z) (train_net : list Layer) (s : state) : outcome state :=
  s ← Forward t kTrain train_net s; Backward t step train_net s.
Definition TestOneBatch (t : Worker) (phase : Phase) (net : list Layer) (s : state) : outcome state :=
  Forward t phase net s.

(** ** The contrastive-divergence worker *)
Definition PositivePhase (net : list Layer) (s : state) : outcome state :=
  for_each (fun '(n, l) => compute_feature n l kPositive) (layers net) s.
Definition NegativePhase (t : Worker) (net : list Layer) (s : state) : outcome state :=
  for_each (fun _ => for_each (fun '(n, l) s =>
    if is_vislayer l || is_hidlayer l then compute_feature n l kNegative s else Ok s) (layers net))
    (seq 0 (Z.to_nat (pcd_k (modelproto_ t)))) s.
Definition GradientPhase (t : Worker) (step : Z) (net : list Layer) (s : state) : outcome state :=
  for_each (fun '(n, l) s =>
    s ← compute_gradient n l s;
    for_each (fun i => Update_param t i step) (lparams l) s) (layers net) s.
Definition compute_loss (n : Z) (s : state) : outcome state :=
  w ← ComputeLoss n (wd s); Ok (emit (Loss n) (set_world w s)).
Definition LossPhase (net : list Layer) (s : state) : outcome state :=
  s ← for_each (fun '(n, l) s =>
    if is_hidlayer l then compute_feature n l kLoss s else Ok s) (layers net) s;
  for_each (fun '(n, l) s => if is_vislayer l then compute_loss n s else Ok s) (layers net) s.
Definition CD_TrainOneBatch (t : Worker) (step : Z) (train_net : list Layer) (s : state) : outcome state :=
  s ← PositivePhase train_net s;
  s ← NegativePhase t train_net s;
  s ← GradientPhase t step train_net s;
  LossPhase train_net s.
(** The net given is ignored: the test net is used. *)
Definition CD_TestOneBatch (test_net : list Layer) (phase : Phase) (net : list Layer) (s : state)
    : outcome state :=
  s ← PositivePhase test_net s; LossPhase test_net s.

(** [Test], for the [TestOneBatch] of either worker. *)
Definition Test_net (one_batch : Phase -> list Layer -> state -> outcome state) (nsteps : Z) (phase : Phase)
    (net : list Layer) (s : state) : outcome state :=
  for_each (fun _ => one_batch phase net) (seq 0 (Z.to_nat nsteps)) s.

(** ** Schedules *)
Definition every (frequency after step : Z) : outcome bool :=
  if 0 <? frequency then
    if after <=? step then
      d ← int_ret (step - after); Ok (Z.rem d frequency =? 0)
    else Ok false
  else Ok false.
Definition DisplayNow (t : Worker) (step : Z) : outcome bool :=
  every (display_frequency (modelproto_ t)) (display_after (modelproto_ t)) step.
Definition DisplayDebugInfo (t : Worker) (step : Z) : outcome bool :=
  now ← DisplayNow t step;
  Ok (now && debug (modelproto_ t) && (w_grp_id t =? 0)).
Definition StopNow (t : Worker) (step : Z) : bool := train_steps (modelproto_ t) <=? step.
Definition CheckpointNow (t : Worker) (step : Z) : outcome bool :=
  if w_grp_id t =? 0 then
    every (checkpoint_frequency (modelproto_ t)) (checkpoint_after (modelproto_ t)) step
  else Ok false.
Definition TestNow (t : Worker) (step : Z) : outcome bool :=
  if (w_grp_id t =? 0) && (0 <? test_frequency (modelproto_ t)) && (0 <? test_steps (modelproto_ t)) then
    every (test_frequency (modelproto_ t)) (test_after (modelproto_ t)) step
  else Ok false.
Definition ValidateNow (t : Worker) (step : Z) : outcome bool :=
  if (w_grp_id t =? 0) && (0 <? validation_frequency (modelproto_ t))
     && (0 <? validation_steps (modelproto_ t)) then
    every (validation_frequency (modelproto_ t)) (validation_after (modelproto_ t)) step
  else Ok false.
Definition VisNow (t : Worker) (step : Z) : outcome bool :=
  if w_grp_id t =? 0 then
    every (vis_frequency (modelproto_ t)) (vis_after (modelproto_ t)) step
  else Ok false.

(** ** Checkpoints *)

(** An entry of [BlobProtos]: name, version, blob. *)
Definition ckpt : Type := string * Z * BlobProto.

(** The params of the worker's layers that own their values. *)
Fixpoint owners (ids : list Z) (s : state) : outcome (list (Z * Param)) :=
  match ids with
  | [] => Ok []
  | i :: ids =>
      p ← get_param i s;
      ps ← owners ids s;
      Ok (if owner p =? param_id p then (i, p) :: ps else ps)
  end.
Definition owned (t : Worker) (net : list Layer) (s : state) : outcome (list (Z * Param)) :=
  owners (concat (map lparams (filter (fun l => lpartition l = w_id t) net))) s.

(** The file written: [None] when the worker is not of the first group. *)
Fixpoint ckpt_all (ps : list (Z * Param)) (h : heap) : outcome (heap * list ckpt) :=
  match ps with
  | [] => Ok (h, [])
  | (_, p) :: ps =>
      b ← data_blob p h;
      '(h, blob) ← ToProto b (mkBlobProto [] []) h;
      v ← version p h;
      '(h, bs) ← ckpt_all ps h;
      Ok (h, (pname (proto_ p), v, blob) :: bs)
  end.
Definition Checkpoint (t : Worker) (net : list Layer) (s : state) : outcome (state * option (list ckpt)) :=
  if w_grp_id t =? 0 then
    ps ← owned t net s;
    '(h, bs) ← ckpt_all ps (hp (wd s));
    Ok (set_world (set_hp h (wd s)) s, Some bs)
  else Ok (s, None).

(** ** InitLocalParams *)

(** [name2param]: a name is there once. *)
Fixpoint name_params (ps : list (Z * Param)) (m : gmap string Z) : outcome (gmap string Z) :=
  match ps with
  | [] => Ok m
  | (i, p) :: ps =>
      _ ← CHECK (negb (bool_decide (is_Some (m !! pname (proto_ p)))));
      name_params ps (<[pname (proto_ p) := i]> m)
  end.

Definition set_data_blob (p : Param) (b : Blob) (h : heap) : outcome heap :=
  i ← deref (pdata p); Ok (set_blob i b h).
Definition Param_FromProto (p : Param) (blob : BlobProto) (h : heap) : outcome heap :=
  b ← data_blob p h;
  '(h, b) ← FromProto b blob h;
  set_data_blob p b h.
Definition InitValues (p : Param) (v : Z) (h : heap) : outcome heap :=
  h ← sample p h; param_set_version v p h.

(** The entries of the checkpoint files, in order. *)
Definition load_ckpt (t : Worker) (m : gmap string Z) (e : ckpt) (s : state) : outcome state :=
  let '(name, v, blob) := e in
  match m !! name with
  | None => Ok s
  | Some i =>
      p ← get_param i s;
      h ← Param_FromProto p blob (hp (wd s));
      h ← param_set_version (if reset_param_version (modelproto_ t) then step (modelproto_ t) else v) p h;
      Ok (set_world (set_hp h (wd s)) s)
  end.
Definition init_param (t : Worker) (i : Z) (s : state) : outcome state :=
  p ← get_param i s;
  v ← version p (hp (wd s));
  if v <? 0 then
    h ← InitValues p (step (modelproto_ t)) (hp (wd s));
    Ok (set_world (set_hp h (wd s)) s)
  else Ok s.

(** The params without values are initialised in the order of the net (the code takes
    that of a hash table). *)
Definition InitLocalParams (t : Worker) (c : ClusterProto) (checkpoints : list (list ckpt))
    (net : list Layer) (s : state) : outcome state :=
  n ← nworker_groups_per_server_group c;
  r ← imod (w_grp_id t) n;
  if r =? 0 then
    ps ← owned t net s;
    m ← name_params ps ∅;
    s ← for_each (load_ckpt t m) (concat checkpoints) s;
    for_each (init_param t) (map fst ps) s
  else Ok s.

(** ** Run *)
Definition ConnectStub (grp id : Z) (entity : EntityType) : Msg :=
  set_type kConnect (Msg_make (Addr grp id (entity_num entity)) (Addr (-1) (-1) (entity_num kStub))).

(** The loop, for the results of the calls of [stat] to come. *)
Fixpoint test_loop (t : Worker) (train_net : list Layer) (flags : list bool) (s : state) : outcome state :=
  match flags with
  | [] => OutOfFuel
  | true :: _ => Ok s
  | false :: flags => s ← TestOneBatch t kTrain train_net s; test_loop t train_net flags s
  end.
Definition Run (t : Worker) (c : ClusterProto) (checkpoints : list (list ckpt)) (train_net : list Layer)
    (flags : list bool) (s : state) : outcome state :=
  let s := emit (Send (ConnectStub (w_grp_id t) (w_id t) kWorkerParam)) s in
  let s := if existsb (fun l => (lpartition l =? w_id t) && is_bridgelayer l) train_net
           then emit (SendLayer (ConnectStub (w_grp_id t) (w_id t) kWorkerLayer)) s else s in
  s ← InitLocalParams t c checkpoints train_net s;
  s ← test_loop t train_net flags s;
  Ok (emit (Send (set_type kStop (Msg_make (Addr (w_grp_id t) (w_id t) (entity_num kWorkerParam))
        (Addr (-1) (-1) (entity_num kStub))))) s).
End worker.
