(* ===== verification/WorkerProps.v ===== *)
(** * Properties of the workers

    A batch of the back-propagation worker: what it computes, what it waits for and
    what it asks of the stub, in order; blobs sent between workers arrive; the
    schedules; what [Run] does. *)

From S2P Require Import Prelude Float32 Msg Format Memory Param Updater Server Cluster Worker.

(** ** Schedules *)
Lemma every_spec f a s : INT_MIN <= s - a <= INT_MAX ->
  exists b, every f a s = Ok b /\ (b = true <-> 0 < f /\ exists k, 0 <= k /\ s = a + k * f).
Proof.
  intros Hi. unfold every. destruct (Z.ltb_spec 0 f); [|eexists; split; [done|]; split; [done|lia]].
  destruct (Z.leb_spec a s).
  - rewrite int_ret_Ok, bind_Ok by done. eexists. split; [done|].
    rewrite Z.eqb_eq, Z.rem_divide by lia. split.
    + intros [k Hk]. split; [done|]. exists k. nia.
    + intros (_ & k & _ & ->). exists k. lia.
  - eexists. split; [done|]. split; [done|]. intros (_ & k & ? & ->). nia.
Qed.

(** ** What the worker relies on

    The layers compute on the stores [net_ok] describes; they leave the params and
    their versions alone. *)
Record keeps_params (w w' : world) : Prop := {
  kp_params : params w' = params w;
  kp_version p v : version p (hp w) = Ok v -> version p (hp w') = Ok v;
}.
Class LayersLaws (L : Layers) := {
  net_ok : world -> Prop;
  feature_Ok n phase w : net_ok w -> exists w', ComputeFeature n phase w = Ok w' /\ keeps_params w w' /\ net_ok w';
  gradient_Ok n phase w : net_ok w -> exists w', ComputeGradient n phase w = Ok w' /\ keeps_params w w' /\ net_ok w';
  loss_Ok n w : net_ok w -> exists w', ComputeLoss n w = Ok w' /\ keeps_params w w' /\ net_ok w';
  net_ok_local i p v w : net_ok w -> params w !! i = Some p ->
    net_ok (put_param i (set_local_version v p) (hp w) w);
}.

Section worker.
Context `{C : Czmq} `{!CzmqLaws C} `{U : Updater} `{L : Layers} `{!LayersLaws L}.

(** The steps and the [_after] fields are not negative. *)
Definition schedule_ok (m : ModelProto) (step : Z) : Prop :=
  0 <= step <= INT_MAX /\ 0 <= display_after m <= INT_MAX /\ 0 <= checkpoint_after m <= INT_MAX /\
  0 <= test_after m <= INT_MAX /\ 0 <= validation_after m <= INT_MAX /\ 0 <= vis_after m <= INT_MAX.
Definition due (frequency after step : Z) : Prop :=
  0 < frequency /\ exists k, 0 <= k /\ step = after + k * frequency.

Lemma every_if (g : bool) (G : Prop) f a s : (g = true <-> G) -> INT_MIN <= s - a <= INT_MAX ->
  exists b, (if g then every f a s else Ok false) = Ok b /\ (b = true <-> G /\ due f a s).
Proof.
  intros Hg Hi. destruct (every_spec f a s Hi) as (b & E & Hb). destruct g.
  - exists b. split; [done|]. rewrite Hb. unfold due. tauto.
  - exists false. split; [done|]. split; [done|]. intros [HG _]. by apply Hg in HG.
Qed.

(** The schedules: displays, checkpoints, tests, validations and visualisations are
    due exactly at their first step and every so many steps after it, and all but
    displays only in the first group; tests and validations also need steps. *)
Theorem Schedule_spec (t : Worker) (s : Z) (Hs : schedule_ok (modelproto_ t) s) :
  let m := modelproto_ t in
  exists d c te v vi,
    DisplayNow t s = Ok d /\ CheckpointNow t s = Ok c /\ TestNow t s = Ok te /\
    ValidateNow t s = Ok v /\ VisNow t s = Ok vi /\
    (d = true <-> due (display_frequency m) (display_after m) s) /\
    (c = true <-> w_grp_id t = 0 /\ due (checkpoint_frequency m) (checkpoint_after m) s) /\
    (te = true <-> (w_grp_id t = 0 /\ 0 < test_steps m) /\ due (test_frequency m) (test_after m) s) /\
    (v = true <-> (w_grp_id t = 0 /\ 0 < validation_steps m) /\
       due (validation_frequency m) (validation_after m) s) /\
    (vi = true <-> w_grp_id t = 0 /\ due (vis_frequency m) (vis_after m) s).
Proof.
  intros m. fold m in Hs. destruct Hs as (Hs & H1 & H2 & H3 & H4 & H5). unfold INT_MAX in *.
  destruct (every_spec (display_frequency m) (display_after m) s) as (d & Ed & Hd);
    [unfold INT_MIN, INT_MAX; lia|].
  destruct (every_if (w_grp_id t =? 0) (w_grp_id t = 0) (checkpoint_frequency m) (checkpoint_after m) s)
    as (c & Ec & Hc); [by apply Z.eqb_eq|unfold INT_MIN, INT_MAX; lia|].
  destruct (every_if ((w_grp_id t =? 0) && (0 <? test_frequency m) && (0 <? test_steps m))
    ((w_grp_id t = 0 /\ 0 < test_frequency m) /\ 0 < test_steps m) (test_frequency m) (test_after m) s)
    as (te & Et & Ht); [by rewrite !andb_true_iff, Z.eqb_eq, !Z.ltb_lt|unfold INT_MIN, INT_MAX; lia|].
  destruct (every_if ((w_grp_id t =? 0) && (0 <? validation_frequency m) && (0 <? validation_steps m))
    ((w_grp_id t = 0 /\ 0 < validation_frequency m) /\ 0 < validation_steps m)
    (validation_frequency m) (validation_after m) s)
    as (v & Ev & Hv); [by rewrite !andb_true_iff, Z.eqb_eq, !Z.ltb_lt|unfold INT_MIN, INT_MAX; lia|].
  destruct (every_if (w_grp_id t =? 0) (w_grp_id t = 0) (vis_frequency m) (vis_after m) s)
    as (vi & Evi & Hvi); [by apply Z.eqb_eq|unfold INT_MIN, INT_MAX; lia|].
  exists d, c, te, v, vi. do 5 (split; [done|]). split; [done|]. split; [done|].
  split; [rewrite Ht; unfold due; tauto|]. split; [rewrite Hv; unfold due; tauto|done].
Qed.

(** ** Collect *)

(** The store after the first [k] sleeps. *)
Fixpoint after_sleeps (os : list (world -> outcome world)) (k : nat) (w : world) : outcome world :=
  match k, os with
  | S k, o :: os => w ← o w; after_sleeps os k w
  | _, _ => Ok w
  end.
(** Whether the param's version is ahead of its local version. *)
Definition ahead (i : Z) (w : world) : Prop :=
  exists p v, params w !! i = Some p /\ version p (hp w) = Ok v /\ local_version p < v.
Definition behind (i : Z) (w : world) : Prop :=
  exists p v, params w !! i = Some p /\ version p (hp w) = Ok v /\ v <= local_version p.

Lemma collect_ahead i os w : ahead i w -> collect_loop i os w = Ok (w, os).
Proof.
  intros (p & v & Hp & Hv & Hl). destruct os; simpl; rewrite Hp, deref_Some, bind_Ok, Hv, bind_Ok;
    by rewrite (proj2 (Z.leb_gt _ _)).
Qed.

Lemma collect_behind i o os w : behind i w -> collect_loop i (o :: os) w = w ← o w; collect_loop i os w.
Proof.
  intros (p & v & Hp & Hv & Hl). simpl. rewrite Hp, deref_Some, bind_Ok, Hv, bind_Ok.
  by rewrite (proj2 (Z.leb_le _ _)).
Qed.

Lemma collect_loop_Ok i k : forall os w wk, (k <= length os)%nat ->
  (forall j, (j < k)%nat -> exists wj, after_sleeps os j w = Ok wj /\ behind i wj) ->
  after_sleeps os k w = Ok wk -> ahead i wk -> collect_loop i os w = Ok (wk, drop k os).
Proof.
  induction k as [|k IH]; intros os w wk Hk Hb Hw Ha.
  - destruct os; injection Hw as ->; by apply collect_ahead.
  - destruct os as [|o os]; [simpl in Hk; lia|].
    destruct (Hb 0%nat) as (w0 & [= <-] & Hb0); [lia|]. rewrite collect_behind by done.
    simpl in Hw. inv_ok Hw. rewrite E, bind_Ok. cbn [drop].
    apply IH; [simpl in Hk; lia| |done|done].
    intros j Hj. destruct (Hb (S j)) as (wj & Ej & ?); [lia|]. simpl in Ej. rewrite E, bind_Ok in Ej. eauto.
Qed.

(** [Collect] returns after the first sleep in which the version gets ahead of the
    local version, not before, and changes nothing itself. *)
Theorem Collect_waits (i : Z) (k : nat) (s : state) (wk : world)
    (Hk : (k <= length (others s))%nat)
    (Hb : forall j, (j < k)%nat -> exists wj, after_sleeps (others s) j (wd s) = Ok wj /\ behind i wj)
    (Hw : after_sleeps (others s) k (wd s) = Ok wk) (Ha : ahead i wk) :
  Collect i s = Ok (mkState wk (ready s) (drop k (others s)) (inbox s) (trace s ++ [Waited i])).
Proof. unfold Collect. by rewrite (collect_loop_Ok i k (others s) (wd s) wk Hk Hb Hw Ha). Qed.

(** ** Loops *)
Lemma for_each_Ok {A} (f : A -> state -> outcome state) (P : state -> Prop) (R : A -> state -> Prop)
    (K : state -> state -> Prop) `{!PreOrder K} (tr : A -> list event) (l : list A) :
  (forall x s s', R x s -> K s s' -> R x s') ->
  (forall x s, x ∈ l -> P s -> exists s', f x s = Ok s' /\ P s' /\ trace s' = trace s ++ tr x /\
     R x s' /\ K s s') ->
  forall s, P s -> exists s', for_each f l s = Ok s' /\ P s' /\
    trace s' = trace s ++ concat (map tr l) /\ (forall x, x ∈ l -> R x s') /\ K s s'.
Proof.
  intros HR. induction l as [|x l IH]; intros Hf s Hs.
  { exists s. simpl. rewrite app_nil_r. split; [done|]. split; [done|]. split; [done|].
    split; [|done]. intros x Hx. by apply elem_of_nil in Hx. }
  destruct (Hf x s) as (s1 & E1 & H1 & T1 & R1 & K1); [left|done|].
  destruct (IH) with (s := s1) as (s2 & E2 & H2 & T2 & R2 & K2); [|done|].
  { intros y u Hy Hu. apply Hf; [by right|done]. }
  exists s2. simpl. rewrite E1, bind_Ok. split; [done|]. split; [done|]. split.
  { by rewrite T2, T1, app_assoc. }
  split; [|by etrans]. intros y [->|Hy]%elem_of_cons; [by eapply HR|by apply R2].
Qed.

(** ** A batch of the back-propagation worker *)
#[local] Instance state_trivial : PreOrder (fun _ _ : state => True).
Proof. by split. Qed.

(** The layers of the worker, with their numbers; none of them is a bridge. *)
Definition own (t : Worker) (net : list Layer) : list (Z * Layer) :=
  filter (fun nl => lpartition nl.2 = w_id t) (layers net).
Definition no_bridge (t : Worker) (net : list Layer) : Prop :=
  forall n l, (n, l) ∈ own t net -> is_bridgelayer l = false.
Definition own_params (t : Worker) (net : list Layer) : list Z :=
  concat (map (fun nl => lparams nl.2) (own t net)).

(** A loop over the layers that skips those of other workers. *)
Lemma for_each_own {A} (f : A -> state -> outcome state) (P : A -> Prop) `{!forall x, Decision (P x)} l :
  (forall x s, ~ P x -> f x s = Ok s) -> forall s, for_each f l s = for_each f (filter P l) s.
Proof.
  intros Hf. induction l as [|x l IH]; intros s; [done|]. rewrite list.filter_cons.
  destruct (decide (P x)) as [Hx|Hx]; simpl; [destruct (f x s); simpl; auto|].
  by rewrite Hf, bind_Ok.
Qed.

Lemma in_own_params t net n l i : (n, l) ∈ own t net -> i ∈ lparams l -> i ∈ own_params t net.
Proof.
  intros Hl Hi. unfold own_params. apply list_elem_of_In, in_concat. exists (lparams l).
  split; [|by apply list_elem_of_In]. apply in_map_iff. exists (n, l). split; [done|]. by apply list_elem_of_In.
Qed.

(** The store before a forward pass that does not wait. *)
Definition all_ahead (is_ : list Z) (s : state) : Prop :=
  net_ok (wd s) /\ forall i, i ∈ is_ -> ahead i (wd s).

Lemma keeps_ahead i w w' : keeps_params w w' -> ahead i w -> ahead i w'.
Proof. intros [Hp Hv] (p & v & ? & ? & ?). exists p, v. rewrite Hp. auto. Qed.

Lemma keeps_behind i w w' : keeps_params w w' -> behind i w -> behind i w'.
Proof. intros [Hp Hv] (p & v & ? & ? & ?). exists p, v. rewrite Hp. auto. Qed.

Lemma Collect_ahead i s : ahead i (wd s) -> Collect i s = Ok (emit (Waited i) s).
Proof. intros H. unfold Collect. by rewrite collect_ahead by done. Qed.

Definition forward_events (phase : Phase) (nl : Z * Layer) : list event :=
  match phase with kTrain => map Waited (lparams nl.2) | _ => [] end ++ [Feature nl.1 phase].

(** What a pass leaves alone. *)
Definition same_io (s s' : state) : Prop := ready s' = ready s /\ others s' = others s /\ inbox s' = inbox s.
#[local] Instance same_io_preorder : PreOrder same_io.
Proof. split; [done|]. intros s1 s2 s3 (?&?&?) (?&?&?). repeat split; congruence. Qed.

Lemma wait_all is_ s : all_ahead is_ s -> exists s', for_each Collect is_ s = Ok s' /\
  wd s' = wd s /\ trace s' = trace s ++ map Waited is_ /\ same_io s s'.
Proof.
  revert s. induction is_ as [|i is_ IH]; intros s [Hn H].
  { exists s. simpl. by rewrite app_nil_r. }
  simpl. rewrite Collect_ahead by (apply H; left). rewrite bind_Ok.
  destruct (IH (emit (Waited i) s)) as (s' & E & Hw & Ht & Hs).
  { split; [done|]. intros j Hj. apply H. by right. }
  exists s'. split; [done|]. split; [done|]. split; [|done]. rewrite Ht. simpl. by rewrite <- app_assoc.
Qed.

Lemma forward_layer_Ok t phase net n l is_ s : (n, l) ∈ own t net -> is_bridgelayer l = false ->
  (forall i, i ∈ lparams l -> i ∈ is_) -> all_ahead is_ s ->
  exists s', forward_layer t phase net (n, l) s = Ok s' /\ all_ahead is_ s' /\
    trace s' = trace s ++ forward_events phase (n, l) /\ keeps_params (wd s) (wd s') /\ same_io s s'.
Proof.
  intros Hl Hb Hi Ha. apply list_elem_of_filter in Hl as [Hl _]. simpl in Hl.
  apply orb_false_iff in Hb as [Hb1 Hb2].
  unfold forward_layer. rewrite Hl, Z.eqb_refl, Hb1, Hb2, bind_Ok.
  assert (exists s1, (match phase with kTrain => for_each Collect (lparams l) s | _ => Ok s end) = Ok s1 /\
    wd s1 = wd s /\ trace s1 = trace s ++ match phase with kTrain => map Waited (lparams l) | _ => [] end /\
    same_io s s1) as (s1 & -> & Hw1 & Ht1 & Hs1).
  { destruct phase; try (exists s; by rewrite app_nil_r). apply wait_all.
    destruct Ha as [Hn Ha]. split; [done|]. intros i ?. by apply Ha, Hi. }
  rewrite bind_Ok. unfold compute_feature. rewrite Hw1, Hb2.
  destruct Ha as [Hn Ha]. destruct (feature_Ok n phase (wd s) Hn) as (w' & -> & Hk & Hn').
  rewrite !bind_Ok. eexists. split; [done|]. split.
  { split; [done|]. intros i ?. eapply keeps_ahead; [exact Hk|by apply Ha]. }
  split; [|done]. simpl. rewrite Ht1. unfold forward_events. simpl. by rewrite <- app_assoc.
Qed.

Lemma keeps_params_preorder : PreOrder keeps_params.
Proof. split; [done|]. intros w1 w2 w3 [H1 H2] [H3 H4]. split; [congruence|auto]. Qed.
#[local] Existing Instance keeps_params_preorder.

Definition keeps_state (s s' : state) : Prop := keeps_params (wd s) (wd s') /\ same_io s s'.
#[local] Instance keeps_state_preorder : PreOrder keeps_state.
Proof. unfold keeps_state. split; [done|]. intros s1 s2 s3 [? ?] [? ?]. split; by etrans. Qed.

Lemma Forward_Ok t phase net s : no_bridge t net -> all_ahead (own_params t net) s ->
  exists s', Forward t phase net s = Ok s' /\ all_ahead (own_params t net) s' /\
    trace s' = trace s ++ concat (map (forward_events phase) (own t net)) /\ keeps_state s s'.
Proof.
  intros Hb Ha. unfold Forward.
  rewrite (for_each_own _ (fun nl => lpartition nl.2 = w_id t)).
  2:{ intros [n l] s0 Hne. simpl in Hne. unfold forward_layer. by destruct (Z.eqb_spec (lpartition l) (w_id t)). }
  destruct (for_each_Ok (forward_layer t phase net) (all_ahead (own_params t net)) (fun _ _ => True)
    keeps_state (forward_events phase) (own t net)) with (s := s) as (s' & E & H & T & _ & K); try done.
  - intros [n l] s0 Hl Hs0.
    destruct (forward_layer_Ok t phase net n l (own_params t net) s0 Hl) as (s1 & ? & ? & ? & ? & ?); try done.
    + by apply (Hb n).
    + intros i. by apply (in_own_params t net n l).
    + by exists s1.
  - by exists s'.
Qed.

(** *** Backwards *)
Section backward.
Variables (t : Worker) (stp : Z) (own_of : Z -> Z) (is_ : list Z).
Hypothesis Hserver : updater_ t = false.

(** The params [is_] with their owners. *)
Definition params_known (s : state) : Prop :=
  net_ok (wd s) /\ forall i, i ∈ is_ -> exists p v, params (wd s) !! i = Some p /\ owner p = own_of i /\
    version p (hp (wd s)) = Ok v.
Definition stays_behind (s s' : state) : Prop :=
  (forall i, behind i (wd s) -> behind i (wd s')) /\ same_io s s'.
#[local] Instance stays_behind_preorder : PreOrder stays_behind.
Proof.
  unfold stays_behind. split; [by split|]. intros s1 s2 s3 [? ?] [? ?]. split; [auto|by etrans].
Qed.

(** The update request for a param with that owner. *)
Definition update_request (o : Z) : Msg :=
  set_type kUpdate (set_trgt (ParamTrgt o 0) stp
    (Msg_make (Addr (w_grp_id t) (w_id t) (entity_num kWorkerParam)) (Addr (-1) (-1) (entity_num kStub)))).

Lemma Update_param_Ok i s : i ∈ is_ -> params_known s ->
  exists s', Update_param t i stp s = Ok s' /\ params_known s' /\
    trace s' = trace s ++ [Send (update_request (own_of i))] /\ behind i (wd s') /\ stays_behind s s'.
Proof.
  intros Hi [Hn H]. destruct (H i Hi) as (p & v & Hp & Ho & Hv). unfold Update_param, get_param.
  rewrite Hp, deref_Some, bind_Ok, Hv, bind_Ok, Hserver. eexists. split; [done|].
  split; [split|split; [|split; [|split]]].
  - simpl. by apply net_ok_local.
  - intros j Hj. simpl. destruct (decide (i = j)) as [<-|Hij].
    + exists (set_local_version v p), v. by rewrite lookup_insert_eq.
    + rewrite lookup_insert_ne by done. apply (H j Hj).
  - simpl. do 2 f_equal. unfold request, update_request. rewrite <- Ho. done.
  - exists (set_local_version v p), v. simpl. rewrite lookup_insert_eq. split; [done|]. split; [done|]. simpl. lia.
  - intros j (q & u & Hq & Hu & Hle). simpl. destruct (decide (i = j)) as [<-|Hij].
    + exists (set_local_version v p), v. simpl. rewrite lookup_insert_eq. split; [done|]. split; [done|]. simpl. lia.
    + exists q, u. simpl. by rewrite lookup_insert_ne.
  - done.
Qed.

Definition backward_events (nl : Z * Layer) : list event :=
  Gradient nl.1 :: map (fun i => Send (update_request (own_of i))) (lparams nl.2).

Lemma concat_singletons {A B} (f : A -> B) (l : list A) : concat (map (fun x => [f x]) l) = map f l.
Proof. induction l; simpl; congruence. Qed.

Lemma update_all_Ok js s : (forall j, j ∈ js -> j ∈ is_) -> params_known s ->
  exists s', for_each (fun i => Update_param t i stp) js s = Ok s' /\ params_known s' /\
    trace s' = trace s ++ map (fun i => Send (update_request (own_of i))) js /\
    (forall j, j ∈ js -> behind j (wd s')) /\ stays_behind s s'.
Proof.
  intros Hj Hs. rewrite <- concat_singletons.
  apply (for_each_Ok _ params_known (fun i s => behind i (wd s)) stays_behind); [|by eauto using Update_param_Ok|done].
  intros i s1 s2 H [K _]. by apply K.
Qed.

Lemma backward_layer_Ok net n l s : (n, l) ∈ own t net -> is_bridgelayer l = false ->
  (forall i, i ∈ lparams l -> i ∈ is_) -> params_known s ->
  exists s', backward_layer t stp (n, l) s = Ok s' /\ params_known s' /\
    trace s' = trace s ++ backward_events (n, l) /\
    (forall i, i ∈ lparams l -> behind i (wd s')) /\ stays_behind s s'.
Proof.
  intros Hl Hb Hi [Hn H]. apply list_elem_of_filter in Hl as [Hl _]. simpl in Hl.
  apply orb_false_iff in Hb as [Hb1 Hb2]. unfold backward_layer. rewrite Hl, Z.eqb_refl.
  unfold compute_gradient. rewrite Hb1.
  destruct (gradient_Ok n kTrain (wd s) Hn) as (w' & -> & Hk & Hn'). rewrite !bind_Ok.
  destruct (update_all_Ok (lparams l) (emit (Gradient n) (set_world w' s))) as (s' & E & Hs' & Ht & Hbe & Hst & Hio);
    [done| |].
  { split; [done|]. intros i Hii. destruct (H i Hii) as (p & v & ? & ? & ?). exists p, v. simpl.
    rewrite (kp_params _ _ Hk). split; [done|]. split; [done|]. by apply (kp_version _ _ Hk). }
  exists s'. split; [done|]. split; [done|]. split.
  { rewrite Ht. simpl. by rewrite <- app_assoc. }
  split; [done|]. split; [|done]. intros i Hbi. apply Hst. simpl. by eapply keeps_behind.
Qed.

Lemma Backward_Ok net s : no_bridge t net -> is_ = own_params t net -> params_known s ->
  exists s', Backward t stp net s = Ok s' /\ params_known s' /\
    trace s' = trace s ++ concat (map backward_events (reverse (own t net))) /\
    (forall i, i ∈ own_params t net -> behind i (wd s')) /\ same_io s s'.
Proof.
  intros Hb Heq Hs. unfold Backward.
  rewrite (for_each_own _ (fun nl => lpartition nl.2 = w_id t)).
  2:{ intros [n l] s0 Hne. simpl in Hne. unfold backward_layer. by destruct (Z.eqb_spec (lpartition l) (w_id t)). }
  rewrite list.filter_reverse. fold (own t net).
  destruct (for_each_Ok (backward_layer t stp) params_known
    (fun nl s => forall i, i ∈ lparams nl.2 -> behind i (wd s)) stays_behind backward_events
    (reverse (own t net))) with (s := s) as (s' & E & H & T & R & _ & K); [| |done|].
  - intros [n l] s1 s2 HR [HK _] i Hi. auto.
  - intros [n l] s0 Hl Hs0. rewrite elem_of_reverse in Hl.
    apply (backward_layer_Ok net n l s0 Hl); [by apply (Hb n)| |done].
    intros i. rewrite Heq. by apply (in_own_params t net n l).
  - exists s'. split; [done|]. split; [done|]. split; [done|]. split; [|done].
    intros i Hi. unfold own_params in Hi. apply list_elem_of_In, in_concat in Hi as (ps & Hps & Hi).
    apply in_map_iff in Hps as ([n l] & <- & Hnl).
    apply (R (n, l)); [apply elem_of_reverse; by apply list_elem_of_In|by apply list_elem_of_In].
Qed.
End backward.

(** C6. A batch of a back-propagation worker whose layers need no bridge and whose
    params have been answered for: forwards, it waits for the params of each of its
    layers before it computes it; backwards, in the opposite order, it computes each
    gradient and then asks the stub to update that layer's params.  After the batch
    every one of them is behind, so that the next batch waits for the answers. *)
Theorem TrainOneBatch_spec (t : Worker) (stp : Z) (net : list Layer) (own_of : Z -> Z) (s : state)
    (Hserver : updater_ t = false) (Hb : no_bridge t net) (Hs : all_ahead (own_params t net) s)
    (Hown : forall i p, i ∈ own_params t net -> params (wd s) !! i = Some p -> owner p = own_of i) :
  exists s', TrainOneBatch t stp net s = Ok s' /\
    trace s' = trace s ++ concat (map (forward_events kTrain) (own t net))
      ++ concat (map (backward_events t stp own_of) (reverse (own t net))) /\
    (forall i, i ∈ own_params t net -> behind i (wd s')) /\
    (forall n l i is_, (n, l) ∈ own t net -> lparams l = i :: is_ -> others s = [] ->
       forward_layer t kTrain net (n, l) s' = OutOfFuel).
Proof.
  destruct (Forward_Ok t kTrain net s Hb Hs) as (s1 & E1 & [Hn1 Ha1] & T1 & [Hk Hio1]).
  destruct (Backward_Ok t stp own_of (own_params t net) Hserver net s1 Hb eq_refl)
    as (s2 & E2 & _ & T2 & B2 & Hio2).
  { split; [done|]. intros i Hi. destruct (Ha1 i Hi) as (p & v & Hp & Hv & _). exists p, v.
    split; [done|]. split; [|done]. apply (Hown i p Hi). by rewrite <- (kp_params _ _ Hk). }
  exists s2. split; [by unfold TrainOneBatch; rewrite E1, bind_Ok|]. split; [|split; [done|]].
  { by rewrite T2, T1, app_assoc. }
  intros n l i is_ Hl Hp Ho. pose proof (Hb n l Hl) as [_ Hd]%orb_false_iff.
  destruct (B2 i) as (p & v & Hpi & Hv & Hle); [apply (in_own_params t net n l i Hl); rewrite Hp; left|].
  apply list_elem_of_filter in Hl as [Hl _]. simpl in Hl.
  unfold forward_layer. rewrite Hl, Z.eqb_refl, Hd, bind_Ok, Hp. simpl. unfold Collect.
  destruct Hio2 as (_ & Ho2 & _), Hio1 as (_ & Ho1 & _). rewrite Ho2, Ho1, Ho. simpl.
  by rewrite Hpi, deref_Some, bind_Ok, Hv, bind_Ok, (proj2 (Z.leb_le _ _)).
Qed.

(** ** Checkpoints *)

(** C40. A checkpoint is read back.  The entry a worker writes for a param has its name,
    version and values; a worker that loads it into its param of that name, whatever
    the size of it, has the same values and shape, and the version of the checkpoint
    or, when told so, that of its first step. *)
Theorem Checkpoint_restore (t : Worker) (i : Z) (p : Param) (h : heap) (b : Blob) (vs : list Z)
    (Hok : heap_ok h) (Hd : data_blob p h = Ok b) (Hb : blob_holds h b vs)
    (Hpos : Forall (Z.lt 0) (shape_ b)) (Hsize : count_ b = shape_size (shape_ b)) (Hmax : count_ b <= INT_MAX) :
  exists h1 blob, ckpt_all [(i, p)] h = Ok (h1, [(pname (proto_ p), version_ b, blob)]) /\
    forall m s j q b2, m !! pname (proto_ p) = Some j -> params (wd s) !! j = Some q ->
      data_blob q (hp (wd s)) = Ok b2 -> heap_ok (hp (wd s)) -> blob_wf (hp (wd s)) b2 ->
      exists s' b3, load_ckpt t m (pname (proto_ p), version_ b, blob) s = Ok s' /\
        params (wd s') = params (wd s) /\ trace s' = trace s /\
        data_blob q (hp (wd s')) = Ok b3 /\ blob_holds (hp (wd s')) b3 vs /\ shape_ b3 = shape_ b /\
        version_ b3 = (if reset_param_version (modelproto_ t) then Worker.step (modelproto_ t) else version_ b).
Proof.
  destruct (ToProto_Ok h b vs Hok Hb) as (h1 & E1 & _ & Hk). exists h1, (mkBlobProto (shape_ b) vs). split.
  { simpl. rewrite Hd, bind_Ok, E1, bind_Ok. unfold version. unfold data_blob in *.
    destruct (pdata p) as [k|]; [|done]. rewrite deref_Some, bind_Ok in *.
    destruct (blobs h !! k) as [b0|] eqn:Eb; [|done]. injection Hd as ->.
    by rewrite (keeps_blob _ _ Hk _ _ Eb). }
  intros m s j q b2 Hm Hq Hd2 Hok2 Hwf. unfold load_ckpt. rewrite Hm. unfold get_param.
  rewrite Hq, deref_Some, bind_Ok. unfold Param_FromProto. rewrite Hd2, bind_Ok.
  destruct (FromProto_Ok (hp (wd s)) b2 (shape_ b) vs Hok2 Hwf Hpos) as (h2 & b3 & -> & _ & Hb3 & Hs3);
    [rewrite <- Hsize; symmetry; apply Hb|lia|apply Hb|]. rewrite bind_Ok.
  unfold data_blob in Hd2. destruct (pdata q) as [k|] eqn:Ek; [|done].
  unfold set_data_blob, param_set_version. rewrite Ek, !deref_Some, !bind_Ok. simpl.
  rewrite lookup_insert_eq, deref_Some, bind_Ok. eexists _, _. split; [done|]. do 2 (split; [done|]).
  unfold data_blob. rewrite Ek, deref_Some, bind_Ok. simpl. rewrite lookup_insert_eq. split; [done|].
  split; [|done]. destruct Hb3 as [? ? ? (i0 & rest & ? & ? & ?)]. constructor; try done. by exists i0, rest.
Qed.

(** ** Run *)
Lemma for_each_trace {A} (f : A -> state -> outcome state) l :
  (forall x s s', f x s = Ok s' -> trace s' = trace s) ->
  forall s s', for_each f l s = Ok s' -> trace s' = trace s.
Proof.
  intros Hf. induction l as [|x l IH]; intros s s' H; simpl in H; [by injection H as ->|].
  inv_ok H. by rewrite (IH _ _ H), (Hf _ _ _ E).
Qed.

Lemma InitLocalParams_trace t c ckpts net s s' :
  InitLocalParams t c ckpts net s = Ok s' -> trace s' = trace s.
Proof.
  unfold InitLocalParams. intros H. inv_ok H. inv_ok H.
  destruct (a0 =? 0); [|by injection H as ->]. inv_ok H. inv_ok H. inv_ok H.
  etrans; [eapply for_each_trace; [|exact H]|eapply for_each_trace; [|exact E3]].
  - intros i s1 s2 H2. unfold init_param in H2. inv_ok H2. inv_ok H2. destruct (a5 <? 0); inv_oks; by subst.
  - intros [[nm v] bl] s1 s2 H2. unfold load_ckpt in H2. destruct (a2 !! nm); inv_oks; by subst.
Qed.

Lemma test_loop_Ok t net k rest : no_bridge t net -> forall s, all_ahead (own_params t net) s ->
  exists s', test_loop t net (replicate k false ++ true :: rest) s = Ok s' /\
    trace s' = trace s ++ concat (replicate k (concat (map (forward_events kTrain) (own t net)))).
Proof.
  intros Hb. induction k as [|k IH]; intros s Hs.
  { exists s. simpl. by rewrite app_nil_r. }
  destruct (Forward_Ok t kTrain net s Hb Hs) as (s1 & E1 & Hs1 & T1 & _).
  destruct (IH s1 Hs1) as (s2 & E2 & T2). exists s2. simpl. unfold TestOneBatch. rewrite E1, bind_Ok.
  split; [done|]. by rewrite T2, T1, app_assoc.
Qed.

Lemma own_no_bridge t net : no_bridge t net ->
  existsb (fun l => (lpartition l =? w_id t) && is_bridgelayer l) net = false.
Proof.
  intros Hb. assert (forall k, (forall n l, (n, l) ∈ filter (fun nl => lpartition nl.2 = w_id t) (number k net) ->
    is_bridgelayer l = false) ->
    existsb (fun l => (lpartition l =? w_id t) && is_bridgelayer l) net = false) as H.
  { clear Hb. induction net as [|l net IH]; intros k Hk; [done|]. cbn [existsb number] in *.
    rewrite (IH (k + 1)).
    - destruct (Z.eqb_spec (lpartition l) (w_id t)) as [He|]; [|done]. rewrite (Hk k l); [done|].
      rewrite list.filter_cons, decide_True by done. left.
    - intros n l' Hl. apply (Hk n l'). rewrite list.filter_cons. destruct (decide _); [by right|done]. }
  apply (H 0). exact Hb.
Qed.

(** What [Run] does: once its params are initialised, a back-propagation worker
    without bridges says hello to the stub, goes forwards through its layers as often
    as the flag file is missing, and says goodbye.  It computes no gradient, asks for
    no update and saves nothing. *)
Theorem Run_spec (t : Worker) (c : ClusterProto) (ckpts : list (list ckpt)) (net : list Layer) (k : nat)
    (rest : list bool) (s s0 : state)
    (Hb : no_bridge t net)
    (Hinit : InitLocalParams t c ckpts net
       (emit (Send (ConnectStub (w_grp_id t) (w_id t) kWorkerParam)) s) = Ok s0)
    (Hs : all_ahead (own_params t net) s0) :
  exists s', Run t c ckpts net (replicate k false ++ true :: rest) s = Ok s' /\
    exists hello bye, type hello = kConnect /\ type bye = kStop /\
      src hello = src bye /\ dst hello = Addr (-1) (-1) (entity_num kStub) /\ dst bye = dst hello /\
      trace s' = trace s ++ Send hello ::
        concat (replicate k (concat (map (forward_events kTrain) (own t net)))) ++ [Send bye].
Proof.
  unfold Run. rewrite own_no_bridge by done. rewrite Hinit, bind_Ok.
  destruct (test_loop_Ok t net k rest Hb s0 Hs) as (s1 & E1 & T1). rewrite E1, bind_Ok.
  eexists. split; [done|]. eexists _, _. split; [|split; [|split; [|split; [|split; [|
    simpl; rewrite T1, (InitLocalParams_trace _ _ _ _ _ _ Hinit); simpl; rewrite <- !app_assoc; reflexivity]]]]]; done.
Qed.
End worker.
