(* ===== verification/WorkerThrough.v ===== *)
(** * A worker and the others: its stub and the workers it sends blobs to

    [Collect] returns once the stub has handled the last answer to an update
    ([Collect_after_response]); a blob sent by a bridge layer is what the bridge layer
    of the other worker holds after [ReceiveBlobs] ([Blobs_through]). *)

From S2P Require Import Prelude Float32 Msg Format Memory Param ParamProps ParamUpdate Updater Server Cluster Stub.
From S2P Require Import UpdaterProps ServerProps StubProps StubServer Worker WorkerProps.

Section through.
Context `{C : Czmq} `{!CzmqLaws C} `{U : Updater} `{L : Layers}.

(** ** Updates *)
Lemma ParseResponseMsg_param m ix p h h' p' r :
  ParseUpdateResponseMsg m ix p h = Ok (h', p', r) -> local_version p' = local_version p.
Proof.
  unfold ParseUpdateResponseMsg. intros H. inv_oks. by subst.
Qed.

Lemma HandleUpdateResponse_local entry m w w' j q q' :
  shares entry !! 0%nat = Some j -> params w !! j = Some q -> HandleUpdateResponse entry m w = Ok w' ->
  params w' !! j = Some q' -> local_version q' = local_version q.
Proof.
  intros Hs Hq H Hq'. unfold HandleUpdateResponse in H.
  rewrite (vec_at_lookup (shares entry) 0 j Hs : vec_at (shares entry) 0 = Ok j), bind_Ok, Hq, deref_Some, bind_Ok in H.
  inv_ok H. destruct a as [[h1 p1] r]. apply ParseResponseMsg_param in E. inv_ok H. injection H as <-.
  simpl in Hq'. rewrite lookup_insert_eq in Hq'. injection Hq' as <-. done.
Qed.

(** C35. A worker that waits for its update goes on when the stub has handled the answer
    for the last pending slice: [Collect] returns, and that slice has the values of the
    answer. *)
Theorem Collect_after_response (s : state) (entry : ParamEntry) (j : Z) (q : Param) (base : Z) (vs : list Z)
    (ix : nat) (m : Msg) (ws : list Z) (more : list (list Z))
    (Hw : waiting entry (wd s) j q base vs ix) (Hb : behind j (wd s))
    (Hlast : Forall (eq false) (<[ix := false]> (pending_update q)))
    (Hm : at_frame m (copy_frame :: bytes_of_f32s ws :: more) 0)
    (Hsl : SliceID (trgt_val m) = slice_start q + Z.of_nat ix)
    (Hl : length ws = slice_len q ix) (Hf : Forall is_f32 ws)
    (Hv : local_version q < trgt_version m)
    (Ho : others s = [fun w => HandleUpdateResponse entry m w]) :
  exists h' q', Collect j s =
      Ok (mkState (put_param j q' h' (wd s)) (ready s) [] (inbox s) (trace s ++ [Waited j])) /\
    heap_ok h' /\ param_at h' q' base (slice_put q ix ws vs) /\ version q' h' = Ok (trgt_version m).
Proof.
  destruct (HandleUpdateResponse_Ok entry (wd s) j q base vs ix m ws more Hw Hm Hsl Hl Hf)
    as (h' & q' & E & Hok & Hp & Hpu & Hver).
  rewrite <- Hpu in Hlast. specialize (Hver Hlast).
  assert (local_version q' = local_version q) as Hlv.
  { eapply HandleUpdateResponse_local; [apply Hw|apply Hw|exact E|]. simpl. by rewrite lookup_insert_eq. }
  exists h', q'. split; [|done]. unfold Collect. rewrite Ho, collect_behind by done. rewrite E, bind_Ok.
  rewrite collect_ahead; [done|]. exists q', (trgt_version m). simpl. rewrite lookup_insert_eq, Hlv. done.
Qed.

(** ** Blobs *)
Lemma SendBlobs_Ok (t : Worker) (l : Layer) (net : list Layer) (s : state) (d : Layer) (k : nat) (base : Z) (vs : list Z) :
  dstlayers l !! 0%nat = Some (Z.of_nat k) -> net !! k = Some d -> at_cpu (hp (wd s)) (ldata l) base vs ->
  exists m, SendBlobs t l net s = Ok (emit (SendLayer m) (set_world (set_hp (hp (wd s)) (wd s)) s)) /\
    src m = Addr (w_grp_id t) (w_id t) (entity_num kWorkerLayer) /\
    dst m = Addr (w_grp_id t) (lpartition d) (entity_num kWorkerLayer) /\
    has_frames m [bytes_of_string (lname d); bytes_of_f32s vs].
Proof.
  intros Hd Hn Ha. unfold SendBlobs.
  rewrite (vec_at_lookup (dstlayers l) 0 _ Hd : vec_at (dstlayers l) 0 = Ok (Z.of_nat k)), bind_Ok.
  rewrite (idx_lookup net k d Hn), bind_Ok. cbn zeta.
  destruct (AddFrame_Ok (set_dst (Addr (w_grp_id t) (lpartition d) (entity_num kWorkerLayer))
    (set_src (Addr (w_grp_id t) (w_id t) (entity_num kWorkerLayer)) Msg_new)) [] (bytes_of_string (lname d)))
    as (m1 & -> & Hm1 & (Hs1 & Hd1 & _)); [apply Msg_new_frames|]. rewrite bind_Ok.
  destruct (at_cpu_data _ _ _ _ Ha) as [-> _]. rewrite bind_Ok.
  rewrite (at_cpu_load_all _ _ _ _ _ Ha), bind_Ok by (rewrite (at_cpu_count _ _ _ _ Ha); lia).
  destruct (AddFrame_Ok m1 _ (bytes_of_f32s vs) Hm1) as (m2 & -> & Hm2 & (Hs2 & Hd2 & _)). rewrite bind_Ok.
  exists m2. split; [done|]. split; [by rewrite Hs2, Hs1|]. split; [by rewrite Hd2, Hd1|done].
Qed.

Lemma ReceiveBlobs_Ok (t : Worker) (r : Z) (rl : Layer) (net : list Layer) (s : state) (m : Msg) (rest : list Msg)
    (name : string) (base : Z) (vs ws : list Z) :
  inbox s = m :: rest -> default false (ready s !! r) = false -> AddrGrp (src m) = w_grp_id t ->
  at_frame m [bytes_of_string name; bytes_of_f32s ws] 0 ->
  name2layer net (bytes_of_string name) = Some (r, rl) -> is_bridgelayer rl = true ->
  heap_ok (hp (wd s)) -> at_cpu (hp (wd s)) (ldata rl) base vs -> length ws = length vs -> Forall is_f32 ws ->
  exists h', ReceiveBlobs t r net s =
      Ok (mkState (set_hp h' (wd s)) (<[r := true]> (ready s)) (others s) rest (trace s)) /\
    heap_ok h' /\ at_cpu h' (ldata rl) base ws /\ blobs h' = blobs (hp (wd s)).
Proof.
  intros Hin Hr Hg Hm Hname Hb Hok Ha Hl Hf. unfold ReceiveBlobs. rewrite Hin. simpl.
  rewrite Hr, Hg, Z.eqb_refl. simpl CHECK. rewrite bind_Ok.
  rewrite (FrameData_Ok m _ 0 (bytes_of_string name) Hm eq_refl), bind_Ok, Hname, deref_Some, bind_Ok, Hb.
  simpl CHECK. rewrite bind_Ok.
  destruct (NextFrame_Ok m _ 0 Hm) as (m1 & -> & Hm1 & _); [simpl; lia|]. rewrite bind_Ok.
  destruct (at_cpu_data _ _ _ _ Ha) as [_ ->]. rewrite bind_Ok.
  rewrite (FrameData_Ok m1 _ 1 (bytes_of_f32s ws) Hm1 eq_refl), bind_Ok.
  assert (at_cpu (hp (wd s)) (ldata rl) base ([] ++ vs ++ [])) as Ha' by (simpl; by rewrite app_nil_r).
  destruct (at_cpu_store _ _ _ [] vs [] ws Hok Ha' Hl Hf) as (h' & E & Hok' & Ha2 & _ & Hbl & _).
  simpl in E, Ha2. rewrite Z.add_0_r in E. rewrite app_nil_r in Ha2. rewrite E, bind_Ok.
  exists h'. split; [|done]. destruct rest; simpl; rewrite lookup_insert_eq; done.
Qed.

(** C34. A blob goes from worker to worker: the message [SendBlobs] makes for the
    destination of a bridge layer is addressed to the worker of its partition, and when
    it is the next to arrive there, [ReceiveBlobs] copies exactly the sender's values to
    the layer of that name and makes it ready. *)
Theorem Blobs_through (t : Worker) (l d : Layer) (net : list Layer) (s : state) (k : nat) (base : Z) (vs : list Z)
    (Hgrp : - 2 ^ 15 <= w_grp_id t < 2 ^ 15) (Hid : 0 <= w_id t < 2 ^ 8) (Hpart : 0 <= lpartition d < 2 ^ 8)
    (Hd : dstlayers l !! 0%nat = Some (Z.of_nat k)) (Hn : net !! k = Some d)
    (Ha : at_cpu (hp (wd s)) (ldata l) base vs) :
  exists m s1, SendBlobs t l net s = Ok s1 /\ trace s1 = trace s ++ [SendLayer m] /\
    AddrGrp (dst m) = w_grp_id t /\ AddrID (dst m) = lpartition d /\
    forall m2 t2 s2 r rl rest base2 vs2, received m m2 -> w_grp_id t2 = w_grp_id t -> w_id t2 = lpartition d ->
      inbox s2 = m2 :: rest -> default false (ready s2 !! r) = false ->
      name2layer net (bytes_of_string (lname d)) = Some (r, rl) -> is_bridgelayer rl = true ->
      heap_ok (hp (wd s2)) -> at_cpu (hp (wd s2)) (ldata rl) base2 vs2 -> length vs2 = length vs ->
      exists s3, ReceiveBlobs t2 r net s2 = Ok s3 /\ inbox s3 = rest /\ ready s3 !! r = Some true /\
        at_cpu (hp (wd s3)) (ldata rl) base2 vs /\ params (wd s3) = params (wd s2).
Proof.
  destruct (SendBlobs_Ok t l net s d k base vs Hd Hn Ha) as (m & E & Hs & Hdst & Hm).
  exists m. eexists. split; [exact E|]. split; [done|].
  destruct (Addr_fields (w_grp_id t) (lpartition d) (entity_num kWorkerLayer)) as (H1 & H2 & _); [done|done|done|].
  destruct (Addr_fields (w_grp_id t) (w_id t) (entity_num kWorkerLayer)) as (H3 & _); [done|done|done|].
  rewrite Hdst. do 2 (split; [done|]).
  intros m2 t2 s2 r rl rest base2 vs2 [Harr (Hsrc & _)] Hg2 _ Hin Hr Hname Hb Hok Ha2 Hlen.
  destruct (ReceiveBlobs_Ok t2 r rl net s2 m2 rest (lname d) base2 vs2 vs Hin Hr) as (h' & E' & _ & Ha' & _);
    try done.
  - by rewrite Hsrc, Hs, H3, Hg2.
  - by eapply arrives_at.
  - by eapply at_cpu_f32.
  - eexists. split; [exact E'|]. split; [done|]. split; [apply lookup_insert_eq|done].
Qed.

End through.

(** ** Witnesses: layers that compute nothing *)
#[local] Instance demo_layers : Layers := {
  ComputeFeature _ _ w := Ok w;
  ComputeGradient _ _ w := Ok w;
  ComputeLoss _ w := Ok w;
  sample _ h := Ok h;
}.
#[local] Instance demo_layers_laws : LayersLaws demo_layers.
Proof. exists (fun _ => True); try done; intros; exists w; by split. Defined.
#[local] Existing Instances ListCzmq.czmq ListCzmq.czmq_laws demo_libm.
#[local] Instance demo_sgd_rule : Updater := SGD_updater demo_updater.

Definition demo_model : ModelProto :=
  mkModel 10 0 false 100 20 0 5 1 5 0 0 0 0 0 0 false 15.
Definition demo_worker1 : Worker := mkWorker 0 0 0 demo_model false.
(** One slice, whose update is pending. *)
Definition demo_waiting (lv : Z) : Param :=
  mkParam lv 0 1 [0] [2] [false] [false] [true] 1 (Some 1) Blob_new Blob_new ParamProto_default.
Definition demo_wworld (lv : Z) : world := mkWorld demo_pheap {[7 := demo_waiting lv]} 8 ∅.
Definition demo_wentry : ParamEntry := mkEntry 0 (Some 0) (Some 1) 1 [7].
Definition demo_answer : Msg :=
  mkMsg 0 0 kRUpdate 0 3
    (Some (ListCzmq.Build_t [copy_frame; bytes_of_f32s demo_floats] (Some 0%nat))) (Some 0%nat).

Lemma demo_waiting_is lv : waiting demo_wentry (demo_wworld lv) 7 (demo_waiting lv) 1 demo_floats 0.
Proof.
  constructor; try done.
  - apply demo_pheap_ok.
  - exists 1, demo_blob. split; [done|]. split; [done|]. apply demo_at_cpu.
  - constructor; [|repeat constructor|done]. constructor; try done. intros [|i]; simpl; [done|lia].
  - repeat constructor.
Qed.

Lemma Collect_after_response_witness : exists h' q',
  Collect 7 (mkState (demo_wworld 0) ∅ [fun w => HandleUpdateResponse demo_wentry demo_answer w] [] []) =
    Ok (mkState (put_param 7 q' h' (demo_wworld 0)) ∅ [] [] [Waited 7]) /\ version q' h' = Ok 3.
Proof.
  destruct (Collect_after_response
    (mkState (demo_wworld 0) ∅ [fun w => HandleUpdateResponse demo_wentry demo_answer w] [] [])
    demo_wentry 7 (demo_waiting 0) 1 demo_floats 0 demo_answer demo_floats [] (demo_waiting_is 0))
    as (h' & q' & E & _ & _ & Hv).
  - exists (demo_waiting 0), 0. split; [reflexivity|]. split; [reflexivity|simpl; lia].
  - repeat constructor.
  - by eexists.
  - reflexivity.
  - reflexivity.
  - repeat constructor; vm_compute; done.
  - reflexivity.
  - reflexivity.
  - exists h', q'. split; [exact E|exact Hv].
Defined.

Definition demo_net : list Layer :=
  [mkLayer "a:-" 0 [] true false false false [1] demo_blob;
   mkLayer "-:b" 1 [] false true false false [] demo_blob].

Lemma Blobs_through_witness : exists m s1,
  SendBlobs demo_worker1 (mkLayer "a:-" 0 [] true false false false [1] demo_blob) demo_net
    (mkState (demo_wworld 0) ∅ [] [] []) = Ok s1 /\ trace s1 = [SendLayer m] /\ AddrID (dst m) = 1.
Proof.
  destruct (Blobs_through demo_worker1 (mkLayer "a:-" 0 [] true false false false [1] demo_blob)
    (mkLayer "-:b" 1 [] false true false false [] demo_blob) demo_net (mkState (demo_wworld 0) ∅ [] [] []) 1 1
    demo_floats) as (m & s1 & E & T & _ & Hd & _).
  - simpl. lia.
  - simpl. lia.
  - simpl. lia.
  - reflexivity.
  - reflexivity.
  - exact demo_at_cpu.
  - exists m, s1. split; [exact E|]. split; [exact T|exact Hd].
Defined.

Lemma TrainOneBatch_spec_witness : exists s',
  TrainOneBatch demo_worker1 5 [mkLayer "fc" 0 [7] false false false false [] demo_blob]
    (mkState (demo_wworld (-1)) ∅ [] [] []) = Ok s' /\
  trace s' = [Waited 7; Feature 0 kTrain; Gradient 0; Send (update_request demo_worker1 5 (-1))] /\
  behind 7 (wd s').
Proof.
  destruct (TrainOneBatch_spec demo_worker1 5 [mkLayer "fc" 0 [7] false false false false [] demo_blob]
    (fun _ => -1) (mkState (demo_wworld (-1)) ∅ [] [] [])) as (s' & E & T & B & _).
  - reflexivity.
  - intros n l Hl. apply list_elem_of_filter in Hl as [_ Hl]. apply list_elem_of_singleton in Hl.
    injection Hl as -> ->. reflexivity.
  - split; [exact I|]. intros i Hi. apply list_elem_of_singleton in Hi as ->.
    exists (demo_waiting (-1)), 0. split; [reflexivity|]. split; [reflexivity|simpl; lia].
  - intros i p Hi Hp. apply list_elem_of_singleton in Hi as ->. vm_compute in Hp. injection Hp as <-. reflexivity.
  - exists s'. split; [exact E|]. split; [exact T|]. apply B. left.
Defined.

Lemma Collect_waits_witness : exists wk,
  Collect 7 (mkState (demo_wworld 0) ∅
    [fun w => Ok w; fun w => Ok (put_param 7 (demo_waiting (-1)) (hp w) w)] [] []) =
  Ok (mkState wk ∅ [] [] [Waited 7]).
Proof.
  eexists. apply (Collect_waits 7 2 (mkState (demo_wworld 0) ∅
    [fun w => Ok w; fun w => Ok (put_param 7 (demo_waiting (-1)) (hp w) w)] [] [])).
  - simpl. lia.
  - intros [|[|j]] Hj; [| |lia]; (eexists; split; [reflexivity|]);
      (exists (demo_waiting 0), 0; split; [reflexivity|]; split; [reflexivity|simpl; lia]).
  - reflexivity.
  - exists (demo_waiting (-1)), 0. split; [reflexivity|]. split; [reflexivity|simpl; lia].
Defined.

Lemma Schedule_spec_witness : exists d c te v vi,
  DisplayNow demo_worker1 20 = Ok d /\ CheckpointNow demo_worker1 20 = Ok c /\ TestNow demo_worker1 20 = Ok te /\
  ValidateNow demo_worker1 20 = Ok v /\ VisNow demo_worker1 20 = Ok vi /\
  (te = true <-> (0 = 0 /\ 0 < 1) /\ due 5 5 20).
Proof.
  destruct (Schedule_spec demo_worker1 20) as (d & c & te & v & vi & H1 & H2 & H3 & H4 & H5 & _ & _ & Ht & _).
  - unfold schedule_ok, INT_MAX. simpl. lia.
  - exists d, c, te, v, vi. split; [exact H1|]. split; [exact H2|]. split; [exact H3|]. split; [exact H4|].
    split; [exact H5|exact Ht].
Defined.

Lemma Checkpoint_restore_witness : exists h1 blob s' b3,
  ckpt_all [(7, demo_waiting 0)] demo_pheap = Ok (h1, [(""%string, 0, blob)]) /\
  load_ckpt demo_worker1 {[""%string := 7]} (""%string, 0, blob) (mkState (demo_wworld 0) ∅ [] [] []) = Ok s' /\
  data_blob (demo_waiting 0) (hp (wd s')) = Ok b3 /\ blob_holds (hp (wd s')) b3 demo_floats.
Proof.
  destruct (Checkpoint_restore demo_worker1 7 (demo_waiting 0) demo_pheap demo_blob demo_floats)
    as (h1 & blob & E & H).
  - exact demo_pheap_ok.
  - reflexivity.
  - exact (at_holds _ _ _ _ demo_at_cpu).
  - repeat constructor.
  - reflexivity.
  - vm_compute. discriminate.
  - destruct (H {[""%string := 7]} (mkState (demo_wworld 0) ∅ [] [] []) 7 (demo_waiting 0) demo_blob)
      as (s' & b3 & E2 & _ & _ & Hd & Hb & _).
    + reflexivity.
    + reflexivity.
    + reflexivity.
    + exact demo_pheap_ok.
    + eapply blob_holds_wf. exact (at_holds _ _ _ _ demo_at_cpu).
    + exists h1, blob, s', b3. split; [exact E|]. split; [exact E2|]. split; [exact Hd|exact Hb].
Defined.

Lemma Run_spec_witness : exists s' hello bye,
  Run demo_worker1 demo_two_procs [] [mkLayer "fc" 0 [7] false false false false [] demo_blob]
    [false; false; true] (mkState (demo_wworld (-1)) ∅ [] [] []) = Ok s' /\
  trace s' = [Send hello; Waited 7; Feature 0 kTrain; Waited 7; Feature 0 kTrain; Send bye].
Proof.
  destruct (Run_spec demo_worker1 demo_two_procs [] [mkLayer "fc" 0 [7] false false false false [] demo_blob] 2 []
    (mkState (demo_wworld (-1)) ∅ [] [] [])
    (emit (Send (ConnectStub 0 0 kWorkerParam)) (mkState (demo_wworld (-1)) ∅ [] [] [])))
    as (s' & E & hello & bye & _ & _ & _ & _ & _ & T).
  - intros n l Hl. apply list_elem_of_filter in Hl as [_ Hl]. apply list_elem_of_singleton in Hl.
    injection Hl as -> ->. reflexivity.
  - vm_compute. reflexivity.
  - split; [exact I|]. intros i Hi. apply list_elem_of_singleton in Hi as ->.
    exists (demo_waiting (-1)), 0. split; [reflexivity|]. split; [reflexivity|simpl; lia].
  - exists s', hello, bye. split; [exact E|exact T].
Defined.
