(* ===== verification/LayerConf.v ===== *)
(** * job.proto: the configuration of layers

    [LayerProto] with the sub-message of the layer's type.  The fields that only elastic
    distortion, the optional LMDB layer or the extraction of features would use are left
    out, as the code never gets to use them or is not modelled. *)

From S2P Require Import Prelude Param Worker.

Inductive ConnectionType := kOneToOne | kOneToAll | kOneToMany.
Inductive LayerType :=
| kBridgeSrc | kBridgeDst | kConvolution | kConcate | kShardData | kDropout | kInnerProduct
| kInput | kLabel | kLMDBData | kLRN | kMnist | kOutput | kPooling | kPrefetch | kReLU
| kRGBImage | kSoftmaxLoss | kSlice | kSplit | kTanh | kRBMVis | kRBMHid.
#[export] Instance ConnectionType_eq_dec : EqDecision ConnectionType.
Proof. solve_decision. Defined.
#[export] Instance LayerType_eq_dec : EqDecision LayerType.
Proof. solve_decision. Defined.
#[export] Instance Phase_eq_dec : EqDecision Phase.
Proof. solve_decision. Defined.

(** The message, over the type of the sub-message. *)
Record LayerProto_of (Conf : Type) := mkLayerProto {
  lp_name : string;
  lp_type : LayerType;
  lp_partition_dim : option Z;
  lp_partition_id : Z;
  lp_srclayers : list string;
  lp_params : list ParamProto;
  lp_exclude : list Phase;
  lp_datablob : string;
  lp_conf : Conf;
}.
Arguments mkLayerProto {Conf}.
Arguments lp_name {Conf}.
Arguments lp_type {Conf}.
Arguments lp_partition_dim {Conf}.
Arguments lp_partition_id {Conf}.
Arguments lp_srclayers {Conf}.
Arguments lp_params {Conf}.
Arguments lp_exclude {Conf}.
Arguments lp_datablob {Conf}.
Arguments lp_conf {Conf}.

Inductive PoolMethod := MAX | AVE.
Inductive NormRegion := ACROSS_CHANNELS | WITHIN_CHANNEL.

(** The sub-message that is set; floats by their bits. *)
Inductive LayerConf :=
| NoConf
| ConvolutionConf (num_filters kernel pad stride : Z)
| ConcateConf (concate_dim : Z)
| DropoutConf (dropout_ratio : Z)
| InnerProductConf (num_output : Z)
| InputConf (path : string)
| LRNConf (local_size alpha beta knorm : Z) (norm_region : NormRegion)
| MnistConf (norm_a norm_b resize : Z)
| OutputConf (path : string) (topk scale : Z)
| PoolingConf (kernel : Z) (pool : PoolMethod) (stride : Z)
| PrefetchConf (sublayers : list (LayerProto_of LayerConf))
| RGBImageConf (scale cropsize : Z) (mirror : bool) (meanfile : option string)
| ShardDataConf (path : string) (batchsize random_skip : Z)
| SliceConf (slice_dim : Z)
| SoftmaxLossConf (topk scale : Z)
| RBMVisConf (num_output : Z)
| RBMHidConf (hid_dim : Z).
Notation LayerProto := (LayerProto_of LayerConf).

Definition lp_pdim (l : LayerProto) : Z := default (-1) (lp_partition_dim l).
Definition set_pdim (d : Z) (l : LayerProto) : LayerProto :=
  mkLayerProto (lp_name l) (lp_type l) (Some d) (lp_partition_id l) (lp_srclayers l) (lp_params l)
    (lp_exclude l) (lp_datablob l) (lp_conf l).
Definition set_pid (i : Z) (l : LayerProto) : LayerProto :=
  mkLayerProto (lp_name l) (lp_type l) (lp_partition_dim l) i (lp_srclayers l) (lp_params l)
    (lp_exclude l) (lp_datablob l) (lp_conf l).
Definition set_params (ps : list ParamProto) (l : LayerProto) : LayerProto :=
  mkLayerProto (lp_name l) (lp_type l) (lp_partition_dim l) (lp_partition_id l) (lp_srclayers l) ps
    (lp_exclude l) (lp_datablob l) (lp_conf l).
Record NetProto := mkNetProto { np_layers : list LayerProto; np_partition_dim : Z }.

(** [LayerProto()] *)
Definition LayerProto_default (ty : LayerType) : LayerProto :=
  mkLayerProto "" ty None 0 [] [] [] "unknow" NoConf.

(** The layers registered with the factory; the LMDB layer is optional. *)
Definition create_layer (ty : LayerType) : outcome LayerType :=
  _ ← CHECK (negb (bool_decide (ty = kLMDBData))); Ok ty.
Definition src_neuron_connection (ty : LayerType) : ConnectionType :=
  match ty with
  | kConvolution | kInnerProduct | kSoftmaxLoss | kOutput => kOneToAll
  | _ => kOneToOne
  end.
Definition dst_layer_connection (ty : LayerType) : ConnectionType :=
  match ty with
  | kShardData | kInput | kLMDBData | kSlice | kSplit => kOneToMany
  | _ => kOneToOne
  end.
