(* ===== verification/NeuralNet.v ===== *)
(** * neuralnet/neuralnet.h, neuralnet/neuralnet.cc: from configurations to layers

    [Create] selects the layers of a phase and resolves shared configurations of
    params; [CreateGraph] partitions the layers into nodes and connects these, adding
    nodes that slice, concatenate, split and bridge. *)

From S2P Require Import Prelude Msg Format Memory Param Server Graph Worker LayerConf.

(** ** Create *)
Definition include (phase : Phase) (l : LayerProto) : bool :=
  negb (bool_decide (phase ∈ lp_exclude l)).
Definition conf_layer (np : NetProto) (l : LayerProto) : LayerProto :=
  match lp_partition_dim l with None => set_pdim (np_partition_dim np) l | Some _ => l end.

(** A [ParamProto*] into the configuration: the layer and the index in it. *)
Definition pptr : Type := nat * nat.
Definition get_pp (q : pptr) (ls : list LayerProto) : option ParamProto :=
  l ← ls !! q.1; lp_params l !! q.2.
Definition set_pp (q : pptr) (p : ParamProto) (ls : list LayerProto) : list LayerProto :=
  alter (fun l => set_params (<[q.2 := p]> (lp_params l)) l) q.1 ls.

(** The maps made while the layers are added. *)
Fixpoint index_params (li k : nat) (ps : list ParamProto) (st : gmap string pptr * list pptr)
    : outcome (gmap string pptr * list pptr) :=
  match ps with
  | [] => Ok st
  | p :: ps =>
      let '(name2param, shares) := st in
      name2param ←
        (if decide (pname p = "") then Ok name2param
         else _ ← CHECK (negb (bool_decide (is_Some (name2param !! pname p))));
              Ok (<[pname p := (li, k)]> name2param));
      let shares := if decide (share_from p = "") then shares else shares ++ [(li, k)] in
      index_params li (S k) ps (name2param, shares)
  end.
Fixpoint index_layers (li : nat) (ls : list LayerProto) (st : gmap string pptr * list pptr)
    : outcome (gmap string pptr * list pptr) :=
  match ls with
  | [] => Ok st
  | l :: ls => st ← index_params li 0 (lp_params l) st; index_layers (S li) ls st
  end.
Fixpoint share_confs (shares : list pptr) (name2param : gmap string pptr) (ls : list LayerProto)
    : outcome (list LayerProto) :=
  match shares with
  | [] => Ok ls
  | q :: shares =>
      p ← deref (get_pp q ls);
      _ ← CHECK (bool_decide (is_Some (name2param !! share_from p)));
      q' ← map_at (name2param !! share_from p);
      p' ← deref (get_pp q' ls);
      share_confs shares name2param
        (set_pp q (mkProto (pname p) (pid p') (powner p') (share_from p) (lr_mult p') (wd_mult p')) ls)
  end.
Definition Create (np : NetProto) (phase : Phase) : outcome NetProto :=
  let ls := map (conf_layer np) (filter (fun l => include phase l) (np_layers np)) in
  '(name2param, shares) ← index_layers 0 ls (∅, []);
  ls ← share_confs shares name2param ls;
  Ok (mkNetProto ls (np_partition_dim np)).

(** ** The graph of nodes *)

(** The graph with the protos its nodes point to; [next_node] is the next object. *)
Record net_graph := mkNetGraph {
  graph : Graph;
  protos : gmap Z LayerProto;
  next_node : Z;
}.
Definition set_graph (g : Graph) (ng : net_graph) : net_graph := mkNetGraph g (protos ng) (next_node ng).
Definition new_node (name origin : string) (proto : LayerProto) (id : Z) (ng : net_graph) : net_graph * Z :=
  let i := next_node ng in
  (mkNetGraph (AddNode i (Node_partition name origin id) (graph ng)) (<[i := proto]> (protos ng)) (i + 1), i).
Definition node_proto (i : Z) (ng : net_graph) : outcome LayerProto := deref (protos ng !! i).
Definition add_edge (src dst : Z) (ng : net_graph) : outcome net_graph :=
  g ← AddEdge src dst (graph ng); Ok (set_graph g ng).
Fixpoint edges_to (node : Z) (dsts : list Z) (ng : net_graph) : outcome net_graph :=
  match dsts with
  | [] => Ok ng
  | d :: dsts => ng ← add_edge node d ng; edges_to node dsts ng
  end.
Fixpoint edges_from (srcs : list Z) (node : Z) (ng : net_graph) : outcome net_graph :=
  match srcs with
  | [] => Ok ng
  | s :: srcs => ng ← add_edge s node ng; edges_from srcs node ng
  end.

(** The proto of an added layer. *)
Definition added_proto (name : string) (ty : LayerType) (pid : Z) (conf : LayerConf) : LayerProto :=
  mkLayerProto name ty None pid [] [] [] "unknow" conf.

Definition SliceNode (srcnode : Z) (dstnodes : list Z) (connect_dst : bool) (ng : net_graph)
    : outcome (net_graph * Z) :=
  s ← get_node srcnode (graph ng);
  sp ← node_proto srcnode ng;
  d ← idx dstnodes 0;
  dp ← node_proto d ng;
  let nm := (name s ++ "<")%string in
  let proto := added_proto nm kSlice (lp_partition_id sp) (SliceConf (lp_pdim dp)) in
  let '(ng, node) := new_node nm ("##" ++ nm)%string proto (lp_partition_id sp) ng in
  ng ← add_edge srcnode node ng;
  ng ← (if connect_dst then edges_to node dstnodes ng else Ok ng);
  Ok (ng, node).
Definition ConcateNodes (srcnodes : list Z) (dstnode : Z) (ng : net_graph) : outcome (net_graph * Z) :=
  d ← get_node dstnode (graph ng);
  dp ← node_proto dstnode ng;
  s ← idx srcnodes 0;
  sp ← node_proto s ng;
  let nm := (">" ++ name d)%string in
  let proto := added_proto nm kConcate (lp_partition_id dp) (ConcateConf (lp_pdim sp)) in
  let '(ng, node) := new_node nm ("##" ++ nm)%string proto (lp_partition_id dp) ng in
  ng ← add_edge node dstnode ng;
  ng ← edges_from srcnodes node ng;
  Ok (ng, node).
Definition SplitNode (srcnode : Z) (dstnodes : list Z) (ng : net_graph) : outcome (net_graph * Z) :=
  s ← get_node srcnode (graph ng);
  sp ← node_proto srcnode ng;
  let nm := (name s ++ "+")%string in
  let proto := added_proto nm kSplit (lp_partition_id sp) NoConf in
  let '(ng, node) := new_node nm ("##" ++ nm)%string proto (lp_partition_id sp) ng in
  ng ← add_edge srcnode node ng;
  ng ← edges_to node dstnodes ng;
  Ok (ng, node).
Definition BridgeNodes (srcnode dstnode : Z) (ng : net_graph) : outcome net_graph :=
  s ← get_node srcnode (graph ng);
  sp ← node_proto srcnode ng;
  d ← get_node dstnode (graph ng);
  dp ← node_proto dstnode ng;
  let sname := (name s ++ ":-")%string in
  let dname := ("-:" ++ name d)%string in
  let '(ng, sbridge) := new_node sname ("##" ++ sname)%string
    (added_proto sname kBridgeSrc (lp_partition_id sp) NoConf) (lp_partition_id sp) ng in
  let '(ng, dbridge) := new_node dname ("##" ++ dname)%string
    (added_proto dname kBridgeDst (lp_partition_id dp) NoConf) (lp_partition_id dp) ng in
  ng ← add_edge srcnode sbridge ng;
  ng ← add_edge sbridge dbridge ng;
  add_edge dbridge dstnode ng.

(** *** CreateGraph: the nodes of the layers *)

(** [snprintf(suffix, 4, "%02d", i)] *)
Definition suffix (i : Z) : string :=
  let s := Header.print_d i in
  let s := if (i <? 10) && (0 <=? i) then ("0" ++ s)%string else s in
  String.substring 0 3 s.
Fixpoint partitions (layer : LayerProto) (is_ : list Z) (ng : net_graph) : net_graph * list Z :=
  match is_ with
  | [] => (ng, [])
  | i :: is_ =>
      let '(ng, node) := new_node (lp_name layer ++ "@" ++ suffix i)%string (lp_name layer) (set_pid i layer) i ng in
      let '(ng, nodes) := partitions layer is_ ng in
      (ng, node :: nodes)
  end.
Definition layer_nodes (npartitions : Z) (layer : LayerProto) (ng : net_graph)
    : outcome (net_graph * list Z) :=
  let pdim := lp_pdim layer in
  if (pdim =? 0) || (pdim =? 1) then
    Ok (partitions layer (map Z.of_nat (seq 0 (Z.to_nat npartitions))) ng)
  else if pdim =? -1 then
    let '(ng, node) := new_node (lp_name layer) (lp_name layer) layer 0 ng in Ok (ng, [node])
  else Fatal.
Fixpoint all_nodes (npartitions : Z) (ls : list LayerProto) (name2nodes : gmap string (list Z * LayerProto))
    (ng : net_graph) : outcome (net_graph * gmap string (list Z * LayerProto)) :=
  match ls with
  | [] => Ok (ng, name2nodes)
  | l :: ls =>
      '(ng, nodes) ← layer_nodes npartitions l ng;
      all_nodes npartitions ls (<[lp_name l := (nodes, l)]> name2nodes) ng
  end.

(** *** CreateGraph: the edges *)
Fixpoint concate_all (srcnodes nodes : list Z) (ng : net_graph) : outcome net_graph :=
  match nodes with
  | [] => Ok ng
  | n :: nodes => '(ng, _) ← ConcateNodes srcnodes n ng; concate_all srcnodes nodes ng
  end.
(** The nodes made so far are the destinations given to [SliceNode]: the vector
    [nodes] of the block hides that of the layer. *)
Fixpoint slice_all (srcnodes nodes : list Z) (ng : net_graph) : outcome (net_graph * list Z) :=
  match srcnodes with
  | [] => Ok (ng, nodes)
  | s :: srcnodes => '(ng, n) ← SliceNode s nodes false ng; slice_all srcnodes (nodes ++ [n]) ng
  end.
Fixpoint pair_edges (srcnodes nodes : list Z) (ng : net_graph) : outcome net_graph :=
  match srcnodes, nodes with
  | s :: srcnodes, n :: nodes => ng ← add_edge s n ng; pair_edges srcnodes nodes ng
  | _, _ => Ok ng
  end.

(** The connection of a layer's nodes to those of one of its sources. *)
Definition connect (connection : ConnectionType) (src_pdim pdim : Z) (srcnodes nodes : list Z)
    (ng : net_graph) : outcome net_graph :=
  let one := bool_decide (connection = kOneToOne) in
  let all := bool_decide (connection = kOneToAll) in
  if src_pdim =? -1 then
    srcnode ← idx srcnodes 0;
    if (pdim =? 0) || ((pdim =? 1) && one) then
      '(ng, _) ← SliceNode srcnode nodes true ng; Ok ng
    else if pdim =? -1 then
      n ← idx nodes 0; add_edge srcnode n ng
    else '(ng, _) ← SplitNode srcnode nodes ng; Ok ng
  else if ((pdim =? -1) && ((src_pdim =? 0) || (src_pdim =? 1)))
          || ((pdim =? 1) && all && (src_pdim =? 0)) then
    concate_all srcnodes nodes ng
  else if ((src_pdim =? 1) && (pdim =? 0)) || ((src_pdim =? 0) && (pdim =? 1)) then
    '(ng, nodes) ← slice_all srcnodes [] ng;
    concate_all nodes nodes ng
  else if ((src_pdim =? 0) && (pdim =? 0)) || ((src_pdim =? 1) && (pdim =? 1) && one) then
    _ ← CHECK (Z.of_nat (length srcnodes) =? Z.of_nat (length nodes));
    pair_edges srcnodes nodes ng
  else Ok ng.
Fixpoint connect_srcs (layer : LayerProto) (nodes : list Z) (srcs : list string)
    (name2nodes : gmap string (list Z * LayerProto)) (ng : net_graph) : outcome net_graph :=
  match srcs with
  | [] => Ok ng
  | src :: srcs =>
      '(srcnodes, sp) ← map_at (name2nodes !! src);
      ty ← create_layer (lp_type layer);
      ng ← connect (src_neuron_connection ty) (lp_pdim sp) (lp_pdim layer) srcnodes nodes ng;
      connect_srcs layer nodes srcs name2nodes ng
  end.
Fixpoint connect_all (ls : list LayerProto) (name2nodes : gmap string (list Z * LayerProto))
    (ng : net_graph) : outcome net_graph :=
  match ls with
  | [] => Ok ng
  | l :: ls =>
      '(nodes, _) ← map_at (name2nodes !! lp_name l);
      ng ← connect_srcs l nodes (lp_srclayers l) name2nodes ng;
      connect_all ls name2nodes ng
  end.

(** *** CreateGraph: split and bridge layers *)
Fixpoint remove_edges (node : Z) (dsts : list Z) (ng : net_graph) : outcome net_graph :=
  match dsts with
  | [] => Ok ng
  | d :: dsts => g ← RemoveEdge node d (graph ng); remove_edges node dsts (set_graph g ng)
  end.
Definition split_node (node : Z) (ng : net_graph) : outcome net_graph :=
  p ← node_proto node ng;
  ty ← create_layer (lp_type p);
  n ← get_node node (graph ng);
  if (1 <? length (dstnodes n))%nat && bool_decide (dst_layer_connection ty = kOneToOne) then
    ng ← remove_edges node (dstnodes n) ng;
    '(ng, _) ← SplitNode node (dstnodes n) ng;
    Ok ng
  else Ok ng.
Fixpoint split_all (nodes : list Z) (ng : net_graph) : outcome net_graph :=
  match nodes with
  | [] => Ok ng
  | n :: nodes => ng ← split_node n ng; split_all nodes ng
  end.
(** [pid1] and [pid2] are both taken from [node]. *)
Fixpoint bridge_node (node : Z) (dsts : list Z) (ng : net_graph) : outcome net_graph :=
  match dsts with
  | [] => Ok ng
  | d :: dsts =>
      p1 ← node_proto node ng;
      p2 ← node_proto node ng;
      ng ← (if negb (lp_partition_id p1 =? lp_partition_id p2) then
              g ← RemoveEdge node d (graph ng); BridgeNodes node d (set_graph g ng)
            else Ok ng);
      bridge_node node dsts ng
  end.
Fixpoint bridge_all (nodes : list Z) (ng : net_graph) : outcome net_graph :=
  match nodes with
  | [] => Ok ng
  | n :: nodes =>
      x ← get_node n (graph ng);
      _ ← node_proto n ng;
      ng ← bridge_node n (dstnodes x) ng;
      bridge_all nodes ng
  end.
Definition sort_graph (ng : net_graph) : outcome net_graph := g ← Sort (graph ng); Ok (set_graph g ng).

Definition CreateGraph (np : NetProto) (npartitions : Z) : outcome net_graph :=
  '(ng, name2nodes) ← all_nodes npartitions (np_layers np) ∅ (mkNetGraph Graph_new ∅ 0);
  ng ← connect_all (np_layers np) name2nodes ng;
  ng ← sort_graph ng;
  let oldnodes := nodes_ (graph ng) in
  ng ← split_all oldnodes ng;
  ng ← bridge_all oldnodes ng;
  sort_graph ng.
