(* ===== verification/NeuralNetProps.v ===== *)
(** * Properties of the net construction: added nodes, sorting, unpartitioned nets *)

From S2P Require Import Prelude Msg Format Memory Param Server Graph GraphProps GraphEdit Worker LayerConf NeuralNet.

(** ** Graphs with protos *)
Record ng_ok (ng : net_graph) : Prop := {
  ng_wf : graph_wf (graph ng);
  ng_proto i : i ∈ nodes_ (graph ng) -> is_Some (protos ng !! i);
  ng_next i : i ∈ nodes_ (graph ng) -> i < next_node ng;
}.
(** The nodes are those of [ng] followed by [new]; the old ones keep names and protos. *)
Record extends (ng ng' : net_graph) (new : list Z) : Prop := {
  ex_nodes : nodes_ (graph ng') = nodes_ (graph ng) ++ new;
  ex_old i : i ∈ nodes_ (graph ng) -> name_of (graph ng') i = name_of (graph ng) i /\
    protos ng' !! i = protos ng !! i;
}.
Lemma extends_refl ng : extends ng ng [].
Proof. split; [by rewrite app_nil_r|done]. Qed.
Lemma extends_trans ng1 ng2 ng3 n1 n2 :
  extends ng1 ng2 n1 -> extends ng2 ng3 n2 -> extends ng1 ng3 (n1 ++ n2).
Proof.
  intros [H1 O1] [H2 O2]. split; [by rewrite H2, H1, app_assoc|]. intros i Hi.
  destruct (O1 i Hi) as [<- <-]. apply O2. rewrite H1. apply elem_of_app. by left.
Qed.

Lemma new_node_Ok nm origin proto id ng : ng_ok ng ->
  (forall j, j ∈ nodes_ (graph ng) -> name_of (graph ng) j <> Some nm) ->
  exists ng', new_node nm origin proto id ng = (ng', next_node ng) /\ ng_ok ng' /\
    extends ng ng' [next_node ng] /\ next_node ng ∉ nodes_ (graph ng) /\
    name_of (graph ng') (next_node ng) = Some nm /\ protos ng' !! next_node ng = Some proto /\
    next_node ng' = next_node ng + 1 /\ forall a b, edges (graph ng') a b = edges (graph ng) a b.
Proof.
  intros [Hwf Hp Hn] Hfresh. unfold new_node. eexists. split; [done|].
  assert (next_node ng ∉ nodes_ (graph ng)) as Hnew.
  { intros Hi. apply Hn in Hi. lia. }
  destruct (AddNode_wf (graph ng) (next_node ng) (Node_partition nm origin id) Hwf Hnew) as (Hwf' & He & Hnm);
    [done|done|done|].
  split; [split; [done|..]|split; [split; [done|]|]].
  - intros i Hi. simpl in *. destruct (decide (next_node ng = i)) as [<-|Hne]; [by rewrite lookup_insert_eq|].
    rewrite lookup_insert_ne by done. apply Hp. apply elem_of_app in Hi as [Hi|Hi%list_elem_of_singleton]; [done|by subst].
  - intros i Hi. simpl in *. apply elem_of_app in Hi as [Hi|Hi%list_elem_of_singleton]; [apply Hn in Hi|]; lia.
  - intros i Hi. simpl. rewrite Hnm. assert (i <> next_node ng) by (by intros ->).
    by rewrite decide_False, lookup_insert_ne.
  - split; [done|]. split; [by rewrite Hnm, decide_True|]. split; [simpl; by rewrite lookup_insert_eq|]. done.
Qed.

Lemma set_graph_ok ng g : ng_ok ng -> graph_wf g -> same_nodes (graph ng) g -> ng_ok (set_graph g ng).
Proof. intros [H1 H2 H3] Hwf [Hs _]. split; [done|..]; intros i; simpl; rewrite Hs; auto. Qed.
Lemma set_graph_extends ng g : same_nodes (graph ng) g -> extends ng (set_graph g ng) [].
Proof. intros [Hs Hn]. split; [simpl; by rewrite Hs, app_nil_r|]. intros i _. by split. Qed.

Lemma add_edge_Ok s d ng : ng_ok ng -> s ∈ nodes_ (graph ng) -> d ∈ nodes_ (graph ng) ->
  exists ng', add_edge s d ng = Ok ng' /\ ng_ok ng' /\ extends ng ng' [] /\ protos ng' = protos ng /\
    next_node ng' = next_node ng /\
    forall a b, edges (graph ng') a b = (edges (graph ng) a b + at_edge s d a b)%nat.
Proof.
  intros Hng Hs Hd. destruct (AddEdge_wf _ s d (ng_wf ng Hng) Hs Hd) as (g' & E & Hwf & Hsame & He).
  unfold add_edge. rewrite E, bind_Ok. eexists. split; [done|].
  split; [by apply set_graph_ok|]. split; [by apply set_graph_extends|]. done.
Qed.

(** The edges of [node] to [dsts]. *)
Definition from_node (node : Z) (dsts : list Z) (a b : Z) : nat :=
  if decide (a = node) then count b dsts else 0%nat.

Lemma edges_to_Ok node dsts : forall ng, ng_ok ng -> node ∈ nodes_ (graph ng) ->
  (forall d, d ∈ dsts -> d ∈ nodes_ (graph ng)) ->
  exists ng', edges_to node dsts ng = Ok ng' /\ ng_ok ng' /\ extends ng ng' [] /\ protos ng' = protos ng /\
    next_node ng' = next_node ng /\
    forall a b, edges (graph ng') a b = (edges (graph ng) a b + from_node node dsts a b)%nat.
Proof.
  induction dsts as [|d dsts IH]; intros ng Hng Hnode Hd.
  { exists ng. split; [done|]. split; [done|]. split; [apply extends_refl|]. do 2 (split; [done|]).
    intros a b. unfold from_node. destruct (decide _); [unfold count; simpl|]; lia. }
  destruct (add_edge_Ok node d ng Hng Hnode) as (ng1 & E1 & Hng1 & X1 & P1 & N1 & H1); [apply Hd; left|].
  pose proof (ex_nodes _ _ _ X1) as Hn1. rewrite app_nil_r in Hn1.
  destruct (IH ng1 Hng1) as (ng2 & E2 & Hng2 & X2 & P2 & N2 & H2); rewrite ?Hn1; [done| |].
  { intros x Hx. apply Hd. by right. }
  exists ng2. simpl. rewrite E1, bind_Ok. split; [done|]. split; [done|].
  split; [by apply (extends_trans ng ng1 ng2 [] [])|]. split; [congruence|]. split; [congruence|].
  intros a b. rewrite H2, H1. unfold from_node, at_edge. rewrite (count_cons b d dsts), (count_single b d).
  destruct (decide (a = node)), (decide (b = d)), (decide (a = node /\ b = d)); naive_solver lia.
Qed.

Lemma remove_edges_Ok node dsts : forall ng, ng_ok ng ->
  (forall b, (count b dsts <= edges (graph ng) node b)%nat) ->
  exists ng', remove_edges node dsts ng = Ok ng' /\ ng_ok ng' /\ extends ng ng' [] /\ protos ng' = protos ng /\
    next_node ng' = next_node ng /\
    forall a b, edges (graph ng) a b = (edges (graph ng') a b + from_node node dsts a b)%nat.
Proof.
  induction dsts as [|d dsts IH]; intros ng Hng Hd.
  { exists ng. split; [done|]. split; [done|]. split; [apply extends_refl|]. do 2 (split; [done|]).
    intros a b. unfold from_node. destruct (decide _); [unfold count; simpl|]; lia. }
  assert (forall b, count b (d :: dsts) = ((if decide (b = d) then 1 else 0) + count b dsts)%nat) as Hc.
  { intros b. by rewrite (count_cons b d dsts), (count_single b d). }
  destruct (RemoveEdge_wf (graph ng) node d (ng_wf ng Hng)) as (g1 & E1 & Hwf1 & Hs1 & H1).
  { pose proof (Hd d) as H. rewrite Hc, decide_True in H by done. lia. }
  destruct (IH (set_graph g1 ng)) as (ng2 & E2 & Hng2 & X2 & P2 & N2 & H2).
  { by apply set_graph_ok. }
  { intros b. simpl. pose proof (Hd b) as H. rewrite Hc, H1 in H. unfold at_edge in H.
    destruct (decide (b = d)), (decide (node = node /\ b = d)); naive_solver lia. }
  exists ng2. simpl. rewrite E1, bind_Ok. split; [done|]. split; [done|].
  split; [by eapply (extends_trans ng _ ng2 [] []); [apply set_graph_extends|]|]. split; [done|]. split; [done|].
  intros a b. rewrite H1. simpl in H2. rewrite H2. unfold from_node, at_edge. rewrite Hc.
  destruct (decide (a = node)), (decide (b = d)), (decide (a = node /\ b = d)); naive_solver lia.
Qed.

(** ** SplitNode *)
Lemma SplitNode_Ok s dsts nm sp ng : ng_ok ng -> s ∈ nodes_ (graph ng) ->
  (forall d, d ∈ dsts -> d ∈ nodes_ (graph ng)) -> name_of (graph ng) s = Some nm -> protos ng !! s = Some sp ->
  (forall j, j ∈ nodes_ (graph ng) -> name_of (graph ng) j <> Some (nm ++ "+")%string) ->
  exists ng' k proto, SplitNode s dsts ng = Ok (ng', k) /\ ng_ok ng' /\ extends ng ng' [k] /\ k ∉ nodes_ (graph ng) /\
    name_of (graph ng') k = Some (nm ++ "+")%string /\ protos ng' !! k = Some proto /\ lp_type proto = kSplit /\
    forall a b, edges (graph ng') a b = (edges (graph ng) a b + at_edge s k a b + from_node k dsts a b)%nat.
Proof.
  intros Hng Hs Hd Hnm Hsp Hf. unfold SplitNode, get_node, node_proto.
  assert (exists x, store (graph ng) !! s = Some x /\ name x = nm) as (x & Hx & Hxn).
  { unfold name_of in Hnm. destruct (store (graph ng) !! s) as [x|]; [|done]. injection Hnm as <-. by exists x. }
  rewrite Hx, deref_Some, bind_Ok, Hsp, deref_Some, bind_Ok, Hxn. cbn zeta.
  destruct (new_node_Ok (nm ++ "+")%string ("##" ++ (nm ++ "+"))%string
    (added_proto (nm ++ "+")%string kSplit (lp_partition_id sp) NoConf) (lp_partition_id sp) ng Hng Hf)
    as (ng1 & E1 & Hng1 & X1 & Hk & Hkn & Hkp & _ & He1).
  rewrite E1. pose proof (ex_nodes _ _ _ X1) as Hn1.
  destruct (add_edge_Ok s (next_node ng) ng1 Hng1) as (ng2 & E2 & Hng2 & X2 & P2 & _ & He2).
  { rewrite Hn1. apply elem_of_app. by left. }
  { rewrite Hn1. apply elem_of_app. right. left. }
  rewrite E2, bind_Ok. pose proof (ex_nodes _ _ _ X2) as Hn2. rewrite app_nil_r in Hn2.
  destruct (edges_to_Ok (next_node ng) dsts ng2 Hng2) as (ng3 & E3 & Hng3 & X3 & P3 & _ & He3).
  { rewrite Hn2, Hn1. apply elem_of_app. right. left. }
  { intros d Hdd. rewrite Hn2, Hn1. apply elem_of_app. left. by apply Hd. }
  rewrite E3, bind_Ok. eexists _, _, _. split; [done|]. split; [done|].
  assert (next_node ng ∈ nodes_ (graph ng1)) as Hin by (rewrite Hn1; apply elem_of_app; right; left).
  split; [apply (extends_trans ng ng1 ng3 [_] []); [done|by apply (extends_trans ng1 ng2 ng3 [] [])]|].
  split; [done|]. split; [|split; [by rewrite P3, P2|split; [done|]]].
  - rewrite (proj1 (ex_old _ _ _ X3 _ ltac:(by rewrite Hn2))), (proj1 (ex_old _ _ _ X2 _ Hin)). done.
  - intros a b. by rewrite He3, He2, He1.
Qed.

(** ** Split layers *)
Definition out_degree (g : Graph) (i : Z) : nat :=
  match store g !! i with Some n => length (dstnodes n) | None => 0%nat end.
Lemma out_degree_same g g' i : (forall j, edges g' i j = edges g i j) -> out_degree g' i = out_degree g i.
Proof.
  unfold edges, out_degree. intros H.
  destruct (store g !! i) as [n|], (store g' !! i) as [n'|]; try done.
  - apply Permutation_length, (Permutation_count_occ Z.eq_dec). exact H.
  - destruct (dstnodes n) as [|j l]; [done|]. specialize (H j).
    rewrite (count_cons j j l), (count_single j j), decide_True in H by done. lia.
  - destruct (dstnodes n') as [|j l]; [done|]. specialize (H j).
    rewrite (count_cons j j l), (count_single j j), decide_True in H by done. lia.
Qed.

(** A node that gets a split layer. *)
Definition needs_split (ng : net_graph) (i : Z) : Prop :=
  (1 < out_degree (graph ng) i)%nat /\
  exists p, protos ng !! i = Some p /\ dst_layer_connection (lp_type p) = kOneToOne.
(** In [ng'] the node feeds its destinations as in [ng]: directly, or all of them
    through the split layer [k]. *)
Definition direct (ng ng' : net_graph) (i : Z) : Prop :=
  forall j, edges (graph ng') i j = edges (graph ng) i j.
Definition through (ng ng' : net_graph) (i k : Z) : Prop :=
  (exists p, protos ng' !! k = Some p /\ lp_type p = kSplit) /\
  forall j, edges (graph ng') i j = (if decide (j = k) then 1%nat else 0%nat) /\
            edges (graph ng') k j = edges (graph ng) i j.

Lemma split_node_Ok s nm sp ng : ng_ok ng -> s ∈ nodes_ (graph ng) ->
  name_of (graph ng) s = Some nm -> protos ng !! s = Some sp -> lp_type sp <> kLMDBData ->
  (forall j, j ∈ nodes_ (graph ng) -> name_of (graph ng) j <> Some (nm ++ "+")%string) ->
  (split_node s ng = Ok ng /\ ~ needs_split ng s) \/
  (needs_split ng s /\ exists ng' k, split_node s ng = Ok ng' /\ ng_ok ng' /\ extends ng ng' [k] /\
     k ∉ nodes_ (graph ng) /\ name_of (graph ng') k = Some (nm ++ "+")%string /\
     through ng ng' s k /\ forall a, a <> s -> a <> k -> direct ng ng' a).
Proof.
  intros Hng Hs Hnm Hsp Hty Hf. unfold split_node, node_proto, create_layer.
  rewrite Hsp, deref_Some, bind_Ok, bool_decide_eq_false_2 by done. simpl CHECK. rewrite !bind_Ok.
  pose proof (ng_wf ng Hng) as Hwf. destruct (wf_store _ Hwf s Hs) as [n Hn].
  unfold get_node. rewrite Hn, deref_Some, bind_Ok.
  destruct ((1 <? length (dstnodes n))%nat && bool_decide (dst_layer_connection (lp_type sp) = kOneToOne)) eqn:E.
  2:{ left. split; [done|]. intros [Hd (p & Hp & Hc)]. assert (p = sp) as -> by congruence.
      unfold out_degree in Hd. rewrite Hn in Hd.
      rewrite bool_decide_eq_true_2, andb_true_r in E by done. apply Nat.ltb_ge in E. lia. }
  right. apply andb_true_iff in E as [E1%Nat.ltb_lt E2%bool_decide_eq_true]. split.
  { split; [unfold out_degree; by rewrite Hn|by exists sp]. }
  assert (forall b, edges (graph ng) s b = count b (dstnodes n)) as Hsd by (intros b; unfold edges; by rewrite Hn).
  destruct (remove_edges_Ok s (dstnodes n) ng Hng) as (ng1 & -> & Hng1 & X1 & P1 & _ & He1).
  { intros b. by rewrite Hsd. }
  rewrite bind_Ok. pose proof (ex_nodes _ _ _ X1) as Hn1. rewrite app_nil_r in Hn1.
  assert (forall j, j ∈ nodes_ (graph ng) -> name_of (graph ng1) j = name_of (graph ng) j) as Hnm1.
  { intros j Hj. by destruct (ex_old _ _ _ X1 j Hj). }
  destruct (SplitNode_Ok s (dstnodes n) nm sp ng1 Hng1) as (ng2 & k & proto & -> & Hng2 & X2 & Hk & Hkn & Hkp & Hkt & He2);
    rewrite ?Hn1; try done.
  { intros d Hd. apply (edge_dst _ s d n Hn) in Hd. by destruct (wf_ends _ Hwf s d Hd). }
  { by rewrite Hnm1. }
  { by rewrite P1. }
  { intros j Hj. rewrite Hnm1 by done. by apply Hf. }
  rewrite bind_Ok. exists ng2, k. split; [done|]. split; [done|].
  split; [by apply (extends_trans ng ng1 ng2 [] [k])|]. rewrite Hn1 in Hk. split; [done|]. split; [done|].
  assert (s <> k) as Hsk by (by intros ->).
  assert (forall b, edges (graph ng) k b = 0%nat) as Hk0.
  { intros b. destruct (edges (graph ng) k b) eqn:E; [done|]. destruct (wf_ends _ Hwf k b); [lia|done]. }
  split; [split; [by exists proto|]|].
  - intros j. pose proof (He1 s j) as A. pose proof (He1 k j) as B. unfold from_node in A, B.
    rewrite decide_True in A by done. rewrite decide_False in B by done. rewrite Hk0 in B. rewrite Hsd in A |- *.
    rewrite !He2. unfold from_node, at_edge. rewrite (decide_False (P := s = k)), (decide_True (P := k = k)) by done.
    rewrite (decide_False (P := k = s /\ j = k)) by naive_solver.
    destruct (decide (j = k)), (decide (s = s /\ j = k)); naive_solver lia.
  - intros a Has Hak j. pose proof (He1 a j) as A. unfold from_node in A. rewrite decide_False in A by done.
    rewrite He2. unfold from_node, at_edge. rewrite (decide_False (P := a = k)) by done.
    rewrite decide_False by naive_solver. lia.
Qed.

(** The ranks when a split layer is put behind [s]. *)
Definition split_rank (rank : Z -> nat) (s k i : Z) : nat :=
  (2 * rank (if decide (i = k) then s else i) + if decide (i = k) then 1 else 0)%nat.
Lemma split_increasing ng ng' s k rank : graph_wf (graph ng) -> k ∉ nodes_ (graph ng) -> s <> k ->
  through ng ng' s k -> (forall a, a <> s -> a <> k -> direct ng ng' a) ->
  increasing (graph ng) rank -> increasing (graph ng') (split_rank rank s k).
Proof.
  intros Hwf Hk Hsk [_ Ht] Hd Hr a b Hab. unfold split_rank.
  assert (forall x y, edges (graph ng) x y <> 0%nat -> x <> k /\ y <> k) as Hold.
  { intros x y Hxy. destruct (wf_ends _ Hwf x y Hxy). split; by intros ->. }
  destruct (decide (a = k)) as [->|Ha].
  - rewrite (proj2 (Ht b)) in Hab. destruct (Hold _ _ Hab). rewrite decide_False by done.
    pose proof (Hr _ _ Hab). lia.
  - destruct (decide (a = s)) as [->|Has].
    + rewrite (proj1 (Ht b)) in Hab. destruct (decide (b = k)); [|done]. lia.
    + rewrite (Hd a Has Ha) in Hab. destruct (Hold _ _ Hab). rewrite decide_False by done.
      pose proof (Hr _ _ Hab). lia.
Qed.

(** What the loop over the nodes has done when those of [todo] are left. *)
Record splitting (ng0 : net_graph) (todo : list Z) (ng : net_graph) (new : list Z) : Prop := {
  sp_ok : ng_ok ng;
  sp_ext : extends ng0 ng new;
  sp_rank : exists rank, increasing (graph ng) rank;
  sp_fresh i : i ∈ new -> exists s nm, s ∈ nodes_ (graph ng0) /\ s ∉ todo /\
    name_of (graph ng0) s = Some nm /\ name_of (graph ng) i = Some (nm ++ "+")%string;
  sp_done i : i ∈ nodes_ (graph ng0) ->
    direct ng0 ng i /\ (i ∈ todo \/ ~ needs_split ng0 i) \/
    i ∉ todo /\ needs_split ng0 i /\ exists k, k ∈ new /\ through ng0 ng i k;
}.

Lemma append_plus_inj a b : (a ++ "+")%string = (b ++ "+")%string -> a = b.
Proof.
  revert b. induction a as [|c a IH]; intros [|c' b] H; simpl in H; try done.
  - injection H as _ H. by destruct b.
  - injection H as _ H. by destruct a.
  - injection H as -> H. f_equal. by apply IH.
Qed.

(** No node is named like a split layer of another. *)
Definition split_names_free (ng : net_graph) : Prop :=
  forall i j nm, i ∈ nodes_ (graph ng) -> j ∈ nodes_ (graph ng) -> name_of (graph ng) i = Some nm ->
    name_of (graph ng) j <> Some (nm ++ "+")%string.
Definition creatable (ng : net_graph) : Prop :=
  forall i p, i ∈ nodes_ (graph ng) -> protos ng !! i = Some p -> lp_type p <> kLMDBData.

Lemma needs_split_same ng0 ng new i : extends ng0 ng new -> i ∈ nodes_ (graph ng0) -> direct ng0 ng i ->
  (needs_split ng i <-> needs_split ng0 i).
Proof.
  intros X Hi Hd. unfold needs_split. destruct (ex_old _ _ _ X i Hi) as [_ ->].
  by rewrite (out_degree_same (graph ng0) (graph ng) i Hd).
Qed.

(** A node that is not split. *)
Lemma splitting_skip ng0 s todo ng new : splitting ng0 (s :: todo) ng new -> ~ needs_split ng0 s ->
  splitting ng0 todo ng new.
Proof.
  intros [Hok X Hr Hfresh Hdone] Hno. split; try done.
  - intros i Hi. destruct (Hfresh i Hi) as (s' & nm & ? & Hnt & ?). exists s', nm. split; [done|].
    split; [|done]. intros ?. apply Hnt. by right.
  - intros i Hi. destruct (Hdone i Hi) as [[Hd Hor]|(Hnt & Hn1 & Hk)].
    + left. split; [done|]. destruct (decide (i = s)) as [->|His]; [by right|].
      destruct Hor as [Hor|Hor]; [|by right]. apply elem_of_cons in Hor as [->|Hor]; [done|by left].
    + right. split; [|done]. intros ?. apply Hnt. by right.
Qed.
(** The name of the split layer to come is not taken. *)
Lemma splitting_name_free ng0 s todo ng new nm j : ng_ok ng0 -> split_names_free ng0 -> s ∈ nodes_ (graph ng0) ->
  splitting ng0 (s :: todo) ng new -> name_of (graph ng0) s = Some nm -> j ∈ nodes_ (graph ng) ->
  name_of (graph ng) j <> Some (nm ++ "+")%string.
Proof.
  intros Hng0 Hfree Hs [Hok X Hr Hfresh _] Hname Hj. rewrite (ex_nodes _ _ _ X) in Hj.
  apply elem_of_app in Hj as [Hj|Hj].
  - rewrite (proj1 (ex_old _ _ _ X j Hj)). by apply (Hfree s j).
  - destruct (Hfresh j Hj) as (s' & nm' & Hs' & Hnt & Hnm' & ->). intros [= He%append_plus_inj].
    destruct Hnt. assert (s' = s) as -> by (apply (wf_names _ (ng_wf _ Hng0) s' s nm); congruence). left.
Qed.
(** One node. *)
Lemma splitting_step ng0 s todo ng new : ng_ok ng0 -> split_names_free ng0 -> creatable ng0 ->
  s ∈ nodes_ (graph ng0) -> s ∉ todo -> splitting ng0 (s :: todo) ng new ->
  exists ng' new', split_node s ng = Ok ng' /\ splitting ng0 todo ng' (new ++ new').
Proof.
  intros Hng0 Hfree Hcr Hs Hst HS. pose proof HS as [Hok X [rank Hr] Hfresh Hdone].
  pose proof (ex_nodes _ _ _ X) as Hn. destruct (ex_old _ _ _ X s Hs) as [Hnm Hpr].
  destruct (wf_store _ (ng_wf _ Hng0) s Hs) as [x Hx]. destruct (ng_proto _ Hng0 s Hs) as [p Hp].
  assert (name_of (graph ng0) s = Some (name x)) as Hname by (unfold name_of; by rewrite Hx).
  assert (direct ng0 ng s) as Hds.
  { destruct (Hdone s Hs) as [[? _]|[Hf _]]; [done|]. destruct Hf. left. }
  pose proof (needs_split_same ng0 ng new s X Hs Hds) as Hneed.
  destruct (split_node_Ok s (name x) p ng Hok) as [[E Hno]|(Hyes & ng' & k & E & Hok' & X' & Hk & Hkn & Hth & Hoth)].
  - rewrite Hn. apply elem_of_app. by left.
  - by rewrite Hnm.
  - by rewrite Hpr.
  - by apply (Hcr s).
  - intros j Hj. by apply (splitting_name_free ng0 s todo ng new).
  - exists ng, []. rewrite app_nil_r. split; [done|]. apply (splitting_skip ng0 s); [done|by rewrite <- Hneed].
  - exists ng', [k]. split; [done|].
    assert (s <> k) as Hsk by (intros ->; apply Hk; rewrite Hn; apply elem_of_app; by left).
    assert (forall i, i ∈ nodes_ (graph ng) -> i <> k) as Hne by (by intros i Hi ->).
    split.
    + done.
    + by apply (extends_trans ng0 ng ng').
    + exists (split_rank rank s k). by apply (split_increasing ng ng'); try done; apply Hok.
    + intros i Hi. apply elem_of_app in Hi as [Hi|Hi%list_elem_of_singleton].
      * destruct (Hfresh i Hi) as (s' & nm & ? & Hnt & ? & Hni). exists s', nm. split; [done|].
        split; [intros ?; apply Hnt; by right|]. split; [done|].
        rewrite (proj1 (ex_old _ _ _ X' i ltac:(rewrite Hn; apply elem_of_app; by right))). done.
      * subst i. exists s, (name x). done.
    + intros i Hi. destruct (decide (i = s)) as [->|His].
      * right. split; [done|]. split; [by apply Hneed|]. exists k. split; [apply elem_of_app; right; left|].
        destruct Hth as [Hp1 Hth]. split; [done|]. intros j. destruct (Hth j) as [-> ->]. split; [done|apply Hds].
      * assert (i ∈ nodes_ (graph ng)) as Hin by (rewrite Hn; apply elem_of_app; by left).
        pose proof (Hoth i His (Hne i Hin)) as Hdi.
        destruct (Hdone i Hi) as [[Hd Hor]|(Hnt & Hn1 & k' & Hk' & [q [Hq Hqt]] & Hth')].
        -- left. split; [intros j; by rewrite Hdi|]. destruct Hor as [Hor|Hor]; [|by right].
           apply elem_of_cons in Hor as [->|Hor]; [done|by left].
        -- right. split; [intros ?; apply Hnt; by right|]. split; [done|].
           exists k'. split; [apply elem_of_app; by left|].
           assert (k' ∈ nodes_ (graph ng)) as Hk'n by (rewrite Hn; apply elem_of_app; by right).
           assert (k' <> s) as Hk's.
           { intros ->. destruct (list.NoDup_app (nodes_ (graph ng0)) new) as [Hnd _].
             pose proof (wf_nodup _ (ng_wf _ Hok)) as Hnd'. rewrite Hn in Hnd'. apply Hnd in Hnd' as (_ & Hdis & _).
             by apply (Hdis s). }
           split; [exists q; split; [by rewrite (proj2 (ex_old _ _ _ X' k' Hk'n))|done]|].
           intros j. rewrite Hdi, (Hoth k' Hk's (Hne k' Hk'n)). apply Hth'.
Qed.

Lemma split_all_Ok ng0 todo : ng_ok ng0 -> split_names_free ng0 -> creatable ng0 -> NoDup todo ->
  (forall i, i ∈ todo -> i ∈ nodes_ (graph ng0)) -> forall ng new, splitting ng0 todo ng new ->
  exists ng' new', split_all todo ng = Ok ng' /\ splitting ng0 [] ng' new'.
Proof.
  intros Hng0 Hfree Hcr Hnd. induction Hnd as [|s todo Hst _ IH]; intros Hin ng new Hsp.
  { by exists ng, new. }
  destruct (splitting_step ng0 s todo ng new Hng0 Hfree Hcr) as (ng1 & new1 & E1 & Hsp1); [apply Hin; left|done|done|].
  destruct (IH ltac:(intros i Hi; apply Hin; by right) ng1 _ Hsp1) as (ng2 & new2 & E2 & Hsp2).
  exists ng2, new2. simpl. by rewrite E1, bind_Ok.
Qed.

(** ** From a connected graph to the sorted graph with split layers *)
Lemma bridge_all_Ok ns ng : ng_ok ng -> (forall i, i ∈ ns -> i ∈ nodes_ (graph ng)) -> bridge_all ns ng = Ok ng.
Proof.
  intros Hng. induction ns as [|n ns IH]; intros Hin; [done|]. simpl.
  assert (n ∈ nodes_ (graph ng)) as Hn by (apply Hin; left).
  destruct (wf_store _ (ng_wf _ Hng) n Hn) as [x Hx]. destruct (ng_proto _ Hng n Hn) as [p Hp].
  unfold get_node. rewrite Hx, deref_Some, bind_Ok.
  assert (forall ds, bridge_node n ds ng = Ok ng) as Hb.
  { induction ds as [|d ds IHd]; [done|]. simpl. unfold node_proto. rewrite Hp, deref_Some, !bind_Ok, Z.eqb_refl.
    exact IHd. }
  unfold node_proto. rewrite Hp, deref_Some, bind_Ok, Hb, bind_Ok. apply IH. intros i Hi. apply Hin. by right.
Qed.

(** [ng'] is [ng] with its nodes in topological order. *)
Record sorted_as (ng ng' : net_graph) : Prop := {
  so_store : store (graph ng') = store (graph ng);
  so_protos : protos ng' = protos ng;
  so_perm : nodes_ (graph ng') ≡ₚ nodes_ (graph ng);
  so_topo : topological (graph ng) (nodes_ (graph ng'));
}.
Lemma sort_graph_Ok ng rank : ng_ok ng -> increasing (graph ng) rank ->
  exists ng', sort_graph ng = Ok ng' /\ sorted_as ng ng' /\ ng_ok ng'.
Proof.
  intros [Hwf Hp Hn] Hr. unfold sort_graph.
  destruct (Sort_Ok (graph ng) rank (wf_graph_ok _ Hwf) (increasing_acyclic _ _ Hwf Hr)) as (g' & E & Hs & Hm & Hperm & Ht).
  rewrite E, bind_Ok. eexists. split; [done|]. split; [by split|].
  assert (forall i, i ∈ nodes_ g' <-> i ∈ nodes_ (graph ng)) as Hin by (intros i; by rewrite Hperm).
  split; [|intros i; simpl; rewrite Hin; auto..]. destruct Hwf as [H1 H2 H3 H4 H5]. constructor; simpl.
  - by rewrite Hperm.
  - intros i. rewrite Hin, Hs. auto.
  - intros i j. unfold edges, sources. rewrite Hs. apply H3.
  - intros i j. rewrite !Hin. unfold edges. rewrite Hs. apply H4.
  - intros i j nm. rewrite !Hin. unfold name_of. rewrite Hs. apply H5.
Qed.

Lemma sorted_same ng ng' i : sorted_as ng ng' ->
  name_of (graph ng') i = name_of (graph ng) i /\ (forall j, edges (graph ng') i j = edges (graph ng) i j) /\
  out_degree (graph ng') i = out_degree (graph ng) i.
Proof. intros [Hs _ _ _]. unfold name_of, edges, out_degree. by rewrite Hs. Qed.

(** The net [CreateGraph] makes of the connected graph [ng]. *)
Record finished (ng ng' : net_graph) (new : list Z) : Prop := {
  fi_ok : ng_ok ng';
  fi_nodes : nodes_ (graph ng') ≡ₚ nodes_ (graph ng) ++ new;
  fi_topo : topological (graph ng') (nodes_ (graph ng'));
  fi_old i : i ∈ nodes_ (graph ng) ->
    name_of (graph ng') i = name_of (graph ng) i /\ protos ng' !! i = protos ng !! i;
  fi_direct i : i ∈ nodes_ (graph ng) -> ~ needs_split ng i -> direct ng ng' i;
  fi_through i : i ∈ nodes_ (graph ng) -> needs_split ng i -> exists k, k ∈ new /\ through ng ng' i k;
}.

Lemma finish_Ok ng rank : ng_ok ng -> increasing (graph ng) rank -> split_names_free ng -> creatable ng ->
  exists ng1 ng2 ng3 new, sort_graph ng = Ok ng1 /\ split_all (nodes_ (graph ng1)) ng1 = Ok ng2 /\
    bridge_all (nodes_ (graph ng1)) ng2 = Ok ng2 /\ sort_graph ng2 = Ok ng3 /\ finished ng ng3 new.
Proof.
  intros Hng Hr Hfree Hcr. destruct (sort_graph_Ok ng rank Hng Hr) as (ng1 & E1 & S1 & Hng1).
  assert (forall i, i ∈ nodes_ (graph ng1) <-> i ∈ nodes_ (graph ng)) as Hin by (intros i; by rewrite (so_perm _ _ S1)).
  destruct (split_all_Ok ng1 (nodes_ (graph ng1)) Hng1) with (ng := ng1) (new := @nil Z) as (ng2 & new & E2 & [Hng2 X2 [rank2 Hr2] _ Hd2]).
  { intros i j nm. rewrite !Hin. destruct (sorted_same ng ng1 i S1) as [-> _], (sorted_same ng ng1 j S1) as [-> _]. apply Hfree. }
  { intros i p. rewrite Hin, (so_protos _ _ S1). apply Hcr. }
  { apply Hng1. }
  { done. }
  { split; [done|apply extends_refl| | |].
    - exists rank. intros i j. destruct (sorted_same ng ng1 i S1) as (_ & -> & _). apply Hr.
    - intros i Hi. by apply elem_of_nil in Hi.
    - intros i Hi. left. split; [done|by left]. }
  destruct (sort_graph_Ok ng2 rank2 Hng2 Hr2) as (ng3 & E3 & S3 & Hng3).
  exists ng1, ng2, ng3, new. split; [done|]. split; [done|].
  pose proof (ex_nodes _ _ _ X2) as Hn2. split.
  { apply bridge_all_Ok; [done|]. intros i Hi. rewrite Hn2. apply elem_of_app. by left. }
  split; [done|].
  assert (forall i, needs_split ng1 i <-> needs_split ng i) as Hneed.
  { intros i. unfold needs_split. destruct (sorted_same ng ng1 i S1) as (_ & _ & ->). by rewrite (so_protos _ _ S1). }
  split; [done|..].
  - by rewrite (so_perm _ _ S3), Hn2, (so_perm _ _ S1).
  - intros pre i suf n s Hp Hi Hs. rewrite (so_store _ _ S3) in Hi. by apply (so_topo _ _ S3 pre i suf n s).
  - intros i Hi. rewrite <- Hin in Hi. destruct (sorted_same ng2 ng3 i S3) as [-> _]. rewrite (so_protos _ _ S3).
    destruct (ex_old _ _ _ X2 i Hi) as [-> ->]. destruct (sorted_same ng ng1 i S1) as [-> _].
    by rewrite (so_protos _ _ S1).
  - intros i Hi Hno j. rewrite <- Hin in Hi. destruct (sorted_same ng2 ng3 i S3) as (_ & -> & _).
    destruct (Hd2 i Hi) as [[Hd _]|(_ & Hyes & _)]; [|by rewrite Hneed in Hyes].
    rewrite (Hd j). apply (sorted_same ng ng1 i S1).
  - intros i Hi Hyes. rewrite <- Hin in Hi. rewrite <- Hneed in Hyes.
    destruct (Hd2 i Hi) as [[_ [Hf|Hno]]|(_ & _ & k & Hk & [q [Hq Hqt]] & Ht)]; [by apply elem_of_nil in Hf|done|].
    exists k. split; [done|]. split; [exists q; by rewrite (so_protos _ _ S3)|].
    intros j. destruct (sorted_same ng2 ng3 i S3) as (_ & -> & _), (sorted_same ng2 ng3 k S3) as (_ & -> & _).
    destruct (Ht j) as [-> ->]. split; [done|]. apply (sorted_same ng ng1 i S1).
Qed.

(** ** Nets without partitions *)
Definition scount (s : string) (l : list string) : nat := count_occ String.string_dec l s.
Arguments scount : simpl never.
Lemma scount_cons s x l : scount s (x :: l) = ((if decide (s = x) then 1 else 0) + scount s l)%nat.
Proof. unfold scount. simpl. destruct (String.string_dec x s), (decide (s = x)); naive_solver lia. Qed.

(** Each layer has one node, known by the layer's name. *)
Record placed (ng : net_graph) (m : gmap string (list Z * LayerProto)) : Prop := {
  pl_ok : ng_ok ng;
  pl_node nm ns l : m !! nm = Some (ns, l) ->
    exists i, ns = [i] /\ i ∈ nodes_ (graph ng) /\ name_of (graph ng) i = Some nm /\ protos ng !! i = Some l;
  pl_name i : i ∈ nodes_ (graph ng) -> exists nm l, name_of (graph ng) i = Some nm /\ m !! nm = Some ([i], l);
}.

Lemma all_nodes_Ok npartitions ls : forall m ng,
  placed ng m -> NoDup (map lp_name ls) -> Forall (fun l => lp_pdim l = -1) ls ->
  (forall l, l ∈ ls -> m !! lp_name l = None) -> (forall a b, edges (graph ng) a b = 0%nat) ->
  exists ng' m', all_nodes npartitions ls m ng = Ok (ng', m') /\ placed ng' m' /\
    (forall a b, edges (graph ng') a b = 0%nat) /\
    (forall nm, nm ∉ map lp_name ls -> m' !! nm = m !! nm) /\
    (forall l, l ∈ ls -> exists i, m' !! lp_name l = Some ([i], l)).
Proof.
  induction ls as [|l ls IH]; intros m ng Hpl Hnd Hd Hm He.
  { exists ng, m. do 4 (split; [done|]). intros l Hl. by apply elem_of_nil in Hl. }
  simpl in Hnd. apply list.NoDup_cons in Hnd as [Hl Hnd]. apply list.Forall_cons in Hd as [Hdl Hd].
  destruct Hpl as [Hng Hnode Hname]. cbn [all_nodes]. unfold layer_nodes. rewrite Hdl.
  change ((-1 =? 0) || (-1 =? 1)) with false. change (-1 =? -1) with true. cbv iota zeta.
  destruct (new_node_Ok (lp_name l) (lp_name l) l 0 ng Hng) as (ng1 & E1 & Hng1 & X1 & Hk & Hkn & Hkp & _ & He1).
  { intros j Hj Hjn. destruct (Hname j Hj) as (nm & l' & Hjn' & Hml). assert (nm = lp_name l) as -> by congruence.
    rewrite (Hm l) in Hml by left. done. }
  rewrite E1, bind_Ok. pose proof (ex_nodes _ _ _ X1) as Hn1.
  destruct (IH (<[lp_name l := ([next_node ng], l)]> m) ng1) as (ng2 & m2 & E2 & Hpl2 & He2 & Hm2 & Hls2).
  - split; [done|..].
    + intros nm ns l' Hl'. destruct (decide (lp_name l = nm)) as [<-|Hne].
      * rewrite lookup_insert_eq in Hl'. injection Hl' as <- <-. exists (next_node ng). split; [done|].
        split; [rewrite Hn1; apply elem_of_app; right; left|done].
      * rewrite lookup_insert_ne in Hl' by done. destruct (Hnode nm ns l' Hl') as (i & -> & Hi & Hin & Hip).
        exists i. split; [done|]. destruct (ex_old _ _ _ X1 i Hi) as [-> ->].
        split; [rewrite Hn1; apply elem_of_app; by left|done].
    + intros i Hi. rewrite Hn1 in Hi. apply elem_of_app in Hi as [Hi|Hi%list_elem_of_singleton].
      * destruct (Hname i Hi) as (nm & l' & Hin & Hml). exists nm, l'. destruct (ex_old _ _ _ X1 i Hi) as [-> _].
        split; [done|]. rewrite lookup_insert_ne; [done|]. intros <-. by rewrite (Hm l) in Hml by left.
      * subst i. exists (lp_name l), l. split; [done|]. by rewrite lookup_insert_eq.
  - done.
  - done.
  - intros l' Hl'. rewrite lookup_insert_ne; [apply Hm; by right|].
    intros E. apply Hl. rewrite E. by apply list_elem_of_fmap_2.
  - intros a b. by rewrite He1.
  - exists ng2, m2. split; [done|]. split; [done|]. split; [done|]. split.
    + intros nm Hnm. simpl in Hnm. apply not_elem_of_cons in Hnm as [? ?]. rewrite Hm2 by done.
      by rewrite lookup_insert_ne.
    + intros l' [->|Hl']%elem_of_cons; [|by apply Hls2]. exists (next_node ng).
      rewrite Hm2 by done. by rewrite lookup_insert_eq.
Qed.

Lemma placed_add_edge ng ng' m : placed ng m -> ng_ok ng' -> extends ng ng' [] -> placed ng' m.
Proof.
  intros [Hng Hnode Hname] Hng' X. pose proof (ex_nodes _ _ _ X) as Hn. rewrite app_nil_r in Hn. split; [done|..].
  - intros nm ns l Hl. destruct (Hnode nm ns l Hl) as (i & -> & Hi & Hin & Hip). exists i.
    destruct (ex_old _ _ _ X i Hi) as [-> ->]. by rewrite Hn.
  - intros i Hi. rewrite Hn in Hi. destruct (ex_old _ _ _ X i Hi) as [-> _]. by apply Hname.
Qed.

(** The ranks of the nodes, from those of the names. *)
Definition rank_of (g : Graph) (rank : string -> nat) (i : Z) : nat :=
  match name_of g i with Some nm => rank nm | None => 0%nat end.
Definition times_named (g : Graph) (a : Z) (srcs : list string) : nat :=
  match name_of g a with Some nm => scount nm srcs | None => 0%nat end.

Lemma connect_srcs_Ok l i m rank srcs : lp_pdim l = -1 -> lp_type l <> kLMDBData ->
  (forall s sl ns, m !! s = Some (ns, sl) -> lp_pdim sl = -1) ->
  forall ng, placed ng m -> i ∈ nodes_ (graph ng) -> name_of (graph ng) i = Some (lp_name l) ->
  (forall s, s ∈ srcs -> is_Some (m !! s) /\ (rank s < rank (lp_name l))%nat) ->
  increasing (graph ng) (rank_of (graph ng) rank) ->
  exists ng', connect_srcs l [i] srcs m ng = Ok ng' /\ placed ng' m /\ extends ng ng' [] /\
    increasing (graph ng') (rank_of (graph ng') rank) /\
    forall a b, a ∈ nodes_ (graph ng) -> edges (graph ng') a b =
      (edges (graph ng) a b + if decide (b = i) then times_named (graph ng) a srcs else 0)%nat.
Proof.
  intros Hl Hty Hm. induction srcs as [|s srcs IH]; intros ng Hpl Hi Hin Hs Hr.
  { exists ng. split; [done|]. split; [done|]. split; [apply extends_refl|]. split; [done|].
    intros a b _. unfold times_named. destruct (decide (b = i)); [|by rewrite Nat.add_0_r].
    by destruct (name_of (graph ng) a); rewrite Nat.add_0_r. }
  destruct (Hs s) as [[[ns sl] Hms] Hrs]; [left|].
  pose proof Hpl as [Hng Hnode Hname]. destruct (Hnode s ns sl Hms) as (j & -> & Hj & Hjn & Hjp).
  destruct (add_edge_Ok j i ng Hng Hj Hi) as (ng1 & E1 & Hng1 & X1 & P1 & N1 & He1).
  pose proof (ex_nodes _ _ _ X1) as Hn1. rewrite app_nil_r in Hn1.
  assert (forall a, a ∈ nodes_ (graph ng) -> name_of (graph ng1) a = name_of (graph ng) a) as Hnm1.
  { intros a Ha. apply (ex_old _ _ _ X1 a Ha). }
  destruct (IH ng1) as (ng2 & E2 & Hpl2 & X2 & Hr2 & He2).
  - by apply (placed_add_edge ng).
  - by rewrite Hn1.
  - by rewrite Hnm1.
  - intros s' Hs'. apply Hs. by right.
  - intros a b Hab. rewrite He1 in Hab. unfold rank_of.
    destruct (decide (a = j /\ b = i)) as [[-> ->]|Hne].
    + rewrite !Hnm1 by done. by rewrite Hjn, Hin.
    + unfold at_edge in Hab. rewrite decide_False, Nat.add_0_r in Hab by done.
      destruct (wf_ends _ (ng_wf _ Hng) a b Hab) as [Ha Hb]. rewrite !Hnm1 by done. by apply Hr.
  - exists ng2. cbn [connect_srcs]. rewrite Hms. simpl map_at. rewrite bind_Ok. unfold create_layer.
    rewrite bool_decide_eq_false_2 by done. simpl CHECK. rewrite !bind_Ok.
    assert (connect (src_neuron_connection (lp_type l)) (lp_pdim sl) (lp_pdim l) [j] [i] ng = Ok ng1) as ->.
    { unfold connect. rewrite Hl, (Hm s sl [j] Hms). change (-1 =? -1) with true. change (-1 =? 0) with false.
      change (-1 =? 1) with false. cbv iota. simpl. exact E1. }
    rewrite bind_Ok. split; [done|]. split; [done|]. split; [by apply (extends_trans ng ng1 ng2 [] [])|].
    split; [done|]. intros a b Ha. rewrite He2, He1 by (by rewrite Hn1). unfold times_named, at_edge.
    rewrite Hnm1 by done. destruct (name_of (graph ng) a) as [nm|] eqn:Ena.
    + rewrite scount_cons. destruct (decide (b = i)) as [->|Hbi].
      * destruct (decide (nm = s)) as [->|Hne].
        -- assert (a = j) as -> by (by apply (wf_names _ (ng_wf _ Hng) a j s)).
           rewrite decide_True by done. lia.
        -- rewrite decide_False; [lia|]. intros [-> _]. congruence.
      * rewrite decide_False by naive_solver. lia.
    + rewrite decide_False; [lia|]. intros [-> _]. congruence.
Qed.

Lemma connect_all_Ok m rank ls : NoDup (map lp_name ls) ->
  (forall s sl ns, m !! s = Some (ns, sl) -> lp_pdim sl = -1) ->
  Forall (fun l => lp_pdim l = -1 /\ lp_type l <> kLMDBData) ls ->
  (forall l s, l ∈ ls -> s ∈ lp_srclayers l -> is_Some (m !! s) /\ (rank s < rank (lp_name l))%nat) ->
  (forall l, l ∈ ls -> exists i, m !! lp_name l = Some ([i], l)) ->
  forall ng, placed ng m -> increasing (graph ng) (rank_of (graph ng) rank) ->
  exists ng', connect_all ls m ng = Ok ng' /\ placed ng' m /\ extends ng ng' [] /\
    increasing (graph ng') (rank_of (graph ng') rank) /\
    (forall a b, a ∈ nodes_ (graph ng) -> b ∈ nodes_ (graph ng) ->
      (forall l, l ∈ ls -> name_of (graph ng) b <> Some (lp_name l)) -> edges (graph ng') a b = edges (graph ng) a b) /\
    (forall a b l, a ∈ nodes_ (graph ng) -> b ∈ nodes_ (graph ng) -> l ∈ ls -> name_of (graph ng) b = Some (lp_name l) ->
      edges (graph ng') a b = (edges (graph ng) a b + times_named (graph ng) a (lp_srclayers l))%nat).
Proof.
  intros Hnd Hm. induction ls as [|l ls IH]; intros Hls Hsrc Hplace ng Hpl Hr.
  { exists ng. split; [done|]. split; [done|]. split; [apply extends_refl|]. split; [done|]. split; [done|].
    intros a b l _ _ Hl. by apply elem_of_nil in Hl. }
  simpl in Hnd. apply list.NoDup_cons in Hnd as [Hnl Hnd]. apply list.Forall_cons in Hls as [[Hd Hty] Hls].
  destruct (Hplace l) as [i Hi]; [left|].
  destruct (pl_node _ _ Hpl _ _ _ Hi) as (i' & [= <-] & Hin & Hnm & Hp).
  destruct (connect_srcs_Ok l i m rank (lp_srclayers l) Hd Hty Hm ng Hpl Hin Hnm) as (ng1 & E1 & Hpl1 & X1 & Hr1 & He1);
    [intros s Hs; apply (Hsrc l s); [left|done]|done|].
  pose proof (ex_nodes _ _ _ X1) as Hn1. rewrite app_nil_r in Hn1.
  assert (forall a, a ∈ nodes_ (graph ng) -> name_of (graph ng1) a = name_of (graph ng) a) as Hnm1.
  { intros a Ha. apply (ex_old _ _ _ X1 a Ha). }
  destruct (IH Hnd Hls) with (ng := ng1) as (ng2 & E2 & Hpl2 & X2 & Hr2 & Hno & Hyes).
  { intros l' s Hl'. apply Hsrc. by right. }
  { intros l' Hl'. apply Hplace. by right. }
  { done. }
  { done. }
  exists ng2. cbn [connect_all]. rewrite Hi. simpl map_at. rewrite bind_Ok, E1, bind_Ok.
  split; [done|]. split; [done|]. split; [by apply (extends_trans ng ng1 ng2 [] [])|]. split; [done|]. split.
  - intros a b Ha Hb Hb'. rewrite Hno; rewrite ?Hn1; try done.
    + rewrite He1 by done. rewrite decide_False; [lia|]. intros ->. by apply (Hb' l); [left|].
    + intros l' Hl'. rewrite Hnm1 by done. apply Hb'. by right.
  - intros a b l' Ha Hb [->|Hl']%elem_of_cons Hbl.
    + rewrite Hno; rewrite ?Hn1; try done.
      * rewrite He1 by done. rewrite decide_True; [done|]. by apply (wf_names _ (ng_wf _ (pl_ok _ _ Hpl)) b i (lp_name l)).
      * intros l' Hl'. rewrite Hnm1, Hbl by done. intros [= E]. apply Hnl. rewrite E. by apply list_elem_of_fmap_2.
    + rewrite (Hyes a b l'); rewrite ?Hn1, ?Hnm1; try done.
      rewrite He1 by done. rewrite decide_False.
      * unfold times_named. rewrite Hnm1 by done. lia.
      * intros ->. assert (lp_name l' = lp_name l) as E by congruence. apply Hnl. rewrite <- E. by apply list_elem_of_fmap_2.
Qed.

(** A configuration without partitions. *)
Record plain_net (np : NetProto) (rank : string -> nat) : Prop := {
  pn_names : NoDup (map lp_name (np_layers np));
  pn_layers : Forall (fun l => lp_pdim l = -1 /\ lp_type l <> kLMDBData) (np_layers np);
  pn_srcs l s : l ∈ np_layers np -> s ∈ lp_srclayers l ->
    s ∈ map lp_name (np_layers np) /\ (rank s < rank (lp_name l))%nat;
  pn_plus l l' : l ∈ np_layers np -> l' ∈ np_layers np -> lp_name l' <> (lp_name l ++ "+")%string;
}.

(** The destinations of a layer: how often layers name it as a source. *)
Definition fan_out (np : NetProto) (l : LayerProto) : nat :=
  list_sum (map (fun l' => scount (lp_name l) (lp_srclayers l')) (np_layers np)).

Lemma sum_indicator (x : Z) ns : NoDup ns -> x ∈ ns ->
  list_sum (map (fun y => if decide (y = x) then 1%nat else 0%nat) ns) = 1%nat.
Proof.
  assert (forall ms, x ∉ ms -> list_sum (map (fun y => if decide (y = x) then 1%nat else 0%nat) ms) = 0%nat) as H0.
  { induction ms as [|y ms IH]; intros Hx; [done|]. apply not_elem_of_cons in Hx as [? ?].
    change (list_sum (map ?f (y :: ms))) with (f y + list_sum (map f ms))%nat. cbv beta. rewrite decide_False, IH by done. lia. }
  intros Hnd Hx. induction Hnd as [|y ns Hy _ IH]; [by apply elem_of_nil in Hx|].
  change (list_sum (map ?f (y :: ns))) with (f y + list_sum (map f ns))%nat. cbv beta.
  apply elem_of_cons in Hx as [->|Hx]; [rewrite decide_True, H0 by done; lia|].
  rewrite decide_False by (by intros ->). by rewrite IH.
Qed.
Lemma sum_plus (f g : Z -> nat) ns :
  list_sum (map (fun y => f y + g y)%nat ns) = (list_sum (map f ns) + list_sum (map g ns))%nat.
Proof. induction ns as [|y ns IH]; simpl; [done|]. unfold list_sum in *. simpl in *. lia. Qed.
Lemma length_counts ns l : NoDup ns -> (forall x, x ∈ l -> x ∈ ns) ->
  length l = list_sum (map (fun y => count y l) ns).
Proof.
  intros Hnd. induction l as [|x l IH]; intros Hin.
  { clear. induction ns as [|y ns IH]; [done|]. unfold list_sum in *. simpl in *. exact IH. }
  rewrite (map_ext _ (fun y => (if decide (y = x) then 1 else 0) + count y l)%nat).
  2:{ intros y. by rewrite (count_cons y x l), (count_single y x). }
  rewrite (sum_plus (fun y => if decide (y = x) then 1%nat else 0%nat)), sum_indicator by (try done; apply Hin; left).
  simpl. rewrite IH; [done|]. intros y Hy. apply Hin. by right.
Qed.

(** The connected graph of a plain net. *)
Lemma connected_Ok np rank npartitions : plain_net np rank ->
  exists ng0 m ng, all_nodes npartitions (np_layers np) ∅ (mkNetGraph Graph_new ∅ 0) = Ok (ng0, m) /\
    connect_all (np_layers np) m ng0 = Ok ng /\ placed ng m /\ increasing (graph ng) (rank_of (graph ng) rank) /\
    (forall nm x, m !! nm = Some x -> exists l i, l ∈ np_layers np /\ nm = lp_name l /\ x = ([i], l)) /\
    (forall l, l ∈ np_layers np -> exists i, m !! lp_name l = Some ([i], l)) /\
    forall a b l l', l ∈ np_layers np -> m !! lp_name l = Some ([a], l) -> l' ∈ np_layers np ->
      m !! lp_name l' = Some ([b], l') -> edges (graph ng) a b = scount (lp_name l) (lp_srclayers l').
Proof.
  intros [Hnd Hls Hsrc Hplus].
  destruct (all_nodes_Ok npartitions (np_layers np) ∅ (mkNetGraph Graph_new ∅ 0)) as (ng0 & m & E0 & Hpl & He & Hno & Hyes).
  { split.
    - split; [apply Graph_new_wf|..]; intros i Hi; by apply elem_of_nil in Hi.
    - intros nm ns l Hl. by rewrite lookup_empty in Hl.
    - intros i Hi. by apply elem_of_nil in Hi. }
  { done. }
  { eapply List.Forall_impl; [|exact Hls]. by intros l [? _]. }
  { intros l _. apply lookup_empty. }
  { done. }
  assert (forall nm x, m !! nm = Some x -> exists l i, l ∈ np_layers np /\ nm = lp_name l /\ x = ([i], l)) as Hdom.
  { intros nm x Hx. destruct (decide (nm ∈ map lp_name (np_layers np))) as [Hin|Hin].
    - apply list_elem_of_fmap in Hin as (l & -> & Hl). destruct (Hyes l Hl) as [i Hi]. exists l, i.
      split; [done|]. split; [done|]. congruence.
    - by rewrite Hno, lookup_empty in Hx. }
  destruct (connect_all_Ok m rank (np_layers np)) with (ng := ng0) as (ng & E & Hpl' & X & Hr & _ & Hed); try done.
  { intros s sl ns Hs. destruct (Hdom _ _ Hs) as (l & i & Hl & _ & [= -> ->]).
    rewrite list.Forall_forall in Hls. by destruct (Hls l Hl). }
  { intros l s Hl Hs. destruct (Hsrc l s Hl Hs) as [Hin Hrk]. split; [|done].
    apply list_elem_of_fmap in Hin as (l' & -> & Hl'). destruct (Hyes l' Hl') as [i ->]. by eexists. }
  { intros a b Hab. by rewrite He in Hab. }
  exists ng0, m, ng. do 6 (split; [done|]). intros a b l l' Hl Ha Hl' Hb.
  destruct (pl_node _ _ Hpl _ _ _ Ha) as (? & [= <-] & Hain & Han & _).
  destruct (pl_node _ _ Hpl _ _ _ Hb) as (? & [= <-] & Hbin & Hbn & _).
  rewrite (Hed a b l' Hain Hbin Hl' Hbn), He. unfold times_named. by rewrite Han.
Qed.

Section Plain.
  Context (np : NetProto) (rank : string -> nat) (ng : net_graph) (m : gmap string (list Z * LayerProto)).
  Context (Hnet : plain_net np rank) (Hpl : placed ng m).
  Context (Hdom : forall nm x, m !! nm = Some x -> exists l i, l ∈ np_layers np /\ nm = lp_name l /\ x = ([i], l)).

Lemma plain_node i : i ∈ nodes_ (graph ng) -> exists l, l ∈ np_layers np /\ m !! lp_name l = Some ([i], l) /\
  name_of (graph ng) i = Some (lp_name l) /\ protos ng !! i = Some l.
Proof.
  intros Hi. destruct (pl_name _ _ Hpl i Hi) as (nm & l & Hnm & Hm).
  destruct (Hdom _ _ Hm) as (l' & i' & Hl & -> & [= <- <-]). exists l. split; [done|]. split; [done|].
  by destruct (pl_node _ _ Hpl _ _ _ Hm) as (? & [= <-] & _ & ? & ?).
Qed.
Lemma plain_free : split_names_free ng.
Proof.
  intros i j nm Hi Hj Hn Hp. destruct (plain_node i Hi) as (l & Hl & _ & Hn1 & _).
  destruct (plain_node j Hj) as (l' & Hl' & _ & Hn2 & _).
  apply (pn_plus _ _ Hnet l l' Hl Hl'). congruence.
Qed.
Lemma plain_creatable : creatable ng.
Proof.
  intros i p Hi Hp. destruct (plain_node i Hi) as (l & Hl & _ & _ & Hp').
  pose proof (pn_layers _ _ Hnet) as H. rewrite list.Forall_forall in H. destruct (H l Hl). congruence.
Qed.
Lemma plain_nodes (node_of : LayerProto -> Z) :
  (forall l, l ∈ np_layers np -> m !! lp_name l = Some ([node_of l], l)) ->
  nodes_ (graph ng) ≡ₚ map node_of (np_layers np).
Proof.
  intros Hm. apply NoDup_Permutation.
  - apply (ng_wf _ (pl_ok _ _ Hpl)).
  - apply NoDup_fmap_2_strong; [|apply (NoDup_fmap_1 lp_name), (pn_names _ _ Hnet)].
    intros l l' Hl Hl' E. pose proof (Hm l Hl) as H1. pose proof (Hm l' Hl') as H2.
    destruct (pl_node _ _ Hpl _ _ _ H1) as (? & [= <-] & _ & _ & P1).
    destruct (pl_node _ _ Hpl _ _ _ H2) as (? & [= <-] & _ & _ & P2). congruence.
  - intros i. split.
    + intros Hi. destruct (plain_node i Hi) as (l & Hl & Hml & _). rewrite (Hm l Hl) in Hml. injection Hml as <-.
      by apply list_elem_of_fmap_2.
    + intros Hi. apply list_elem_of_fmap in Hi as (l & -> & Hl).
      by destruct (pl_node _ _ Hpl _ _ _ (Hm l Hl)) as (? & [= <-] & ? & _).
Qed.
Lemma plain_degree (node_of : LayerProto -> Z) l :
  (forall l, l ∈ np_layers np -> m !! lp_name l = Some ([node_of l], l)) -> l ∈ np_layers np ->
  (forall l', l' ∈ np_layers np -> edges (graph ng) (node_of l) (node_of l') = scount (lp_name l) (lp_srclayers l')) ->
  out_degree (graph ng) (node_of l) = fan_out np l.
Proof.
  intros Hm Hl He. pose proof (ng_wf _ (pl_ok _ _ Hpl)) as Hwf.
  assert (node_of l ∈ nodes_ (graph ng)) as Hi.
  { by destruct (pl_node _ _ Hpl _ _ _ (Hm l Hl)) as (? & [= <-] & ? & _). }
  destruct (wf_store _ Hwf _ Hi) as [n Hn]. unfold out_degree, fan_out. rewrite Hn.
  rewrite (length_counts (map node_of (np_layers np)) (dstnodes n)).
  - rewrite map_map. f_equal. apply map_ext_in. intros l' Hl'%list_elem_of_In. rewrite <- He by done.
    unfold edges. by rewrite Hn.
  - rewrite <- (plain_nodes node_of Hm). apply Hwf.
  - intros d Hd. rewrite <- (plain_nodes node_of Hm). apply (edge_dst _ _ _ n Hn) in Hd.
    by destruct (wf_ends _ Hwf _ _ Hd).
Qed.
End Plain.

(** C4. A net without partitions.  When the layers have distinct names, none of them
    that of a split layer, and take their input from layers of the net without
    cycles, [CreateGraph] returns: there is a node for each layer; a layer feeds exactly
    those that name it as a source, as often as they do, directly, or, when it has several
    destinations and its type expects one, all of them through one added split layer; and
    every node comes after its sources. *)
Theorem CreateGraph_plain (np : NetProto) (rank : string -> nat) (npartitions : Z) (Hnet : plain_net np rank) :
  exists ng new node_of, CreateGraph np npartitions = Ok ng /\ graph_wf (graph ng) /\
    topological (graph ng) (nodes_ (graph ng)) /\
    nodes_ (graph ng) ≡ₚ map node_of (np_layers np) ++ new /\
    (forall l, l ∈ np_layers np -> name_of (graph ng) (node_of l) = Some (lp_name l) /\
       protos ng !! node_of l = Some l) /\
    forall l, l ∈ np_layers np ->
      let feeds (i : Z) := forall l', l' ∈ np_layers np ->
        edges (graph ng) i (node_of l') = scount (lp_name l) (lp_srclayers l') in
      if decide ((1 < fan_out np l)%nat /\ dst_layer_connection (lp_type l) = kOneToOne)
      then exists k, k ∈ new /\ (exists p, protos ng !! k = Some p /\ lp_type p = kSplit) /\
        (forall j, edges (graph ng) (node_of l) j = if decide (j = k) then 1%nat else 0%nat) /\ feeds k
      else feeds (node_of l).
Proof.
  destruct (connected_Ok np rank npartitions Hnet) as (ng0 & m & ng & E0 & E1 & Hpl & Hr & Hdom & Hyes & Hed).
  destruct (finish_Ok ng (rank_of (graph ng) rank)) as (ng1 & ng2 & ng3 & new & S1 & S2 & S3 & S4 & Hfin).
  { apply Hpl. }
  { done. }
  { by apply (plain_free np rank _ m). }
  { by apply (plain_creatable np rank _ m). }
  set (node_of (l : LayerProto) := match m !! lp_name l with Some (i :: _, _) => i | _ => 0 end).
  assert (forall l, l ∈ np_layers np -> m !! lp_name l = Some ([node_of l], l)) as Hm.
  { intros l Hl. unfold node_of. by destruct (Hyes l Hl) as [i ->]. }
  exists ng3, new, node_of. unfold CreateGraph. rewrite E0, bind_Ok, E1, bind_Ok, S1, bind_Ok. cbv zeta.
  rewrite S2, bind_Ok, S3, bind_Ok. destruct Hfin as [Hok Hn Ht Hold Hdir Hthr].
  assert (nodes_ (graph ng) ≡ₚ map node_of (np_layers np)) as Hperm by (by apply (plain_nodes np rank _ m)).
  assert (forall l, l ∈ np_layers np -> node_of l ∈ nodes_ (graph ng)) as Hin.
  { intros l Hl. rewrite Hperm. by apply list_elem_of_fmap_2. }
  split; [done|]. split; [apply Hok|]. split; [done|]. split; [by rewrite Hn, Hperm|].
  assert (forall l, l ∈ np_layers np -> name_of (graph ng) (node_of l) = Some (lp_name l) /\
    protos ng !! node_of l = Some l) as Hnp.
  { intros l Hl. by destruct (pl_node _ _ Hpl _ _ _ (Hm l Hl)) as (? & [= <-] & _ & ? & ?). }
  split. { intros l Hl. destruct (Hold _ (Hin l Hl)) as [-> ->]. by apply Hnp. }
  intros l Hl. destruct (Hnp l Hl) as [_ Hp].
  assert (forall l', l' ∈ np_layers np -> edges (graph ng) (node_of l) (node_of l') = scount (lp_name l) (lp_srclayers l')) as He.
  { intros l' Hl'. by apply (Hed _ _ l l'); auto. }
  assert (out_degree (graph ng) (node_of l) = fan_out np l) as Hfo by (by apply (plain_degree np rank _ m)).
  destruct (decide _) as [[Hd Hc]|Hno].
  - destruct (Hthr _ (Hin l Hl)) as (k & Hk & Hkp & Hth).
    { split; [by rewrite Hfo|by exists l]. }
    exists k. split; [done|]. split; [done|]. split; [intros j; apply Hth|].
    intros l' Hl'. rewrite (proj2 (Hth _)). by apply He.
  - intros l' Hl'. rewrite (Hdir _ (Hin l Hl)); [by apply He|]. intros [Hd (p & Hp' & Hc)]. apply Hno.
    rewrite <- Hfo. split; [done|]. congruence.
Qed.

Lemma plain_net_check np rank :
  NoDup (map lp_name (np_layers np)) ->
  Forall (fun l => lp_pdim l = -1 /\ lp_type l <> kLMDBData) (np_layers np) ->
  Forall (fun l => Forall (fun s => s ∈ map lp_name (np_layers np) /\ (rank s < rank (lp_name l))%nat)
    (lp_srclayers l)) (np_layers np) ->
  Forall (fun l => Forall (fun l' => lp_name l' <> (lp_name l ++ "+")%string) (np_layers np)) (np_layers np) ->
  plain_net np rank.
Proof.
  intros H1 H2 H3 H4. split; [done|done|..].
  - intros l s Hl Hs. rewrite list.Forall_forall in H3. specialize (H3 l Hl).
    rewrite list.Forall_forall in H3. by apply H3.
  - intros l l' Hl Hl'. rewrite list.Forall_forall in H4. specialize (H4 l Hl).
    rewrite list.Forall_forall in H4. by apply H4.
Qed.

(** A net like that of the MNIST example, with a hidden layer used twice. *)
Definition demo_layer (name : string) (ty : LayerType) (srcs : list string) : LayerProto :=
  mkLayerProto name ty (Some (-1)) 0 srcs [] [] "unknow" NoConf.
Definition demo_net : NetProto := mkNetProto
  [demo_layer "loss" kSoftmaxLoss ["fc2"; "label"]; demo_layer "data" kShardData [];
   demo_layer "mnist" kMnist ["data"]; demo_layer "label" kLabel ["data"];
   demo_layer "fc1" kInnerProduct ["mnist"]; demo_layer "tanh" kTanh ["fc1"]; demo_layer "relu" kReLU ["fc1"];
   demo_layer "fc2" kInnerProduct ["tanh"; "relu"]] (-1).
Definition demo_rank (s : string) : nat :=
  match list_find (fun x => x = s) ["data"; "mnist"; "label"; "fc1"; "tanh"; "relu"; "fc2"; "loss"] with
  | Some (i, _) => i | None => 0%nat
  end.
Lemma demo_plain : plain_net demo_net demo_rank.
Proof.
  apply plain_net_check.
  - apply (bool_decide_eq_true_1 (NoDup (map lp_name (np_layers demo_net)))). by vm_compute.
  - repeat constructor; done.
  - repeat constructor; simpl; try (apply list_elem_of_In; simpl; tauto); by apply Nat.ltb_lt.
  - repeat constructor; done.
Qed.

Definition net_names (r : outcome net_graph) : list (option string) :=
  match r with Ok ng => map (name_of (graph ng)) (nodes_ (graph ng)) | _ => [] end.

Lemma CreateGraph_plain_witness :
  plain_net demo_net demo_rank /\
  net_names (CreateGraph demo_net 1) =
    map Some ["data"; "mnist"; "label"; "fc1"; "fc1+"; "tanh"; "relu"; "fc2"; "loss"]%string /\
  exists ng, CreateGraph demo_net 1 = Ok ng /\ graph_wf (graph ng).
Proof.
  split; [apply demo_plain|]. split; [by vm_compute|].
  destruct (CreateGraph_plain demo_net demo_rank 1 demo_plain) as (ng & _ & _ & E & Hwf & _). exists ng. exact (conj E Hwf).
Defined.

(** ** Partitioned layers *)

(** A layer partitioned on one dimension whose source is partitioned on the other.
    The nodes that slice the sources are made for an empty list of destinations, as the
    vector of the block hides the layer's nodes, and the read of its first element is
    undefined; only a layer that uses all of its source escapes, when the source is
    partitioned on the batch. *)
Theorem connect_mixed (connection : ConnectionType) (src_pdim pdim s : Z) (srcnodes nodes : list Z) (ng : net_graph)
    (Hng : ng_ok ng) (Hs : s ∈ nodes_ (graph ng))
    (Hmix : src_pdim = 1 /\ pdim = 0 \/ src_pdim = 0 /\ pdim = 1 /\ connection <> kOneToAll) :
  connect connection src_pdim pdim (s :: srcnodes) nodes ng = Undef.
Proof.
  assert (slice_all (s :: srcnodes) [] ng = Undef) as Hsl.
  { destruct (wf_store _ (ng_wf _ Hng) s Hs) as [x Hx]. destruct (ng_proto _ Hng s Hs) as [p Hp].
    simpl. unfold SliceNode, get_node, node_proto. rewrite Hx, deref_Some, bind_Ok, Hp, deref_Some, bind_Ok. done. }
  unfold connect. destruct Hmix as [[-> ->]|(-> & -> & Hc)]; [|rewrite (bool_decide_eq_false_2 (connection = kOneToAll)) by done];
    cbn -[slice_all]; by rewrite Hsl.
Qed.
Definition one_node : net_graph := (new_node "img@00" "img" (demo_layer "img" kMnist []) 0 (mkNetGraph Graph_new ∅ 0)).1.
Lemma one_node_ok : ng_ok one_node.
Proof.
  assert (ng_ok (mkNetGraph Graph_new ∅ 0)) as H0.
  { split; [apply Graph_new_wf|..]; intros i Hi; by apply elem_of_nil in Hi. }
  destruct (new_node_Ok "img@00" "img" (demo_layer "img" kMnist []) 0 _ H0) as (ng & E & Hng & _).
  { intros j Hj. by apply elem_of_nil in Hj. }
  unfold one_node. by rewrite E.
Qed.
Lemma connect_mixed_witness :
  0 ∈ nodes_ (graph one_node) /\ connect kOneToOne 1 0 [0] [0] one_node = Undef.
Proof.
  assert (0 ∈ nodes_ (graph one_node)) as H by (apply (bool_decide_eq_true_1 (0 ∈ [0])); reflexivity).
  split; [exact H|]. apply (connect_mixed kOneToOne 1 0 0 [] [0] one_node one_node_ok H). left. done.
Defined.

(** No bridge is ever added: the two partition ids that are compared are both
    those of the source, so the loop over all edges leaves every graph as it is, also
    when an edge joins nodes of different workers. *)
Theorem bridge_all_nothing (ns : list Z) (ng : net_graph) (Hng : ng_ok ng)
    (Hns : forall i, i ∈ ns -> i ∈ nodes_ (graph ng)) :
  bridge_all ns ng = Ok ng.
Proof. by apply bridge_all_Ok. Qed.
Lemma bridge_all_nothing_witness : bridge_all [0] one_node = Ok one_node.
Proof. apply (bridge_all_nothing [0] one_node one_node_ok). intros i Hi. exact Hi. Defined.
