(* ===== verification/Layers.v ===== *)
(** * neuralnet/base_layer.h, layer.h, base_layer.cc, layer.cc: the layer objects

    What a layer is made of, the blobs it gives to its neighbours ([data], [grad] and
    [mutable_grad]) and [Setup], which computes its shapes from its configuration and its
    sources and creates its params.  A layer is the index of its object in [objs]; its
    class is that it was created with, its configuration is set by [Setup].  Params and
    blobs live in the store the workers, the stub and the servers share ([world]). *)

From S2P Require Import Prelude DataShard Float32 Msg Format Memory Param Server Worker LayerConf.

(** ** Records of training data, and files *)
Record Record_ := mkRecord {
  im_shape : list Z;
  im_label : Z;
  im_pixel : list Z;  (* bytes *)
  im_data : list Z;   (* floats *)
}.
Definition Record_default : Record_ := mkRecord [] 0 [] [].

(** The file system and protobuf: the folder of a shard and its file, [ParseFromArray]
    of a record, and the floats of a mean file read by [ReadProtoFromBinaryFile]. *)
Class Files := {
  shard_folder : string -> bool;
  shard_file : string -> option (list Z);
  parse_record : list Z -> Record_;
  read_mean : string -> outcome (list Z);
}.

(** ** Objects *)

(** The members of the subclasses; a member not listed is not used after [Setup]. *)
Inductive Sub :=
| Plain
| ConvolutionSub (kernel_ pad_ stride_ num_filters_ batchsize_ channels_ height_ width_ conv_height_ conv_width_
    col_height_ col_width_ : Z) (col_data_ col_grad_ : Blob) (weight_ bias_ : Z)
| DropoutSub (pdrop_ : Z) (mask_ : Blob)
| RBMVisSub (hdim_ vdim_ batchsize_ neg_batchsize_ data_idx_ hid_idx_ : Z) (is_first_iteration_vis_ : bool)
    (vis_sample_ : Blob) (weight_ bias_ : Z)
| RBMHidSub (hdim_ vdim_ batchsize_ neg_batchsize_ scale_ : Z) (hid_sample_ : Blob) (weight_ bias_ : Z)
| InnerProductSub (hdim_ vdim_ batchsize_ : Z) (weight_ bias_ : Z)
| DataSub (random_skip_ batchsize_ : Z) (sample_ : Record_) (records_ : list Record_) (shard_ : option DataShard)
| LRNSub (lsize_ alpha_ beta_ knorm_ batchsize_ channels_ height_ width_ : Z) (norm_ : Blob)
| MnistSub (norm_a_ norm_b_ resize_ : Z)
| PoolingSub (kernel_ stride_ : Z) (pool_ : PoolMethod) (batchsize_ channels_ height_ width_ pooled_height_
    pooled_width_ : Z)
| RGBImageSub (scale_ cropsize_ : Z) (mirror_ : bool) (mean_ : Blob)
| PrefetchSub (sublayers_ : list Z) (datablobs_ : list (string * Blob))  (* by name *)
| SliceSub (slice_dim_ slice_num_ : Z) (datavec_ gradvec_ : list Blob)
| LossSub (batchsize_ dim_ topk_ scale_ : Z) (metric_ : Blob).

Record LayerObj := mkObj {
  oclass : LayerType;
  layer_proto_ : LayerProto;
  odata : Blob;
  ograd : Blob;
  osrcs : list Z;
  odsts : list Z;
  osub : Sub;
}.
(** [new] of a class clears the members. *)
Definition LayerObj_new (ty : LayerType) : LayerObj :=
  mkObj ty (LayerProto_default kBridgeSrc) Blob_new Blob_new [] [] Plain.

Record nstate := mkNS {
  objs : gmap Z LayerObj;
  next_obj : Z;
  nworld : world;
}.
Definition nheap (s : nstate) : heap := hp (nworld s).
Definition set_nheap (h : heap) (s : nstate) : nstate := mkNS (objs s) (next_obj s) (set_hp h (nworld s)).
Definition obj (i : Z) (s : nstate) : outcome LayerObj := deref (objs s !! i).
Definition put_obj (i : Z) (o : LayerObj) (s : nstate) : nstate := mkNS (<[i := o]> (objs s)) (next_obj s) (nworld s).

Definition set_proto (p : LayerProto) (o : LayerObj) : LayerObj :=
  mkObj (oclass o) p (odata o) (ograd o) (osrcs o) (odsts o) (osub o).
Definition set_data (b : Blob) (o : LayerObj) : LayerObj :=
  mkObj (oclass o) (layer_proto_ o) b (ograd o) (osrcs o) (odsts o) (osub o).
Definition set_grad (b : Blob) (o : LayerObj) : LayerObj :=
  mkObj (oclass o) (layer_proto_ o) (odata o) b (osrcs o) (odsts o) (osub o).
Definition set_srcs (l : list Z) (o : LayerObj) : LayerObj :=
  mkObj (oclass o) (layer_proto_ o) (odata o) (ograd o) l (odsts o) (osub o).
Definition set_dsts (l : list Z) (o : LayerObj) : LayerObj :=
  mkObj (oclass o) (layer_proto_ o) (odata o) (ograd o) (osrcs o) l (osub o).
Definition set_sub (u : Sub) (o : LayerObj) : LayerObj :=
  mkObj (oclass o) (layer_proto_ o) (odata o) (ograd o) (osrcs o) (odsts o) u.
Definition update_obj (i : Z) (f : LayerObj -> LayerObj) (s : nstate) : outcome nstate :=
  o ← obj i s; Ok (put_obj i (f o) s).

(** [factory->Create(type)] *)
Definition create_obj (ty : LayerType) (s : nstate) : outcome (nstate * Z) :=
  ty ← create_layer ty;
  let i := next_obj s in
  Ok (mkNS (<[i := LayerObj_new ty]> (objs s)) (i + 1) (nworld s), i).

Definition is_parserlayer (ty : LayerType) : bool :=
  match ty with kLabel | kMnist | kRGBImage => true | _ => false end.
Definition is_datalayer (ty : LayerType) : bool :=
  match ty with kShardData | kInput | kLMDBData => true | _ => false end.
Definition is_losslayer (ty : LayerType) : bool :=
  match ty with kSoftmaxLoss | kOutput => true | _ => false end.

(** [GetParams]: weight and bias. *)
Definition sub_params (u : Sub) : list Z :=
  match u with
  | ConvolutionSub _ _ _ _ _ _ _ _ _ _ _ _ _ _ w b | RBMVisSub _ _ _ _ _ _ _ _ w b
  | RBMHidSub _ _ _ _ _ _ w b | InnerProductSub _ _ _ w b => [w; b]
  | _ => []
  end.
Definition GetParams (o : LayerObj) : list Z := sub_params (osub o).

(** ** The blobs of a layer *)

(** [SliceID]: the index of [layer] among the destinations. *)
Fixpoint slice_index (layer : Z) (dsts : list Z) (n : nat) (i : Z) : outcome Z :=
  match n with
  | O => Fatal
  | S n =>
      match dsts with
      | [] => Undef
      | d :: dsts => if d =? layer then Ok i else slice_index layer dsts n (i + 1)
      end
  end.
Definition SliceID (layer : Z) (o : LayerObj) (vec : list Blob) : outcome Z :=
  slice_index layer (odsts o) (length vec) 0.
Definition slice_blob (from : option Z) (o : LayerObj) (whole : Blob) (vec : list Blob) : outcome Blob :=
  match from with
  | None => Ok whole
  | Some layer => k ← SliceID layer o vec; idx vec k
  end.

(** [data(from, phase)]; [BridgeSrcLayer] passes on the call. *)
Fixpoint data (fuel : nat) (i : Z) (from : option Z) (phase : Phase) (s : nstate) : outcome Blob :=
  match fuel with
  | O => OutOfFuel
  | S fuel =>
      o ← obj i s;
      match oclass o, osub o with
      | kBridgeSrc, _ => j ← idx (osrcs o) 0; data fuel j (Some i) kPositive s
      | kPrefetch, PrefetchSub _ blobs =>
          match from with
          | Some f => fo ← obj f s; map_at (snd <$> list_find (fun nb => nb.1 = lp_datablob (layer_proto_ fo)) blobs)
                      ≫= fun nb => Ok nb.2
          | None => nb ← idx blobs 0; Ok nb.2
          end
      | kSlice, SliceSub _ _ vec _ => slice_blob from o (odata o) vec
      | kRBMVis, RBMVisSub _ _ _ _ _ _ _ b _ _ | kRBMHid, RBMHidSub _ _ _ _ _ b _ _ =>
          Ok (if decide (phase = kPositive) then odata o else b)
      | _, _ => Ok (odata o)
      end
  end.
(** [mutable_grad(from)], [None] is a null pointer, and [grad(from)]. *)
Fixpoint mutable_grad (fuel : nat) (i : Z) (from : option Z) (s : nstate) : outcome (option Blob) :=
  match fuel with
  | O => OutOfFuel
  | S fuel =>
      o ← obj i s;
      if is_parserlayer (oclass o) || is_datalayer (oclass o) || is_losslayer (oclass o)
         || bool_decide (oclass o = kPrefetch) then Ok None
      else
        match oclass o, osub o with
        | kBridgeSrc, _ => j ← idx (osrcs o) 0; mutable_grad fuel j (Some i) s
        | kSlice, SliceSub _ _ _ vec => b ← slice_blob from o (ograd o) vec; Ok (Some b)
        | _, _ => Ok (Some (ograd o))
        end
  end.
Fixpoint grad (fuel : nat) (i : Z) (from : option Z) (s : nstate) : outcome Blob :=
  match fuel with
  | O => OutOfFuel
  | S fuel =>
      o ← obj i s;
      if is_parserlayer (oclass o) || is_losslayer (oclass o) || bool_decide (oclass o = kPrefetch) then Fatal
      else
        match oclass o, osub o with
        | kBridgeSrc, _ => j ← idx (osrcs o) 0; grad fuel j (Some i) s
        | kSlice, SliceSub _ _ _ vec => slice_blob from o (ograd o) vec
        | _, _ => Ok (ograd o)
        end
  end.

(** A chain of bridges is not longer than there are layers. *)
Definition chain (s : nstate) : nat := S (Z.to_nat (next_obj s)).

(** [srclayers_[k]->data(this)], its [grad] and its [mutable_grad]. *)
Definition src_data (i k : Z) (phase : Phase) (s : nstate) : outcome Blob :=
  o ← obj i s; j ← idx (osrcs o) k; data (chain s) j (Some i) phase s.
Definition src_grad (i k : Z) (s : nstate) : outcome Blob :=
  o ← obj i s; j ← idx (osrcs o) k; grad (chain s) j (Some i) s.
Definition src_mutable_grad (i k : Z) (s : nstate) : outcome (option Blob) :=
  o ← obj i s; j ← idx (osrcs o) k; mutable_grad (chain s) j (Some i) s.

(** ** Setup *)
Definition Layer_Setup (i : Z) (p : LayerProto) (npartitions : Z) (s : nstate) : outcome nstate :=
  _ ← CHECK (1 <=? npartitions); update_obj i (set_proto p) s.

Definition num_srcs (i : Z) (s : nstate) : outcome Z := o ← obj i s; Ok (Z.of_nat (length (osrcs o))).
Definition reshape_data (i : Z) (shape : list Z) (s : nstate) : outcome nstate :=
  o ← obj i s; '(h, b) ← Reshape (odata o) shape (nheap s);
  Ok (set_nheap h (put_obj i (set_data b o) s)).
Definition reshape_grad (i : Z) (shape : list Z) (s : nstate) : outcome nstate :=
  o ← obj i s; '(h, b) ← Reshape (ograd o) shape (nheap s);
  Ok (set_nheap h (put_obj i (set_grad b o) s)).
(** A member blob that is shaped for the first time. *)
Definition new_blob (shape : list Z) (s : nstate) : outcome (nstate * Blob) :=
  '(h, b) ← Reshape Blob_new shape (nheap s); Ok (set_nheap h s, b).
(** [factory->Create("Param")] and [Setup]. *)
Definition new_param (proto : ParamProto) (shape : list Z) (s : nstate) : outcome (nstate * Z) :=
  let w := nworld s in
  '(h, p) ← Param.Setup Param_new proto shape (hp w);
  let i := next_param w in
  Ok (mkNS (objs s) (next_obj s) (mkWorld h (<[i := p]> (params w)) (i + 1) (shard w)), i).
Definition set_members (i : Z) (u : Sub) (s : nstate) : outcome nstate := update_obj i (set_sub u) s.

Definition BridgeDst_Setup (i : Z) (p : LayerProto) (npartitions : Z) (s : nstate) : outcome nstate :=
  s ← Layer_Setup i p npartitions s;
  n ← num_srcs i s; _ ← CHECK (n =? 1);
  b ← src_data i 0 kPositive s;
  s ← reshape_data i (shape_ b) s;
  o ← obj i s; reshape_grad i (shape_ (odata o)) s.

(** *** Concate, slice and split *)
Definition concate_conf (p : LayerProto) : Z := match lp_conf p with ConcateConf d => d | _ => 0 end.
(** The loop over the dimensions of one source; [dim] is a [size_t]. *)
Fixpoint concate_shape (dim j : Z) (shape srcshape : list Z) : outcome (list Z) :=
  match shape with
  | [] => Ok []
  | d :: shape =>
      match srcshape with
      | [] => Undef
      | e :: srcshape =>
          d ← (if j =? dim then iadd d e else _ ← CHECK (d =? e); Ok d);
          shape ← concate_shape dim (j + 1) shape srcshape;
          Ok (d :: shape)
      end
  end.
Fixpoint concate_srcs (i dim : Z) (ks : list Z) (shape : list Z) (s : nstate) : outcome (list Z) :=
  match ks with
  | [] => Ok shape
  | k :: ks =>
      b ← src_data i k kPositive s;
      shape ← concate_shape dim 0 shape (shape_ b);
      concate_srcs i dim ks shape s
  end.
(** [0, 1, ..., n-1] *)
Definition upto (n : Z) : list Z := Z.of_nat <$> seq 0 (Z.to_nat n).
Definition Concate_Setup (i : Z) (p : LayerProto) (npartitions : Z) (s : nstate) : outcome nstate :=
  s ← Layer_Setup i p npartitions s;
  let concate_dim := u64 (concate_conf p) in
  n ← num_srcs i s; _ ← CHECK (1 <? n);
  b ← src_data i 0 kPositive s;
  shape ← concate_srcs i concate_dim (drop 1 (upto n)) (shape_ b) s;
  s ← reshape_data i shape s;
  reshape_grad i shape s.

Definition slice_conf (p : LayerProto) : Z := match lp_conf p with SliceConf d => d | _ => 0 end.
(** The shape of slice [i] of [n]. *)
Definition slice_shape (shape : list Z) (dim n i : Z) : outcome (list Z) :=
  d ← idx shape dim;
  q ← idiv d n;
  r ← (if i =? n - 1 then imod d n else Ok 0);
  d ← iadd q r;
  set_idx shape dim d.
Fixpoint slice_blobs (shape : list Z) (dim n : Z) (ks : list Z) (s : nstate)
    : outcome (nstate * list Blob * list Blob) :=
  match ks with
  | [] => Ok (s, [], [])
  | k :: ks =>
      newshape ← slice_shape shape dim n k;
      '(s, b) ← new_blob newshape s;
      '(s, g) ← new_blob newshape s;
      '(s, bs, gs) ← slice_blobs shape dim n ks s;
      Ok (s, b :: bs, g :: gs)
  end.
Definition Slice_Setup (i : Z) (p : LayerProto) (npartitions : Z) (s : nstate) : outcome nstate :=
  s ← Layer_Setup i p npartitions s;
  let slice_dim_ := slice_conf p in
  let slice_num_ := npartitions in
  _ ← CHECK (0 <=? slice_dim_);
  o ← obj i s;
  _ ← CHECK (slice_num_ =? Z.of_nat (length (odsts o)));
  b ← src_data i 0 kPositive s;
  s ← reshape_data i (shape_ b) s;
  s ← reshape_grad i (shape_ b) s;
  o ← obj i s;
  r ← imod (count_ (odata o)) slice_num_;
  _ ← CHECK (r =? 0);
  '(s, datavec_, gradvec_) ← slice_blobs (shape_ (odata o)) slice_dim_ slice_num_ (upto slice_num_) s;
  set_members i (SliceSub slice_dim_ slice_num_ datavec_ gradvec_) s.

Definition Split_Setup (i : Z) (p : LayerProto) (npartitions : Z) (s : nstate) : outcome nstate :=
  s ← Layer_Setup i p npartitions s;
  n ← num_srcs i s; _ ← CHECK (n =? 1);
  b ← src_data i 0 kPositive s;
  s ← reshape_data i (shape_ b) s;
  reshape_grad i (shape_ b) s.

(** *** Neurons *)
Definition convolution_conf (p : LayerProto) : Z * Z * Z * Z :=
  match lp_conf p with ConvolutionConf n k pad stride => (n, k, pad, stride) | _ => (0, 0, 0, 1) end.
(** [(size + 2 * pad - kernel) / stride + 1] *)
Definition window_count (sz pad kernel stride : Z) : outcome Z :=
  a ← imul 2 pad; a ← iadd sz a; a ← isub a kernel; a ← idiv a stride; iadd a 1.
Definition Convolution_Setup (i : Z) (p : LayerProto) (npartitions : Z) (s : nstate) : outcome nstate :=
  s ← Layer_Setup i p npartitions s;
  let '(num_filters_, kernel_, pad_, stride_) := convolution_conf p in
  _ ← CHECK (0 <? kernel_);
  num_filters_ ← (if 0 <? lp_pdim p then idiv num_filters_ npartitions else Ok num_filters_);
  b ← src_data i 0 kPositive s;
  let srcshape := shape_ b in
  let dim := Z.of_nat (length srcshape) in
  _ ← CHECK (2 <? dim);
  width_ ← idx srcshape (dim - 1);
  height_ ← idx srcshape (dim - 2);
  channels_ ← (if 3 <? dim then idx srcshape (dim - 3) else Ok 1);
  batchsize_ ← idx srcshape 0;
  conv_height_ ← window_count height_ pad_ kernel_ stride_;
  conv_width_ ← window_count width_ pad_ kernel_ stride_;
  col_height_ ← (a ← imul channels_ kernel_; imul a kernel_);
  col_width_ ← imul conv_height_ conv_width_;
  let shape := [batchsize_; num_filters_; conv_height_; conv_width_] in
  s ← reshape_data i shape s;
  s ← reshape_grad i shape s;
  '(s, col_data_) ← new_blob [col_height_; col_width_] s;
  '(s, col_grad_) ← new_blob [col_height_; col_width_] s;
  p0 ← idx (lp_params p) 0;
  '(s, weight_) ← new_param p0 [num_filters_; col_height_] s;
  p1 ← idx (lp_params p) 1;
  '(s, bias_) ← new_param p1 [num_filters_] s;
  set_members i (ConvolutionSub kernel_ pad_ stride_ num_filters_ batchsize_ channels_ height_ width_ conv_height_
    conv_width_ col_height_ col_width_ col_data_ col_grad_ weight_ bias_) s.

Definition dropout_conf (p : LayerProto) : Z :=
  match lp_conf p with DropoutConf r => r | _ => f32_div f32_one (f32_of_Z 2) end.
Definition Dropout_Setup (i : Z) (p : LayerProto) (npartitions : Z) (s : nstate) : outcome nstate :=
  s ← Layer_Setup i p npartitions s;
  b ← src_data i 0 kPositive s;
  s ← reshape_data i (shape_ b) s;
  g ← (g ← src_mutable_grad i 0 s; deref g);
  s ← reshape_grad i (shape_ g) s;
  b ← src_data i 0 kPositive s;
  '(s, mask_) ← new_blob (shape_ b) s;
  set_members i (DropoutSub (dropout_conf p) mask_) s.

(** The sources that have this layer, by its name, as a destination. *)
Fixpoint names_this (nm : string) (dsts : list Z) (s : nstate) : outcome bool :=
  match dsts with
  | [] => Ok false
  | d :: dsts => o ← obj d s; b ← names_this nm dsts s; Ok (bool_decide (lp_name (layer_proto_ o) = nm) || b)
  end.
Fixpoint find_hid (nm : string) (srcs : list Z) (k hid : Z) (s : nstate) : outcome Z :=
  match srcs with
  | [] => Ok hid
  | j :: srcs =>
      o ← obj j s; b ← names_this nm (odsts o) s; find_hid nm srcs (k + 1) (if b : bool then k else hid) s
  end.
Definition rbmvis_conf (p : LayerProto) : Z := match lp_conf p with RBMVisConf n => n | _ => 0 end.
Definition RBMVis_Setup (i : Z) (p : LayerProto) (npartitions : Z) (s : nstate) : outcome nstate :=
  s ← Layer_Setup i p npartitions s;
  n ← num_srcs i s; _ ← CHECK (n =? 2);
  o ← obj i s;
  let '(data0, hid0) := match osub o with RBMVisSub _ _ _ _ d h _ _ _ _ => (d, h) | _ => (0, 0) end in
  hid_idx_ ← find_hid (lp_name p) (osrcs o) 0 hid0 s;
  let data_idx_ := foldl (fun d k => if k =? hid_idx_ then d else k) data0 (upto n) in
  src ← src_data i data_idx_ kPositive s;
  batchsize_ ← idx (shape_ src) 0;
  vdim_ ← idiv (count_ src) batchsize_;
  let hdim_ := rbmvis_conf p in
  s ← reshape_data i [batchsize_; vdim_] s;
  '(s, vis_sample_) ← new_blob [batchsize_; vdim_] s;
  p0 ← idx (lp_params p) 0;
  '(s, weight_) ← new_param p0 [vdim_; hdim_] s;
  p1 ← idx (lp_params p) 1;
  '(s, bias_) ← new_param p1 [vdim_] s;
  set_members i (RBMVisSub hdim_ vdim_ batchsize_ batchsize_ data_idx_ hid_idx_ true vis_sample_ weight_ bias_) s.
Definition rbmhid_conf (p : LayerProto) : Z := match lp_conf p with RBMHidConf n => n | _ => 0 end.
Definition RBMHid_Setup (i : Z) (p : LayerProto) (npartitions : Z) (s : nstate) : outcome nstate :=
  s ← Layer_Setup i p npartitions s;
  n ← num_srcs i s; _ ← CHECK (n =? 1);
  src_d ← src_data i 0 kPositive s;
  src_sample ← src_data i 0 kNegative s;
  batchsize_ ← idx (shape_ src_d) 0;
  neg_batchsize_ ← idx (shape_ src_sample) 0;
  vdim_ ← idiv (count_ src_d) batchsize_;
  let hdim_ := rbmhid_conf p in
  s ← reshape_data i [batchsize_; hdim_] s;
  '(s, hid_sample_) ← new_blob [neg_batchsize_; hdim_] s;
  p1 ← idx (lp_params p) 1;
  '(s, bias_) ← new_param p1 [hdim_] s;
  p0 ← idx (lp_params p) 0;
  '(s, weight_) ← new_param p0 [vdim_; hdim_] s;
  set_members i (RBMHidSub hdim_ vdim_ batchsize_ neg_batchsize_ f32_one hid_sample_ weight_ bias_) s.

Definition innerproduct_conf (p : LayerProto) : Z := match lp_conf p with InnerProductConf n => n | _ => 0 end.
Definition InnerProduct_Setup (i : Z) (p : LayerProto) (npartitions : Z) (s : nstate) : outcome nstate :=
  s ← Layer_Setup i p npartitions s;
  n ← num_srcs i s; _ ← CHECK (n =? 1);
  src ← src_data i 0 kPositive s;
  batchsize_ ← idx (shape_ src) 0;
  vdim_ ← idiv (count_ src) batchsize_;
  let hdim_ := innerproduct_conf p in
  hdim_ ← (if 0 <? lp_pdim p then idiv hdim_ npartitions else Ok hdim_);
  s ← reshape_data i [batchsize_; hdim_] s;
  o ← obj i s; s ← reshape_grad i (shape_ (odata o)) s;
  p0 ← idx (lp_params p) 0;
  '(s, weight_) ← new_param p0 [vdim_; hdim_] s;
  p1 ← idx (lp_params p) 1;
  '(s, bias_) ← new_param p1 [hdim_] s;
  set_members i (InnerProductSub hdim_ vdim_ batchsize_ weight_ bias_) s.

(** [norm_region] is not read. *)
Definition lrn_conf (p : LayerProto) : Z * Z * Z * Z :=
  match lp_conf p with
  | LRNConf n a b k _ => (n, a, b, k)
  | _ => (5, f32_one, f32_div (f32_of_Z 3) (f32_of_Z 4), f32_one)
  end.
Definition LRN_Setup (i : Z) (p : LayerProto) (npartitions : Z) (s : nstate) : outcome nstate :=
  s ← Layer_Setup i p npartitions s;
  n ← num_srcs i s; _ ← CHECK (n =? 1);
  let '(lsize_, alpha_, beta_, knorm_) := lrn_conf p in
  r ← imod lsize_ 2; _ ← CHECK (r =? 1);
  b ← src_data i 0 kPositive s;
  let sh := shape_ b in
  s ← reshape_data i sh s;
  s ← reshape_grad i sh s;
  '(s, norm_) ← new_blob sh s;
  batchsize_ ← idx sh 0; channels_ ← idx sh 1; height_ ← idx sh 2; width_ ← idx sh 3;
  set_members i (LRNSub lsize_ alpha_ beta_ knorm_ batchsize_ channels_ height_ width_ norm_) s.

Definition pooling_conf (p : LayerProto) : Z * PoolMethod * Z :=
  match lp_conf p with PoolingConf k m st => (k, m, st) | _ => (0, MAX, 1) end.
(** [pad_] is never set, so it is 0. *)
Definition Pooling_Setup (i : Z) (p : LayerProto) (npartitions : Z) (s : nstate) : outcome nstate :=
  s ← Layer_Setup i p npartitions s;
  n ← num_srcs i s; _ ← CHECK (n =? 1);
  let '(kernel_, pool_, stride_) := pooling_conf p in
  _ ← CHECK (0 <? kernel_);
  b ← src_data i 0 kPositive s;
  let srcshape := shape_ b in
  let dim := Z.of_nat (length srcshape) in
  _ ← CHECK (2 <? dim);
  width_ ← idx srcshape (dim - 1);
  height_ ← idx srcshape (dim - 2);
  channels_ ← (if 3 <? dim then idx srcshape (dim - 3) else Ok 1);
  batchsize_ ← idx srcshape 0;
  pooled_height_ ← (a ← isub height_ kernel_; a ← idiv a stride_; iadd a 1);
  pooled_width_ ← (a ← isub width_ kernel_; a ← idiv a stride_; iadd a 1);
  s ← reshape_data i [batchsize_; channels_; pooled_height_; pooled_width_] s;
  o ← obj i s; s ← reshape_grad i (shape_ (odata o)) s;
  set_members i (PoolingSub kernel_ stride_ pool_ batchsize_ channels_ height_ width_ pooled_height_
    pooled_width_) s.

Definition ReLU_Setup (i : Z) (p : LayerProto) (npartitions : Z) (s : nstate) : outcome nstate :=
  s ← Layer_Setup i p npartitions s;
  b ← src_data i 0 kPositive s;
  s ← reshape_data i (shape_ b) s;
  g ← (g ← src_mutable_grad i 0 s; deref g);
  reshape_grad i (shape_ g) s.
Definition Tanh_Setup (i : Z) (p : LayerProto) (npartitions : Z) (s : nstate) : outcome nstate :=
  s ← Layer_Setup i p npartitions s;
  b ← src_data i 0 kPositive s;
  s ← reshape_data i (shape_ b) s;
  g ← src_grad i 0 s;
  reshape_grad i (shape_ g) s.

(** *** Losses *)
(** [partition_dim()] of the losses is checked when it is read. *)
Definition partition_dim (o : LayerObj) : outcome Z :=
  let d := lp_pdim (layer_proto_ o) in
  _ ← (if is_losslayer (oclass o) then CHECK (d <=? 1) else Ok tt); Ok d.
Definition softmaxloss_conf (p : LayerProto) : Z * Z :=
  match lp_conf p with SoftmaxLossConf t s => (t, s) | _ => (1, f32_one) end.
Definition SoftmaxLoss_Setup (i : Z) (p : LayerProto) (npartitions : Z) (s : nstate) : outcome nstate :=
  s ← Layer_Setup i p npartitions s;
  n ← num_srcs i s; _ ← CHECK (n =? 2);
  b ← src_data i 0 kPositive s;
  s ← reshape_data i (shape_ b) s;
  o ← obj i s;
  batchsize_ ← idx (shape_ (odata o)) 0;
  dim_ ← idiv (count_ (odata o)) batchsize_;
  let '(topk_, scale_) := softmaxloss_conf p in
  '(s, metric_) ← new_blob [2] s;
  set_members i (LossSub batchsize_ dim_ topk_ scale_ metric_) s.
Definition output_conf (p : LayerProto) : Z * Z :=
  match lp_conf p with OutputConf _ t s => (t, s) | _ => (1, f32_one) end.
Definition Output_Setup (i : Z) (p : LayerProto) (npartitions : Z) (s : nstate) : outcome nstate :=
  s ← Layer_Setup i p npartitions s;
  n ← num_srcs i s; _ ← CHECK (n =? 1);
  b ← src_data i 0 kPositive s;
  s ← reshape_data i (shape_ b) s;
  o ← obj i s;
  batchsize_ ← idx (shape_ (odata o)) 0;
  dim_ ← idiv (count_ (odata o)) batchsize_;
  let '(topk_, scale_) := output_conf p in
  set_members i (LossSub batchsize_ dim_ topk_ scale_ Blob_new) s.

(** *** Data and parsers *)
Section data_layers.
Context `{F : Files}.

(** [Next(key, record)] of the shard; [None] when there is no more. *)
Definition Next_record (sh : DataShard) : outcome (option Record_ * DataShard) :=
  '(_, vallen, sh) ← DataShard.Next sh;
  if vallen =? 0 then Ok (None, sh)
  else
    bs ← DataShard.load (offset_ sh) vallen (buf_ sh);
    sh ← skip vallen sh;
    Ok (Some (parse_record bs), sh).
Definition sharddata_conf (p : LayerProto) : string * Z * Z :=
  match lp_conf p with ShardDataConf f b r => (f, b, r) | _ => (""%string, 0, 0) end.
(** [records_.resize(n)] *)
Definition resize_records (n : Z) : outcome (list Record_) :=
  if n <? 0 then Throw else Ok (replicate (Z.to_nat n) Record_default).
Definition ShardData_Setup (i : Z) (p : LayerProto) (npartitions : Z) (s : nstate) : outcome nstate :=
  s ← Layer_Setup i p npartitions s;
  let '(path, batchsize, random_skip_) := sharddata_conf p in
  sh ← DataShard_default 0 (shard_folder path) (shard_file path) kRead;
  '(r, sh) ← Next_record sh;
  batchsize_ ← (if lp_pdim p =? 0 then idiv batchsize npartitions else Ok batchsize);
  records_ ← resize_records batchsize_;
  set_members i (DataSub random_skip_ batchsize_ (default Record_default r) records_ (Some sh)) s.
Definition Input_Setup (i : Z) (p : LayerProto) (npartitions : Z) (s : nstate) : outcome nstate :=
  s ← Layer_Setup i p npartitions s;
  set_members i (DataSub 0 1 (mkRecord [3; 32; 32] 0 [] []) [Record_default] None) s.

(** [static_cast<DataLayer*>(srclayers_[0])]: [batchsize()] and [sample()]. *)
Definition src_batch (i : Z) (s : nstate) : outcome (Z * Record_) :=
  o ← obj i s; j ← idx (osrcs o) 0; d ← obj j s;
  match osub d with DataSub _ b r _ _ => Ok (b, r) | _ => Undef end.
Definition Label_Setup (i : Z) (p : LayerProto) (npartitions : Z) (s : nstate) : outcome nstate :=
  s ← Layer_Setup i p npartitions s;
  n ← num_srcs i s; _ ← CHECK (n =? 1);
  '(batchsize, _) ← src_batch i s;
  reshape_data i [batchsize] s.
Definition mnist_conf (p : LayerProto) : Z * Z * Z :=
  match lp_conf p with MnistConf a b r => (a, b, r) | _ => (f32_one, 0, 0) end.
Definition Mnist_Setup (i : Z) (p : LayerProto) (npartitions : Z) (s : nstate) : outcome nstate :=
  s ← Layer_Setup i p npartitions s;
  n ← num_srcs i s; _ ← CHECK (n =? 1);
  '(batchsize, sample) ← src_batch i s;
  let '(norm_a_, norm_b_, resize_) := mnist_conf p in
  let ndim := Z.of_nat (length (im_shape sample)) in
  _ ← CHECK (2 <=? ndim);
  s ← (if negb (resize_ =? 0) then reshape_data i [batchsize; resize_; resize_] s
       else
         sz ← idx (im_shape sample) (ndim - 1);
         sz2 ← idx (im_shape sample) (ndim - 2);
         _ ← CHECK (sz =? sz2);
         reshape_data i [batchsize; sz; sz] s);
  set_members i (MnistSub norm_a_ norm_b_ resize_) s.
Definition rgbimage_conf (p : LayerProto) : Z * Z * bool * option string :=
  match lp_conf p with RGBImageConf s c m f => (s, c, m, f) | _ => (f32_one, 0, false, None) end.
(** The mean of the images is read from the file, or 0. *)
Definition RGBImage_Setup (i : Z) (p : LayerProto) (npartitions : Z) (s : nstate) : outcome nstate :=
  s ← Layer_Setup i p npartitions s;
  n ← num_srcs i s; _ ← CHECK (n =? 1);
  let '(scale_, cropsize_, mirror_, meanfile) := rgbimage_conf p in
  '(batchsize, sample) ← src_batch i s;
  let shape := batchsize :: im_shape sample in
  _ ← CHECK (Z.of_nat (length shape) =? 4);
  shape ← (if negb (cropsize_ =? 0) then sh ← set_idx shape 2 cropsize_; set_idx sh 3 cropsize_ else Ok shape);
  s ← reshape_data i shape s;
  '(s, mean_) ← new_blob (drop 1 shape) s;
  mean ← match meanfile with
         | Some f => m ← read_mean f; _ ← CHECK (count_ mean_ =? Z.of_nat (length m)); Ok m
         | None => Ok (replicate (Z.to_nat (count_ mean_)) 0)
         end;
  '(h, ptr) ← mutable_cpu_data mean_ (nheap s);
  h ← store h ptr (bytes_of_f32s mean);
  set_members i (RGBImageSub scale_ cropsize_ mirror_ mean_) (set_nheap h s).

(** ** Setup of every class *)

(** The objects of the sublayers of a prefetch layer, by name. *)
Fixpoint create_sublayers (subs : list LayerProto) (layers : gmap string Z) (s : nstate)
    : outcome (nstate * list Z * gmap string Z) :=
  match subs with
  | [] => Ok (s, [], layers)
  | p :: subs =>
      '(s, j) ← create_obj (lp_type p) s;
      '(s, js, layers) ← create_sublayers subs (<[lp_name p := j]> layers) s;
      Ok (s, j :: js, layers)
  end.
(** [layers[srcname]] is a null pointer, no object, when there is no such sublayer. *)
Definition link_sources (layers : gmap string Z) (j : Z) (srcs : list string) (s : nstate) : outcome nstate :=
  update_obj j (fun o => set_srcs (osrcs o ++ map (fun nm => default (-1) (layers !! nm)) srcs) o) s.
Fixpoint setup_sublayers (setup : Z -> LayerProto -> Z -> nstate -> outcome nstate) (layers : gmap string Z)
    (js : list Z) (subs : list LayerProto) (s : nstate) : outcome nstate :=
  match js, subs with
  | j :: js, p :: subs =>
      s ← link_sources layers j (lp_srclayers p) s;
      s ← setup j p 1 s;
      setup_sublayers setup layers js subs s
  | _, _ => Ok s
  end.
(** [datablobs_[name] = blob], in the order of the names. *)
Fixpoint insert_blob (name : string) (b : Blob) (l : list (string * Blob)) : list (string * Blob) :=
  match l with
  | [] => [(name, b)]
  | (n, b') :: l =>
      match String.compare name n with
      | Eq => (name, b) :: l
      | Lt => (name, b) :: (n, b') :: l
      | Gt => (n, b') :: insert_blob name b l
      end
  end.
Fixpoint make_datablobs (i : Z) (js : list Z) (l : list (string * Blob)) (s : nstate)
    : outcome (nstate * list (string * Blob)) :=
  match js with
  | [] => Ok (s, l)
  | j :: js =>
      o ← obj j s;
      if is_parserlayer (oclass o) then
        b ← data (chain s) j (Some i) kPositive s;
        '(s, b) ← new_blob (shape_ b) s;
        make_datablobs i js (insert_blob (lp_name (layer_proto_ o)) b l) s
      else make_datablobs i js l s
  end.
Definition prefetch_conf (p : LayerProto) : list LayerProto :=
  match lp_conf p with PrefetchConf subs => subs | _ => [] end.
Definition Prefetch_Setup (setup : Z -> LayerProto -> Z -> nstate -> outcome nstate) (i : Z) (p : LayerProto)
    (npartitions : Z) (s : nstate) : outcome nstate :=
  s ← Layer_Setup i p npartitions s;
  let sublayers := prefetch_conf p in
  _ ← CHECK (1 <=? Z.of_nat (length sublayers));
  '(s, js, layers) ← create_sublayers sublayers ∅ s;
  s ← setup_sublayers setup layers js sublayers s;
  '(s, datablobs_) ← make_datablobs i js [] s;
  set_members i (PrefetchSub js datablobs_) s.

(** [layer->Setup(p, npartitions)]; the fuel bounds the nesting of prefetch layers. *)
Fixpoint Setup_fuel (fuel : nat) (i : Z) (p : LayerProto) (npartitions : Z) (s : nstate) : outcome nstate :=
  match fuel with
  | O => OutOfFuel
  | S fuel =>
      o ← obj i s;
      match oclass o with
      | kBridgeSrc => Layer_Setup i p npartitions s
      | kBridgeDst => BridgeDst_Setup i p npartitions s
      | kConvolution => Convolution_Setup i p npartitions s
      | kConcate => Concate_Setup i p npartitions s
      | kShardData => ShardData_Setup i p npartitions s
      | kDropout => Dropout_Setup i p npartitions s
      | kInnerProduct => InnerProduct_Setup i p npartitions s
      | kInput => Input_Setup i p npartitions s
      | kLabel => Label_Setup i p npartitions s
      | kLMDBData => Fatal  (* never created *)
      | kLRN => LRN_Setup i p npartitions s
      | kMnist => Mnist_Setup i p npartitions s
      | kOutput => Output_Setup i p npartitions s
      | kPooling => Pooling_Setup i p npartitions s
      | kPrefetch => Prefetch_Setup (Setup_fuel fuel) i p npartitions s
      | kReLU => ReLU_Setup i p npartitions s
      | kRGBImage => RGBImage_Setup i p npartitions s
      | kSoftmaxLoss => SoftmaxLoss_Setup i p npartitions s
      | kSlice => Slice_Setup i p npartitions s
      | kSplit => Split_Setup i p npartitions s
      | kTanh => Tanh_Setup i p npartitions s
      | kRBMVis => RBMVis_Setup i p npartitions s
      | kRBMHid => RBMHid_Setup i p npartitions s
      end
  end.
Fixpoint conf_depth (c : LayerConf) : nat :=
  match c with
  | PrefetchConf subs => S (foldr (fun p n => Nat.max (conf_depth (lp_conf p)) n) O subs)
  | _ => 1%nat
  end.
Definition Setup (i : Z) (p : LayerProto) (npartitions : Z) (s : nstate) : outcome nstate :=
  Setup_fuel (S (conf_depth (lp_conf p))) i p npartitions s.
End data_layers.
