(* ===== verification/NetLayers.v ===== *)
(** * neuralnet/neuralnet.cc: from the graph of nodes to the layers of a net

    [CreateNetFromGraph] makes a layer of each node of the graph ([NeuralNet]), connects
    and sets up the layers ([Layers]), numbers and names their params, and lets params
    share their values: those with [share_from], and those of the partitions of one
    layer.  [PrepareDataStructures] collects the layers by kind, and [ShareParamsFrom]
    shares the values of another net of the worker, for tests. *)

From S2P Require Import Prelude Msg Format Memory Param Server Graph Worker LayerConf NeuralNet Layers.

Section net.
Context `{F : Files}.

(** The layers made so far: [layers_] and [name2layer_]. *)
Definition layer_named (name : string) (name2layer : gmap string Z) : Z := default (-1) (name2layer !! name).

Fixpoint create_layers (nodes : list Z) (ng : net_graph) (name2layer : gmap string Z) (s : nstate)
    : outcome (nstate * list Z * gmap string Z) :=
  match nodes with
  | [] => Ok (s, [], name2layer)
  | n :: nodes =>
      x ← get_node n (graph ng);
      p ← node_proto n ng;
      '(s, j) ← create_obj (lp_type p) s;
      '(s, js, name2layer) ← create_layers nodes ng (<[name x := j]> name2layer) s;
      Ok (s, j :: js, name2layer)
  end.

(** The layers of the nodes at the other ends of the edges. *)
Fixpoint named_layers (nodes : list Z) (ng : net_graph) (name2layer : gmap string Z) : outcome (list Z) :=
  match nodes with
  | [] => Ok []
  | n :: nodes =>
      x ← get_node n (graph ng); js ← named_layers nodes ng name2layer; Ok (layer_named (name x) name2layer :: js)
  end.
Fixpoint connect_layers (nodes : list Z) (ng : net_graph) (name2layer : gmap string Z) (s : nstate)
    : outcome nstate :=
  match nodes with
  | [] => Ok s
  | n :: nodes =>
      x ← get_node n (graph ng);
      let j := layer_named (name x) name2layer in
      ds ← named_layers (dstnodes x) ng name2layer;
      ss ← named_layers (srcnodes x) ng name2layer;
      s ← update_obj j (fun o => set_srcs ss (set_dsts ds o)) s;
      connect_layers nodes ng name2layer s
  end.

(** The params of a layer get the next ids; those without a name are named after it. *)
Definition set_pname (nm : string) (p : Param) : Param :=
  let pr := proto_ p in
  set_blobs (pdata p) (Param.grad p) (history p)
    (mkProto nm (pid pr) (powner pr) (share_from pr) (lr_mult pr) (wd_mult pr)) p.
Definition get_par (q : Z) (s : nstate) : outcome Param := deref (params (nworld s) !! q).
Definition put_par (q : Z) (p : Param) (s : nstate) : nstate :=
  mkNS (objs s) (next_obj s) (put_param q p (hp (nworld s)) (nworld s)).
Fixpoint number_params (lname param_name : string) (qs : list Z) (paramid : Z) (s : nstate) : outcome (nstate * Z) :=
  match qs with
  | [] => Ok (s, paramid)
  | q :: qs =>
      p ← get_par q s;
      next ← int_ret (paramid + 1);
      let p := set_id paramid p in
      let unnamed := bool_decide (pname (proto_ p) = "") in
      let p := if unnamed then set_pname (lname ++ param_name)%string p else p in
      number_params lname (if unnamed then param_name ++ "$" else param_name)%string qs next (put_par q p s)
  end.

(** [share_param_layers[origin].push_back(layer)], in the order of the names. *)
Fixpoint push_origin (origin : string) (j : Z) (l : list (string * list Z)) : list (string * list Z) :=
  match l with
  | [] => [(origin, [j])]
  | (n, js) :: l =>
      match String.compare origin n with
      | Eq => (n, js ++ [j]) :: l
      | Lt => (origin, [j]) :: (n, js) :: l
      | Gt => (n, js) :: push_origin origin j l
      end
  end.
Fixpoint setup_layers (nodes : list Z) (npartitions : Z) (ng : net_graph) (name2layer : gmap string Z) (paramid : Z)
    (share : list (string * list Z)) (s : nstate) : outcome (nstate * list (string * list Z)) :=
  match nodes with
  | [] => Ok (s, share)
  | n :: nodes =>
      x ← get_node n (graph ng);
      let j := layer_named (name x) name2layer in
      p ← node_proto n ng;
      s ← Layers.Setup j p npartitions s;
      _ ← data (chain s) j None kPositive s;
      o ← obj j s;
      '(s, paramid) ← number_params (lp_name (layer_proto_ o)) "$" (GetParams o) paramid s;
      d ← partition_dim o;
      let share := if d =? 0 then push_origin (origin x) j share else share in
      setup_layers nodes npartitions ng name2layer paramid share s
  end.

(** ** Sharing of params *)
Fixpoint add_names (qs : list Z) (name2param : gmap string Z) (s : nstate) : outcome (gmap string Z) :=
  match qs with
  | [] => Ok name2param
  | q :: qs => p ← get_par q s; add_names qs (<[pname (proto_ p) := q]> name2param) s
  end.
Fixpoint name_params (js : list Z) (name2param : gmap string Z) (s : nstate) : outcome (gmap string Z) :=
  match js with
  | [] => Ok name2param
  | j :: js => o ← obj j s; m ← add_names (GetParams o) name2param s; name_params js m s
  end.
(** [name2param.at(param->name()) = param] for the first partition of each layer. *)
Fixpoint front_names (qs : list Z) (name2param : gmap string Z) (s : nstate) : outcome (gmap string Z) :=
  match qs with
  | [] => Ok name2param
  | q :: qs =>
      p ← get_par q s;
      _ ← map_at (name2param !! pname (proto_ p));
      front_names qs (<[pname (proto_ p) := q]> name2param) s
  end.
Fixpoint front_params (share : list (string * list Z)) (name2param : gmap string Z) (s : nstate)
    : outcome (gmap string Z) :=
  match share with
  | [] => Ok name2param
  | (_, js) :: share =>
      j ← idx js 0; o ← obj j s; m ← front_names (GetParams o) name2param s; front_params share m s
  end.
(** [param(q)->ShareFrom(param(r))] *)
Definition share_param (q r : Z) (s : nstate) : outcome nstate :=
  p ← get_par q s; other ← get_par r s;
  p ← ShareFrom other p (nheap s);
  Ok (put_par q p s).
Fixpoint share_named (entries : list (string * Z)) (name2param : gmap string Z) (s : nstate) : outcome nstate :=
  match entries with
  | [] => Ok s
  | (_, q) :: entries =>
      p ← get_par q s;
      s ← (if decide (share_from (proto_ p) = "") then Ok s
           else match name2param !! share_from (proto_ p) with
                | Some r => share_param q r s
                | None => Fatal
                end);
      share_named entries name2param s
  end.
Fixpoint share_params (qs rs : list Z) (s : nstate) : outcome nstate :=
  match qs, rs with
  | q :: qs, r :: rs => s ← share_param q r s; share_params qs rs s
  | _, _ => Ok s
  end.
Definition share_layer (owner j : Z) (s : nstate) : outcome nstate :=
  o ← obj owner s; l ← obj j s;
  _ ← CHECK (Z.of_nat (length (GetParams l)) =? Z.of_nat (length (GetParams o)));
  share_params (GetParams l) (GetParams o) s.
Fixpoint share_layers (owner : Z) (js : list Z) (s : nstate) : outcome nstate :=
  match js with
  | [] => Ok s
  | j :: js => s ← share_layer owner j s; share_layers owner js s
  end.
Fixpoint share_origins (share : list (string * list Z)) (s : nstate) : outcome nstate :=
  match share with
  | [] => Ok s
  | (_, js) :: share =>
      s ← (match js with [] => Undef | owner :: js => share_layers owner js s end);
      share_origins share s
  end.

(** [order] is that in which the hash map [name2param] is gone through. *)
Definition CreateNetFromGraph (order : gmap string Z -> list (string * Z)) (ng : net_graph) (npartitions : Z)
    (s : nstate) : outcome (nstate * list Z) :=
  let nodes := nodes_ (graph ng) in
  '(s, layers_, name2layer_) ← create_layers nodes ng ∅ s;
  s ← connect_layers nodes ng name2layer_ s;
  '(s, share_param_layers) ← setup_layers nodes npartitions ng name2layer_ 0 [] s;
  name2param ← name_params layers_ ∅ s;
  name2param ← front_params share_param_layers name2param s;
  s ← share_named (order name2param) name2param s;
  s ← share_origins share_param_layers s;
  Ok (s, layers_).

(** ** The net *)
Record NeuralNet := mkNet {
  layers_ : list Z;
  name2layer_ : gmap string Z;
  parserlayers_ : list Z;
  losslayers_ : list Z;
  datalayers_ : list Z;
  params_ : list Z;
  paramid2param_ : gmap Z Z;
}.
Fixpoint collect_params (qs : list Z) (s : nstate) (n : NeuralNet) : outcome NeuralNet :=
  match qs with
  | [] => Ok n
  | q :: qs =>
      p ← get_par q s;
      collect_params qs s (mkNet (layers_ n) (name2layer_ n) (parserlayers_ n) (losslayers_ n) (datalayers_ n)
        (params_ n ++ [q]) (<[param_id p := q]> (paramid2param_ n)))
  end.
Fixpoint collect_layers (js : list Z) (s : nstate) (n : NeuralNet) : outcome NeuralNet :=
  match js with
  | [] => Ok n
  | j :: js =>
      o ← obj j s;
      let add (b : bool) (l : list Z) := if b then l ++ [j] else l in
      n ← collect_params (GetParams o) s
            (mkNet (layers_ n) (<[lp_name (layer_proto_ o) := j]> (name2layer_ n))
               (add (is_parserlayer (oclass o)) (parserlayers_ n))
               (add (is_losslayer (oclass o)) (losslayers_ n))
               (add (is_datalayer (oclass o)) (datalayers_ n)) (params_ n) (paramid2param_ n));
      collect_layers js s n
  end.
Definition PrepareDataStructures (layers : list Z) (s : nstate) : outcome NeuralNet :=
  collect_layers layers s (mkNet layers ∅ [] [] [] [] ∅).

Definition NeuralNet_make (order : gmap string Z -> list (string * Z)) (np : NetProto) (npartitions : Z) (s : nstate)
    : outcome (nstate * NeuralNet) :=
  ng ← CreateGraph np npartitions;
  '(s, layers) ← CreateNetFromGraph order ng npartitions s;
  n ← PrepareDataStructures layers s;
  Ok (s, n).
(** [Create] and the constructor. *)
Definition NeuralNet_Create (order : gmap string Z -> list (string * Z)) (np : NetProto) (phase : Phase)
    (npartitions : Z) (s : nstate) : outcome (nstate * NeuralNet) :=
  conf ← NeuralNet.Create np phase; NeuralNet_make order conf npartitions s.

Fixpoint ShareParamsFrom_loop (js : list Z) (other : NeuralNet) (s : nstate) : outcome nstate :=
  match js with
  | [] => Ok s
  | j :: js =>
      o ← obj j s;
      s ← (match name2layer_ other !! lp_name (layer_proto_ o) with
           | Some i => share_layer i j s
           | None => Ok s
           end);
      ShareParamsFrom_loop js other s
  end.
Definition ShareParamsFrom (n other : NeuralNet) (s : nstate) : outcome nstate :=
  ShareParamsFrom_loop (layers_ n) other s.
End net.
