(* ===== verification/LayersProps.v ===== *)
(** * Properties of the layers' setup: what it leaves alone, and the params it makes *)

From S2P Require Import Prelude Float32 Msg Format Memory Param Server Worker LayerConf Layers.

(** ** What a setup touches

    [s'] is [s] after steps of the setup of layer [i]: other objects below [n] and the
    params there were are as before, and so are the class and the members of [i]. *)
Record touches (n i : Z) (s s' : nstate) : Prop := {
  to_obj j : j < n -> j <> i -> objs s' !! j = objs s !! j;
  to_par q : q < next_param (nworld s) -> params (nworld s') !! q = params (nworld s) !! q;
  to_next : next_obj s <= next_obj s';
  to_nextp : next_param (nworld s) <= next_param (nworld s');
  to_self o : objs s !! i = Some o -> exists o', objs s' !! i = Some o' /\ osub o' = osub o /\ oclass o' = oclass o;
}.
Lemma touches_refl n i s : touches n i s s.
Proof. constructor; eauto; lia. Qed.
Lemma touches_trans n i s1 s2 s3 : touches n i s1 s2 -> touches n i s2 s3 -> touches n i s1 s3.
Proof.
  intros [O1 P1 N1 Q1 I1] [O2 P2 N2 Q2 I2]. constructor; try lia.
  - intros j Hj Hi. by rewrite O2, O1.
  - intros q Hq. rewrite P2, P1 by lia. done.
  - intros o Ho. destruct (I1 o Ho) as (o1 & H1 & <- & <-). destruct (I2 o1 H1) as (o2 & H2 & <- & <-). eauto.
Qed.

Lemma put_obj_touches n i o o' h s : obj i s = Ok o -> osub o' = osub o -> oclass o' = oclass o ->
  touches n i s (set_nheap h (put_obj i o' s)).
Proof.
  unfold obj. intros Ho Hs Hc. constructor; simpl; try done.
  - intros j _ Hj. by rewrite lookup_insert_ne.
  - intros o0 Ho0. rewrite Ho0 in Ho. injection Ho as ->. rewrite lookup_insert_eq. eauto.
Qed.
Lemma heap_touches n i h s : touches n i s (set_nheap h s).
Proof. constructor; simpl; try done. eauto. Qed.
Lemma Layer_Setup_touches n i p np s s' : Layer_Setup i p np s = Ok s' -> touches n i s s'.
Proof.
  unfold Layer_Setup, update_obj. intros H. inv_oks. subst s'.
  replace (put_obj i _ s) with (set_nheap (nheap s) (put_obj i (set_proto p a0) s)) by (by destruct s as [? ? []]).
  by eapply put_obj_touches.
Qed.
Lemma reshape_data_touches n i sh s s' : reshape_data i sh s = Ok s' -> touches n i s s'.
Proof. unfold reshape_data. intros H. inv_oks. destruct a0. inv_oks. subst s'. by eapply put_obj_touches. Qed.
Lemma reshape_grad_touches n i sh s s' : reshape_grad i sh s = Ok s' -> touches n i s s'.
Proof. unfold reshape_grad. intros H. inv_oks. destruct a0. inv_oks. subst s'. by eapply put_obj_touches. Qed.
Lemma new_blob_touches n i sh s s' b : new_blob sh s = Ok (s', b) -> touches n i s s'.
Proof. unfold new_blob. intros H. inv_oks. destruct a. inv_oks. intros. subst. apply heap_touches. Qed.
Lemma new_param_touches n i pr sh s s' q : new_param pr sh s = Ok (s', q) -> touches n i s s'.
Proof.
  unfold new_param. intros H. inv_oks. destruct a. inv_oks. intros. subst. constructor; simpl; try lia; try done.
  - intros q Hq. by rewrite lookup_insert_ne by lia.
  - eauto.
Qed.
Lemma new_param_id pr sh s s' q : new_param pr sh s = Ok (s', q) ->
  q = next_param (nworld s) /\ next_param (nworld s') = q + 1 /\
  exists p, params (nworld s') !! q = Some p /\ proto_ p = pr.
Proof.
  unfold new_param. intros H. inv_oks. destruct a as [h p]. inv_oks. intros. subst. simpl.
  split; [done|]. split; [done|]. rewrite lookup_insert_eq. exists p. split; [done|].
  unfold Param.Setup in E. inv_oks. repeat (destruct a; inv_oks); intros; subst. done.
Qed.

(** Goes back from the last state to the first, one step at a time. *)
Ltac touch :=
  repeat match goal with
  | |- touches _ _ ?s ?s => apply touches_refl
  | E : _ = Ok ?s' |- touches ?n ?i ?s ?s' =>
      eapply (touches_trans n i s _ s'); [|eapply Layer_Setup_touches in E || eapply reshape_data_touches in E
        || eapply reshape_grad_touches in E; exact E]
  | E : _ = Ok (?s', _) |- touches ?n ?i ?s ?s' =>
      eapply (touches_trans n i s _ s'); [|eapply new_blob_touches in E || eapply new_param_touches in E; exact E]
  end.

(** ** A finished setup *)
Record set_up (n i : Z) (s s' : nstate) : Prop := {
  su_obj j : j < n -> j <> i -> objs s' !! j = objs s !! j;
  su_par q : q < next_param (nworld s) -> params (nworld s') !! q = params (nworld s) !! q;
  su_next : next_obj s <= next_obj s';
  su_nextp : next_param (nworld s) <= next_param (nworld s');
  su_self : exists o, objs s' !! i = Some o /\ NoDup (GetParams o) /\
    forall q, q ∈ GetParams o -> next_param (nworld s) <= q < next_param (nworld s') /\
      is_Some (params (nworld s') !! q);
}.
Lemma touches_set_up n i s s' o : touches n i s s' -> objs s !! i = Some o -> GetParams o = [] -> set_up n i s s'.
Proof.
  intros [O P N Q I] Ho Hp. split; try done. destruct (I o Ho) as (o' & Ho' & E & _). exists o'. split; [done|].
  unfold GetParams in *. rewrite E, Hp. split; [apply NoDup_nil_2|]. intros q Hq. by apply elem_of_nil in Hq.
Qed.
Lemma members_set_up n i s s1 s' u : touches n i s s1 -> set_members i u s1 = Ok s' -> NoDup (sub_params u) ->
  (forall q, q ∈ sub_params u -> next_param (nworld s) <= q < next_param (nworld s1) /\
     is_Some (params (nworld s1) !! q)) -> set_up n i s s'.
Proof.
  intros [O P N Q I] H Hnd Hq. unfold set_members, update_obj in H. inv_oks. subst s'. split; simpl; try done.
  - intros j Hj Hi. rewrite lookup_insert_ne by done. by apply O.
  - rewrite lookup_insert_eq. eauto.
Qed.
Lemma no_params_set_up n i s s1 s' u : touches n i s s1 -> set_members i u s1 = Ok s' -> sub_params u = [] ->
  set_up n i s s'.
Proof.
  intros T H Hu. eapply members_set_up; [exact T|exact H|rewrite Hu; apply NoDup_nil_2|].
  intros q. rewrite Hu. intros Hq. by apply elem_of_nil in Hq.
Qed.
(** Two params made one after the other. *)
Lemma two_params_set_up n i s s1 s2 s3 s' u p0 sh0 p1 sh1 a b : touches n i s s1 ->
  new_param p0 sh0 s1 = Ok (s2, a) -> new_param p1 sh1 s2 = Ok (s3, b) -> set_members i u s3 = Ok s' ->
  sub_params u = [a; b] \/ sub_params u = [b; a] -> set_up n i s s'.
Proof.
  intros T E1 E2 H Hu. pose proof (new_param_touches n i _ _ _ _ _ E1) as T1.
  pose proof (new_param_touches n i _ _ _ _ _ E2) as T2.
  destruct (new_param_id _ _ _ _ _ E1) as (-> & N1 & p & Hp & _), (new_param_id _ _ _ _ _ E2) as (-> & N2 & p' & Hp' & _).
  pose proof (to_nextp _ _ _ _ T).
  eapply members_set_up; [by eapply touches_trans; [|eapply touches_trans]|exact H|..].
  - destruct Hu as [-> | ->]; repeat (apply NoDup_cons_2; [set_solver by lia|]); apply NoDup_nil_2.
  - intros q Hq. assert (q = next_param (nworld s1) \/ q = next_param (nworld s2)) as [-> | ->].
    { destruct Hu as [Hu|Hu]; rewrite Hu in Hq; set_solver. }
    + split; [lia|]. rewrite (to_par _ _ _ _ T2) by lia. eauto.
    + split; [lia|]. eauto.
Qed.

(** Takes apart a setup that succeeded. *)
Ltac open_setup H :=
  cbv zeta in H;
  repeat (inv_oks; intros; subst; match goal with
    | x : (_ * _)%type |- _ => destruct x
    | H : (let '(_, _) := ?x in _) = Ok _ |- _ => destruct x eqn:?
    end); inv_oks; intros; subst.
Ltac no_params :=
  first [ eapply no_params_set_up; [|eassumption|reflexivity]; solve [touch]
        | eapply touches_set_up; [|eassumption|eassumption]; solve [touch] ].
Ltac two_params :=
  match goal with
  | E1 : new_param _ _ _ = Ok (?s2, _), E2 : new_param _ _ ?s2 = Ok (?s3, _), M : set_members _ _ ?s3 = Ok _ |- _ =>
      eapply two_params_set_up; [|exact E1|exact E2|exact M|by left + by right]; touch
  end.

Section classes.
Context (n i : Z) (p : LayerProto) (np : Z) (s s' : nstate) (o : LayerObj).
Context (Ho : objs s !! i = Some o) (Hp : GetParams o = []).
#[local] Notation done_by H := (H i p np s = Ok s' -> set_up n i s s').

Lemma Layer_set_up : done_by Layer_Setup.
Proof. intros H. no_params. Qed.
Lemma BridgeDst_set_up : done_by BridgeDst_Setup.
Proof. unfold BridgeDst_Setup. intros H. open_setup H. no_params. Qed.
Lemma Concate_set_up : done_by Concate_Setup.
Proof. unfold Concate_Setup. intros H. open_setup H. no_params. Qed.
Lemma slice_blobs_touches sh dim k ks : forall s1 s2 b g,
  slice_blobs sh dim k ks s1 = Ok (s2, b, g) -> touches n i s1 s2.
Proof.
  induction ks as [|j ks IH]; intros s1 s2 b g H; simpl in H.
  - injection H as <- _ _. apply touches_refl.
  - open_setup H. eapply touches_trans; [|by eapply IH]. touch.
Qed.
Lemma Slice_set_up : done_by Slice_Setup.
Proof.
  unfold Slice_Setup. intros H. open_setup H. eapply no_params_set_up; [|eassumption|reflexivity].
  eapply touches_trans; [|by eapply slice_blobs_touches]. touch.
Qed.
Lemma Split_set_up : done_by Split_Setup.
Proof. unfold Split_Setup. intros H. open_setup H. no_params. Qed.
Lemma Convolution_set_up : done_by Convolution_Setup.
Proof.
  unfold Convolution_Setup. intros H. open_setup H.
  two_params.
Qed.
Lemma Dropout_set_up : done_by Dropout_Setup.
Proof. unfold Dropout_Setup. intros H. open_setup H. no_params. Qed.
Lemma RBMVis_set_up : done_by RBMVis_Setup.
Proof.
  unfold RBMVis_Setup. intros H. open_setup H.
  two_params.
Qed.
Lemma RBMHid_set_up : done_by RBMHid_Setup.
Proof.
  unfold RBMHid_Setup. intros H. open_setup H.
  two_params.
Qed.
Lemma InnerProduct_set_up : done_by InnerProduct_Setup.
Proof.
  unfold InnerProduct_Setup. intros H. open_setup H.
  two_params.
Qed.
Lemma LRN_set_up : done_by LRN_Setup.
Proof. unfold LRN_Setup. intros H. open_setup H. no_params. Qed.
Lemma Pooling_set_up : done_by Pooling_Setup.
Proof. unfold Pooling_Setup. intros H. open_setup H. no_params. Qed.
Lemma ReLU_set_up : done_by ReLU_Setup.
Proof. unfold ReLU_Setup. intros H. open_setup H. no_params. Qed.
Lemma Tanh_set_up : done_by Tanh_Setup.
Proof. unfold Tanh_Setup. intros H. open_setup H. no_params. Qed.
Lemma SoftmaxLoss_set_up : done_by SoftmaxLoss_Setup.
Proof. unfold SoftmaxLoss_Setup. intros H. open_setup H. no_params. Qed.
Lemma Output_set_up : done_by Output_Setup.
Proof. unfold Output_Setup. intros H. open_setup H. no_params. Qed.
End classes.

Section data_classes.
Context `{F : Files}.

Section classes.
Context (n i : Z) (p : LayerProto) (np : Z) (s s' : nstate) (o : LayerObj).
Context (Ho : objs s !! i = Some o) (Hp : GetParams o = []).
#[local] Notation done_by H := (H i p np s = Ok s' -> set_up n i s s').

Lemma ShardData_set_up : done_by ShardData_Setup.
Proof. unfold ShardData_Setup. intros H. open_setup H. no_params. Qed.
Lemma Input_set_up : done_by Input_Setup.
Proof. unfold Input_Setup. intros H. open_setup H. no_params. Qed.
Lemma Label_set_up : done_by Label_Setup.
Proof. unfold Label_Setup. intros H. open_setup H. no_params. Qed.
Lemma Mnist_set_up : done_by Mnist_Setup.
Proof. unfold Mnist_Setup. intros H. open_setup H. case_match; open_setup H; no_params. Qed.
Lemma RGBImage_set_up : done_by RGBImage_Setup.
Proof.
  unfold RGBImage_Setup. intros H. open_setup H.
  eapply no_params_set_up; [|eassumption|reflexivity]. eapply touches_trans; [|apply heap_touches]. touch.
Qed.
End classes.

(** *** Prefetch layers *)

(** The objects [js] are new in [s'], and have nothing yet. *)
Definition fresh_objs (js : list Z) (lo hi : Z) (s : nstate) : Prop :=
  NoDup js /\ forall j, j ∈ js -> lo <= j < hi /\ exists o, objs s !! j = Some o /\ GetParams o = [].

Lemma create_obj_touches n i ty s s' j : n <= next_obj s -> i < n -> create_obj ty s = Ok (s', j) ->
  touches n i s s' /\ j = next_obj s /\ next_obj s' = j + 1 /\ objs s' !! j = Some (LayerObj_new ty) /\
  forall k, k <> j -> objs s' !! k = objs s !! k.
Proof.
  unfold create_obj, create_layer. intros Hn Hi H. open_setup H. simpl. split; [|split; [done|split; [done|]]].
  - constructor; simpl; try done; try lia.
    + intros k Hk _. by rewrite lookup_insert_ne by lia.
    + intros o Ho. rewrite lookup_insert_ne by lia. eauto.
  - split; [by rewrite lookup_insert_eq|]. intros k Hk. by rewrite lookup_insert_ne.
Qed.
Lemma create_sublayers_touches n i subs : forall m s s' js m', n <= next_obj s -> i < n ->
  create_sublayers subs m s = Ok (s', js, m') ->
  touches n i s s' /\ fresh_objs js (next_obj s) (next_obj s') s' /\
  forall k, k < next_obj s -> objs s' !! k = objs s !! k.
Proof.
  induction subs as [|p subs IH]; intros m s s' js m' Hn Hi H; simpl in H.
  - injection H as <- <- _. split; [apply touches_refl|]. split; [|done]. split; [apply NoDup_nil_2|].
    intros j Hj. by apply elem_of_nil in Hj.
  - inv_ok H. destruct a as [s1 j]. inv_ok H. destruct a as [[s2 js'] m2]. injection H as -> <- _.
    destruct (create_obj_touches n i _ _ _ _ Hn Hi E) as (T1 & -> & N1 & O1 & R1).
    assert (n <= next_obj s1) as Hn1 by lia.
    destruct (IH _ _ _ _ _ Hn1 Hi E0) as (T2 & [D2 F2] & R2).
    split; [by eapply touches_trans|]. pose proof (to_next _ _ _ _ T2). split; [split|].
    + apply NoDup_cons_2; [|done]. intros Hin. apply F2 in Hin as [? _]. lia.
    + intros k [->|Hk]%elem_of_cons.
      * split; [lia|]. exists (LayerObj_new (lp_type p)). rewrite R2 by lia. done.
      * destruct (F2 k Hk) as [? ?]. split; [lia|done].
    + intros k Hk. rewrite R2, R1 by lia. done.
Qed.

Lemma link_sources_touches n layers j srcs s s' : link_sources layers j srcs s = Ok s' ->
  touches n j s s' /\ forall k, k <> j -> objs s' !! k = objs s !! k.
Proof.
  unfold link_sources, update_obj. intros H. open_setup H. split.
  - replace (put_obj j _ s) with (set_nheap (nheap s) (put_obj j (set_srcs (osrcs a ++
      map (fun nm => default (-1) (layers !! nm)) srcs) a) s)) by (by destruct s as [? ? []]).
    by eapply put_obj_touches.
  - intros k Hk. simpl. by rewrite lookup_insert_ne.
Qed.

(** Setups of objects that did not exist do not touch [i]. *)
Lemma set_up_touches n i j m s s' : i < n -> n <= j -> n <= m -> set_up m j s s' -> touches n i s s'.
Proof.
  intros Hi Hj Hm [O P N Q _]. constructor; try done.
  - intros k Hk _. apply O; lia.
  - intros o Ho. rewrite O by lia. eauto.
Qed.
Lemma touches_other n i j s s' : i < n -> n <= j -> touches n j s s' -> touches n i s s'.
Proof.
  intros Hi Hj [O P N Q _]. constructor; try done.
  - intros k Hk _. apply O; lia.
  - intros o Ho. rewrite O by lia. eauto.
Qed.

Lemma setup_sublayers_touches setup n i layers m :
  (forall j p s s' o, j < m -> m <= next_obj s -> objs s !! j = Some o -> GetParams o = [] ->
     setup j p 1 s = Ok s' -> set_up m j s s') ->
  i < n -> n <= m -> forall js subs s s', fresh_objs js n m s -> m <= next_obj s ->
  setup_sublayers setup layers js subs s = Ok s' -> touches n i s s'.
Proof.
  intros Hs Hi Hnm. induction js as [|j js IH]; intros subs s s' [Hd Hf] Hm H; simpl in H.
  { injection H as <-. apply touches_refl. }
  destruct subs as [|p subs]; [injection H as <-; apply touches_refl|].
  inv_ok H. inv_ok H. rename a into s1, a0 into s2. apply list.NoDup_cons in Hd as [Hj Hd].
  destruct (link_sources_touches n _ _ _ _ _ E) as [T1 R1]. destruct (Hf j ltac:(left)) as (Hjm & o & Ho & Hp).
  destruct (to_self _ _ _ _ T1 o Ho) as (o1 & Ho1 & Es & _).
  assert (set_up m j s1 s2) as S2.
  { eapply Hs; [lia| |exact Ho1| |exact E0]; [pose proof (to_next _ _ _ _ T1); lia|].
    unfold GetParams in *. by rewrite Es. }
  apply (touches_trans _ _ _ s1); [eapply (touches_other n i j); [done|lia|done]|].
  apply (touches_trans _ _ _ s2); [eapply (set_up_touches n i j m); [done|lia|lia|done]|].
  apply (IH subs); [|pose proof (to_next _ _ _ _ T1); pose proof (su_next _ _ _ _ S2); lia|done].
  split; [done|]. intros k Hk. destruct (Hf k ltac:(by right)) as (Hkm & o' & Ho' & Hp'). split; [done|].
  exists o'. split; [|done]. assert (k <> j) by (by intros ->). rewrite (su_obj _ _ _ _ S2) by (done || lia). by rewrite R1.
Qed.

Lemma make_datablobs_touches n i js : forall l s s' l', make_datablobs i js l s = Ok (s', l') -> touches n i s s'.
Proof.
  induction js as [|j js IH]; intros l s s' l' H; simpl in H; [injection H as <- _; apply touches_refl|].
  inv_ok H. destruct (is_parserlayer _); [|by eapply IH].
  inv_ok H. inv_ok H. destruct a1 as [s1 b]. eapply touches_trans; [|by eapply IH]. touch.
Qed.

Lemma Setup_fuel_set_up fuel : forall n i p np s s' o, i < n -> n <= next_obj s -> objs s !! i = Some o ->
  GetParams o = [] -> Setup_fuel fuel i p np s = Ok s' -> set_up n i s s'.
Proof.
  induction fuel as [|fuel IH]; intros n i p np s s' o Hi Hn Ho Hp H; [done|]. cbn [Setup_fuel] in H.
  unfold obj in H. rewrite Ho, deref_Some, bind_Ok in H.
  destruct (oclass o); try done; eauto using Layer_set_up, BridgeDst_set_up, Convolution_set_up, Concate_set_up,
    ShardData_set_up, Dropout_set_up, InnerProduct_set_up, Input_set_up, Label_set_up, LRN_set_up, Mnist_set_up,
    Output_set_up, Pooling_set_up, ReLU_set_up, RGBImage_set_up, SoftmaxLoss_set_up, Slice_set_up, Split_set_up,
    Tanh_set_up, RBMVis_set_up, RBMHid_set_up.
  unfold Prefetch_Setup in H. cbv zeta in H.
  inv_ok H. inv_ok H. inv_ok H. destruct a1 as [[s2 js] layers]. inv_ok H. inv_ok H. destruct a2 as [s4 bs].
  rename a into s1, a1 into s3. pose proof (Layer_Setup_touches n i _ _ _ _ E) as T1.
  pose proof (to_next _ _ _ _ T1).
  assert (n <= next_obj s1) as Hn1 by lia.
  destruct (create_sublayers_touches n i _ _ _ _ _ _ Hn1 Hi E1) as (T2 & [D2 F2] & _).
  pose proof (to_next _ _ _ _ T2).
  assert (touches n i s2 s3) as T3.
  { eapply (setup_sublayers_touches (Setup_fuel fuel) n i layers (next_obj s2)); [|lia|lia| |done|exact E2].
    - intros. by eapply IH.
    - split; [done|]. intros j Hj. destruct (F2 j Hj). split; [lia|done]. }
  eapply no_params_set_up; [|exact H|reflexivity].
  eapply touches_trans; [|by eapply make_datablobs_touches].
  eapply touches_trans; [|exact T3]. by eapply touches_trans.
Qed.
Lemma Setup_set_up n i p np s s' o : i < n -> n <= next_obj s -> objs s !! i = Some o -> GetParams o = [] ->
  Layers.Setup i p np s = Ok s' -> set_up n i s s'.
Proof. apply Setup_fuel_set_up. Qed.
End data_classes.

(** ** Running the steps of a setup *)
Lemma update_obj_Ok i o f s : objs s !! i = Some o -> update_obj i f s = Ok (put_obj i (f o) s).
Proof. intros Ho. unfold update_obj, obj. by rewrite Ho, deref_Some, bind_Ok. Qed.
Lemma elem_of_upto n k : k ∈ upto n <-> 0 <= k < n.
Proof.
  unfold upto. rewrite list_elem_of_fmap. split.
  - intros (j & -> & Hj%elem_of_seq). lia.
  - intros H. exists (Z.to_nat k). rewrite elem_of_seq. lia.
Qed.
Lemma NoDup_upto n : NoDup (upto n).
Proof. apply NoDup_fmap_2; [apply _|]. apply NoDup_seq. Qed.
Lemma obj_Ok i o s : objs s !! i = Some o -> obj i s = Ok o.
Proof. unfold obj. by intros ->. Qed.
Lemma reshape_data_Ok i o sh s h b : objs s !! i = Some o -> Reshape (odata o) sh (nheap s) = Ok (h, b) ->
  reshape_data i sh s = Ok (set_nheap h (put_obj i (set_data b o) s)).
Proof. intros Ho E. unfold reshape_data, obj. by rewrite Ho, deref_Some, bind_Ok, E, bind_Ok. Qed.
Lemma reshape_grad_Ok i o sh s h b : objs s !! i = Some o -> Reshape (ograd o) sh (nheap s) = Ok (h, b) ->
  reshape_grad i sh s = Ok (set_nheap h (put_obj i (set_grad b o) s)).
Proof. intros Ho E. unfold reshape_grad, obj. by rewrite Ho, deref_Some, bind_Ok, E, bind_Ok. Qed.
(** A source whose data does not depend on other layers. *)
Definition plain_source (o : LayerObj) : bool :=
  match oclass o with kBridgeSrc | kPrefetch => false | _ => true end.
Lemma data_plain j oj from ph f f' s s' : plain_source oj = true -> objs s !! j = Some oj -> objs s' !! j = Some oj ->
  data (S f) j from ph s = data (S f') j from ph s'.
Proof.
  intros Hp Hj Hj'. cbn [data]. unfold obj. rewrite Hj, Hj', !deref_Some, !bind_Ok. unfold plain_source in Hp.
  destruct (oclass oj); done.
Qed.
Lemma src_data_plain i j o o' oj k ph s s' : plain_source oj = true -> objs s !! i = Some o -> objs s' !! i = Some o' ->
  osrcs o' = osrcs o -> idx (osrcs o) k = Ok j -> objs s !! j = Some oj -> objs s' !! j = Some oj ->
  src_data i k ph s' = src_data i k ph s.
Proof.
  intros Hp Ho Ho' Es Hk Hj Hj'. unfold src_data, obj. rewrite Ho, Ho', !deref_Some, !bind_Ok, Es, Hk, !bind_Ok.
  unfold chain. by eapply data_plain.
Qed.
