(* ===== verification/NetLayersProps.v ===== *)
(** * Properties of the construction of a net: numbering and sharing of params *)

From S2P Require Import Prelude Msg Format Memory Param Server Graph GraphEdit Worker LayerConf NeuralNet Layers NetLayers LayersProps.
From Stdlib Require Import Sorted.
From Stdlib Require OrdersEx.

Definition params_of (s : nstate) (j : Z) : list Z :=
  match objs s !! j with Some o => GetParams o | None => [] end.
Definition all_params (s : nstate) (js : list Z) : list Z := concat (map (params_of s) js).
Definition par (s : nstate) (q : Z) : option Param := params (nworld s) !! q.

(** The [k]-th of [qs] has id [k], counting from [base]. *)
Definition ids_from (base : Z) (qs : list Z) (s : nstate) : Prop :=
  forall k q, qs !! k = Some q -> exists p, par s q = Some p /\ param_id p = base + Z.of_nat k.

Lemma params_of_same s s' j : objs s' !! j = objs s !! j -> params_of s' j = params_of s j.
Proof. unfold params_of. by intros ->. Qed.
Lemma all_params_same s s' js : (forall j, j ∈ js -> objs s' !! j = objs s !! j) -> all_params s' js = all_params s js.
Proof.
  intros H. unfold all_params. f_equal. apply map_ext_in. intros j Hj%list_elem_of_In. by apply params_of_same, H.
Qed.
Lemma all_params_snoc s js j : all_params s (js ++ [j]) = all_params s js ++ params_of s j.
Proof. unfold all_params. rewrite map_app, concat_app. simpl. by rewrite app_nil_r. Qed.
Lemma elem_of_all_params s q js : q ∈ all_params s js <-> exists j, j ∈ js /\ q ∈ params_of s j.
Proof.
  unfold all_params. rewrite list_elem_of_In, in_concat. split.
  - intros (l & Hl & Hq). apply in_map_iff in Hl as (j & <- & Hj). exists j. by rewrite !list_elem_of_In.
  - intros (j & Hj & Hq). exists (params_of s j). split; [by apply in_map, list_elem_of_In|by apply list_elem_of_In].
Qed.

(** ** Numbering *)
Lemma number_params_Ok ln qs : forall pn k s s' k', NoDup qs -> number_params ln pn qs k s = Ok (s', k') ->
  k' = k + Z.of_nat (length qs) /\ objs s' = objs s /\ next_obj s' = next_obj s /\
  next_param (nworld s') = next_param (nworld s) /\ (forall q, q ∉ qs -> par s' q = par s q) /\ ids_from k qs s'.
Proof.
  induction qs as [|q qs IH]; intros pn k s s' k' Hnd H; simpl in H.
  { injection H as <- <-. split; [simpl; lia|]. do 4 (split; [done|]). intros i q Hq. done. }
  apply list.NoDup_cons in Hnd as [Hq Hnd]. inv_ok H. rename a into p. inv_ok H.
  apply int_ret_inv in E0 as [-> _]. cbv zeta in H.
  match type of H with number_params _ _ _ _ (put_par _ ?p' _) = _ => set (p1 := p') in H end.
  destruct (IH _ _ _ _ _ Hnd H) as (-> & Ho & Hno & Hnp & Hp & Hids).
  split; [rewrite length_cons; lia|]. do 3 (split; [done|]). split.
  - intros q' Hq'. apply not_elem_of_cons in Hq' as [? ?]. rewrite Hp by done. unfold par. simpl.
    by rewrite lookup_insert_ne.
  - intros [|i] q' Hi; simpl in Hi.
    + injection Hi as <-. exists p1. rewrite Hp by done. unfold par. simpl. rewrite lookup_insert_eq.
      split; [done|]. unfold p1, param_id. destruct (bool_decide _); simpl; lia.
    + destruct (Hids i q' Hi) as (p' & ? & E'). exists p'. split; [done|]. rewrite E'. lia.
Qed.

(** The layers [ready] are set up and their params numbered; those of [todo] are as
    they were created. *)
Record progress (n : Z) (ready todo : list Z) (s : nstate) : Prop := {
  pg_next : n <= next_obj s;
  pg_nodup : NoDup (ready ++ todo);
  pg_old j : j ∈ ready ++ todo -> j < n;
  pg_params : NoDup (all_params s ready);
  pg_below q : q ∈ all_params s ready -> q < next_param (nworld s);
  pg_ids : ids_from 0 (all_params s ready) s;
  pg_todo j : j ∈ todo -> exists o, objs s !! j = Some o /\ GetParams o = [];
}.

Section net.
Context `{F : Files}.

Lemma progress_step n ready j todo s s1 s2 o k ln p np : progress n ready (j :: todo) s ->
  Layers.Setup j p np s = Ok s1 -> objs s1 !! j = Some o ->
  number_params ln "$" (GetParams o) (Z.of_nat (length (all_params s ready))) s1 = Ok (s2, k) ->
  progress n (ready ++ [j]) todo s2 /\ k = Z.of_nat (length (all_params s2 (ready ++ [j]))) /\
  (forall i, i < n -> i <> j -> objs s2 !! i = objs s !! i) /\ objs s2 !! j = Some o.
Proof.
  intros [Hn Hnd Hold Hp Hb Hids Htodo] H1 Ho H2.
  destruct (Htodo j) as (o0 & Ho0 & Hp0); [left|].
  destruct (Setup_set_up n j p np s s1 o0 (Hold j ltac:(apply elem_of_app; right; left)) Hn Ho0 Hp0 H1)
    as [O P N Q (o' & Ho' & Hnd' & Hfr)].
  assert (o' = o) as -> by congruence.
  destruct (number_params_Ok ln (GetParams o) "$" _ s1 s2 k Hnd' H2) as (-> & Eo & En & Enp & Hother & Hnew).
  assert (j ∉ ready) as Hj by (intros Hj; apply list.NoDup_app in Hnd as (_ & Hd & _); apply (Hd j Hj); left).
  assert (forall i, i ∈ ready -> objs s2 !! i = objs s !! i) as Hready.
  { intros i Hi. rewrite Eo, O; [done|apply Hold, elem_of_app; by left|by intros ->]. }
  assert (all_params s2 ready = all_params s ready) as Ea by (by apply all_params_same).
  assert (params_of s2 j = GetParams o) as Ej by (unfold params_of; by rewrite Eo, Ho).
  assert (all_params s2 (ready ++ [j]) = all_params s ready ++ GetParams o) as Eall.
  { by rewrite all_params_snoc, Ea, Ej. }
  assert (forall q, q ∈ all_params s ready -> q ∉ GetParams o) as Hdis.
  { intros q Hq Hq'. apply Hb in Hq. apply Hfr in Hq' as [? _]. lia. }
  split; [|split; [by rewrite Eall, length_app, Nat2Z.inj_add|split; [intros i Hi Hij; by rewrite Eo, O|by rewrite Eo]]].
  split.
  - rewrite En. lia.
  - by rewrite <- app_assoc.
  - intros i Hi. apply Hold. by rewrite <- app_assoc in Hi.
  - rewrite Eall. by apply list.NoDup_app.
  - intros q Hq. rewrite Eall in Hq. rewrite Enp. apply elem_of_app in Hq as [Hq|Hq]; [apply Hb in Hq; lia|].
    apply Hfr in Hq as [? _]. lia.
  - intros i q Hq. rewrite Eall in Hq. apply lookup_app_Some in Hq as [Hq|[Hi Hq]].
    + assert (q ∈ all_params s ready) as Hin by (by eapply list_elem_of_lookup_2).
      destruct (Hids i q Hq) as (p' & Hp' & Hid). exists p'. split; [|done].
      rewrite Hother by (by apply Hdis). unfold par in *. by rewrite P by (by apply Hb).
    + destruct (Hnew _ _ Hq) as (p' & Hp' & Hid). exists p'. split; [done|]. lia.
  - intros i Hi. assert (i <> j) as Hij.
    { intros ->. apply list.NoDup_app in Hnd as (_ & _ & Hnd). by apply list.NoDup_cons in Hnd as [? _]. }
    destruct (Htodo i ltac:(by right)) as (oi & Hoi & ?). exists oi. split; [|done].
    rewrite Eo, O; [done|apply Hold, elem_of_app; right; by right|done].
Qed.
End net.

(** ** Partitions of one layer *)
Definition slt (a b : string) : Prop := String.compare a b = Lt.
Lemma slt_trans a b c : slt a b -> slt b c -> slt a c.
Proof. apply (RelationClasses.StrictOrder_Transitive (R := OrdersEx.String_as_OT.lt)). Qed.
Lemma slt_irrefl a : ~ slt a a.
Proof. apply (RelationClasses.StrictOrder_Irreflexive (R := OrdersEx.String_as_OT.lt)). Qed.

(** [share] holds the layers of [ps], by their origins. *)
Record grouped (share : list (string * list Z)) (ps : list (string * Z)) : Prop := {
  gr_sorted : StronglySorted slt (map fst share);
  gr_perm : concat (map (fun e => map (pair e.1) e.2) share) ≡ₚ ps;
  gr_nonempty e : e ∈ share -> e.2 <> [];
}.
Lemma push_origin_names origin j share nm : nm ∈ map fst (push_origin origin j share) ->
  nm = origin \/ nm ∈ map fst share.
Proof.
  induction share as [|[n js] share IH]; simpl; [set_solver|].
  destruct (String.compare origin n); simpl; set_solver.
Qed.
Lemma push_origin_grouped origin j share ps : grouped share ps -> grouped (push_origin origin j share) (ps ++ [(origin, j)]).
Proof.
  intros [Hs Hp Hne]. revert ps Hs Hp Hne. induction share as [|[n js] share IH]; intros ps Hs Hp Hne; simpl.
  { split; simpl.
    - constructor; constructor.
    - simpl in Hp. by rewrite <- Hp.
    - intros e He. apply list_elem_of_singleton in He as ->. done. }
  simpl in Hs, Hp. apply StronglySorted_inv in Hs as [Hs Hn].
  destruct (String.compare origin n) eqn:E.
  - apply String.compare_eq_iff in E as <-. split; simpl.
    + by constructor.
    + rewrite <- Hp, map_app, <- !app_assoc. simpl. apply Permutation_app_head. by rewrite (Permutation_app_comm _ [(origin, j)]).
    + intros e [->|He]%elem_of_cons; [by destruct js|apply Hne; by right].
  - split; simpl.
    + constructor; [by constructor|]. constructor; [done|]. eapply List.Forall_impl; [|exact Hn].
      intros nm. by apply slt_trans.
    + by rewrite <- Hp, (Permutation_app_comm _ [(origin, j)]).
    + intros e [->|He]%elem_of_cons; [done|by apply Hne].
  - destruct (IH (concat (map (fun e => map (pair e.1) e.2) share))) as [Hs' Hp' Hne']; [done|done| |].
    { intros e He. apply Hne. by right. }
    split; simpl.
    + constructor; [done|]. apply List.Forall_forall. intros nm Hnm%list_elem_of_In.
      apply push_origin_names in Hnm as [->|Hnm].
      * unfold slt. by rewrite String.compare_antisym, E.
      * rewrite List.Forall_forall in Hn. by apply Hn, list_elem_of_In.
    + by rewrite Hp', <- Hp, app_assoc.
    + intros e [->|He]%elem_of_cons; [apply (Hne (n, js)); left|by apply Hne'].
Qed.
Lemma sorted_unique (share : list (string * list Z)) o js js' : StronglySorted slt (map fst share) ->
  (o, js) ∈ share -> (o, js') ∈ share -> js = js'.
Proof.
  induction share as [|[n ks] share IH]; simpl; intros Hs H1 H2; [by apply elem_of_nil in H1|].
  apply StronglySorted_inv in Hs as [Hs Hn].
  assert (forall l, (n, l) ∉ share) as Hno.
  { intros l Hl. rewrite List.Forall_forall in Hn. apply (slt_irrefl n), Hn, list_elem_of_In.
    by apply (list_elem_of_fmap_2 fst) in Hl. }
  apply elem_of_cons in H1 as [E1|H1], H2 as [E2|H2]; simplify_eq; try done; [by destruct (Hno js')|by destruct (Hno js)|auto].
Qed.
(** Two partitions of one layer are in one entry. *)
Lemma grouped_same share ps o j j' : grouped share ps -> (o, j) ∈ ps -> (o, j') ∈ ps ->
  exists js, (o, js) ∈ share /\ j ∈ js /\ j' ∈ js.
Proof.
  intros [Hs Hp _]. assert (forall k, (o, k) ∈ ps -> exists js, (o, js) ∈ share /\ k ∈ js) as Hex.
  { intros k Hk. rewrite <- Hp in Hk. apply list_elem_of_In, in_concat in Hk as (l & Hl & Hk).
    apply in_map_iff in Hl as ([o' js] & <- & He). apply in_map_iff in Hk as (k' & [= -> ->] & Hk).
    exists js. by rewrite !list_elem_of_In. }
  intros H1 H2. destruct (Hex j H1) as (js & E1 & J1), (Hex j' H2) as (js' & E2 & J2).
  assert (js = js') as <- by (by eapply sorted_unique). eauto.
Qed.

(** The layers of [nodes]. *)
Definition node_layer (ng : net_graph) (m : gmap string Z) (n j : Z) : Prop :=
  exists x, Graph.store (graph ng) !! n = Some x /\ layer_named (Graph.name x) m = j.
(** The origins of the set up layers that are partitioned on the batch. *)
Fixpoint batch_parts (ng : net_graph) (s : nstate) (nodes js : list Z) : list (string * Z) :=
  match nodes, js with
  | n :: nodes, j :: js =>
      match Graph.store (graph ng) !! n, objs s !! j with
      | Some x, Some o =>
          if lp_pdim (layer_proto_ o) =? 0 then (Graph.origin x, j) :: batch_parts ng s nodes js
          else batch_parts ng s nodes js
      | _, _ => batch_parts ng s nodes js
      end
  | _, _ => []
  end.
Lemma batch_parts_app ng s ns1 js1 ns2 js2 : length ns1 = length js1 ->
  batch_parts ng s (ns1 ++ ns2) (js1 ++ js2) = batch_parts ng s ns1 js1 ++ batch_parts ng s ns2 js2.
Proof.
  revert js1. induction ns1 as [|n ns1 IH]; intros [|j js1] Hl; try done. simpl in *. injection Hl as Hl.
  rewrite IH by done. destruct (Graph.store (graph ng) !! n), (objs s !! j); try done. by case_match.
Qed.
Lemma batch_parts_same ng s s' ns js : (forall j, j ∈ js -> objs s' !! j = objs s !! j) ->
  batch_parts ng s' ns js = batch_parts ng s ns js.
Proof.
  revert js. induction ns as [|n ns IH]; intros [|j js] H; try done. simpl. rewrite H by left.
  rewrite IH; [done|]. intros i Hi. apply H. by right.
Qed.

Section setup.
Context `{F : Files}.

Lemma setup_layers_Ok ng m n np nodes : forall js ready_nodes ready share k s s' share',
  Forall2 (node_layer ng m) nodes js -> length ready_nodes = length ready -> progress n ready js s ->
  k = Z.of_nat (length (all_params s ready)) -> grouped share (batch_parts ng s ready_nodes ready) ->
  setup_layers nodes np ng m k share s = Ok (s', share') ->
  progress n (ready ++ js) [] s' /\ grouped share' (batch_parts ng s' (ready_nodes ++ nodes) (ready ++ js)).
Proof.
  induction nodes as [|nd nodes IH]; intros js rn ready share k s s' share' HF Hl Hpg -> Hg H; simpl in H.
  { apply Forall2_nil_inv_l in HF as ->. injection H as <- <-. by rewrite !app_nil_r. }
  apply Forall2_cons_inv_l in HF as (j & js' & (x & Hx & Hj) & HF & ->).
  unfold get_node in H. rewrite Hx, deref_Some, bind_Ok, Hj in H.
  inv_ok H. rename a into p. inv_ok H. rename a into s1. inv_ok H. clear E1 a. inv_ok H. rename a into o.
  inv_ok H. destruct a as [s2 k2]. inv_ok H. rename a into d.
  unfold obj in E1. assert (objs s1 !! j = Some o) as Ho.
  { destruct (objs s1 !! j); simpl in E1; [by injection E1 as ->|done]. }
  destruct (progress_step n ready j js' s s1 s2 o k2 _ p np Hpg E0 Ho E2) as (Hpg2 & Hk2 & Hother & Ho2).
  assert (d = lp_pdim (layer_proto_ o)) as Hd.
  { unfold partition_dim in E3. inv_ok E3. by injection E3 as ->. }
  assert (batch_parts ng s2 rn ready = batch_parts ng s rn ready) as Eb.
  { apply batch_parts_same. intros i Hi. apply Hother.
    - apply (pg_old _ _ _ _ Hpg), elem_of_app. by left.
    - intros ->. pose proof (pg_nodup _ _ _ _ Hpg) as Hnd. apply list.NoDup_app in Hnd as (_ & Hdis & _).
      apply (Hdis j Hi). left. }
  replace (ready ++ j :: js') with ((ready ++ [j]) ++ js') by (by rewrite <- app_assoc).
  replace (rn ++ nd :: nodes) with ((rn ++ [nd]) ++ nodes) by (by rewrite <- app_assoc).
  eapply (IH js' (rn ++ [nd]) (ready ++ [j]) _ k2 s2); [done|by rewrite !length_app, Hl|done|done| |exact H].
  rewrite batch_parts_app, Eb by done. simpl. rewrite Hx, Ho2, <- Hd.
  destruct (d =? 0); [by apply push_origin_grouped|by rewrite app_nil_r].
Qed.

(** Creating and connecting the layers. *)
Lemma create_layers_Ok ng nodes : forall m s s' js m', (forall a b nm, a ∈ nodes -> b ∈ nodes ->
    name_of (graph ng) a = Some nm -> name_of (graph ng) b = Some nm -> a = b) -> NoDup nodes ->
  create_layers nodes ng m s = Ok (s', js, m') ->
  nworld s' = nworld s /\ next_obj s <= next_obj s' /\ fresh_objs js (next_obj s) (next_obj s') s' /\
  Forall2 (node_layer ng m') nodes js /\
  (forall nm, (forall a, a ∈ nodes -> name_of (graph ng) a <> Some nm) -> m' !! nm = m !! nm) /\
  (forall k, k < next_obj s -> objs s' !! k = objs s !! k).
Proof.
  induction nodes as [|nd nodes IH]; intros m s s' js m' Hu Hnd H; simpl in H.
  { injection H as <- <- <-. split; [done|]. split; [done|]. split; [|done]. split; [apply NoDup_nil_2|].
    intros j Hj. by apply elem_of_nil in Hj. }
  apply list.NoDup_cons in Hnd as [Hnin Hnd]. unfold get_node in H.
  destruct (Graph.store (graph ng) !! nd) as [x|] eqn:Hx; [|done]. rewrite deref_Some, bind_Ok in H.
  inv_ok H. rename a into p. inv_ok H. destruct a as [s1 j]. inv_ok H. destruct a as [[s2 js2] m2].
  injection H as -> <- ->.
  destruct (create_obj_touches (next_obj s) (next_obj s - 1) _ s s1 j ltac:(lia) ltac:(lia) E0)
    as (T1 & -> & N1 & O1 & R1).
  destruct (IH _ _ _ _ _ ltac:(intros a b nm Ha Hb; apply Hu; by right) Hnd E1) as (W & N2 & [D2 F2] & HF & Hm & R2).
  assert (name_of (graph ng) nd = Some (name x)) as Hnm by (unfold name_of; by rewrite Hx).
  assert (m' !! name x = Some (next_obj s)) as Hmx.
  { rewrite Hm; [apply lookup_insert_eq|]. intros a Ha Hna. apply Hnin.
    by rewrite (Hu nd a (name x) ltac:(left) ltac:(by right) Hnm Hna). }
  split; [|split; [lia|split; [|split; [|split]]]].
  - rewrite W. unfold create_obj, create_layer in E0. by inv_oks; intros; subst.
  - split.
    + apply NoDup_cons_2; [|done]. intros Hin. apply F2 in Hin as [? _]. lia.
    + intros k [->|Hk]%elem_of_cons.
      * split; [lia|]. exists (LayerObj_new (lp_type p)). rewrite R2 by lia. done.
      * destruct (F2 k Hk) as [? ?]. split; [lia|done].
  - constructor; [|done]. exists x. split; [done|]. unfold layer_named. by rewrite Hmx.
  - intros nm Hno. rewrite Hm by (intros a Ha; apply Hno; by right). rewrite lookup_insert_ne; [done|].
    intros <-. by apply (Hno nd); [left|].
  - intros k Hk. rewrite R2, R1 by lia. done.
Qed.
Lemma connect_layers_Ok ng m nodes : forall s s', connect_layers nodes ng m s = Ok s' ->
  nworld s' = nworld s /\ next_obj s' = next_obj s /\
  forall j o, objs s !! j = Some o -> exists o', objs s' !! j = Some o' /\ GetParams o' = GetParams o.
Proof.
  induction nodes as [|nd nodes IH]; intros s s' H; simpl in H; [injection H as <-; eauto|].
  inv_ok H. inv_ok H. inv_ok H. inv_ok H. unfold update_obj in E2. inv_ok E2. rename a3 into o1. injection E2 as <-.
  destruct (IH _ _ H) as (W & N & Ho). split; [done|]. split; [done|]. intros j o Hj. simpl in Ho.
  unfold obj in E3. destruct (decide (j = layer_named (name a) m)) as [->|Hne].
  - rewrite Hj, deref_Some in E3. injection E3 as <-.
    destruct (Ho _ (set_srcs a1 (set_dsts a0 o)) ltac:(by rewrite lookup_insert_eq)) as (o' & ? & ?). eauto.
  - apply Ho. by rewrite lookup_insert_ne.
Qed.
End setup.

(** ** Sharing *)
(** What [ShareFrom] takes over: the values, the owner and the slices. *)
Definition shared_part (p : Param) := (pdata p, owner p, slice_start p, num_slices p, slice_offset p, slice_size p).
Definition agree_on (s : nstate) (q r : Z) : Prop :=
  exists p p', par s q = Some p /\ par s r = Some p' /\ shared_part p = shared_part p'.

(** Params change, but not their ids. *)
Record shared_step (qs : list Z) (s s' : nstate) : Prop := {
  ss_objs : objs s' = objs s;
  ss_ids q p : par s q = Some p -> exists p', par s' q = Some p' /\ param_id p' = param_id p;
  ss_other q : q ∉ qs -> par s' q = par s q;
}.
Lemma shared_refl qs s : shared_step qs s s.
Proof. split; eauto. Qed.
Lemma shared_trans qs1 qs2 s1 s2 s3 : shared_step qs1 s1 s2 -> shared_step qs2 s2 s3 -> shared_step (qs1 ++ qs2) s1 s3.
Proof.
  intros [O1 I1 R1] [O2 I2 R2]. split; [congruence|..].
  - intros q p Hp. destruct (I1 q p Hp) as (p1 & H1 & <-). by apply I2.
  - intros q Hq. rewrite not_elem_of_app in Hq. destruct Hq. rewrite R2, R1 by done. done.
Qed.
Lemma shared_more qs qs' s s' : (forall q, q ∈ qs -> q ∈ qs') -> shared_step qs s s' -> shared_step qs' s s'.
Proof. intros Hq [O I R]. split; [done|done|]. intros q Hn. apply R. intros ?. by apply Hn, Hq. Qed.

Lemma share_param_Ok q r s s' : share_param q r s = Ok s' ->
  shared_step [q] s s' /\ exists p p', par s r = Some p /\ par s' q = Some p' /\ shared_part p' = shared_part p.
Proof.
  unfold share_param, get_par. intros H. inv_ok H. inv_ok H. inv_ok H. injection H as <-. rename a into p, a0 into r0, a1 into p'.
  assert (par s q = Some p) as Hp by (unfold par; destruct (params (nworld s) !! q); simpl in E; congruence).
  assert (par s r = Some r0) as Hr by (unfold par; destruct (params (nworld s) !! r); simpl in E0; congruence).
  unfold ShareFrom in E1. inv_ok E1. injection E1 as <-. split; [split; [done|..]|].
  - intros q' p' Hq'. unfold par. simpl. destruct (decide (q = q')) as [<-|Hne].
    + rewrite lookup_insert_eq. eexists. split; [done|]. unfold param_id. simpl. by simplify_eq.
    + rewrite lookup_insert_ne by done. eauto.
  - intros q' Hq'. unfold par. simpl. rewrite lookup_insert_ne; [done|]. intros ->. apply Hq'. left.
  - exists r0. eexists. split; [done|]. split; [unfold par; simpl; by rewrite lookup_insert_eq|]. done.
Qed.
Lemma agree_same s s' q r : par s' q = par s q -> par s' r = par s r -> agree_on s q r -> agree_on s' q r.
Proof. intros E1 E2 (p & p' & H1 & H2 & H3). exists p, p'. by rewrite E1, E2. Qed.

Lemma share_params_Ok qs : forall rs s s', NoDup qs -> (forall q, q ∈ qs -> q ∉ rs) -> share_params qs rs s = Ok s' ->
  shared_step qs s s' /\ forall k q r, qs !! k = Some q -> rs !! k = Some r -> agree_on s' q r.
Proof.
  induction qs as [|q qs IH]; intros rs s s' Hnd Hd H; simpl in H.
  { injection H as <-. split; [apply shared_refl|]. intros k q r Hq. done. }
  destruct rs as [|r rs]; [injection H as <-; split; [apply shared_refl|done]|]. inv_ok H. rename a into s1.
  apply list.NoDup_cons in Hnd as [Hq Hnd].
  destruct (share_param_Ok q r s s1 E) as [S1 (p & p' & Hr & Hp' & Es)].
  destruct (IH rs s1 s' Hnd) as [S2 A2]; [|done|].
  { intros q' Hq'. pose proof (Hd q' ltac:(by right)) as Hn. intros ?. apply Hn. by right. }
  split; [exact (shared_trans [q] qs _ _ _ S1 S2)|].
  assert (q <> r) as Hqr by (intros ->; apply (Hd r); left).
  assert (r ∉ qs) as Hrq by (intros Hin; apply (Hd r); [by right|left]).
  intros [|k] q' r' Hq' Hr'; simpl in Hq', Hr'; [|by eapply A2].
  injection Hq' as <-. injection Hr' as <-. exists p', p.
  rewrite (ss_other _ _ _ S2) by done. rewrite (ss_other _ _ _ S2) by done.
  rewrite (ss_other _ _ _ S1 r); [done|]. intros Hin%list_elem_of_singleton. by subst.
Qed.
Lemma share_named_Ok m es : forall s s', share_named es m s = Ok s' -> exists qs, shared_step qs s s'.
Proof.
  induction es as [|[nm q] es IH]; intros s s' H; simpl in H; [injection H as <-; by exists []; apply shared_refl|].
  inv_ok H. inv_ok H. destruct (IH _ _ H) as [qs S2]. destruct (decide _).
  - injection E0 as <-. by exists qs.
  - destruct (m !! _) as [r|]; [|done]. destruct (share_param_Ok _ _ _ _ E0) as [S1 _].
    exists ([q] ++ qs). by eapply shared_trans.
Qed.

(** The layers [js] have the same values as [owner]. *)
Definition layer_agrees (s : nstate) (owner j : Z) : Prop :=
  length (params_of s j) = length (params_of s owner) /\
  forall k q r, params_of s j !! k = Some q -> params_of s owner !! k = Some r -> agree_on s q r.
Lemma share_layer_Ok owner j s s' : NoDup (params_of s j) -> (forall q, q ∈ params_of s j -> q ∉ params_of s owner) ->
  share_layer owner j s = Ok s' -> shared_step (params_of s j) s s' /\ layer_agrees s' owner j.
Proof.
  intros Hnd Hd H. unfold share_layer, obj in H. inv_ok H. inv_ok H. inv_ok H. apply CHECK_Ok, Z.eqb_eq, Nat2Z.inj in E1 as El.
  clear E1. assert (params_of s owner = GetParams a) as E1.
  { unfold params_of. destruct (objs s !! owner); simpl in E; congruence. }
  assert (params_of s j = GetParams a0) as E2.
  { unfold params_of. destruct (objs s !! j); simpl in E0; congruence. }
  rewrite <- E1, <- E2 in H. destruct (share_params_Ok _ _ _ _ Hnd Hd H) as [S A]. split; [done|].
  assert (forall i, params_of s' i = params_of s i) as Ep.
  { intros i. apply params_of_same. by rewrite (ss_objs _ _ _ S). }
  split; [by rewrite !Ep, E1, E2|]. intros k q r. rewrite !Ep. apply A.
Qed.
Lemma share_layers_Ok owner js : forall s s', NoDup (all_params s (owner :: js)) -> share_layers owner js s = Ok s' ->
  shared_step (all_params s js) s s' /\ forall j, j ∈ js -> layer_agrees s' owner j.
Proof.
  induction js as [|j js IH]; intros s s' Hnd H; simpl in H.
  { injection H as <-. split; [apply shared_refl|]. intros j Hj. by apply elem_of_nil in Hj. }
  inv_ok H. rename a into s1. unfold all_params in Hnd. simpl in Hnd. fold (all_params s js) in Hnd.
  apply list.NoDup_app in Hnd as (Ho & Hdo & Hnd). pose proof Hnd as Hnd'.
  apply list.NoDup_app in Hnd as (Hj & Hdj & Hjs).
  destruct (share_layer_Ok owner j s s1 Hj) as [S1 A1]; [|done|].
  { intros q Hq Hq'. apply (Hdo q Hq'), elem_of_app. by left. }
  assert (forall i, params_of s1 i = params_of s i) as Ep.
  { intros i. apply params_of_same. by rewrite (ss_objs _ _ _ S1). }
  assert (all_params s1 js = all_params s js) as Ea.
  { apply all_params_same. intros i _. by rewrite (ss_objs _ _ _ S1). }
  destruct (IH s1 s') as [S2 A2]; [|done|].
  { unfold all_params. simpl. fold (all_params s1 js). rewrite Ep, Ea. apply list.NoDup_app. split; [done|].
    split; [|done]. intros q Hq Hq'. apply (Hdo q Hq), elem_of_app. by right. }
  rewrite Ea in S2. split; [exact (shared_trans _ _ _ _ _ S1 S2)|].
  intros i [->|Hi]%elem_of_cons; [|by apply A2].
  assert (forall i, params_of s' i = params_of s i) as Ep'.
  { intros i. rewrite <- Ep. apply params_of_same. by rewrite (ss_objs _ _ _ S2). }
  destruct A1 as [L1 A1]. split; [by rewrite !Ep', <- !Ep|].
  intros k q r. rewrite !Ep'. intros Hq Hr. apply (agree_same s1); try apply (ss_other _ _ _ S2).
  - apply Hdj. by eapply list_elem_of_lookup_2.
  - intros Hin. apply (Hdo r); [by eapply list_elem_of_lookup_2|]. apply elem_of_app. by right.
  - apply (A1 k); by rewrite Ep.
Qed.

(** Partitions of a layer all have the same values. *)
Definition partners (s : nstate) (j j' : Z) : Prop :=
  length (params_of s j) = length (params_of s j') /\
  forall k q q', params_of s j !! k = Some q -> params_of s j' !! k = Some q' -> agree_on s q q'.
Lemma partners_owner s owner js j j' : (forall q, q ∈ params_of s owner -> is_Some (par s q)) ->
  (forall i, i ∈ js -> layer_agrees s owner i) -> j ∈ owner :: js -> j' ∈ owner :: js -> partners s j j'.
Proof.
  intros Hex Hjs. assert (forall i, i ∈ owner :: js -> layer_agrees s owner i) as Hall.
  { intros i [->|Hi]%elem_of_cons; [|by apply Hjs]. split; [done|]. intros k q r Hq Hr.
    assert (q = r) as <- by congruence. destruct (Hex q) as [p Hp]; [by eapply list_elem_of_lookup_2|].
    by exists p, p. }
  intros Hj Hj'. destruct (Hall j Hj) as [L1 A1], (Hall j' Hj') as [L2 A2]. split; [congruence|].
  intros k q q' Hq Hq'. assert (is_Some (params_of s owner !! k)) as [r Hr].
  { apply lookup_lt_is_Some. rewrite <- L1. by eapply lookup_lt_Some. }
  destruct (A1 k q r Hq Hr) as (p & p0 & H1 & H2 & H3), (A2 k q' r Hq' Hr) as (p' & p0' & H4 & H5 & H6).
  exists p, p'. split; [done|]. split; [done|]. congruence.
Qed.
Lemma partners_same s s' j j' : objs s' = objs s -> (forall q, q ∈ params_of s j -> par s' q = par s q) ->
  (forall q, q ∈ params_of s j' -> par s' q = par s q) -> partners s j j' -> partners s' j j'.
Proof.
  intros Ho H1 H2 [L A]. assert (forall i, params_of s' i = params_of s i) as Ep by (intros i; unfold params_of; by rewrite Ho).
  split; [by rewrite !Ep|]. intros k q q'. rewrite !Ep. intros Hq Hq'.
  apply (agree_same s); [apply H1; by eapply list_elem_of_lookup_2|apply H2; by eapply list_elem_of_lookup_2|by apply (A k)].
Qed.

Lemma share_origins_Ok share : forall s s', NoDup (all_params s (concat (map snd share))) ->
  (forall q, q ∈ all_params s (concat (map snd share)) -> is_Some (par s q)) -> share_origins share s = Ok s' ->
  shared_step (all_params s (concat (map snd share))) s s' /\
  forall o js j j', (o, js) ∈ share -> j ∈ js -> j' ∈ js -> partners s' j j'.
Proof.
  induction share as [|[o js] share IH]; intros s s' Hnd Hex H; simpl in H.
  { injection H as <-. split; [apply shared_refl|]. intros o js j j' Hin. by apply elem_of_nil in Hin. }
  inv_ok H. rename a into s1. destruct js as [|owner js]; [done|].
  assert (all_params s (concat (map snd ((o, owner :: js) :: share))) =
    all_params s (owner :: js) ++ all_params s (concat (map snd share))) as Eall.
  { unfold all_params. simpl. by rewrite map_app, concat_app, app_assoc. }
  rewrite Eall in Hnd, Hex |- *. apply list.NoDup_app in Hnd as (Hn1 & Hdis & Hn2).
  destruct (share_layers_Ok owner js s s1 Hn1 E) as [S1 A1].
  assert (forall l, all_params s1 l = all_params s l) as Ea.
  { intros l. apply all_params_same. intros i _. by rewrite (ss_objs _ _ _ S1). }
  assert (forall q, is_Some (par s q) -> is_Some (par s1 q)) as Hsome.
  { intros q [p Hp]. destruct (ss_ids _ _ _ S1 q p Hp) as (p' & ? & _). by exists p'. }
  destruct (IH s1 s') as [S2 A2]; [by rewrite Ea| |done|].
  { intros q. rewrite Ea. intros Hq. apply Hsome, Hex, elem_of_app. by right. }
  rewrite Ea in S2. split.
  { apply (shared_more (all_params s js ++ all_params s (concat (map snd share)))).
    - intros q. rewrite !elem_of_app. intros [Hq|Hq]; [left|by right]. unfold all_params. simpl.
      apply elem_of_app. by right.
    - by eapply shared_trans. }
  intros o' js' j j' [[= -> ->]|Hin]%elem_of_cons Hj Hj'; [|by eapply A2].
  assert (forall i q, i ∈ owner :: js -> q ∈ params_of s i -> par s' q = par s1 q) as Hkeep.
  { intros i q Hi Hq. apply (ss_other _ _ _ S2), Hdis, elem_of_all_params. eauto. }
  apply (partners_same s1).
  - apply (ss_objs _ _ _ S2).
  - intros q Hq. apply (Hkeep j); [done|]. unfold params_of in *. by rewrite <- (ss_objs _ _ _ S1).
  - intros q Hq. apply (Hkeep j'); [done|]. unfold params_of in *. by rewrite <- (ss_objs _ _ _ S1).
  - apply (partners_owner s1 owner js); [|done|done|done]. intros q Hq. apply Hsome, Hex, elem_of_app. left.
    apply elem_of_all_params. exists owner. split; [left|]. unfold params_of in *. by rewrite <- (ss_objs _ _ _ S1).
Qed.

(** ** The net *)
Lemma all_params_sub s l js : l ⊆+ js -> NoDup (all_params s js) -> NoDup (all_params s l).
Proof.
  intros [k Hk]%submseteq_Permutation. assert (all_params s js ≡ₚ all_params s l ++ all_params s k) as ->.
  { unfold all_params. rewrite <- concat_app, <- map_app. by rewrite <- !flat_map_concat_map, Hk. }
  intros Hnd. by apply list.NoDup_app in Hnd as [? _].
Qed.
Lemma batch_parts_sub ng s nodes : forall js, map snd (batch_parts ng s nodes js) `sublist_of` js.
Proof.
  induction nodes as [|n nodes IH]; intros js; simpl; [apply sublist_nil_l|].
  destruct js as [|j js]; [constructor|].
  destruct (Graph.store (graph ng) !! n), (objs s !! j); [case_match; simpl; [by apply sublist_skip|]|..]; by apply sublist_cons.
Qed.
Lemma batch_parts_in ng s nodes : forall js k n j x o, nodes !! k = Some n -> js !! k = Some j ->
  Graph.store (graph ng) !! n = Some x -> objs s !! j = Some o -> lp_pdim (layer_proto_ o) = 0 ->
  (Graph.origin x, j) ∈ batch_parts ng s nodes js.
Proof.
  induction nodes as [|n' nodes IH]; intros [|j' js] [|k] n j x o Hn Hj Hx Ho Hd; simpl in *; try done.
  - injection Hn as ->. injection Hj as ->. rewrite Hx, Ho, Hd. simpl. left.
  - assert ((Graph.origin x, j) ∈ batch_parts ng s nodes js) as Hin by (by eapply IH).
    destruct (Graph.store (graph ng) !! n'), (objs s !! j'); try done. case_match; [by right|done].
Qed.
Lemma grouped_layers share ps : grouped share ps -> concat (map snd share) ≡ₚ map snd ps.
Proof.
  intros [_ Hp _]. rewrite <- Hp. clear. induction share as [|[o js] share IH]; simpl; [done|].
  rewrite map_app, map_map, map_id. by apply Permutation_app_head.
Qed.
Lemma ids_shared qs qs' s s' base : shared_step qs s s' -> ids_from base qs' s -> ids_from base qs' s'.
Proof.
  intros S H k q Hq. destruct (H k q Hq) as (p & Hp & <-). destruct (ss_ids _ _ _ S q p Hp) as (p' & ? & ?). eauto.
Qed.

(** C7. The params of a net.  When the nodes of the graph have distinct names, the net
    has a new layer for each node, in their order; its params are all different and have
    the ids 0, 1, 2, ... in the order of the layers; and two layers that are partitions,
    on the batch, of one layer of the configuration have the same number of params, and
    each has the values, the owner and the slices of its counterpart. *)
Theorem CreateNetFromGraph_params `{F : Files} (order : gmap string Z -> list (string * Z)) (ng : net_graph)
    (npartitions : Z) (s s' : nstate) (layers : list Z) (Hnd : NoDup (nodes_ (graph ng)))
    (Hnames : names_distinct (graph ng)) (H : CreateNetFromGraph order ng npartitions s = Ok (s', layers)) :
  length layers = length (nodes_ (graph ng)) /\ NoDup layers /\ (forall j, j ∈ layers -> next_obj s <= j) /\
  NoDup (all_params s' layers) /\ ids_from 0 (all_params s' layers) s' /\
  forall k k' n n' x x' j j' o o', nodes_ (graph ng) !! k = Some n -> nodes_ (graph ng) !! k' = Some n' ->
    Graph.store (graph ng) !! n = Some x -> Graph.store (graph ng) !! n' = Some x' ->
    layers !! k = Some j -> layers !! k' = Some j' -> objs s' !! j = Some o -> objs s' !! j' = Some o' ->
    lp_pdim (layer_proto_ o) = 0 -> lp_pdim (layer_proto_ o') = 0 -> Graph.origin x = Graph.origin x' ->
    partners s' j j'.
Proof.
  unfold CreateNetFromGraph in H. cbv zeta in H. inv_ok H. destruct a as [[s1 js] m]. inv_ok H. rename a into s2.
  inv_ok H. destruct a as [s3 share]. inv_ok H. inv_ok H. inv_ok H. rename a1 into s4. inv_ok H. rename a1 into s5.
  injection H as <- <-.
  destruct (create_layers_Ok ng _ _ _ _ _ _ ltac:(intros x y nm Hx Hy; apply (Hnames x y nm Hx Hy)) Hnd E)
    as (W1 & N1 & [D1 F1] & HF & _ & _).
  destruct (connect_layers_Ok _ _ _ _ _ E0) as (W2 & N2 & O2).
  destruct (setup_layers_Ok ng m (next_obj s1) npartitions _ js [] [] [] 0 s2 s3 share HF) as [P3 G3]; [done| |done| |done|].
  { split; simpl; try done.
    - lia.
    - intros j Hj. by apply F1 in Hj as [[_ ?] _].
    - apply NoDup_nil_2.
    - intros q Hq. by apply elem_of_nil in Hq.
    - intros j Hj. destruct (F1 j Hj) as (_ & o & Ho & Hp). destruct (O2 j o Ho) as (o' & ? & Ep).
      exists o'. by rewrite Ep. }
  { split; simpl; [constructor|done|]. intros e He. by apply elem_of_nil in He. }
  simpl in P3, G3. destruct (share_named_Ok _ _ _ _ E4) as [qs S4].
  assert (forall l, all_params s4 l = all_params s3 l) as Ea4.
  { intros l. apply all_params_same. intros j _. by rewrite (ss_objs _ _ _ S4). }
  pose proof (pg_params _ _ _ _ P3) as Hnp. pose proof (pg_ids _ _ _ _ P3) as Hids. rewrite <- Ea4 in Hnp.
  destruct (share_origins_Ok share s4 s5) as [S5 A5]; [| |done|].
  { apply (all_params_sub _ _ js); [|done]. rewrite (grouped_layers _ _ G3). apply sublist_submseteq, batch_parts_sub. }
  { intros q (j & Hj & Hq)%elem_of_all_params. rewrite (grouped_layers _ _ G3) in Hj.
    assert (q ∈ all_params s3 js) as Hin.
    { rewrite <- Ea4. apply elem_of_all_params. exists j. split; [|done].
      eapply elem_of_submseteq; [exact Hj|apply sublist_submseteq, batch_parts_sub]. }
    apply list_elem_of_lookup_1 in Hin as [k Hk]. destruct (Hids k q Hk) as (p & Hp & _).
    destruct (ss_ids _ _ _ S4 q p Hp) as (p' & ? & _). by exists p'. }
  assert (all_params s5 js = all_params s4 js) as Ea5.
  { apply all_params_same. intros j _. by rewrite (ss_objs _ _ _ S5). }
  split; [symmetry; by eapply Forall2_length|]. split; [done|]. split; [intros j Hj; by apply F1 in Hj as [[? _] _]|].
  rewrite Ea5. split; [done|]. split; [rewrite Ea4; by eapply ids_shared, ids_shared|].
  intros k k' n n' x x' j j' o o' Hk Hk' Hx Hx' Hj Hj' Ho Ho' Hd Hd' Eor.
  rewrite (ss_objs _ _ _ S5), (ss_objs _ _ _ S4) in Ho, Ho'.
  pose proof (batch_parts_in ng s3 _ js k n j x o Hk Hj Hx Ho Hd) as B1.
  pose proof (batch_parts_in ng s3 _ js k' n' j' x' o' Hk' Hj' Hx' Ho' Hd') as B2. rewrite <- Eor in B2.
  destruct (grouped_same _ _ _ _ _ G3 B1 B2) as (l & Hl & Hjl & Hjl'). by apply (A5 _ l j j' Hl).
Qed.

(** *** Witness: two partitions of the batch *)
#[local] Instance no_files : Files :=
  {| shard_folder _ := false; shard_file _ := None; parse_record _ := Record_default; read_mean _ := Fatal |}.
Definition demo_conf (name : string) (ty : LayerType) (srcs : list string) (params : nat) (conf : LayerConf) : LayerProto :=
  mkLayerProto name ty (Some 0) 0 srcs (replicate params ParamProto_default) [] "unknow" conf.
Definition demo_parallel : NetProto := mkNetProto
  [demo_conf "data" kInput [] 0 NoConf; demo_conf "img" kRGBImage ["data"] 0 NoConf;
   demo_conf "label" kLabel ["data"] 0 NoConf; demo_conf "conv" kConvolution ["img"] 2 (ConvolutionConf 2 3 0 1);
   demo_conf "fc" kInnerProduct ["conv"] 2 (InnerProductConf 4); demo_conf "tanh" kTanh ["fc"] 0 NoConf;
   demo_conf "loss" kSoftmaxLoss ["tanh"; "label"] 0 NoConf] 0.
Definition demo_parts : net_graph :=
  match CreateGraph demo_parallel 2 with Ok ng => ng | _ => mkNetGraph Graph_new ∅ 0 end.
Definition demo_nstate : nstate := mkNS ∅ 0 (mkWorld empty_heap ∅ 0 ∅).
(** The nodes of the two convolutions and their layers. *)
Lemma demo_built_facts :
  match CreateNetFromGraph map_to_list demo_parts 2 demo_nstate with
  | Ok (s', layers) =>
      layers = map Z.of_nat (seq 0 14) /\ map (params_of s') layers = [[]; []; []; []; []; []; [0; 1]; [2; 3]; [4; 5]; [6; 7]; []; []; []; []] /\
      (fun o => lp_pdim (layer_proto_ o)) <$> objs s' !! 6 = Some 0 /\ (fun o => lp_pdim (layer_proto_ o)) <$> objs s' !! 7 = Some 0
  | _ => False
  end.
Proof. vm_compute. done. Qed.
Lemma demo_parts_facts :
  (fun n => Graph.origin <$> Graph.store (graph demo_parts) !! n) <$> nodes_ (graph demo_parts) !! 6%nat = Some (Some "conv"%string) /\
  (fun n => Graph.origin <$> Graph.store (graph demo_parts) !! n) <$> nodes_ (graph demo_parts) !! 7%nat = Some (Some "conv"%string).
Proof. vm_compute. done. Qed.
Lemma names_distinct_check g : NoDup (map (name_of g) (nodes_ g)) -> names_distinct g.
Proof.
  intros Hnd i j nm Hi Hj Hni Hnj. apply list_elem_of_lookup in Hi as [a Ha], Hj as [b Hb].
  assert (a = b) as <-.
  { eapply NoDup_lookup; [exact Hnd|by rewrite list_lookup_fmap, Ha|]. rewrite list_lookup_fmap, Hb. simpl. congruence. }
  congruence.
Qed.

Lemma demo_parts_nodup : NoDup (nodes_ (graph demo_parts)).
Proof. apply (bool_decide_eq_true_1 (NoDup (nodes_ (graph demo_parts)))). vm_compute. reflexivity. Qed.
Lemma demo_parts_names : names_distinct (graph demo_parts).
Proof.
  apply names_distinct_check.
  apply (bool_decide_eq_true_1 (NoDup (map (name_of (graph demo_parts)) (nodes_ (graph demo_parts))))).
  vm_compute. reflexivity.
Qed.

Lemma CreateNetFromGraph_params_witness : exists s' layers,
  CreateNetFromGraph map_to_list demo_parts 2 demo_nstate = Ok (s', layers) /\ length layers = 14%nat /\
  ids_from 0 (all_params s' layers) s' /\ partners s' 6 7.
Proof.
  pose proof demo_built_facts as Hf.
  destruct (CreateNetFromGraph map_to_list demo_parts 2 demo_nstate) as [[s' layers]| | | |] eqn:E; [|destruct Hf..].
  destruct Hf as (El & _ & H6 & H7). exists s', layers.
  destruct (CreateNetFromGraph_params map_to_list demo_parts 2 demo_nstate s' layers demo_parts_nodup demo_parts_names E)
    as (_ & _ & _ & _ & Hids & Hpart).
  split; [reflexivity|]. split; [rewrite El; reflexivity|]. split; [exact Hids|]. clear E Hids.
  destruct demo_parts_facts as [N6 N7].
  destruct (nodes_ (graph demo_parts) !! 6%nat) as [n6|] eqn:E6; [|discriminate N6].
  destruct (nodes_ (graph demo_parts) !! 7%nat) as [n7|] eqn:E7; [|discriminate N7]. cbn [fmap option_fmap option_map] in N6, N7.
  destruct (Graph.store (graph demo_parts) !! n6) as [x6|] eqn:X6; [|discriminate N6].
  destruct (Graph.store (graph demo_parts) !! n7) as [x7|] eqn:X7; [|discriminate N7].
  destruct (objs s' !! 6) as [o6|] eqn:O6; [|discriminate H6]. destruct (objs s' !! 7) as [o7|] eqn:O7; [|discriminate H7].
  injection H6 as H6. injection H7 as H7. injection N6 as N6. injection N7 as N7.
  apply (Hpart 6%nat 7%nat n6 n7 x6 x7 6 7 o6 o7); [exact E6|exact E7|exact X6|exact X7|rewrite El; reflexivity|
    rewrite El; reflexivity|exact O6|exact O7|exact H6|exact H7|congruence].
Defined.
