(* ===== verification/Texts.v ===== *)
(** * The text of a graph and of a net (utils/graph.cc, neuralnet/neuralnet.cc, utils/common.cc)

    [ToJson] prints the nodes of a graph, with a color for their partition and a shape for
    what the partitioning added, and its edges by the positions of their ends; a line
    is formatted into a buffer of 1024 bytes.  [ToAdjacency] prints the layers of a net with
    their destinations, [IntVecToString] a shape. *)

From S2P Require Import Prelude Msg Format Memory Graph Server Worker LayerConf Layers NetLayers LayersProps.

(** ** Formatting *)

(** What C sees of a string. *)
Fixpoint upto_zero (s : string) : string :=
  match s with
  | EmptyString => EmptyString
  | String c s => if Ascii.eqb c Ascii.zero then EmptyString else String c (upto_zero s)
  end.
Definition newline : string := String (Ascii.ascii_of_nat 10) EmptyString.
Definition quote : string := String (Ascii.ascii_of_nat 34) EmptyString.
Definition quoted (s : string) : string := quote +:+ s +:+ quote.
(** [snprintf] into [char str[1024]] *)
Definition line (s : string) : string := String.substring 0 1023 s.
(** The lines of a list, with a comma before each but the first. *)
Definition listed (lines : list string) : string := String.concat "," lines.

(** ** ToJson *)
Definition colors : list string := ["red"; "blue"; "black"; "green"].
Definition shapes : list string := ["box"; "ellipse"].
(** [colors[partition_id % colors.size()]], with the modulus in [size_t] *)
Definition color_of (partition_id : Z) : outcome string := idx colors (u64 partition_id mod 4).
Definition shape_of (origin : string) : outcome string :=
  idx shapes (match String.index 0 "##" origin with Some _ => 1 | None => 0 end).
Definition node_line (info : gmap string string) (n : Node) : outcome string :=
  id ← deref (partition_id n);
  color ← color_of id;
  shape ← shape_of (origin n);
  Ok (line ("{" +:+ quoted "id" +:+ ":" +:+
        quoted (upto_zero (name n) +:+ upto_zero (default EmptyString (info !! name n))) +:+ ", " +:+
        quoted "color" +:+ ":" +:+ quoted color +:+ "," +:+ quoted "shape" +:+ ":" +:+ quoted shape +:+ "}" +:+ newline)).
(** The nodes in order, and [nodeid]: the position of the last node of each name. *)
Fixpoint node_lines (info : gmap string string) (is_ : list Z) (id : Z) (nodeid : gmap string Z) (g : Graph)
    : outcome (list string * gmap string Z) :=
  match is_ with
  | [] => Ok ([], nodeid)
  | i :: is_ =>
      n ← get_node i g;
      l ← node_line info n;
      '(ls, nodeid) ← node_lines info is_ (id + 1) (<[name n := id]> nodeid) g;
      Ok (l :: ls, nodeid)
  end.
(** [nodeid[name]] of a name that is not there is 0. *)
Definition edge_line (nodeid : gmap string Z) (src dst : string) : string :=
  line ("{" +:+ quoted "source" +:+ ":" +:+ Header.print_d (default 0 (nodeid !! src)) +:+ ", " +:+ quoted "target" +:+ ":" +:+
    Header.print_d (default 0 (nodeid !! dst)) +:+ ", " +:+ quoted "color" +:+ ":" +:+ quoted "black" +:+ "}" +:+ newline).
Fixpoint edge_lines_from (nodeid : gmap string Z) (src : string) (dsts : list Z) (g : Graph) : outcome (list string) :=
  match dsts with
  | [] => Ok []
  | d :: dsts => x ← get_node d g; ls ← edge_lines_from nodeid src dsts g; Ok (edge_line nodeid src (name x) :: ls)
  end.
Fixpoint edge_lines (nodeid : gmap string Z) (is_ : list Z) (g : Graph) : outcome (list string) :=
  match is_ with
  | [] => Ok []
  | i :: is_ =>
      n ← get_node i g;
      l ← edge_lines_from nodeid (name n) (dstnodes n) g;
      ls ← edge_lines nodeid is_ g;
      Ok (l ++ ls)
  end.
Definition ToJson (info : gmap string string) (g : Graph) : outcome string :=
  '(ns, nodeid) ← node_lines info (nodes_ g) 0 ∅ g;
  es ← edge_lines nodeid (nodes_ g) g;
  Ok ("{" +:+ quoted "directed" +:+ ":1," +:+ newline +:+
      quoted "nodes" +:+ ":[" +:+ newline +:+ listed ns +:+ "]" +:+ newline +:+ "," +:+
      quoted "links" +:+ ":[" +:+ newline +:+ listed es +:+ "]" +:+ newline +:+ "}").
Definition ToJson_plain (g : Graph) : outcome string := ToJson ∅ g.

(** ** What is printed *)

(** A graph whose nodes have partitions is printed, one line for each node and each edge. *)
Lemma color_Ok id : exists c, color_of id = Ok c.
Proof.
  pose proof (Z.mod_pos_bound (u64 id) 4 ltac:(lia)) as H.
  destruct (lookup_lt_is_Some_2 colors (Z.to_nat (u64 id mod 4))) as [c Hc]; [simpl; lia|].
  exists c. unfold color_of. rewrite <- (Z2Nat.id (u64 id mod 4)) by lia. by apply idx_lookup.
Qed.
Lemma node_line_Ok info n p : partition_id n = Some p -> exists l, node_line info n = Ok l.
Proof.
  intros Hp. unfold node_line. rewrite Hp, deref_Some, bind_Ok. destruct (color_Ok p) as [c Ec]. rewrite Ec, bind_Ok.
  unfold shape_of. destruct (String.index 0 "##" (origin n)); eexists; reflexivity.
Qed.
Definition printable (g : Graph) (i : Z) : Prop :=
  exists n p, store g !! i = Some n /\ partition_id n = Some p /\ forall d, d ∈ dstnodes n -> is_Some (store g !! d).
Lemma node_lines_Ok info g is_ : forall id nodeid, (forall i, i ∈ is_ -> printable g i) ->
  exists ls m, node_lines info is_ id nodeid g = Ok (ls, m) /\ length ls = length is_.
Proof.
  induction is_ as [|i is_ IH]; intros id nodeid H; [by eexists [], _|].
  destruct (H i ltac:(left)) as (n & p & Hn & Hp & _). destruct (node_line_Ok info n p Hp) as [l El].
  destruct (IH (id + 1) (<[name n := id]> nodeid)) as (ls & m & E & Hl); [intros j Hj; apply H; by right|].
  exists (l :: ls), m. simpl. unfold get_node. rewrite Hn, deref_Some, bind_Ok, El, bind_Ok, E, bind_Ok. split; [done|]. simpl. by f_equal.
Qed.
Lemma edge_lines_from_Ok nodeid src g ds : (forall d, d ∈ ds -> is_Some (store g !! d)) ->
  exists ls, edge_lines_from nodeid src ds g = Ok ls /\ length ls = length ds.
Proof.
  induction ds as [|d ds IH]; intros H; [by exists []|]. destruct (H d ltac:(left)) as [x Hx].
  destruct IH as (ls & E & Hl); [intros e He; apply H; by right|].
  exists (edge_line nodeid src (name x) :: ls). simpl. unfold get_node. rewrite Hx, deref_Some, bind_Ok, E, bind_Ok.
  split; [done|]. simpl. by f_equal.
Qed.
(** The number of edges out of the nodes. *)
Definition edges_of (g : Graph) (is_ : list Z) : nat :=
  length (concat (map (fun i => match store g !! i with Some n => dstnodes n | None => [] end) is_)).
Lemma edge_lines_Ok nodeid g is_ : (forall i, i ∈ is_ -> printable g i) ->
  exists ls, edge_lines nodeid is_ g = Ok ls /\ length ls = edges_of g is_.
Proof.
  induction is_ as [|i is_ IH]; intros H; [by exists []|]. destruct (H i ltac:(left)) as (n & p & Hn & _ & Hd).
  destruct (edge_lines_from_Ok nodeid (name n) g _ Hd) as (l & El & Hl). destruct IH as (ls & E & Hls); [intros j Hj; apply H; by right|].
  exists (l ++ ls). simpl. unfold get_node. rewrite Hn, deref_Some, bind_Ok, El, bind_Ok, E, bind_Ok. split; [done|].
  unfold edges_of. simpl. by rewrite Hn, !length_app, Hl, Hls.
Qed.
Lemma ToJson_Ok info g : (forall i, i ∈ nodes_ g -> printable g i) ->
  exists ns es s, ToJson info g = Ok s /\ length ns = length (nodes_ g) /\ length es = edges_of g (nodes_ g) /\
    exists a b c, s = a +:+ listed ns +:+ b +:+ listed es +:+ c.
Proof.
  intros H. destruct (node_lines_Ok info g (nodes_ g) 0 ∅ H) as (ns & m & En & Hn).
  destruct (edge_lines_Ok m g (nodes_ g) H) as (es & Ee & He). unfold ToJson. rewrite En, bind_Ok, Ee, bind_Ok.
  eexists ns, es, _. split; [reflexivity|]. split; [done|]. split; [done|].
  exists ("{" +:+ quoted "directed" +:+ ":1," +:+ newline +:+ quoted "nodes" +:+ ":[" +:+ newline),
    ("]" +:+ newline +:+ "," +:+ quoted "links" +:+ ":[" +:+ newline), ("]" +:+ newline +:+ "}").
  reflexivity.
Qed.
(** A node that was made with a name only has no partition id: printing it reads what was never set. *)
Lemma ToJson_no_partition info g i is_ n : nodes_ g = i :: is_ -> store g !! i = Some n -> partition_id n = None ->
  ToJson info g = Undef.
Proof.
  intros Hg Hn Hp. unfold ToJson. rewrite Hg. simpl. unfold get_node. rewrite Hn, deref_Some, bind_Ok.
  unfold node_line. by rewrite Hp.
Qed.

(** ** The net *)
Definition IntVecToString (vec : list Z) : string :=
  "(" +:+ String.concat EmptyString (map (fun x => Header.print_d x +:+ ", ") vec) +:+ ")".

Fixpoint dst_names (js : list Z) (s : nstate) : outcome string :=
  match js with
  | [] => Ok EmptyString
  | j :: js => o ← obj j s; d ← dst_names js s; Ok (lp_name (layer_proto_ o) +:+ ", " +:+ d)
  end.
Fixpoint adjacency (js : list Z) (s : nstate) : outcome string :=
  match js with
  | [] => Ok EmptyString
  | j :: js =>
      o ← obj j s;
      d ← dst_names (odsts o) s;
      disp ← adjacency js s;
      Ok (lp_name (layer_proto_ o) +:+ ": " +:+ d +:+ newline +:+ disp)
  end.
Definition ToAdjacency (n : NetLayers.NeuralNet) (s : nstate) : outcome string := adjacency (layers_ n) s.

(** The information [CreateNetFromGraph] prints with a graph: the shape of each layer. *)
Example shape_text : IntVecToString [2; 3] = "(2, 3, )".
Proof. reflexivity. Qed.
(** A layer without its object (a destination that was not made) stops it. *)
Lemma dst_names_Ok js s : (forall j, j ∈ js -> is_Some (objs s !! j)) -> exists d, dst_names js s = Ok d.
Proof.
  induction js as [|j js IH]; intros H; [by eexists|]. destruct (H j ltac:(left)) as [o Ho].
  destruct IH as [d E]; [intros k Hk; apply H; by right|]. eexists. simpl. by rewrite (obj_Ok _ _ _ Ho), bind_Ok, E, bind_Ok.
Qed.
Lemma ToAdjacency_Ok n s : (forall j, j ∈ layers_ n -> exists o, objs s !! j = Some o /\ forall d, d ∈ odsts o -> is_Some (objs s !! d)) ->
  exists t, ToAdjacency n s = Ok t.
Proof.
  unfold ToAdjacency. generalize (layers_ n). intros js. induction js as [|j js IH]; intros H; [by eexists|].
  destruct (H j ltac:(left)) as (o & Ho & Hd). destruct (dst_names_Ok _ s Hd) as [d Ed].
  destruct IH as [t E]; [intros k Hk; apply H; by right|]. eexists. simpl. by rewrite (obj_Ok _ _ _ Ho), bind_Ok, Ed, bind_Ok, E, bind_Ok.
Qed.
