(* ===== verification/LayerCompute.v ===== *)
(** * neuralnet/base_layer.cc, layer.cc: computations of the layers

    The computations that copy and parse: slices, parsers of images and labels, the
    records of a shard, and the gradient of the loss.  The layers that compute with mshadow are
    in LayerMath, the loss and the RGB images in LayerIO.  A function returns the
    state after the call; the memory of the blobs is that of the shared store. *)

From Stdlib Require Import SpecFloat.
From S2P Require Import Prelude DataShard Float32 Msg Format Memory Param Server Worker LayerConf Layers.

(** [mutable_data(from, phase)]: a data layer has no blob. *)
Fixpoint mutable_data (fuel : nat) (i : Z) (from : option Z) (phase : Phase) (s : nstate) : outcome (option Blob) :=
  match fuel with
  | O => OutOfFuel
  | S fuel =>
      o ← obj i s;
      if is_datalayer (oclass o) then Ok None
      else
        match oclass o with
        | kBridgeSrc => j ← idx (osrcs o) 0; mutable_data fuel j (Some i) kPositive s
        | _ => b ← data (S fuel) i from phase s; Ok (Some b)
        end
  end.

(** ** SliceLayer *)
Fixpoint copy_slices (blob : Blob) (sz : Z) (ks : list Z) (vec : list Blob) (h : heap) : outcome heap :=
  match ks with
  | [] => Ok h
  | k :: ks =>
      b ← idx vec k;
      '(h, dst) ← mutable_cpu_data b h;
      '(h, src) ← cpu_data blob h;
      off ← imul k sz;
      bytes ← load h (src + sizeof_float * off) (sizeof_float * sz);
      h ← store h dst bytes;
      copy_slices blob sz ks vec h
  end.
Definition Slice_ComputeFeature (i : Z) (s : nstate) : outcome nstate :=
  n ← num_srcs i s; _ ← CHECK (n =? 1);
  o ← obj i s;
  match osub o with
  | SliceSub slice_dim_ slice_num_ datavec_ _ =>
      if slice_dim_ =? 0 then
        blob ← src_data i 0 kPositive s;
        sz ← idiv (count_ blob) slice_num_;
        h ← copy_slices blob sz (upto slice_num_) datavec_ (nheap s);
        Ok (set_nheap h s)
      else Ok s
  | _ => Undef
  end.

(** ** Parsers *)

(** Stores one float after the other from [ptr] on. *)
Definition put_float (h : heap) (ptr : Z) (v : Z) : outcome heap := store h ptr (le_split 4 v).

Fixpoint parse_labels (records : list Record_) (rid label : Z) (h : heap) : outcome (heap * Z) :=
  match records with
  | [] => Ok (h, rid)
  | r :: records =>
      h ← put_float h (label + sizeof_float * rid) (f32_of_Z (im_label r));
      rid ← iadd rid 1;
      _ ← CHECK (im_label r <? 278);
      parse_labels records rid label h
  end.
Definition Label_ParseRecords (records : list Record_) (blob : Blob) (h : heap) : outcome heap :=
  '(h, label) ← mutable_cpu_data blob h;
  '(h, rid) ← parse_labels records 0 label h;
  d ← idx (shape_ blob) 0;
  _ ← CHECK (rid =? d);
  Ok h.

(** [pixel[k]] of a string: the byte behind the end is 0. *)
Definition pixel_at (pixel : list Z) (k : Z) : outcome Z :=
  if k =? Z.of_nat (length pixel) then Ok 0 else idx pixel k.
Definition normalize (norm_a norm_b x : Z) : Z := f32_sub (f32_div x norm_a) norm_b.
(** One image: [n] values from the [k]-th on. *)
Fixpoint parse_pixels (norm_a norm_b : Z) (r : Record_) (n : nat) (k dptr : Z) (h : heap) : outcome (heap * Z) :=
  match n with
  | O => Ok (h, dptr)
  | S n =>
      x ← (if decide (im_pixel r = []) then idx (im_data r) k
           else p ← pixel_at (im_pixel r) k; Ok (f32_of_Z p));
      h ← put_float h dptr (normalize norm_a norm_b x);
      parse_pixels norm_a norm_b r n (k + 1) (dptr + sizeof_float) h
  end.
Fixpoint parse_images (norm_a norm_b inputsize : Z) (records : list Record_) (dptr : Z) (h : heap)
    : outcome (heap * Z) :=
  match records with
  | [] => Ok (h, dptr)
  | r :: records =>
      '(h, dptr) ← parse_pixels norm_a norm_b r (Z.to_nat inputsize * Z.to_nat inputsize) 0 dptr h;
      parse_images norm_a norm_b inputsize records dptr h
  end.
Definition Mnist_ParseRecords (norm_a norm_b : Z) (records : list Record_) (blob : Blob) (h : heap) : outcome heap :=
  r ← vec_at records 0;
  let ndim := Z.of_nat (length (im_shape r)) in
  inputsize ← idx (im_shape r) (ndim - 1);
  d ← idx (shape_ blob) 1;
  _ ← CHECK (inputsize =? d);
  '(h, ptr) ← mutable_cpu_data blob h;
  '(h, dptr) ← parse_images norm_a norm_b inputsize records ptr h;
  _ ← CHECK (dptr =? ptr + sizeof_float * count_ blob);
  Ok h.

(** [ParserLayer::ComputeFeature] of the parsers of labels and MNIST images. *)
Definition Parser_ComputeFeature (i : Z) (s : nstate) : outcome nstate :=
  n ← num_srcs i s; _ ← CHECK (n =? 1);
  o ← obj i s; j ← idx (osrcs o) 0; d ← obj j s;
  match osub d with
  | DataSub _ _ _ records _ =>
      h ← (match oclass o, osub o with
           | kLabel, _ => Label_ParseRecords records (odata o) (nheap s)
           | kMnist, MnistSub norm_a norm_b _ => Mnist_ParseRecords norm_a norm_b records (odata o) (nheap s)
           | _, _ => Undef
           end);
      Ok (set_nheap h s)
  | _ => Undef
  end.

(** ** ShardDataLayer *)
Section shard.
Context `{F : Files}.

(** [Next(&key, &sample_)] [n] times; at the end of the shard it leaves the sample. *)
Fixpoint skip_records (n : nat) (sample : Record_) (sh : DataShard) : outcome (Record_ * DataShard) :=
  match n with
  | O => Ok (sample, sh)
  | S n => '(r, sh) ← Next_record sh; skip_records n (default sample r) sh
  end.
(** The loop over [records_]; the end of the shard is followed by its start. *)
Fixpoint read_records (n : nat) (sh : DataShard) : outcome (list Record_ * DataShard) :=
  match n with
  | O => Ok ([], sh)
  | S n =>
      '(r, sh) ← Next_record sh;
      '(r, sh) ← (match r with
                  | Some r => Ok (r, sh)
                  | None =>
                      sh ← DataShard.SeekToFirst sh;
                      '(r, sh) ← Next_record sh;
                      match r with Some r => Ok (r, sh) | None => Fatal end
                  end);
      '(rs, sh) ← read_records n sh;
      Ok (r :: rs, sh)
  end.
(** [r] is what [rand] returns; the log message, with its count, is left out. *)
Definition ShardData_ComputeFeature (r : Z) (i : Z) (s : nstate) : outcome nstate :=
  o ← obj i s;
  match osub o with
  | DataSub random_skip_ batchsize_ sample_ records_ (Some sh) =>
      '(sample_, sh) ← (if random_skip_ =? 0 then Ok (sample_, sh)
                        else nskip ← imod r random_skip_; skip_records (Z.to_nat nskip) sample_ sh);
      '(rs, sh) ← read_records (length records_) sh;
      set_members i (DataSub 0 batchsize_ sample_ rs (Some sh)) s
  | _ => Undef
  end.
End shard.

(** ** SoftmaxLossLayer: the gradient *)

(** [static_cast<int>] of a float. *)
Definition f32_to_int (b : Z) : outcome Z :=
  match f32_decode b with
  | S754_zero _ => Ok 0
  | S754_finite sg m e =>
      let n := if 0 <=? e then Zpos m * 2 ^ e else Zpos m / 2 ^ (- e) in
      int_ret (if sg then - n else n)
  | _ => Undef
  end.
Fixpoint minus_one (labels : list Z) (n dim : Z) (p : Z) (h : heap) : outcome heap :=
  match labels with
  | [] => Ok h
  | l :: labels =>
      l ← f32_to_int l;
      k ← (a ← imul n dim; iadd a l);
      bytes ← load h (p + sizeof_float * k) sizeof_float;
      h ← put_float h (p + sizeof_float * k) (f32_sub (le_combine bytes) f32_one);
      minus_one labels (n + 1) dim p h
  end.
Definition SoftmaxLoss_ComputeGradient (i : Z) (s : nstate) : outcome nstate :=
  o ← obj i s;
  match osub o with
  | LossSub batchsize_ dim_ _ scale_ _ =>
      lb ← src_data i 1 kPositive s;
      '(h, label) ← cpu_data lb (nheap s);
      g ← src_mutable_grad i 0 s; gsrcblob ← deref g;
      '(h, gsrcblob) ← CopyFrom gsrcblob (odata o) false h;
      '(h, gsrcptr) ← mutable_cpu_data gsrcblob h;
      labels ← load h label (sizeof_float * batchsize_);
      h ← minus_one (f32s_of_bytes labels) 0 dim_ gsrcptr h;
      bytes ← load h gsrcptr (sizeof_float * count_ gsrcblob);
      let c := f32_div scale_ (f32_mul f32_one (f32_of_Z batchsize_)) in
      h ← store h gsrcptr (bytes_of_f32s (map (fun x => f32_mul x c) (f32s_of_bytes bytes)));
      Ok (set_nheap h s)
  | _ => Undef
  end.

(** ** Layers that do not compute *)
Definition Concate_ComputeFeature (i : Z) (phase : Phase) (s : nstate) : outcome nstate := Fatal.
Definition Concate_ComputeGradient (i : Z) (phase : Phase) (s : nstate) : outcome nstate := Fatal.
Definition Split_ComputeFeature (i : Z) (phase : Phase) (s : nstate) : outcome nstate := Fatal.
Definition Split_ComputeGradient (i : Z) (phase : Phase) (s : nstate) : outcome nstate := Fatal.
(** The empty bodies of the bridges (apart from [ready_], which is the worker's), of the data, parser and
    prefetch layers and of the slice layer. *)
Definition Layer_nothing (i : Z) (phase : Phase) (s : nstate) : outcome nstate := Ok s.
