(* ===== verification/Mshadow.v ===== *)
(** * include/mshadow: tensors and expressions on the CPU

    The part of mshadow the layers compute with: an expression has a shape and a plan,
    which gives the element of row [y] and column [x] of the flattened result; an
    assignment evaluates the plan element by element.  A tensor is its shape and its
    values; [shape[0]] is the lowest dimension and the head of the list.  An index is an
    [unsigned int], with wrap-around.  Values are read before the result is stored, which is
    the same since a blob's memory is never shared in part with another's. *)

From Stdlib Require Import SpecFloat.
From S2P Require Import Prelude Float32 Memory.

(** ** Indices *)
Definition uadd (a b : Z) : Z := u32 (a + b).
Definition usub (a b : Z) : Z := u32 (a - b).
Definition umul (a b : Z) : Z := u32 (a * b).
Definition udiv (a b : Z) : outcome Z := if b =? 0 then Undef else Ok (a / b).
Definition umod (a b : Z) : outcome Z := if b =? 0 then Undef else Ok (a mod b).
(** [for (k = a; k < b; ++k)] *)
Definition between (a b : Z) : list Z := map (fun k => a + Z.of_nat k) (seq 0 (Z.to_nat (b - a))).
Fixpoint fold_out {A B} (f : A -> B -> outcome A) (l : list B) (a : A) : outcome A :=
  match l with [] => Ok a | x :: l => a ← f a x; fold_out f l a end.
Fixpoint map_out {A B} (f : A -> outcome B) (l : list A) : outcome (list B) :=
  match l with [] => Ok [] | x :: l => y ← f x; ys ← map_out f l; Ok (y :: ys) end.

(** ** Shapes and tensors *)
Definition ProdShape (dims : list Z) : Z := foldr umul 1 dims.
Definition rows (shape : list Z) : Z := ProdShape (drop 1 shape).
Definition dim (shape : list Z) (k : nat) : Z := default 0 (shape !! k).
Record tensor := mkTensor { tshape : list Z; tvals : list Z }.
(** [t[k]] *)
Definition sub_tensor (t : tensor) (k : Z) : tensor :=
  let s := removelast (tshape t) in
  let n := Z.to_nat (shape_size s) in
  mkTensor s (take n (drop (n * Z.to_nat k) (tvals t))).

(** [Assert] ends the program. *)
Definition Assert (b : bool) : outcome unit := CHECK b.

(** ** Expressions *)
Definition plan : Type := Z -> Z -> outcome Z.
Record exp := mkExp { eshape : list Z; Eval : plan }.

Definition tensor_exp (t : tensor) : exp :=
  mkExp (tshape t)
    (match tshape t with
     | [_] => fun y x => idx (tvals t) x
     | _ => fun y x => idx (tvals t) (uadd (umul y (dim (tshape t) 0)) x)
     end).
(** A scalar is marked by a lowest dimension of 0. *)
Definition ScalarExp (r : Z) : exp := mkExp [0] (fun y x => Ok r).
Definition UnaryMapExp (op : Z -> Z) (e : exp) : exp := mkExp (eshape e) (fun y x => v ← Eval e y x; Ok (op v)).
Definition check_shapes (s1 s2 : list Z) : outcome (list Z) :=
  if dim s1 0 =? 0 then Ok s2
  else if dim s2 0 =? 0 then Ok s1
  else _ ← Assert (bool_decide (s1 = s2)); Ok s1.
Definition BinaryMapExp (op : Z -> Z -> Z) (l r : exp) : outcome exp :=
  shape ← check_shapes (eshape l) (eshape r);
  Ok (mkExp shape (fun y x => a ← Eval l y x; b ← Eval r y x; Ok (op a b))).
Definition e_mul : exp -> exp -> outcome exp := BinaryMapExp f32_mul.
Definition e_add : exp -> exp -> outcome exp := BinaryMapExp f32_add.

(** [operator=] and its relatives: what [Save] makes of the old and the new value. *)
Definition saveto (a b : Z) : Z := b.
Definition plusto (a b : Z) : Z := f32_add a b.
Definition minusto (a b : Z) : Z := f32_sub a b.
Definition multo (a b : Z) : Z := f32_mul a b.
Definition positions (shape : list Z) : list (Z * Z) :=
  concat (map (fun y => map (fun x => (y, x)) (between 0 (dim shape 0))) (between 0 (rows shape))).
(** The values [vs] are saved one after the other from the first element on. *)
Definition save_all (Save : Z -> Z -> Z) (dst : tensor) (vs : list Z) : outcome tensor :=
  if decide (length vs <= length (tvals dst))%nat
  then Ok (mkTensor (tshape dst) (zip_with Save (tvals dst) vs ++ drop (length vs) (tvals dst)))
  else Undef.
Definition MapExp (Save : Z -> Z -> Z) (dst : tensor) (e : exp) : outcome tensor :=
  _ ← Assert ((dim (eshape e) 0 =? 0) || bool_decide (eshape e = tshape dst));
  vs ← map_out (fun yx => Eval e yx.1 yx.2) (positions (tshape dst));
  save_all Save dst vs.

(** ** Reducers *)
Record reducer := mkReducer { Reduce : Z -> Z -> Z; PartialGrad : Z -> Z -> Z; kInitV : Z }.
Definition f32_max (a b : Z) : Z := if f32_ltb a b then b else a.
Definition FLT_MAX_neg : Z := 0xff7fffff.
Definition red_sum : reducer := mkReducer f32_add (fun _ _ => f32_one) 0.
Definition red_maximum : reducer :=
  mkReducer f32_max (fun redres redsrc => if f32_eqb redres redsrc then f32_one else 0) FLT_MAX_neg.

(** ** Images *)

(** [pool] *)
Definition pool_plan (R : reducer) (src : plan) (ksize kstride src_height src_width new_height : Z) : plan :=
  fun i j =>
    py ← umod i new_height;
    let y_start := umul py kstride in
    let y_end := Z.min (uadd y_start ksize) src_height in
    let x_start := umul j kstride in
    let x_end := Z.min (uadd x_start ksize) src_width in
    c ← udiv i new_height;
    fold_out (fun res y =>
      fold_out (fun res x => v ← src (uadd (umul c src_height) y) x; Ok (Reduce R res v)) (between x_start x_end) res)
      (between y_start y_end) (kInitV R).
Definition pooled (n ksize kstride : Z) : outcome Z := q ← udiv (usub n ksize) kstride; Ok (uadd q 1).
Definition pool (R : reducer) (src : exp) (ksize kstride : Z) : outcome exp :=
  let s := eshape src in
  _ ← Assert ((ksize <=? dim s 0) && (ksize <=? dim s 1));
  h ← pooled (dim s 1) ksize kstride;
  w ← pooled (dim s 0) ksize kstride;
  Ok (mkExp (w :: h :: drop 2 s) (pool_plan R (Eval src) ksize kstride (dim s 1) (dim s 0) h)).

(** The first and the last plus one of the windows that may contain [y]. *)
Definition window_min (y ksize kstride : Z) : outcome Z :=
  if y <? ksize then Ok 0 else udiv (uadd (usub y ksize) kstride) kstride.
Definition window_max (y kstride pooled : Z) : outcome Z :=
  q ← udiv (uadd y kstride) kstride; Ok (Z.min q pooled).
(** [t[0][c][y][x]] *)
Definition at0 (t : tensor) (c y x : Z) : outcome Z :=
  let s := tshape t in
  idx (tvals t) (dim s 0 * dim s 1 * c + dim s 0 * y + x).
Definition unpool_plan (R : reducer) (src pooled_ gpooled : tensor) (ksize kstride : Z) : plan :=
  fun i x =>
    y ← umod i (dim (tshape src) 1);
    c ← udiv i (dim (tshape src) 1);
    vsrc ← at0 src c y x;
    py_min ← window_min y ksize kstride;
    px_min ← window_min x ksize kstride;
    py_max ← window_max y kstride (dim (tshape pooled_) 1);
    px_max ← window_max x kstride (dim (tshape pooled_) 0);
    fold_out (fun val py =>
      fold_out (fun val px =>
          p ← at0 pooled_ c py px; g ← at0 gpooled c py px;
          Ok (f32_add val (f32_mul (PartialGrad R vsrc p) g)))
        (between px_min px_max) val)
      (between py_min py_max) 0.
Definition unpool (R : reducer) (src pooled_ gpooled : tensor) (ksize kstride : Z) : outcome exp :=
  _ ← Assert (bool_decide (tshape gpooled = tshape pooled_));
  _ ← Assert (dim (tshape gpooled) 2 =? dim (tshape src) 2);
  _ ← Assert (dim (tshape gpooled) 3 =? dim (tshape src) 3);
  Ok (mkExp (tshape src) (unpool_plan R src pooled_ gpooled ksize kstride)).

(** [pad], [crop] and [mirror] *)
Definition pad_plan (src : plan) (pad new_height src_height src_width : Z) : plan :=
  fun i x =>
    y ← umod i new_height;
    c ← udiv i new_height;
    if (y <? pad) || (x <? pad) then Ok 0
    else
      let h := usub y pad in
      let w := usub x pad in
      if (h <? src_height) && (w <? src_width) then src (uadd (umul c src_height) h) w else Ok 0.
Definition pad (src : exp) (p : Z) : exp :=
  let s := eshape src in
  let h := uadd (dim s 1) (umul p 2) in
  let w := uadd (dim s 0) (umul p 2) in
  mkExp (w :: h :: drop 2 s) (pad_plan (Eval src) p h (dim s 1) (dim s 0)).
Definition crop_plan (src : plan) (pad_height pad_width new_height src_height : Z) : plan :=
  fun i x =>
    y ← umod i new_height;
    c ← udiv i new_height;
    src (uadd (umul c src_height) (uadd y pad_height)) (uadd x pad_width).
(** [h], [w]: the size of the result. *)
Definition crop_at (src : exp) (h w start_height start_width : Z) : outcome exp :=
  let s := eshape src in
  _ ← Assert (h <=? dim s 1);
  _ ← Assert (w <=? dim s 0);
  Ok (mkExp (w :: h :: drop 2 s) (crop_plan (Eval src) start_height start_width h (dim s 1))).
Definition crop (src : exp) (h w : Z) : outcome exp :=
  let s := eshape src in
  _ ← Assert (h <=? dim s 1);
  _ ← Assert (w <=? dim s 0);
  Ok (mkExp (w :: h :: drop 2 s)
        (crop_plan (Eval src) (usub (dim s 1) h / 2) (usub (dim s 0) w / 2) h (dim s 1))).
Definition mirror (src : exp) : exp :=
  mkExp (eshape src) (fun i j => Eval src i (usub (usub (dim (eshape src) 0) j) 1)).

(** [chpool]: a sum over the neighbouring channels *)
Definition chpool_plan (R : reducer) (src : plan) (channel height hnsize : Z) : plan :=
  fun i x =>
    y ← umod i height;
    i ← udiv i height;
    c ← umod i channel;
    n ← udiv i channel;
    let cstart := if c <? hnsize then 0 else usub c hnsize in
    let cend := Z.min (uadd (uadd c hnsize) 1) channel in
    fold_out (fun res cc =>
        v ← src (uadd (umul (uadd (umul n channel) cc) height) y) x; Ok (Reduce R res v))
      (between cstart cend) (kInitV R).
Definition chpool (R : reducer) (src : exp) (nsize : Z) : outcome exp :=
  let s := eshape src in
  _ ← Assert (nsize mod 2 =? 1);
  _ ← Assert (nsize <=? dim s 2);
  Ok (mkExp s (chpool_plan R (Eval src) (dim s 2) (dim s 1) (nsize / 2))).

(** [unpack_patch2col] and [pack_col2patch] *)
Definition unpack_plan (src : plan) (psize pstride i_channel i_height i_width o_height o_width : Z) : plan :=
  fun i j =>
    x_offset ← umod i psize;
    idivp ← udiv i psize;
    y_offset ← umod idivp psize;
    c ← udiv idivp psize;
    jx ← umod j o_width;
    let x := uadd (umul jx pstride) x_offset in
    jdivw ← udiv j o_width;
    jy ← umod jdivw o_height;
    let y := uadd (umul jy pstride) y_offset in
    n ← udiv jdivw o_height;
    if (x <? i_width) && (y <? i_height) then src (uadd (umul (uadd (umul n i_channel) c) i_height) y) x
    else Ok 0.
Definition unpack_patch2col (img : exp) (psize pstride : Z) : outcome exp :=
  let s := eshape img in
  _ ← Assert ((psize <=? dim s 0) && (psize <=? dim s 1));
  let num := ProdShape (drop 3 s) in
  o_height ← pooled (dim s 1) psize pstride;
  o_width ← pooled (dim s 0) psize pstride;
  Ok (mkExp [umul (umul o_height o_width) num; umul (umul psize psize) (dim s 2)]
        (unpack_plan (Eval img) psize pstride (dim s 2) (dim s 1) (dim s 0) o_height o_width)).
Definition pack_plan (mat : tensor) (psize pstride i_channel i_height o_height o_width : Z) : plan :=
  fun i x =>
    y ← umod i i_height;
    idivh ← udiv i i_height;
    c ← umod idivh i_channel;
    n ← udiv idivh i_channel;
    py_min ← window_min y psize pstride;
    px_min ← window_min x psize pstride;
    py_max ← window_max y pstride o_height;
    px_max ← window_max x pstride o_width;
    fold_out (fun res py =>
      fold_out (fun res px =>
          let row := usub (uadd (umul (usub (uadd (umul c psize) y) (umul py pstride)) psize) x) (umul px pstride) in
          let col := uadd (umul (uadd (umul n o_height) py) o_width) px in
          v ← idx (tvals mat) (dim (tshape mat) 0 * row + col);
          Ok (f32_add res v))
        (between px_min px_max) res)
      (between py_min py_max) 0.
Definition pack_col2patch (mat : tensor) (imshape : list Z) (psize pstride : Z) : outcome exp :=
  _ ← Assert ((psize <=? dim imshape 0) && (psize <=? dim imshape 1));
  o_height ← pooled (dim imshape 1) psize pstride;
  o_width ← pooled (dim imshape 0) psize pstride;
  _ ← Assert (dim (tshape mat) 0 =? umul (umul o_height o_width) (ProdShape (drop 3 imshape)));
  _ ← Assert (dim (tshape mat) 1 =? umul (umul psize psize) (dim imshape 2));
  Ok (mkExp imshape (pack_plan mat psize pstride (dim imshape 2) (dim imshape 1) o_height o_width)).

(** ** Broadcasts and reductions *)

(** [broadcast<0>] (as [repmat]) and [broadcast<1>] *)
Definition repmat (src : tensor) (nrow : Z) : exp :=
  mkExp [dim (tshape src) 0; nrow] (fun y x => idx (tvals src) x).
Definition broadcast1 (src : tensor) (shape : list Z) : outcome exp :=
  _ ← Assert (dim (tshape src) 0 =? dim shape 1);
  Ok (mkExp shape (fun y x => k ← umod y (dim (tshape src) 0); idx (tvals src) k)).
(** [sum_rows] *)
Definition MapReduceKeepLowest (Save : Z -> Z -> Z) (R : reducer) (dst : tensor) (e : exp) (scale : Z)
    : outcome tensor :=
  let w := dim (eshape e) 0 in
  let h := rows (eshape e) in
  _ ← Assert (w =? dim (tshape dst) 0);
  _ ← Assert (negb (h =? 0));
  vs ← map_out (fun x =>
         res ← Eval e 0 x;
         res ← fold_out (fun res y => v ← Eval e y x; Ok (Reduce R res v)) (between 1 h) res;
         Ok (f32_mul res scale)) (between 0 w);
  save_all Save dst vs.
(** [sumall_except_dim<1>] of an expression of three dimensions *)
Definition MapReduceKeepDim1 (Save : Z -> Z -> Z) (R : reducer) (dst : tensor) (e : exp) (scale : Z)
    : outcome tensor :=
  let c_ := dim (eshape e) 1 in
  let n_ := ProdShape (drop 2 (eshape e)) in
  let x_ := dim (eshape e) 0 in
  _ ← Assert (c_ =? dim (tshape dst) 0);
  vs ← map_out (fun c =>
         res ← fold_out (fun res n =>
             tres ← fold_out (fun tres x => v ← Eval e (uadd (umul n c_) c) x; Ok (Reduce R tres v))
                      (between 0 x_) (kInitV R);
             Ok (Reduce R res tres)) (between 0 n_) (kInitV R);
         Ok (f32_mul res scale)) (between 0 c_);
  save_all Save dst vs.

(** ** Products of matrices *)

(** CBLAS' [sgemm] on column-major matrices: transposed or not, m, n, k, alpha, A, lda, B, ldb,
    beta, C, ldc; the new content of C. *)
Class Blas := {
  gemm : bool -> bool -> Z -> Z -> Z -> Z -> list Z -> Z -> list Z -> Z -> Z -> list Z -> Z -> list Z;
}.
Definition GetShape (shape : list Z) (transpose : bool) : Z * Z :=
  if transpose then (dim shape 0, dim shape 1) else (dim shape 1, dim shape 0).
(** [dst = dot(lhs[.T], rhs[.T])], with the [alpha] and [beta] of the saver *)
Definition dot `{B : Blas} (alpha beta : Z) (dst lhs : tensor) (ltrans : bool) (rhs : tensor) (rtrans : bool)
    : outcome tensor :=
  let '(l1, l0) := GetShape (tshape lhs) ltrans in
  let '(r1, r0) := GetShape (tshape rhs) rtrans in
  _ ← Assert ((dim (tshape dst) 1 =? l1) && (dim (tshape dst) 0 =? r0) && (l0 =? r1));
  Ok (mkTensor (tshape dst)
    (gemm rtrans ltrans
       (if rtrans then dim (tshape rhs) 1 else dim (tshape rhs) 0)
       (if ltrans then dim (tshape lhs) 0 else dim (tshape lhs) 1)
       (if rtrans then dim (tshape rhs) 0 else dim (tshape rhs) 1)
       alpha (tvals rhs) (dim (tshape rhs) 0) (tvals lhs) (dim (tshape lhs) 0) beta (tvals dst) (dim (tshape dst) 0))).

(** ** Softmax *)
(** The C library's functions of a [float]; [log_] is that of a [double] applied to a float. *)
Class Mathf := {
  expf : Z -> Z;
  tanhf : Z -> Z;
  powf : Z -> Z -> Z;
  log_ : Z -> spec_float;
}.
Definition softmax_max (energy : list Z) : outcome Z :=
  match energy with
  | [] => Undef
  | e :: rest => Ok (fold_left (fun mmax v => if f32_ltb mmax v then v else mmax) rest e)
  end.
(** The counter of the first loop is a [float], which stops growing at 2^24: then the loop does
    not end, or misses the last element when it is the next one. *)
Definition Softmax1 `{M : Mathf} (energy : list Z) : outcome (list Z) :=
  let n := Z.of_nat (length energy) in
  mmax ← (if n <=? 2 ^ 24 then softmax_max energy
          else if n =? 2 ^ 24 + 1 then softmax_max (removelast energy)
          else OutOfFuel);
  let es := map (fun v => expf (f32_sub v mmax)) energy in
  let sum := fold_left f32_add es 0 in
  Ok (map (fun v => f32_div v sum) es).
Definition Softmax `{M : Mathf} (dst energy : tensor) : outcome tensor :=
  _ ← Assert (bool_decide (tshape dst = tshape energy));
  rs ← map_out (fun y => Softmax1 (tvals (sub_tensor energy y))) (between 0 (dim (tshape dst) 1));
  save_all saveto dst (concat rs).

(** [Copy] *)
Definition Copy (dst src : tensor) : outcome tensor :=
  _ ← Assert (bool_decide (tshape dst = tshape src));
  save_all saveto dst (take (Z.to_nat (shape_size (tshape dst))) (tvals src)).
