(* ===== verification/MshadowProps.v ===== *)
(** * Properties of mshadow's expressions

    Pooling and its reverse visit exactly the windows they should and stay in bounds, the
    patches of a convolution are laid out in columns and gathered again, and cropping undoes
    padding. *)

From Stdlib Require Import SpecFloat.
From S2P Require Import Prelude Float32 Memory Mshadow.

(** ** Indices *)
Lemma u32_small n : 0 <= n < 2 ^ 32 -> u32 n = n.
Proof. intros H. by apply Z.mod_small. Qed.
Lemma uadd_small a b : 0 <= a + b < 2 ^ 32 -> uadd a b = a + b.
Proof. apply u32_small. Qed.
Lemma usub_small a b : 0 <= a - b < 2 ^ 32 -> usub a b = a - b.
Proof. apply u32_small. Qed.
Lemma umul_small a b : 0 <= a * b < 2 ^ 32 -> umul a b = a * b.
Proof. apply u32_small. Qed.
Lemma udiv_Ok a b : b <> 0 -> udiv a b = Ok (a / b).
Proof. intros H. unfold udiv. by rewrite (proj2 (Z.eqb_neq b 0) H). Qed.
Lemma umod_Ok a b : b <> 0 -> umod a b = Ok (a mod b).
Proof. intros H. unfold umod. by rewrite (proj2 (Z.eqb_neq b 0) H). Qed.
(** The quotient and the remainder of [q * b + r]. *)
Lemma div_pos q b r : 0 <= r < b -> (q * b + r) / b = q.
Proof. intros H. rewrite Z.add_comm, Z.div_add, Z.div_small; lia. Qed.
Lemma mod_pos q b r : 0 <= r < b -> (q * b + r) mod b = r.
Proof. intros H. rewrite Z.add_comm, Z.mod_add, Z.mod_small; lia. Qed.
Lemma below_mul q r a b : 0 <= q < a -> 0 <= r < b -> 0 <= q * b + r < a * b.
Proof. nia. Qed.

(** Splits an index [q * b + r] and drops the wrap-arounds that cannot happen. *)
Ltac split_index :=
  repeat (first [ rewrite udiv_Ok by lia | rewrite umod_Ok by lia | rewrite div_pos by lia | rewrite mod_pos by lia ];
          cbn [mbind outcome_bind]).

Lemma elem_of_between k a b : k ∈ between a b <-> a <= k < b.
Proof.
  unfold between. rewrite list_elem_of_In, in_map_iff. split.
  - intros (j & <- & Hj). apply in_seq in Hj. lia.
  - intros H. exists (Z.to_nat (k - a)). rewrite in_seq. lia.
Qed.

Lemma fold_out_Ok {A B} (f : A -> B -> outcome A) (g : A -> B -> A) l a :
  (forall a x, x ∈ l -> f a x = Ok (g a x)) -> fold_out f l a = Ok (fold_left g l a).
Proof.
  revert a. induction l as [|x l IH]; intros a H; [done|]. simpl. rewrite H by left. simpl.
  apply IH. intros a' y Hy. apply H. by right.
Qed.
Lemma map_out_Ok {A B} (f : A -> outcome B) (g : A -> B) l :
  (forall x, x ∈ l -> f x = Ok (g x)) -> map_out f l = Ok (map g l).
Proof.
  induction l as [|x l IH]; intros H; [done|]. simpl. rewrite H by left. simpl.
  rewrite IH; [done|]. intros y Hy. apply H. by right.
Qed.
Lemma fold_left_fmap {A B C} (f : A -> C -> A) (g : B -> C) l a :
  fold_left f (map g l) a = fold_left (fun a x => f a (g x)) l a.
Proof. revert a. induction l as [|x l IH]; intros a; [done|]. apply IH. Qed.
Lemma fold_left_concat {A B C} (f : A -> C -> A) (g : B -> list C) l a :
  fold_left f (concat (map g l)) a = fold_left (fun a x => fold_left f (g x) a) l a.
Proof. revert a. induction l as [|x l IH]; intros a; [done|]. simpl. rewrite fold_left_app. apply IH. Qed.

(** ** Tensors *)
Record tensor_ok (t : tensor) : Prop := {
  to_pos : Forall (fun n => 0 < n) (tshape t);
  to_size : shape_size (tshape t) < 2 ^ 32;
  to_length : Z.of_nat (length (tvals t)) = shape_size (tshape t);
}.
(** The element of row [y] and column [x]. *)
Definition elem (t : tensor) (y x : Z) : Z := nth (Z.to_nat (y * dim (tshape t) 0 + x)) (tvals t) 0.

Lemma shape_size_pos l : Forall (fun n => 0 < n) l -> 0 < shape_size l.
Proof. induction 1 as [|n l Hn Hl IH]; cbn; [lia|]. change (0 < n * shape_size l). nia. Qed.
Lemma ProdShape_small l : Forall (fun n => 0 < n) l -> shape_size l < 2 ^ 32 -> ProdShape l = shape_size l.
Proof.
  induction 1 as [|n l Hn Hl IH]; [done|]. intros Hs. change (shape_size (n :: l)) with (n * shape_size l) in *.
  pose proof (shape_size_pos l Hl) as Hp. change (ProdShape (n :: l)) with (umul n (ProdShape l)).
  rewrite IH by nia. apply umul_small. nia.
Qed.
Lemma rows_cons t w l :
  tensor_ok t -> tshape t = w :: l -> rows (tshape t) = shape_size l /\ Z.of_nat (length (tvals t)) = w * shape_size l.
Proof.
  intros [Hp Hs Hl] E. rewrite E in *. inversion Hp as [|? ? Hw Hp']; subst.
  change (shape_size (w :: l)) with (w * shape_size l) in *.
  pose proof (shape_size_pos l Hp'). split; [|lia]. apply ProdShape_small; [done|nia].
Qed.

Lemma idx_nth l k : 0 <= k < Z.of_nat (length l) -> idx l k = Ok (nth (Z.to_nat k) l 0).
Proof.
  intros H. unfold idx. rewrite (proj2 (Z.leb_le 0 k)) by lia.
  destruct (l !! Z.to_nat k) as [v|] eqn:E.
  - f_equal. symmetry. by apply nth_lookup_Some.
  - apply lookup_ge_None in E. lia.
Qed.
(** Every element of a tensor of more than one dimension can be read. *)
Lemma tensor_eval t w h l y x :
  tensor_ok t -> tshape t = w :: h :: l -> 0 <= y < shape_size (h :: l) -> 0 <= x < w ->
  Eval (tensor_exp t) y x = Ok (elem t y x).
Proof.
  intros Ht E Hy Hx. destruct (rows_cons t w (h :: l) Ht E) as [_ Hlen]. pose proof (to_size _ Ht) as Hs.
  rewrite <- (to_length _ Ht), Hlen in Hs.
  assert (0 <= y * w + x < shape_size (h :: l) * w) by (apply below_mul; lia).
  unfold tensor_exp, elem. rewrite E. cbn [Eval]. change (dim (w :: h :: l) 0) with w.
  assert (0 <= y * w) by nia. rewrite (Z.mul_comm w) in Hs, Hlen.
  rewrite umul_small by lia. rewrite uadd_small by lia. apply idx_nth. lia.
Qed.

(** ** Pooling *)

(** A window of [k] by [k] pixels of channel [c] (of all images) from [(y, x)] on, row by row. *)
Definition window (t : tensor) (c y x k : Z) : list Z :=
  concat (map (fun dy => map (fun dx => elem t (c * dim (tshape t) 1 + dy) dx) (between x (x + k))) (between y (y + k))).
(** The number of windows along a side. *)
Definition windows (n k s : Z) : Z := (n - k) / s + 1.
Lemma pooled_windows n k s : 0 < k <= n -> 0 < s -> n < 2 ^ 32 -> pooled n k s = Ok (windows n k s).
Proof.
  intros Hk Hs Hn. unfold pooled. rewrite usub_small, udiv_Ok by lia. simpl. f_equal.
  assert (0 <= (n - k) / s <= n - k) by (split; [apply Z.div_pos; lia|apply Z.div_le_upper_bound; nia]).
  apply uadd_small. lia.
Qed.
(** The last window ends in the image. *)
Lemma windows_end n k s p : 0 < k <= n -> 0 < s -> 0 <= p < windows n k s -> p * s + k <= n.
Proof.
  intros Hk Hs Hp. unfold windows in Hp.
  assert ((n - k) / s * s <= n - k) by (rewrite Z.mul_comm; apply Z.mul_div_le; lia). nia.
Qed.
Lemma windows_pos n k s : 0 < k <= n -> 0 < s -> 0 < windows n k s.
Proof. intros Hk Hs. unfold windows. pose proof (Z.div_pos (n - k) s). lia. Qed.
Lemma tensor_dims t w h l :
  tensor_ok t -> tshape t = w :: h :: l ->
  0 < w < 2 ^ 32 /\ 0 < h < 2 ^ 32 /\ 0 < shape_size l /\ h * shape_size l < 2 ^ 32 /\
  Forall (fun n => 0 < n) l.
Proof.
  intros [Hp Hs _] E. rewrite E in *. inversion Hp as [|? ? Hw Hp']; inversion Hp' as [|? ? Hh Hl]; subst.
  change (shape_size (w :: h :: l)) with (w * (h * shape_size l)) in Hs.
  pose proof (shape_size_pos l Hl). assert (0 < h * shape_size l) by nia.
  assert (h * shape_size l <= w * (h * shape_size l)) by nia.
  assert (w <= w * (h * shape_size l)) by nia. assert (h <= h * shape_size l) by nia. repeat split; lia || done.
Qed.

(** A window that starts in the [p]-th step of a side of [n] pixels, without wrap-around. *)
Lemma window_range n k s p :
  0 < k <= n -> 0 < s -> n < 2 ^ 32 -> 0 <= p < windows n k s ->
  umul p s = p * s /\ Z.min (uadd (umul p s) k) n = p * s + k /\ 0 <= p * s.
Proof.
  intros Hk Hs Hn Hp. pose proof (windows_end n k s p Hk Hs Hp). assert (0 <= p * s) by nia.
  assert (E : umul p s = p * s) by (apply umul_small; lia). rewrite E, uadd_small by lia. lia.
Qed.
(** The element of row [c * h + y] that a loop over a window reads. *)
Lemma window_read t w h l c y x :
  tensor_ok t -> tshape t = w :: h :: l -> 0 <= c < shape_size l -> 0 <= y < h -> 0 <= x < w ->
  Eval (tensor_exp t) (uadd (umul c h) y) x = Ok (elem t (c * h + y) x).
Proof.
  intros Ht E Hc Hy Hx. destruct (tensor_dims t w h l Ht E) as (_ & Hh & Hl & Hhl & _).
  pose proof (below_mul c y (shape_size l) h Hc Hy). assert (0 <= c * h) by nia.
  rewrite umul_small by lia. rewrite uadd_small by lia.
  apply (tensor_eval t w h l); [done..| |done]. change (shape_size (h :: l)) with (h * shape_size l). lia.
Qed.

(** Pooling: with a kernel that fits the image, the shape of the result is the number of
    windows in each direction; every element can be evaluated, no window leaves the image
    or is cut at its border, and the element is the reduction of its [k] by [k] pixels. *)
Lemma pool_eval R t w h l k s :
  tensor_ok t -> tshape t = w :: h :: l -> 0 < k <= w -> k <= h -> 0 < s ->
  exists e, pool R (tensor_exp t) k s = Ok e /\
    eshape e = windows w k s :: windows h k s :: l /\
    forall c py px, 0 <= c < shape_size l -> 0 <= py < windows h k s -> 0 <= px < windows w k s ->
      Eval e (c * windows h k s + py) px = Ok (fold_left (Reduce R) (window t c (py * s) (px * s) k) (kInitV R)).
Proof.
  intros Ht E Hkw Hkh Hs. destruct (tensor_dims t w h l Ht E) as (Hw & Hh & Hl & Hhl & _).
  unfold pool. assert (E' : eshape (tensor_exp t) = w :: h :: l) by (unfold tensor_exp; by rewrite E).
  rewrite E'. change (dim (w :: h :: l) 0) with w. change (dim (w :: h :: l) 1) with h.
  unfold Assert. rewrite (CHECK_holds ((k <=? w) && (k <=? h))) by lia. cbn [mbind outcome_bind].
  rewrite !pooled_windows by lia. cbn [mbind outcome_bind].
  eexists. split; [done|]. split; [done|]. intros c py px Hc Hpy Hpx.
  pose proof (windows_pos h k s) as Hwh. cbn [Eval]. unfold pool_plan. split_index.
  destruct (window_range h k s py) as (Ey & Ey' & ?); [lia..|].
  destruct (window_range w k s px) as (Ex & Ex' & ?); [lia..|].
  pose proof (windows_end h k s py). pose proof (windows_end w k s px).
  rewrite Ey', Ex', Ey, Ex. unfold window. rewrite E. change (dim (w :: h :: l) 1) with h.
  rewrite fold_left_concat. apply fold_out_Ok. intros res y Hy%elem_of_between.
  rewrite fold_left_fmap. apply fold_out_Ok. intros res' x Hx%elem_of_between.
  by rewrite (window_read t w h l) by (done || lia).
Qed.

(** ** Unpooling *)

(** The windows along a side of [n] pixels that contain the pixel [y]. *)
Definition containing (n k s y : Z) : list Z := filter (fun p => p * s <= y < p * s + k) (between 0 (windows n k s)).

Lemma between_app a b c : a <= b <= c -> between a c = between a b ++ between b c.
Proof.
  intros H. unfold between.
  replace (Z.to_nat (c - a)) with (Z.to_nat (b - a) + Z.to_nat (c - b))%nat by lia.
  rewrite seq_app, map_app. f_equal.
  pose proof (fmap_add_seq (Z.to_nat (b - a)) 0 (Z.to_nat (c - b))) as E.
  rewrite Nat.add_0_r in E. rewrite Nat.add_0_l, <- E.
  change (Nat.add (Z.to_nat (b - a)) <$> seq 0 (Z.to_nat (c - b)))
    with (map (Nat.add (Z.to_nat (b - a))) (seq 0 (Z.to_nat (c - b)))).
  rewrite map_map. apply map_ext. intros j. lia.
Qed.
Lemma filter_all {A} (P : A -> Prop) `{forall x, Decision (P x)} (l : list A) : (forall x, x ∈ l -> P x) -> filter P l = l.
Proof.
  induction l as [|x l IH]; intros H'; [done|]. rewrite filter_cons_True by (apply H'; left).
  f_equal. apply IH. intros y Hy. apply H'. by right.
Qed.
Lemma filter_none {A} (P : A -> Prop) `{forall x, Decision (P x)} (l : list A) : (forall x, x ∈ l -> ~ P x) -> filter P l = [].
Proof.
  induction l as [|x l IH]; intros H'; [done|]. rewrite filter_cons_False by (apply H'; left).
  apply IH. intros y Hy. apply H'. by right.
Qed.
(** The elements of a range that satisfy a property, when these are a range. *)
Lemma filter_between (P : Z -> Prop) `{forall x, Decision (P x)} n a b :
  0 <= a -> b <= n -> (forall p, 0 <= p < n -> P p <-> a <= p < b) -> filter P (between 0 n) = between a b.
Proof.
  intros Ha Hb HP. destruct (decide (a <= b)) as [Hab|Hab].
  - rewrite (between_app 0 a n), (between_app a b n) by lia. rewrite !list.filter_app.
    rewrite (filter_none P (between 0 a)), (filter_all P (between a b)), (filter_none P (between b n));
      [by rewrite app_nil_r|..]; intros p Hp%elem_of_between; rewrite HP by lia; lia.
  - replace (between a b) with (@nil Z); [apply filter_none|].
    + intros p Hp%elem_of_between. rewrite HP by lia. lia.
    + unfold between. by replace (Z.to_nat (b - a)) with 0%nat by lia.
Qed.

(** The loops over the windows go exactly through those that contain the pixel. *)
Lemma window_bounds n k s y :
  0 < k <= n -> 0 < s -> n < 2 ^ 32 -> 0 <= y < n -> y + s < 2 ^ 32 ->
  exists a b, window_min y k s = Ok a /\ window_max y s (windows n k s) = Ok b /\
    between a b = containing n k s y.
Proof.
  intros Hk Hs Hn Hy Hys.
  assert (Hwin : 0 < windows n k s) by (apply windows_pos; done).
  assert (Hmax : window_max y s (windows n k s) = Ok (Z.min ((y + s) / s) (windows n k s))).
  { unfold window_max. rewrite uadd_small, udiv_Ok by lia. done. }
  assert (Hb : forall p, p < (y + s) / s <-> p * s <= y).
  { intros p. rewrite Z.lt_le_pred, <- Z.lt_le_pred. pose proof (Z.div_mod (y + s) s). pose proof (Z.mod_pos_bound (y + s) s).
    split; intros ?; nia. }
  set (a := if y <? k then 0 else (y - k + s) / s).
  assert (Ha : 0 <= a /\ forall p, 0 <= p -> a <= p <-> y < p * s + k).
  { subst a. destruct (Z.ltb_spec y k).
    - split; [lia|]. intros p Hp. nia.
    - split; [apply Z.div_pos; lia|]. intros p Hp.
      pose proof (Z.div_mod (y - k + s) s). pose proof (Z.mod_pos_bound (y - k + s) s). split; intros ?; nia. }
  exists a, (Z.min ((y + s) / s) (windows n k s)). split; [|split; [done|]].
  - unfold window_min, a. destruct (Z.ltb_spec y k); [done|].
    rewrite usub_small, uadd_small, udiv_Ok by lia. done.
  - symmetry. apply filter_between; [lia..|]. intros p Hp. destruct Ha as [_ Ha]. rewrite (Ha p) by lia.
    rewrite Z.min_glb_lt_iff, Hb. lia.
Qed.
Lemma elem_of_containing n k s y p : p ∈ containing n k s y <-> 0 <= p < windows n k s /\ p * s <= y < p * s + k.
Proof. unfold containing. rewrite list_elem_of_filter, elem_of_between. tauto. Qed.
Lemma at0_elem t w h l c y x :
  tensor_ok t -> tshape t = w :: h :: l -> 0 <= c < shape_size l -> 0 <= y < h -> 0 <= x < w ->
  at0 t c y x = Ok (elem t (c * h + y) x).
Proof.
  intros Ht E Hc Hy Hx. destruct (rows_cons t w (h :: l) Ht E) as [_ Hlen].
  change (shape_size (h :: l)) with (h * shape_size l) in Hlen.
  pose proof (below_mul c y (shape_size l) h Hc Hy).
  pose proof (below_mul (c * h + y) x (shape_size l * h) w) as Hi.
  unfold at0, elem. rewrite E. change (dim (w :: h :: l) 0) with w. change (dim (w :: h :: l) 1) with h.
  replace (w * h * c + w * y + x) with ((c * h + y) * w + x) by ring. apply idx_nth. lia.
Qed.

(** Unpooling: given the source, the pooled values and their gradient, every element can be
    evaluated, all reads being in bounds, and is the sum, over exactly the windows that contain
    the pixel, of the gradient of the window times the derivative of the reduction. *)
Lemma unpool_eval R src v g w h ch n k s :
  tensor_ok src -> tshape src = [w; h; ch; n] ->
  tensor_ok v -> tshape v = [windows w k s; windows h k s; ch; n] ->
  tensor_ok g -> tshape g = tshape v ->
  0 < k <= w -> k <= h -> 0 < s -> h + s < 2 ^ 32 -> w + s < 2 ^ 32 ->
  exists e, unpool R src v g k s = Ok e /\ eshape e = tshape src /\
    forall c y x, 0 <= c < ch * n -> 0 <= y < h -> 0 <= x < w ->
      Eval e (c * h + y) x =
      Ok (fold_left (fun val py => fold_left (fun val px =>
              f32_add val (f32_mul (PartialGrad R (elem src (c * h + y) x) (elem v (c * windows h k s + py) px))
                                   (elem g (c * windows h k s + py) px)))
            (containing w k s x) val) (containing h k s y) 0).
Proof.
  intros Hs E Hv Ev Hg Eg Hkw Hkh Hs0 Hhs Hws.
  assert (Hcn : shape_size [ch; n] = ch * n) by (unfold shape_size; simpl; ring).
  destruct (tensor_dims src w h [ch; n] Hs E) as (Hw & Hh & _ & _ & _).
  unfold unpool, Assert. rewrite Eg, E, Ev, bool_decide_true by done.
  cbn [CHECK mbind outcome_bind]. rewrite !(CHECK_holds (_ =? _)) by apply Z.eqb_refl. cbn [mbind outcome_bind].
  eexists. split; [done|]. split; [done|]. intros c y x Hc Hy Hx. cbn [Eval]. unfold unpool_plan.
  rewrite E, Ev. change (dim (w :: ?l) 0) with w. change (dim [w; h; ch; n] 1) with h.
  change (dim [windows w k s; windows h k s; ch; n] 0) with (windows w k s).
  change (dim [windows w k s; windows h k s; ch; n] 1) with (windows h k s).
  split_index. rewrite (at0_elem src w h [ch; n]) by (done || lia).
  destruct (window_bounds h k s y) as (ya & yb & Eya & Eyb & Ey); [lia..|].
  destruct (window_bounds w k s x) as (xa & xb & Exa & Exb & Ex); [lia..|].
  rewrite Eya, Exa. cbn [mbind outcome_bind]. rewrite Eyb, Exb. cbn [mbind outcome_bind]. rewrite Ey, Ex.
  apply fold_out_Ok. intros val py [Hpy _]%elem_of_containing. apply fold_out_Ok.
  intros val' px [Hpx _]%elem_of_containing.
  rewrite (at0_elem v (windows w k s) (windows h k s) [ch; n]) by (done || lia).
  by rewrite (at0_elem g (windows w k s) (windows h k s) [ch; n]) by (rewrite ?Eg; done || lia).
Qed.

(** ** Assignments *)
Lemma length_between a b : length (between a b) = Z.to_nat (b - a).
Proof. unfold between. by rewrite length_map, length_seq. Qed.
Lemma between_lookup a b k : 0 <= k < b - a -> between a b !! Z.to_nat k = Some (a + k).
Proof.
  intros H. unfold between. rewrite <- (Z2Nat.id k) at 2 by lia.
  change (map ?f ?l) with (f <$> l). rewrite list_lookup_fmap, lookup_seq_lt by lia. done.
Qed.
Lemma length_mjoin {A} n (ls : list (list A)) :
  Forall (fun r => length r = n) ls -> length (mjoin ls) = (length ls * n)%nat.
Proof. induction 1 as [|r ls Hr _ IH]; [done|]. simpl. rewrite length_app, Hr. by rewrite <- IH. Qed.
Lemma concat_mjoin {A} (ls : list (list A)) : concat ls = mjoin ls.
Proof. induction ls as [|l ls IH]; [done|]. simpl. by rewrite IH. Qed.
Section positions.
Context (w : Z) (l : list Z) (Hpos : Forall (fun n => 0 < n) (w :: l)) (Hsize : shape_size (w :: l) < 2 ^ 32).

Let row_list := map (fun y => map (fun x => (y, x)) (between 0 w)) (between 0 (shape_size l)).
Lemma positions_rows : positions (w :: l) = mjoin row_list.
Proof using Hpos Hsize.
  inversion Hpos as [|? ? Hw Hl]; subst. pose proof (shape_size_pos l Hl).
  assert (shape_size l < 2 ^ 32).
  { change (shape_size (w :: l)) with (w * shape_size l) in Hsize. clear -Hsize Hw H. nia. }
  unfold positions, rows. change (dim (w :: l) 0) with w. change (drop 1 (w :: l)) with l.
  rewrite ProdShape_small by done. apply concat_mjoin.
Qed.
Lemma row_list_length : Forall (fun r => length r = Z.to_nat w) row_list.
Proof. apply list.Forall_forall. intros r Hr. apply list_elem_of_In, in_map_iff in Hr as (y & <- & _).
  by rewrite length_map, length_between, Z.sub_0_r. Qed.
Lemma positions_lookup y x : 0 <= y < shape_size l -> 0 <= x < w ->
  positions (w :: l) !! Z.to_nat (y * w + x) = Some (y, x).
Proof using Hpos Hsize.
  intros Hy Hx. rewrite positions_rows. rewrite Z2Nat.inj_add, Z2Nat.inj_mul by nia.
  apply join_lookup_Some_same_length'; [apply row_list_length|lia|]. unfold row_list.
  exists (map (fun x => (y, x)) (between 0 w)).
  change (map ?f ?l) with (f <$> l). rewrite !list_lookup_fmap, !between_lookup by lia. done.
Qed.
Lemma length_positions : Z.of_nat (length (positions (w :: l))) = shape_size (w :: l).
Proof using Hpos Hsize.
  inversion Hpos as [|? ? Hw Hl]; subst. pose proof (shape_size_pos l Hl). rewrite positions_rows.
  rewrite (length_mjoin (Z.to_nat w)) by apply row_list_length.
  unfold row_list. rewrite length_map, length_between. change (shape_size (w :: l)) with (w * shape_size l). nia.
Qed.
Lemma elem_of_positions y x : (y, x) ∈ positions (w :: l) -> 0 <= y < shape_size l /\ 0 <= x < w.
Proof using Hpos Hsize.
  rewrite positions_rows, <- concat_mjoin. unfold row_list. intros Hin. apply list_elem_of_In, in_concat in Hin as (r & Hr & Hx).
  apply in_map_iff in Hr as (y' & <- & Hy%list_elem_of_In%elem_of_between).
  apply in_map_iff in Hx as (x' & [= <- <-] & Hx%list_elem_of_In%elem_of_between). lia.
Qed.
End positions.
