(* ===== verification/MshadowImages.v ===== *)
(** * Properties of mshadow's images: cropping, mirrors and patches

    Cropping undoes padding and mirroring undoes itself; the columns of patches of a
    convolution, and the sum that brings their gradients back to the image. *)

From Stdlib Require Import SpecFloat.
From S2P Require Import Prelude Float32 Memory Mshadow MshadowProps.

(** ** Cropping and mirrors *)

(** Cropping undoes padding: for an image of [h] by [w] pixels, any number of channels and any
    padding whose result [index_t] can count, [crop(pad(src, p), (h, w))] succeeds, has the shape
    of the image and the same elements, none of them from the border. *)
Theorem crop_pad (src : exp) (w h p : Z) (l : list Z)
    (Hs : eshape src = w :: h :: l) (Hw : 0 < w) (Hh : 0 < h) (Hp : 0 <= p)
    (Hwp : w + 2 * p < 2 ^ 32) (Hl : Forall (fun n => 0 < n) l) (Hhp : (h + 2 * p) * shape_size l < 2 ^ 32) :
  exists e, crop (pad src p) h w = Ok e /\ eshape e = eshape src /\
    forall c y x, 0 <= c < shape_size l -> 0 <= y < h -> 0 <= x < w ->
      Eval e (c * h + y) x = Eval src (c * h + y) x.
Proof.
  pose proof (shape_size_pos l Hl) as Hl0. assert (Hhp' : h + 2 * p < 2 ^ 32) by nia.
  unfold pad. rewrite Hs. change (drop 2 (?a :: ?b :: l)) with l. change (dim (w :: h :: l) 0) with w. change (dim (w :: h :: l) 1) with h.
  rewrite (umul_small p 2), !uadd_small by lia.
  unfold crop, Assert. cbn [eshape]. change (drop 2 (?a :: ?b :: l)) with l. change (dim (?a :: ?b :: l) 0) with a. change (dim (?a :: ?b :: l) 1) with b.
  rewrite !CHECK_holds by lia. cbn [mbind outcome_bind].
  eexists. split; [done|]. split; [done|]. intros c y x Hc Hy Hx. cbn [Eval]. unfold crop_plan, pad_plan.
  split_index. pose proof (below_mul c (p + y) (shape_size l) (h + p * 2)) as Hb.
  rewrite (usub_small (h + p * 2) h), (usub_small (w + p * 2) w) by lia. replace (h + p * 2 - h) with (p * 2) by lia. replace (w + p * 2 - w) with (p * 2) by lia.
  rewrite !Z.div_mul by lia. assert (0 <= c * (h + p * 2)) by nia.
  rewrite (umul_small c (h + p * 2)), (uadd_small y p), (uadd_small x p) by lia.
  rewrite (uadd_small (c * (h + p * 2)) (y + p)) by lia. split_index.
  rewrite (proj2 (Z.ltb_ge (y + p) p)), (proj2 (Z.ltb_ge (x + p) p)) by lia. simpl orb.
  rewrite !usub_small by lia. rewrite !Z.add_simpl_r, (proj2 (Z.ltb_lt y h)), (proj2 (Z.ltb_lt x w)) by lia.
  simpl andb. pose proof (below_mul c y (shape_size l) h Hc Hy). assert (0 <= c * h) by nia.
  assert (h * shape_size l <= (h + 2 * p) * shape_size l) by nia.
  rewrite umul_small by lia. by rewrite uadd_small by lia.
Qed.
Definition demo_image : tensor := mkTensor [2; 2; 1] [10; 20; 30; 40].
Lemma crop_pad_witness : exists e, crop (pad (tensor_exp demo_image) 3) 2 2 = Ok e /\
  eshape e = [2; 2; 1] /\ Eval e 1 0 = Ok 30.
Proof.
  destruct (crop_pad (tensor_exp demo_image) 2 2 3 [1]) as (e & E & Es & He); try done.
  - by repeat constructor.
  - exists e. split; [exact E|]. split; [exact Es|].
    refine (eq_trans (He 0 1 0 _ _ _) _); [vm_compute; intuition discriminate|lia|lia|reflexivity].
Defined.

(** Mirroring twice gives the image back. *)
Lemma mirror_mirror (src : exp) (w : Z) (l : list Z) (y x : Z) :
  eshape src = w :: l -> 0 <= x < w -> w < 2 ^ 32 -> Eval (mirror (mirror src)) y x = Eval src y x.
Proof.
  intros Hs Hx Hw. unfold mirror. cbn [eshape Eval]. rewrite Hs. change (dim (w :: l) 0) with w.
  rewrite (usub_small w x), (usub_small (w - x) 1) by lia.
  rewrite (usub_small w), usub_small by lia. f_equal. lia.
Qed.

(** ** Patches *)
Section patches.
Context (w h ch k s : Z) (l : list Z).
Context (Hw : 0 < w) (Hh : 0 < h) (Hch : 0 < ch) (Hl : Forall (fun n => 0 < n) l).
Context (Hkw : 0 < k <= w) (Hkh : k <= h) (Hs : 0 < s).
Context (Hsize : shape_size (w :: h :: ch :: l) < 2 ^ 32).
(** The matrix has one column per window and image, and one row per pixel of a patch. *)
Abbreviation oh := (windows h k s).
Abbreviation ow := (windows w k s).
Definition patch_row (c dy dx : Z) : Z := (c * k + dy) * k + dx.
Definition patch_col (n py px : Z) : Z := (n * oh + py) * ow + px.

Lemma windows_le n : k <= n -> windows n k s <= n.
Proof using Hkw Hs.
  intros Hn. unfold windows. assert ((n - k) / s <= n - k) by (apply Z.div_le_upper_bound; nia). lia.
Qed.
Lemma size_eq : shape_size (w :: h :: ch :: l) = w * h * ch * shape_size l.
Proof. change (w * (h * (ch * shape_size l)) = w * h * ch * shape_size l). ring. Qed.
Lemma image_row n c y : 0 <= n < shape_size l -> 0 <= c < ch -> 0 <= y < h ->
  uadd (umul (uadd (umul n ch) c) h) y = (n * ch + c) * h + y.
Proof using Hw Hh Hch Hl Hkw Hsize.
  intros Hn Hc Hy. rewrite size_eq in Hsize. pose proof (shape_size_pos l Hl).
  pose proof (below_mul n c (shape_size l) ch Hn Hc). pose proof (below_mul (n * ch + c) y (shape_size l * ch) h H0 Hy).
  assert (shape_size l * ch * h <= w * h * ch * shape_size l) by nia.
  assert (shape_size l * ch <= shape_size l * ch * h) by nia.
  assert (0 <= n * ch) by nia. assert (0 <= (n * ch + c) * h) by nia.
  rewrite (umul_small n ch), (uadd_small (n * ch) c) by lia. rewrite umul_small by lia. by rewrite uadd_small by lia.
Qed.
(** The wrap-around commutes with the operations. *)
Lemma pack_row c y py x px :
  usub (uadd (umul (usub (uadd (umul c k) y) (umul py s)) k) x) (umul px s)
  = u32 (patch_row c (y - py * s) (x - px * s)).
Proof.
  unfold usub, uadd, umul, u32, patch_row.
  repeat first [ rewrite Zminus_mod_idemp_r | rewrite Zminus_mod_idemp_l | rewrite Zplus_mod_idemp_l
               | rewrite Zplus_mod_idemp_r | rewrite Zmult_mod_idemp_l ].
  rewrite <- (Z.add_sub_assoc _ x), Zplus_mod_idemp_l, (Z.mod_eq (c * k) (2 ^ 32)) by lia.
  rewrite <- (Z_mod_plus_full _ (c * k / 2 ^ 32 * k)). f_equal. ring.
Qed.

(** [unpack_patch2col]: the matrix must have less than 2^32 rows and columns. *)
Context (Hrows : k * k * ch < 2 ^ 32) (Hcols : oh * ow * shape_size l < 2 ^ 32).
Lemma image_dims : 0 < shape_size l /\ w < 2 ^ 32 /\ h < 2 ^ 32 /\ 0 < ow <= w /\ 0 < oh <= h.
Proof using Hw Hh Hch Hl Hkw Hkh Hs Hsize.
  pose proof (shape_size_pos l Hl). rewrite size_eq in Hsize.
  assert (0 < w * h * ch) by nia. assert (0 < h * ch) by nia.
  assert (w * h * ch * shape_size l >= w) by nia. assert (w * h * ch * shape_size l >= h) by nia.
  pose proof (windows_pos w k s Hkw Hs). pose proof (windows_pos h k s ltac:(lia) Hs).
  pose proof (windows_le w ltac:(lia)). pose proof (windows_le h Hkh). split_and!; lia.
Qed.
Lemma unpack_shape img : eshape img = w :: h :: ch :: l ->
  unpack_patch2col img k s =
    Ok (mkExp [oh * ow * shape_size l; k * k * ch] (unpack_plan (Eval img) k s ch h w oh ow)).
Proof using Hw Hh Hch Hl Hkw Hkh Hs Hsize Hrows Hcols.
  intros E. destruct image_dims as (Hl0 & Hw' & Hh' & How & Hoh).
  unfold unpack_patch2col, Assert. rewrite E. change (dim (w :: h :: ch :: l) 0) with w.
  change (dim (w :: h :: ch :: l) 1) with h. change (dim (w :: h :: ch :: l) 2) with ch.
  change (drop 3 (w :: h :: ch :: l)) with l.
  rewrite (CHECK_holds ((k <=? w) && (k <=? h))) by lia. cbn [mbind outcome_bind].
  rewrite !pooled_windows by lia. cbn [mbind outcome_bind].
  rewrite size_eq in Hsize. assert (0 < w * h) by nia. assert (0 < w * h * ch) by nia.
  assert (shape_size l <= w * h * ch * shape_size l) by nia.
  rewrite ProdShape_small by (done || lia). assert (0 < oh * ow) by nia. assert (oh * ow <= oh * ow * shape_size l) by nia.
  assert (k * k <= k * k * ch) by nia. assert (0 <= k * k) by nia.
  rewrite (umul_small oh), (umul_small k) by lia. rewrite !umul_small by nia. done.
Qed.
(** Row [(c, dy, dx)] and column [(n, py, px)] hold pixel [(n, c, py * s + dy, px * s + dx)]. *)
Lemma unpack_eval img e : eshape img = w :: h :: ch :: l -> unpack_patch2col img k s = Ok e ->
  forall n c py px dy dx, 0 <= n < shape_size l -> 0 <= c < ch -> 0 <= py < oh -> 0 <= px < ow ->
    0 <= dy < k -> 0 <= dx < k ->
    Eval e (patch_row c dy dx) (patch_col n py px) = Eval img ((n * ch + c) * h + (py * s + dy)) (px * s + dx).
Proof using Hw Hh Hch Hl Hkw Hkh Hs Hsize Hrows Hcols.
  intros E He n c py px dy dx Hn Hc Hpy Hpx Hdy Hdx. rewrite (unpack_shape img E) in He. injection He as <-.
  destruct image_dims as (Hl0 & Hw' & Hh' & How & Hoh). cbn [Eval]. unfold unpack_plan, patch_row, patch_col.
  split_index. pose proof (windows_end h k s py ltac:(lia) Hs Hpy). pose proof (windows_end w k s px Hkw Hs Hpx).
  assert (0 <= py * s) by nia. assert (0 <= px * s) by nia.
  rewrite (umul_small px s), (umul_small py s) by lia. rewrite (uadd_small (px * s)), (uadd_small (py * s)) by lia.
  rewrite (proj2 (Z.ltb_lt _ w)), (proj2 (Z.ltb_lt _ h)) by lia. simpl andb.
  rewrite image_row by lia. done.
Qed.

(** What [pack_col2patch] sums for the pixel [(y, x)] of channel [c] of image [n]: the entries of
    the matrix that hold the pixel, one for each window it lies in. *)
Definition packed_value (m : tensor) (n c y x : Z) : Z :=
  fold_left (fun res py => fold_left (fun res px =>
      f32_add res (elem m (patch_row c (y - py * s) (x - px * s)) (patch_col n py px)))
    (containing w k s x) res) (containing h k s y) 0.
Context (Hhs : h + s < 2 ^ 32) (Hws : w + s < 2 ^ 32).
Lemma patch_col_small n py px : 0 <= n < shape_size l -> 0 <= py < oh -> 0 <= px < ow ->
  uadd (umul (uadd (umul n oh) py) ow) px = patch_col n py px /\ 0 <= patch_col n py px < oh * ow * shape_size l.
Proof using Hw Hh Hch Hl Hkw Hkh Hs Hsize Hcols.
  intros Hn Hpy Hpx. destruct image_dims as (Hl0 & Hw' & Hh' & How & Hoh).
  pose proof (below_mul n py (shape_size l) oh Hn Hpy) as H1.
  pose proof (below_mul (n * oh + py) px (shape_size l * oh) ow H1 Hpx) as H2. unfold patch_col.
  assert (shape_size l * oh <= shape_size l * oh * ow) by nia. assert (0 <= n * oh) by nia.
  assert (0 <= (n * oh + py) * ow) by nia.
  rewrite (umul_small n), (uadd_small (n * oh)) by lia. rewrite umul_small by lia. rewrite uadd_small by lia. lia.
Qed.
Lemma patch_row_small c dy dx : 0 <= c < ch -> 0 <= dy < k -> 0 <= dx < k ->
  u32 (patch_row c dy dx) = patch_row c dy dx /\ 0 <= patch_row c dy dx < k * k * ch.
Proof using Hrows.
  intros Hc Hdy Hdx. pose proof (below_mul c dy ch k Hc Hdy) as H1.
  pose proof (below_mul (c * k + dy) dx (ch * k) k H1 Hdx) as H2. unfold patch_row. rewrite u32_small by lia. lia.
Qed.
Lemma pack_eval m : tensor_ok m -> tshape m = [oh * ow * shape_size l; k * k * ch] ->
  exists g, pack_col2patch m (w :: h :: ch :: l) k s = Ok g /\ eshape g = w :: h :: ch :: l /\
    forall n c y x, 0 <= n < shape_size l -> 0 <= c < ch -> 0 <= y < h -> 0 <= x < w ->
      Eval g ((n * ch + c) * h + y) x = Ok (packed_value m n c y x).
Proof using Hw Hh Hch Hl Hkw Hkh Hs Hsize Hrows Hcols Hhs Hws.
  intros Hm E. destruct image_dims as (Hl0 & Hw' & Hh' & How & Hoh).
  assert (0 < oh * ow) by nia. assert (oh * ow <= oh * ow * shape_size l) by nia.
  assert (k * k <= k * k * ch) by nia. assert (0 <= k * k) by nia.
  pose proof Hsize as Hsz. rewrite size_eq in Hsz. assert (0 < w * h) by nia. assert (0 < w * h * ch) by nia.
  assert (shape_size l <= w * h * ch * shape_size l) by nia.
  unfold pack_col2patch, Assert. change (dim (w :: h :: ch :: l) 0) with w.
  change (dim (w :: h :: ch :: l) 1) with h. change (dim (w :: h :: ch :: l) 2) with ch.
  change (drop 3 (w :: h :: ch :: l)) with l. rewrite (CHECK_holds ((k <=? w) && (k <=? h))) by lia.
  cbn [mbind outcome_bind]. rewrite !pooled_windows by lia. cbn [mbind outcome_bind].
  rewrite ProdShape_small, E by (done || lia). change (dim [?a; ?b] 0) with a. change (dim [?a; ?b] 1) with b.
  rewrite (umul_small oh), (umul_small k) by lia. rewrite !umul_small by nia.
  rewrite !CHECK_holds by apply Z.eqb_refl. cbn [mbind outcome_bind].
  eexists. split; [done|]. split; [done|]. intros n c y x Hn Hc Hy Hx. cbn [Eval]. unfold pack_plan. split_index.
  destruct (window_bounds h k s y) as (ya & yb & Eya & Eyb & Ey); [lia..|].
  destruct (window_bounds w k s x) as (xa & xb & Exa & Exb & Ex); [lia..|].
  rewrite Eya, Exa. cbn [mbind outcome_bind]. rewrite Eyb, Exb. cbn [mbind outcome_bind]. rewrite Ey, Ex, E.
  change (dim [?a; ?b] 0) with a. unfold packed_value.
  apply fold_out_Ok. intros res py [Hpy Hdy]%elem_of_containing. apply fold_out_Ok.
  intros res' px [Hpx Hdx]%elem_of_containing. rewrite pack_row.
  destruct (patch_row_small c (y - py * s) (x - px * s)) as [-> Hr]; [lia..|].
  destruct (patch_col_small n py px) as [-> Hcol]; [lia..|].
  rewrite Z.mul_comm. destruct (rows_cons m _ _ Hm E) as [_ Hlen].
  change (shape_size [k * k * ch]) with (k * k * ch * 1) in Hlen.
  rewrite idx_nth; [unfold elem; by rewrite E|].
  pose proof (below_mul (patch_row c (y - py * s) (x - px * s)) (patch_col n py px) (k * k * ch) (oh * ow * shape_size l)). lia.
Qed.

(** The patches of a convolution.  [unpack_patch2col] lays out the image in columns: the row
    of channel [c] and offset [(dy, dx)] and the column of window [(py, px)] of image [n] hold
    the pixel at [(py * stride + dy, px * stride + dx)], which is in the image.
    [pack_col2patch] is its transpose: the pixel gets the sum of exactly the entries that hold
    it, one for each window it lies in. *)
Theorem patches_transpose (img : exp) (m : tensor) (Himg : eshape img = w :: h :: ch :: l)
    (Hm : tensor_ok m) (Hms : tshape m = [oh * ow * shape_size l; k * k * ch]) :
  exists e g, unpack_patch2col img k s = Ok e /\ eshape e = tshape m /\
    pack_col2patch m (eshape img) k s = Ok g /\ eshape g = eshape img /\
    (forall n c py px dy dx, 0 <= n < shape_size l -> 0 <= c < ch -> 0 <= py < oh -> 0 <= px < ow ->
      0 <= dy < k -> 0 <= dx < k ->
      py * s + dy < h /\ px * s + dx < w /\
      Eval e (patch_row c dy dx) (patch_col n py px) = Eval img ((n * ch + c) * h + (py * s + dy)) (px * s + dx)) /\
    (forall n c y x, 0 <= n < shape_size l -> 0 <= c < ch -> 0 <= y < h -> 0 <= x < w ->
      Eval g ((n * ch + c) * h + y) x = Ok (packed_value m n c y x)).
Proof using Hw Hh Hch Hl Hkw Hkh Hs Hsize Hrows Hcols Hhs Hws.
  destruct (pack_eval m Hm Hms) as (g & Eg & Esg & Hg).
  rewrite Himg. eexists _, g. rewrite (unpack_shape img Himg). split; [done|]. split; [by rewrite Hms|]. split; [done|]. split; [done|].
  split; [|done]. intros n c py px dy dx Hn Hc Hpy Hpx Hdy Hdx.
  pose proof (windows_end h k s py ltac:(lia) Hs Hpy). pose proof (windows_end w k s px Hkw Hs Hpx).
  split; [lia|]. split; [lia|]. apply unpack_eval; [done|by apply unpack_shape|done..].
Qed.
End patches.

(** An image of 2 by 3 pixels, windows of 2 by 2: the pixels in the middle lie in both. *)
Definition demo_columns : tensor := mkTensor [2; 4] (map f32_of_Z [1; 2; 3; 4; 5; 6; 7; 8]).
Lemma patches_transpose_witness : exists e g,
  unpack_patch2col (tensor_exp (mkTensor [3; 2; 1] [10; 20; 30; 40; 50; 60])) 2 1 = Ok e /\
  pack_col2patch demo_columns [3; 2; 1] 2 1 = Ok g /\
  Eval e 2 1 = Ok 50 /\ Eval g 0 1 = Ok (f32_add (f32_of_Z 3) (f32_of_Z 2)).
Proof.
  destruct (patches_transpose 3 2 1 2 1 [] ltac:(lia) ltac:(lia) ltac:(lia) ltac:(constructor) ltac:(lia) ltac:(lia)
    ltac:(lia) eq_refl eq_refl eq_refl eq_refl eq_refl (tensor_exp (mkTensor [3; 2; 1] [10; 20; 30; 40; 50; 60]))
    demo_columns eq_refl) as (e & g & Ee & _ & Eg & _ & He & Hg).
  - split; [by repeat constructor|reflexivity|reflexivity].
  - reflexivity.
  - exists e, g. split; [exact Ee|]. split; [exact Eg|]. split.
    + refine (eq_trans (proj2 (proj2 (He 0 0 0 1 1 0 _ _ _ _ _ _))) _); vm_compute; intuition discriminate.
    + refine (eq_trans (Hg 0 0 0 1 _ _ _ _) _); vm_compute; intuition discriminate.
Defined.
