(* ===== verification/LayerMath.v ===== *)
(** * neuralnet/layer.cc: the layers that compute with mshadow

    [ComputeFeature] and [ComputeGradient] of the layers that multiply matrices, convolve,
    pool, normalise or sample.  A tensor is a pointer into the memory of a blob and a shape:
    it is read when an expression is evaluated, and written by the assignment.  The numbers
    mshadow's generator draws in a call are an argument, [u k] the [k]-th. *)

From Stdlib Require Import SpecFloat.
From S2P Require Import Prelude Float32 Metric Msg Format Memory Param Server Worker LayerConf Layers LayerCompute Mshadow.

(** ** Tensors of blobs *)
Record ten := mkTen { dptr : Z; tenshape : list Z }.
(** The values of a tensor in memory. *)
Definition get (t : ten) (h : heap) : outcome tensor :=
  bytes ← load h (dptr t) (sizeof_float * shape_size (tenshape t));
  Ok (mkTensor (tenshape t) (f32s_of_bytes bytes)).
Definition put (t : ten) (v : tensor) (h : heap) : outcome heap := store h (dptr t) (bytes_of_f32s (tvals v)).
(** [t[k]] *)
Definition sub_ten (t : ten) (k : Z) : ten :=
  let s := removelast (tenshape t) in mkTen (dptr t + sizeof_float * (shape_size s * k)) s.

(** [b->mutable_cpu_data()] with a shape, its highest dimension first as in [Shape4]. *)
Definition make_ten (b : Blob) (dims : list Z) (h : heap) : outcome (heap * ten) :=
  '(h, p) ← mutable_cpu_data b h; Ok (h, mkTen p (map u32 (rev dims))).
Definition Tensor4 (b : Blob) (h : heap) : outcome (heap * ten) :=
  s0 ← idx (shape_ b) 0; s1 ← idx (shape_ b) 1; s2 ← idx (shape_ b) 2; s3 ← idx (shape_ b) 3;
  make_ten b [s0; s1; s2; s3] h.
Definition Tensor3 (b : Blob) (h : heap) : outcome (heap * ten) :=
  s0 ← idx (shape_ b) 0; s1 ← idx (shape_ b) 1;
  q ← idiv (count_ b) s0; q ← idiv q s1;
  make_ten b [s0; s1; q] h.
Definition Tensor2 (b : Blob) (h : heap) : outcome (heap * ten) :=
  s0 ← idx (shape_ b) 0; q ← idiv (count_ b) s0;
  make_ten b [s0; q] h.
Definition Tensor1 (b : Blob) (h : heap) : outcome (heap * ten) := make_ten b [count_ b] h.

(** [t = e], [t += e] and so on; [t = s] for a scalar. *)
Definition assign (Save : Z -> Z -> Z) (t : ten) (e : exp) (h : heap) : outcome heap :=
  d ← get t h; d ← MapExp Save d e; put t d h.
Definition assign_dot `{B : Blas} (alpha beta : Z) (t l : ten) (ltrans : bool) (r : ten) (rtrans : bool) (h : heap)
    : outcome heap :=
  d ← get t h; l ← get l h; r ← get r h;
  d ← dot alpha beta d l ltrans r rtrans; put t d h.
Definition f32_minus_one : Z := f32_neg f32_one.

(** ** Neighbours and params *)

(** [srclayers_[k]->mutable_data(this, phase)] *)
Definition src_mutable (i k : Z) (phase : Phase) (s : nstate) : outcome Blob :=
  o ← obj i s; j ← idx (osrcs o) k; b ← mutable_data (chain s) j (Some i) phase s; deref b.
Definition the_param (i : Z) (s : nstate) : outcome Param := deref (params (nworld s) !! i).
Definition param_data (i : Z) (s : nstate) (h : heap) : outcome Blob := p ← the_param i s; data_blob p h.
Definition param_grad (i : Z) (s : nstate) : outcome Blob := p ← the_param i s; Ok (Param.grad p).

(** ** Functions of one element *)
Section maths.
Context `{M : Mathf}.
Definition sigmoid (a : Z) : Z := f32_div f32_one (f32_add f32_one (expf (f32_neg a))).
Definition square (a : Z) : Z := f32_mul a a.
Definition decimal (n d : Z) : spec_float := f64_div (f64_of_Z n) (f64_of_Z d).
Definition c_1_7159047 : spec_float := decimal 17159047 10000000.
Definition c_0_66666667 : spec_float := decimal 66666667 100000000.
Definition stanh (a : Z) : Z :=
  f32_of_f64 (f64_mul c_1_7159047 (f64_of_f32 (tanhf (f32_of_f64 (f64_mul c_0_66666667 (f64_of_f32 a)))))).
Definition stanh_grad (a : Z) : Z :=
  let a := f64_of_f32 a in
  f32_of_f64 (f64_sub (f64_mul c_0_66666667 c_1_7159047) (f64_mul (f64_mul (f64_div c_0_66666667 c_1_7159047) a) a)).
Definition threshold (a b : Z) : Z := if f32_ltb a b then f32_one else 0.
(** [Random::SampleBinary]: one draw per element *)
Definition SampleBinary (u : Z -> Z) (t : ten) (h : heap) : outcome heap :=
  d ← get t h;
  put t (mkTensor (tshape d) (imap (fun k v => if f32_ltb v (u (Z.of_nat k)) then 0 else f32_one) (tvals d))) h.
(** [Random::uniform] *)
Definition uniform (u : Z -> Z) (shape : list Z) : exp :=
  mkExp shape (fun y x => Ok (u (uadd (umul y (dim shape 0)) x))).
End maths.

(** ** Convolution *)
Section layers.
Context `{B : Blas} `{M : Mathf}.

(** [unpack_patch2col(pad(src[n], pad_), ...)], or without [pad] *)
Definition patches (src : ten) (n pad_ kernel_ stride_ : Z) (h : heap) : outcome exp :=
  img ← get (sub_ten src n) h;
  unpack_patch2col (if 0 <? pad_ then pad (tensor_exp img) (u32 pad_) else tensor_exp img)
    (u32 kernel_) (u32 stride_).
Fixpoint convolve (src data col weight : ten) (pad_ kernel_ stride_ : Z) (ns : list Z) (h : heap) : outcome heap :=
  match ns with
  | [] => Ok h
  | n :: ns =>
      e ← patches src n pad_ kernel_ stride_ h;
      h ← assign saveto col e h;
      h ← assign_dot f32_one 0 (sub_ten data n) weight false col false h;
      convolve src data col weight pad_ kernel_ stride_ ns h
  end.
Definition Convolution_ComputeFeature (i : Z) (s : nstate) : outcome nstate :=
  o ← obj i s;
  match osub o with
  | ConvolutionSub kernel_ pad_ stride_ _ batchsize_ _ _ _ _ _ _ _ col_data_ _ weight_ bias_ =>
      sb ← src_mutable i 0 kPositive s;
      '(h, src) ← Tensor4 sb (nheap s);
      '(h, data) ← Tensor3 (odata o) h;
      '(h, col) ← Tensor2 col_data_ h;
      wb ← param_data weight_ s h; '(h, weight) ← Tensor2 wb h;
      bb ← param_data bias_ s h; '(h, bias) ← Tensor1 bb h;
      h ← convolve src data col weight pad_ kernel_ stride_ (upto batchsize_) h;
      b ← get bias h;
      e ← broadcast1 b (tenshape data);
      h ← assign plusto data e h;
      Ok (set_nheap h s)
  | _ => Undef
  end.

Fixpoint convolve_grad (src col weight grad gcol gweight : ten) (gsrc : option ten) (padshp : list Z)
    (height_ width_ pad_ kernel_ stride_ : Z) (ns : list Z) (h : heap) : outcome heap :=
  match ns with
  | [] => Ok h
  | n :: ns =>
      e ← patches src n pad_ kernel_ stride_ h;
      h ← assign saveto col e h;
      h ← assign_dot f32_one f32_one gweight (sub_ten grad n) false col true h;
      h ← (match gsrc with
           | Some gsrc =>
               h ← assign_dot f32_one 0 gcol weight true (sub_ten grad n) false h;
               m ← get gcol h;
               e ← pack_col2patch m padshp (u32 kernel_) (u32 stride_);
               e ← crop e (u32 height_) (u32 width_);
               assign saveto (sub_ten gsrc n) e h
           | None => Ok h
           end);
      convolve_grad src col weight grad gcol gweight gsrc padshp height_ width_ pad_ kernel_ stride_ ns h
  end.
Definition Convolution_ComputeGradient (i : Z) (s : nstate) : outcome nstate :=
  o ← obj i s;
  match osub o with
  | ConvolutionSub kernel_ pad_ stride_ _ batchsize_ channels_ height_ width_ _ _ _ _ col_data_ col_grad_ weight_ bias_ =>
      sb ← src_mutable i 0 kPositive s;
      '(h, src) ← Tensor4 sb (nheap s);
      '(h, col) ← Tensor2 col_data_ h;
      wb ← param_data weight_ s h; '(h, weight) ← Tensor2 wb h;
      '(h, grad) ← Tensor3 (ograd o) h;
      '(h, gcol) ← Tensor2 col_grad_ h;
      gw ← param_grad weight_ s; '(h, gweight) ← Tensor2 gw h;
      gb ← param_grad bias_ s; '(h, gbias) ← Tensor1 gb h;
      gsrcblob ← src_mutable_grad i 0 s;
      let shape := map u32 [width_; height_; channels_; batchsize_] in
      '(h, gsrc) ← (match gsrcblob with
                    | Some b => '(h, p) ← mutable_cpu_data b h; Ok (h, Some (mkTen p shape))
                    | None => Ok (h, None)
                    end);
      g ← get grad h; d ← get gbias h;
      d ← MapReduceKeepDim1 saveto red_sum d (tensor_exp g) f32_one;
      h ← put gbias d h;
      h ← assign saveto gweight (ScalarExp 0) h;
      pad2 ← imul 2 pad_;
      let padshp := [uadd (dim shape 0) (u32 pad2); uadd (dim shape 1) (u32 pad2); dim shape 2] in
      h ← convolve_grad src col weight grad gcol gweight gsrc padshp height_ width_ pad_ kernel_ stride_
            (upto batchsize_) h;
      Ok (set_nheap h s)
  | _ => Undef
  end.

(** ** Inner products *)

(** [t += repmat(bias, n)] *)
Definition add_rows (t bias : ten) (n : Z) (h : heap) : outcome heap :=
  b ← get bias h; assign plusto t (repmat b (u32 n)) h.
(** [t = sum_rows(m)], [t -= sum_rows(m)] *)
Definition assign_sum_rows (Save : Z -> Z -> Z) (t m : ten) (h : heap) : outcome heap :=
  d ← get t h; m ← get m h;
  d ← MapReduceKeepLowest Save red_sum d (tensor_exp m) f32_one;
  put t d h.
Definition InnerProduct_ComputeFeature (i : Z) (s : nstate) : outcome nstate :=
  o ← obj i s;
  match osub o with
  | InnerProductSub _ _ batchsize_ weight_ bias_ =>
      '(h, data) ← Tensor2 (odata o) (nheap s);
      sb ← src_mutable i 0 kPositive s; '(h, src) ← Tensor2 sb h;
      wb ← param_data weight_ s h; '(h, weight) ← Tensor2 wb h;
      bb ← param_data bias_ s h; '(h, bias) ← Tensor1 bb h;
      h ← assign_dot f32_one 0 data src false weight false h;
      h ← add_rows data bias batchsize_ h;
      Ok (set_nheap h s)
  | _ => Undef
  end.
Definition InnerProduct_ComputeGradient (i : Z) (s : nstate) : outcome nstate :=
  o ← obj i s;
  match osub o with
  | InnerProductSub _ _ _ weight_ bias_ =>
      sb ← src_mutable i 0 kPositive s; '(h, src) ← Tensor2 sb (nheap s);
      '(h, grad) ← Tensor2 (ograd o) h;
      wb ← param_data weight_ s h; '(h, weight) ← Tensor2 wb h;
      gw ← param_grad weight_ s; '(h, gweight) ← Tensor2 gw h;
      gb ← param_grad bias_ s; '(h, gbias) ← Tensor1 gb h;
      h ← assign_sum_rows saveto gbias grad h;
      h ← assign_dot f32_one 0 gweight src true grad false h;
      g ← src_mutable_grad i 0 s;
      h ← (match g with
           | Some gb => '(h, gsrc) ← Tensor2 gb h; assign_dot f32_one 0 gsrc grad false weight true h
           | None => Ok h
           end);
      Ok (set_nheap h s)
  | _ => Undef
  end.

(** ** Pooling *)
Definition Pooling_ComputeFeature (i : Z) (s : nstate) : outcome nstate :=
  o ← obj i s;
  match osub o with
  | PoolingSub kernel_ stride_ pool_ _ _ _ _ _ _ =>
      sb ← src_mutable i 0 kPositive s; '(h, src) ← Tensor4 sb (nheap s);
      '(h, data) ← Tensor4 (odata o) h;
      v ← get src h;
      e ← (match pool_ with
           | MAX => pool red_maximum (tensor_exp v) (u32 kernel_) (u32 stride_)
           | AVE =>
               e ← pool red_sum (tensor_exp v) (u32 kernel_) (u32 stride_);
               k2 ← imul kernel_ kernel_;
               e_mul e (ScalarExp (f32_div f32_one (f32_of_Z k2)))
           end);
      h ← assign saveto data e h;
      Ok (set_nheap h s)
  | _ => Undef
  end.
Definition Pooling_ComputeGradient (i : Z) (s : nstate) : outcome nstate :=
  o ← obj i s;
  match osub o with
  | PoolingSub kernel_ stride_ pool_ _ _ _ _ _ _ =>
      sb ← src_mutable i 0 kPositive s; '(h, src) ← Tensor4 sb (nheap s);
      g ← src_mutable_grad i 0 s; gb ← deref g; '(h, gsrc) ← Tensor4 gb h;
      '(h, data) ← Tensor4 (odata o) h;
      '(h, grad) ← Tensor4 (ograd o) h;
      v ← get src h; d ← get data h; g ← get grad h;
      e ← (match pool_ with
           | MAX => unpool red_maximum v d g (u32 kernel_) (u32 stride_)
           | AVE =>
               e ← unpool red_sum v d g (u32 kernel_) (u32 stride_);
               k2 ← imul kernel_ kernel_;
               e_mul e (ScalarExp (f32_div f32_one (f32_of_Z k2)))
           end);
      h ← assign saveto gsrc e h;
      Ok (set_nheap h s)
  | _ => Undef
  end.

(** ** Local response normalisation *)
Definition LRN_ComputeFeature (i : Z) (s : nstate) : outcome nstate :=
  o ← obj i s;
  match osub o with
  | LRNSub lsize_ alpha_ beta_ knorm_ _ _ _ _ norm_ =>
      let salpha := f32_div alpha_ (f32_of_Z lsize_) in
      sb ← src_mutable i 0 kPositive s; '(h, src) ← Tensor4 sb (nheap s);
      '(h, data) ← Tensor4 (odata o) h;
      '(h, norm) ← Tensor4 norm_ h;
      v ← get src h;
      e ← chpool red_sum (UnaryMapExp square (tensor_exp v)) (u32 lsize_);
      e ← e_mul e (ScalarExp salpha);
      e ← e_add e (ScalarExp knorm_);
      h ← assign saveto norm e h;
      v ← get src h; w ← get norm h;
      p ← BinaryMapExp powf (tensor_exp w) (ScalarExp (f32_neg beta_));
      e ← e_mul (tensor_exp v) p;
      h ← assign saveto data e h;
      Ok (set_nheap h s)
  | _ => Undef
  end.
Definition LRN_ComputeGradient (i : Z) (s : nstate) : outcome nstate :=
  o ← obj i s;
  match osub o with
  | LRNSub lsize_ alpha_ beta_ _ _ _ _ _ norm_ =>
      let salpha := f32_div alpha_ (f32_of_Z lsize_) in
      sb ← src_mutable i 0 kPositive s; '(h, src) ← Tensor4 sb (nheap s);
      '(h, norm) ← Tensor4 norm_ h;
      '(h, grad) ← Tensor4 (ograd o) h;
      g ← src_mutable_grad i 0 s; gb ← deref g; '(h, gsrc) ← Tensor4 gb h;
      v ← get src h; w ← get norm h; g ← get grad h;
      p ← BinaryMapExp powf (tensor_exp w) (ScalarExp (f32_neg beta_));
      e ← e_mul (tensor_exp g) p;
      h ← assign saveto gsrc e h;
      v ← get src h; w ← get norm h; g ← get grad h;
      p ← BinaryMapExp powf (tensor_exp w) (ScalarExp (f32_sub (f32_neg beta_) f32_one));
      e ← e_mul (tensor_exp g) (tensor_exp v);
      e ← e_mul e p;
      e ← chpool red_sum e (u32 lsize_);
      e ← e_mul (ScalarExp (f32_mul (f32_mul (f32_neg (f32_of_Z 2)) beta_) salpha)) e;
      e ← e_mul e (tensor_exp v);
      h ← assign plusto gsrc e h;
      Ok (set_nheap h s)
  | _ => Undef
  end.

(** ** Dropout *)
Definition Dropout_ComputeFeature (u : Z -> Z) (i : Z) (phase : Phase) (s : nstate) : outcome nstate :=
  o ← obj i s;
  match osub o with
  | DropoutSub pdrop_ mask_ =>
      if negb (bool_decide (phase = kTrain)) then
        sb ← src_data i 0 kPositive s;
        '(h, b) ← CopyFrom (odata o) sb false (nheap s);
        Ok (set_nheap h (put_obj i (set_data b o) s))
      else
        let pkeep := f32_sub f32_one pdrop_ in
        '(h, mask) ← Tensor1 mask_ (nheap s);
        e ← BinaryMapExp threshold (uniform u (tenshape mask)) (ScalarExp pkeep);
        e ← e_mul e (ScalarExp (f32_div f32_one pkeep));
        h ← assign saveto mask e h;
        '(h, data) ← Tensor1 (odata o) h;
        sb ← src_mutable i 0 kPositive s; '(h, src) ← Tensor1 sb h;
        v ← get src h; m ← get mask h;
        e ← e_mul (tensor_exp v) (tensor_exp m);
        h ← assign saveto data e h;
        Ok (set_nheap h s)
  | _ => Undef
  end.
Definition Dropout_ComputeGradient (i : Z) (s : nstate) : outcome nstate :=
  o ← obj i s;
  match osub o with
  | DropoutSub _ mask_ =>
      '(h, mask) ← Tensor1 mask_ (nheap s);
      '(h, grad) ← Tensor1 (ograd o) h;
      g ← src_mutable_grad i 0 s; gb ← deref g; '(h, gsrc) ← Tensor1 gb h;
      g ← get grad h; m ← get mask h;
      e ← e_mul (tensor_exp g) (tensor_exp m);
      h ← assign saveto gsrc e h;
      Ok (set_nheap h s)
  | _ => Undef
  end.

(** ** ReLU and Tanh *)
Definition relu (a : Z) : Z := if f32_ltb a 0 then 0 else a.
Definition relu_grad (a : Z) : Z := if f32_ltb 0 a then f32_one else 0.
Definition ReLU_ComputeFeature (i : Z) (s : nstate) : outcome nstate :=
  o ← obj i s;
  '(h, data) ← Tensor1 (odata o) (nheap s);
  sb ← src_mutable i 0 kPositive s; '(h, src) ← Tensor1 sb h;
  v ← get src h;
  h ← assign saveto data (UnaryMapExp relu (tensor_exp v)) h;
  Ok (set_nheap h s).
Definition ReLU_ComputeGradient (i : Z) (s : nstate) : outcome nstate :=
  o ← obj i s;
  '(h, data) ← Tensor1 (odata o) (nheap s);
  '(h, grad) ← Tensor1 (ograd o) h;
  g ← src_mutable_grad i 0 s; gb ← deref g; '(h, gsrc) ← Tensor1 gb h;
  d ← get data h; g ← get grad h;
  e ← e_mul (UnaryMapExp relu_grad (tensor_exp d)) (tensor_exp g);
  h ← assign saveto gsrc e h;
  Ok (set_nheap h s).
Definition Tanh_ComputeFeature (i : Z) (s : nstate) : outcome nstate :=
  o ← obj i s;
  '(h, data) ← Tensor1 (odata o) (nheap s);
  sb ← src_mutable i 0 kPositive s; '(h, src) ← Tensor1 sb h;
  v ← get src h;
  h ← assign saveto data (UnaryMapExp stanh (tensor_exp v)) h;
  Ok (set_nheap h s).
Definition Tanh_ComputeGradient (i : Z) (s : nstate) : outcome nstate :=
  o ← obj i s;
  '(h, data) ← Tensor1 (odata o) (nheap s);
  '(h, grad) ← Tensor1 (ograd o) h;
  g ← src_mutable_grad i 0 s; gb ← deref g; '(h, gsrc) ← Tensor1 gb h;
  d ← get data h; g ← get grad h;
  e ← e_mul (UnaryMapExp stanh_grad (tensor_exp d)) (tensor_exp g);
  h ← assign saveto gsrc e h;
  Ok (set_nheap h s).

(** ** Restricted Boltzmann machines *)

(** [Copy(dst, src)] *)
Definition copy_ten (dst src : ten) (h : heap) : outcome heap :=
  d ← get dst h; v ← get src h; d ← Copy d v; put dst d h.
(** [t = dot(l, r); t += repmat(bias, n); t = F<op::sigmoid>(t)] *)
Definition assign_sigmoid (t l r : ten) (rtrans : bool) (bias : ten) (n : Z) (h : heap) : outcome heap :=
  h ← assign_dot f32_one 0 t l false r rtrans h;
  h ← add_rows t bias n h;
  v ← get t h;
  assign saveto t (UnaryMapExp sigmoid (tensor_exp v)) h.
(** [t *= s] *)
Definition scale_ten (t : ten) (c : Z) (h : heap) : outcome heap := assign multo t (ScalarExp c) h.
Definition inv_batch (batchsize_ : Z) : Z := f32_div f32_one (f32_mul f32_one (f32_of_Z batchsize_)).

Definition check_count (i k : Z) (phase : Phase) (batchsize_ vdim_ : Z) (s : nstate) : outcome unit :=
  b ← src_data i k phase s; n ← imul batchsize_ vdim_; CHECK (count_ b =? n).
Definition RBMVis_ComputeFeature (u : Z -> Z) (i : Z) (phase : Phase) (s : nstate) : outcome nstate :=
  o ← obj i s;
  match osub o with
  | RBMVisSub hdim_ vdim_ batchsize_ neg_batchsize_ data_idx_ hid_idx_ is_first_iteration_vis_ vis_sample_ weight_ bias_ =>
      match phase with
      | kPositive =>
          '(h, data) ← Tensor2 (odata o) (nheap s);
          _ ← check_count i data_idx_ kPositive batchsize_ vdim_ s;
          sb ← src_mutable i data_idx_ kPositive s; '(h, src) ← Tensor2 sb h;
          h ← copy_ten data src h;
          Ok (set_nheap h s)
      | kNegative =>
          if is_first_iteration_vis_ then
            _ ← check_count i data_idx_ kPositive batchsize_ vdim_ s;
            sb ← src_mutable i data_idx_ kPositive s; '(h, src) ← Tensor2 sb (nheap s);
            '(h, vis_sample) ← Tensor2 vis_sample_ h;
            h ← copy_ten vis_sample src h;
            set_members i (RBMVisSub hdim_ vdim_ batchsize_ neg_batchsize_ data_idx_ hid_idx_ false vis_sample_
                             weight_ bias_) (set_nheap h s)
          else
            hb ← src_mutable i hid_idx_ kNegative s; '(h, hid_sample) ← Tensor2 hb (nheap s);
            '(h, vis_sample) ← Tensor2 vis_sample_ h;
            wb ← param_data weight_ s h; '(h, weight) ← Tensor2 wb h;
            bb ← param_data bias_ s h; '(h, bias) ← Tensor1 bb h;
            h ← assign_sigmoid vis_sample hid_sample weight true bias neg_batchsize_ h;
            h ← SampleBinary u vis_sample h;
            Ok (set_nheap h s)
      | _ => Ok s
      end
  | _ => Undef
  end.
Definition RBMVis_ComputeGradient (i : Z) (s : nstate) : outcome nstate :=
  o ← obj i s;
  match osub o with
  | RBMVisSub _ _ batchsize_ _ _ hid_idx_ _ vis_sample_ weight_ bias_ =>
      '(h, data) ← Tensor2 (odata o) (nheap s);
      hb ← src_mutable i hid_idx_ kPositive s; '(h, hid_data) ← Tensor2 hb h;
      '(h, vis_sample) ← Tensor2 vis_sample_ h;
      hb ← src_mutable i hid_idx_ kNegative s; '(h, hid_sample) ← Tensor2 hb h;
      gw ← param_grad weight_ s; '(h, gweight) ← Tensor2 gw h;
      gb ← param_grad bias_ s; '(h, gbias) ← Tensor1 gb h;
      h ← assign_sum_rows saveto gbias vis_sample h;
      h ← assign_sum_rows minusto gbias data h;
      h ← assign_dot f32_one 0 gweight vis_sample true hid_sample false h;
      h ← assign_dot f32_minus_one f32_one gweight data true hid_data false h;
      h ← scale_ten gbias (inv_batch batchsize_) h;
      h ← scale_ten gweight (inv_batch batchsize_) h;
      Ok (set_nheap h s)
  | _ => Undef
  end.

(** [AllocSpace]: a row takes a multiple of 16 bytes; the element [i] behind the pointer of
    a tensor of rows of [w] floats. *)
Definition pitch (lspace : Z) : Z := Z.shiftl (Z.shiftr (lspace + 15) 4) 4.
Definition stride (w : Z) : Z := pitch (w * sizeof_float) / sizeof_float.
Definition at_padded (w : Z) (vs : list Z) (i : Z) : outcome Z :=
  let y := i / stride w in
  let x := i mod stride w in
  if x <? w then idx vs (y * w + x) else Undef.  (* never written *)
Definition reconstruct_loss (w : Z) (src reconstruct : list Z) (loss : Z) (i : Z) : outcome Z :=
  s ← idx src i; r ← at_padded w reconstruct i;
  let t := f64_add (f64_mul (f64_of_f32 s) (log_ r))
             (f64_mul (f64_of_f32 (f32_sub f32_one s)) (log_ (f32_sub f32_one r))) in
  Ok (f32_of_f64 (f64_add (f64_of_f32 loss) (SFopp t))).
Definition RBMVis_ComputeLoss `{O : MapOrder} (i : Z) (perf : Metric) (s : nstate) : outcome (nstate * Metric) :=
  o ← obj i s;
  match osub o with
  | RBMVisSub _ vdim_ batchsize_ _ data_idx_ hid_idx_ _ _ weight_ bias_ =>
      _ ← check_count i data_idx_ kPositive batchsize_ vdim_ s;
      sb ← src_mutable i data_idx_ kPositive s; '(h, src) ← Tensor2 sb (nheap s);
      hb ← src_mutable i hid_idx_ kPositive s; '(h, hid_data) ← Tensor2 hb h;
      wb ← param_data weight_ s h; '(h, weight) ← Tensor2 wb h;
      bb ← param_data bias_ s h; '(h, bias) ← Tensor1 bb h;
      l ← get hid_data h; w ← get weight h; b ← get bias h; v ← get src h;
      let shape := map u32 [vdim_; batchsize_] in
      let r := mkTensor shape (replicate (Z.to_nat (shape_size shape)) 0) in
      r ← dot f32_one 0 r l false w true;
      r ← MapExp plusto r (repmat b (u32 batchsize_));
      r ← MapExp saveto r (UnaryMapExp sigmoid (tensor_exp r));
      n ← imul vdim_ batchsize_;
      loss ← fold_out (reconstruct_loss vdim_ (tvals v) (tvals r)) (upto n) 0;
      let loss := f32_div loss (f32_of_Z batchsize_) in
      perf ← Metric_Add "reconstruct_error" loss (Metric_Reset perf);
      Ok (set_nheap h s, perf)
  | _ => Undef
  end.

Definition RBMHid_ComputeFeature (u : Z -> Z) (i : Z) (phase : Phase) (s : nstate) : outcome nstate :=
  o ← obj i s;
  match osub o with
  | RBMHidSub _ vdim_ batchsize_ neg_batchsize_ _ hid_sample_ weight_ bias_ =>
      match phase with
      | kPositive =>
          '(h, data) ← Tensor2 (odata o) (nheap s);
          _ ← check_count i 0 kPositive batchsize_ vdim_ s;
          sb ← src_mutable i 0 kPositive s; '(h, src) ← Tensor2 sb h;
          wb ← param_data weight_ s h; '(h, weight) ← Tensor2 wb h;
          bb ← param_data bias_ s h; '(h, bias) ← Tensor1 bb h;
          h ← assign_sigmoid data src weight false bias batchsize_ h;
          Ok (set_nheap h s)
      | kNegative =>
          _ ← check_count i 0 kNegative neg_batchsize_ vdim_ s;
          sb ← src_mutable i 0 kNegative s; '(h, src_sample) ← Tensor2 sb (nheap s);
          '(h, hid_sample) ← Tensor2 hid_sample_ h;
          bb ← param_data bias_ s h; '(h, bias) ← Tensor1 bb h;
          wb ← param_data weight_ s h; '(h, weight) ← Tensor2 wb h;
          h ← assign_sigmoid hid_sample src_sample weight false bias neg_batchsize_ h;
          h ← SampleBinary u hid_sample h;
          Ok (set_nheap h s)
      | kLoss =>
          '(h, data) ← Tensor2 (odata o) (nheap s);
          h ← SampleBinary u data h;
          Ok (set_nheap h s)
      | _ => Ok s
      end
  | _ => Undef
  end.
Definition RBMHid_ComputeGradient (i : Z) (s : nstate) : outcome nstate :=
  o ← obj i s;
  match osub o with
  | RBMHidSub _ _ batchsize_ _ scale_ hid_sample_ _ bias_ =>
      '(h, data) ← Tensor2 (odata o) (nheap s);
      '(h, hid_sample) ← Tensor2 hid_sample_ h;
      gb ← param_grad bias_ s; '(h, gbias) ← Tensor1 gb h;
      h ← assign_sum_rows saveto gbias hid_sample h;
      h ← assign_sum_rows minusto gbias data h;
      h ← scale_ten gbias (f32_div scale_ (f32_mul f32_one (f32_of_Z batchsize_))) h;
      Ok (set_nheap h s)
  | _ => Undef
  end.
End layers.
