(* ===== verification/LayerMathProps.v ===== *)
(** * Properties of the layers that compute with mshadow

    Tensors of blobs whose values are in memory, assignments to them, and the pooling layer
    in both directions. *)

From Stdlib Require Import SpecFloat.
From S2P Require Import Prelude Float32 Metric Msg Format Memory Param Server Worker LayerConf Layers LayersProps LayerCompute Mshadow MshadowProps LayerMath.

(** ** Tensors in memory *)

(** The values [vs] of a blob of a shape, highest dimension first as in [dims], at [p]. *)
Record image_at (h : heap) (b : Blob) (p : Z) (dims vs : list Z) : Prop := {
  im_at : at_cpu h b p vs;
  im_dims : shape_ b = dims;
  im_pos : Forall (fun n => 0 < n) dims;
  im_int : shape_size dims <= INT_MAX;
  im_length : Z.of_nat (length vs) = shape_size dims;
}.
Lemma shape_size_app a b : shape_size (a ++ b) = shape_size a * shape_size b.
Proof. induction a as [|n a IH]; [change (shape_size b = 1 * shape_size b); lia|]. change (n * shape_size (a ++ b) = n * shape_size a * shape_size b). nia. Qed.
Lemma shape_size_rev l : shape_size (rev l) = shape_size l.
Proof. induction l as [|n l IH]; [done|]. simpl rev. rewrite shape_size_app, IH. unfold shape_size. simpl. lia. Qed.
Lemma shape_elem_small n l : Forall (fun n => 0 < n) l -> n ∈ l -> 0 < n <= shape_size l.
Proof.
  induction 1 as [|m l Hm Hl IH]; [by intros ?%elem_of_nil|]. pose proof (shape_size_pos l Hl).
  change (shape_size (m :: l)) with (m * shape_size l). intros [-> | Hn]%elem_of_cons; [nia|]. specialize (IH Hn). nia.
Qed.
(** Dimensions that fit an [int] are kept by the conversion to [index_t]. *)
Lemma map_u32_dims dims : Forall (fun n => 0 < n) dims -> shape_size dims <= INT_MAX -> map u32 (rev dims) = rev dims.
Proof.
  intros Hp Hm. rewrite <- map_id. apply map_ext_in. intros n Hn. rewrite <- in_rev in Hn.
  apply list_elem_of_In in Hn. pose proof (shape_elem_small n dims Hp Hn). apply u32_small. unfold INT_MAX in *. lia.
Qed.
Lemma image_tensor_ok h b p dims vs : image_at h b p dims vs -> tensor_ok (mkTensor (rev dims) vs).
Proof.
  intros [_ _ Hp Hm Hl]. split; cbn [tshape tvals].
  - apply list.Forall_forall. intros n Hn. rewrite list_elem_of_In, <- in_rev, <- list_elem_of_In in Hn.
    by apply (shape_elem_small n dims).
  - rewrite shape_size_rev. unfold INT_MAX in *. lia.
  - by rewrite shape_size_rev.
Qed.
Lemma get_Ok h b p sh vs : at_cpu h b p vs -> shape_size sh = Z.of_nat (length vs) ->
  get (mkTen p sh) h = Ok (mkTensor sh vs).
Proof.
  intros Ha Hs. unfold get. cbn [dptr tenshape]. rewrite (at_cpu_load_all h b p vs) by (done || by rewrite Hs).
  by rewrite bind_Ok, f32s_of_bytes_of_f32s by (by eapply at_cpu_f32).
Qed.
Lemma image_get h b p dims vs : image_at h b p dims vs -> get (mkTen p (rev dims)) h = Ok (mkTensor (rev dims) vs).
Proof. intros []. eapply get_Ok; [done|]. by rewrite shape_size_rev. Qed.
Lemma image_Tensor4 h b p n c y x vs :
  image_at h b p [n; c; y; x] vs -> Tensor4 b h = Ok (h, mkTen p [x; y; c; n]).
Proof.
  intros [Ha Hd Hp Hm _]. unfold Tensor4. rewrite Hd. cbn [idx]. unfold make_ten.
  destruct (at_cpu_data _ _ _ _ Ha) as [_ E].
  change (Tensor4 b h) with (Tensor4 b h). simpl. rewrite E. simpl mbind. do 3 f_equal.
  exact (map_u32_dims [n; c; y; x] Hp Hm).
Qed.

(** Writing a tensor and assigning an expression of its shape to it. *)
Lemma put_Ok h b p sh vs t : heap_ok h -> at_cpu h b p vs -> length (tvals t) = length vs -> Forall is_f32 (tvals t) ->
  exists h', put (mkTen p sh) t h = Ok h' /\ heap_ok h' /\ at_cpu h' b p (tvals t).
Proof.
  intros Hok Ha Hl Hf. rewrite <- (app_nil_r vs), <- (app_nil_l (vs ++ [])) in Ha.
  destruct (at_cpu_store h b p [] vs [] (tvals t) Hok Ha Hl Hf) as (h' & E & Hok' & Ha' & _).
  exists h'. rewrite Z.add_0_r in E. rewrite app_nil_r in Ha'. done.
Qed.
Definition values (f : Z -> Z -> Z) (sh : list Z) : list Z := map (fun yx => f yx.1 yx.2) (positions sh).
Lemma values_elem f w l y x : Forall (fun n => 0 < n) (w :: l) -> shape_size (w :: l) < 2 ^ 32 ->
  0 <= y < shape_size l -> 0 <= x < w -> elem (mkTensor (w :: l) (values f (w :: l))) y x = f y x.
Proof.
  intros Hp Hs Hy Hx. unfold elem. cbn [tshape tvals]. change (dim (w :: l) 0) with w.
  apply nth_lookup_Some. unfold values. change (map ?g ?m) with (g <$> m).
  by rewrite list_lookup_fmap, positions_lookup.
Qed.
Lemma length_values f w l : Forall (fun n => 0 < n) (w :: l) -> shape_size (w :: l) < 2 ^ 32 ->
  Z.of_nat (length (values f (w :: l))) = shape_size (w :: l).
Proof. intros Hp Hs. unfold values. rewrite length_map. by apply length_positions. Qed.
Lemma zip_saveto a b : length a = length b -> zip_with saveto a b = b.
Proof. revert b. induction a as [|x a IH]; intros [|y b] H; try done. simpl in *. rewrite IH by lia. done. Qed.
Lemma assign_Ok h b p w l ds e f :
  heap_ok h -> at_cpu h b p ds -> Forall (fun n => 0 < n) (w :: l) -> shape_size (w :: l) < 2 ^ 32 ->
  Z.of_nat (length ds) = shape_size (w :: l) -> eshape e = w :: l ->
  (forall y x, 0 <= y < shape_size l -> 0 <= x < w -> Eval e y x = Ok (f y x) /\ is_f32 (f y x)) ->
  exists h', assign saveto (mkTen p (w :: l)) e h = Ok h' /\ heap_ok h' /\ at_cpu h' b p (values f (w :: l)).
Proof.
  intros Hok Ha Hp Hs Hl He Hf. unfold assign. rewrite (get_Ok h b p (w :: l) ds) by (done || by rewrite Hl). rewrite bind_Ok.
  unfold MapExp, Assert. cbn [tshape]. rewrite He, bool_decide_true, orb_true_r by done. cbn [CHECK mbind outcome_bind].
  rewrite (map_out_Ok _ (fun yx => f yx.1 yx.2)).
  2:{ intros [y x] Hyx. apply elem_of_positions in Hyx as [??]; [|done..]. by apply Hf. }
  rewrite bind_Ok. unfold save_all. cbn [tvals tshape]. fold (values f (w :: l)).
  assert (Hlen : length (values f (w :: l)) = length ds) by (pose proof (length_values f w l Hp Hs); lia).
  rewrite Hlen, decide_True, drop_all, app_nil_r, zip_saveto, bind_Ok by lia.
  apply put_Ok with (vs := ds); [done..|]. cbn [tvals]. unfold values.
  apply list.Forall_forall. intros v Hv. apply list_elem_of_In, in_map_iff in Hv as ([y x] & <- & Hyx).
  apply list_elem_of_In, elem_of_positions in Hyx as [??]; [|done..]. by apply Hf.
Qed.

(** ** Pooling *)
Definition is_reduced (R : reducer) : Prop :=
  is_f32 (kInitV R) /\ forall a b, is_f32 a -> is_f32 b -> is_f32 (Reduce R a b).
Lemma red_sum_range : is_reduced red_sum.
Proof. split; [unfold is_f32; simpl; lia|]. intros. apply f32_add_range. Qed.
Lemma red_maximum_range : is_reduced red_maximum.
Proof.
  split; [unfold is_f32, red_maximum, FLT_MAX_neg; simpl; lia|]. intros a b ??. unfold red_maximum, f32_max. cbn [Reduce].
  by case_match.
Qed.
Lemma elem_range t y x : Forall is_f32 (tvals t) -> is_f32 (elem t y x).
Proof.
  intros H. unfold elem. destruct (nth_in_or_default (Z.to_nat (y * dim (tshape t) 0 + x)) (tvals t) 0) as [Hin | ->].
  - rewrite list.Forall_forall in H. apply H. by apply list_elem_of_In.
  - unfold is_f32. lia.
Qed.
Lemma reduced_range R l : is_reduced R -> Forall is_f32 l -> is_f32 (fold_left (Reduce R) l (kInitV R)).
Proof.
  intros [Hi Hr] Hl. revert Hi. generalize (kInitV R). induction Hl as [|v l Hv _ IH]; intros a Ha; [done|].
  simpl. apply IH. by apply Hr.
Qed.
Lemma window_f32 t c y x k : Forall is_f32 (tvals t) -> Forall is_f32 (window t c y x k).
Proof.
  intros H. apply list.Forall_forall. intros v Hv. unfold window in Hv.
  apply list_elem_of_In, in_concat in Hv as (r & Hr & Hv). apply in_map_iff in Hr as (dy & <- & _).
  apply in_map_iff in Hv as (dx & <- & _). by apply elem_range.
Qed.

(** What the layer makes of the pixels of a window. *)
Definition pool_value (m : PoolMethod) (k : Z) (l : list Z) : Z :=
  match m with
  | MAX => fold_left f32_max l FLT_MAX_neg
  | AVE => f32_mul (fold_left f32_add l 0) (f32_div f32_one (f32_of_Z (k * k)))
  end.

(** The expression the layer assigns to its data. *)
Lemma pool_expr m t w h l k s :
  tensor_ok t -> tshape t = w :: h :: l -> Forall is_f32 (tvals t) -> 0 < k <= w -> k <= h -> 0 < s < 2 ^ 32 ->
  k * k <= INT_MAX ->
  exists e, (match m with
             | MAX => pool red_maximum (tensor_exp t) (u32 k) (u32 s)
             | AVE =>
                 e ← pool red_sum (tensor_exp t) (u32 k) (u32 s);
                 k2 ← imul k k;
                 e_mul e (ScalarExp (f32_div f32_one (f32_of_Z k2)))
             end) = Ok e /\
    eshape e = windows w k s :: windows h k s :: l /\
    forall c py px, 0 <= c < shape_size l -> 0 <= py < windows h k s -> 0 <= px < windows w k s ->
      Eval e (c * windows h k s + py) px = Ok (pool_value m k (window t c (py * s) (px * s) k)) /\
      is_f32 (pool_value m k (window t c (py * s) (px * s) k)).
Proof.
  intros Ht E Hf Hkw Hkh Hs Hkk. destruct (tensor_dims t w h l Ht E) as (Hw & Hh & _).
  rewrite !u32_small by lia. destruct m.
  - destruct (pool_eval red_maximum t w h l k s) as (e & -> & Ee & Hev); [done|done|lia..|].
    exists e. split; [done|]. split; [done|]. intros c py px Hc Hpy Hpx. split; [by apply Hev|].
    apply (reduced_range red_maximum); [apply red_maximum_range|by apply window_f32].
  - destruct (pool_eval red_sum t w h l k s) as (e & -> & Ee & Hev); [done|done|lia..|].
    rewrite bind_Ok. unfold imul. rewrite int_ret_Ok, bind_Ok by (unfold INT_MIN, INT_MAX in *; lia).
    unfold e_mul, BinaryMapExp, check_shapes. rewrite Ee. change (dim (?a :: _) 0) with a.
    pose proof (windows_pos w k s). rewrite (proj2 (Z.eqb_neq (windows w k s) 0)) by lia.
    eexists. split; [done|]. split; [done|]. intros c py px Hc Hpy Hpx. split; [|apply f32_mul_range].
    cbn [Eval ScalarExp]. by rewrite Hev.
Qed.

(** A [y]-th row of an image of [h] rows. *)
Lemma div_mod_row h S y : 0 < h -> 0 <= y < h * S -> 0 <= y / h < S /\ 0 <= y mod h < h /\ y = y / h * h + y mod h.
Proof.
  intros Hh Hy. pose proof (Z.div_mod y h). pose proof (Z.mod_pos_bound y h Hh).
  split; [|lia]. split; [apply Z.div_pos; lia|apply Z.div_lt_upper_bound; lia].
Qed.
(** Assigning an expression to the whole of an image. *)
Lemma assign_image h b p n c y x vs e f :
  heap_ok h -> image_at h b p [n; c; y; x] vs -> eshape e = [x; y; c; n] ->
  (forall k i j, 0 <= k < c * n -> 0 <= i < y -> 0 <= j < x ->
     Eval e (k * y + i) j = Ok (f k i j) /\ is_f32 (f k i j)) ->
  exists h' ws, assign saveto (mkTen p [x; y; c; n]) e h = Ok h' /\ heap_ok h' /\ image_at h' b p [n; c; y; x] ws /\
    forall k i j, 0 <= k < c * n -> 0 <= i < y -> 0 <= j < x -> elem (mkTensor [x; y; c; n] ws) (k * y + i) j = f k i j.
Proof.
  intros Hok Hi He Hf. pose proof (image_tensor_ok _ _ _ _ _ Hi) as Ht. destruct Hi as [Ha Hd Hp Hm Hl].
  destruct Ht as [Tp Ts Tl]. simpl rev in *. cbn [tshape tvals] in *.
  destruct (tensor_dims (mkTensor [x; y; c; n] vs) x y [c; n]) as (_ & Hy & _); [by constructor|done|].
  assert (Hcn : shape_size [y; c; n] = y * (c * n)) by (unfold shape_size; simpl; ring).
  set (g := fun r j => f (r / y) (r mod y) j).
  assert (Hg : forall k i j, 0 <= i < y -> g (k * y + i) j = f k i j)
    by (intros k i j ?; unfold g; by rewrite div_pos, mod_pos).
  destruct (assign_Ok h b p x [y; c; n] vs e g) as (h' & E & Hok' & Ha'); [done..| |].
  { intros r j Hr Hj. rewrite Hcn in Hr. destruct (div_mod_row y (c * n) r) as (? & ? & Er); [lia..|].
    unfold g. destruct (Hf (r / y) (r mod y) j) as [Ef Hff]; [lia..|]. by rewrite <- Er in Ef. }
  exists h', (values g [x; y; c; n]). split; [done|]. split; [done|]. split.
  - constructor; try done. rewrite length_values by done. by rewrite <- (shape_size_rev [n; c; y; x]).
  - intros k i j Hk Hi Hj. rewrite values_elem; [by apply Hg|done..| |done]. rewrite Hcn.
    pose proof (below_mul k i (c * n) y Hk Hi). lia.
Qed.

(** C18. The pooling layer.  On a source of four dimensions whose images hold the kernel, with the
    data shaped as [Setup] does it, [ComputeFeature] returns, and each value of the data is the
    maximum, or the mean, of exactly the [kernel] by [kernel] pixels of its window; no pixel
    outside the image is read. *)
Theorem Pooling_ComputeFeature_spec (i : Z) (s : nstate) (o : LayerObj) (sb : Blob) (sp dp n c y x k st : Z)
    (m : PoolMethod) (b0 c0 h0 w0 ph pw : Z) (vs ds : list Z)
    (Hok : heap_ok (nheap s)) (Ho : objs s !! i = Some o)
    (Hsub : osub o = PoolingSub k st m b0 c0 h0 w0 ph pw)
    (Hsrc : src_mutable i 0 kPositive s = Ok sb)
    (Hvs : image_at (nheap s) sb sp [n; c; y; x] vs)
    (Hds : image_at (nheap s) (odata o) dp [n; c; windows y k st; windows x k st] ds)
    (Hkx : 0 < k <= x) (Hky : k <= y) (Hst : 0 < st < 2 ^ 32) (Hkk : k * k <= INT_MAX) :
  exists h' ws, Pooling_ComputeFeature i s = Ok (set_nheap h' s) /\ heap_ok h' /\
    image_at h' (odata o) dp [n; c; windows y k st; windows x k st] ws /\
    forall ci py px, 0 <= ci < c * n -> 0 <= py < windows y k st -> 0 <= px < windows x k st ->
      elem (mkTensor [windows x k st; windows y k st; c; n] ws) (ci * windows y k st + py) px =
      pool_value m k (window (mkTensor [x; y; c; n] vs) ci (py * st) (px * st) k).
Proof.
  destruct (pool_expr m (mkTensor [x; y; c; n] vs) x y [c; n] k st) as (e & Ee & Es & Hev); [|done| |done..|].
  { by apply (image_tensor_ok _ _ _ _ _ Hvs). }
  { eapply at_cpu_f32, im_at, Hvs. }
  replace (shape_size [c; n]) with (c * n) in Hev by (unfold shape_size; simpl; ring).
  destruct (assign_image _ _ _ _ _ _ _ _ _ _ Hok Hds Es Hev) as (h' & ws & Ea & Hok' & Hi' & Hws).
  exists h', ws. split; [|done].
  unfold Pooling_ComputeFeature. rewrite (obj_Ok _ _ _ Ho), bind_Ok, Hsub, Hsrc, bind_Ok.
  rewrite (image_Tensor4 _ _ _ _ _ _ _ _ Hvs), bind_Ok, (image_Tensor4 _ _ _ _ _ _ _ _ Hds), bind_Ok.
  rewrite (image_get _ _ _ _ _ Hvs : get (mkTen sp [x; y; c; n]) (nheap s) = _), bind_Ok.
  simpl rev. rewrite Ee, bind_Ok, Ea, bind_Ok. done.
Qed.

(** The gradient of the pixel of row [r] and column [x]: the sum over the windows that contain it. *)
Definition unpool_value (m : PoolMethod) (t v g : tensor) (k s ci y x : Z) : Z :=
  let h := dim (tshape t) 1 in
  let w := dim (tshape t) 0 in
  let R := match m with MAX => red_maximum | AVE => red_sum end in
  let total := fold_left (fun val py => fold_left (fun val px =>
      f32_add val (f32_mul (PartialGrad R (elem t (ci * h + y) x) (elem v (ci * windows h k s + py) px))
                           (elem g (ci * windows h k s + py) px)))
    (containing w k s x) val) (containing h k s y) 0 in
  match m with MAX => total | AVE => f32_mul total (f32_div f32_one (f32_of_Z (k * k))) end.
Lemma fold_left_range {A} (f : Z -> A -> Z) l a :
  is_f32 a -> (forall a x, is_f32 a -> is_f32 (f a x)) -> is_f32 (fold_left f l a).
Proof. intros Ha Hf. revert a Ha. induction l as [|x l IH]; intros a Ha; [done|]. simpl. apply IH. by apply Hf. Qed.
Lemma unpool_value_range m t v g k s ci y x : is_f32 (unpool_value m t v g k s ci y x).
Proof.
  unfold unpool_value. destruct m; [|apply f32_mul_range].
  apply fold_left_range; [unfold is_f32; lia|]. intros a py Ha. apply fold_left_range; [done|].
  intros a' px _. apply f32_add_range.
Qed.
Lemma unpool_expr m t v g w h ch n k s :
  tensor_ok t -> tshape t = [w; h; ch; n] ->
  tensor_ok v -> tshape v = [windows w k s; windows h k s; ch; n] -> tensor_ok g -> tshape g = tshape v ->
  0 < k <= w -> k <= h -> 0 < s -> h + s < 2 ^ 32 -> w + s < 2 ^ 32 -> k * k <= INT_MAX ->
  exists e, (match m with
             | MAX => unpool red_maximum t v g (u32 k) (u32 s)
             | AVE =>
                 e ← unpool red_sum t v g (u32 k) (u32 s);
                 k2 ← imul k k;
                 e_mul e (ScalarExp (f32_div f32_one (f32_of_Z k2)))
             end) = Ok e /\ eshape e = [w; h; ch; n] /\
    forall c y x, 0 <= c < ch * n -> 0 <= y < h -> 0 <= x < w ->
      Eval e (c * h + y) x = Ok (unpool_value m t v g k s c y x) /\ is_f32 (unpool_value m t v g k s c y x).
Proof.
  intros Ht E Hv Ev Hg Eg Hkw Hkh Hs Hhs Hws Hkk. destruct (tensor_dims t w h [ch; n] Ht E) as (Hw & Hh & _).
  rewrite !u32_small by lia. destruct m.
  - destruct (unpool_eval red_maximum t v g w h ch n k s) as (e & -> & Ee & Hev); [done..|lia|done|done|].
    exists e. rewrite Ee, E. split; [done|]. split; [done|]. intros c y x Hc Hy Hx. split; [|apply unpool_value_range].
    rewrite Hev by done. unfold unpool_value. by rewrite E.
  - destruct (unpool_eval red_sum t v g w h ch n k s) as (e & -> & Ee & Hev); [done..|lia|done|done|].
    rewrite bind_Ok. unfold imul. rewrite int_ret_Ok, bind_Ok by (unfold INT_MIN, INT_MAX in *; lia).
    unfold e_mul, BinaryMapExp, check_shapes. rewrite Ee, E. change (dim (?a :: _) 0) with a.
    rewrite (proj2 (Z.eqb_neq w 0)) by lia.
    eexists. split; [done|]. split; [done|]. intros c y x Hc Hy Hx. split; [|apply unpool_value_range].
    cbn [Eval ScalarExp]. rewrite Hev by done. unfold unpool_value. by rewrite E.
Qed.

(** C19. Back through the pooling layer: with blobs of the shapes [Setup] gives them,
    [ComputeGradient] returns, and the gradient of each pixel is the sum, over exactly the
    windows the pixel lies in, of the gradient of the window: all of it for the mean, scaled;
    for the maximum, that of the windows whose value the pixel equals. *)
Theorem Pooling_ComputeGradient_spec (i : Z) (s : nstate) (o : LayerObj) (sb gb : Blob) (sp gp dp op n c y x k st : Z)
    (m : PoolMethod) (b0 c0 h0 w0 ph pw : Z) (vs gs ds os : list Z)
    (Hok : heap_ok (nheap s)) (Ho : objs s !! i = Some o)
    (Hsub : osub o = PoolingSub k st m b0 c0 h0 w0 ph pw)
    (Hsrc : src_mutable i 0 kPositive s = Ok sb) (Hgrad : src_mutable_grad i 0 s = Ok (Some gb))
    (Hvs : image_at (nheap s) sb sp [n; c; y; x] vs) (Hgs : image_at (nheap s) gb gp [n; c; y; x] gs)
    (Hds : image_at (nheap s) (odata o) dp [n; c; windows y k st; windows x k st] ds)
    (Hos : image_at (nheap s) (ograd o) op [n; c; windows y k st; windows x k st] os)
    (Hkx : 0 < k <= x) (Hky : k <= y) (Hst : 0 < st) (Hys : y + st < 2 ^ 32) (Hxs : x + st < 2 ^ 32)
    (Hkk : k * k <= INT_MAX) :
  exists h' ws, Pooling_ComputeGradient i s = Ok (set_nheap h' s) /\ heap_ok h' /\ image_at h' gb gp [n; c; y; x] ws /\
    forall ci py px, 0 <= ci < c * n -> 0 <= py < y -> 0 <= px < x ->
      elem (mkTensor [x; y; c; n] ws) (ci * y + py) px =
      unpool_value m (mkTensor [x; y; c; n] vs) (mkTensor [windows x k st; windows y k st; c; n] ds)
        (mkTensor [windows x k st; windows y k st; c; n] os) k st ci py px.
Proof.
  pose proof (image_tensor_ok _ _ _ _ _ Hvs) as Tv. pose proof (image_tensor_ok _ _ _ _ _ Hds) as Td.
  pose proof (image_tensor_ok _ _ _ _ _ Hos) as To. simpl rev in *.
  destruct (unpool_expr m _ _ _ x y c n k st Tv eq_refl Td eq_refl To eq_refl) as (e & Ee & Es & Hev); [done..|].
  destruct (assign_image _ _ _ _ _ _ _ _ _ _ Hok Hgs Es Hev) as (h' & ws & Ea & Hok' & Hi' & Hws).
  exists h', ws. split; [|done].
  unfold Pooling_ComputeGradient. rewrite (obj_Ok _ _ _ Ho), bind_Ok, Hsub, Hsrc, bind_Ok.
  rewrite (image_Tensor4 _ _ _ _ _ _ _ _ Hvs), bind_Ok, Hgrad, bind_Ok, deref_Some, bind_Ok.
  rewrite (image_Tensor4 _ _ _ _ _ _ _ _ Hgs), bind_Ok, (image_Tensor4 _ _ _ _ _ _ _ _ Hds), bind_Ok.
  rewrite (image_Tensor4 _ _ _ _ _ _ _ _ Hos), bind_Ok.
  rewrite (image_get _ _ _ _ _ Hvs : get (mkTen sp [x; y; c; n]) (nheap s) = _), bind_Ok.
  rewrite (image_get _ _ _ _ _ Hds : get (mkTen dp [windows x k st; windows y k st; c; n]) (nheap s) = _), bind_Ok.
  rewrite (image_get _ _ _ _ _ Hos : get (mkTen op [windows x k st; windows y k st; c; n]) (nheap s) = _), bind_Ok.
  simpl rev. rewrite Ee, bind_Ok, Ea, bind_Ok. done.
Qed.

(** ** Witnesses: an image of 3 by 3 pixels, pooled by windows of 2 by 2 *)

(** A heap of blobs one after the other. *)
Definition packed (vals : list Z) (s : gmap Z SyncedMemory) (n : Z) : heap :=
  let bs := bytes_of_f32s vals in
  mkHeap (list_to_map (zip (map Z.of_nat (seq 1 (length bs))) bs)) (1 + Z.of_nat (length bs)) s ∅ n.
Lemma packed_ok vals s n : map_Forall (fun i _ => i < n) s -> heap_ok (packed vals s n).
Proof.
  intros Hs. constructor.
  - simpl. lia.
  - intros a v Ha. apply elem_of_list_to_map_2 in Ha.
    apply elem_of_zip_l, list_elem_of_fmap in Ha as (k & -> & Hk). apply elem_of_seq in Hk. simpl. lia.
  - intros i m. apply Hs.
  - intros i b. simpl. by rewrite lookup_empty.
Qed.
(** The values of a blob of a concrete heap, in memory object [i]. *)
Ltac concrete_at i :=
  split;
  [ constructor; [reflexivity|discriminate|repeat constructor; vm_compute; done|
      exists i, []; split; [reflexivity|split; vm_compute; reflexivity]]
  | exists i; split; [reflexivity|eexists; split; [vm_compute; reflexivity|split; reflexivity]] ].
Ltac concrete_image i :=
  constructor; [concrete_at i|reflexivity|repeat constructor|vm_compute; discriminate|reflexivity].

Definition demo_pixels : list Z := map f32_of_Z [1; 2; 3; 4; 9; 5; 6; 7; 8].
Definition demo_pool_heap : heap :=
  packed (demo_pixels ++ map f32_of_Z [9; 9; 9; 9] ++ replicate 9 0 ++ map f32_of_Z [1; 2; 3; 4])
    {[0 := mkSM 1 36 HEAD_AT_CPU true; 1 := mkSM 37 16 HEAD_AT_CPU true;
      2 := mkSM 53 36 HEAD_AT_CPU true; 3 := mkSM 89 16 HEAD_AT_CPU true]} 4.
Definition demo_pool_obj : LayerObj :=
  set_sub (PoolingSub 2 1 MAX 1 1 3 3 2 2)
    (set_grad (mkBlob (Some 3) [1; 1; 2; 2] 4 4 (-1))
      (set_data (mkBlob (Some 1) [1; 1; 2; 2] 4 4 (-1)) (set_srcs [0] (LayerObj_new kPooling)))).
Definition demo_pool_state : nstate :=
  mkNS {[0 := set_grad (mkBlob (Some 2) [1; 1; 3; 3] 9 9 (-1))
                (set_data (mkBlob (Some 0) [1; 1; 3; 3] 9 9 (-1)) (LayerObj_new kTanh)); 1 := demo_pool_obj]} 2
    (mkWorld demo_pool_heap ∅ 0 ∅).
Lemma demo_pool_heap_ok : heap_ok demo_pool_heap.
Proof. apply packed_ok. by apply (bool_decide_unpack _). Qed.

Lemma Pooling_ComputeFeature_witness : exists h' ws,
  Pooling_ComputeFeature 1 demo_pool_state = Ok (set_nheap h' demo_pool_state) /\
  image_at h' (odata demo_pool_obj) 37 [1; 1; 2; 2] ws /\
  elem (mkTensor [2; 2; 1; 1] ws) 1 1 = f32_of_Z 9.
Proof.
  destruct (Pooling_ComputeFeature_spec 1 demo_pool_state demo_pool_obj (mkBlob (Some 0) [1; 1; 3; 3] 9 9 (-1)) 1 37
    1 1 3 3 2 1 MAX 1 1 3 3 2 2 demo_pixels (map f32_of_Z [9; 9; 9; 9])) as (h' & ws & E & _ & Hi & Hws);
    [exact demo_pool_heap_ok|reflexivity|reflexivity|vm_compute; reflexivity|concrete_image 0|concrete_image 1|
     lia|lia|lia|vm_compute; discriminate|].
  exists h', ws. split; [exact E|]. split; [exact Hi|].
  refine (eq_trans (Hws 0 1 1 _ _ _) _); [lia|vm_compute; split; [discriminate|reflexivity]..|].
  vm_compute. reflexivity.
Defined.
(** The gradients of all four windows reach the pixel in the middle, and no other. *)
Lemma Pooling_ComputeGradient_witness : exists h' ws,
  Pooling_ComputeGradient 1 demo_pool_state = Ok (set_nheap h' demo_pool_state) /\
  elem (mkTensor [3; 3; 1; 1] ws) 1 1 = f32_of_Z 10 /\ elem (mkTensor [3; 3; 1; 1] ws) 0 1 = 0.
Proof.
  destruct (Pooling_ComputeGradient_spec 1 demo_pool_state demo_pool_obj (mkBlob (Some 0) [1; 1; 3; 3] 9 9 (-1))
    (mkBlob (Some 2) [1; 1; 3; 3] 9 9 (-1)) 1 53 37 89 1 1 3 3 2 1 MAX 1 1 3 3 2 2 demo_pixels (replicate 9 0)
    (map f32_of_Z [9; 9; 9; 9]) (map f32_of_Z [1; 2; 3; 4])) as (h' & ws & E & _ & _ & Hws);
    [exact demo_pool_heap_ok|reflexivity|reflexivity|vm_compute; reflexivity|vm_compute; reflexivity|
     concrete_image 0|concrete_image 2|concrete_image 1|concrete_image 3|lia|lia|lia|lia|lia|vm_compute; discriminate|].
  exists h', ws. split; [exact E|]. split; refine (eq_trans (Hws 0 _ 1 _ _ _) _); try lia; vm_compute; reflexivity.
Defined.
