(* ===== verification/LayerLinear.v ===== *)
(** * Matrices in memory and their products

    The memory that assignments to tensors leave alone, the law of the matrix product of BLAS and
    an implementation of it, tensors in memory, and the rows of biases. *)

From Stdlib Require Import SpecFloat.
From S2P Require Import Prelude Float32 Metric Msg Format Memory Param Server Worker LayerConf Layers LayersProps LayerCompute Mshadow MshadowProps LayerMath LayerMathProps.

(** ** Memory outside of the blobs that are written *)

(** [a] is outside of the memory of a blob at [p]. *)
Definition outside (a : Z) (bp : Blob * Z) : Prop := a < bp.2 \/ bp.2 + sizeof_float * capacity_ bp.1 <= a.
Definition apart (b : Blob) (p : Z) (bp : Blob * Z) : Prop :=
  forall a, p <= a < p + sizeof_float * capacity_ b -> outside a bp.
Lemma apart_sym b p b' p' : apart b p (b', p') -> apart b' p' (b, p).
Proof.
  intros H a Ha. unfold outside. simpl in *. destruct (decide (p <= a < p + sizeof_float * capacity_ b)) as [Hin|]; [|lia].
  specialize (H a Hin). unfold outside in H. simpl in H. lia.
Qed.
(** Blobs none of which shares memory with another one. *)
Definition separate (l : list (Blob * Z)) : Prop := ForallOrdPairs (fun x y => apart x.1 x.2 y) l.
Lemma separate_cons x l : separate (x :: l) <-> Forall (fun y => apart x.1 x.2 y /\ apart y.1 y.2 x) l /\ separate l.
Proof.
  split.
  - intros H. inversion H as [|? ? Hx Hl]; subst. split; [|done]. eapply list.Forall_impl; [exact Hx|].
    intros [b p] Ha. split; [done|]. destruct x. by apply apart_sym.
  - intros [Hx Hl]. constructor; [|done]. eapply list.Forall_impl; [exact Hx|]. by intros y [??].
Qed.
Lemma separate_tail l t : separate (l ++ t) ->
  separate l /\ Forall (fun x => Forall (fun y => apart x.1 x.2 y /\ apart y.1 y.2 x) t) l.
Proof.
  induction l as [|x l IH]; simpl; [by repeat constructor|]. rewrite !separate_cons, Forall_app.
  intros [[Hl Ht] Hs]. destruct (IH Hs) as [Hsl Hst]. split; [by split|]. by constructor.
Qed.
Lemma separate_drop l x t : separate (l ++ x :: t) -> separate (l ++ t).
Proof.
  induction l as [|y l IH]; simpl; rewrite !separate_cons; [tauto|]. rewrite !Forall_app, list.Forall_cons. tauto.
Qed.
Lemma separate_lookup l i j x y : separate l -> l !! i = Some x -> l !! j = Some y -> i <> j -> apart x.1 x.2 y.
Proof.
  intros Hl. revert i j. induction Hl as [|z l Hz Hl IH]; intros i j Hi Hj Hne; [by rewrite lookup_nil in Hi|].
  destruct i as [|i], j as [|j]; simpl in *; [done| | |apply (IH i j); [done..|lia]].
  - injection Hi as ->. by eapply list.Forall_lookup_1 in Hz.
  - injection Hj as ->. eapply list.Forall_lookup_1 in Hz; [|exact Hi]. destruct x, y. by apply apart_sym.
Qed.
(** Blobs of a list of separate ones. *)
Ltac index_of b p l :=
  match l with
  | ?x :: ?l => let u := constr:(eq_refl : (fst x, snd x) = (b, p)) in constr:(O)
  | _ :: ?l => let n := index_of b p l in constr:(S n)
  end.
Ltac apart_in H :=
  repeat first [ apply Forall_nil_2 | apply Forall_cons_2 ];
  lazymatch type of H with separate ?l =>
    match goal with |- apart ?b ?p ?y =>
      let i := index_of b p l in
      let j := index_of (fst y) (snd y) l in
      let E := constr:(separate_lookup l i j _ _ H eq_refl eq_refl) in
      apply E; discriminate
    end
  end.
(** From [h] to [h'] only the memory of the blobs of [l] may have changed; the blobs themselves, their
    shapes and where their memory is, are the same. *)
Record wrote (l : list (Blob * Z)) (h h' : heap) : Prop := {
  wr_ok : heap_ok h';
  wr_sms : sms h' = sms h;
  wr_cells : forall a, Forall (outside a) l -> cells h' !! a = cells h !! a;
  wr_blobs : blobs h' = blobs h;
}.
Lemma wrote_refl l h : heap_ok h -> wrote l h h.
Proof. by split. Qed.
Lemma wrote_trans l h h' h'' : wrote l h h' -> wrote l h' h'' -> wrote l h h''.
Proof. intros [_ Hs Hc Hb] [Hok Hs' Hc' Hb']. split; [done|congruence| |congruence]. intros a Ha. by rewrite Hc', Hc. Qed.
Lemma wrote_mono l l' h h' : wrote l h h' -> l ⊆ l' -> wrote l' h h'.
Proof.
  intros [Hok Hs Hc Hb] Hl. split; try done. intros a Ha. apply Hc. rewrite list.Forall_forall in *.
  intros bp Hbp. by apply Ha, Hl.
Qed.
Lemma wrote_seq l l' h h' h'' : wrote l h h' -> wrote l' h' h'' -> wrote (l ++ l') h h''.
Proof.
  intros H H'. eapply wrote_trans; eapply wrote_mono; [exact H| |exact H'|];
    intros x Hx; apply elem_of_app; [by left|by right].
Qed.
Lemma wrote_at l h h' b p vs : wrote l h h' -> Forall (apart b p) l -> at_cpu h b p vs -> at_cpu h' b p vs.
Proof.
  intros [_ Hs Hc _] Hl Ha. eapply at_cpu_frame; [exact Ha|by rewrite Hs|]. intros a Hr. apply Hc.
  rewrite list.Forall_forall in *. intros bp Hbp. by apply (Hl bp Hbp).
Qed.
Lemma wrote_image l h h' b p dims vs :
  wrote l h h' -> Forall (apart b p) l -> image_at h b p dims vs -> image_at h' b p dims vs.
Proof. intros Hw Hl [Ha Hd Hp Hm Hlen]. split; try done. by eapply wrote_at. Qed.

(** Reading and writing a part of a blob's values as a tensor. *)
Lemma get_part h b p us ws us' sh : at_cpu h b p (us ++ ws ++ us') -> shape_size sh = Z.of_nat (length ws) ->
  get (mkTen (p + sizeof_float * Z.of_nat (length us)) sh) h = Ok (mkTensor sh ws).
Proof.
  intros Ha Hs. unfold get. cbn [dptr tenshape]. rewrite (at_cpu_load h b p us ws us') by (done || by rewrite Hs).
  pose proof (at_cpu_f32 _ _ _ _ Ha) as Hf. rewrite !Forall_app in Hf. by rewrite bind_Ok, f32s_of_bytes_of_f32s by apply Hf.
Qed.
Lemma put_part h b p us ws us' sh t :
  heap_ok h -> at_cpu h b p (us ++ ws ++ us') -> length (tvals t) = length ws -> Forall is_f32 (tvals t) ->
  exists h', put (mkTen (p + sizeof_float * Z.of_nat (length us)) sh) t h = Ok h' /\ wrote [(b, p)] h h' /\
    at_cpu h' b p (us ++ tvals t ++ us').
Proof.
  intros Hok Ha Hl Hf. destruct (at_cpu_store h b p us ws us' (tvals t) Hok Ha Hl Hf) as (h' & E & Hok' & Ha' & Hs & Hbl & _ & _ & Hc).
  exists h'. split; [done|]. split; [|done]. split; try done. intros a Hout. apply peek_cell, Hc.
  inversion Hout as [|? ? H]; subst. destruct H; simpl in *; [left|right]; lia.
Qed.

(** ** Assignments *)

(** A property of all elements is one of all values. *)
Lemma elem_Forall (P : Z -> Prop) t w l : tensor_ok t -> tshape t = w :: l ->
  (forall y x, 0 <= y < shape_size l -> 0 <= x < w -> P (elem t y x)) -> Forall P (tvals t).
Proof.
  intros Ht E H. destruct (rows_cons t w l Ht E) as [_ Hlen].
  pose proof (to_pos _ Ht) as Hp. rewrite E in Hp. inversion Hp as [|? ? Hw Hl]; subst.
  apply list.Forall_lookup. intros i v Hi. pose proof (lookup_lt_Some _ _ _ Hi) as Hlt.
  specialize (H (Z.of_nat i / w) (Z.of_nat i mod w)). unfold elem in H. rewrite E in H. change (dim (w :: l) 0) with w in H.
  replace (Z.of_nat i / w * w + Z.of_nat i mod w) with (Z.of_nat i) in H by (pose proof (Z.div_mod (Z.of_nat i) w); lia).
  rewrite Nat2Z.id, (nth_lookup_Some _ _ _ _ Hi) in H. apply H.
  - split; [apply Z.div_pos; lia|apply Z.div_lt_upper_bound; nia].
  - apply Z.mod_pos_bound. lia.
Qed.
Lemma elem_index t w l y x : tensor_ok t -> tshape t = w :: l -> 0 <= y < shape_size l -> 0 <= x < w ->
  tvals t !! Z.to_nat (y * w + x) = Some (elem t y x).
Proof.
  intros Ht E Hy Hx. destruct (rows_cons t w l Ht E) as [_ Hlen]. pose proof (below_mul y x _ w Hy Hx).
  unfold elem. rewrite E. change (dim (w :: l) 0) with w.
  destruct (tvals t !! Z.to_nat (y * w + x)) as [v|] eqn:Ev; [by rewrite (nth_lookup_Some _ _ _ _ Ev)|].
  apply lookup_ge_None in Ev. nia.
Qed.
Lemma MapExp_Ok Save d w l e f :
  tensor_ok d -> tshape d = w :: l -> dim (eshape e) 0 = 0 \/ eshape e = w :: l ->
  (forall y x, 0 <= y < shape_size l -> 0 <= x < w ->
     Eval e y x = Ok (f y x) /\ is_f32 (Save (elem d y x) (f y x))) ->
  exists vs, MapExp Save d e = Ok (mkTensor (w :: l) vs) /\ length vs = length (tvals d) /\ Forall is_f32 vs /\
    forall y x, 0 <= y < shape_size l -> 0 <= x < w -> elem (mkTensor (w :: l) vs) y x = Save (elem d y x) (f y x).
Proof.
  intros Ht E He Hf. pose proof Ht as [Hp Hs Hl]. rewrite E in Hp, Hs, Hl.
  pose proof (length_values f w l Hp Hs) as Hlv.
  exists (zip_with Save (tvals d) (values f (w :: l))).
  assert (Hlen : length (zip_with Save (tvals d) (values f (w :: l))) = length (tvals d)) by (rewrite length_zip_with; lia).
  assert (Hel : forall y x, 0 <= y < shape_size l -> 0 <= x < w ->
    elem (mkTensor (w :: l) (zip_with Save (tvals d) (values f (w :: l)))) y x = Save (elem d y x) (f y x)).
  { intros y x Hy Hx. unfold elem at 1. cbn [tshape tvals]. change (dim (w :: l) 0) with w.
    apply nth_lookup_Some. rewrite lookup_zip_with, (elem_index d w l y x Ht E Hy Hx).
    assert (Hv : tensor_ok (mkTensor (w :: l) (values f (w :: l)))) by by split.
    pose proof (elem_index _ w l y x Hv eq_refl Hy Hx) as Ev. cbn [tvals] in Ev.
    rewrite Ev, values_elem by done. done. }
  split; [|split; [done|split; [|done]]].
  - assert (Hc : (dim (eshape e) 0 =? 0) || bool_decide (eshape e = w :: l) = true).
    { destruct He as [He|He]; [by rewrite He|by rewrite (bool_decide_true _ He), orb_true_r]. }
    unfold MapExp, Assert. rewrite E, Hc. cbn [CHECK mbind outcome_bind].
    rewrite (map_out_Ok _ (fun yx => f yx.1 yx.2)).
    2:{ intros [y x] Hyx. apply elem_of_positions in Hyx as [??]; [|done..]. by apply Hf. }
    rewrite bind_Ok. unfold save_all. cbn [tvals tshape]. fold (values f (w :: l)). rewrite E.
    rewrite decide_True by lia. rewrite drop_ge, app_nil_r by lia. done.
  - apply (elem_Forall is_f32 (mkTensor (w :: l) (zip_with Save (tvals d) (values f (w :: l)))) w l); [|done|].
    + split; cbn [tshape tvals]; [done..|]. lia.
    + intros y x Hy Hx. rewrite Hel by done. by apply Hf.
Qed.

(** ** Products of matrices *)

(** Row [i] and column [l] of a matrix in column-major order, or of its transpose. *)
Definition col_major (tr : bool) (m : list Z) (ld i l : Z) : Z :=
  nth (Z.to_nat (if tr then l + i * ld else i + l * ld)) m 0.
(** Alpha and beta of a product that replaces a matrix, is added to it or subtracted from it. *)
Inductive onto := fresh | plus | minus.
Definition alpha_of (w : onto) : Z := match w with minus => f32_minus_one | _ => f32_one end.
Definition beta_of (w : onto) : Z := match w with fresh => 0 | _ => f32_one end.
Definition onto_value (dot_value : option Z -> list (Z * Z) -> Z -> Prop) (minus_value : Z -> list (Z * Z) -> Z -> Prop)
    (w : onto) (c : Z) : list (Z * Z) -> Z -> Prop :=
  match w with fresh => dot_value None | plus => dot_value (Some c) | minus => minus_value c end.
(** What BLAS promises of [sgemm] with such an alpha and beta: each entry is a value it may compute
    for the sum of the products of a row and a column, for the old entry and that sum, or for the old
    entry less that sum; in which order it adds is up to it. *)
Class BlasLaws (B : Blas) := {
  dot_value : option Z -> list (Z * Z) -> Z -> Prop;
  minus_value : Z -> list (Z * Z) -> Z -> Prop;
  gemm_result (w : onto) (ta tb : bool) (m n k : Z) (a : list Z) (lda : Z) (b : list Z) (ldb : Z) (c : list Z) (ldc : Z) :
    Forall (fun d => 0 < d <= INT_MAX) [m; n; k; lda; ldb; ldc] ->
    (if ta then k else m) <= lda -> (if tb then n else k) <= ldb -> m <= ldc ->
    lda * (if ta then m else k) <= Z.of_nat (length a) -> ldb * (if tb then k else n) <= Z.of_nat (length b) ->
    ldc * n <= Z.of_nat (length c) -> Forall is_f32 a -> Forall is_f32 b -> Forall is_f32 c ->
    let r := gemm ta tb m n k (alpha_of w) a lda b ldb (beta_of w) c ldc in
    length r = length c /\ Forall is_f32 r /\
    forall i j, 0 <= i < m -> 0 <= j < n ->
      onto_value dot_value minus_value w (nth (Z.to_nat (i + j * ldc)) c 0)
        (map (fun l => (col_major ta a lda i l, col_major tb b ldb l j)) (between 0 k))
        (nth (Z.to_nat (i + j * ldc)) r 0);
}.
Definition is_dot `{L : BlasLaws} : list (Z * Z) -> Z -> Prop := dot_value None.

(** The textbook's product, which adds from the first to the last. *)
Module TextbookBlas.
Definition sum_products (ps : list (Z * Z)) : Z := fold_left (fun acc ab => f32_add acc (f32_mul ab.1 ab.2)) ps 0.
Definition entry (ta tb : bool) (m n k alpha : Z) (a : list Z) (lda : Z) (b : list Z) (ldb beta : Z) (ldc : Z)
    (p : nat) (c : Z) : Z :=
  let i := Z.of_nat p mod ldc in
  let j := Z.of_nat p / ldc in
  if (i <? m) && (j <? n) then
    let s := sum_products (map (fun l => (col_major ta a lda i l, col_major tb b ldb l j)) (between 0 k)) in
    let s := if alpha =? f32_one then s else f32_mul alpha s in
    if beta =? 0 then s else f32_add s (f32_mul beta c)
  else c.
#[export] Instance blas : Blas := {
  gemm ta tb m n k alpha a lda b ldb beta c ldc := imap (entry ta tb m n k alpha a lda b ldb beta ldc) c;
}.
Lemma sum_products_range ps : is_f32 (sum_products ps).
Proof. apply fold_left_range; [unfold is_f32; lia|]. intros a x _. apply f32_add_range. Qed.
Definition onto_entry (w : onto) (c : Z) (ps : list (Z * Z)) : Z :=
  match w with
  | fresh => sum_products ps
  | plus => f32_add (sum_products ps) (f32_mul f32_one c)
  | minus => f32_add (f32_mul f32_minus_one (sum_products ps)) (f32_mul f32_one c)
  end.
#[export] Program Instance blas_laws : BlasLaws blas := {
  dot_value c ps v := v = match c with Some c => onto_entry plus c ps | None => onto_entry fresh 0 ps end;
  minus_value c ps v := v = onto_entry minus c ps;
}.
Next Obligation.
  intros w ta tb m n k a lda b ldb c ldc Hd _ _ Hm _ _ Hc _ _ Hf.
  rewrite !list.Forall_cons in Hd. destruct Hd as (? & ? & _ & _ & _ & ? & _). split; [apply length_imap|]. split.
  - apply list.Forall_lookup. intros p v Hp. apply list_lookup_imap_Some in Hp as (x & Hx & ->).
    unfold entry. case_match; [|by eapply Forall_lookup_1 in Hx].
    destruct w; simpl; [apply sum_products_range|apply f32_add_range..].
  - intros i j Hi Hj. set (ps := map _ _).
    assert (E : nth (Z.to_nat (i + j * ldc)) (gemm ta tb m n k (alpha_of w) a lda b ldb (beta_of w) c ldc) 0 =
      onto_entry w (nth (Z.to_nat (i + j * ldc)) c 0) ps); [|rewrite E; by destruct w].
    apply nth_lookup_Some. cbn [gemm blas]. rewrite list_lookup_imap.
    assert (0 <= i + j * ldc) by nia. assert (j * ldc + i < n * ldc) by nia.
    destruct (c !! Z.to_nat (i + j * ldc)) as [x|] eqn:E; [|apply lookup_ge_None in E; lia].
    rewrite (nth_lookup_Some _ _ 0 _ E). simpl. f_equal. unfold entry. rewrite Z2Nat.id by lia.
    rewrite (Z.add_comm i), mod_pos, div_pos by lia.
    rewrite (proj2 (Z.ltb_lt i m)), (proj2 (Z.ltb_lt j n)) by lia. by destruct w.
Qed.
End TextbookBlas.

(** Row [y] and column [x] of a matrix, or of its transpose. *)
Definition mat (tr : bool) (t : tensor) (y x : Z) : Z := if tr then elem t x y else elem t y x.
Definition mat_shape (tr : bool) (y x : Z) : list Z := if tr then [y; x] else [x; y].
Lemma col_major_mat tr t y x : tshape t = mat_shape tr y x ->
  forall i l, col_major tr (tvals t) (if tr then y else x) i l = mat tr t l i.
Proof.
  intros E i l. unfold col_major, mat, elem. destruct tr; rewrite E; cbn; do 2 f_equal; lia.
Qed.

Section linear.
Context `{L : BlasLaws}.
(** The products an entry of [dot(l, r)] is the sum of. *)
Definition products (rt : bool) (r : tensor) (lt : bool) (l : tensor) (k y x : Z) : list (Z * Z) :=
  map (fun j => (mat rt r j x, mat lt l y j)) (between 0 k).
Lemma dot_Ok (w : onto) d l r (lt rt : bool) n m k :
  tensor_ok d -> tensor_ok l -> tensor_ok r ->
  tshape d = [m; n] -> tshape l = mat_shape lt n k -> tshape r = mat_shape rt k m ->
  Forall (fun d => 0 < d <= INT_MAX) [m; n; k] ->
  Forall is_f32 (tvals d) -> Forall is_f32 (tvals l) -> Forall is_f32 (tvals r) ->
  exists vs, dot (alpha_of w) (beta_of w) d l lt r rt = Ok (mkTensor [m; n] vs) /\ length vs = length (tvals d) /\
    Forall is_f32 vs /\
    forall y x, 0 <= y < n -> 0 <= x < m ->
      onto_value dot_value minus_value w (elem d y x) (products rt r lt l k y x) (elem (mkTensor [m; n] vs) y x).
Proof.
  intros Td Tl Tr Ed El Er Hb Fd Fl Fr. rewrite !list.Forall_cons in Hb. destruct Hb as (Hm & Hn & Hk & _).
  pose proof (to_length _ Td) as Ld. pose proof (to_length _ Tl) as Ll. pose proof (to_length _ Tr) as Lr.
  rewrite Ed in Ld. rewrite El in Ll. rewrite Er in Lr.
  destruct (gemm_result w rt lt m n k (tvals r) (if rt then k else m) (tvals l) (if lt then n else k) (tvals d) m)
    as (Hlen & Hf & Hv); try done.
  { repeat (constructor; [by destruct rt, lt|]); constructor. }
  all: try (destruct rt, lt; cbn in *; lia).
  eexists. split.
  - unfold dot, GetShape, Assert. rewrite Ed, El, Er.
    assert (El' : (if lt then (dim (mat_shape lt n k) 0, dim (mat_shape lt n k) 1)
      else (dim (mat_shape lt n k) 1, dim (mat_shape lt n k) 0)) = (n, k)) by by destruct lt.
    assert (Er' : (if rt then (dim (mat_shape rt k m) 0, dim (mat_shape rt k m) 1)
      else (dim (mat_shape rt k m) 1, dim (mat_shape rt k m) 0)) = (k, m)) by by destruct rt.
    rewrite El', Er'. change (dim [m; n] 1) with n. change (dim [m; n] 0) with m.
    rewrite !Z.eqb_refl. cbn [andb CHECK mbind outcome_bind].
    replace (if rt then dim (mat_shape rt k m) 1 else dim (mat_shape rt k m) 0) with m by by destruct rt.
    replace (if lt then dim (mat_shape lt n k) 0 else dim (mat_shape lt n k) 1) with n by by destruct lt.
    replace (if rt then dim (mat_shape rt k m) 0 else dim (mat_shape rt k m) 1) with k by by destruct rt.
    replace (dim (mat_shape rt k m) 0) with (if rt then k else m) by by destruct rt.
    replace (dim (mat_shape lt n k) 0) with (if lt then n else k) by by destruct lt. reflexivity.
  - split; [done|]. split; [done|]. intros y x Hy Hx. specialize (Hv x y Hx Hy).
    unfold elem. rewrite Ed. cbn [tshape tvals]. change (dim [m; n] 0) with m. rewrite (Z.add_comm (y * m)).
    unfold products. rewrite (map_ext _ (fun j => (col_major rt (tvals r) (if rt then k else m) x j,
      col_major lt (tvals l) (if lt then n else k) j y))); [exact Hv|].
    intros j. by rewrite (col_major_mat rt r k m), (col_major_mat lt l n k).
Qed.
End linear.

(** ** Tensors in memory *)

(** The tensor [t] is in the memory of the blob of [bp], behind the values [us] and before [us'];
    its own values are [ws]. *)
Record ten_at (h : heap) (bp : Blob * Z) (us : list Z) (t : ten) (ws us' : list Z) : Prop := {
  ta_at : at_cpu h bp.1 bp.2 (us ++ ws ++ us');
  ta_ptr : dptr t = bp.2 + sizeof_float * Z.of_nat (length us);
  ta_ok : tensor_ok (mkTensor (tenshape t) ws);
}.
Lemma wrote_ten l h h' bp us t ws us' :
  wrote l h h' -> Forall (apart bp.1 bp.2) l -> ten_at h bp us t ws us' -> ten_at h' bp us t ws us'.
Proof. intros Hw Hl [Ha Hp Ht]. split; try done. by eapply wrote_at. Qed.
Lemma ten_get h bp us t ws us' : ten_at h bp us t ws us' -> get t h = Ok (mkTensor (tenshape t) ws).
Proof.
  intros [Ha Hp Ht]. destruct t as [p sh]. simpl in *. subst p. eapply get_part; [done|].
  symmetry. apply (to_length _ Ht).
Qed.
Lemma ten_f32 h bp us t ws us' : ten_at h bp us t ws us' -> Forall is_f32 ws.
Proof. intros [Ha _ _]. apply at_cpu_f32 in Ha. by rewrite !Forall_app in Ha; apply Ha. Qed.
Lemma ten_put h bp us t ws us' vs :
  heap_ok h -> ten_at h bp us t ws us' -> length vs = length ws -> Forall is_f32 vs ->
  exists h', put t (mkTensor (tenshape t) vs) h = Ok h' /\ wrote [bp] h h' /\ ten_at h' bp us t vs us'.
Proof.
  intros Hok [Ha Hp Ht] Hl Hf. destruct t as [p sh], bp as [b q]. simpl in *. subst p.
  destruct (put_part h b q us ws us' sh (mkTensor sh vs) Hok Ha Hl Hf) as (h' & E & Hw & Ha').
  exists h'. split; [done|]. split; [done|]. split; [done..|]. destruct Ht as [Hp Hs Hlen]. simpl in *.
  split; [done..|]. simpl. by rewrite Hl.
Qed.
Lemma ten_assign Save h bp us t ws us' w l e f :
  heap_ok h -> ten_at h bp us t ws us' -> tenshape t = w :: l -> dim (eshape e) 0 = 0 \/ eshape e = w :: l ->
  (forall y x, 0 <= y < shape_size l -> 0 <= x < w ->
     Eval e y x = Ok (f y x) /\ is_f32 (Save (elem (mkTensor (w :: l) ws) y x) (f y x))) ->
  exists h' vs, assign Save t e h = Ok h' /\ wrote [bp] h h' /\ ten_at h' bp us t vs us' /\
    forall y x, 0 <= y < shape_size l -> 0 <= x < w ->
      elem (mkTensor (w :: l) vs) y x = Save (elem (mkTensor (w :: l) ws) y x) (f y x).
Proof.
  intros Hok Ht Es Ee Hf. pose proof (ta_ok _ _ _ _ _ _ Ht) as Tok. rewrite Es in Tok.
  destruct (MapExp_Ok Save (mkTensor (w :: l) ws) w l e f Tok eq_refl Ee Hf) as (vs & E & Hl & Hv & Hel).
  destruct (ten_put h bp us t ws us' vs Hok Ht Hl Hv) as (h' & Ep & Hw & Ht').
  exists h', vs. split; [|done]. unfold assign. rewrite (ten_get _ _ _ _ _ _ Ht), bind_Ok, Es, E, bind_Ok, <- Es. done.
Qed.

Section linear_memory.
Context `{L : BlasLaws}.
Lemma ten_assign_dot (w : onto) h bp us t ws us' lt bl ul l vl ul' rt br ur r vr ur' n m k :
  heap_ok h -> ten_at h bp us t ws us' -> ten_at h bl ul l vl ul' -> ten_at h br ur r vr ur' ->
  tenshape t = [m; n] -> tenshape l = mat_shape lt n k -> tenshape r = mat_shape rt k m ->
  Forall (fun d => 0 < d <= INT_MAX) [m; n; k] ->
  exists h' vs, assign_dot (alpha_of w) (beta_of w) t l lt r rt h = Ok h' /\ wrote [bp] h h' /\ ten_at h' bp us t vs us' /\
    forall y x, 0 <= y < n -> 0 <= x < m ->
      onto_value dot_value minus_value w (elem (mkTensor [m; n] ws) y x)
        (products rt (mkTensor (tenshape r) vr) lt (mkTensor (tenshape l) vl) k y x) (elem (mkTensor [m; n] vs) y x).
Proof.
  intros Hok Ht Hl Hr Et El Er Hd. pose proof (ta_ok _ _ _ _ _ _ Ht) as Tok. rewrite Et in Tok.
  destruct (dot_Ok w (mkTensor [m; n] ws) (mkTensor (tenshape l) vl) (mkTensor (tenshape r) vr) lt rt n m k)
    as (vs & E & Hlen & Hv & Hel);
    [done|apply (ta_ok _ _ _ _ _ _ Hl)|apply (ta_ok _ _ _ _ _ _ Hr)|done..|eapply ten_f32; done|eapply ten_f32; done|eapply ten_f32; done|].
  destruct (ten_put h bp us t ws us' vs Hok Ht Hlen Hv) as (h' & Ep & Hw & Ht').
  exists h', vs. split; [|done]. unfold assign_dot.
  rewrite (ten_get _ _ _ _ _ _ Ht), bind_Ok, (ten_get _ _ _ _ _ _ Hl), bind_Ok, (ten_get _ _ _ _ _ _ Hr), bind_Ok.
  rewrite Et, E, bind_Ok, <- Et. done.
Qed.
End linear_memory.

(** The tensors of blobs. *)
Lemma image_part h b p dims sh vs : image_at h b p dims vs -> shape_size sh = shape_size dims -> Forall (fun n => 0 < n) sh ->
  ten_at h (b, p) [] (mkTen p sh) vs [].
Proof.
  intros [Ha Hd Hp Hm Hl] Hs Hsh. split; simpl; [by rewrite app_nil_r|lia|].
  split; simpl; [done|rewrite Hs; unfold INT_MAX in Hm; lia|by rewrite Hs].
Qed.
Lemma image_make h b p dims vs dims' : image_at h b p dims vs -> Forall (fun n => 0 < n) dims' ->
  shape_size dims' = shape_size dims -> make_ten b dims' h = Ok (h, mkTen p (rev dims')).
Proof.
  intros [Ha Hd Hp Hm Hl] Hp' Hs. unfold make_ten. destruct (at_cpu_data _ _ _ _ Ha) as [_ ->]. rewrite bind_Ok.
  rewrite map_u32_dims; [done..|]. by rewrite Hs.
Qed.
Lemma image_count h b p dims vs : image_at h b p dims vs -> count_ b = shape_size dims.
Proof. intros [Ha _ _ _ Hl]. by rewrite (at_cpu_count _ _ _ _ Ha). Qed.
Lemma part_length h h' b p dims sh vs vs' : image_at h b p dims vs -> ten_at h' (b, p) [] (mkTen p sh) vs' [] ->
  shape_size sh = shape_size dims -> length vs' = length vs.
Proof.
  intros Hi [_ _ Ht] Hs. apply Nat2Z.inj. rewrite (im_length _ _ _ _ _ Hi), <- Hs. exact (to_length _ Ht).
Qed.
Lemma part_image h h' b p dims sh vs vs' : image_at h b p dims vs -> ten_at h' (b, p) [] (mkTen p sh) vs' [] ->
  shape_size sh = shape_size dims -> image_at h' b p dims vs'.
Proof.
  intros Hi Ht Hs. pose proof (part_length _ _ _ _ _ _ _ _ Hi Ht Hs) as Hlen.
  destruct Hi as [Ha Hd Hp Hm Hl], Ht as [Ha' _ _]. simpl in Ha'. rewrite app_nil_r in Ha'. split; try done. by rewrite Hlen.
Qed.
Lemma size_2 a b : shape_size [a; b] = a * b.
Proof. cbn. by rewrite Z.mul_1_r. Qed.
Lemma dims_int h b p dims vs : image_at h b p dims vs -> Forall (fun d => 0 < d <= INT_MAX) dims.
Proof.
  intros [_ _ Hp Hm _]. apply list.Forall_forall. intros d Hd. pose proof (shape_elem_small d dims Hp Hd). lia.
Qed.
Lemma image_Tensor2 h b p d rest vs : image_at h b p (d :: rest) vs ->
  Tensor2 b h = Ok (h, mkTen p [shape_size rest; d]) /\ ten_at h (b, p) [] (mkTen p [shape_size rest; d]) vs [].
Proof.
  intros Hi. pose proof (im_pos _ _ _ _ _ Hi) as Hp. inversion Hp as [|? ? Hd Hr]; subst. pose proof (shape_size_pos rest Hr).
  assert (Hs : shape_size [shape_size rest; d] = shape_size (d :: rest)) by (cbn; rewrite Z.mul_1_r; apply Z.mul_comm).
  split; [|eapply image_part; [done|done|by repeat constructor]].
  unfold Tensor2. rewrite (im_dims _ _ _ _ _ Hi). cbn [idx]. simpl. rewrite (image_count _ _ _ _ _ Hi).
  change (shape_size (d :: rest)) with (d * shape_size rest). rewrite idiv_Ok by nia. rewrite bind_Ok.
  rewrite (Z.mul_comm d), Z.div_mul by lia. eapply image_make; [done|by repeat constructor|].
  cbn. change (d * shape_size rest) with (d * shape_size rest). by rewrite Z.mul_1_r.
Qed.
Lemma image_Tensor1 h b p d vs : image_at h b p [d] vs ->
  Tensor1 b h = Ok (h, mkTen p [d]) /\ ten_at h (b, p) [] (mkTen p [d]) vs [].
Proof.
  intros Hi. pose proof (im_pos _ _ _ _ _ Hi) as Hp. split; [|by eapply image_part].
  unfold Tensor1. rewrite (image_count _ _ _ _ _ Hi). replace (shape_size [d]) with d by (cbn; lia). by eapply image_make.
Qed.

(** ** Rows of biases *)
Definition row (bs : list Z) (x : Z) : Z := nth (Z.to_nat x) bs 0.
Lemma ten_add_rows h bp us t ws us' bb ub b bs ub' m n :
  heap_ok h -> ten_at h bp us t ws us' -> ten_at h bb ub b bs ub' -> tenshape t = [m; n] -> tenshape b = [m] ->
  exists h' vs, add_rows t b n h = Ok h' /\ wrote [bp] h h' /\ ten_at h' bp us t vs us' /\
    forall y x, 0 <= y < n -> 0 <= x < m ->
      elem (mkTensor [m; n] vs) y x = f32_add (elem (mkTensor [m; n] ws) y x) (row bs x).
Proof.
  intros Hok Ht Hb Et Eb. pose proof (ta_ok _ _ _ _ _ _ Ht) as Tok. rewrite Et in Tok.
  pose proof (ta_ok _ _ _ _ _ _ Hb) as Bok. rewrite Eb in Bok.
  destruct (tensor_dims _ m n [] Tok eq_refl) as (Hm & Hn & _). pose proof (to_length _ Bok) as Bl. simpl in Bl.
  replace (shape_size [m]) with m in Bl by (cbn; lia).
  assert (Hs : forall y, 0 <= y < shape_size [n] <-> 0 <= y < n) by (intros y; cbn; lia).
  destruct (ten_assign plusto h bp us t ws us' m [n] (repmat (mkTensor [m] bs) n) (fun _ x => row bs x))
    as (h' & vs & E & Hw & Ht' & Hel); [done..|by right| |].
  { intros y x _ Hx. split; [|apply f32_add_range]. cbn [repmat Eval tvals]. apply idx_nth. lia. }
  exists h', vs. split; [|split; [done|split; [done|]]].
  - unfold add_rows. rewrite (ten_get _ _ _ _ _ _ Hb), bind_Ok, Eb, u32_small by lia. done.
  - intros y x Hy Hx. apply Hel; [by apply Hs|done].
Qed.
(** The sum of the column [x], from the top. *)
Definition column_sum (t : tensor) (n x : Z) : Z :=
  f32_mul (fold_left (fun acc y => f32_add acc (elem t y x)) (between 1 n) (elem t 0 x)) f32_one.
Lemma ten_sum_rows Save h bp us t ws us' bm um m vm um' w n : (forall a b, is_f32 b -> is_f32 (Save a b)) ->
  heap_ok h -> ten_at h bp us t ws us' -> ten_at h bm um m vm um' -> tenshape t = [w] -> tenshape m = [w; n] ->
  exists h' vs, assign_sum_rows Save t m h = Ok h' /\ wrote [bp] h h' /\ ten_at h' bp us t vs us' /\
    forall x, 0 <= x < w -> row vs x = Save (row ws x) (column_sum (mkTensor [w; n] vm) n x).
Proof.
  intros HSave Hok Ht Hm Et Em. pose proof (ta_ok _ _ _ _ _ _ Ht) as Tok. rewrite Et in Tok.
  pose proof (ta_ok _ _ _ _ _ _ Hm) as Mok. rewrite Em in Mok.
  destruct (tensor_dims _ w n [] Mok eq_refl) as (Hw & Hn & _). pose proof (to_length _ Tok) as Tl. simpl in Tl.
  replace (shape_size [w]) with w in Tl by (cbn; lia).
  assert (Hs : shape_size [n] = n) by (cbn; lia).
  set (sums := map (column_sum (mkTensor [w; n] vm) n) (between 0 w)). set (vs := zip_with Save ws sums).
  assert (Hsums : length sums = length ws) by (unfold sums; rewrite length_map, length_between; lia).
  assert (Hat : forall x, 0 <= x < w -> sums !! Z.to_nat x = Some (column_sum (mkTensor [w; n] vm) n x)).
  { intros x Hx. unfold sums. change (map ?g ?l) with (g <$> l). pose proof (between_lookup 0 w x) as Hb.
    rewrite list_lookup_fmap, Hb by lia. done. }
  assert (Hlen : length vs = length ws) by (unfold vs; rewrite length_zip_with; lia).
  assert (Hf : Forall is_f32 vs).
  { apply list.Forall_lookup. intros i v Hv. unfold vs in Hv. apply lookup_zip_with_Some in Hv as (a & b & -> & _ & Hb).
    apply HSave. apply list_elem_of_lookup_2, list_elem_of_In, in_map_iff in Hb as (x & <- & _). apply f32_mul_range. }
  destruct (ten_put h bp us t ws us' vs Hok Ht Hlen Hf) as (h' & Ep & Hwr & Ht').
  exists h', vs. split; [|split; [done|split; [done|]]].
  - unfold assign_sum_rows. rewrite (ten_get _ _ _ _ _ _ Ht), bind_Ok, (ten_get _ _ _ _ _ _ Hm), bind_Ok, Et, Em.
    unfold MapReduceKeepLowest, Assert. cbn [eshape tensor_exp tshape]. change (dim [w; n] 0) with w. change (dim [w] 0) with w.
    assert (Hr : rows [w; n] = n).
    { destruct (rows_cons _ w [n] Mok eq_refl) as [Hr _]. cbn [tshape] in Hr. by rewrite Hr. }
    rewrite Hr, Z.eqb_refl, (proj2 (Z.eqb_neq n 0)) by lia. cbn [negb CHECK mbind outcome_bind].
    rewrite (map_out_Ok _ (column_sum (mkTensor [w; n] vm) n)).
    + rewrite bind_Ok. fold sums. unfold save_all. cbn [tvals tshape]. rewrite decide_True by lia.
      rewrite drop_ge, app_nil_r, bind_Ok by lia. rewrite <- Et. done.
    + intros x Hx. apply elem_of_between in Hx.
      assert (Hev : forall y, 0 <= y < n -> Eval (tensor_exp (mkTensor [w; n] vm)) y x = Ok (elem (mkTensor [w; n] vm) y x)).
      { intros y Hy. apply (tensor_eval _ w n []); [done|done|by rewrite Hs|done]. }
      rewrite (Hev 0), bind_Ok by lia. rewrite (fold_out_Ok _ (fun acc y => f32_add acc (elem (mkTensor [w; n] vm) y x))); [done|].
      intros acc y Hy. apply elem_of_between in Hy. by rewrite Hev by lia.
  - intros x Hx. unfold row. apply nth_lookup_Some. unfold vs. rewrite lookup_zip_with, (Hat x Hx).
    destruct (ws !! Z.to_nat x) as [u|] eqn:Eu; [|apply lookup_ge_None in Eu; lia]. by rewrite (nth_lookup_Some _ _ _ _ Eu).
Qed.

(** ** Concrete stores, for the witnesses *)
Definition with_blobs (bs : gmap Z Blob) (h : heap) : heap := mkHeap (cells h) (brk h) (sms h) bs (next_id h).
Lemma with_blobs_ok bs h : heap_ok h -> map_Forall (fun i _ => i < next_id h) bs -> heap_ok (with_blobs bs h).
Proof. intros [Hb Hc Hs _] H. by constructor. Qed.
(** The memory object [i] holds all values of a blob of this shape. *)
Definition full_blob (i : Z) (shape : list Z) : Blob := mkBlob (Some i) shape (shape_size shape) (shape_size shape) (-1).
Definition param_of (d : Z) (g : Blob) : Param := set_blobs (Some d) g Blob_new ParamProto_default Param_new.
Ltac concrete_apart :=
  repeat first [ apply FOP_nil | apply FOP_cons | apply Forall_nil_2 | apply Forall_cons_2 ];
  intros ? ?; unfold outside, sizeof_float in *; simpl in *; lia.
