(* ===== verification/InnerProductProps.v ===== *)
(** * Properties of the inner product layer

    What the layer computes from its source, its weights and its bias, and the gradients it
    gives back, over any product of matrices that keeps the law of BLAS. *)

From Stdlib Require Import SpecFloat.
From S2P Require Import Prelude Float32 Metric Msg Format Memory Param Server Worker LayerConf Layers LayersProps LayerCompute Mshadow MshadowProps LayerMath LayerMathProps LayerLinear.

Section inner_product.
Context `{L : BlasLaws}.

(** The data [os] of a batch [vs] with the weight [ws] and the bias [bs]. *)
Definition linear_rel (hdim vdim n : Z) (vs ws bs os : list Z) : Prop :=
  forall y x, 0 <= y < n -> 0 <= x < hdim ->
    exists v, is_dot (map (fun k => (elem (mkTensor [hdim; vdim] ws) k x, elem (mkTensor [vdim; n] vs) y k)) (between 0 vdim)) v /\
      elem (mkTensor [hdim; n] os) y x = f32_add v (row bs x).
Lemma InnerProduct_feature (i : Z) (s : nstate) (o : LayerObj) (hdim vdim n wi bi : Z)
    (sb wb bb : Blob) (sp wp bp dp : Z) (sdims vs ws bs ds : list Z)
    (Hok : heap_ok (nheap s)) (Ho : objs s !! i = Some o) (Hsub : osub o = InnerProductSub hdim vdim n wi bi)
    (Hsrc : src_mutable i 0 kPositive s = Ok sb)
    (Hwb : param_data wi s (nheap s) = Ok wb) (Hbb : param_data bi s (nheap s) = Ok bb)
    (Hvs : image_at (nheap s) sb sp (n :: sdims) vs) (Hvd : shape_size sdims = vdim)
    (Hws : image_at (nheap s) wb wp [vdim; hdim] ws) (Hbs : image_at (nheap s) bb bp [hdim] bs)
    (Hds : image_at (nheap s) (odata o) dp [n; hdim] ds)
    (Hsep : Forall (fun b => apart b.1 b.2 (odata o, dp)) [(sb, sp); (wb, wp); (bb, bp)]) :
  exists h' os, InnerProduct_ComputeFeature i s = Ok (set_nheap h' s) /\ wrote [(odata o, dp)] (nheap s) h' /\
    image_at h' (odata o) dp [n; hdim] os /\ linear_rel hdim vdim n vs ws bs os.
Proof.
  destruct (image_Tensor2 _ _ _ _ _ _ Hds) as [Ed Td]. destruct (image_Tensor2 _ _ _ _ _ _ Hvs) as [Es Ts].
  destruct (image_Tensor2 _ _ _ _ _ _ Hws) as [Ew Tw]. destruct (image_Tensor1 _ _ _ _ _ Hbs) as [Eb Tb].
  replace (shape_size [hdim]) with hdim in * by (cbn; lia). rewrite Hvd in *.
  pose proof (dims_int _ _ _ _ _ Hws) as Hwd. pose proof (dims_int _ _ _ _ _ Hvs) as Hvd'.
  destruct (ten_assign_dot fresh _ _ _ _ _ _ false _ _ _ _ _ false _ _ _ _ _ n hdim vdim Hok Td Ts Tw)
    as (h1 & d1 & E1 & W1 & T1 & P1); [done..| |].
  { rewrite !list.Forall_cons in *. split_and!; try apply Hwd; try apply Hvd'. }
  cbn [alpha_of beta_of onto_value] in E1, P1. rewrite !list.Forall_cons in Hsep. destruct Hsep as (_ & _ & Hb & _).
  pose proof (wrote_ten _ _ _ _ _ _ _ _ W1 (proj2 (list.Forall_singleton _ _) Hb) Tb) as Tb1.
  destruct (ten_add_rows h1 _ _ _ _ _ _ _ _ _ _ hdim n (wr_ok _ _ _ W1) T1 Tb1) as (h2 & d2 & E2 & W2 & T2 & P2); [done..|].
  exists h2, d2. split; [|split; [by eapply wrote_trans|split]].
  - unfold InnerProduct_ComputeFeature. rewrite (obj_Ok _ _ _ Ho), bind_Ok, Hsub.
    rewrite Ed, bind_Ok, Hsrc, bind_Ok, Es, bind_Ok, Hwb, bind_Ok, Ew, bind_Ok, Hbb, bind_Ok, Eb, bind_Ok.
    rewrite E1, bind_Ok, E2, bind_Ok. done.
  - eapply part_image; [exact Hds|exact T2|]. rewrite !size_2. apply Z.mul_comm.
  - intros y x Hy Hx. eexists. split; [apply (P1 y x Hy Hx)|]. apply P2; done.
Qed.

(** C16. The inner product layer forwards.  On a batch of [n] vectors of [vdim] values, with a weight of
    [vdim] by [hdim] and a bias of [hdim] values, none of them in the memory of the data,
    [ComputeFeature] returns and writes nothing but the data: its value [(y, x)] is a value BLAS
    may compute for the product of vector [y] and column [x] of the weight, plus value [x] of
    the bias. *)
Theorem InnerProduct_ComputeFeature_spec (i : Z) (s : nstate) (o : LayerObj) (hdim vdim n wi bi : Z)
    (sb wb bb : Blob) (sp wp bp dp : Z) (sdims vs ws bs ds : list Z)
    (Hok : heap_ok (nheap s)) (Ho : objs s !! i = Some o) (Hsub : osub o = InnerProductSub hdim vdim n wi bi)
    (Hsrc : src_mutable i 0 kPositive s = Ok sb)
    (Hwb : param_data wi s (nheap s) = Ok wb) (Hbb : param_data bi s (nheap s) = Ok bb)
    (Hvs : image_at (nheap s) sb sp (n :: sdims) vs) (Hvd : shape_size sdims = vdim)
    (Hws : image_at (nheap s) wb wp [vdim; hdim] ws) (Hbs : image_at (nheap s) bb bp [hdim] bs)
    (Hds : image_at (nheap s) (odata o) dp [n; hdim] ds)
    (Hsep : Forall (fun b => apart b.1 b.2 (odata o, dp)) [(sb, sp); (wb, wp); (bb, bp)]) :
  exists h' os, InnerProduct_ComputeFeature i s = Ok (set_nheap h' s) /\ wrote [(odata o, dp)] (nheap s) h' /\
    image_at h' (odata o) dp [n; hdim] os /\
    forall y x, 0 <= y < n -> 0 <= x < hdim ->
      exists v, is_dot (map (fun k => (elem (mkTensor [hdim; vdim] ws) k x, elem (mkTensor [vdim; n] vs) y k)) (between 0 vdim)) v /\
        elem (mkTensor [hdim; n] os) y x = f32_add v (row bs x).
Proof. by apply (InnerProduct_feature _ _ o _ _ _ wi bi sb wb bb sp wp bp dp sdims vs ws bs ds). Qed.

(** The gradient of the source, when it has one. *)
Lemma source_gradient h gopt gp n vdim hdim sdims gs bw wt wv bg gt gv :
  heap_ok h -> match gopt with Some gb => image_at h gb gp (n :: sdims) gs | None => True end -> shape_size sdims = vdim ->
  ten_at h bw [] wt wv [] -> ten_at h bg [] gt gv [] -> tenshape wt = [hdim; vdim] -> tenshape gt = [hdim; n] ->
  Forall (fun d => 0 < d <= INT_MAX) [vdim; n; hdim] ->
  exists h' gs', (match gopt with
    | Some gb => '(h, gsrc) ← Tensor2 gb h; assign_dot f32_one 0 gsrc gt false wt true h
    | None => Ok h
    end) = Ok h' /\ wrote (match gopt with Some gb => [(gb, gp)] | None => [] end) h h' /\
    forall gb, gopt = Some gb -> image_at h' gb gp (n :: sdims) gs' /\
      forall y x, 0 <= y < n -> 0 <= x < vdim ->
        is_dot (map (fun k => (elem (mkTensor [hdim; vdim] wv) x k, elem (mkTensor [hdim; n] gv) y k)) (between 0 hdim))
          (elem (mkTensor [vdim; n] gs') y x).
Proof.
  intros Hok Hg Hvd Tw Tg Ew Eg Hd. destruct gopt as [gb|]; [|exists h, []; split; [done|]; split; [by apply wrote_refl|done]].
  destruct (image_Tensor2 _ _ _ _ _ _ Hg) as [E T]. rewrite Hvd in *. rewrite E, bind_Ok.
  destruct (ten_assign_dot fresh _ _ _ _ _ _ false _ _ _ _ _ true _ _ _ _ _ n vdim hdim Hok T Tg Tw) as (h' & gs' & Ea & W & T' & P);
    [done..|]. exists h', gs'. split; [exact Ea|]. split; [done|]. intros b [= <-]. split.
  - eapply part_image; [exact Hg|exact T'|]. rewrite size_2, <- Hvd. apply Z.mul_comm.
  - rewrite Ew, Eg in P. exact P.
Qed.

(** The gradients of the weight and of the source for a gradient [os] of the data. *)
Definition weight_grad_rel (hdim vdim n : Z) (vs os gws : list Z) : Prop :=
  forall y x, 0 <= y < vdim -> 0 <= x < hdim ->
    is_dot (map (fun k => (elem (mkTensor [hdim; n] os) k x, elem (mkTensor [vdim; n] vs) k y)) (between 0 n))
      (elem (mkTensor [hdim; vdim] gws) y x).
Definition bias_grad_rel (hdim n : Z) (os gbs : list Z) : Prop :=
  forall x, 0 <= x < hdim -> row gbs x = column_sum (mkTensor [hdim; n] os) n x.
Definition source_grad_rel (hdim vdim n : Z) (ws os gs : list Z) : Prop :=
  forall y x, 0 <= y < n -> 0 <= x < vdim ->
    is_dot (map (fun k => (elem (mkTensor [hdim; vdim] ws) x k, elem (mkTensor [hdim; n] os) y k)) (between 0 hdim))
      (elem (mkTensor [vdim; n] gs) y x).
Lemma InnerProduct_gradient (i : Z) (s : nstate) (o : LayerObj) (hdim vdim n wi bi : Z)
    (sb wb gw gb : Blob) (gopt : option Blob) (sp wp gwp gbp gp op : Z) (sdims vs ws os gws gbs gs : list Z)
    (Hok : heap_ok (nheap s)) (Ho : objs s !! i = Some o) (Hsub : osub o = InnerProductSub hdim vdim n wi bi)
    (Hsrc : src_mutable i 0 kPositive s = Ok sb) (Hgrad : src_mutable_grad i 0 s = Ok gopt)
    (Hwb : param_data wi s (nheap s) = Ok wb) (Hgw : param_grad wi s = Ok gw) (Hgb : param_grad bi s = Ok gb)
    (Hvs : image_at (nheap s) sb sp (n :: sdims) vs) (Hvd : shape_size sdims = vdim)
    (Hos : image_at (nheap s) (ograd o) op [n; hdim] os) (Hws : image_at (nheap s) wb wp [vdim; hdim] ws)
    (Hgws : image_at (nheap s) gw gwp [vdim; hdim] gws) (Hgbs : image_at (nheap s) gb gbp [hdim] gbs)
    (Hgs : match gopt with Some g => image_at (nheap s) g gp (n :: sdims) gs | None => True end)
    (Hsep : separate ([(sb, sp); (ograd o, op); (wb, wp); (gw, gwp); (gb, gbp)] ++
                      match gopt with Some g => [(g, gp)] | None => [] end)) :
  exists h' gws' gbs' gs', InnerProduct_ComputeGradient i s = Ok (set_nheap h' s) /\
    wrote ([(gb, gbp); (gw, gwp)] ++ match gopt with Some g => [(g, gp)] | None => [] end) (nheap s) h' /\
    (image_at h' gb gbp [hdim] gbs' /\ bias_grad_rel hdim n os gbs') /\
    (image_at h' gw gwp [vdim; hdim] gws' /\ weight_grad_rel hdim vdim n vs os gws') /\
    forall g, gopt = Some g -> image_at h' g gp (n :: sdims) gs' /\ source_grad_rel hdim vdim n ws os gs'.
Proof.
  destruct (image_Tensor2 _ _ _ _ _ _ Hvs) as [Es Ts]. destruct (image_Tensor2 _ _ _ _ _ _ Hos) as [Eo To].
  destruct (image_Tensor2 _ _ _ _ _ _ Hws) as [Ew Tw]. destruct (image_Tensor2 _ _ _ _ _ _ Hgws) as [Egw Tgw].
  destruct (image_Tensor1 _ _ _ _ _ Hgbs) as [Egb Tgb].
  replace (shape_size [hdim]) with hdim in * by (cbn; lia). rewrite Hvd in *.
  pose proof (dims_int _ _ _ _ _ Hws) as Hwd. pose proof (dims_int _ _ _ _ _ Hvs) as Hnd.
  rewrite !list.Forall_cons in Hwd. rewrite !list.Forall_cons in Hnd. destruct Hwd as (Hv & Hh & _), Hnd as (Hn & _).
  destruct (separate_tail _ _ Hsep) as [Hs Htail]. rewrite !list.Forall_cons in Htail.
  destruct Htail as (_ & Hog & Hwg & Hgwg & Hgbg & _).
  destruct (ten_sum_rows saveto _ _ _ _ _ _ _ _ _ _ _ hdim n (fun _ _ H => H) Hok Tgb To) as (h1 & b1 & E1 & W1 & T1 & P1); [done..|].
  destruct (ten_assign_dot fresh h1 (gw, gwp) [] (mkTen gwp [hdim; vdim]) gws [] true (sb, sp) [] (mkTen sp [vdim; n]) vs []
    false (ograd o, op) [] (mkTen op [hdim; n]) os [] vdim hdim n (wr_ok _ _ _ W1)) as (h2 & w2 & E2 & W2 & T2 & P2);
    [eapply wrote_ten; [exact W1|apart_in Hs|done]..|done|done|done|by rewrite !list.Forall_cons|].
  cbn [alpha_of beta_of onto_value] in E2, P2.
  pose proof (wrote_seq _ _ _ _ _ W1 W2 : wrote [(gb, gbp); (gw, gwp)] (nheap s) h2) as W12.
  destruct (source_gradient h2 gopt gp n vdim hdim sdims gs (wb, wp) (mkTen wp [hdim; vdim]) ws (ograd o, op) (mkTen op [hdim; n]) os
    (wr_ok _ _ _ W2)) as (h3 & g3 & E3 & W3 & P3);
    [destruct gopt; [|done]; rewrite list.Forall_singleton in Hgwg, Hgbg; simpl in Hgwg, Hgbg;
     eapply wrote_image; [exact W12|constructor; [apply Hgbg|constructor; [apply Hgwg|constructor]]|done]|
     done|eapply wrote_ten; [exact W12|apart_in Hs|done]..|done|done|by rewrite !list.Forall_cons|].
  assert (Hkeep : forall b p u t l u', Forall (fun y => apart b p y /\ apart y.1 y.2 (b, p)) (match gopt with Some g => [(g, gp)] | None => [] end) ->
    ten_at h2 (b, p) u t l u' -> ten_at h3 (b, p) u t l u').
  { intros b p u t l u' Ha. apply (wrote_ten _ _ _ _ _ _ _ _ W3). eapply list.Forall_impl; [exact Ha|]. by intros y [? _]. }
  assert (T1' : ten_at h2 (gb, gbp) [] (mkTen gbp [hdim]) b1 []) by (eapply wrote_ten; [exact W2|apart_in Hs|exact T1]).
  exists h3, w2, b1, g3. split; [|split; [|split; [|split; [|exact P3]]]].
  - unfold InnerProduct_ComputeGradient. rewrite (obj_Ok _ _ _ Ho), bind_Ok, Hsub, Hsrc, bind_Ok.
    rewrite Es, bind_Ok, Eo, bind_Ok, Hwb, bind_Ok, Ew, bind_Ok, Hgw, bind_Ok, Egw, bind_Ok, Hgb, bind_Ok, Egb, bind_Ok.
    rewrite E1, bind_Ok, E2, bind_Ok, Hgrad, bind_Ok, E3, bind_Ok. done.
  - exact (wrote_seq _ _ _ _ _ W12 W3).
  - split; [|exact P1]. eapply part_image; [exact Hgbs|by apply Hkeep|done].
  - split; [|exact P2]. eapply part_image; [exact Hgws|by apply Hkeep|]. rewrite !size_2. apply Z.mul_comm.
Qed.

(** C17. The inner product layer backwards.  When no two blobs share memory, [ComputeGradient] returns
    and writes nothing but the gradients: the bias gets the sums of the columns of the data's
    gradient, the weight the products of the columns of the source and of that gradient, and the
    source, when it has a gradient, the products of the rows of that gradient and of the
    weight. *)
Theorem InnerProduct_ComputeGradient_spec (i : Z) (s : nstate) (o : LayerObj) (hdim vdim n wi bi : Z)
    (sb wb gw gb : Blob) (gopt : option Blob) (sp wp gwp gbp gp op : Z) (sdims vs ws os gws gbs gs : list Z)
    (Hok : heap_ok (nheap s)) (Ho : objs s !! i = Some o) (Hsub : osub o = InnerProductSub hdim vdim n wi bi)
    (Hsrc : src_mutable i 0 kPositive s = Ok sb) (Hgrad : src_mutable_grad i 0 s = Ok gopt)
    (Hwb : param_data wi s (nheap s) = Ok wb) (Hgw : param_grad wi s = Ok gw) (Hgb : param_grad bi s = Ok gb)
    (Hvs : image_at (nheap s) sb sp (n :: sdims) vs) (Hvd : shape_size sdims = vdim)
    (Hos : image_at (nheap s) (ograd o) op [n; hdim] os) (Hws : image_at (nheap s) wb wp [vdim; hdim] ws)
    (Hgws : image_at (nheap s) gw gwp [vdim; hdim] gws) (Hgbs : image_at (nheap s) gb gbp [hdim] gbs)
    (Hgs : match gopt with Some g => image_at (nheap s) g gp (n :: sdims) gs | None => True end)
    (Hsep : separate ([(sb, sp); (ograd o, op); (wb, wp); (gw, gwp); (gb, gbp)] ++
                      match gopt with Some g => [(g, gp)] | None => [] end)) :
  exists h' gws' gbs' gs', InnerProduct_ComputeGradient i s = Ok (set_nheap h' s) /\
    wrote ([(gb, gbp); (gw, gwp)] ++ match gopt with Some g => [(g, gp)] | None => [] end) (nheap s) h' /\
    (image_at h' gb gbp [hdim] gbs' /\
     forall x, 0 <= x < hdim -> row gbs' x = column_sum (mkTensor [hdim; n] os) n x) /\
    (image_at h' gw gwp [vdim; hdim] gws' /\
     forall y x, 0 <= y < vdim -> 0 <= x < hdim ->
       is_dot (map (fun k => (elem (mkTensor [hdim; n] os) k x, elem (mkTensor [vdim; n] vs) k y)) (between 0 n))
         (elem (mkTensor [hdim; vdim] gws') y x)) /\
    forall g, gopt = Some g -> image_at h' g gp (n :: sdims) gs' /\
      forall y x, 0 <= y < n -> 0 <= x < vdim ->
        is_dot (map (fun k => (elem (mkTensor [hdim; vdim] ws) x k, elem (mkTensor [hdim; n] os) y k)) (between 0 hdim))
          (elem (mkTensor [vdim; n] gs') y x).
Proof. by apply (InnerProduct_gradient _ _ o _ _ _ wi bi sb wb gw gb gopt sp wp gwp gbp gp op sdims vs ws os gws gbs gs). Qed.
End inner_product.

(** ** Witnesses: two vectors of two values, one column *)
Import TextbookBlas.
Module InnerProductDemo.
Definition floats : list Z -> list Z := map f32_of_Z.
Definition heap0 : heap :=
  with_blobs {[10 := full_blob 1 [2; 1]; 11 := full_blob 2 [1]]}
    (packed (floats [1; 2; 3; 4] ++ floats [10; 100] ++ floats [5] ++ floats [0; 0] ++ floats [1; 2] ++
             floats [0; 0] ++ floats [0] ++ floats [0; 0; 0; 0])
      {[0 := mkSM 1 16 HEAD_AT_CPU true; 1 := mkSM 17 8 HEAD_AT_CPU true; 2 := mkSM 25 4 HEAD_AT_CPU true;
        3 := mkSM 29 8 HEAD_AT_CPU true; 4 := mkSM 37 8 HEAD_AT_CPU true; 5 := mkSM 45 8 HEAD_AT_CPU true;
        6 := mkSM 53 4 HEAD_AT_CPU true; 7 := mkSM 57 16 HEAD_AT_CPU true]} 12).
Definition layer : LayerObj :=
  set_sub (InnerProductSub 1 2 2 0 1)
    (set_grad (full_blob 4 [2; 1]) (set_data (full_blob 3 [2; 1]) (set_srcs [0] (LayerObj_new kInnerProduct)))).
Definition state : nstate :=
  mkNS {[0 := set_grad (full_blob 7 [2; 2]) (set_data (full_blob 0 [2; 2]) (LayerObj_new kTanh)); 1 := layer]} 2
    (mkWorld heap0 {[0 := param_of 10 (full_blob 5 [2; 1]); 1 := param_of 11 (full_blob 6 [1])]} 2 ∅).
Lemma inner_heap_ok : heap_ok heap0.
Proof. apply with_blobs_ok; [apply packed_ok|]; by apply (bool_decide_unpack _). Qed.
End InnerProductDemo.
(** The second vector, 3 and 4, with the column 10 and 100 and the bias 5. *)
Lemma InnerProduct_ComputeFeature_witness : exists h' os,
  InnerProduct_ComputeFeature 1 InnerProductDemo.state = Ok (set_nheap h' InnerProductDemo.state) /\
  image_at h' (full_blob 3 [2; 1]) 29 [2; 1] os /\ elem (mkTensor [1; 2] os) 1 0 = f32_of_Z 435.
Proof.
  destruct (InnerProduct_ComputeFeature_spec 1 InnerProductDemo.state InnerProductDemo.layer 1 2 2 0 1
    (full_blob 0 [2; 2]) (full_blob 1 [2; 1]) (full_blob 2 [1]) 1 17 25 29 [2] (InnerProductDemo.floats [1; 2; 3; 4])
    (InnerProductDemo.floats [10; 100]) (InnerProductDemo.floats [5]) (InnerProductDemo.floats [0; 0]))
    as (h' & os & E & _ & Hi & Hos);
    [exact InnerProductDemo.inner_heap_ok|reflexivity|reflexivity|vm_compute; reflexivity|reflexivity|reflexivity|
     concrete_image 0|reflexivity|concrete_image 1|concrete_image 2|concrete_image 3|concrete_apart|].
  exists h', os. split; [exact E|]. split; [exact Hi|].
  destruct (Hos 1 0) as (v & Hv & Eos); [lia|lia|]. refine (eq_trans Eos _). simpl in Hv. rewrite Hv. vm_compute. reflexivity.
Defined.
Lemma InnerProduct_ComputeGradient_witness : exists h' gbs gs,
  InnerProduct_ComputeGradient 1 InnerProductDemo.state = Ok (set_nheap h' InnerProductDemo.state) /\
  row gbs 0 = f32_of_Z 3 /\ elem (mkTensor [2; 2] gs) 1 1 = f32_of_Z 200.
Proof.
  destruct (InnerProduct_ComputeGradient_spec 1 InnerProductDemo.state InnerProductDemo.layer 1 2 2 0 1
    (full_blob 0 [2; 2]) (full_blob 1 [2; 1]) (full_blob 5 [2; 1]) (full_blob 6 [1]) (Some (full_blob 7 [2; 2]))
    1 17 45 53 57 37 [2] (InnerProductDemo.floats [1; 2; 3; 4]) (InnerProductDemo.floats [10; 100])
    (InnerProductDemo.floats [1; 2]) (InnerProductDemo.floats [0; 0]) (InnerProductDemo.floats [0])
    (InnerProductDemo.floats [0; 0; 0; 0])) as (h' & gws & gbs & gs & E & _ & (_ & Hb) & _ & Hg);
    [exact InnerProductDemo.inner_heap_ok|reflexivity|reflexivity|vm_compute; reflexivity|vm_compute; reflexivity|
     reflexivity|reflexivity|reflexivity|concrete_image 0|reflexivity|concrete_image 4|concrete_image 1|concrete_image 5|
     concrete_image 6|concrete_image 7|concrete_apart|].
  exists h', gbs, gs. split; [exact E|]. split; [refine (eq_trans (Hb 0 _) _); [lia|vm_compute; reflexivity]|].
  destruct (Hg _ eq_refl) as [_ Hgs]. pose proof (Hgs 1 1 ltac:(lia) ltac:(lia)) as Hv. simpl in Hv. rewrite Hv. vm_compute. reflexivity.
Defined.
