(* ===== verification/ActivationProps.v ===== *)
(** * Properties of the activation and normalisation layers

    ReLU, Tanh and Dropout work value by value, local response normalisation on the neighbouring
    channels of a pixel.  All are shown for any functions of the C library ([Mathf]). *)

From Stdlib Require Import SpecFloat.
From S2P Require Import Prelude Float32 Metric Msg Format Memory Param Server Worker LayerConf Layers LayersProps LayerCompute Mshadow MshadowProps LayerMath LayerMathProps LayerLinear.

(** ** Vectors: tensors of one dimension *)

Definition at_ (vs : list Z) (x : Z) : Z := nth (Z.to_nat x) vs 0.
Lemma map_between {A} (f : Z -> A) (os : list A) (d : A) n : Z.of_nat (length os) = n ->
  (forall x, 0 <= x < n -> nth (Z.to_nat x) os d = f x) -> os = map f (between 0 n).
Proof.
  intros Hl H. apply nth_ext with (d := d) (d' := d); [rewrite length_map, length_between; lia|].
  intros k Hk. rewrite <- (Nat2Z.id k), H by lia. symmetry. apply nth_lookup_Some.
  by rewrite list_lookup_fmap, between_lookup by lia.
Qed.
Lemma map_vector (g : Z -> Z) vs n : Z.of_nat (length vs) = n -> map (fun x => g (at_ vs x)) (between 0 n) = map g vs.
Proof.
  intros Hl. symmetry. apply map_between with (d := g 0); [by rewrite length_map|]. intros x _. apply map_nth.
Qed.
Lemma map_vectors (g : Z -> Z -> Z) a b n : Z.of_nat (length a) = n -> Z.of_nat (length b) = n ->
  map (fun x => g (at_ a x) (at_ b x)) (between 0 n) = zip_with g a b.
Proof.
  intros Ha Hb. symmetry. apply map_between with (d := 0); [rewrite length_zip_with; lia|]. intros x Hx. apply nth_lookup_Some.
  rewrite lookup_zip_with.
  destruct (lookup_lt_is_Some_2 a (Z.to_nat x)) as [u Hu]; [lia|]. destruct (lookup_lt_is_Some_2 b (Z.to_nat x)) as [v Hv]; [lia|].
  unfold at_. rewrite Hu, Hv, (nth_lookup_Some _ _ _ _ Hu), (nth_lookup_Some _ _ _ _ Hv). done.
Qed.
Lemma size_1 n : shape_size [n] = n.
Proof. cbn. lia. Qed.
Lemma image_vector h b p dims vs : image_at h b p dims vs ->
  Tensor1 b h = Ok (h, mkTen p [shape_size dims]) /\ ten_at h (b, p) [] (mkTen p [shape_size dims]) vs [].
Proof.
  intros Hi. pose proof (shape_size_pos _ (im_pos _ _ _ _ _ Hi)) as Hp.
  assert (Hd : Forall (fun n => 0 < n) [shape_size dims]) by (constructor; [done|constructor]).
  split; [|eapply image_part; [exact Hi|apply size_1|exact Hd]].
  unfold Tensor1. rewrite (image_count _ _ _ _ _ Hi). eapply image_make; [exact Hi|done|apply size_1].
Qed.
Lemma vector_eval n vs x : Z.of_nat (length vs) = n -> 0 <= x < n -> Eval (tensor_exp (mkTensor [n] vs)) 0 x = Ok (at_ vs x).
Proof. intros Hl Hx. apply idx_nth. simpl. lia. Qed.
(** An expression assigned to a vector. *)
Lemma vector_assign h bp us t ws us' n e f :
  heap_ok h -> ten_at h bp us t ws us' -> tenshape t = [n] -> eshape e = [n] ->
  (forall x, 0 <= x < n -> Eval e 0 x = Ok (f x) /\ is_f32 (f x)) ->
  exists h', assign saveto t e h = Ok h' /\ wrote [bp] h h' /\ ten_at h' bp us t (map f (between 0 n)) us'.
Proof.
  intros Hok Ht Es Ee Hf.
  destruct (ten_assign saveto h bp us t ws us' n [] e (fun _ => f) Hok Ht Es) as (h' & vs & E & W & T & P);
    [by right|intros y x Hy Hx; replace y with 0 by (cbn in Hy; lia); by apply Hf|].
  exists h'. split; [done|]. split; [done|].
  pose proof (to_length _ (ta_ok _ _ _ _ _ _ T)) as Hl. rewrite Es in Hl. cbn [tvals tshape] in Hl.
  replace (shape_size [n]) with n in Hl by (cbn; lia).
  rewrite <- (map_between f vs 0 n Hl); [done|]. intros x Hx.
  specialize (P 0 x ltac:(cbn; lia) Hx). unfold elem in P. cbn in P. exact P.
Qed.

(** ** Expressions of two operands *)
(** The operands have one shape, or one of them is a scalar. *)
Lemma binary_Ok op l r sh : dim sh 0 <> 0 ->
  (eshape l = sh /\ (eshape r = sh \/ dim (eshape r) 0 = 0)) \/ (dim (eshape l) 0 = 0 /\ eshape r = sh) ->
  exists e, BinaryMapExp op l r = Ok e /\ eshape e = sh /\
    forall y x u v, Eval l y x = Ok u -> Eval r y x = Ok v -> Eval e y x = Ok (op u v).
Proof.
  intros Hd Hs. exists (mkExp sh (fun y x => a ← Eval l y x; b ← Eval r y x; Ok (op a b))). split; [|split; [done|]].
  - unfold BinaryMapExp, check_shapes. destruct Hs as [[-> [->|Hr]]|[Hl ->]].
    + rewrite (proj2 (Z.eqb_neq _ _) Hd). unfold Assert. by rewrite bool_decide_true, CHECK_holds, !bind_Ok.
    + rewrite (proj2 (Z.eqb_neq _ _) Hd), (proj2 (Z.eqb_eq _ _) Hr), bind_Ok. done.
    + by rewrite (proj2 (Z.eqb_eq _ _) Hl), bind_Ok.
  - intros y x u v El Er. cbn [Eval]. by rewrite El, bind_Ok, Er, bind_Ok.
Qed.
Lemma unary_eval op e y x u : Eval e y x = Ok u -> Eval (UnaryMapExp op e) y x = Ok (op u).
Proof. intros E. cbn [Eval UnaryMapExp]. by rewrite E, bind_Ok. Qed.

(** ** Values one by one *)
Section elementwise.
Context `{M : Mathf}.

Lemma f32_at P vs x : Forall P vs -> 0 <= x < Z.of_nat (length vs) -> P (at_ vs x).
Proof.
  intros Hf Hx. destruct (lookup_lt_is_Some_2 vs (Z.to_nat x)) as [v Hv]; [lia|]. unfold at_.
  rewrite (nth_lookup_Some _ _ _ _ Hv). by eapply list.Forall_lookup_1.
Qed.
(** What the layers have in common: a function of the source's values, and one of the data's values
    that is multiplied with the gradient. *)
Definition unary_feature (f : Z -> Z) (i : Z) (s : nstate) : outcome nstate :=
  o ← obj i s;
  '(h, data) ← Tensor1 (odata o) (nheap s);
  sb ← src_mutable i 0 kPositive s; '(h, src) ← Tensor1 sb h;
  v ← get src h;
  h ← assign saveto data (UnaryMapExp f (tensor_exp v)) h;
  Ok (set_nheap h s).
Definition unary_gradient (f : Z -> Z) (i : Z) (s : nstate) : outcome nstate :=
  o ← obj i s;
  '(h, data) ← Tensor1 (odata o) (nheap s);
  '(h, grad) ← Tensor1 (ograd o) h;
  g ← src_mutable_grad i 0 s; gb ← deref g; '(h, gsrc) ← Tensor1 gb h;
  d ← get data h; g ← get grad h;
  e ← e_mul (UnaryMapExp f (tensor_exp d)) (tensor_exp g);
  h ← assign saveto gsrc e h;
  Ok (set_nheap h s).
(** The class, as the pair of its operation and its function. *)
Definition feature_of (c : (Z -> nstate -> outcome nstate) * (Z -> Z)) : Prop :=
  c ∈ [(ReLU_ComputeFeature, relu); (Tanh_ComputeFeature, stanh)].
Definition gradient_of (c : (Z -> nstate -> outcome nstate) * (Z -> Z)) : Prop :=
  c ∈ [(ReLU_ComputeGradient, relu_grad); (Tanh_ComputeGradient, stanh_grad)].
Lemma feature_unary c : feature_of c -> c.1 = unary_feature c.2 /\ forall v, is_f32 v -> is_f32 (c.2 v).
Proof.
  intros [->|[->|[]%elem_of_nil]%elem_of_cons]%elem_of_cons; (split; [done|]); simpl; intros v Hv.
  - unfold relu. by destruct (f32_ltb v 0).
  - apply f32_of_f64_range.
Qed.
Lemma gradient_unary c : gradient_of c -> c.1 = unary_gradient c.2.
Proof. by intros [->|[->|[]%elem_of_nil]%elem_of_cons]%elem_of_cons. Qed.

(** The activation layers forwards.  ReLU and Tanh return, write nothing but their data, and the data
    are the values of the source with the maximum with 0, or the scaled tanh, of each, in the
    same order whatever the shapes. *)
Lemma Activation_feature (c : (Z -> nstate -> outcome nstate) * (Z -> Z)) (i : Z) (s : nstate) (o : LayerObj)
    (sb : Blob) (sp dp : Z) (sdims ddims vs ds : list Z)
    (Hc : feature_of c) (Hok : heap_ok (nheap s)) (Ho : objs s !! i = Some o) (Hsrc : src_mutable i 0 kPositive s = Ok sb)
    (Hvs : image_at (nheap s) sb sp sdims vs) (Hds : image_at (nheap s) (odata o) dp ddims ds)
    (Hsize : shape_size ddims = shape_size sdims) :
  exists h', c.1 i s = Ok (set_nheap h' s) /\ wrote [(odata o, dp)] (nheap s) h' /\
    image_at h' (odata o) dp ddims (map c.2 vs).
Proof.
  destruct (feature_unary c Hc) as [-> Hf]. destruct (image_vector _ _ _ _ _ Hvs) as [Es Ts].
  destruct (image_vector _ _ _ _ _ Hds) as [Ed Td]. rewrite Hsize in *. pose proof (im_length _ _ _ _ _ Hvs) as Hl.
  destruct (vector_assign _ _ _ _ _ _ (shape_size sdims) (UnaryMapExp c.2 (tensor_exp (mkTensor [shape_size sdims] vs)))
    (fun x => c.2 (at_ vs x)) Hok Td) as (h' & E & W & T); [done..| |].
  { intros x Hx. split; [by apply unary_eval, vector_eval|]. apply Hf, f32_at; [by eapply ten_f32|lia]. }
  rewrite map_vector in T by done. exists h'. split; [|split; [done|]].
  - unfold unary_feature. rewrite (obj_Ok _ _ _ Ho), bind_Ok, Ed, bind_Ok, Hsrc, bind_Ok, Es, bind_Ok.
    rewrite (ten_get _ _ _ _ _ _ Ts), bind_Ok. cbn [tenshape]. rewrite E, bind_Ok. done.
  - eapply part_image; [exact Hds|exact T|by rewrite size_1].
Qed.

(** ReLU may take its derivative from the data instead of the source. *)
Lemma relu_grad_relu a : relu_grad (relu a) = relu_grad a.
Proof.
  unfold relu_grad, relu. destruct (f32_ltb a 0) eqn:E; [|done].
  destruct (f32_ltb 0 a) eqn:E'; [|done]. unfold f32_ltb in *. exfalso. revert E E'.
  destruct (f32_decode a) as [?|[]| |[] m e]; done.
Qed.
(** The activation layers backwards.  ReLU and Tanh return, write nothing but the gradient of the
    source, and its values are those of the data's gradient times the derivative, as a function
    of the data's values, in the same order. *)
Lemma Activation_gradient (c : (Z -> nstate -> outcome nstate) * (Z -> Z)) (i : Z) (s : nstate) (o : LayerObj)
    (gb : Blob) (dp op gp : Z) (ddims odims gdims ds os gs : list Z)
    (Hc : gradient_of c) (Hok : heap_ok (nheap s)) (Ho : objs s !! i = Some o) (Hgrad : src_mutable_grad i 0 s = Ok (Some gb))
    (Hds : image_at (nheap s) (odata o) dp ddims ds) (Hos : image_at (nheap s) (ograd o) op odims os)
    (Hgs : image_at (nheap s) gb gp gdims gs)
    (Hsize : shape_size odims = shape_size ddims /\ shape_size gdims = shape_size ddims) :
  exists h', c.1 i s = Ok (set_nheap h' s) /\ wrote [(gb, gp)] (nheap s) h' /\
    image_at h' gb gp gdims (zip_with (fun d g => f32_mul (c.2 d) g) ds os).
Proof.
  rewrite (gradient_unary c Hc). destruct Hsize as [Eod Egd]. destruct (image_vector _ _ _ _ _ Hds) as [Ed Td].
  destruct (image_vector _ _ _ _ _ Hos) as [Eo To]. destruct (image_vector _ _ _ _ _ Hgs) as [Eg Tg]. rewrite Eod, Egd in *.
  pose proof (im_length _ _ _ _ _ Hds) as Hl. pose proof (im_length _ _ _ _ _ Hos) as Hl'. rewrite Eod in Hl'.
  pose proof (shape_size_pos _ (im_pos _ _ _ _ _ Hds)) as Hp. set (n := shape_size ddims) in *.
  destruct (binary_Ok f32_mul (UnaryMapExp c.2 (tensor_exp (mkTensor [n] ds))) (tensor_exp (mkTensor [n] os)) [n])
    as (e & Ee & Es & Hev); [change (dim [n] 0) with n; lia|left; split; [done|by left]|].
  destruct (vector_assign _ _ _ _ _ _ n e (fun x => f32_mul (c.2 (at_ ds x)) (at_ os x)) Hok Tg) as (h' & E & W & T);
    [done..|intros x Hx; split; [apply Hev; [apply unary_eval|]; by apply vector_eval|apply f32_mul_range]|].
  rewrite (map_vectors (fun d g => f32_mul (c.2 d) g)) in T by done. exists h'. split; [|split; [done|]].
  - unfold unary_gradient. rewrite (obj_Ok _ _ _ Ho), bind_Ok, Ed, bind_Ok, Eo, bind_Ok, Hgrad, bind_Ok, deref_Some, bind_Ok.
    rewrite Eg, bind_Ok, (ten_get _ _ _ _ _ _ Td), bind_Ok, (ten_get _ _ _ _ _ _ To), bind_Ok. cbn [tenshape].
    unfold e_mul. rewrite Ee, bind_Ok, E, bind_Ok. done.
  - eapply part_image; [exact Hgs|exact T|by rewrite size_1].
Qed.

(** ** Dropout *)

(** The mask for [n] values: draws below [pkeep] keep a value, scaled. *)
Definition mask_value (u : Z -> Z) (pkeep : Z) (x : Z) : Z := f32_mul (threshold (u x) pkeep) (f32_div f32_one pkeep).
Lemma uniform_eval u n x : 0 <= x < n -> n < 2 ^ 32 -> Eval (uniform u [n]) 0 x = Ok (u x).
Proof.
  intros Hx Hn. unfold uniform. cbn [Eval]. change (dim [n] 0) with n.
  rewrite umul_small, uadd_small by lia. done.
Qed.
(** One blob is the product of two, value by value. *)
Lemma vector_multiply h bp us t ws us' n a b : heap_ok h -> ten_at h bp us t ws us' -> tenshape t = [n] -> 0 < n ->
  Z.of_nat (length a) = n -> Z.of_nat (length b) = n ->
  exists e h', e_mul (tensor_exp (mkTensor [n] a)) (tensor_exp (mkTensor [n] b)) = Ok e /\ assign saveto t e h = Ok h' /\
    wrote [bp] h h' /\ ten_at h' bp us t (zip_with f32_mul a b) us'.
Proof.
  intros Hok Ht Es Hn Ha Hb. destruct (binary_Ok f32_mul (tensor_exp (mkTensor [n] a)) (tensor_exp (mkTensor [n] b)) [n])
    as (e & Ee & Ese & Hev); [change (dim [n] 0) with n; lia|left; split; [done|by left]|].
  destruct (vector_assign h bp us t ws us' n e (fun x => f32_mul (at_ a x) (at_ b x)) Hok Ht Es Ese) as (h' & E & W & T).
  { intros x Hx. split; [apply Hev; by apply vector_eval|apply f32_mul_range]. }
  rewrite map_vectors in T by done. by exists e, h'.
Qed.

(** C22. Dropout in training.  [ComputeFeature] returns and writes nothing but its mask and its data: the
    mask has for each value the inverse of the probability to keep it where the draw is below
    that probability, and 0 elsewhere, and the data are the source times the mask. *)
Theorem Dropout_ComputeFeature_spec (u : Z -> Z) (i : Z) (s : nstate) (o : LayerObj) (pdrop : Z) (mb sb : Blob)
    (mp sp dp : Z) (mdims sdims ddims ms vs ds : list Z)
    (Hok : heap_ok (nheap s)) (Ho : objs s !! i = Some o) (Hsub : osub o = DropoutSub pdrop mb)
    (Hsrc : src_mutable i 0 kPositive s = Ok sb)
    (Hms : image_at (nheap s) mb mp mdims ms) (Hvs : image_at (nheap s) sb sp sdims vs)
    (Hds : image_at (nheap s) (odata o) dp ddims ds)
    (Hsize : shape_size mdims = shape_size sdims /\ shape_size ddims = shape_size sdims)
    (Hsep : separate [(mb, mp); (sb, sp); (odata o, dp)]) :
  exists h', Dropout_ComputeFeature u i kTrain s = Ok (set_nheap h' s) /\
    wrote [(mb, mp); (odata o, dp)] (nheap s) h' /\
    let mask := map (mask_value u (f32_sub f32_one pdrop)) (between 0 (shape_size sdims)) in
    image_at h' mb mp mdims mask /\ image_at h' (odata o) dp ddims (zip_with f32_mul vs mask).
Proof.
  destruct Hsize as [Em Ed]. destruct (image_vector _ _ _ _ _ Hms) as [Ems Tm].
  destruct (image_vector _ _ _ _ _ Hvs) as [Es Ts]. destruct (image_vector _ _ _ _ _ Hds) as [Eds Td]. rewrite Em, Ed in *.
  pose proof (im_length _ _ _ _ _ Hvs) as Hl. pose proof (shape_size_pos _ (im_pos _ _ _ _ _ Hvs)) as Hp.
  pose proof (im_int _ _ _ _ _ Hvs) as Hm. set (n := shape_size sdims) in *. set (pkeep := f32_sub f32_one pdrop).
  destruct (binary_Ok threshold (uniform u [n]) (ScalarExp pkeep) [n]) as (e1 & Ee1 & Es1 & H1);
    [change (dim [n] 0) with n; lia|left; split; [done|by right]|].
  destruct (binary_Ok f32_mul e1 (ScalarExp (f32_div f32_one pkeep)) [n]) as (e2 & Ee2 & Es2 & H2);
    [change (dim [n] 0) with n; lia|left; split; [done|by right]|].
  destruct (vector_assign _ _ _ _ _ _ n e2 (mask_value u pkeep) Hok Tm) as (h1 & E1 & W1 & T1); [done..| |].
  { intros x Hx. split; [|apply f32_mul_range]. apply H2; [apply H1; [apply uniform_eval; unfold INT_MAX in *; lia|done]|done]. }
  set (mask := map (mask_value u pkeep) (between 0 n)) in *.
  assert (Hmask : Z.of_nat (length mask) = n) by (unfold mask; rewrite length_map, length_between; lia).
  assert (Hds1 : image_at h1 (odata o) dp ddims ds) by (eapply wrote_image; [exact W1|apart_in Hsep|exact Hds]).
  assert (Hvs1 : image_at h1 sb sp sdims vs) by (eapply wrote_image; [exact W1|apart_in Hsep|exact Hvs]).
  destruct (image_vector _ _ _ _ _ Hds1) as [Eds1 Td1]. destruct (image_vector _ _ _ _ _ Hvs1) as [Es' Ts1].
  rewrite Ed in Eds1, Td1. fold n in Eds1, Td1, Es', Ts1.
  destruct (vector_multiply h1 (odata o, dp) [] (mkTen dp [n]) ds [] n vs mask (wr_ok _ _ _ W1) Td1) as (e3 & h2 & Ee3 & E3 & W3 & T3);
    [done..|].
  assert (T1' : ten_at h2 (mb, mp) [] (mkTen mp [n]) mask []) by (eapply wrote_ten; [exact W3|apart_in Hsep|exact T1]).
  exists h2. split; [|split; [exact (wrote_seq _ _ _ _ _ W1 W3)|split]].
  - unfold Dropout_ComputeFeature. rewrite (obj_Ok _ _ _ Ho), bind_Ok, Hsub. cbn [negb bool_decide].
    rewrite bool_decide_true by done. cbn [negb]. fold pkeep. rewrite Ems, bind_Ok. cbn [tenshape].
    rewrite Ee1, bind_Ok. unfold e_mul in *. rewrite Ee2, bind_Ok, E1, bind_Ok, Eds1, bind_Ok, Hsrc, bind_Ok, Es', bind_Ok.
    rewrite (ten_get _ _ _ _ _ _ Ts1), bind_Ok, (ten_get _ _ _ _ _ _ T1), bind_Ok. cbn [tenshape].
    rewrite Ee3, bind_Ok, E3, bind_Ok. done.
  - eapply part_image; [exact Hms|exact T1'|by rewrite size_1].
  - eapply part_image; [exact Hds|exact T3|by rewrite size_1].
Qed.
(** Dropout backwards: the gradient of the data times the mask. *)
Lemma Dropout_gradient (i : Z) (s : nstate) (o : LayerObj) (pdrop : Z) (mb gb : Blob)
    (mp op gp : Z) (mdims odims gdims ms os gs : list Z) :
  heap_ok (nheap s) -> objs s !! i = Some o -> osub o = DropoutSub pdrop mb -> src_mutable_grad i 0 s = Ok (Some gb) ->
  image_at (nheap s) mb mp mdims ms -> image_at (nheap s) (ograd o) op odims os -> image_at (nheap s) gb gp gdims gs ->
  shape_size odims = shape_size mdims -> shape_size gdims = shape_size mdims ->
  exists h', Dropout_ComputeGradient i s = Ok (set_nheap h' s) /\ wrote [(gb, gp)] (nheap s) h' /\
    image_at h' gb gp gdims (zip_with f32_mul os ms).
Proof.
  intros Hok Ho Hsub Hgrad Hms Hos Hgs Eod Egd. destruct (image_vector _ _ _ _ _ Hms) as [Em Tm].
  destruct (image_vector _ _ _ _ _ Hos) as [Eo To]. destruct (image_vector _ _ _ _ _ Hgs) as [Eg Tg]. rewrite Eod, Egd in *.
  pose proof (im_length _ _ _ _ _ Hms) as Hl. pose proof (im_length _ _ _ _ _ Hos) as Hl'. rewrite Eod in Hl'.
  pose proof (shape_size_pos _ (im_pos _ _ _ _ _ Hms)) as Hp. set (n := shape_size mdims) in *.
  destruct (vector_multiply _ _ _ _ _ _ n os ms Hok Tg) as (e & h' & Ee & E & W & T); [done..|].
  exists h'. split; [|split; [done|eapply part_image; [exact Hgs|exact T|by rewrite size_1]]].
  unfold Dropout_ComputeGradient. rewrite (obj_Ok _ _ _ Ho), bind_Ok, Hsub, Em, bind_Ok, Eo, bind_Ok, Hgrad, bind_Ok.
  rewrite deref_Some, bind_Ok, Eg, bind_Ok, (ten_get _ _ _ _ _ _ To), bind_Ok, (ten_get _ _ _ _ _ _ Tm), bind_Ok.
  cbn [tenshape]. rewrite Ee, bind_Ok, E, bind_Ok. done.
Qed.
End elementwise.

(** ** Concrete layers *)
Module ActivationDemo.
Definition floats : list Z -> list Z := map f32_of_Z.
Definition heap0 : heap :=
  packed (floats [1; -2; 3; -4] ++ floats [0; 0; 0; 0] ++ floats [0; 7; 2; 0] ++ floats [1; 10; 100; 1000] ++ floats [0; 0; 0; 0])
    {[0 := mkSM 1 16 HEAD_AT_CPU true; 1 := mkSM 17 16 HEAD_AT_CPU true; 2 := mkSM 33 16 HEAD_AT_CPU true;
      3 := mkSM 49 16 HEAD_AT_CPU true; 4 := mkSM 65 16 HEAD_AT_CPU true]} 5.
Definition source : LayerObj := set_grad (full_blob 1 [2; 2]) (set_data (full_blob 0 [2; 2]) (LayerObj_new kInnerProduct)).
Definition layer (c : LayerType) : LayerObj := set_grad (full_blob 3 [4]) (set_data (full_blob 2 [4]) (set_srcs [0] (LayerObj_new c))).
(** A quarter of the values is dropped. *)
Definition quarter : Z := f32_div f32_one (f32_of_Z 4).
Definition drop_layer : LayerObj := set_sub (DropoutSub quarter (full_blob 4 [4])) (layer kDropout).
Definition state (o : LayerObj) : nstate := mkNS {[0 := source; 1 := o]} 2 (mkWorld heap0 ∅ 0 ∅).
Lemma activation_heap_ok : heap_ok heap0.
Proof. apply packed_ok; by apply (bool_decide_unpack _). Qed.
End ActivationDemo.
(** The second draw, 1, drops its value. *)
Lemma Dropout_ComputeFeature_witness : exists h' ds,
  Dropout_ComputeFeature (fun k => if k =? 1 then f32_one else 0) 1 kTrain (ActivationDemo.state ActivationDemo.drop_layer) =
    Ok (set_nheap h' (ActivationDemo.state ActivationDemo.drop_layer)) /\
  image_at h' (full_blob 2 [4]) 33 [4] ds /\ nth 1 ds 0 = f32_neg 0 /\ nth 2 ds 0 = f32_of_Z 4.
Proof.
  destruct (Dropout_ComputeFeature_spec (fun k => if k =? 1 then f32_one else 0) 1 (ActivationDemo.state ActivationDemo.drop_layer)
    ActivationDemo.drop_layer ActivationDemo.quarter (full_blob 4 [4]) (full_blob 0 [2; 2]) 65 1 33 [4] [2; 2] [4]
    (ActivationDemo.floats [0; 0; 0; 0]) (ActivationDemo.floats [1; -2; 3; -4]) (ActivationDemo.floats [0; 7; 2; 0]))
    as (h' & E & _ & _ & Hi);
    [exact ActivationDemo.activation_heap_ok|reflexivity|reflexivity|vm_compute; reflexivity|concrete_image 4|concrete_image 0|
     concrete_image 2|split; reflexivity|concrete_apart|].
  eexists h', _. split; [exact E|]. split; [exact Hi|]. split; vm_compute; reflexivity.
Defined.
