(* ===== verification/LRNProps.v ===== *)
(** * Properties of local response normalisation

    A value is divided by a power of a weighted sum of the squares of the values at the same pixel in
    the neighbouring channels of its image. *)

From Stdlib Require Import SpecFloat.
From S2P Require Import Prelude Float32 Metric Msg Format Memory Param Server Worker LayerConf Layers LayersProps LayerCompute Mshadow MshadowProps LayerMath LayerMathProps LayerLinear ActivationProps.

(** The rows, of all rows of a tensor, of row [y] in the channels of image [m] that are at most [k / 2]
    from channel [c]. *)
Definition neighbours (h ch k m c y : Z) : list Z :=
  map (fun cc => (m * ch + cc) * h + y) (between (Z.max 0 (c - k / 2)) (Z.min (c + k / 2 + 1) ch)).
(** Row [r]: row [y] of channel [c] of image [m]. *)
Lemma row_of h ch n r : 0 < h -> 0 < ch -> 0 <= r < h * (ch * n) ->
  exists m c y, 0 <= m < n /\ 0 <= c < ch /\ 0 <= y < h /\ r = (m * ch + c) * h + y.
Proof.
  intros Hh Hch Hr. destruct (div_mod_row h (ch * n) r Hh Hr) as (Hq & Hy & Er).
  destruct (div_mod_row ch n (r / h) Hch Hq) as (Hm & Hc & Eq).
  exists (r / h / ch), ((r / h) mod ch), (r mod h). split; [done|]. split; [done|]. split; [done|]. lia.
Qed.
Lemma row_below h ch n m c y : 0 <= m < n -> 0 <= c < ch -> 0 <= y < h -> 0 <= (m * ch + c) * h + y < h * (ch * n).
Proof.
  intros Hm Hc Hy. pose proof (below_mul m c n ch Hm Hc). pose proof (below_mul _ _ _ _ H Hy). nia.
Qed.
Lemma chpool_eval R e w h ch n k f :
  eshape e = [w; h; ch; n] -> Forall (fun d => 0 < d) [w; h; ch; n] -> shape_size [w; h; ch; n] < 2 ^ 31 ->
  k mod 2 = 1 -> 0 < k <= ch ->
  (forall r x, 0 <= r < h * (ch * n) -> 0 <= x < w -> Eval e r x = Ok (f r x)) ->
  exists e', chpool R e (u32 k) = Ok e' /\ eshape e' = [w; h; ch; n] /\
    forall m c y x, 0 <= m < n -> 0 <= c < ch -> 0 <= y < h -> 0 <= x < w ->
      Eval e' ((m * ch + c) * h + y) x =
      Ok (fold_left (Reduce R) (map (fun r => f r x) (neighbours h ch k m c y)) (kInitV R)).
Proof.
  intros Ee Hpos Hsize Hodd Hk Hf. rewrite !list.Forall_cons in Hpos. destruct Hpos as (Hw & Hh & Hch & Hn & _).
  assert (Hs : w * (h * (ch * n)) < 2 ^ 31) by (revert Hsize; unfold shape_size; simpl; lia).
  assert (Hhn : h * (ch * n) < 2 ^ 31) by nia. assert (Hcn : ch * n < 2 ^ 31) by nia. assert (Hch' : ch < 2 ^ 31) by nia.
  unfold chpool. rewrite Ee. change (dim [w; h; ch; n] 2) with ch. change (dim [w; h; ch; n] 1) with h.
  rewrite u32_small, Hodd by lia. unfold Assert. rewrite CHECK_holds, bind_Ok, CHECK_holds, bind_Ok by (done || by apply Z.leb_le; lia).
  eexists. split; [done|]. split; [done|]. intros m c y x Hm Hc Hy Hx. cbn [Eval]. unfold chpool_plan.
  assert (Hmc : 0 <= m * ch + c < n * ch) by (by apply below_mul).
  rewrite umod_Ok, bind_Ok, mod_pos, udiv_Ok, bind_Ok, div_pos by lia.
  rewrite umod_Ok, bind_Ok, mod_pos, udiv_Ok, bind_Ok, div_pos by lia.
  assert (Hhk : 0 <= k / 2 < 2 ^ 31) by (split; [apply Z.div_pos; lia|apply Z.div_lt_upper_bound; lia]).
  assert (Ecs : (if c <? k / 2 then 0 else usub c (k / 2)) = Z.max 0 (c - k / 2)).
  { destruct (Z.ltb_spec c (k / 2)); [lia|]. rewrite usub_small by lia. lia. }
  rewrite Ecs, !uadd_small by (rewrite ?uadd_small by lia; lia).
  rewrite (fold_out_Ok _ (fun a cc => Reduce R a (f ((m * ch + cc) * h + y) x))).
  - unfold neighbours. by rewrite map_map, fold_left_fmap.
  - intros a cc Hcc. apply elem_of_between in Hcc. assert (0 <= cc < ch) by lia.
    pose proof (row_below h ch n m cc y Hm H Hy) as Hr. pose proof (below_mul m cc n ch Hm H) as Hq.
    assert (0 <= m * ch) by (apply Z.mul_nonneg_nonneg; lia).
    assert (0 <= (m * ch + cc) * h) by (apply Z.mul_nonneg_nonneg; lia).
    rewrite (umul_small m ch) by lia. rewrite (uadd_small (m * ch) cc) by lia.
    rewrite (umul_small (m * ch + cc) h) by lia. rewrite uadd_small by lia. by rewrite Hf, bind_Ok.
Qed.

Section rows.
Context (w h ch n : Z) (Hpos : Forall (fun d => 0 < d) [w; h; ch; n]).
Lemma rows_dims : 0 < w /\ 0 < h /\ 0 < ch /\ 0 < n.
Proof using Hpos. rewrite !list.Forall_cons in Hpos. tauto. Qed.
Lemma size_rows : shape_size [h; ch; n] = h * (ch * n).
Proof. unfold shape_size. simpl. lia. Qed.
(** Assigning to a tensor of images what is known for each pixel. *)
Lemma rows_assign Save hp bp us p ws us' e (g : Z -> Z -> Z -> Z -> Z) :
  heap_ok hp -> ten_at hp bp us (mkTen p [w; h; ch; n]) ws us' -> eshape e = [w; h; ch; n] ->
  (forall m c y x, 0 <= m < n -> 0 <= c < ch -> 0 <= y < h -> 0 <= x < w ->
     Eval e ((m * ch + c) * h + y) x = Ok (g m c y x) /\
     is_f32 (Save (elem (mkTensor [w; h; ch; n] ws) ((m * ch + c) * h + y) x) (g m c y x))) ->
  exists h' vs, assign Save (mkTen p [w; h; ch; n]) e hp = Ok h' /\ wrote [bp] hp h' /\
    ten_at h' bp us (mkTen p [w; h; ch; n]) vs us' /\
    forall m c y x, 0 <= m < n -> 0 <= c < ch -> 0 <= y < h -> 0 <= x < w ->
      elem (mkTensor [w; h; ch; n] vs) ((m * ch + c) * h + y) x =
      Save (elem (mkTensor [w; h; ch; n] ws) ((m * ch + c) * h + y) x) (g m c y x).
Proof using Hpos.
  intros Hok Ht Ee Hg. destruct rows_dims as (Hw & Hh & Hch & Hn).
  set (f := fun r x => g (r / h / ch) ((r / h) mod ch) (r mod h) x).
  assert (Ef : forall m c y x, 0 <= c < ch -> 0 <= y < h -> f ((m * ch + c) * h + y) x = g m c y x).
  { intros m c y x Hc Hy. unfold f. by rewrite !div_pos, !mod_pos by done. }
  destruct (ten_assign Save hp bp us _ ws us' w [h; ch; n] e f Hok Ht eq_refl) as (h' & vs & E & W & T & P); [by right| |].
  { intros r x Hr Hx. rewrite size_rows in Hr. destruct (row_of h ch n r Hh Hch Hr) as (m & c & y & Hm & Hc & Hy & ->).
    rewrite Ef by done. by apply Hg. }
  exists h', vs. split; [done|]. split; [done|]. split; [done|]. intros m c y x Hm Hc Hy Hx.
  rewrite P, Ef; [done..| |done]. rewrite size_rows. by apply row_below.
Qed.
Lemma rows_eval vs m c y x : tensor_ok (mkTensor [w; h; ch; n] vs) ->
  0 <= m < n -> 0 <= c < ch -> 0 <= y < h -> 0 <= x < w ->
  Eval (tensor_exp (mkTensor [w; h; ch; n] vs)) ((m * ch + c) * h + y) x =
  Ok (elem (mkTensor [w; h; ch; n] vs) ((m * ch + c) * h + y) x).
Proof.
  intros Ht Hm Hc Hy Hx. eapply tensor_eval; [done..| |done]. rewrite size_rows. by apply row_below.
Qed.
End rows.

Section lrn.
Context `{M : Mathf}.

(** The sum over the neighbouring channels, and the normaliser without its power. *)
Definition lrn_sum (f : Z -> Z -> Z) (h ch k m c y x : Z) : Z :=
  fold_left f32_add (map (fun r => f r x) (neighbours h ch k m c y)) 0.
Definition lrn_norm (k alpha knorm : Z) (t : tensor) (h ch m c y x : Z) : Z :=
  f32_add (f32_mul (lrn_sum (fun r x => square (elem t r x)) h ch k m c y x) (f32_div alpha (f32_of_Z k))) knorm.

(** The normaliser as an expression of the source. *)
Lemma norm_expr vs w h ch n k alpha knorm : tensor_ok (mkTensor [w; h; ch; n] vs) -> shape_size [w; h; ch; n] <= INT_MAX ->
  k mod 2 = 1 -> 0 < k <= ch ->
  exists e1 e2 e3, chpool red_sum (UnaryMapExp square (tensor_exp (mkTensor [w; h; ch; n] vs))) (u32 k) = Ok e1 /\
    BinaryMapExp f32_mul e1 (ScalarExp (f32_div alpha (f32_of_Z k))) = Ok e2 /\ BinaryMapExp f32_add e2 (ScalarExp knorm) = Ok e3 /\
    eshape e3 = [w; h; ch; n] /\
    forall m c y x, 0 <= m < n -> 0 <= c < ch -> 0 <= y < h -> 0 <= x < w ->
      Eval e3 ((m * ch + c) * h + y) x = Ok (lrn_norm k alpha knorm (mkTensor [w; h; ch; n] vs) h ch m c y x).
Proof.
  intros Ht Hm Hodd Hk. pose proof (to_pos _ Ht : Forall (fun d => 0 < d) [w; h; ch; n]) as Hpos.
  destruct (rows_dims w h ch n Hpos) as (Hw & Hh & Hch & Hn). unfold INT_MAX in Hm.
  destruct (chpool_eval red_sum (UnaryMapExp square (tensor_exp (mkTensor [w; h; ch; n] vs))) w h ch n k
    (fun r x => square (elem (mkTensor [w; h; ch; n] vs) r x))) as (e1 & E1 & S1 & V1); [done|done|lia|done|done| |].
  { intros r x Hr Hx. apply unary_eval. eapply tensor_eval; [done..| |done]. by rewrite size_rows. }
  destruct (binary_Ok f32_mul e1 (ScalarExp (f32_div alpha (f32_of_Z k))) [w; h; ch; n]) as (e2 & E2 & S2 & V2);
    [change (dim [w; h; ch; n] 0) with w; lia|left; split; [done|by right]|].
  destruct (binary_Ok f32_add e2 (ScalarExp knorm) [w; h; ch; n]) as (e3 & E3 & S3 & V3);
    [change (dim [w; h; ch; n] 0) with w; lia|left; split; [done|by right]|].
  exists e1, e2, e3. split; [done|]. split; [done|]. split; [done|]. split; [done|].
  intros m c y x Hm' Hc Hy Hx. apply V3; [|done]. apply V2; [|done]. by apply V1.
Qed.
(** A tensor times the power of another. *)
Lemma power_expr a b q w h ch n : tensor_ok (mkTensor [w; h; ch; n] a) -> tensor_ok (mkTensor [w; h; ch; n] b) ->
  exists p e, BinaryMapExp powf (tensor_exp (mkTensor [w; h; ch; n] b)) (ScalarExp q) = Ok p /\
    BinaryMapExp f32_mul (tensor_exp (mkTensor [w; h; ch; n] a)) p = Ok e /\ eshape e = [w; h; ch; n] /\
    forall m c y x, 0 <= m < n -> 0 <= c < ch -> 0 <= y < h -> 0 <= x < w ->
      let r := (m * ch + c) * h + y in
      Eval e r x = Ok (f32_mul (elem (mkTensor [w; h; ch; n] a) r x) (powf (elem (mkTensor [w; h; ch; n] b) r x) q)).
Proof.
  intros Ha Hb. destruct (rows_dims w h ch n (to_pos _ Ha)) as (Hw & _).
  destruct (binary_Ok powf (tensor_exp (mkTensor [w; h; ch; n] b)) (ScalarExp q) [w; h; ch; n]) as (p & E1 & S1 & V1);
    [change (dim [w; h; ch; n] 0) with w; lia|left; split; [done|by right]|].
  destruct (binary_Ok f32_mul (tensor_exp (mkTensor [w; h; ch; n] a)) p [w; h; ch; n]) as (e & E2 & S2 & V2);
    [change (dim [w; h; ch; n] 0) with w; lia|left; split; [done|by left]|].
  exists p, e. split; [done|]. split; [done|]. split; [done|]. intros m c y x Hm Hc Hy Hx.
  apply V2; [by apply rows_eval|]. apply V1; [by apply rows_eval|done].
Qed.
Lemma image_rows hp b p n ch h w vs : image_at hp b p [n; ch; h; w] vs ->
  Tensor4 b hp = Ok (hp, mkTen p [w; h; ch; n]) /\ ten_at hp (b, p) [] (mkTen p [w; h; ch; n]) vs [] /\
  tensor_ok (mkTensor [w; h; ch; n] vs) /\ shape_size [w; h; ch; n] <= INT_MAX.
Proof.
  intros Hi. split; [by eapply image_Tensor4|]. pose proof (image_tensor_ok _ _ _ _ _ Hi) as Ht.
  assert (Hs : shape_size [w; h; ch; n] = shape_size [n; ch; h; w]) by (unfold shape_size; simpl; lia).
  split; [|split; [exact Ht|rewrite Hs; apply (im_int _ _ _ _ _ Hi)]]. eapply image_part; [exact Hi|exact Hs|apply (to_pos _ Ht)].
Qed.

(** The members of the layer do not depend on the region it is configured with. *)
Lemma LRN_Setup_members i p npartitions s s' k alpha beta knorm region :
  lp_conf p = LRNConf k alpha beta knorm region -> LRN_Setup i p npartitions s = Ok s' ->
  exists o b c h w nb, objs s' !! i = Some o /\ osub o = LRNSub k alpha beta knorm b c h w nb.
Proof.
  intros Hp. unfold LRN_Setup, lrn_conf. rewrite Hp. intros E. inv_oks. destruct a7 as [s7 nb]. inv_oks.
  unfold set_members, update_obj in E. inv_oks. subst s'. do 6 eexists. split; [apply lookup_insert_eq|done].
Qed.

(** C20. Local response normalisation forwards, for a layer of either [norm_region].  For an odd number of
    neighbouring channels, not more than there are, [ComputeFeature] returns and writes nothing but
    its normaliser and its data: the normaliser of a pixel is the constant plus the weighted sum of
    the squares of the same pixel in exactly the neighbouring channels of the same image, and the
    data are the source times the power of it.  That is what ACROSS_CHANNELS asks for; a layer that
    is configured WITHIN_CHANNEL computes the same, against its configuration. *)
Theorem LRN_ComputeFeature_spec (i : Z) (s : nstate) (o : LayerObj) (region : NormRegion) (k alpha beta knorm b0 c0 h0 w0 : Z) (nb sb : Blob)
    (np sp dp n ch h w : Z) (ns vs ds : list Z)
    (Hok : heap_ok (nheap s)) (Ho : objs s !! i = Some o)
    (Hconf : lp_conf (layer_proto_ o) = LRNConf k alpha beta knorm region) (Hsub : osub o = LRNSub k alpha beta knorm b0 c0 h0 w0 nb)
    (Hsrc : src_mutable i 0 kPositive s = Ok sb) (Hodd : k mod 2 = 1) (Hk : 0 < k <= ch)
    (Hns : image_at (nheap s) nb np [n; ch; h; w] ns) (Hvs : image_at (nheap s) sb sp [n; ch; h; w] vs)
    (Hds : image_at (nheap s) (odata o) dp [n; ch; h; w] ds)
    (Hsep : separate [(nb, np); (sb, sp); (odata o, dp)]) :
  exists h' ns' ds', LRN_ComputeFeature i s = Ok (set_nheap h' s) /\ wrote [(nb, np); (odata o, dp)] (nheap s) h' /\
    image_at h' nb np [n; ch; h; w] ns' /\ image_at h' (odata o) dp [n; ch; h; w] ds' /\
    let t := mkTensor [w; h; ch; n] in
    forall m c y x, 0 <= m < n -> 0 <= c < ch -> 0 <= y < h -> 0 <= x < w ->
      let r := (m * ch + c) * h + y in
      elem (t ns') r x = lrn_norm k alpha knorm (t vs) h ch m c y x /\
      elem (t ds') r x = f32_mul (elem (t vs) r x) (powf (elem (t ns') r x) (f32_neg beta)).
Proof.
  destruct (image_rows _ _ _ _ _ _ _ _ Hns) as (En & Tn & On & _). destruct (image_rows _ _ _ _ _ _ _ _ Hvs) as (Es & Ts & Os & Hm).
  destruct (image_rows _ _ _ _ _ _ _ _ Hds) as (Ed & Td & _ & _). pose proof (to_pos _ Os : Forall (fun d => 0 < d) [w; h; ch; n]) as Hpos.
  destruct (norm_expr vs w h ch n k alpha knorm Os Hm Hodd Hk) as (e1 & e2 & e3 & E1 & E2 & E3 & S3 & V3).
  destruct (rows_assign w h ch n Hpos saveto _ _ _ _ _ _ e3
    (lrn_norm k alpha knorm (mkTensor [w; h; ch; n] vs) h ch) Hok Tn S3) as (h1 & ns' & A1 & W1 & T1 & P1).
  { intros m c y x Hm' Hc Hy Hx. split; [by apply V3|apply f32_add_range]. }
  assert (Ts1 : ten_at h1 (sb, sp) [] (mkTen sp [w; h; ch; n]) vs []) by (eapply wrote_ten; [exact W1|apart_in Hsep|exact Ts]).
  assert (Td1 : ten_at h1 (odata o, dp) [] (mkTen dp [w; h; ch; n]) ds []) by (eapply wrote_ten; [exact W1|apart_in Hsep|exact Td]).
  destruct (power_expr vs ns' (f32_neg beta) w h ch n Os (ta_ok _ _ _ _ _ _ T1)) as (p & e & Ep & Ee & Se & Ve).
  destruct (rows_assign w h ch n Hpos saveto _ _ _ _ _ _ e
    (fun m c y x => let r := (m * ch + c) * h + y in
       f32_mul (elem (mkTensor [w; h; ch; n] vs) r x) (powf (elem (mkTensor [w; h; ch; n] ns') r x) (f32_neg beta)))
    (wr_ok _ _ _ W1) Td1 Se) as (h2 & ds' & A2 & W2 & T2 & P2).
  { intros m c y x Hm' Hc Hy Hx. split; [by apply Ve|apply f32_mul_range]. }
  assert (T1' : ten_at h2 (nb, np) [] (mkTen np [w; h; ch; n]) ns' []) by (eapply wrote_ten; [exact W2|apart_in Hsep|exact T1]).
  exists h2, ns', ds'. split; [|split; [exact (wrote_seq _ _ _ _ _ W1 W2)|split; [|split]]].
  - unfold LRN_ComputeFeature. rewrite (obj_Ok _ _ _ Ho), bind_Ok, Hsub, Hsrc, bind_Ok, Es, bind_Ok, Ed, bind_Ok, En, bind_Ok.
    rewrite (ten_get _ _ _ _ _ _ Ts), bind_Ok. cbn [tenshape]. rewrite E1, bind_Ok. unfold e_mul, e_add. rewrite E2, bind_Ok, E3, bind_Ok, A1, bind_Ok.
    rewrite (ten_get _ _ _ _ _ _ Ts1), bind_Ok, (ten_get _ _ _ _ _ _ T1), bind_Ok. cbn [tenshape].
    rewrite Ep, bind_Ok, Ee, bind_Ok, A2, bind_Ok. done.
  - eapply part_image; [exact Hns|exact T1'|]. unfold shape_size. simpl. lia.
  - eapply part_image; [exact Hds|exact T2|]. unfold shape_size. simpl. lia.
  - intros t m c y x Hm' Hc Hy Hx r. split; [by apply P1|by apply P2].
Qed.

(** The part of the gradient that comes through the normalisers of the neighbouring channels. *)
Definition lrn_spread (k alpha beta : Z) (v nrm g : tensor) (h ch m c y x : Z) : Z :=
  f32_mul (f32_mul (f32_mul (f32_mul (f32_neg (f32_of_Z 2)) beta) (f32_div alpha (f32_of_Z k)))
             (lrn_sum (fun r x => f32_mul (f32_mul (elem g r x) (elem v r x))
                                    (powf (elem nrm r x) (f32_sub (f32_neg beta) f32_one))) h ch k m c y x))
    (elem v ((m * ch + c) * h + y) x).
Lemma spread_expr vs ns os w h ch n k alpha beta :
  tensor_ok (mkTensor [w; h; ch; n] vs) -> tensor_ok (mkTensor [w; h; ch; n] ns) -> tensor_ok (mkTensor [w; h; ch; n] os) ->
  shape_size [w; h; ch; n] <= INT_MAX -> k mod 2 = 1 -> 0 < k <= ch ->
  let t := mkTensor [w; h; ch; n] in
  exists p e1 e2 e3 e4 e5, BinaryMapExp powf (tensor_exp (t ns)) (ScalarExp (f32_sub (f32_neg beta) f32_one)) = Ok p /\
    BinaryMapExp f32_mul (tensor_exp (t os)) (tensor_exp (t vs)) = Ok e1 /\ BinaryMapExp f32_mul e1 p = Ok e2 /\
    chpool red_sum e2 (u32 k) = Ok e3 /\
    BinaryMapExp f32_mul (ScalarExp (f32_mul (f32_mul (f32_neg (f32_of_Z 2)) beta) (f32_div alpha (f32_of_Z k)))) e3 = Ok e4 /\
    BinaryMapExp f32_mul e4 (tensor_exp (t vs)) = Ok e5 /\ eshape e5 = [w; h; ch; n] /\
    forall m c y x, 0 <= m < n -> 0 <= c < ch -> 0 <= y < h -> 0 <= x < w ->
      Eval e5 ((m * ch + c) * h + y) x = Ok (lrn_spread k alpha beta (t vs) (t ns) (t os) h ch m c y x).
Proof.
  intros Ov On Oo Hm Hodd Hk t. pose proof (to_pos _ Ov : Forall (fun d => 0 < d) [w; h; ch; n]) as Hpos.
  destruct (rows_dims w h ch n Hpos) as (Hw & Hh & Hch & Hn). unfold INT_MAX in Hm.
  assert (Hd : dim [w; h; ch; n] 0 <> 0) by (change (dim [w; h; ch; n] 0) with w; lia).
  destruct (binary_Ok powf (tensor_exp (t ns)) (ScalarExp (f32_sub (f32_neg beta) f32_one)) _ Hd) as (p & E0 & S0 & V0);
    [left; split; [done|by right]|].
  destruct (binary_Ok f32_mul (tensor_exp (t os)) (tensor_exp (t vs)) _ Hd) as (e1 & E1 & S1 & V1); [left; split; [done|by left]|].
  destruct (binary_Ok f32_mul e1 p _ Hd) as (e2 & E2 & S2 & V2); [left; split; [done|by left]|].
  destruct (chpool_eval red_sum e2 w h ch n k (fun r x => f32_mul (f32_mul (elem (t os) r x) (elem (t vs) r x))
      (powf (elem (t ns) r x) (f32_sub (f32_neg beta) f32_one)))) as (e3 & E3 & S3 & V3); [done|done|lia|done|done| |].
  { intros r x Hr Hx. assert (Hr' : 0 <= r < shape_size [h; ch; n]) by by rewrite size_rows.
    apply V2; [apply V1; by eapply tensor_eval|]. apply V0; [by eapply tensor_eval|done]. }
  destruct (binary_Ok f32_mul (ScalarExp (f32_mul (f32_mul (f32_neg (f32_of_Z 2)) beta) (f32_div alpha (f32_of_Z k)))) e3 _ Hd)
    as (e4 & E4 & S4 & V4); [by right|].
  destruct (binary_Ok f32_mul e4 (tensor_exp (t vs)) _ Hd) as (e5 & E5 & S5 & V5); [left; split; [done|by left]|].
  exists p, e1, e2, e3, e4, e5. do 7 (split; [done|]). intros m c y x Hm' Hc Hy Hx.
  apply V5; [|by apply rows_eval]. apply V4; [done|]. by apply V3.
Qed.

(** C21. Local response normalisation backwards, for a layer of either [norm_region], WITHIN_CHANNEL
    included.  [ComputeGradient] returns and writes nothing but the gradient of the source: a pixel
    gets its gradient times the power of its normaliser, plus what it contributed to the
    normalisers of exactly the neighbouring channels. *)
Theorem LRN_ComputeGradient_spec (i : Z) (s : nstate) (o : LayerObj) (region : NormRegion) (k alpha beta knorm b0 c0 h0 w0 : Z) (nb sb gb : Blob)
    (np sp op gp n ch h w : Z) (ns vs os gs : list Z)
    (Hok : heap_ok (nheap s)) (Ho : objs s !! i = Some o)
    (Hconf : lp_conf (layer_proto_ o) = LRNConf k alpha beta knorm region) (Hsub : osub o = LRNSub k alpha beta knorm b0 c0 h0 w0 nb)
    (Hsrc : src_mutable i 0 kPositive s = Ok sb) (Hgrad : src_mutable_grad i 0 s = Ok (Some gb))
    (Hodd : k mod 2 = 1) (Hk : 0 < k <= ch)
    (Hns : image_at (nheap s) nb np [n; ch; h; w] ns) (Hvs : image_at (nheap s) sb sp [n; ch; h; w] vs)
    (Hos : image_at (nheap s) (ograd o) op [n; ch; h; w] os) (Hgs : image_at (nheap s) gb gp [n; ch; h; w] gs)
    (Hsep : separate [(nb, np); (sb, sp); (ograd o, op); (gb, gp)]) :
  exists h' gs', LRN_ComputeGradient i s = Ok (set_nheap h' s) /\ wrote [(gb, gp)] (nheap s) h' /\
    image_at h' gb gp [n; ch; h; w] gs' /\
    let t := mkTensor [w; h; ch; n] in
    forall m c y x, 0 <= m < n -> 0 <= c < ch -> 0 <= y < h -> 0 <= x < w ->
      let r := (m * ch + c) * h + y in
      elem (t gs') r x = f32_add (f32_mul (elem (t os) r x) (powf (elem (t ns) r x) (f32_neg beta)))
                                 (lrn_spread k alpha beta (t vs) (t ns) (t os) h ch m c y x).
Proof.
  destruct (image_rows _ _ _ _ _ _ _ _ Hns) as (En & Tn & On & _). destruct (image_rows _ _ _ _ _ _ _ _ Hvs) as (Es & Ts & Os & Hm).
  destruct (image_rows _ _ _ _ _ _ _ _ Hos) as (Eo & To & Oo & _). destruct (image_rows _ _ _ _ _ _ _ _ Hgs) as (Eg & Tg & _ & _).
  pose proof (to_pos _ Os : Forall (fun d => 0 < d) [w; h; ch; n]) as Hpos. set (t := mkTensor [w; h; ch; n]).
  destruct (power_expr os ns (f32_neg beta) w h ch n Oo On) as (p & e & Ep & Ee & Se & Ve).
  destruct (rows_assign w h ch n Hpos saveto _ _ _ _ _ _ e
    (fun m c y x => let r := (m * ch + c) * h + y in f32_mul (elem (t os) r x) (powf (elem (t ns) r x) (f32_neg beta)))
    Hok Tg Se) as (h1 & g1 & A1 & W1 & T1 & P1).
  { intros m c y x Hm' Hc Hy Hx. split; [by apply Ve|apply f32_mul_range]. }
  destruct (spread_expr vs ns os w h ch n k alpha beta Os On Oo Hm Hodd Hk) as (q & e1 & e2 & e3 & e4 & e5 & Q & E1 & E2 & E3 & E4 & E5 & S5 & V5).
  destruct (rows_assign w h ch n Hpos plusto _ _ _ _ _ _ e5 (lrn_spread k alpha beta (t vs) (t ns) (t os) h ch)
    (wr_ok _ _ _ W1) T1 S5) as (h2 & g2 & A2 & W2 & T2 & P2).
  { intros m c y x Hm' Hc Hy Hx. split; [by apply V5|apply f32_add_range]. }
  exists h2, g2. split; [|split; [by eapply wrote_trans|split]].
  - unfold LRN_ComputeGradient. rewrite (obj_Ok _ _ _ Ho), bind_Ok, Hsub, Hsrc, bind_Ok, Es, bind_Ok, En, bind_Ok, Eo, bind_Ok.
    rewrite Hgrad, bind_Ok, deref_Some, bind_Ok, Eg, bind_Ok. cbv beta iota.
    rewrite (ten_get _ _ _ _ _ _ Ts), bind_Ok, (ten_get _ _ _ _ _ _ Tn), bind_Ok, (ten_get _ _ _ _ _ _ To), bind_Ok.
    cbn [tenshape]. unfold e_mul. rewrite Ep, bind_Ok, Ee, bind_Ok, A1, bind_Ok.
    rewrite (ten_get h1 (sb, sp) [] (mkTen sp [w; h; ch; n]) vs []) by (eapply wrote_ten; [exact W1|apart_in Hsep|exact Ts]). rewrite bind_Ok.
    rewrite (ten_get h1 (nb, np) [] (mkTen np [w; h; ch; n]) ns []) by (eapply wrote_ten; [exact W1|apart_in Hsep|exact Tn]). rewrite bind_Ok.
    rewrite (ten_get h1 (ograd o, op) [] (mkTen op [w; h; ch; n]) os []) by (eapply wrote_ten; [exact W1|apart_in Hsep|exact To]). rewrite bind_Ok.
    cbn [tenshape]. unfold t in *. rewrite Q, bind_Ok, E1, bind_Ok, E2, bind_Ok, E3, bind_Ok, E4, bind_Ok, E5, bind_Ok, A2, bind_Ok. done.
  - eapply part_image; [exact Hgs|exact T2|]. unfold shape_size. simpl. lia.
  - intros t' m c y x Hm' Hc Hy Hx r. unfold t', r. rewrite P2, P1 by done. done.
Qed.
End lrn.

(** ** Three pixels of three channels *)
Module LRNDemo.
Definition maths : Mathf := {| expf := fun v => v; tanhf := fun v => v; powf := fun v _ => v; log_ := f64_of_f32 |}.
Definition floats : list Z -> list Z := map f32_of_Z.
Definition heap0 : heap :=
  packed (floats [1; 2; 3] ++ floats [0; 0; 0] ++ floats [0; 0; 0] ++ floats [1; 1; 1] ++ floats [6; 15; 14])
    {[0 := mkSM 1 12 HEAD_AT_CPU true; 1 := mkSM 13 12 HEAD_AT_CPU true; 2 := mkSM 25 12 HEAD_AT_CPU true;
      3 := mkSM 37 12 HEAD_AT_CPU true; 4 := mkSM 49 12 HEAD_AT_CPU true]} 5.
Definition source : LayerObj :=
  set_grad (full_blob 1 [1; 3; 1; 1]) (set_data (full_blob 0 [1; 3; 1; 1]) (LayerObj_new kConvolution)).
(** A layer as in examples/cifar10. *)
Definition proto : LayerProto :=
  mkLayerProto "norm1" kLRN None (-1) ["pool1"] [] [] EmptyString (LRNConf 3 (f32_of_Z 3) f32_one f32_one WITHIN_CHANNEL).
Definition layer : LayerObj :=
  set_sub (LRNSub 3 (f32_of_Z 3) f32_one f32_one 1 3 1 1 (full_blob 4 [1; 3; 1; 1]))
    (set_grad (full_blob 3 [1; 3; 1; 1]) (set_data (full_blob 2 [1; 3; 1; 1]) (set_srcs [0] (set_proto proto (LayerObj_new kLRN))))).
Definition state : nstate := mkNS {[0 := source; 1 := layer]} 2 (mkWorld heap0 ∅ 0 ∅).
Lemma lrn_heap_ok : heap_ok heap0.
Proof. apply packed_ok; by apply (bool_decide_unpack _). Qed.
End LRNDemo.
(** With a power that is its base the second channel is 2 (1 + 1 + 4 + 9). *)
Lemma LRN_ComputeFeature_witness : exists h' ns ds,
  @LRN_ComputeFeature LRNDemo.maths 1 LRNDemo.state = Ok (set_nheap h' LRNDemo.state) /\
  image_at h' (full_blob 2 [1; 3; 1; 1]) 25 [1; 3; 1; 1] ds /\
  elem (mkTensor [1; 1; 3; 1] ns) 1 0 = f32_of_Z 15 /\ elem (mkTensor [1; 1; 3; 1] ds) 1 0 = f32_of_Z 30.
Proof.
  destruct (@LRN_ComputeFeature_spec LRNDemo.maths 1 LRNDemo.state LRNDemo.layer WITHIN_CHANNEL 3 (f32_of_Z 3) f32_one f32_one 1 3 1 1
    (full_blob 4 [1; 3; 1; 1]) (full_blob 0 [1; 3; 1; 1]) 49 1 25 1 3 1 1 (LRNDemo.floats [6; 15; 14]) (LRNDemo.floats [1; 2; 3])
    (LRNDemo.floats [0; 0; 0])) as (h' & ns & ds & E & _ & _ & Hi & Hd);
    [exact LRNDemo.lrn_heap_ok|reflexivity|reflexivity|reflexivity|vm_compute; reflexivity|reflexivity|lia|concrete_image 4|concrete_image 0|
     concrete_image 2|concrete_apart|].
  exists h', ns, ds. split; [exact E|]. split; [exact Hi|].
  destruct (Hd 0 1 0 0 ltac:(lia) ltac:(lia) ltac:(lia) ltac:(lia)) as [Hn He].
  assert (En : elem (mkTensor [1; 1; 3; 1] ns) 1 0 = f32_of_Z 15) by (refine (eq_trans Hn _); vm_compute; reflexivity).
  split; [exact En|]. refine (eq_trans He _).
  change (elem (mkTensor [1; 1; 3; 1] ns) ((0 * 3 + 1) * 1 + 0) 0) with (elem (mkTensor [1; 1; 3; 1] ns) 1 0).
  rewrite En. vm_compute. reflexivity.
Defined.
(** The first channel: 6 through its own normaliser, and -72 through those of the first two. *)
Lemma LRN_ComputeGradient_witness : exists h' gs,
  @LRN_ComputeGradient LRNDemo.maths 1 LRNDemo.state = Ok (set_nheap h' LRNDemo.state) /\
  image_at h' (full_blob 1 [1; 3; 1; 1]) 13 [1; 3; 1; 1] gs /\ elem (mkTensor [1; 1; 3; 1] gs) 0 0 = f32_of_Z (-66).
Proof.
  destruct (@LRN_ComputeGradient_spec LRNDemo.maths 1 LRNDemo.state LRNDemo.layer WITHIN_CHANNEL 3 (f32_of_Z 3) f32_one f32_one 1 3 1 1
    (full_blob 4 [1; 3; 1; 1]) (full_blob 0 [1; 3; 1; 1]) (full_blob 1 [1; 3; 1; 1]) 49 1 37 13 1 3 1 1
    (LRNDemo.floats [6; 15; 14]) (LRNDemo.floats [1; 2; 3]) (LRNDemo.floats [1; 1; 1]) (LRNDemo.floats [0; 0; 0]))
    as (h' & gs & E & _ & Hi & Hg);
    [exact LRNDemo.lrn_heap_ok|reflexivity|reflexivity|reflexivity|vm_compute; reflexivity|vm_compute; reflexivity|reflexivity|lia|
     concrete_image 4|concrete_image 0|concrete_image 3|concrete_image 1|concrete_apart|].
  exists h', gs. split; [exact E|]. split; [exact Hi|].
  refine (eq_trans (Hg 0 0 0 0 ltac:(lia) ltac:(lia) ltac:(lia) ltac:(lia)) _). vm_compute. reflexivity.
Defined.
