(* ===== verification/NetCompute.v ===== *)
(** * A batch through a net of layers that compute

    The worker's [Forward] and [Backward] with the layers' own [ComputeFeature] and
    [ComputeGradient] in place of the class [Layers]: the calls are made on the store of layer
    objects, and each layer is described by the places it reads and writes and by what
    its values then mean.  After a batch the values in the memory solve the equations of all
    layers at once. *)

From S2P Require Import Prelude Float32 Msg Format Memory Param Updater Server Cluster Worker WorkerProps LayerConf Layers LayersProps LayerCompute Mshadow MshadowProps LayerMath LayerMathProps LayerLinear InnerProductProps ActivationProps.

(** ** The virtual calls *)
Section calls.
Context `{B : Blas} `{M : Mathf}.
(** The features of the remaining classes, which draw numbers, read files or report a metric. *)
Context (other_feature : Z -> Phase -> nstate -> outcome nstate).

Definition Layer_ComputeFeature (i : Z) (phase : Phase) (s : nstate) : outcome nstate :=
  o ← obj i s;
  match oclass o with
  | kBridgeSrc | kBridgeDst => Layer_nothing i phase s
  | kConcate => Concate_ComputeFeature i phase s
  | kConvolution => Convolution_ComputeFeature i s
  | kInnerProduct => InnerProduct_ComputeFeature i s
  | kLabel | kMnist => Parser_ComputeFeature i s
  | kLRN => LRN_ComputeFeature i s
  | kPooling => Pooling_ComputeFeature i s
  | kReLU => ReLU_ComputeFeature i s
  | kSlice => Slice_ComputeFeature i s
  | kSplit => Split_ComputeFeature i phase s
  | kTanh => Tanh_ComputeFeature i s
  | kShardData | kDropout | kInput | kLMDBData | kOutput | kPrefetch | kRGBImage | kSoftmaxLoss | kRBMVis | kRBMHid =>
      other_feature i phase s
  end.
Definition Layer_ComputeGradient (i : Z) (phase : Phase) (s : nstate) : outcome nstate :=
  o ← obj i s;
  match oclass o with
  | kBridgeSrc | kBridgeDst | kShardData | kInput | kLabel | kLMDBData | kMnist | kOutput | kPrefetch | kRGBImage | kSlice =>
      Layer_nothing i phase s
  | kConcate => Concate_ComputeGradient i phase s
  | kConvolution => Convolution_ComputeGradient i s
  | kDropout => Dropout_ComputeGradient i s
  | kInnerProduct => InnerProduct_ComputeGradient i s
  | kLRN => LRN_ComputeGradient i s
  | kPooling => Pooling_ComputeGradient i s
  | kReLU => ReLU_ComputeGradient i s
  | kSoftmaxLoss => SoftmaxLoss_ComputeGradient i s
  | kSplit => Split_ComputeGradient i phase s
  | kTanh => Tanh_ComputeGradient i s
  | kRBMVis => RBMVis_ComputeGradient i s
  | kRBMHid => RBMHid_ComputeGradient i s
  end.
(** The layers of a net whose objects stay as they are: a call changes the store of the worker. *)
Definition net_layers (objs : gmap Z LayerObj) (next : Z) (loss : Z -> world -> outcome world)
    (smp : Param -> heap -> outcome heap) : Worker.Layers :=
  {| ComputeFeature i phase w := s ← Layer_ComputeFeature i phase (mkNS objs next w); Ok (nworld s);
     ComputeGradient i phase w := s ← Layer_ComputeGradient i phase (mkNS objs next w); Ok (nworld s);
     ComputeLoss := loss; sample := smp |}.
End calls.

(** ** Places and duties *)

(** Where the values of a blob are. *)
Record place := mkPlace { pblob : Blob; pptr : Z; pdims : list Z }.
Definition region (p : place) : Blob * Z := (pblob p, pptr p).
Definition holds (h : heap) (p : place) (vs : list Z) : Prop := image_at h (pblob p) (pptr p) (pdims p) vs.
(** What a call has to do: of the values it reads it writes values with this meaning.  A place is its
    index. *)
Record duty := mkDuty { reads : list nat; writes : list nat; means : list (list Z) -> list (list Z) -> Prop }.
Definition idle : duty := mkDuty [] [] (fun _ _ => True).
Definition solves (d : duty) (vals : nat -> list Z) : Prop := means d (map vals (reads d)) (map vals (writes d)).

(** New values for some places. *)
Fixpoint override (ks : list nat) (vs : list (list Z)) (vals : nat -> list Z) (k : nat) : list Z :=
  match ks, vs with
  | j :: ks, v :: vs => if decide (k = j) then v else override ks vs vals k
  | _, _ => vals k
  end.
Lemma override_out ks : forall vs vals k, k ∉ ks -> override ks vs vals k = vals k.
Proof.
  induction ks as [|j ks IH]; intros [|v vs] vals k Hk; simpl; try done.
  rewrite not_elem_of_cons in Hk. rewrite decide_False by apply Hk. apply IH, Hk.
Qed.
Lemma override_in ks : forall vs vals, NoDup ks -> length vs = length ks -> map (override ks vs vals) ks = vs.
Proof.
  induction ks as [|j ks IH]; intros [|v vs] vals Hd Hl; simpl in *; try done.
  apply list.NoDup_cons in Hd as [Hj Hd]. rewrite decide_True by done. f_equal.
  etransitivity; [|apply (IH vs vals Hd); lia]. apply map_ext_in. intros k Hk. rewrite decide_False; [done|].
  intros ->. by apply Hj, list_elem_of_In.
Qed.
Lemma override_nth ks : forall vs vals j k v, NoDup ks -> ks !! j = Some k -> vs !! j = Some v -> override ks vs vals k = v.
Proof.
  induction ks as [|i ks IH]; intros vs vals j k v Hd Hk Hv; [by rewrite lookup_nil in Hk|].
  apply list.NoDup_cons in Hd as [Hi Hd]. destruct vs as [|u vs]; [by rewrite lookup_nil in Hv|].
  destruct j as [|j]; simpl in *; [injection Hk as ->; injection Hv as ->; by rewrite decide_True|].
  rewrite decide_False; [by eapply IH|]. intros ->. apply Hi. by eapply list_elem_of_lookup_2.
Qed.
Lemma map_same (vals vals' : nat -> list Z) ks : (forall k, k ∈ ks -> vals' k = vals k) -> map vals' ks = map vals ks.
Proof. intros H. apply map_ext_in. intros k Hk. by apply H, list_elem_of_In. Qed.

(** ** The values in the memory *)
Section dataflow.
Context (places : list place) (Hsep : separate (map region places)).

(** The values [vals] are in the memory, each in its place. *)
Record stored (vals : nat -> list Z) (h : heap) : Prop := {
  st_ok : heap_ok h;
  st_holds k p : places !! k = Some p -> holds h p (vals k);
}.
Definition regions (ks : list nat) : list (Blob * Z) := map region (omap (fun k => places !! k) ks).
(** A step of the heap that does a duty. *)
Record did (d : duty) (vals : nat -> list Z) (h h' : heap) (new : list (list Z)) : Prop := {
  di_wrote : wrote (regions (writes d)) h h';
  di_new : Forall2 (fun k vs => exists p, places !! k = Some p /\ holds h' p vs) (writes d) new;
  di_means : means d (map vals (reads d)) new;
}.
Definition duty_ok (d : duty) : Prop := NoDup (writes d) /\ forall k, k ∈ reads d -> k ∉ writes d.
Lemma did_stored d vals h h' new : duty_ok d -> stored vals h -> did d vals h h' new ->
  stored (override (writes d) new vals) h' /\ solves d (override (writes d) new vals).
Proof.
  intros [Hd Hr] [Hok Hh] [W N Hm]. split; [split; [exact (wr_ok _ _ _ W)|]|].
  - intros k p Hk. destruct (decide (k ∈ writes d)) as [[j Hj]%list_elem_of_lookup_1|Hn].
    + destruct (Forall2_lookup_l _ _ _ _ _ N Hj) as (vs & Hvs & p' & Hp' & Hholds).
      rewrite (override_nth _ _ _ _ _ _ Hd Hj Hvs). congruence.
    + rewrite override_out by done. eapply wrote_image; [exact W| |by apply Hh].
      apply list.Forall_forall. intros bp Hbp. apply list_elem_of_fmap in Hbp as (q & -> & Hq).
      apply list_elem_of_omap in Hq as (j & Hj & Ej). apply (separate_lookup _ k j (region p) (region q) Hsep).
      * by rewrite list_lookup_fmap, Hk.
      * by rewrite list_lookup_fmap, Ej.
      * by intros ->.
  - unfold solves. rewrite override_in by (done || symmetry; by eapply Forall2_length).
    rewrite (map_same vals); [done|]. intros k Hk. by apply override_out, Hr.
Qed.

(** ** Duties one after the other *)

(** No duty writes what an earlier one reads or writes. *)
Fixpoint ordered (ds : list duty) : Prop :=
  match ds with
  | [] => True
  | d :: ds => duty_ok d /\ (forall k, k ∈ reads d ++ writes d -> k ∉ concat (map writes ds)) /\ ordered ds
  end.
Lemma solves_same d vals vals' : (forall k, k ∈ reads d ++ writes d -> vals' k = vals k) -> solves d vals -> solves d vals'.
Proof.
  intros H. unfold solves. rewrite (map_same vals vals' (reads d)), (map_same vals vals' (writes d)); [done| |];
    intros k Hk; apply H, elem_of_app; auto.
Qed.
Lemma ordered_app ds es : ordered (ds ++ es) ->
  ordered ds /\ ordered es /\ forall d k, d ∈ ds -> k ∈ reads d ++ writes d -> k ∉ concat (map writes es).
Proof.
  induction ds as [|d ds IH]; simpl; [intros H; split; [done|]; split; [done|]; by intros d k ?%elem_of_nil|].
  rewrite map_app, concat_app. intros (Hd & Hk & Hds). destruct (IH Hds) as (H1 & H2 & H3). split; [|split; [done|]].
  - split; [done|]. split; [|done]. intros k Hin. specialize (Hk k Hin). rewrite elem_of_app in Hk. tauto.
  - intros e k [->|He]%elem_of_cons Hin; [|by eapply H3]. specialize (Hk k Hin). rewrite elem_of_app in Hk. tauto.
Qed.
Section loop.
Context `{C : Czmq} {X : Type} (f : X -> state -> outcome state) (d : X -> duty) (P : state -> Prop).
(** A loop whose steps do their duties solves the equations of all of them. *)
Lemma for_each_solves l : ordered (map d l) ->
  (forall x s vals, x ∈ l -> P s -> stored vals (hp (wd s)) -> exists s' new, f x s = Ok s' /\ P s' /\
     did (d x) vals (hp (wd s)) (hp (wd s')) new) ->
  forall s vals, P s -> stored vals (hp (wd s)) -> exists s' vals', for_each f l s = Ok s' /\ P s' /\
    stored vals' (hp (wd s')) /\ (forall k, k ∉ concat (map writes (map d l)) -> vals' k = vals k) /\
    forall x, x ∈ l -> solves (d x) vals'.
Proof.
  induction l as [|x l IH]; intros Ho Hf s vals Hs Hv.
  { exists s, vals. split; [done|]. split; [done|]. split; [done|]. split; [done|]. by intros x ?%elem_of_nil. }
  destruct Ho as (Hd & Hk & Ho). destruct (Hf x s vals ltac:(left) Hs Hv) as (s1 & new & E1 & H1 & D).
  destruct (did_stored _ _ _ _ _ Hd Hv D) as [Hv1 Hs1].
  destruct (IH Ho (fun y s vals Hy => Hf y s vals (list_elem_of_further _ _ _ Hy)) s1 _ H1 Hv1) as (s2 & vals' & E2 & H2 & Hv2 & K2 & S2).
  exists s2, vals'. simpl. rewrite E1, bind_Ok. split; [done|]. split; [done|]. split; [done|]. split.
  - intros k Hn. rewrite elem_of_app in Hn. rewrite K2 by tauto. apply override_out. tauto.
  - intros y [->|Hy]%elem_of_cons; [|by apply S2]. eapply solves_same; [|exact Hs1]. intros k Hin. by apply K2, Hk.
Qed.
End loop.
End dataflow.

(** ** The layers as units with duties *)

(** The function of an activation layer, and the derivative as a function of the data. *)
Definition act `{M : Mathf} (c : LayerType) : Z -> Z := match c with kReLU => relu | _ => stanh end.
Definition act_grad (c : LayerType) : Z -> Z := match c with kReLU => relu_grad | _ => stanh_grad end.

(** An inner product layer or an activation layer, with the places of what it uses; for any other
    layer, its duties. *)
Inductive net_unit :=
| Linear (hdim vdim n wi bi : Z) (src w b data grad gb gw : nat) (gsrc : option nat)
| Activation (c : LayerType) (src data grad gsrc : nat)
| Other (fd bd : duty).

Section network.
Context `{C : Czmq} `{U : Updater} `{L : BlasLaws} `{M : Mathf}.
Context (other_feature : Z -> Phase -> nstate -> outcome nstate).
Context (objs : gmap Z LayerObj) (next : Z) (loss : Z -> world -> outcome world) (smp : Param -> heap -> outcome heap).
Context (places : list place) (Hsep : separate (map region places)).
(** The params of the net: the data and the gradient of each; the data's version changes. *)
Context (weights : list (Z * Blob * Blob)).

Definition feature_duty (u : net_unit) : duty :=
  match u with
  | Linear hdim vdim n _ _ src w b data _ _ _ _ => mkDuty [src; w; b] [data] (fun xs ys =>
      match xs, ys with [vs; ws; bs], [os] => linear_rel hdim vdim n vs ws bs os | _, _ => False end)
  | Activation c src data _ _ => mkDuty [src] [data] (fun xs ys => ys = map (map (act c)) xs)
  | Other fd _ => fd
  end.
Definition gradient_duty (u : net_unit) : duty :=
  match u with
  | Linear hdim vdim n _ _ src w _ _ grad gb gw gsrc => mkDuty [src; w; grad] ([gb; gw] ++ option_list gsrc) (fun xs ys =>
      match xs, ys with
      | [vs; ws; os], gbs :: gws :: gs => bias_grad_rel hdim n os gbs /\ weight_grad_rel hdim vdim n vs os gws /\
          Forall (source_grad_rel hdim vdim n ws os) gs
      | _, _ => False
      end)
  | Activation c _ data grad gsrc => mkDuty [data; grad] [gsrc] (fun xs ys =>
      match xs with [ds; os] => ys = [zip_with (fun d g => f32_mul (act_grad c d) g) ds os] | _ => False end)
  | Other _ bd => bd
  end.

Definition weights_at (w : world) : Prop :=
  forall i b g, (i, b, g) ∈ weights -> exists p v, params w !! i = Some p /\ data_blob p (hp w) = Ok (set_version v b) /\ Param.grad p = g.
(** A call that does its duty on every store with the params of the net. *)
Definition promises (f : nstate -> outcome nstate) (d : duty) : Prop :=
  forall w vals, weights_at w -> stored places vals (hp w) -> exists h' new,
    f (mkNS objs next w) = Ok (set_nheap h' (mkNS objs next w)) /\ did places d vals (hp w) h' new.

(** A layer object and its unit. *)
Inductive fits (i : Z) : net_unit -> Prop :=
| fits_linear o hdim vdim n wi bi src w b data grad gb gw gsrc sb wb bb gwb gbb gopt sp wp bp dp op gbp gwp gp sdims :
    objs !! i = Some o -> oclass o = kInnerProduct -> osub o = InnerProductSub hdim vdim n wi bi ->
    (forall wd, src_mutable i 0 kPositive (mkNS objs next wd) = Ok sb) ->
    (forall wd, src_mutable_grad i 0 (mkNS objs next wd) = Ok gopt) ->
    (wi, wb, gwb) ∈ weights -> (bi, bb, gbb) ∈ weights -> shape_size sdims = vdim ->
    places !! src = Some (mkPlace sb sp (n :: sdims)) -> places !! w = Some (mkPlace wb wp [vdim; hdim]) ->
    places !! b = Some (mkPlace bb bp [hdim]) -> places !! data = Some (mkPlace (odata o) dp [n; hdim]) ->
    places !! grad = Some (mkPlace (ograd o) op [n; hdim]) -> places !! gb = Some (mkPlace gbb gbp [hdim]) ->
    places !! gw = Some (mkPlace gwb gwp [vdim; hdim]) ->
    match gsrc, gopt with
    | Some k, Some g => places !! k = Some (mkPlace g gp (n :: sdims))
    | None, None => True
    | _, _ => False
    end ->
    data ∉ [src; w; b] -> NoDup ([src; grad; w; gw; gb] ++ option_list gsrc) ->
    fits i (Linear hdim vdim n wi bi src w b data grad gb gw gsrc)
| fits_activation o c src data grad gsrc sb g ps pd pg pgs :
    objs !! i = Some o -> oclass o = c -> c = kReLU \/ c = kTanh ->
    (forall wd, src_mutable i 0 kPositive (mkNS objs next wd) = Ok sb) ->
    (forall wd, src_mutable_grad i 0 (mkNS objs next wd) = Ok (Some g)) ->
    places !! src = Some ps -> places !! data = Some pd -> places !! grad = Some pg -> places !! gsrc = Some pgs ->
    pblob ps = sb -> pblob pd = odata o -> pblob pg = ograd o -> pblob pgs = g ->
    shape_size (pdims ps) = shape_size (pdims pd) -> shape_size (pdims pg) = shape_size (pdims pd) ->
    shape_size (pdims pgs) = shape_size (pdims pd) ->
    fits i (Activation c src data grad gsrc)
| fits_other fd bd :
    (forall phase, promises (Layer_ComputeFeature other_feature i phase) fd) ->
    (forall phase, promises (Layer_ComputeGradient i phase) bd) -> fits i (Other fd bd).

Lemma separate_places ks ps : NoDup ks -> Forall2 (fun k p => places !! k = Some p) ks ps -> separate (map region ps).
Proof.
  intros Hd Hf. induction Hf as [|k p ks ps Hk Hf IH]; [constructor|]. apply list.NoDup_cons in Hd as [Hn Hd].
  constructor; [|by apply IH]. apply list.Forall_forall. intros bp Hbp. apply list_elem_of_fmap in Hbp as (q & -> & Hq).
  apply list_elem_of_lookup_1 in Hq as [j Hj]. destruct (Forall2_lookup_r _ _ _ _ _ Hf Hj) as (k' & Hk' & Ek').
  apply (separate_lookup _ k k' (region p) (region q) Hsep); [by rewrite list_lookup_fmap, Hk|by rewrite list_lookup_fmap, Ek'|].
  intros ->. apply Hn. by eapply list_elem_of_lookup_2.
Qed.
Lemma regions_cons k ks p : places !! k = Some p -> regions places (k :: ks) = region p :: regions places ks.
Proof. intros Hk. unfold regions. simpl. by rewrite Hk. Qed.
Lemma weight_data w i b g : weights_at w -> (i, b, g) ∈ weights -> exists v,
  param_data i (mkNS objs next w) (hp w) = Ok (set_version v b) /\ param_grad i (mkNS objs next w) = Ok g.
Proof.
  intros Hw Hi. destruct (Hw i b g Hi) as (p & v & Hp & Hb & Hg). exists v. unfold param_data, param_grad, the_param. simpl.
  rewrite Hp, deref_Some, !bind_Ok. split; [done|congruence].
Qed.
Lemma image_version v h b p dims vs : image_at h b p dims vs -> image_at h (set_version v b) p dims vs.
Proof. by intros [[[Hc Hcap Hf Hb] Hp] Hd Hpos Hi Hl]. Qed.

(** What is separate does not depend on versions. *)
Lemma separate_same l l' : Forall2 (fun x y => capacity_ x.1 = capacity_ y.1 /\ x.2 = y.2) l l' -> separate l -> separate l'.
Proof.
  intros H. induction H as [|x y l l' [Hc Hp] H IH]; [done|]. rewrite !separate_cons. intros [Hx Hl]. split; [|by apply IH].
  clear Hl IH. induction H as [|z w l l' [Hc' Hp'] H IH]; [constructor|]. apply list.Forall_cons in Hx as [[H1 H2] Hx].
  constructor; [|by apply IH]. unfold apart, outside in *. by rewrite <- Hc, <- Hp, <- Hc', <- Hp'.
Qed.

Lemma obj_at i o w : objs !! i = Some o -> obj i (mkNS objs next w) = Ok o.
Proof. intros H. by apply obj_Ok. Qed.

(** A call that changes nothing. *)
Lemma promises_idle f : (forall w, f (mkNS objs next w) = Ok (mkNS objs next w)) -> promises f idle.
Proof.
  intros Hf w vals _ [Hok _]. exists (hp w), []. split; [rewrite Hf; by destruct w|].
  split; [by apply wrote_refl|constructor|done].
Qed.

(** *** Inner product layers *)
Lemma Linear_feature i phase u : fits i u -> (exists hdim vdim n wi bi src w b data grad gb gw gsrc,
  u = Linear hdim vdim n wi bi src w b data grad gb gw gsrc) ->
  promises (Layer_ComputeFeature other_feature i phase) (feature_duty u).
Proof.
  intros Hf (hdim & vdim & n & wi & bi & src & kw & kb & data & grad & gb & gw & gsrc & ->).
  inversion Hf as [o ? ? ? ? ? ? ? ? ? ? ? ? ? sb wb bb gwb gbb gopt sp wp bp dp op gbp gwp gp sdims
    Ho Hc Hsub Hsrc _ Hwi Hbi Hvd Psrc Pw Pb Pd _ _ _ _ Hin _| |]; subst; clear Hf.
  intros w vals Hw [Hok Hh]. destruct (weight_data _ _ _ _ Hw Hwi) as (vw & Ew & _).
  destruct (weight_data _ _ _ _ Hw Hbi) as (vb & Eb & _).
  assert (Ha : forall k p, k ∈ [src; kw; kb] -> places !! k = Some p -> apart (pblob p) (pptr p) (odata o, dp)).
  { intros k p Hk Hp. apply (separate_lookup _ k data (region p) (odata o, dp) Hsep);
      [by rewrite list_lookup_fmap, Hp|by rewrite list_lookup_fmap, Pd|intros ->; by apply Hin]. }
  destruct (InnerProduct_feature i (mkNS objs next w) o hdim (shape_size sdims) n wi bi sb (set_version vw wb) (set_version vb bb)
    sp wp bp dp sdims (vals src) (vals kw) (vals kb) (vals data) Hok Ho Hsub (Hsrc w) Ew Eb (Hh _ _ Psrc) eq_refl
    (image_version _ _ _ _ _ _ (Hh _ _ Pw)) (image_version _ _ _ _ _ _ (Hh _ _ Pb)) (Hh _ _ Pd))
    as (h' & os & E & W & I & R).
  { constructor; [|constructor; [|constructor; [|constructor]]]; simpl.
    - apply (Ha src _ ltac:(left) Psrc).
    - apply (Ha kw _ ltac:(right; left) Pw).
    - apply (Ha kb _ ltac:(do 2 right; left) Pb). }
  exists h', [os]. split.
  { unfold Layer_ComputeFeature. rewrite (obj_at _ _ w Ho), bind_Ok, Hc. exact E. }
  split; [|constructor; [|constructor]|exact R].
  - simpl. rewrite (regions_cons _ _ _ Pd). exact W.
  - eexists. split; [exact Pd|exact I].
Qed.
Lemma Linear_gradient i phase u : fits i u -> (exists hdim vdim n wi bi src w b data grad gb gw gsrc,
  u = Linear hdim vdim n wi bi src w b data grad gb gw gsrc) ->
  promises (Layer_ComputeGradient i phase) (gradient_duty u).
Proof.
  intros Hf (hdim & vdim & n & wi & bi & src & kw & kb & data & grad & gb & gw & gsrc & ->).
  inversion Hf as [o ? ? ? ? ? ? ? ? ? ? ? ? ? sb wb bb gwb gbb gopt sp wp bp dp op gbp gwp gp sdims
    Ho Hc Hsub Hsrc Hgrad Hwi Hbi Hvd Psrc Pw _ _ Pg Pgb Pgw Pgs _ Hnd| |]; subst; clear Hf.
  intros w vals Hw [Hok Hh]. destruct (weight_data _ _ _ _ Hw Hwi) as (vw & Ew & Egw).
  destruct (weight_data _ _ _ _ Hw Hbi) as (vb & _ & Egb).
  set (extra := match gopt with Some g => [mkPlace g gp (n :: sdims)] | None => [] end).
  assert (Hx : Forall2 (fun k p => places !! k = Some p) (option_list gsrc) extra).
  { destruct gsrc, gopt; try done; repeat constructor. exact Pgs. }
  pose proof (separate_places _ ([mkPlace sb sp (n :: sdims); mkPlace (ograd o) op [n; hdim]; mkPlace wb wp [shape_size sdims; hdim];
    mkPlace gwb gwp [shape_size sdims; hdim]; mkPlace gbb gbp [hdim]] ++ extra) Hnd) as Hs.
  destruct (InnerProduct_gradient i (mkNS objs next w) o hdim (shape_size sdims) n wi bi sb (set_version vw wb) gwb gbb gopt
    sp wp gwp gbp gp op sdims
    (vals src) (vals kw) (vals grad) (vals gw) (vals gb) (match gsrc with Some k => vals k | None => [] end)
    Hok Ho Hsub (Hsrc w) (Hgrad w) Ew Egw Egb (Hh _ _ Psrc) eq_refl (Hh _ _ Pg)
    (image_version _ _ _ _ _ _ (Hh _ _ Pw)) (Hh _ _ Pgw) (Hh _ _ Pgb))
    as (h' & gws & gbs & gs & E & W & [Ib Rb] & [Iw Rw] & Hg).
  { destruct gsrc, gopt; try done. exact (Hh _ _ Pgs). }
  { replace (match gopt with Some g => [(g, gp)] | None => [] end) with (map region extra) by (by unfold extra; destruct gopt).
    rewrite map_app in Hs. eapply separate_same; [|apply Hs].
    - simpl. repeat (constructor; [done|]). apply list.Forall_Forall2_diag, list.Forall_forall. by intros x _.
    - repeat (constructor; [done|]). exact Hx. }
  exists h', (gbs :: gws :: match gsrc with Some _ => [gs] | None => [] end). split.
  { unfold Layer_ComputeGradient. rewrite (obj_at _ _ w Ho), bind_Ok, Hc. exact E. }
  split.
  - simpl. rewrite (regions_cons _ _ _ Pgb), (regions_cons _ _ _ Pgw).
    replace (regions places (option_list gsrc)) with (match gopt with Some g => [(g, gp)] | None => [] end); [exact W|].
    destruct gsrc, gopt; try done. simpl. by rewrite (regions_cons _ _ _ Pgs).
  - constructor; [eexists; split; [exact Pgb|exact Ib]|]. constructor; [eexists; split; [exact Pgw|exact Iw]|].
    destruct gsrc, gopt; try done; repeat constructor. eexists. split; [exact Pgs|]. by apply Hg.
  - simpl. split; [exact Rb|]. split; [exact Rw|]. destruct gsrc, gopt; try done; repeat constructor. by apply (Hg b).
Qed.

(** *** Activation layers *)
Lemma Activation_promise_feature i phase u : fits i u -> (exists c src data grad gsrc, u = Activation c src data grad gsrc) ->
  promises (Layer_ComputeFeature other_feature i phase) (feature_duty u).
Proof.
  intros Hf (c & src & data & grad & gsrc & ->).
  inversion Hf as [|o ? ? ? ? ? sb g ps pd pg pgs Ho Hc Hcls Hsrc _ Psrc Pd _ _ Es Ed _ _ Hsize _ _|]; subst; clear Hf.
  intros w vals Hw [Hok Hh]. pose proof (Hh _ _ Psrc) as Is. pose proof (Hh _ _ Pd) as Id. unfold holds in Is, Id. rewrite Ed in Id.
  set (op := match oclass o with kReLU => ReLU_ComputeFeature | _ => Tanh_ComputeFeature end).
  destruct (Activation_feature (op, act (oclass o)) i (mkNS objs next w) o (pblob ps) (pptr ps) (pptr pd) (pdims ps) (pdims pd)
    (vals src) (vals data)) as (h' & E & W & I); try done.
  { unfold op. destruct Hcls as [->| ->]; [by left|by right; left]. }
  exists h', [map (act (oclass o)) (vals src)]. split.
  { unfold Layer_ComputeFeature. rewrite (obj_at _ _ w Ho), bind_Ok. unfold op in E.
    destruct Hcls as [Ec|Ec]; rewrite Ec in *; exact E. }
  split; [|constructor; [|constructor]|done].
  - simpl. rewrite (regions_cons _ _ _ Pd). unfold region. rewrite Ed. exact W.
  - exists pd. split; [done|]. unfold holds. rewrite Ed. exact I.
Qed.
Lemma Activation_promise_gradient i phase u : fits i u -> (exists c src data grad gsrc, u = Activation c src data grad gsrc) ->
  promises (Layer_ComputeGradient i phase) (gradient_duty u).
Proof.
  intros Hf (c & src & data & grad & gsrc & ->).
  inversion Hf as [|o ? ? ? ? ? sb g ps pd pg pgs Ho Hc Hcls _ Hgrad _ Pd Pg Pgs _ Ed Eg Egs _ Hsg Hss|]; subst; clear Hf.
  intros w vals Hw [Hok Hh]. pose proof (Hh _ _ Pd) as Id. pose proof (Hh _ _ Pg) as Ig. unfold holds in Id, Ig. rewrite Ed in Id.
  rewrite Eg in Ig. set (op := match oclass o with kReLU => ReLU_ComputeGradient | _ => Tanh_ComputeGradient end).
  destruct (Activation_gradient (op, act_grad (oclass o)) i (mkNS objs next w) o (pblob pgs) (pptr pd) (pptr pg) (pptr pgs)
    (pdims pd) (pdims pg) (pdims pgs) (vals data) (vals grad) (vals gsrc)) as (h' & E & W & I); try done.
  { unfold op. destruct Hcls as [->| ->]; [by left|by right; left]. }
  { exact (Hh _ _ Pgs). }
  eexists h', [_]. split.
  { unfold Layer_ComputeGradient. rewrite (obj_at _ _ w Ho), bind_Ok. unfold op in E.
    destruct Hcls as [Ec|Ec]; rewrite Ec in *; exact E. }
  split; [|constructor; [|constructor]|done].
  - simpl. rewrite (regions_cons _ _ _ Pgs). exact W.
  - exists pgs. split; [done|]. exact I.
Qed.
Lemma fits_promises i phase u : fits i u -> promises (Layer_ComputeFeature other_feature i phase) (feature_duty u) /\
  promises (Layer_ComputeGradient i phase) (gradient_duty u).
Proof.
  intros Hf. destruct u.
  - split; [apply Linear_feature|apply Linear_gradient]; try done; by repeat eexists.
  - split; [apply Activation_promise_feature|apply Activation_promise_gradient]; try done; by repeat eexists.
  - inversion Hf; subst. auto.
Qed.

(** ** The passes of the worker *)
#[local] Instance computing : Worker.Layers := net_layers other_feature objs next loss smp.
Context (t : Worker) (net : list Layer) (unit_of : Z -> net_unit).
Context (Hfits : forall n l, (n, l) ∈ own t net -> fits n (unit_of n)) (Hbridge : no_bridge t net).

(** The params of the net are in the store; those of the worker's layers have been answered for, or
    at least they are there. *)
Definition answered (w : world) : Prop := weights_at w /\ forall i, i ∈ own_params t net -> ahead i w.
Definition present (w : world) : Prop :=
  weights_at w /\ forall i, i ∈ own_params t net -> exists p v, params w !! i = Some p /\ version p (hp w) = Ok v.
Lemma same_blobs_weights w h : blobs h = blobs (hp w) -> weights_at w -> weights_at (set_hp h w).
Proof. intros Hb Hw i b g Hi. destruct (Hw i b g Hi) as (p & v & Hp & Hd & Hg). exists p, v. simpl. unfold data_blob. by rewrite Hb. Qed.
Lemma same_blobs_version p w h v : blobs h = blobs (hp w) -> version p (hp w) = Ok v -> version p h = Ok v.
Proof. intros Hb. unfold version, data_blob. by rewrite Hb. Qed.
Lemma answered_present w : answered w -> present w.
Proof. intros [Hw Ha]. split; [done|]. intros i Hi. destruct (Ha i Hi) as (p & v & ? & ? & _). by exists p, v. Qed.
Lemma same_blobs_answered w h : blobs h = blobs (hp w) -> answered w -> answered (set_hp h w).
Proof.
  intros Hb [Hw Ha]. split; [by apply same_blobs_weights|]. intros i Hi. destruct (Ha i Hi) as (p & v & ? & ? & ?).
  exists p, v. split; [done|]. split; [by eapply same_blobs_version|done].
Qed.
Lemma same_blobs_present w h : blobs h = blobs (hp w) -> present w -> present (set_hp h w).
Proof.
  intros Hb [Hw Ha]. split; [by apply same_blobs_weights|]. intros i Hi. destruct (Ha i Hi) as (p & v & ? & ?).
  exists p, v. split; [done|]. by eapply same_blobs_version.
Qed.
Lemma local_present i p v w : params w !! i = Some p -> present w -> present (put_param i (set_local_version v p) (hp w) w).
Proof.
  intros Hp [Hw Ha]. split.
  - intros j b g Hj. destruct (Hw j b g Hj) as (q & u & Hq & Hd & Hg). simpl. destruct (decide (i = j)) as [<-|Hne].
    + rewrite Hp in Hq. injection Hq as <-. exists (set_local_version v p), u. by rewrite lookup_insert_eq.
    + exists q, u. by rewrite lookup_insert_ne.
  - intros j Hj. destruct (Ha j Hj) as (q & u & Hq & Hu). simpl. destruct (decide (i = j)) as [<-|Hne].
    + rewrite Hp in Hq. injection Hq as <-. exists (set_local_version v p), u. by rewrite lookup_insert_eq.
    + exists q, u. by rewrite lookup_insert_ne.
Qed.
Lemma wait_ahead is_ : forall s, (forall i, i ∈ is_ -> ahead i (wd s)) -> exists s', for_each Collect is_ s = Ok s' /\ wd s' = wd s.
Proof.
  induction is_ as [|i is_ IH]; intros s Ha; [by exists s|]. simpl. rewrite Collect_ahead by (apply Ha; left). rewrite bind_Ok.
  apply (IH (emit (Waited i) s)). intros j Hj. apply Ha. by right.
Qed.
Lemma own_partition n l : (n, l) ∈ own t net ->
  (lpartition l =? w_id t) = true /\ is_bridgesrclayer l = false /\ is_bridgedstlayer l = false.
Proof.
  intros Hl. pose proof (Hbridge n l Hl) as [H1 H2]%orb_false_iff. apply list_elem_of_filter in Hl as [Hl _]. simpl in Hl.
  split; [by apply Z.eqb_eq|done].
Qed.

Lemma forward_does phase nl s vals : nl ∈ own t net -> answered (wd s) -> stored places vals (hp (wd s)) ->
  exists s' new, forward_layer t phase net nl s = Ok s' /\ answered (wd s') /\ params (wd s') = params (wd s) /\
    did places (feature_duty (unit_of nl.1)) vals (hp (wd s)) (hp (wd s')) new.
Proof.
  destruct nl as [n l]. intros Hl Ha Hv. destruct (own_partition n l Hl) as (Hp & Hs & Hd).
  assert (exists s1, (match phase with kTrain => for_each Collect (lparams l) s | _ => Ok s end) = Ok s1 /\ wd s1 = wd s)
    as (s1 & E1 & W1).
  { destruct phase; try (by exists s). apply wait_ahead. intros i Hi. apply Ha. by apply (in_own_params t net n l). }
  destruct (proj1 (fits_promises n phase _ (Hfits n l Hl)) (wd s) vals (proj1 Ha) Hv) as (h' & new & E & D).
  exists (emit (Feature n phase) (set_world (set_hp h' (wd s)) s1)), new. split; [|split; [|split; [done|exact D]]].
  - unfold forward_layer. rewrite Hp, Hd, Hs, bind_Ok, E1, bind_Ok. unfold compute_feature. rewrite W1, Hd. simpl. rewrite E, !bind_Ok. done.
  - simpl. apply same_blobs_answered; [|done]. exact (wr_blobs _ _ _ (di_wrote _ _ _ _ _ _ D)).
Qed.
Lemma update_all is_ : forall s, updater_ t = false -> (forall i, i ∈ is_ -> i ∈ own_params t net) -> present (wd s) ->
  forall stp, exists s', for_each (fun i => Update_param t i stp) is_ s = Ok s' /\ present (wd s') /\ hp (wd s') = hp (wd s).
Proof.
  induction is_ as [|i is_ IH]; intros s Hu Hi Hp stp; [by exists s|]. simpl.
  destruct (proj2 Hp i (Hi i ltac:(left))) as (p & v & Ep & Ev).
  set (s1 := emit (Send (request t kUpdate (set_local_version v p) stp))
    (set_world (put_param i (set_local_version v p) (hp (wd s)) (wd s)) s)).
  assert (E1 : Update_param t i stp s = Ok s1).
  { unfold Update_param, get_param. by rewrite Ep, deref_Some, bind_Ok, Ev, bind_Ok, Hu. }
  rewrite E1, bind_Ok. apply (IH s1 Hu); [intros j Hj; apply Hi; by right|by apply (local_present i p v)].
Qed.
Lemma backward_does stp nl s vals : updater_ t = false -> nl ∈ own t net -> present (wd s) -> stored places vals (hp (wd s)) ->
  exists s' new, backward_layer t stp nl s = Ok s' /\ present (wd s') /\
    did places (gradient_duty (unit_of nl.1)) vals (hp (wd s)) (hp (wd s')) new.
Proof.
  destruct nl as [n l]. intros Hu Hl Ha Hv. destruct (own_partition n l Hl) as (Hp & Hs & _).
  destruct (proj2 (fits_promises n kTrain _ (Hfits n l Hl)) (wd s) vals (proj1 Ha) Hv) as (h' & new & E & D).
  destruct (update_all (lparams l) (emit (Gradient n) (set_world (set_hp h' (wd s)) s)) Hu) with (stp := stp) as (s' & E' & Hp' & Hh).
  { intros i Hi. by apply (in_own_params t net n l). }
  { simpl. apply same_blobs_present; [|done]. exact (wr_blobs _ _ _ (di_wrote _ _ _ _ _ _ D)). }
  exists s', new. split; [|split; [done|]].
  - unfold backward_layer, compute_gradient. rewrite Hp, Hs. simpl. rewrite E, !bind_Ok. exact E'.
  - rewrite Hh. exact D.
Qed.

(** Forwards, in any phase: the features solve the equations of the layers. *)
Lemma Forward_solves phase s vals : ordered (map (fun nl => feature_duty (unit_of nl.1)) (own t net)) ->
  answered (wd s) -> stored places vals (hp (wd s)) ->
  exists s' vals', Forward t phase net s = Ok s' /\
    (answered (wd s') /\ params (wd s') = params (wd s) /\ blobs (hp (wd s')) = blobs (hp (wd s))) /\
    stored places vals' (hp (wd s')) /\
    (forall k, k ∉ concat (map writes (map (fun nl => feature_duty (unit_of nl.1)) (own t net))) -> vals' k = vals k) /\
    forall nl, nl ∈ own t net -> solves (feature_duty (unit_of nl.1)) vals'.
Proof.
  intros Ho Ha Hv. unfold Forward. rewrite (for_each_own _ (fun nl => lpartition nl.2 = w_id t)).
  2:{ intros [n l] s0 Hne. simpl in Hne. unfold forward_layer. by destruct (Z.eqb_spec (lpartition l) (w_id t)). }
  apply (for_each_solves places Hsep (forward_layer t phase net) _
    (fun s' => answered (wd s') /\ params (wd s') = params (wd s) /\ blobs (hp (wd s')) = blobs (hp (wd s))) (own t net) Ho); [|done..].
  intros nl s0 vals0 Hl (Ha0 & Hp0 & Hb0) Hv0. destruct (forward_does phase nl s0 vals0 Hl Ha0 Hv0) as (s' & new & E & A & Ep & D).
  exists s', new. split; [done|]. split; [|done]. split; [done|]. split; [congruence|].
  pose proof (wr_blobs _ _ _ (di_wrote _ _ _ _ _ _ D)). congruence.
Qed.
Lemma Backward_solves stp s vals : updater_ t = false ->
  ordered (map (fun nl => gradient_duty (unit_of nl.1)) (reverse (own t net))) ->
  present (wd s) -> stored places vals (hp (wd s)) ->
  exists s' vals', Backward t stp net s = Ok s' /\ present (wd s') /\ stored places vals' (hp (wd s')) /\
    (forall k, k ∉ concat (map writes (map (fun nl => gradient_duty (unit_of nl.1)) (reverse (own t net)))) -> vals' k = vals k) /\
    forall nl, nl ∈ reverse (own t net) -> solves (gradient_duty (unit_of nl.1)) vals'.
Proof.
  intros Hu Ho Ha Hv. unfold Backward. rewrite (for_each_own _ (fun nl => lpartition nl.2 = w_id t)).
  2:{ intros [n l] s0 Hne. simpl in Hne. unfold backward_layer. by destruct (Z.eqb_spec (lpartition l) (w_id t)). }
  rewrite list.filter_reverse. fold (own t net) in *.
  apply (for_each_solves places Hsep (backward_layer t stp) _ (fun s => present (wd s)) _ Ho); [|done|done].
  intros nl s0 vals0 Hl. rewrite elem_of_reverse in Hl. by apply backward_does.
Qed.

(** The duties of a batch in the order of the worker. *)
Definition batch_duties : list duty :=
  map (fun nl => feature_duty (unit_of nl.1)) (own t net) ++
  map (fun nl => gradient_duty (unit_of nl.1)) (reverse (own t net)).

(** C12. A training batch of the worker with the layers' own computations.  For inner product, ReLU and Tanh layers,
    and any others that keep the duties they are given, whose blobs are apart and whose duties
    come in an order that lets none of them overwrite what an earlier one used,
    [TrainOneBatch] returns; then the values in the memory solve at once the equations of every
    layer of the worker forwards and backwards (the data from the source, the weight and the
    bias; the gradients of the params and of the source from that of the data), and every
    place that no layer writes has the values it had. *)
Theorem TrainOneBatch_computes (stp : Z) (s : state) (vals : nat -> list Z)
    (Hserver : updater_ t = false) (Hordered : ordered batch_duties)
    (Hparams : answered (wd s)) (Hstored : stored places vals (hp (wd s))) :
  exists s' vals', TrainOneBatch t stp net s = Ok s' /\ stored places vals' (hp (wd s')) /\
    (forall n l, (n, l) ∈ own t net ->
       solves (feature_duty (unit_of n)) vals' /\ solves (gradient_duty (unit_of n)) vals') /\
    forall k, k ∉ concat (map writes batch_duties) -> vals' k = vals k.
Proof.
  destruct (ordered_app _ _ Hordered) as (Hf & Hb & Hkeep).
  destruct (Forward_solves kTrain s vals Hf Hparams Hstored) as (s1 & v1 & E1 & (A1 & _) & V1 & K1 & S1).
  destruct (Backward_solves stp s1 v1 Hserver Hb (answered_present _ A1) V1) as (s2 & v2 & E2 & _ & V2 & K2 & S2).
  exists s2, v2. split; [unfold TrainOneBatch; by rewrite E1, bind_Ok|]. split; [done|]. split.
  - intros n l Hl. split; [|apply (S2 (n, l)); by apply elem_of_reverse].
    apply (solves_same _ v1); [|by apply (S1 (n, l))]. intros k Hk. apply K2.
    apply (Hkeep _ k (list_elem_of_fmap_2 (fun nl => feature_duty (unit_of nl.1)) _ _ Hl) Hk).
  - unfold batch_duties. intros k Hk. rewrite map_app, concat_app, elem_of_app in Hk. rewrite K2, K1 by tauto. done.
Qed.

(** *** Layers that end the program *)
Lemma for_each_inv {X} (f : X -> state -> outcome state) l : forall s s', for_each f l s = Ok s' ->
  forall x, x ∈ l -> exists s1 s2, f x s1 = Ok s2.
Proof.
  induction l as [|x l IH]; intros s s' H y Hy; [by apply elem_of_nil in Hy|]. simpl in H.
  apply bind_Ok_inv in H as (s1 & E & H). apply elem_of_cons in Hy as [->|Hy]; [by exists s, s1|by eapply IH].
Qed.
End network.

(** C13. A split or a concatenation layer stops every net it is in.  A worker that has one among the
    layers of its partition never comes to the end of a forward pass, whatever the phase, the
    other layers and the store. *)
Theorem Forward_unimplemented `{C : Czmq} `{B : Blas} `{M : Mathf}
    (other_feature : Z -> Phase -> nstate -> outcome nstate) (objs : gmap Z LayerObj) (next : Z) (loss : Z -> world -> outcome world)
    (smp : Param -> heap -> outcome heap) (t : Worker) (phase : Phase) (net : list Layer) (n : Z) (l : Layer) (o : LayerObj)
    (s s' : state) (Hl : (n, l) ∈ layers net) (Hpart : lpartition l = w_id t) (Ho : objs !! n = Some o)
    (Hclass : oclass o = kSplit \/ oclass o = kConcate) :
  @Forward _ (net_layers other_feature objs next loss smp) t phase net s <> Ok s'.
Proof.
  intros H. destruct (for_each_inv _ _ _ _ H (n, l) Hl) as (s1 & s2 & E). unfold forward_layer in E.
  rewrite Hpart, Z.eqb_refl in E. apply bind_Ok_inv in E as (s3 & _ & E). apply bind_Ok_inv in E as (s4 & _ & E).
  apply bind_Ok_inv in E as (s5 & E & _). unfold compute_feature in E. simpl in E. unfold Layer_ComputeFeature in E.
  rewrite (obj_at _ _ _ _ _ Ho), bind_Ok in E. destruct Hclass as [Hc|Hc]; by rewrite Hc in E.
Qed.

(** ** A net of an input, an inner product and a ReLU layer *)
Import TextbookBlas.
Module NetDemo.
Definition floats : list Z -> list Z := map f32_of_Z.
Definition contents : list (list Z) :=
  map floats [[1; 2; -3; 0]; [10; 100]; [5]; [0; 0]; [0; 0]; [0; 0]; [0]; [0; 0]; [1; 2]].
Definition heap0 : heap :=
  with_blobs {[10 := full_blob 1 [2; 1]; 11 := full_blob 2 [1]]}
    (packed (concat contents)
      {[0 := mkSM 1 16 HEAD_AT_CPU true; 1 := mkSM 17 8 HEAD_AT_CPU true; 2 := mkSM 25 4 HEAD_AT_CPU true;
        3 := mkSM 29 8 HEAD_AT_CPU true; 4 := mkSM 37 8 HEAD_AT_CPU true; 5 := mkSM 45 8 HEAD_AT_CPU true;
        6 := mkSM 53 4 HEAD_AT_CPU true; 7 := mkSM 57 8 HEAD_AT_CPU true; 8 := mkSM 65 8 HEAD_AT_CPU true]} 12).
Definition places : list place :=
  [mkPlace (full_blob 0 [2; 2]) 1 [2; 2]; mkPlace (full_blob 1 [2; 1]) 17 [2; 1]; mkPlace (full_blob 2 [1]) 25 [1];
   mkPlace (full_blob 3 [2; 1]) 29 [2; 1]; mkPlace (full_blob 4 [2; 1]) 37 [2; 1]; mkPlace (full_blob 5 [2; 1]) 45 [2; 1];
   mkPlace (full_blob 6 [1]) 53 [1]; mkPlace (full_blob 7 [2; 1]) 57 [2; 1]; mkPlace (full_blob 8 [2; 1]) 65 [2; 1]].
Definition inner : LayerObj :=
  set_sub (InnerProductSub 1 2 2 0 1)
    (set_grad (full_blob 4 [2; 1]) (set_data (full_blob 3 [2; 1]) (set_srcs [0] (LayerObj_new kInnerProduct)))).
Definition positive : LayerObj :=
  set_grad (full_blob 8 [2; 1]) (set_data (full_blob 7 [2; 1]) (set_srcs [1] (LayerObj_new kReLU))).
Definition objs : gmap Z LayerObj := {[0 := set_data (full_blob 0 [2; 2]) (LayerObj_new kRGBImage); 1 := inner; 2 := positive]}.
Definition weights : list (Z * Blob * Blob) := [(0, full_blob 1 [2; 1], full_blob 5 [2; 1]); (1, full_blob 2 [1], full_blob 6 [1])].
Definition fresh (d : Z) (g : Blob) : Param := set_local_version (-2) (param_of d g).
Definition store : world := mkWorld heap0 {[0 := fresh 10 (full_blob 5 [2; 1]); 1 := fresh 11 (full_blob 6 [1])]} 2 ∅.
Definition unit_of (i : Z) : net_unit :=
  match i with
  | 1 => Linear 1 2 2 0 1 0 1 2 3 4 6 5 None
  | 2 => Activation kReLU 3 7 8 4
  | _ => Other idle idle
  end.
Definition vals (k : nat) : list Z := nth k contents [].
Definition maths : Mathf := {| expf := fun v => v; tanhf := fun v => v; powf := fun v _ => v; log_ := f64_of_f32 |}.
Definition layer (params : list Z) : Layer := mkLayer "" 0 params false false false false [] Blob_new.
Definition net : list Layer := [layer []; layer [0; 1]; layer []].
Definition worker : Worker := mkWorker 0 0 0 (mkModel 10 0 false 100 20 0 5 1 5 0 0 0 0 0 0 false 15) false.
Definition nothing (i : Z) (phase : Phase) (s : nstate) : outcome nstate := Ok s.
#[export] Instance net_maths : Mathf := maths.
#[export] Existing Instances ListCzmq.czmq ListCzmq.czmq_laws.

Lemma net_heap_ok : heap_ok heap0.
Proof. apply with_blobs_ok; [apply packed_ok|]; by apply (bool_decide_unpack _). Qed.
Lemma net_apart : separate (map region places).
Proof. concrete_apart. Qed.
Lemma net_stored : stored places vals heap0.
Proof.
  split; [exact net_heap_ok|]. intros k p Hk.
  destruct k as [|[|[|[|[|[|[|[|[|k]]]]]]]]]; simpl in Hk; [injection Hk as <-..|done];
    unfold holds; [concrete_image 0|concrete_image 1|concrete_image 2|concrete_image 3|concrete_image 4|concrete_image 5|
      concrete_image 6|concrete_image 7|concrete_image 8].
Qed.
#[export] Instance gradient_only : Updater := {| Update _ _ h := Ok h |}.
Lemma net_fits n l : (n, l) ∈ own worker net -> fits nothing objs 3 places weights n (unit_of n).
Proof.
  intros Hl. assert (Hn : n ∈ map fst (own worker net)) by (apply list_elem_of_fmap; by exists (n, l)).
  change (map fst (own worker net)) with [0; 1; 2] in Hn. rewrite !elem_of_cons in Hn. destruct Hn as [->|[->|[->|[]%elem_of_nil]]].
  - apply fits_other; intros phase; apply promises_idle; intros w; reflexivity.
  - eapply (fits_linear _ _ _ _ _ 1 inner 1 2 2 0 1 0 1 2 3 4 6 5 None) with (sdims := [2]) (gp := 0);
      try reflexivity; [by left|by right; left|apply (bool_decide_unpack _); vm_compute; done..].
  - eapply (fits_activation _ _ _ _ _ 2 positive); try reflexivity. by left.
Qed.
Lemma net_bridge : no_bridge worker net.
Proof.
  intros n l Hl. apply list_elem_of_filter in Hl as [_ Hl].
  change (layers net) with [(0, layer []); (1, layer [0; 1]); (2, layer [])] in Hl.
  rewrite !elem_of_cons in Hl. by destruct Hl as [[= -> ->]|[[= -> ->]|[[= -> ->]|[]%elem_of_nil]]].
Qed.
Lemma net_ordered : ordered (batch_duties worker net unit_of).
Proof.
  change (batch_duties worker net unit_of) with
    (map (fun n => feature_duty (unit_of n)) [0; 1; 2] ++ map (fun n => gradient_duty (unit_of n)) [2; 1; 0]).
  simpl. unfold duty_ok. simpl. split_and!; try done; try (apply (bool_decide_unpack _); vm_compute; done);
    apply list.Forall_forall, (bool_decide_unpack _); vm_compute; done.
Qed.
End NetDemo.
#[local] Existing Instances ListCzmq.czmq ListCzmq.czmq_laws NetDemo.net_maths NetDemo.gradient_only.
(** The vectors (1, 2) and (-3, 0) with the column (10, 100) and the bias 5 are 215 and -25; ReLU makes 0
    of the second, and passes only the first gradient back. *)
Lemma TrainOneBatch_computes_witness : exists s' vals',
  @TrainOneBatch _ _ (computing NetDemo.nothing NetDemo.objs 3 (fun _ w => Ok w) (fun _ h => Ok h))
    NetDemo.worker 5 NetDemo.net (mkState NetDemo.store ∅ [] [] []) = Ok s' /\
  stored NetDemo.places vals' (hp (wd s')) /\
  at_ (vals' 7%nat) 0 = f32_of_Z 215 /\ at_ (vals' 7%nat) 1 = 0.
Proof.
  destruct (TrainOneBatch_computes NetDemo.nothing NetDemo.objs 3 (fun _ w => Ok w) (fun _ h => Ok h) NetDemo.places
    NetDemo.net_apart NetDemo.weights NetDemo.worker NetDemo.net NetDemo.unit_of NetDemo.net_fits)
    with (stp := 5) (s := mkState NetDemo.store ∅ [] [] []) (vals := NetDemo.vals) as (s' & vals' & E & V & S & K).
  - exact NetDemo.net_bridge.
  - reflexivity.
  - exact NetDemo.net_ordered.
  - split.
    { intros i b g Hi. unfold NetDemo.weights in Hi. rewrite !elem_of_cons in Hi.
      destruct Hi as [[= -> -> ->]|[[= -> -> ->]|[]%elem_of_nil]]; eexists _, (-1); (split; [reflexivity|split; reflexivity]). }
    intros i Hi. change (i ∈ [0; 1]) in Hi. rewrite !elem_of_cons in Hi. destruct Hi as [->|[->|[]%elem_of_nil]];
      eexists _, (-1); (split; [reflexivity|]; split; [reflexivity|reflexivity]).
  - exact NetDemo.net_stored.
  - exists s', vals'. split; [exact E|]. split; [exact V|].
    assert (K' : forall k, k ∈ [0%nat; 1%nat; 2%nat] -> vals' k = NetDemo.vals k).
    { change (concat (map writes (batch_duties NetDemo.worker NetDemo.net NetDemo.unit_of))) with [3; 7; 4; 6; 5]%nat in K.
      intros k Hk. apply K. rewrite !elem_of_cons in *. destruct Hk as [->|[->|[->|[]%elem_of_nil]]];
        intros [?|[?|[?|[?|[?|[]%elem_of_nil]]]]]; discriminate. }
    change (own NetDemo.worker NetDemo.net) with [(0, NetDemo.layer []); (1, NetDemo.layer [0; 1]); (2, NetDemo.layer [])] in S.
    destruct (S 1 (NetDemo.layer [0; 1])) as [S1 _]; [right; left|]. destruct (S 2 (NetDemo.layer [])) as [S2 _]; [do 2 right; left|].
    unfold solves in S1, S2. simpl in S1, S2. injection S2 as S2. 
    rewrite (K' 0%nat), (K' 1%nat), (K' 2%nat) in S1 by (rewrite !elem_of_cons; auto).
    assert (R : forall x, at_ (map relu (vals' 3%nat)) x = relu (at_ (vals' 3%nat) x)) by (intros x; apply (map_nth relu _ 0)).
    destruct (S1 0 0 ltac:(lia) ltac:(lia)) as (v & Hv & Ev). destruct (S1 1 0 ltac:(lia) ltac:(lia)) as (u & Hu & Eu).
    simpl in Hv, Hu. rewrite Hv in Ev. rewrite Hu in Eu. rewrite S2, !R.
    change (at_ (vals' 3%nat) 0 = f32_of_Z 215) in Ev. change (at_ (vals' 3%nat) 1 = f32_of_Z (-25)) in Eu.
    rewrite Ev, Eu. split; vm_compute; reflexivity.
Defined.
(** The same net with a split layer in its middle. *)
Lemma Forward_unimplemented_witness :
  @Forward _ (net_layers NetDemo.nothing (<[2 := LayerObj_new kSplit]> NetDemo.objs) 3 (fun _ w => Ok w) (fun _ h => Ok h))
    NetDemo.worker kTest NetDemo.net (mkState NetDemo.store ∅ [] [] [])
  <> Ok (mkState NetDemo.store ∅ [] [] []).
Proof.
  apply (Forward_unimplemented NetDemo.nothing (<[2 := LayerObj_new kSplit]> NetDemo.objs) 3 (fun _ w => Ok w)
    (fun _ h => Ok h) NetDemo.worker kTest NetDemo.net 2 (NetDemo.layer []) (LayerObj_new kSplit)).
  - right. right. left.
  - reflexivity.
  - reflexivity.
  - by left.
Defined.
