(* ===== verification/LossProps.v ===== *)
(** * The gradient of the loss layer

    The gradient the loss layer gives its source: the probabilities, less one at the label of
    each image, scaled. *)

From S2P Require Import Prelude Float32 Metric Msg Format Memory Param Server Worker LayerConf Layers LayersProps LayerCompute Mshadow MshadowProps LayerMath LayerMathProps LayerLinear.

(** ** One value of a blob *)
Lemma split_at (vs : list Z) k v : vs !! k = Some v -> vs = take k vs ++ [v] ++ drop (S k) vs.
Proof. intros H. symmetry. by apply take_drop_middle. Qed.
Lemma value_load h b p vs k v : at_cpu h b p vs -> 0 <= k -> vs !! Z.to_nat k = Some v ->
  exists bytes, load h (p + sizeof_float * k) sizeof_float = Ok bytes /\ le_combine bytes = v.
Proof.
  intros Ha Hk Hv. pose proof (split_at _ _ _ Hv) as Es. pose proof (lookup_lt_Some _ _ _ Hv) as Hlt.
  pose proof (at_cpu_f32 _ _ _ _ Ha) as Hf. rewrite Es in Ha.
  pose proof (at_cpu_load _ _ _ _ [v] _ sizeof_float Ha eq_refl) as El. rewrite length_take_le in El by lia.
  rewrite Z2Nat.id in El by done. exists (bytes_of_f32s [v]). split; [exact El|].
  assert (Hvf : is_f32 v) by (eapply list.Forall_lookup_1; [exact Hf|exact Hv]).
  unfold bytes_of_f32s. cbn [map concat]. rewrite app_nil_r. by apply (le_combine_split_small 4).
Qed.
Lemma value_put h b p vs k v w : heap_ok h -> at_cpu h b p vs -> 0 <= k -> vs !! Z.to_nat k = Some w -> is_f32 v ->
  exists h', put_float h (p + sizeof_float * k) v = Ok h' /\ wrote [(b, p)] h h' /\ at_cpu h' b p (<[Z.to_nat k := v]> vs).
Proof.
  intros Hok Ha Hk Hw Hv. pose proof (split_at _ _ _ Hw) as Es. pose proof (lookup_lt_Some _ _ _ Hw) as Hlt.
  pose proof Ha as Ha'. rewrite Es in Ha'.
  destruct (put_part h b p (take (Z.to_nat k) vs) [w] (drop (S (Z.to_nat k)) vs) [1] (mkTensor [1] [v]) Hok Ha' eq_refl)
    as (h' & E & W & A); [by apply list.Forall_singleton|].
  exists h'. split; [|split; [done|]].
  - unfold put in E. cbn [dptr tvals] in E. rewrite length_take_le, Z2Nat.id in E by lia.
    unfold bytes_of_f32s in E. cbn [map concat] in E. by rewrite app_nil_r in E.
  - rewrite insert_take_drop by done. exact A.
Qed.

(** ** The loop over the labels *)

(** One less at the label of each image from the [n]-th on. *)
Fixpoint less_one (labels : list Z) (n dim : Z) (vs : list Z) : list Z :=
  match labels with
  | [] => vs
  | l :: labels => less_one labels (n + 1) dim (alter (fun v => f32_sub v f32_one) (Z.to_nat (n * dim + l)) vs)
  end.
Lemma minus_one_Ok h b p ls labels dim : forall n vs,
  heap_ok h -> at_cpu h b p vs -> Forall2 (fun l z => f32_to_int l = Ok z) ls labels ->
  Forall (fun z => 0 <= z < dim) labels -> 0 <= n -> (n + Z.of_nat (length labels)) * dim <= Z.of_nat (length vs) <= INT_MAX ->
  exists h', minus_one ls n dim p h = Ok h' /\ wrote [(b, p)] h h' /\ at_cpu h' b p (less_one labels n dim vs).
Proof.
  intros n vs Hok Ha Hi. revert h n vs Hok Ha.
  induction Hi as [|l z ls labels Hl Hi IH]; intros h n vs Hok Ha Hr Hn Hlen.
  { exists h. split; [done|]. split; [by apply wrote_refl|done]. }
  apply list.Forall_cons in Hr as [Hz Hr]. cbn [length] in Hlen.
  assert (Hb : 0 <= n * dim + z < Z.of_nat (length vs)) by nia. assert (0 <= n * dim) by nia.
  destruct (vs !! Z.to_nat (n * dim + z)) as [v|] eqn:Ev; [|apply lookup_ge_None in Ev; lia].
  destruct (value_load h b p vs (n * dim + z) v Ha) as (bytes & El & Eb); [lia|done|].
  destruct (value_put h b p vs (n * dim + z) (f32_sub v f32_one) v Hok Ha) as (h1 & E1 & W1 & A1); [lia|done|apply f32_sub_range|].
  replace (<[Z.to_nat (n * dim + z) := f32_sub v f32_one]> vs)
    with (alter (fun v => f32_sub v f32_one) (Z.to_nat (n * dim + z)) vs) in A1
    by (apply list_eq; intros j; destruct (decide (j = Z.to_nat (n * dim + z))) as [->|Hne];
        [rewrite list_lookup_alter_eq, Ev, list_lookup_insert_eq by lia|rewrite list_lookup_alter_ne, list_lookup_insert_ne by done]; done).
  destruct (IH h1 (n + 1) _ (wr_ok _ _ _ W1) A1) as (h2 & E2 & W2 & A2); [done|lia|rewrite length_alter; lia|].
  exists h2. split; [|split; [by eapply wrote_trans|done]].
  cbn [minus_one]. rewrite Hl, bind_Ok. unfold imul, iadd.
  rewrite !int_ret_Ok by (unfold INT_MAX, INT_MIN in *; lia). rewrite bind_Ok, int_ret_Ok by (unfold INT_MAX, INT_MIN in *; lia).
  rewrite bind_Ok, El, bind_Ok, Eb, E1, bind_Ok. exact E2.
Qed.

Lemma length_less_one labels dim : forall n vs, length (less_one labels n dim vs) = length vs.
Proof. induction labels as [|l labels IH]; intros n vs; [done|]. cbn [less_one]. by rewrite IH, length_alter. Qed.
Lemma less_one_before labels dim : forall n vs k, Forall (fun z => 0 <= z) labels -> 0 <= n -> 0 < dim -> 0 <= k < n * dim ->
  less_one labels n dim vs !! Z.to_nat k = vs !! Z.to_nat k.
Proof.
  induction labels as [|l labels IH]; intros n vs k Hl Hn Hd Hk; [done|]. apply list.Forall_cons in Hl as [Hl0 Hl].
  cbn [less_one]. rewrite IH by (done || nia). apply list_lookup_alter_ne. nia.
Qed.
(** The value [(y, x)] is less one when [x] is the label of [y]. *)
Lemma less_one_at labels dim : forall n vs y x l, Forall (fun z => 0 <= z < dim) labels -> 0 <= n ->
  n <= y -> labels !! Z.to_nat (y - n) = Some l -> 0 <= x < dim ->
  less_one labels n dim vs !! Z.to_nat (y * dim + x) =
    (if x =? l then fun v => f32_sub v f32_one else id) <$> vs !! Z.to_nat (y * dim + x).
Proof.
  induction labels as [|z labels IH]; intros n vs y x l Hl Hn Hy Hlab Hx; [by rewrite lookup_nil in Hlab|].
  apply list.Forall_cons in Hl as [Hz Hl]. cbn [less_one]. destruct (decide (y = n)) as [->|Hne].
  - rewrite Z.sub_diag in Hlab. injection Hlab as ->.
    rewrite less_one_before by (done || nia || (eapply list.Forall_impl; [exact Hl|]; simpl; lia)).
    destruct (Z.eqb_spec x l) as [->|Hxl]; [by rewrite list_lookup_alter_eq|].
    rewrite list_lookup_alter_ne by nia. by destruct (vs !! _).
  - replace (Z.to_nat (y - n)) with (S (Z.to_nat (y - (n + 1)))) in Hlab by lia.
    rewrite (IH (n + 1) _ y x l) by (done || lia). rewrite list_lookup_alter_ne by nia. done.
Qed.

(** ** The gradient *)
Lemma std_equal_same l : std_equal l l = Ok true.
Proof. induction l as [|x l IH]; [done|]. simpl. by rewrite Z.eqb_refl. Qed.
(** A copy between blobs of one shape. *)
Lemma copy_image h b p sb sp dims ws vs : heap_ok h -> image_at h b p dims ws -> image_at h sb sp dims vs ->
  exists h', CopyFrom b sb false h = Ok (h', b) /\ wrote [(b, p)] h h' /\ at_cpu h' b p vs.
Proof.
  intros Hok Hi Hs. pose proof (im_length _ _ _ _ _ Hi) as Hl. pose proof (im_length _ _ _ _ _ Hs) as Hl'.
  destruct (at_cpu_data _ _ _ _ (im_at _ _ _ _ _ Hi)) as [_ Eb]. destruct (at_cpu_data _ _ _ _ (im_at _ _ _ _ _ Hs)) as [Es _].
  pose proof (im_at _ _ _ _ _ Hi) as Ha. rewrite <- (app_nil_r ws) in Ha. change (ws ++ []) with ([] ++ ws ++ []) in Ha.
  destruct (put_part h b p [] ws [] [] (mkTensor [] vs) Hok Ha) as (h' & E & W & A);
    [simpl; lia|eapply at_cpu_f32, im_at; exact Hs|].
  simpl in A. rewrite app_nil_r in A. exists h'. split; [|done].
  unfold CopyFrom. rewrite (im_dims _ _ _ _ _ Hi), (im_dims _ _ _ _ _ Hs), std_equal_same, bind_Ok, bind_Ok.
  unfold mutable_cpu_data, blob_data in Eb. destruct (data_ b) as [i|]; [|done]. rewrite bind_Ok in Eb.
  rewrite deref_Some, bind_Ok, Eb, bind_Ok, Es, bind_Ok, (at_cpu_count _ _ _ _ (im_at _ _ _ _ _ Hi)).
  rewrite (at_cpu_load_all _ _ _ _ _ (im_at _ _ _ _ _ Hs)) by lia. rewrite bind_Ok. unfold put in E. simpl in E.
  rewrite Z.add_0_r in E. rewrite E. done.
Qed.
(** All values of a blob times a constant. *)
Lemma scale_values h b p vs c : heap_ok h -> at_cpu h b p vs ->
  exists h', store h p (bytes_of_f32s (map (fun x => f32_mul x c) vs)) = Ok h' /\ wrote [(b, p)] h h' /\
    at_cpu h' b p (map (fun x => f32_mul x c) vs).
Proof.
  intros Hok Ha. rewrite <- (app_nil_r vs) in Ha. change (vs ++ []) with ([] ++ vs ++ []) in Ha.
  destruct (put_part h b p [] vs [] [] (mkTensor [] (map (fun x => f32_mul x c) vs)) Hok Ha) as (h' & E & W & A);
    [by cbn; rewrite length_map| |].
  { apply list.Forall_forall. intros v Hv. apply list_elem_of_In, in_map_iff in Hv as (x & <- & _). apply f32_mul_range. }
  exists h'. simpl in A. rewrite app_nil_r in A. split; [|done]. unfold put in E. simpl in E. by rewrite Z.add_0_r in E.
Qed.

(** C24. The gradient of the loss layer.  When each label is one of the classes, [ComputeGradient]
    returns and writes nothing but the gradient of the source: the value of an image and a class is
    the probability, less 1 for the label of the image, times the scale over the size of the
    batch. *)
Theorem SoftmaxLoss_ComputeGradient_spec (i : Z) (s : nstate) (o : LayerObj) (batch dim topk scale : Z) (mb lb gb : Blob)
    (lp dp gp : Z) (dims ls ps gs labels : list Z)
    (Hok : heap_ok (nheap s)) (Ho : objs s !! i = Some o) (Hsub : osub o = LossSub batch dim topk scale mb)
    (Hlabel : src_data i 1 kPositive s = Ok lb) (Hgrad : src_mutable_grad i 0 s = Ok (Some gb))
    (Hls : at_cpu (nheap s) lb lp ls) (Hnl : Z.of_nat (length ls) = batch)
    (Hps : image_at (nheap s) (odata o) dp dims ps) (Hgs : image_at (nheap s) gb gp dims gs)
    (Hdims : shape_size dims = batch * dim)
    (Hint : Forall2 (fun l z => f32_to_int l = Ok z) ls labels) (Hrange : Forall (fun z => 0 <= z < dim) labels)
    (Hsep : apart lb lp (gb, gp)) :
  exists h' gs', SoftmaxLoss_ComputeGradient i s = Ok (set_nheap h' s) /\ wrote [(gb, gp)] (nheap s) h' /\
    image_at h' gb gp dims gs' /\
    forall y x l, 0 <= y -> labels !! Z.to_nat y = Some l -> 0 <= x < dim ->
      let prob := elem (mkTensor [dim; batch] ps) y x in
      elem (mkTensor [dim; batch] gs') y x =
        f32_mul (if x =? l then f32_sub prob f32_one else prob) (f32_div scale (f32_mul f32_one (f32_of_Z batch))).
Proof.
  set (c := f32_div scale (f32_mul f32_one (f32_of_Z batch))).
  pose proof (im_length _ _ _ _ _ Hps) as Hlp. pose proof (im_int _ _ _ _ _ Hps) as Hi. pose proof (Forall2_length Hint) as Hll.
  destruct (copy_image _ _ _ _ _ _ _ _ Hok Hgs Hps) as (h1 & E1 & W1 & A1).
  assert (L1 : at_cpu h1 lb lp ls) by (eapply wrote_at; [exact W1|by apply list.Forall_singleton|exact Hls]).
  destruct (minus_one_Ok h1 gb gp ls labels dim 0 ps (wr_ok _ _ _ W1) A1 Hint Hrange) as (h2 & E2 & W2 & A2); [lia|nia|].
  destruct (scale_values h2 gb gp _ c (wr_ok _ _ _ W2) A2) as (h3 & E3 & W3 & A3).
  set (gs' := map (fun x => f32_mul x c) (less_one labels 0 dim ps)) in *.
  assert (Hlen : length gs' = length ps) by (unfold gs'; by rewrite length_map, length_less_one).
  exists h3, gs'. split; [|split; [eapply wrote_trans; [exact W1|by eapply wrote_trans]|split]].
  - unfold SoftmaxLoss_ComputeGradient. rewrite (obj_Ok _ _ _ Ho), bind_Ok, Hsub, Hlabel, bind_Ok.
    rewrite (proj1 (at_cpu_data _ _ _ _ Hls)), bind_Ok, Hgrad, bind_Ok, deref_Some, bind_Ok, E1, bind_Ok.
    rewrite (proj2 (at_cpu_data _ _ _ _ A1)), bind_Ok, (at_cpu_load_all _ _ _ _ _ L1), bind_Ok by lia.
    rewrite f32s_of_bytes_of_f32s by (by eapply at_cpu_f32). rewrite E2, bind_Ok.
    rewrite (at_cpu_load_all _ _ _ _ _ A2), bind_Ok by (by rewrite <- (at_cpu_count _ _ _ _ A2)).
    rewrite f32s_of_bytes_of_f32s by (by eapply at_cpu_f32). fold c gs'. rewrite E3, bind_Ok. done.
  - destruct Hgs as [_ Hd Hp Hm _]. split; try done. by rewrite Hlen.
  - intros y x l Hy Hlab Hx prob. pose proof (lookup_lt_Some _ _ _ Hlab) as Hlt.
    assert (Hb : 0 <= y * dim + x < Z.of_nat (length ps)) by nia.
    destruct (ps !! Z.to_nat (y * dim + x)) as [v|] eqn:Ev; [|apply lookup_ge_None in Ev; lia].
    pose proof (less_one_at labels dim 0 ps y x l Hrange ltac:(lia) Hy ltac:(by rewrite Z.sub_0_r) Hx) as Hat. rewrite Ev in Hat. simpl in Hat.
    unfold prob, elem. cbn [tshape tvals]. change (Mshadow.dim [dim; batch] 0) with dim. apply nth_lookup_Some. unfold gs'. rewrite list_lookup_fmap. rewrite Hat, (nth_lookup_Some _ _ _ _ Ev). simpl. by destruct (x =? l).
Qed.

(** ** Two images and two classes *)
Module LossDemo.
Definition floats : list Z -> list Z := map f32_of_Z.
Definition heap0 : heap :=
  packed (floats [3; 1; 1; 2] ++ floats [1; 0] ++ floats [7; 7; 7; 7])
    {[0 := mkSM 1 16 HEAD_AT_CPU true; 1 := mkSM 17 8 HEAD_AT_CPU true; 2 := mkSM 25 16 HEAD_AT_CPU true]} 3.
Definition loss : LayerObj :=
  set_sub (LossSub 2 2 1 (f32_of_Z 4) Blob_new) (set_data (full_blob 0 [2; 2]) (set_srcs [0; 2] (LayerObj_new kSoftmaxLoss))).
Definition state : nstate :=
  mkNS {[0 := set_grad (full_blob 2 [2; 2]) (LayerObj_new kInnerProduct); 1 := loss;
         2 := set_data (full_blob 1 [2]) (LayerObj_new kLabel)]} 3 (mkWorld heap0 ∅ 0 ∅).
Lemma loss_heap_ok : heap_ok heap0.
Proof. apply packed_ok; by apply (bool_decide_unpack _). Qed.
End LossDemo.
(** The labels are 1 and 0 and the factor 4 / 2: the row (1, 2) becomes (0, 4). *)
Lemma SoftmaxLoss_ComputeGradient_witness : exists h' gs,
  SoftmaxLoss_ComputeGradient 1 LossDemo.state = Ok (set_nheap h' LossDemo.state) /\
  image_at h' (full_blob 2 [2; 2]) 25 [2; 2] gs /\
  elem (mkTensor [2; 2] gs) 1 0 = 0 /\ elem (mkTensor [2; 2] gs) 1 1 = f32_of_Z 4.
Proof.
  destruct (SoftmaxLoss_ComputeGradient_spec 1 LossDemo.state LossDemo.loss 2 2 1 (f32_of_Z 4) Blob_new (full_blob 1 [2])
    (full_blob 2 [2; 2]) 17 1 25 [2; 2] (LossDemo.floats [1; 0]) (LossDemo.floats [3; 1; 1; 2]) (LossDemo.floats [7; 7; 7; 7]) [1; 0])
    as (h' & gs & E & _ & Hi & Hg);
    [exact LossDemo.loss_heap_ok|reflexivity|reflexivity|vm_compute; reflexivity|vm_compute; reflexivity|concrete_at 1|reflexivity|
     concrete_image 0|concrete_image 2|reflexivity|repeat constructor|repeat constructor; lia|concrete_apart|].
  exists h', gs. split; [exact E|]. split; [exact Hi|].
  pose proof (Hg 1 0 0 ltac:(lia) eq_refl ltac:(lia)) as G0. pose proof (Hg 1 1 0 ltac:(lia) eq_refl ltac:(lia)) as G1.
  split; [refine (eq_trans G0 _)|refine (eq_trans G1 _)]; vm_compute; reflexivity.
Defined.
