(* ===== verification/RBMProps.v ===== *)
(** * Properties of the restricted Boltzmann machine

    The two layers of a restricted Boltzmann machine: the probabilities and the samples of the hidden
    units, and the gradients of contrastive divergence, over any product of matrices that keeps the law
    of BLAS. *)

From Stdlib Require Import SpecFloat.
From S2P Require Import Prelude Float32 Metric Msg Format Memory Param Server Worker LayerConf Layers LayersProps LayerCompute Mshadow MshadowProps LayerMath LayerMathProps LayerLinear InnerProductProps ActivationProps.

Section rbm.
Context `{L : BlasLaws} `{M : Mathf}.

(** ** What the layers do to a tensor *)
Lemma ten_sigmoid h bp us t ws us' bl ul l vl ul' rt br ur r vr ur' bb ub b bs ub' n m k :
  heap_ok h -> ten_at h bp us t ws us' -> ten_at h bl ul l vl ul' -> ten_at h br ur r vr ur' -> ten_at h bb ub b bs ub' ->
  apart bb.1 bb.2 bp -> tenshape t = [m; n] -> tenshape l = [k; n] -> tenshape r = mat_shape rt k m -> tenshape b = [m] ->
  Forall (fun d => 0 < d <= INT_MAX) [m; n; k] ->
  exists h' vs, assign_sigmoid t l r rt b n h = Ok h' /\ wrote [bp] h h' /\ ten_at h' bp us t vs us' /\
    forall y x, 0 <= y < n -> 0 <= x < m -> exists v,
      is_dot (products rt (mkTensor (tenshape r) vr) false (mkTensor [k; n] vl) k y x) v /\
      elem (mkTensor [m; n] vs) y x = sigmoid (f32_add v (row bs x)).
Proof.
  intros Hok Ht Hl Hr Hb Hap Et El Er Eb Hd.
  destruct (ten_assign_dot fresh h bp us t ws us' false bl ul l vl ul' rt br ur r vr ur' n m k Hok Ht Hl Hr Et El Er Hd)
    as (h1 & d1 & E1 & W1 & T1 & P1). cbn [alpha_of beta_of onto_value] in E1, P1. rewrite El in P1.
  assert (B1 : ten_at h1 bb ub b bs ub') by (destruct bb; eapply wrote_ten; [exact W1|by apply list.Forall_singleton|exact Hb]).
  destruct (ten_add_rows h1 _ _ _ _ _ _ _ _ _ _ m n (wr_ok _ _ _ W1) T1 B1 Et Eb) as (h2 & d2 & E2 & W2 & T2 & P2).
  pose proof (ta_ok _ _ _ _ _ _ T2) as Tok. rewrite Et in Tok.
  assert (Hs : shape_size [n] = n) by (cbn; lia).
  destruct (ten_assign saveto h2 bp us t d2 us' m [n] (UnaryMapExp sigmoid (tensor_exp (mkTensor [m; n] d2)))
    (fun y x => sigmoid (elem (mkTensor [m; n] d2) y x)) (wr_ok _ _ _ W2) T2 Et) as (h3 & d3 & E3 & W3 & T3 & P3); [by right| |].
  { intros y x Hy Hx. split; [|apply f32_div_range]. apply unary_eval. by apply (tensor_eval _ m n []). }
  exists h3, d3. split; [|split; [eapply wrote_trans; [exact W1|by eapply wrote_trans]|split; [done|]]].
  - unfold assign_sigmoid. rewrite E1, bind_Ok, E2, bind_Ok, (ten_get _ _ _ _ _ _ T2), bind_Ok, Et. exact E3.
  - intros y x Hy Hx. eexists. split; [apply (P1 y x Hy Hx)|]. rewrite P3 by (done || by rewrite Hs). unfold saveto. by rewrite P2.
Qed.
(** Samples of probabilities. *)
Definition sampled (u : Z -> Z) (ps : list Z) : list Z := imap (fun k v => if f32_ltb v (u (Z.of_nat k)) then 0 else f32_one) ps.
Lemma ten_sample u h bp us t ws us' : heap_ok h -> ten_at h bp us t ws us' ->
  exists h', SampleBinary u t h = Ok h' /\ wrote [bp] h h' /\ ten_at h' bp us t (sampled u ws) us'.
Proof.
  intros Hok Ht. destruct (ten_put h bp us t ws us' (sampled u ws) Hok Ht) as (h' & E & W & T); [apply length_imap| |].
  { apply list.Forall_lookup. intros k v Hv. apply list_lookup_imap_Some in Hv as (w & _ & ->).
    destruct (f32_ltb w _); [unfold is_f32; lia|apply f32_encode_range]. }
  exists h'. split; [|done]. unfold SampleBinary. rewrite (ten_get _ _ _ _ _ _ Ht), bind_Ok. exact E.
Qed.
Lemma ten_scale c h bp us t ws us' w l : heap_ok h -> ten_at h bp us t ws us' -> tenshape t = w :: l ->
  exists h' vs, scale_ten t c h = Ok h' /\ wrote [bp] h h' /\ ten_at h' bp us t vs us' /\
    forall y x, 0 <= y < shape_size l -> 0 <= x < w -> elem (mkTensor (w :: l) vs) y x = f32_mul (elem (mkTensor (w :: l) ws) y x) c.
Proof.
  intros Hok Ht Es. apply (ten_assign multo h bp us t ws us' w l (ScalarExp c) (fun _ _ => c) Hok Ht Es); [by left|].
  intros y x _ _. split; [done|apply f32_mul_range].
Qed.

(** ** The hidden units *)

(** What a phase writes, and how many vectors it has. *)
Definition hidden_target (phase : Phase) (o : LayerObj) (hs : Blob) (batch neg : Z) : Blob * Z :=
  match phase with kPositive => (odata o, batch) | _ => (hs, neg) end.

(** The hidden units of a restricted Boltzmann machine.  In the positive phase [ComputeFeature] returns
    and writes nothing but the data, in the negative one nothing but the samples: the probability
    of a unit is the sigmoid of a value BLAS may compute for the product of the visible vector
    and the unit's column of the weight, plus its bias; the data are these probabilities, and
    a sample is 0 where the probability is below its draw and 1 elsewhere. *)
Theorem RBMHid_ComputeFeature_spec (u : Z -> Z) (i : Z) (phase : Phase) (s : nstate) (o : LayerObj)
    (hdim vdim batch neg scale wi bi n : Z) (hs dst sb cb wb bb : Blob) (sp wp bp dp : Z) (sdims vs ws bs ds : list Z)
    (Hphase : phase = kPositive \/ phase = kNegative)
    (Hok : heap_ok (nheap s)) (Ho : objs s !! i = Some o) (Hsub : osub o = RBMHidSub hdim vdim batch neg scale hs wi bi)
    (Hdst : hidden_target phase o hs batch neg = (dst, n))
    (Hcount : src_data i 0 phase s = Ok cb) (Hcb : count_ cb = n * vdim)
    (Hsrc : src_mutable i 0 phase s = Ok sb)
    (Hwb : param_data wi s (nheap s) = Ok wb) (Hbb : param_data bi s (nheap s) = Ok bb)
    (Hvs : image_at (nheap s) sb sp (n :: sdims) vs) (Hvd : shape_size sdims = vdim)
    (Hws : image_at (nheap s) wb wp [vdim; hdim] ws) (Hbs : image_at (nheap s) bb bp [hdim] bs)
    (Hds : image_at (nheap s) dst dp [n; hdim] ds) (Hsep : separate [(sb, sp); (wb, wp); (bb, bp); (dst, dp)]) :
  exists h' ps, RBMHid_ComputeFeature u i phase s = Ok (set_nheap h' s) /\ wrote [(dst, dp)] (nheap s) h' /\
    image_at h' dst dp [n; hdim] (match phase with kPositive => ps | _ => sampled u ps end) /\
    forall y x, 0 <= y < n -> 0 <= x < hdim -> exists v,
      is_dot (map (fun k => (elem (mkTensor [hdim; vdim] ws) k x, elem (mkTensor [vdim; n] vs) y k)) (between 0 vdim)) v /\
      elem (mkTensor [hdim; n] ps) y x = sigmoid (f32_add v (row bs x)).
Proof.
  destruct (image_Tensor2 _ _ _ _ _ _ Hds) as [Ed Td]. destruct (image_Tensor2 _ _ _ _ _ _ Hvs) as [Es Ts].
  destruct (image_Tensor2 _ _ _ _ _ _ Hws) as [Ew Tw]. destruct (image_Tensor1 _ _ _ _ _ Hbs) as [Eb Tb].
  replace (shape_size [hdim]) with hdim in * by (cbn; lia). rewrite Hvd in *.
  pose proof (dims_int _ _ _ _ _ Hws) as Hwd. pose proof (dims_int _ _ _ _ _ Hvs) as Hnd.
  rewrite !list.Forall_cons in Hwd. rewrite !list.Forall_cons in Hnd. destruct Hwd as (Hv & Hh & _), Hnd as (Hn & _).
  destruct (ten_sigmoid (nheap s) (dst, dp) [] _ ds [] (sb, sp) [] _ vs [] false (wb, wp) [] _ ws [] (bb, bp) [] _ bs [] n hdim vdim
    Hok Td Ts Tw Tb) as (h1 & ps & E1 & W1 & T1 & P1); [apart_in Hsep|done..|by rewrite !list.Forall_cons|].
  assert (Hc : imul n vdim = Ok (n * vdim)).
  { apply int_ret_Ok. pose proof (im_int _ _ _ _ _ Hvs) as Hi.
    assert (shape_size (n :: sdims) = n * vdim) by (rewrite <- Hvd; reflexivity). unfold INT_MIN, INT_MAX in *. nia. }
  assert (Hcheck : check_count i 0 phase n vdim s = Ok tt).
  { unfold check_count. by rewrite Hcount, bind_Ok, Hc, bind_Ok, CHECK_holds by lia. }
  destruct Hphase as [-> | ->]; injection Hdst as Hdst Hn'; rewrite <- ?Hdst, <- ?Hn' in *.
  - exists h1, ps. split; [|split; [done|split; [|exact P1]]].
    + unfold RBMHid_ComputeFeature. rewrite (obj_Ok _ _ _ Ho), bind_Ok, Hsub.
      rewrite Ed, bind_Ok, Hcheck, bind_Ok, Hsrc, bind_Ok, Es, bind_Ok, Hwb, bind_Ok, Ew, bind_Ok, Hbb, bind_Ok, Eb, bind_Ok.
      rewrite E1, bind_Ok. done.
    + eapply part_image; [exact Hds|exact T1|]. rewrite !size_2. apply Z.mul_comm.
  - destruct (ten_sample u h1 _ _ _ _ _ (wr_ok _ _ _ W1) T1) as (h2 & E2 & W2 & T2).
    exists h2, ps. split; [|split; [by eapply wrote_trans|split; [|exact P1]]].
    + unfold RBMHid_ComputeFeature. rewrite (obj_Ok _ _ _ Ho), bind_Ok, Hsub.
      rewrite Hcheck, bind_Ok, Hsrc, bind_Ok, Es, bind_Ok, Ed, bind_Ok, Hbb, bind_Ok, Eb, bind_Ok, Hwb, bind_Ok, Ew, bind_Ok.
      rewrite E1, bind_Ok, E2, bind_Ok. done.
    + eapply part_image; [exact Hds|exact T2|]. rewrite !size_2. apply Z.mul_comm.
Qed.

(** ** Contrastive divergence *)

(** A vector becomes the sums of the columns of [a] less those of [b]. *)
Lemma ten_column_difference h bp us t ws us' ba ua a va ua' bb ub b vb ub' w na nb :
  heap_ok h -> ten_at h bp us t ws us' -> ten_at h ba ua a va ua' -> ten_at h bb ub b vb ub' -> apart bb.1 bb.2 bp ->
  tenshape t = [w] -> tenshape a = [w; na] -> tenshape b = [w; nb] ->
  exists h1 h2 vs, assign_sum_rows saveto t a h = Ok h1 /\ assign_sum_rows minusto t b h1 = Ok h2 /\
    wrote [bp] h h2 /\ ten_at h2 bp us t vs us' /\
    forall x, 0 <= x < w -> row vs x = f32_sub (column_sum (mkTensor [w; na] va) na x) (column_sum (mkTensor [w; nb] vb) nb x).
Proof.
  intros Hok Ht Ha Hb Hap Et Ea Eb.
  destruct (ten_sum_rows saveto _ _ _ _ _ _ _ _ _ _ _ w na (fun _ _ H => H) Hok Ht Ha Et Ea) as (h1 & v1 & E1 & W1 & T1 & P1).
  assert (B1 : ten_at h1 bb ub b vb ub') by (destruct bb; eapply wrote_ten; [exact W1|by apply list.Forall_singleton|exact Hb]).
  destruct (ten_sum_rows minusto _ _ _ _ _ _ _ _ _ _ _ w nb (fun _ _ _ => f32_sub_range _ _) (wr_ok _ _ _ W1) T1 B1 Et Eb)
    as (h2 & v2 & E2 & W2 & T2 & P2).
  exists h1, h2, v2. split; [done|]. split; [done|]. split; [by eapply wrote_trans|]. split; [done|].
  intros x Hx. rewrite P2, P1 by done. done.
Qed.
(** A matrix becomes the product of [a] transposed and [c], less that of [b] transposed and [d]. *)
Lemma ten_product_difference h bp us t ws us' ba ua a va ua' bc uc c vc uc' bb ub b vb ub' bd ud d vd ud' n m ka kb :
  heap_ok h -> ten_at h bp us t ws us' -> ten_at h ba ua a va ua' -> ten_at h bc uc c vc uc' ->
  ten_at h bb ub b vb ub' -> ten_at h bd ud d vd ud' -> apart bb.1 bb.2 bp -> apart bd.1 bd.2 bp ->
  tenshape t = [m; n] -> tenshape a = [n; ka] -> tenshape c = [m; ka] -> tenshape b = [n; kb] -> tenshape d = [m; kb] ->
  Forall (fun d => 0 < d <= INT_MAX) [m; n; ka; kb] ->
  exists h1 h2 vs, assign_dot f32_one 0 t a true c false h = Ok h1 /\ assign_dot f32_minus_one f32_one t b true d false h1 = Ok h2 /\
    wrote [bp] h h2 /\ ten_at h2 bp us t vs us' /\
    forall y x, 0 <= y < n -> 0 <= x < m -> exists v,
      is_dot (products false (mkTensor [m; ka] vc) true (mkTensor [n; ka] va) ka y x) v /\
      minus_value v (products false (mkTensor [m; kb] vd) true (mkTensor [n; kb] vb) kb y x) (elem (mkTensor [m; n] vs) y x).
Proof.
  intros Hok Ht Ha Hc Hb Hd Hab Had Et Ea Ec Eb Ed Hdims. rewrite !list.Forall_cons in Hdims. destruct Hdims as (Hm & Hn & Hka & Hkb & _).
  destruct (ten_assign_dot fresh h bp us t ws us' true ba ua a va ua' false bc uc c vc uc' n m ka Hok Ht Ha Hc Et Ea Ec)
    as (h1 & v1 & E1 & W1 & T1 & P1); [by rewrite !list.Forall_cons|].
  assert (B1 : ten_at h1 bb ub b vb ub') by (destruct bb; eapply wrote_ten; [exact W1|by apply list.Forall_singleton|exact Hb]).
  assert (D1 : ten_at h1 bd ud d vd ud') by (destruct bd; eapply wrote_ten; [exact W1|by apply list.Forall_singleton|exact Hd]).
  destruct (ten_assign_dot minus h1 bp us t v1 us' true bb ub b vb ub' false bd ud d vd ud' n m kb (wr_ok _ _ _ W1) T1 B1 D1 Et Eb Ed)
    as (h2 & v2 & E2 & W2 & T2 & P2); [by rewrite !list.Forall_cons|].
  rewrite Ea, Ec in P1. rewrite Eb, Ed in P2. exists h1, h2, v2. split; [exact E1|]. split; [exact E2|]. split; [by eapply wrote_trans|].
  split; [done|]. intros y x Hy Hx. exists (elem (mkTensor [m; n] v1) y x). split; [by apply P1|by apply P2].
Qed.

(** C25. The gradients of contrastive divergence.  [ComputeGradient] of the visible layer returns and
    writes nothing but the gradients of its weight and its bias: the bias gets the sums of its
    columns in the samples less those in the data, the weight a value BLAS may compute for the
    products of the visible and hidden samples less those of the visible and hidden data,
    both over the size of the batch. *)
Theorem RBMVis_ComputeGradient_spec (i : Z) (s : nstate) (o : LayerObj) (hdim vdim n m data_idx hid_idx : Z) (first : bool) (wi bi : Z)
    (vb hb hsb gw gb : Blob) (dp hp vp hsp gwp gbp : Z) (ds hs vs hss gws gbs : list Z)
    (Hok : heap_ok (nheap s)) (Ho : objs s !! i = Some o)
    (Hsub : osub o = RBMVisSub hdim vdim n m data_idx hid_idx first vb wi bi)
    (Hhid : src_mutable i hid_idx kPositive s = Ok hb) (Hhids : src_mutable i hid_idx kNegative s = Ok hsb)
    (Hgw : param_grad wi s = Ok gw) (Hgb : param_grad bi s = Ok gb)
    (Hds : image_at (nheap s) (odata o) dp [n; vdim] ds) (Hhs : image_at (nheap s) hb hp [n; hdim] hs)
    (Hvs : image_at (nheap s) vb vp [m; vdim] vs) (Hhss : image_at (nheap s) hsb hsp [m; hdim] hss)
    (Hgws : image_at (nheap s) gw gwp [vdim; hdim] gws) (Hgbs : image_at (nheap s) gb gbp [vdim] gbs)
    (Hsep : separate [(odata o, dp); (hb, hp); (vb, vp); (hsb, hsp); (gw, gwp); (gb, gbp)]) :
  exists h' gws' gbs', RBMVis_ComputeGradient i s = Ok (set_nheap h' s) /\ wrote [(gb, gbp); (gw, gwp)] (nheap s) h' /\
    image_at h' gb gbp [vdim] gbs' /\ image_at h' gw gwp [vdim; hdim] gws' /\
    (forall x, 0 <= x < vdim -> row gbs' x =
       f32_mul (f32_sub (column_sum (mkTensor [vdim; m] vs) m x) (column_sum (mkTensor [vdim; n] ds) n x)) (inv_batch n)) /\
    forall y x, 0 <= y < vdim -> 0 <= x < hdim -> exists v w,
      is_dot (map (fun k => (elem (mkTensor [hdim; m] hss) k x, elem (mkTensor [vdim; m] vs) k y)) (between 0 m)) v /\
      minus_value v (map (fun k => (elem (mkTensor [hdim; n] hs) k x, elem (mkTensor [vdim; n] ds) k y)) (between 0 n)) w /\
      elem (mkTensor [hdim; vdim] gws') y x = f32_mul w (inv_batch n).
Proof.
  destruct (image_Tensor2 _ _ _ _ _ _ Hds) as [Ed Td]. destruct (image_Tensor2 _ _ _ _ _ _ Hhs) as [Eh Th].
  destruct (image_Tensor2 _ _ _ _ _ _ Hvs) as [Ev Tv]. destruct (image_Tensor2 _ _ _ _ _ _ Hhss) as [Ehs Ths].
  destruct (image_Tensor2 _ _ _ _ _ _ Hgws) as [Egw Tgw]. destruct (image_Tensor1 _ _ _ _ _ Hgbs) as [Egb Tgb].
  replace (shape_size [hdim]) with hdim in * by (cbn; lia). replace (shape_size [vdim]) with vdim in * by (cbn; lia).
  pose proof (dims_int _ _ _ _ _ Hhs) as Hn. pose proof (dims_int _ _ _ _ _ Hvs) as Hm.
  rewrite !list.Forall_cons in Hn. rewrite !list.Forall_cons in Hm. destruct Hn as (Hn & Hh & _), Hm as (Hm & Hv & _).
  destruct (ten_column_difference (nheap s) (gb, gbp) [] _ gbs [] (vb, vp) [] _ vs [] (odata o, dp) [] _ ds [] vdim m n Hok Tgb Tv Td)
    as (h1 & h2 & b2 & E1 & E2 & W2 & T2 & P2); [apart_in Hsep|done..|].
  destruct (ten_product_difference h2 (gw, gwp) [] (mkTen gwp [hdim; vdim]) gws [] (vb, vp) [] (mkTen vp [vdim; m]) vs []
    (hsb, hsp) [] (mkTen hsp [hdim; m]) hss [] (odata o, dp) [] (mkTen dp [vdim; n]) ds [] (hb, hp) [] (mkTen hp [hdim; n]) hs []
    vdim hdim m n (wr_ok _ _ _ W2)) as (h3 & h4 & w4 & E3 & E4 & W4 & T4 & P4);
    [eapply wrote_ten; [exact W2|apart_in Hsep|done]|eapply wrote_ten; [exact W2|apart_in Hsep|done]|
     eapply wrote_ten; [exact W2|apart_in Hsep|done]|eapply wrote_ten; [exact W2|apart_in Hsep|done]|
     eapply wrote_ten; [exact W2|apart_in Hsep|done]|apart_in Hsep|apart_in Hsep|done|done|done|done|done|by rewrite !list.Forall_cons|].
  assert (T2' : ten_at h4 (gb, gbp) [] (mkTen gbp [vdim]) b2 []) by (eapply wrote_ten; [exact W4|apart_in Hsep|exact T2]).
  destruct (ten_scale (inv_batch n) h4 (gb, gbp) [] (mkTen gbp [vdim]) b2 [] vdim [] (wr_ok _ _ _ W4) T2' eq_refl)
    as (h5 & b5 & E5 & W5 & T5 & P5).
  assert (T4' : ten_at h5 (gw, gwp) [] (mkTen gwp [hdim; vdim]) w4 []) by (eapply wrote_ten; [exact W5|apart_in Hsep|exact T4]).
  destruct (ten_scale (inv_batch n) h5 (gw, gwp) [] (mkTen gwp [hdim; vdim]) w4 [] hdim [vdim] (wr_ok _ _ _ W5) T4' eq_refl)
    as (h6 & w6 & E6 & W6 & T6 & P6).
  assert (T5' : ten_at h6 (gb, gbp) [] (mkTen gbp [vdim]) b5 []) by (eapply wrote_ten; [exact W6|apart_in Hsep|exact T5]).
  exists h6, w6, b5. split; [|split; [|split; [|split; [|split]]]].
  - unfold RBMVis_ComputeGradient. rewrite (obj_Ok _ _ _ Ho), bind_Ok, Hsub.
    rewrite Ed, bind_Ok, Hhid, bind_Ok, Eh, bind_Ok, Ev, bind_Ok, Hhids, bind_Ok, Ehs, bind_Ok.
    rewrite Hgw, bind_Ok, Egw, bind_Ok, Hgb, bind_Ok, Egb, bind_Ok.
    rewrite E1, bind_Ok, E2, bind_Ok, E3, bind_Ok, E4, bind_Ok, E5, bind_Ok, E6, bind_Ok. done.
  - eapply wrote_mono; [exact (wrote_seq _ _ _ _ _ (wrote_seq _ _ _ _ _ W2 W4) (wrote_seq _ _ _ _ _ W5 W6))|].
    intros bp Hbp. simpl in Hbp. rewrite !elem_of_cons in *. tauto.
  - eapply part_image; [exact Hgbs|exact T5'|done].
  - eapply part_image; [exact Hgws|exact T6|]. rewrite !size_2. apply Z.mul_comm.
  - intros x Hx. specialize (P5 0 x ltac:(cbn; lia) Hx). 
    change (row b5 x = f32_mul (row b2 x) (inv_batch n)) in P5. rewrite P5, P2 by done. done.
  - intros y x Hy Hx. destruct (P4 y x Hy Hx) as (v & Hv1 & Hv2). exists v, (elem (mkTensor [hdim; vdim] w4) y x).
    split; [exact Hv1|]. split; [exact Hv2|]. apply P6; [cbn; lia|done].
Qed.
End rbm.

(** ** Two visible units and a hidden one *)
Import TextbookBlas.
Module RBMDemo.
Definition maths : Mathf := {| expf := fun _ => f32_one; tanhf := fun v => v; powf := fun v _ => v; log_ := f64_of_f32 |}.
Definition floats : list Z -> list Z := map f32_of_Z.
Definition heap0 : heap :=
  with_blobs {[20 := full_blob 4 [2; 1]; 21 := full_blob 5 [1]; 22 := full_blob 6 [2]]}
    (packed (concat (map floats [[1; 0]; [1]; [0; 1]; [2]; [1; 3]; [-1]; [0; 0]; [0; 0]; [0; 0]; [0]]))
      {[0 := mkSM 1 8 HEAD_AT_CPU true; 1 := mkSM 9 4 HEAD_AT_CPU true; 2 := mkSM 13 8 HEAD_AT_CPU true;
        3 := mkSM 21 4 HEAD_AT_CPU true; 4 := mkSM 25 8 HEAD_AT_CPU true; 5 := mkSM 33 4 HEAD_AT_CPU true;
        6 := mkSM 37 8 HEAD_AT_CPU true; 7 := mkSM 45 8 HEAD_AT_CPU true; 8 := mkSM 53 8 HEAD_AT_CPU true;
        9 := mkSM 61 4 HEAD_AT_CPU true]} 23).
Definition visible : LayerObj :=
  set_sub (RBMVisSub 1 2 1 1 1 0 false (full_blob 2 [1; 2]) 0 2)
    (set_data (full_blob 0 [1; 2]) (set_srcs [1; 2] (LayerObj_new kRBMVis))).
Definition hidden : LayerObj :=
  set_sub (RBMHidSub 1 2 1 1 f32_one (full_blob 3 [1; 1]) 0 1)
    (set_data (full_blob 1 [1; 1]) (set_srcs [0] (LayerObj_new kRBMHid))).
Definition state : nstate :=
  mkNS {[0 := visible; 1 := hidden; 2 := LayerObj_new kMnist]} 3
    (mkWorld heap0 {[0 := param_of 20 (full_blob 7 [2; 1]); 1 := param_of 21 (full_blob 9 [1]);
                     2 := param_of 22 (full_blob 8 [2])]} 3 ∅).
Lemma rbm_heap_ok : heap_ok heap0.
Proof. apply with_blobs_ok; [apply packed_ok|]; by apply (bool_decide_unpack _). Qed.
End RBMDemo.
(** With a constant exponential the probability is a half, which is below the draw 1. *)
Lemma RBMHid_ComputeFeature_witness : exists h' ps,
  @RBMHid_ComputeFeature blas RBMDemo.maths (fun _ => f32_one) 1 kNegative RBMDemo.state = Ok (set_nheap h' RBMDemo.state) /\
  image_at h' (full_blob 3 [1; 1]) 21 [1; 1] (sampled (fun _ => f32_one) ps) /\
  elem (mkTensor [1; 1] ps) 0 0 = f32_div f32_one (f32_of_Z 2).
Proof.
  destruct (@RBMHid_ComputeFeature_spec blas blas_laws RBMDemo.maths (fun _ => f32_one) 1 kNegative RBMDemo.state RBMDemo.hidden
    1 2 1 1 f32_one 0 1 1 (full_blob 3 [1; 1]) (full_blob 3 [1; 1]) (full_blob 2 [1; 2]) (full_blob 2 [1; 2]) (full_blob 4 [2; 1])
    (full_blob 5 [1]) 13 25 33 21 [2] (RBMDemo.floats [0; 1]) (RBMDemo.floats [1; 3]) (RBMDemo.floats [-1]) (RBMDemo.floats [2]))
    as (h' & ps & E & _ & Hi & Hp);
    [by right|exact RBMDemo.rbm_heap_ok|reflexivity|reflexivity|reflexivity|vm_compute; reflexivity|reflexivity|
     vm_compute; reflexivity|reflexivity|reflexivity|concrete_image 2|reflexivity|concrete_image 4|concrete_image 5|concrete_image 3|
     concrete_apart|].
  exists h', ps. split; [exact E|]. split; [exact Hi|].
  destruct (Hp 0 0 ltac:(lia) ltac:(lia)) as (v & _ & Ev). refine (eq_trans Ev _). vm_compute. reflexivity.
Defined.
(** Sample (0, 1) with 2 less data (1, 0) with 1. *)
Lemma RBMVis_ComputeGradient_witness : exists h' gws gbs,
  @RBMVis_ComputeGradient blas 0 RBMDemo.state = Ok (set_nheap h' RBMDemo.state) /\
  row gbs 0 = f32_of_Z (-1) /\ row gbs 1 = f32_one /\ elem (mkTensor [1; 2] gws) 1 0 = f32_of_Z 2.
Proof.
  destruct (RBMVis_ComputeGradient_spec 0 RBMDemo.state RBMDemo.visible 1 2 1 1 1 0 false 0 2 (full_blob 2 [1; 2]) (full_blob 1 [1; 1])
    (full_blob 3 [1; 1]) (full_blob 7 [2; 1]) (full_blob 8 [2]) 1 9 13 21 45 53 (RBMDemo.floats [1; 0]) (RBMDemo.floats [1])
    (RBMDemo.floats [0; 1]) (RBMDemo.floats [2]) (RBMDemo.floats [0; 0]) (RBMDemo.floats [0; 0]))
    as (h' & gws & gbs & E & _ & _ & _ & Hb & Hw);
    [exact RBMDemo.rbm_heap_ok|reflexivity|reflexivity|vm_compute; reflexivity|vm_compute; reflexivity|reflexivity|reflexivity|
     concrete_image 0|concrete_image 1|concrete_image 2|concrete_image 3|concrete_image 7|concrete_image 8|concrete_apart|].
  exists h', gws, gbs. split; [exact E|].
  split; [refine (eq_trans (Hb 0 _) _); [lia|vm_compute; reflexivity]|].
  split; [refine (eq_trans (Hb 1 _) _); [lia|vm_compute; reflexivity]|].
  destruct (Hw 1 0 ltac:(lia) ltac:(lia)) as (v & w & Hv & Hm & Ew). refine (eq_trans Ew _). simpl in Hv, Hm. rewrite Hm, Hv.
  vm_compute. reflexivity.
Defined.
