(* ===== verification/ConvolutionProps.v ===== *)
(** * Properties of the convolution layer

    The layer pads an image, lays its patches out in columns, multiplies them by the weights and
    adds a bias to each channel: it computes the convolution of the definition. *)

From Stdlib Require Import SpecFloat.
From S2P Require Import Prelude Float32 Metric Msg Format Memory Param Server Worker LayerConf Layers LayersProps LayerCompute Mshadow MshadowProps MshadowImages LayerMath LayerMathProps LayerLinear.

(** ** Parts of tensors *)
Lemma shape_size_snoc l d : shape_size (l ++ [d]) = shape_size l * d.
Proof. rewrite shape_size_app. f_equal. cbn. lia. Qed.
(** The values before, of and behind [t[k]]. *)
Definition part_before (m k : Z) (vs : list Z) : list Z := take (Z.to_nat (m * k)) vs.
Definition part (m k : Z) (vs : list Z) : list Z := take (Z.to_nat m) (drop (Z.to_nat (m * k)) vs).
Definition part_after (m k : Z) (vs : list Z) : list Z := drop (Z.to_nat m) (drop (Z.to_nat (m * k)) vs).
Lemma part_split m k vs : part_before m k vs ++ part m k vs ++ part_after m k vs = vs.
Proof. unfold part_before, part, part_after. by rewrite !take_drop. Qed.
Lemma elem_nth w l vs y x : elem (mkTensor (w :: l) vs) y x = nth (Z.to_nat (y * w + x)) vs 0.
Proof. done. Qed.

Section parts.
Context (w : Z) (l : list Z) (d : Z) (vs : list Z) (k : Z).
Context (Hp : Forall (fun n => 0 < n) (w :: l)) (Hd : 0 < d) (Hk : 0 <= k < d).
Context (Hlen : Z.of_nat (length vs) = shape_size (w :: l) * d).
Abbreviation m := (shape_size (w :: l)).
Lemma size_m : m = w * shape_size l /\ 0 < w /\ 0 < shape_size l.
Proof using Hp. clear Hlen. inversion Hp as [|? ? Hw Hl]; subst. split; [done|]. split; [done|by apply shape_size_pos]. Qed.
Lemma part_bounds : 0 <= m * k /\ m * k + m <= Z.of_nat (length vs).
Proof using Hp Hd Hk Hlen. pose proof (shape_size_pos _ Hp). nia. Qed.
Lemma length_part : Z.of_nat (length (part m k vs)) = m.
Proof using Hp Hd Hk Hlen.
  pose proof part_bounds. pose proof (shape_size_pos _ Hp). unfold part. rewrite length_take, length_drop. lia.
Qed.
Lemma length_part_before : Z.of_nat (length (part_before m k vs)) = m * k.
Proof using Hp Hd Hk Hlen. pose proof part_bounds. pose proof (shape_size_pos _ Hp). unfold part_before. rewrite length_take. lia. Qed.
(** The elements of the part are elements of the whole. *)
Lemma elem_part y x : 0 <= y < shape_size l -> 0 <= x < w ->
  elem (mkTensor (w :: l) (part m k vs)) y x = elem (mkTensor (w :: l ++ [d]) vs) (k * shape_size l + y) x.
Proof using Hp Hd Hk Hlen.
  intros Hy Hx. rewrite !elem_nth. destruct size_m as (Em & Hw & Hl).
  pose proof (below_mul y x _ w Hy Hx). unfold part.
  rewrite !nth_lookup, lookup_take_lt, lookup_drop by lia. do 2 f_equal.
  rewrite <- Z2Nat.inj_add by nia. f_equal. rewrite Em. ring.
Qed.
(** Replacing the part leaves the other elements. *)
Lemma elem_replaced ws k' y x : Z.of_nat (length ws) = m -> 0 <= k' < d -> 0 <= y < shape_size l -> 0 <= x < w ->
  elem (mkTensor (w :: l ++ [d]) (part_before m k vs ++ ws ++ part_after m k vs)) (k' * shape_size l + y) x =
  if k' =? k then elem (mkTensor (w :: l) ws) y x else elem (mkTensor (w :: l ++ [d]) vs) (k' * shape_size l + y) x.
Proof using Hp Hd Hk Hlen.
  intros Hws Hk' Hy Hx. rewrite !elem_nth. destruct size_m as (Em & Hw & Hl).
  pose proof (below_mul y x _ w Hy Hx) as Hb. pose proof length_part_before as Lb. pose proof length_part as Lp.
  replace ((k' * shape_size l + y) * w + x) with (m * k' + (y * w + x)) by (rewrite Em; ring).
  set (j := y * w + x) in *. assert (0 <= m * k') by nia. assert (0 <= j < m) by nia.
  rewrite <- (part_split m k vs) at 3. destruct (Z.eqb_spec k' k) as [->|Hne].
  - rewrite app_nth2 by lia. rewrite app_nth1 by lia. f_equal. lia.
  - destruct (Z.lt_ge_cases k' k).
    + rewrite !app_nth1 by nia. done.
    + rewrite !app_nth2 by nia. f_equal. lia.
Qed.
End parts.

Lemma ten_sub h bp t w l d vs k :
  ten_at h bp [] t vs [] -> tenshape t = w :: l ++ [d] -> 0 <= k < d ->
  tenshape (sub_ten t k) = w :: l /\
  ten_at h bp (part_before (shape_size (w :: l)) k vs) (sub_ten t k) (part (shape_size (w :: l)) k vs)
    (part_after (shape_size (w :: l)) k vs).
Proof.
  intros [Ha Hptr [Hp Hs Hl]] E Hk. rewrite app_nil_r in Ha. simpl app in Ha. rewrite E in *. cbn [tshape tvals] in *.
  change (w :: l ++ [d]) with ((w :: l) ++ [d]) in *. rewrite Forall_app in Hp. destruct Hp as [Hp Hd].
  rewrite list.Forall_singleton in Hd. rewrite shape_size_snoc in *. pose proof (shape_size_pos _ Hp).
  assert (Es : tenshape (sub_ten t k) = w :: l).
  { unfold sub_ten. cbn [tenshape]. rewrite E. apply removelast_last. }
  split; [done|]. split.
  - by rewrite part_split.
  - rewrite (length_part_before w l d vs k) by done. unfold sub_ten. cbn [dptr]. rewrite E, removelast_last, Hptr. simpl length. lia.
  - rewrite Es. split; cbn [tshape tvals]; [done|nia|by apply (length_part w l d)].
Qed.
Lemma ten_unsub h bp t w l d vs k ws :
  ten_at h bp [] t vs [] -> tenshape t = w :: l ++ [d] -> 0 <= k < d -> Z.of_nat (length ws) = shape_size (w :: l) ->
  forall h', ten_at h' bp (part_before (shape_size (w :: l)) k vs) (sub_ten t k) ws (part_after (shape_size (w :: l)) k vs) ->
  ten_at h' bp [] t (part_before (shape_size (w :: l)) k vs ++ ws ++ part_after (shape_size (w :: l)) k vs) [].
Proof.
  intros [Ha Hptr [Hp Hs Hl]] E Hk Hws h' [Ha' _ _]. split; [by rewrite app_nil_r|done|].
  rewrite E in *. cbn [tshape tvals] in *. split; cbn [tshape tvals]; [done..|].
  rewrite <- Hl. rewrite <- (part_split (shape_size (w :: l)) k vs) at 3. rewrite !length_app.
  change (w :: l ++ [d]) with ((w :: l) ++ [d]) in *. rewrite Forall_app in Hp. destruct Hp as [Hp Hd].
  rewrite list.Forall_singleton in Hd. rewrite shape_size_snoc in Hl.
  pose proof (length_part w l d vs k Hp Hd Hk Hl). lia.
Qed.

(** ** Padded images and their patches *)

(** The pixel of an image of [w] by [h] in channel [c], 0 outside of the image. *)
Definition pixel (img : tensor) (w h c y x : Z) : Z :=
  if (0 <=? y) && (y <? h) && (0 <=? x) && (x <? w) then elem img (c * h + y) x else 0.
Lemma pixel_range img w h c y x : Forall is_f32 (tvals img) -> is_f32 (pixel img w h c y x).
Proof. intros H. unfold pixel. case_match; [by apply elem_range|unfold is_f32; lia]. Qed.
Lemma padded_eval img w h ch p :
  tensor_ok img -> tshape img = [w; h; ch] -> 0 <= p -> (w + 2 * p) * (h + 2 * p) * ch < 2 ^ 32 ->
  let e := if 0 <? p then pad (tensor_exp img) (u32 p) else tensor_exp img in
  eshape e = [w + 2 * p; h + 2 * p; ch] /\
  forall c y x, 0 <= c < ch -> 0 <= y < h + 2 * p -> 0 <= x < w + 2 * p ->
    Eval e (c * (h + 2 * p) + y) x = Ok (pixel img w h c (y - p) (x - p)).
Proof.
  intros Ht E Hp Hs. destruct (tensor_dims img w h [ch] Ht E) as (Hw & Hh & Hch & _).
  assert (Hc : shape_size [ch] = ch) by (cbn; lia). rewrite Hc in Hch.
  assert (Hb : 0 < (w + 2 * p) * (h + 2 * p)) by nia.
  assert (Hww : w + 2 * p < 2 ^ 32) by nia. assert (Hhh : (h + 2 * p) * ch < 2 ^ 32) by nia.
  assert (Hh' : h + 2 * p < 2 ^ 32) by nia.
  assert (Hin : forall c y x, 0 <= c < ch -> 0 <= y < h -> 0 <= x < w -> Eval (tensor_exp img) (c * h + y) x = Ok (elem img (c * h + y) x)).
  { intros c y x Hc' Hy Hx. apply (tensor_eval img w h [ch]); [done|done| |done].
    replace (shape_size [h; ch]) with (ch * h) by (cbn; ring). by apply below_mul. }
  destruct (Z.ltb_spec 0 p) as [Hpos|Hz]; cbv zeta.
  - rewrite (u32_small p) by lia. unfold pad. cbn [tensor_exp eshape]. rewrite E. change (drop 2 [w; h; ch]) with [ch].
    change (dim [w; h; ch] 0) with w. change (dim [w; h; ch] 1) with h.
    rewrite (umul_small p 2), !uadd_small by lia. split; [f_equal; [lia|f_equal; lia]|].
    intros c y x Hc' Hy Hx. rewrite (Z.mul_comm 2 p) in *. cbn [Eval]. unfold pad_plan. split_index. unfold pixel.
    destruct (Z.ltb_spec y p), (Z.ltb_spec x p); simpl orb.
    1-3: rewrite ?(proj2 (Z.leb_gt 0 (y - p))), ?(proj2 (Z.leb_gt 0 (x - p))) by lia; by rewrite ?andb_false_r.
    rewrite !usub_small by lia. rewrite (proj2 (Z.leb_le 0 (y - p))), (proj2 (Z.leb_le 0 (x - p))) by lia.
    rewrite andb_true_l, andb_true_r. destruct ((y - p <? h) && (x - p <? w)) eqn:Eb; [|done].
    assert (0 <= c * h) by nia. pose proof (below_mul c (y - p) ch h Hc' ltac:(lia)).
    assert (ch * h <= (h + p * 2) * ch) by nia.
    rewrite umul_small by nia. rewrite uadd_small by lia. apply Hin; lia.
  - assert (p = 0) as -> by lia. rewrite Z.mul_0_r, !Z.add_0_r. split; [done|]. intros c y x Hc' Hy Hx.
    rewrite Hin by done. unfold pixel. rewrite !Z.sub_0_r.
    rewrite (proj2 (Z.leb_le 0 y)), (proj2 (Z.leb_le 0 x)), (proj2 (Z.ltb_lt y h)), (proj2 (Z.ltb_lt x w)) by lia. done.
Qed.

(** Row [r] and column [j] of the matrix of the patches of an image: the pixel at offset
    [r mod k], [r / k mod k] of channel [r / (k * k)] in window [j]. *)
Definition patch (img : tensor) (w h p k s ow r j : Z) : Z :=
  pixel img w h (r / k / k) (j / ow * s + r / k mod k - p) (j mod ow * s + r mod k - p).
Lemma unpack_padded img w h ch p k s :
  tensor_ok img -> tshape img = [w; h; ch] -> 0 <= p -> (w + 2 * p) * (h + 2 * p) * ch < 2 ^ 32 ->
  0 < k <= w + 2 * p -> k <= h + 2 * p -> 0 < s < 2 ^ 32 -> k * k * ch < 2 ^ 32 ->
  let ow := windows (w + 2 * p) k s in
  let oh := windows (h + 2 * p) k s in
  oh * ow < 2 ^ 32 ->
  exists e, unpack_patch2col (if 0 <? p then pad (tensor_exp img) (u32 p) else tensor_exp img) (u32 k) (u32 s) = Ok e /\
    eshape e = [oh * ow; k * k * ch] /\
    forall r j, 0 <= r < k * k * ch -> 0 <= j < oh * ow -> Eval e r j = Ok (patch img w h p k s ow r j).
Proof.
  intros Ht E Hp Hs Hkw Hkh Hst Hrows ow oh Hcols. destruct (tensor_dims img w h [ch] Ht E) as (Hw & Hh & Hch & _).
  replace (shape_size [ch]) with ch in Hch by (cbn; lia).
  destruct (padded_eval img w h ch p Ht E Hp Hs) as [Ee He].
  set (img' := if 0 <? p then _ else _) in *.
  assert (Hww : w + 2 * p < 2 ^ 32) by nia. rewrite !u32_small by lia.
  assert (Hsize : shape_size [w + 2 * p; h + 2 * p; ch] < 2 ^ 32) by (cbn; nia).
  assert (Hcols' : oh * ow * shape_size [] < 2 ^ 32) by (cbn; lia).
  assert (Hkh0 : 0 < k <= h + 2 * p) by lia.
  assert (How : 0 < ow) by (apply windows_pos; lia). assert (Hoh : 0 < oh) by (apply windows_pos; lia).
  pose proof (unpack_shape (w + 2 * p) (h + 2 * p) ch k s [] ltac:(lia) ltac:(lia) Hch (Forall_nil_2 _) Hkw Hkh (proj1 Hst) Hsize Hrows Hcols' img' Ee) as Eu.
  eexists. split; [exact Eu|]. split; [cbn; by rewrite Z.mul_1_r|]. intros r j Hr Hj.
  assert (Hr1 : 0 <= r / k < k * ch) by (split; [apply Z.div_pos; lia|apply Z.div_lt_upper_bound; lia]).
  assert (Hc : 0 <= r / k / k < ch) by (split; [apply Z.div_pos; lia|apply Z.div_lt_upper_bound; lia]).
  assert (Hpy : 0 <= j / ow < oh) by (split; [apply Z.div_pos; lia|apply Z.div_lt_upper_bound; lia]).
  pose proof (Z.mod_pos_bound r k ltac:(lia)) as Hdx. pose proof (Z.mod_pos_bound (r / k) k ltac:(lia)) as Hdy.
  pose proof (Z.mod_pos_bound j ow ltac:(lia)) as Hpx.
  pose proof (unpack_eval (w + 2 * p) (h + 2 * p) ch k s [] ltac:(lia) ltac:(lia) Hch (Forall_nil_2 _) Hkw Hkh (proj1 Hst) Hsize Hrows Hcols'
    img' _ Ee Eu 0 (r / k / k) (j / ow) (j mod ow) (r / k mod k) (r mod k) ltac:(cbn; lia) Hc Hpy Hpx Hdy Hdx) as Ev.
  unfold patch_row, patch_col in Ev. fold ow oh in Ev.
  replace ((r / k / k * k + r / k mod k) * k + r mod k) with r in Ev
    by (pose proof (Z.div_mod r k); pose proof (Z.div_mod (r / k) k); nia).
  replace ((0 * oh + j / ow) * ow + j mod ow) with j in Ev by (pose proof (Z.div_mod j ow); lia).
  refine (eq_trans Ev _). rewrite Z.mul_0_l, Z.add_0_l. pose proof (windows_end (h + 2 * p) k s (j / ow) Hkh0 (proj1 Hst) Hpy).
  pose proof (windows_end (w + 2 * p) k s (j mod ow) Hkw (proj1 Hst) Hpx).
  apply He; [done|nia|nia].
Qed.

(** ** The loop over the images *)
Section convolve.
Context `{L : BlasLaws}.
Context (w h ch n p k s nf : Z) (vs ws : list Z).
Abbreviation ow := (windows (w + 2 * p) k s).
Abbreviation oh := (windows (h + 2 * p) k s).
Abbreviation kk := (k * k * ch).
Context (Hp : 0 <= p) (Hs : (w + 2 * p) * (h + 2 * p) * ch < 2 ^ 32) (Hkw : 0 < k <= w + 2 * p) (Hkh : k <= h + 2 * p)
  (Hst : 0 < s < 2 ^ 32) (Hnf : 0 < nf <= INT_MAX) (Hrows : 0 < kk <= INT_MAX) (Hcols : 0 < oh * ow <= INT_MAX).
(** Image [m] of the batch. *)
Definition image (m : Z) : tensor := mkTensor [w; h; ch] (part (shape_size [w; h; ch]) m vs).
(** The products of window [j] of an image with the weights of filter [f]. *)
Definition conv_products (m f j : Z) : list (Z * Z) :=
  map (fun r => (patch (image m) w h p k s ow r j, elem (mkTensor [kk; nf] ws) f r)) (between 0 kk).

Context (src data col weight : ten) (bs bd bc bw : Blob * Z).
Context (Esrc : tenshape src = [w; h; ch; n]) (Edata : tenshape data = [oh * ow; nf; n])
  (Ecol : tenshape col = [oh * ow; kk]) (Ew : tenshape weight = [kk; nf]).
Context (Hsep : separate [bs; bd; bc; bw]).

Lemma convolve_step hp cv dv m :
  heap_ok hp -> ten_at hp bs [] src vs [] -> ten_at hp bw [] weight ws [] -> ten_at hp bc [] col cv [] ->
  ten_at hp bd [] data dv [] -> 0 <= m < n ->
  exists e h1 h2 cv' dv', patches src m p k s hp = Ok e /\ assign saveto col e hp = Ok h1 /\
    assign_dot f32_one 0 (sub_ten data m) weight false col false h1 = Ok h2 /\ wrote [bc; bd] hp h2 /\
    ten_at h2 bc [] col cv' [] /\ ten_at h2 bd [] data dv' [] /\
    forall m' f j, 0 <= m' < n -> 0 <= f < nf -> 0 <= j < oh * ow ->
      let v := elem (mkTensor [oh * ow; nf; n] dv') (m' * nf + f) j in
      if m' =? m then is_dot (conv_products m f j) v else v = elem (mkTensor [oh * ow; nf; n] dv) (m' * nf + f) j.
Proof using Hp Hs Hkw Hkh Hst Hnf Hrows Hcols Esrc Edata Ecol Ew Hsep.
  intros Hok Tsrc Tw Tcol Td Hm.
  destruct (ten_sub hp bs src w [h; ch] n vs m Tsrc Esrc Hm) as [Eimg Timg].
  pose proof (ta_ok _ _ _ _ _ _ Timg) as Iok. rewrite Eimg in Iok.
  destruct (unpack_padded (image m) w h ch p k s Iok eq_refl Hp Hs Hkw Hkh Hst ltac:(unfold INT_MAX in *; lia) ltac:(unfold INT_MAX in *; lia))
    as (e & Ee & Se & Ve).
  destruct (ten_assign saveto hp bc [] col cv [] (oh * ow) [kk] e (patch (image m) w h p k s ow) Hok Tcol Ecol (or_intror Se))
    as (h1 & cv' & E1 & W1 & T1 & P1).
  { intros r j Hr Hj. replace (shape_size [kk]) with kk in Hr by (cbn; lia). split; [by apply Ve|].
    apply pixel_range. eapply ten_f32. exact Timg. }
  destruct (ten_sub h1 bd data (oh * ow) [nf] n dv m) as [Esub Tsub];
    [eapply wrote_ten; [exact W1|apart_in Hsep|done]|done|done|].
  destruct (ten_assign_dot fresh h1 bd _ _ _ _ false bw [] weight ws [] false bc [] col cv' [] nf (oh * ow) kk (wr_ok _ _ _ W1) Tsub)
    as (h2 & pv & E2 & W2 & T2 & P2);
    [eapply wrote_ten; [exact W1|apart_in Hsep|done]|done|done|done|done|by rewrite !list.Forall_cons|].
  cbn [alpha_of beta_of onto_value] in E2, P2.
  exists e, h1, h2, cv', (part_before (shape_size [oh * ow; nf]) m dv ++ pv ++ part_after (shape_size [oh * ow; nf]) m dv).
  assert (Hpv : Z.of_nat (length pv) = shape_size [oh * ow; nf]).
  { pose proof (to_length _ (ta_ok _ _ _ _ _ _ T2)) as Hl. rewrite Esub in Hl. exact Hl. }
  split; [|split; [done|split; [done|split; [exact (wrote_seq _ _ _ _ _ W1 W2)|split; [|split]]]]].
  - unfold patches. rewrite (ten_get _ _ _ _ _ _ Timg), bind_Ok, Eimg. exact Ee.
  - eapply wrote_ten; [exact W2|apart_in Hsep|done].
  - eapply ten_unsub; [exact Td|exact Edata|done|done|exact T2].
  - intros m' f j Hm' Hf Hj. cbv zeta.
    assert (Hf' : 0 <= f < shape_size [nf]) by (cbn; lia).
    pose proof (ta_ok _ _ _ _ _ _ Td) as [_ _ Hdl]. rewrite Edata in Hdl. cbn [tshape tvals] in Hdl.
    change [oh * ow; nf; n] with ([oh * ow; nf] ++ [n]) in Hdl. rewrite shape_size_snoc in Hdl.
    pose proof (elem_replaced (oh * ow) [nf] n dv m ltac:(repeat constructor; lia) ltac:(lia) Hm Hdl pv m' f j Hpv Hm' Hf' Hj) as He.
    replace (shape_size [nf]) with nf in He by (cbn; lia). change ([nf] ++ [n]) with [nf; n] in He. rewrite He. destruct (Z.eqb_spec m' m) as [->|]; [|done].
    specialize (P2 f j Hf Hj). rewrite Ew, Ecol in P2. unfold products, mat in P2. unfold conv_products.
    erewrite map_ext_in; [exact P2|]. intros r Hr. apply list_elem_of_In, elem_of_between in Hr. cbv beta.
    rewrite P1; [done| |done]. cbn. lia.
Qed.

Lemma convolve_Ok ms : forall hp cv dv,
  NoDup ms -> Forall (fun m => 0 <= m < n) ms ->
  heap_ok hp -> ten_at hp bs [] src vs [] -> ten_at hp bw [] weight ws [] -> ten_at hp bc [] col cv [] ->
  ten_at hp bd [] data dv [] ->
  exists h' cv' dv', convolve src data col weight p k s ms hp = Ok h' /\ wrote [bc; bd] hp h' /\
    ten_at h' bc [] col cv' [] /\ ten_at h' bd [] data dv' [] /\
    forall m f j, 0 <= m < n -> 0 <= f < nf -> 0 <= j < oh * ow ->
      let v := elem (mkTensor [oh * ow; nf; n] dv') (m * nf + f) j in
      (m ∈ ms -> is_dot (conv_products m f j) v) /\
      (m ∉ ms -> v = elem (mkTensor [oh * ow; nf; n] dv) (m * nf + f) j).
Proof using Hp Hs Hkw Hkh Hst Hnf Hrows Hcols Esrc Edata Ecol Ew Hsep.
  induction ms as [|m ms IH]; intros hp cv dv Hnd Hms Hok Tsrc Tw Tcol Td.
  { exists hp, cv, dv. split; [done|]. split; [by apply wrote_refl|]. split; [done|]. split; [done|].
    intros m f j _ _ _. split; [by intros ?%elem_of_nil|done]. }
  apply list.NoDup_cons in Hnd as [Hnm Hnd]. apply list.Forall_cons in Hms as [Hm Hms].
  destruct (convolve_step hp cv dv m Hok Tsrc Tw Tcol Td Hm) as (e & h1 & h2 & cv2 & dv2 & Ep & E1 & E2 & W2 & Tc2 & Td2 & P2).
  destruct (IH h2 cv2 dv2 Hnd Hms (wr_ok _ _ _ W2)) as (h3 & cv3 & dv3 & E3 & W3 & Tc3 & Td3 & P3);
    [eapply wrote_ten; [exact W2|apart_in Hsep|done]..|done|done|].
  exists h3, cv3, dv3. split; [|split; [by eapply wrote_trans|split; [done|split; [done|]]]].
  - simpl. by rewrite Ep, bind_Ok, E1, bind_Ok, E2, bind_Ok.
  - intros m' f j Hm' Hf Hj. cbv zeta. destruct (P3 m' f j Hm' Hf Hj) as [Pin Pout]. specialize (P2 m' f j Hm' Hf Hj). cbv zeta in *.
    rewrite elem_of_cons. split.
    + intros [->|Hin]; [|by apply Pin]. rewrite Z.eqb_refl in P2. by rewrite Pout.
    + intros Hno. rewrite Pout by tauto. rewrite (proj2 (Z.eqb_neq m' m)) in P2 by tauto. done.
Qed.
End convolve.

(** ** The layer *)

(** The pixel of channel [c] of image [m] of a batch, 0 outside of the image. *)
Definition batch_pixel (w h ch n : Z) (vs : list Z) (m c y x : Z) : Z :=
  if (0 <=? y) && (y <? h) && (0 <=? x) && (x <? w) then elem (mkTensor [w; h; ch; n] vs) ((m * ch + c) * h + y) x else 0.
(** The products of the window at [(py, px)] of image [m] with filter [f]: channel by channel and row
    by row, [k] pixels each. *)
Definition window_products (w h ch n p k s nf : Z) (vs ws : list Z) (m f py px : Z) : list (Z * Z) :=
  map (fun r => (batch_pixel w h ch n vs m (r / k / k) (py * s + r / k mod k - p) (px * s + r mod k - p),
                 elem (mkTensor [k * k * ch; nf] ws) f r)) (between 0 (k * k * ch)).

Lemma conv_window_products w h ch n p k s nf vs ws m f py px :
  0 < ch -> 0 < k -> 0 <= m < n -> 0 <= px < windows (w + 2 * p) k s ->
  Forall (fun d => 0 < d) [w; h; ch] -> Z.of_nat (length vs) = shape_size [w; h; ch] * n ->
  conv_products w h ch p k s nf vs ws m f (py * windows (w + 2 * p) k s + px) =
  window_products w h ch n p k s nf vs ws m f py px.
Proof.
  intros Hch Hk Hm Hpx Hd Hlen. unfold conv_products, window_products. apply map_ext_in. intros r Hr.
  apply list_elem_of_In, elem_of_between in Hr. f_equal. unfold patch. rewrite div_pos, mod_pos by done.
  unfold pixel, batch_pixel. case_match eqn:Eb; [|done].
  assert (Hc : 0 <= r / k / k < ch) by (split; [repeat apply Z.div_pos; lia|repeat (apply Z.div_lt_upper_bound; [lia|]); lia]).
  set (y := py * s + r / k mod k - p) in *. set (x := px * s + r mod k - p) in *.
  pose proof (elem_part w [h; ch] n vs m Hd ltac:(lia) Hm Hlen (r / k / k * h + y) x) as He.
  replace (shape_size [h; ch]) with (ch * h) in He by (cbn; ring). change (w :: [h; ch] ++ [n]) with [w; h; ch; n] in He.
  unfold image. rewrite He by nia. f_equal. ring.
Qed.
Lemma image_Tensor3 h b p d d' rest vs : image_at h b p (d :: d' :: rest) vs ->
  Tensor3 b h = Ok (h, mkTen p [shape_size rest; d'; d]) /\ ten_at h (b, p) [] (mkTen p [shape_size rest; d'; d]) vs [].
Proof.
  intros Hi. pose proof (im_pos _ _ _ _ _ Hi) as Hp. inversion Hp as [|? ? Hd Hr]; inversion Hr as [|? ? Hd' Hr']; subst.
  pose proof (shape_size_pos rest Hr').
  assert (Hs : shape_size [shape_size rest; d'; d] = shape_size (d :: d' :: rest)) by (cbn; change (foldr Z.mul 1 rest) with (shape_size rest); ring).
  split; [|eapply image_part; [done|done|by repeat constructor]].
  unfold Tensor3. rewrite (im_dims _ _ _ _ _ Hi). cbn [idx]. simpl. rewrite (image_count _ _ _ _ _ Hi).
  change (shape_size (d :: d' :: rest)) with (d * (d' * shape_size rest)). rewrite idiv_Ok by nia. rewrite bind_Ok.
  rewrite (Z.mul_comm d), Z.div_mul by lia. rewrite idiv_Ok by nia. rewrite bind_Ok.
  rewrite (Z.mul_comm d'), Z.div_mul by lia. eapply (image_make _ _ _ _ _ [d; d'; shape_size rest]); [done|by repeat constructor|].
  rewrite <- Hs. cbn. ring.
Qed.
Lemma ten_add_channels h bp t ws bb b bs q nf n :
  heap_ok h -> ten_at h bp [] t ws [] -> ten_at h bb [] b bs [] -> tenshape t = [q; nf; n] -> tenshape b = [nf] ->
  exists h' vs, (b ← get b h; e ← broadcast1 b (tenshape t); assign plusto t e h) = Ok h' /\ wrote [bp] h h' /\
    ten_at h' bp [] t vs [] /\
    forall m f j, 0 <= m < n -> 0 <= f < nf -> 0 <= j < q ->
      elem (mkTensor [q; nf; n] vs) (m * nf + f) j = f32_add (elem (mkTensor [q; nf; n] ws) (m * nf + f) j) (row bs f).
Proof.
  intros Hok Ht Hb Et Eb. pose proof (ta_ok _ _ _ _ _ _ Ht) as Tok. rewrite Et in Tok.
  pose proof (ta_ok _ _ _ _ _ _ Hb) as Bok. rewrite Eb in Bok.
  destruct (tensor_dims _ q nf [n] Tok eq_refl) as (_ & Hnf & _). pose proof (to_length _ Bok) as Bl. simpl in Bl.
  replace (shape_size [nf]) with nf in Bl by (cbn; lia).
  destruct (ten_assign plusto h bp [] t ws [] q [nf; n]
    (mkExp [q; nf; n] (fun y x => k ← umod y nf; idx bs k)) (fun y _ => row bs (y mod nf)))
    as (h' & vs & E & Hw & Ht' & Hel); [done..|by right| |].
  { intros y x Hy _. split; [|apply f32_add_range]. cbn [Eval]. rewrite umod_Ok, bind_Ok by lia.
    apply idx_nth. pose proof (Z.mod_pos_bound y nf). lia. }
  exists h', vs. split; [|split; [done|split; [done|]]].
  - rewrite (ten_get _ _ _ _ _ _ Hb), bind_Ok, Eb, Et. unfold broadcast1, Assert. cbn [tshape tvals].
    change (dim [nf] 0) with nf. change (dim [q; nf; n] 1) with nf. rewrite Z.eqb_refl. cbn [CHECK mbind outcome_bind]. exact E.
  - intros m f j Hm Hf Hj. rewrite Hel; [unfold plusto; by rewrite mod_pos by done| |done].
    rewrite size_2, (Z.mul_comm nf). by apply below_mul.
Qed.

(** The sizes of the blobs of a layer. *)
Lemma conv_sizes hp sb sp cb cp wb wp n ch h w nf q kk vs cs ws :
  image_at hp sb sp [n; ch; h; w] vs -> image_at hp cb cp [kk; q] cs -> image_at hp wb wp [nf; kk] ws ->
  (0 < n /\ 0 < ch /\ 0 < h /\ 0 < w) /\ 0 < kk <= INT_MAX /\ 0 < q <= INT_MAX /\ 0 < nf <= INT_MAX /\
  ten_at hp (sb, sp) [] (mkTen sp [w; h; ch; n]) vs [].
Proof.
  intros Hvs Hcs Hws.
  pose proof (dims_int _ _ _ _ _ Hvs) as Dv. pose proof (dims_int _ _ _ _ _ Hcs) as Dc. pose proof (dims_int _ _ _ _ _ Hws) as Dw.
  rewrite !list.Forall_cons in Dv. rewrite !list.Forall_cons in Dc. rewrite !list.Forall_cons in Dw.
  destruct Dv as (? & ? & ? & ? & _), Dc as (? & ? & _), Dw as (? & _). split; [lia|]. split; [done|]. split; [done|]. split; [done|].
  eapply image_part; [exact Hvs|cbn; ring|repeat constructor; lia].
Qed.

(** C14. The convolution layer forwards.  On a batch of [n] images of [ch] channels of [h] by [w] pixels,
    with [nf] filters, padding [p], stride [s] and blobs of the shapes [Setup] gives them, none of
    which share memory, [ComputeFeature] returns and writes nothing but the data and the columns:
    the value of filter [f] at [(py, px)] of image [m] is a value BLAS may compute for the sum of
    the weights times the pixels of the window that starts at [(py * s - p, px * s - p)], where
    pixels outside of the image are 0, plus the filter's bias. *)
Theorem Convolution_ComputeFeature_spec `{L : BlasLaws} (i : Z) (s : nstate) (o : LayerObj)
    (k p st nf n ch h w c1 c2 c3 c4 wi bi : Z) (cb gb sb wb bb : Blob) (sp cp wp bp dp : Z) (vs cs ws bs ds : list Z)
    (Hok : heap_ok (nheap s)) (Ho : objs s !! i = Some o)
    (Hsub : osub o = ConvolutionSub k p st nf n ch h w c1 c2 c3 c4 cb gb wi bi)
    (Hsrc : src_mutable i 0 kPositive s = Ok sb)
    (Hwb : param_data wi s (nheap s) = Ok wb) (Hbb : param_data bi s (nheap s) = Ok bb)
    (Hp : 0 <= p) (Hsize : (w + 2 * p) * (h + 2 * p) * ch < 2 ^ 32) (Hkw : 0 < k <= w + 2 * p) (Hkh : k <= h + 2 * p)
    (Hst : 0 < st < 2 ^ 32) :
  let oh := windows (h + 2 * p) k st in
  let ow := windows (w + 2 * p) k st in
  image_at (nheap s) sb sp [n; ch; h; w] vs -> image_at (nheap s) (odata o) dp [n; nf; oh; ow] ds ->
  image_at (nheap s) cb cp [k * k * ch; oh * ow] cs -> image_at (nheap s) wb wp [nf; k * k * ch] ws ->
  image_at (nheap s) bb bp [nf] bs -> separate [(sb, sp); (odata o, dp); (cb, cp); (wb, wp); (bb, bp)] ->
  exists h' os, Convolution_ComputeFeature i s = Ok (set_nheap h' s) /\ wrote [(cb, cp); (odata o, dp)] (nheap s) h' /\
    image_at h' (odata o) dp [n; nf; oh; ow] os /\
    forall m f py px, 0 <= m < n -> 0 <= f < nf -> 0 <= py < oh -> 0 <= px < ow ->
      exists v, is_dot (window_products w h ch n p k st nf vs ws m f py px) v /\
        elem (mkTensor [ow; oh; nf; n] os) ((m * nf + f) * oh + py) px = f32_add v (row bs f).
Proof.
  intros oh ow Hvs Hds Hcs Hws Hbs Hsep.
  pose proof (image_Tensor4 _ _ _ _ _ _ _ _ Hvs) as Es. destruct (image_Tensor3 _ _ _ _ _ _ _ Hds) as [Ed Td].
  destruct (image_Tensor2 _ _ _ _ _ _ Hcs) as [Ec Tc]. destruct (image_Tensor2 _ _ _ _ _ _ Hws) as [Ew Tw].
  destruct (image_Tensor1 _ _ _ _ _ Hbs) as [Eb Tb].
  destruct (conv_sizes _ _ _ _ _ _ _ _ _ _ _ _ _ _ _ _ _ Hvs Hcs Hws) as ((Hn & Hch & Hh & Hw) & Hkk & Hq & Hnf & Ts).
  rewrite size_2 in *. replace (shape_size [oh * ow]) with (oh * ow) in * by (cbn; lia).
  replace (shape_size [k * k * ch]) with (k * k * ch) in * by (cbn; lia).
  destruct (convolve_Ok w h ch n p k st nf vs ws Hp Hsize Hkw Hkh Hst Hnf Hkk Hq (mkTen sp [w; h; ch; n])
    (mkTen dp [oh * ow; nf; n]) (mkTen cp [oh * ow; k * k * ch]) (mkTen wp [k * k * ch; nf]) (sb, sp) (odata o, dp) (cb, cp) (wb, wp)
    eq_refl eq_refl eq_refl eq_refl ltac:(rewrite !separate_cons in Hsep; rewrite !separate_cons; rewrite !list.Forall_cons in *; tauto)
    (upto n) (nheap s) cs ds (NoDup_upto n)) as (h1 & cv & dv & E1 & W1 & _ & T1 & P1); [|done..|].
  { apply list.Forall_forall. intros m Hm. by apply elem_of_upto. }
  destruct (ten_add_channels h1 (odata o, dp) (mkTen dp [oh * ow; nf; n]) dv (bb, bp) (mkTen bp [nf]) bs (oh * ow) nf n (wr_ok _ _ _ W1) T1)
    as (h2 & os & E2 & W2 & T2 & P2); [eapply wrote_ten; [exact W1|apart_in Hsep|exact Tb]|done|done|].
  exists h2, os. split; [|split; [|split]].
  - unfold Convolution_ComputeFeature. rewrite (obj_Ok _ _ _ Ho), bind_Ok, Hsub, Hsrc, bind_Ok.
    rewrite Es, bind_Ok, Ed, bind_Ok, Ec, bind_Ok, Hwb, bind_Ok, Ew, bind_Ok, Hbb, bind_Ok, Eb, bind_Ok, E1, bind_Ok.
    apply bind_Ok_inv in E2 as (b & Eg & E2). apply bind_Ok_inv in E2 as (e & Ee & E2).
    rewrite Eg, bind_Ok, Ee, bind_Ok, E2, bind_Ok. done.
  - eapply wrote_trans; [exact W1|]. eapply wrote_mono; [exact W2|]. intros x Hx. by right.
  - eapply part_image; [exact Hds|exact T2|]. cbn. ring.
  - intros m f py px Hm Hf Hpy Hpx. pose proof (below_mul py px _ _ Hpy Hpx) as Hj.
    destruct (P1 m f (py * ow + px) Hm Hf Hj) as [Pin _].
    eexists. split.
    + rewrite <- conv_window_products by first [done | lia | repeat constructor; lia | rewrite (im_length _ _ _ _ _ Hvs); cbn; ring].
      apply Pin. by apply elem_of_upto.
    + refine (eq_trans _ (P2 m f (py * ow + px) Hm Hf Hj)). rewrite !elem_nth. do 2 f_equal. ring.
Qed.

(** ** Witness: an image of 2 by 2 pixels with a border of one, windows of 2 by 2 that do not overlap *)
Import TextbookBlas.
Module ConvolutionDemo.
Definition floats : list Z -> list Z := map f32_of_Z.
Definition heap0 : heap :=
  with_blobs {[10 := full_blob 3 [1; 4]; 11 := full_blob 4 [1]]}
    (packed (floats [1; 2; 3; 4] ++ replicate 4 0 ++ replicate 16 0 ++ floats [1; 10; 100; 1000] ++ floats [5])
      {[0 := mkSM 1 16 HEAD_AT_CPU true; 1 := mkSM 17 16 HEAD_AT_CPU true; 2 := mkSM 33 64 HEAD_AT_CPU true;
        3 := mkSM 97 16 HEAD_AT_CPU true; 4 := mkSM 113 4 HEAD_AT_CPU true]} 12).
Definition layer : LayerObj :=
  set_sub (ConvolutionSub 2 1 2 1 1 1 2 2 2 2 4 4 (full_blob 2 [4; 4]) Blob_new 0 1)
    (set_data (full_blob 1 [1; 1; 2; 2]) (set_srcs [0] (LayerObj_new kConvolution))).
Definition state : nstate :=
  mkNS {[0 := set_data (full_blob 0 [1; 1; 2; 2]) (LayerObj_new kTanh); 1 := layer]} 2
    (mkWorld heap0 {[0 := param_of 10 Blob_new; 1 := param_of 11 Blob_new]} 2 ∅).
Lemma conv_heap_ok : heap_ok heap0.
Proof. apply with_blobs_ok; [apply packed_ok|]; by apply (bool_decide_unpack _). Qed.
End ConvolutionDemo.
(** Only the last pixel of the first window is in the image. *)
Lemma Convolution_ComputeFeature_witness : exists h' os,
  Convolution_ComputeFeature 1 ConvolutionDemo.state = Ok (set_nheap h' ConvolutionDemo.state) /\
  image_at h' (full_blob 1 [1; 1; 2; 2]) 17 [1; 1; 2; 2] os /\
  elem (mkTensor [2; 2; 1; 1] os) 0 0 = f32_of_Z 1005.
Proof.
  destruct (Convolution_ComputeFeature_spec 1 ConvolutionDemo.state ConvolutionDemo.layer 2 1 2 1 1 1 2 2 2 2 4 4 0 1
    (full_blob 2 [4; 4]) Blob_new (full_blob 0 [1; 1; 2; 2]) (full_blob 3 [1; 4]) (full_blob 4 [1]) 1 33 97 113 17
    (ConvolutionDemo.floats [1; 2; 3; 4]) (replicate 16 0) (ConvolutionDemo.floats [1; 10; 100; 1000])
    (ConvolutionDemo.floats [5]) (replicate 4 0)) as (h' & os & E & _ & Hi & Hos);
    [exact ConvolutionDemo.conv_heap_ok|reflexivity|reflexivity|vm_compute; reflexivity|reflexivity|reflexivity|
     lia|vm_compute; reflexivity|lia|lia|lia|concrete_image 0|concrete_image 1|concrete_image 2|concrete_image 3|
     concrete_image 4|concrete_apart|].
  exists h', os. split; [exact E|]. split; [exact Hi|].
  destruct (Hos 0 0 0 0) as (v & Hv & Eos); [lia|lia|vm_compute; split; [discriminate|reflexivity]..|].
  refine (eq_trans Eos _). simpl in Hv. rewrite Hv. vm_compute. reflexivity.
Defined.
