(* ===== verification/ConvolutionGrad.v ===== *)
(** * Properties of the convolution layer's gradients

    The products of an image's patches and its gradient are added to the gradient of the weights,
    image after image; the products of the weights and the gradient are gathered into the
    gradient of the source. *)

From Stdlib Require Import SpecFloat.
From S2P Require Import Prelude Float32 Metric Msg Format Memory Param Server Worker LayerConf Layers LayersProps LayerCompute Mshadow MshadowProps MshadowImages LayerMath LayerMathProps LayerLinear ConvolutionProps.

(** ** From the columns to the image *)
Lemma crop_eval e w h w' h' ch : eshape e = [w'; h'; ch] -> 0 < w <= w' -> 0 < h <= h' -> 0 < ch -> w' < 2 ^ 32 -> h' * ch < 2 ^ 32 ->
  exists g, crop e h w = Ok g /\ eshape g = [w; h; ch] /\
    forall c y x, 0 <= c < ch -> 0 <= y < h -> 0 <= x < w ->
      Eval g (c * h + y) x = Eval e (c * h' + (y + (h' - h) / 2)) (x + (w' - w) / 2).
Proof.
  intros E Hw Hh Hch Hww Hhh. unfold crop, Assert. rewrite E. change (drop 2 [w'; h'; ch]) with [ch].
  change (dim [w'; h'; ch] 0) with w'. change (dim [w'; h'; ch] 1) with h'. rewrite !CHECK_holds by lia. cbn [mbind outcome_bind].
  assert (h' < 2 ^ 32) by nia. rewrite !usub_small by lia. eexists. split; [done|]. split; [done|]. intros c y x Hc Hy Hx. cbn [Eval].
  unfold crop_plan. split_index. pose proof (Z.div_pos (h' - h) 2 ltac:(lia)). pose proof (Z.div_pos (w' - w) 2 ltac:(lia)).
  assert ((h' - h) / 2 <= h' - h) by (apply Z.div_le_upper_bound; lia).
  assert ((w' - w) / 2 <= w' - w) by (apply Z.div_le_upper_bound; lia).
  assert (0 <= c * h') by nia. assert (c * h' + h' <= ch * h') by nia.
  rewrite umul_small by nia. rewrite (uadd_small y), (uadd_small x) by lia. by rewrite uadd_small by lia.
Qed.
Lemma gathered_range w h k s m n c y x : is_f32 (packed_value w h k s m n c y x).
Proof.
  unfold packed_value. apply fold_left_range; [unfold is_f32; lia|]. intros a py Ha.
  apply fold_left_range; [done|]. intros a' px _. apply f32_add_range.
Qed.
(** [crop(pack_col2patch(m, ...), ...)]: each pixel gets the sum of its entries. *)
Lemma crop_packed w h ch p k s m :
  0 < w -> 0 < h -> 0 < ch -> 0 <= p -> (w + 2 * p) * (h + 2 * p) * ch < 2 ^ 32 -> 0 < k <= w + 2 * p -> k <= h + 2 * p ->
  0 < s -> h + 2 * p + s < 2 ^ 32 -> w + 2 * p + s < 2 ^ 32 -> k * k * ch < 2 ^ 32 ->
  let ow := windows (w + 2 * p) k s in
  let oh := windows (h + 2 * p) k s in
  oh * ow < 2 ^ 32 -> tensor_ok m -> tshape m = [oh * ow; k * k * ch] ->
  exists e, (e ← pack_col2patch m [w + 2 * p; h + 2 * p; ch] (u32 k) (u32 s); crop e (u32 h) (u32 w)) = Ok e /\
    eshape e = [w; h; ch] /\
    forall c y x, 0 <= c < ch -> 0 <= y < h -> 0 <= x < w ->
      Eval e (c * h + y) x = Ok (packed_value (w + 2 * p) (h + 2 * p) k s m 0 c (y + p) (x + p)).
Proof.
  intros Hw Hh Hch Hp Hsize Hkw Hkh Hs Hhs Hws Hrows ow oh Hcols Hm Em. rewrite !u32_small by lia.
  assert (Hsize' : shape_size [w + 2 * p; h + 2 * p; ch] < 2 ^ 32) by (cbn; nia).
  assert (Hcols' : oh * ow * shape_size [] < 2 ^ 32) by (cbn; lia).
  assert (Em' : tshape m = [oh * ow * shape_size []; k * k * ch]) by (rewrite Em; f_equal; cbn; lia).
  destruct (pack_eval (w + 2 * p) (h + 2 * p) ch k s [] ltac:(lia) ltac:(lia) Hch (Forall_nil_2 _) Hkw Hkh Hs Hsize' Hrows Hcols' Hhs Hws m Hm Em')
    as (g & Eg & Sg & Vg).
  destruct (crop_eval g w h _ _ ch Sg) as (e & Ee & Se & Ve); [lia|lia|done|lia|nia|].
  exists e. rewrite Eg, bind_Ok. split; [done|]. split; [done|]. intros c y x Hc Hy Hx. rewrite Ve by done.
  replace (h + 2 * p - h) with (p * 2) by lia. replace (w + 2 * p - w) with (p * 2) by lia. rewrite !Z.div_mul by lia.
  replace (c * (h + 2 * p) + (y + p)) with ((0 * ch + c) * (h + 2 * p) + (y + p)) by ring.
  apply Vg; [cbn; lia|done|lia|lia].
Qed.

Section gradient.
Context `{L : BlasLaws}.
(** [v'] comes of [v] when the sums of the products of each list of [pss] are added in turn. *)
Inductive dot_chain : Z -> list (list (Z * Z)) -> Z -> Prop :=
| dot_chain_nil v : dot_chain v [] v
| dot_chain_cons v ps v1 pss v2 : dot_value (Some v) ps v1 -> dot_chain v1 pss v2 -> dot_chain v (ps :: pss) v2.

Context (w h ch n p k s nf : Z) (vs ws os : list Z).
Abbreviation ow := (windows (w + 2 * p) k s).
Abbreviation oh := (windows (h + 2 * p) k s).
Abbreviation kk := (k * k * ch).
Context (Hw : 0 < w) (Hh : 0 < h) (Hch : 0 < ch) (Hn : 0 < n).
Context (Hp : 0 <= p) (Hs : (w + 2 * p) * (h + 2 * p) * ch < 2 ^ 32) (Hkw : 0 < k <= w + 2 * p) (Hkh : k <= h + 2 * p)
  (Hst : 0 < s) (Hhs : h + 2 * p + s < 2 ^ 32) (Hws : w + 2 * p + s < 2 ^ 32)
  (Hnf : 0 < nf <= INT_MAX) (Hrows : 0 < kk <= INT_MAX) (Hcols : 0 < oh * ow <= INT_MAX).
(** The gradient of image [m]: a row for each filter, a column for each window. *)
Definition image_grad (m : Z) : tensor := mkTensor [oh * ow; nf] (part (shape_size [oh * ow; nf]) m os).
(** What image [m] adds to weight [r] of filter [f]. *)
Definition weight_products (m f r : Z) : list (Z * Z) :=
  map (fun j => (patch (image w h ch vs m) w h p k s ow r j, elem (image_grad m) f j)) (between 0 (oh * ow)).
(** What window [j] gives to pixel [r] of its patch. *)
Definition patch_products (m r j : Z) : list (Z * Z) :=
  map (fun f => (elem (image_grad m) f j, elem (mkTensor [kk; nf] ws) f r)) (between 0 nf).
(** The gradient of a pixel: the sum over the windows it lies in. *)
Definition pixel_gradient (m c y x v : Z) : Prop :=
  exists g, tshape g = [oh * ow; kk] /\
    (forall r j, 0 <= r < kk -> 0 <= j < oh * ow -> is_dot (patch_products m r j) (elem g r j)) /\
    v = packed_value (w + 2 * p) (h + 2 * p) k s g 0 c (y + p) (x + p).

Context (src col weight grad gcol gweight : ten) (gsrc : option ten) (bs bc bw bg bgc bgw bgs : Blob * Z).
Context (Esrc : tenshape src = [w; h; ch; n]) (Ecol : tenshape col = [oh * ow; kk]) (Ew : tenshape weight = [kk; nf])
  (Egrad : tenshape grad = [oh * ow; nf; n]) (Egcol : tenshape gcol = [oh * ow; kk]) (Egw : tenshape gweight = [kk; nf])
  (Egs : forall t, gsrc = Some t -> tenshape t = [w; h; ch; n]).
Context (Hsep : separate [bs; bc; bw; bg; bgc; bgw; bgs]).

(** The memory in the loop: the gradients of the weights and of the source change. *)
Record loop_at (hp : heap) (gw gs : list Z) : Prop := {
  la_ok : heap_ok hp;
  la_src : ten_at hp bs [] src vs [];
  la_weight : ten_at hp bw [] weight ws [];
  la_grad : ten_at hp bg [] grad os [];
  la_col : exists cv, ten_at hp bc [] col cv [];
  la_gcol : exists cv, ten_at hp bgc [] gcol cv [];
  la_gweight : ten_at hp bgw [] gweight gw [];
  la_gsrc : forall t, gsrc = Some t -> ten_at hp bgs [] t gs [];
}.

Lemma source_step hp gw gs m : loop_at hp gw gs -> 0 <= m < n ->
  exists h' gs', (match gsrc with
    | Some t =>
        hp ← assign_dot f32_one 0 gcol weight true (sub_ten grad m) false hp;
        mt ← get gcol hp;
        e ← pack_col2patch mt [w + 2 * p; h + 2 * p; ch] (u32 k) (u32 s);
        e ← crop e (u32 h) (u32 w);
        assign saveto (sub_ten t m) e hp
    | None => Ok hp
    end) = Ok h' /\ wrote [bgc; bgs] hp h' /\ loop_at h' gw gs' /\
    (gsrc <> None -> forall m' c y x, 0 <= m' < n -> 0 <= c < ch -> 0 <= y < h -> 0 <= x < w ->
      let v := elem (mkTensor [w; h; ch; n] gs') ((m' * ch + c) * h + y) x in
      if m' =? m then pixel_gradient m c y x v else v = elem (mkTensor [w; h; ch; n] gs) ((m' * ch + c) * h + y) x).
Proof using Hw Hh Hch Hn Hp Hs Hkw Hkh Hst Hhs Hws Hnf Hrows Hcols Ew Egrad Egcol Egs Hsep.
  intros [Hok Tsrc Tw Tg Tcol [gcv Tgc] Tgw Tgs] Hm. destruct gsrc as [t|] eqn:Eg.
  2:{ exists hp, gs. split; [done|]. split; [by apply wrote_refl|]. split; [|done]. split; try done; [by exists gcv|by rewrite Eg]. }
  specialize (Tgs t eq_refl). specialize (Egs t eq_refl).
  destruct (ten_sub hp bg grad (oh * ow) [nf] n os m Tg Egrad Hm) as [Esub Tsub].
  destruct (ten_assign_dot fresh hp bgc [] gcol gcv [] true bw [] weight ws [] false bg _ (sub_ten grad m) _ _ kk (oh * ow) nf Hok Tgc Tw Tsub)
    as (h1 & gv & E1 & W1 & T1 & P1); [done|by rewrite Ew|done|by rewrite !list.Forall_cons|].
  cbn [alpha_of beta_of onto_value] in E1, P1.
  pose proof (ta_ok _ _ _ _ _ _ T1) as Gok. rewrite Egcol in Gok.
  destruct (crop_packed w h ch p k s (mkTensor [oh * ow; kk] gv) Hw Hh Hch Hp Hs Hkw Hkh Hst Hhs Hws
    ltac:(unfold INT_MAX in *; lia) ltac:(unfold INT_MAX in *; lia) Gok eq_refl) as (e & Ee & Se & Ve).
  apply bind_Ok_inv in Ee as (e0 & Ep & Ee).
  assert (Tgs1 : ten_at h1 bgs [] t gs []) by (eapply wrote_ten; [exact W1|apart_in Hsep|done]).
  destruct (ten_sub h1 bgs t w [h; ch] n gs m Tgs1 Egs Hm) as [Est Tst].
  destruct (ten_assign saveto h1 bgs _ _ _ _ w [h; ch] e
    (fun r x => packed_value (w + 2 * p) (h + 2 * p) k s (mkTensor [oh * ow; kk] gv) 0 (r / h) (r mod h + p) (x + p))
    (wr_ok _ _ _ W1) Tst Est (or_intror Se)) as (h2 & sv & E2 & W2 & T2 & P2).
  { intros r x Hr Hx. replace (shape_size [h; ch]) with (ch * h) in Hr by (cbn; ring). split; [|apply gathered_range].
    replace r with (r / h * h + r mod h) at 1 by (pose proof (Z.div_mod r h); lia).
    apply Ve; [|by apply Z.mod_pos_bound|done]. split; [apply Z.div_pos; lia|apply Z.div_lt_upper_bound; lia]. }
  assert (Hsv : Z.of_nat (length sv) = shape_size [w; h; ch]).
  { pose proof (to_length _ (ta_ok _ _ _ _ _ _ T2)) as Hl. rewrite Est in Hl. exact Hl. }
  pose proof (wrote_seq _ _ _ _ _ W1 W2) as W12. simpl app in W12.
  exists h2, (part_before (shape_size [w; h; ch]) m gs ++ sv ++ part_after (shape_size [w; h; ch]) m gs).
  split; [|split; [done|split]].
  - rewrite E1, bind_Ok, (ten_get _ _ _ _ _ _ T1), bind_Ok, Egcol, Ep, bind_Ok, Ee, bind_Ok. exact E2.
  - split; [apply (wr_ok _ _ _ W2)|eapply wrote_ten; [exact W12|apart_in Hsep|done]..| | | |].
    + destruct Tcol as [cv Tcol]. exists cv. eapply wrote_ten; [exact W12|apart_in Hsep|done].
    + exists gv. eapply wrote_ten; [exact W2|apart_in Hsep|done].
    + eapply wrote_ten; [exact W12|apart_in Hsep|done].
    + intros t' Ht'. rewrite Eg in Ht'. injection Ht' as <-. eapply ten_unsub; [exact Tgs1|exact Egs|done|done|exact T2].
  - intros _ m' c y x Hm' Hc Hy Hx. cbv zeta. pose proof (below_mul c y ch h Hc Hy) as Hcy.
    pose proof (ta_ok _ _ _ _ _ _ Tgs1) as [_ _ Hgl]. rewrite Egs in Hgl. cbn [tshape tvals] in Hgl.
    change [w; h; ch; n] with ([w; h; ch] ++ [n]) in Hgl. rewrite shape_size_snoc in Hgl.
    pose proof (elem_replaced w [h; ch] n gs m ltac:(repeat constructor; lia) ltac:(lia) Hm Hgl sv m' (c * h + y) x Hsv Hm') as He.
    replace (shape_size [h; ch]) with (ch * h) in He by (cbn; ring). specialize (He Hcy Hx).
    change (w :: [h; ch] ++ [n]) with [w; h; ch; n] in He.
    replace ((m' * ch + c) * h + y) with (m' * (ch * h) + (c * h + y)) by ring. rewrite He.
    destruct (Z.eqb_spec m' m) as [->|]; [|done].
    rewrite P2; [|replace (shape_size [h; ch]) with (ch * h) by (cbn; ring); done|done]. unfold saveto. rewrite div_pos, mod_pos by done.
    exists (mkTensor [oh * ow; kk] gv). split; [done|]. split; [|done]. intros r j Hr Hj.
    specialize (P1 r j Hr Hj). rewrite Esub, Ew in P1. exact P1.
Qed.

Lemma grad_step hp gw gs m : loop_at hp gw gs -> 0 <= m < n ->
  exists h' gw' gs',
    (forall ms, convolve_grad src col weight grad gcol gweight gsrc [w + 2 * p; h + 2 * p; ch] h w p k s (m :: ms) hp =
       convolve_grad src col weight grad gcol gweight gsrc [w + 2 * p; h + 2 * p; ch] h w p k s ms h') /\
    wrote [bc; bgw; bgc; bgs] hp h' /\ loop_at h' gw' gs' /\
    (forall f r, 0 <= f < nf -> 0 <= r < kk ->
       dot_value (Some (elem (mkTensor [kk; nf] gw) f r)) (weight_products m f r) (elem (mkTensor [kk; nf] gw') f r)) /\
    (gsrc <> None -> forall m' c y x, 0 <= m' < n -> 0 <= c < ch -> 0 <= y < h -> 0 <= x < w ->
      let v := elem (mkTensor [w; h; ch; n] gs') ((m' * ch + c) * h + y) x in
      if m' =? m then pixel_gradient m c y x v else v = elem (mkTensor [w; h; ch; n] gs) ((m' * ch + c) * h + y) x).
Proof using Hw Hh Hch Hn Hp Hs Hkw Hkh Hst Hhs Hws Hnf Hrows Hcols Esrc Ecol Ew Egrad Egcol Egw Egs Hsep.
  intros [Hok Tsrc Tw Tg [cv Tcol] Tgc Tgw Tgs] Hm.
  destruct (ten_sub hp bs src w [h; ch] n vs m Tsrc Esrc Hm) as [Eimg Timg].
  pose proof (ta_ok _ _ _ _ _ _ Timg) as Iok. rewrite Eimg in Iok.
  destruct (unpack_padded (image w h ch vs m) w h ch p k s Iok eq_refl Hp Hs Hkw Hkh ltac:(lia) ltac:(unfold INT_MAX in *; lia)
    ltac:(unfold INT_MAX in *; lia)) as (e & Ee & Se & Ve).
  destruct (ten_assign saveto hp bc [] col cv [] (oh * ow) [kk] e (patch (image w h ch vs m) w h p k s ow) Hok Tcol Ecol (or_intror Se))
    as (h1 & cv' & E1 & W1 & T1 & P1).
  { intros r j Hr Hj. replace (shape_size [kk]) with kk in Hr by (cbn; lia). split; [by apply Ve|].
    apply pixel_range. eapply ten_f32. exact Timg. }
  assert (Tg1 : ten_at h1 bg [] grad os []) by (eapply wrote_ten; [exact W1|apart_in Hsep|done]).
  destruct (ten_sub h1 bg grad (oh * ow) [nf] n os m Tg1 Egrad Hm) as [Esub Tsub].
  assert (Tgw1 : ten_at h1 bgw [] gweight gw []) by (eapply wrote_ten; [exact W1|apart_in Hsep|done]).
  destruct (ten_assign_dot plus h1 bgw [] gweight gw [] false bg _ (sub_ten grad m) _ _ true bc [] col cv' [] nf kk (oh * ow)
    (wr_ok _ _ _ W1) Tgw1 Tsub T1) as (h2 & gw' & E2 & W2 & T2 & P2); [done..|by rewrite !list.Forall_cons|].
  cbn [alpha_of beta_of onto_value] in E2, P2.
  pose proof (wrote_seq _ _ _ _ _ W1 W2) as W12. simpl app in W12.
  destruct (source_step h2 gw' gs m) as (h3 & gs' & E3 & W3 & L3 & P3); [|done|].
  { split; [apply (wr_ok _ _ _ W2)|eapply wrote_ten; [exact W12|apart_in Hsep|done]..| | |exact T2|].
    - exists cv'. eapply wrote_ten; [exact W2|apart_in Hsep|done].
    - destruct Tgc as [gcv Tgc]. exists gcv. eapply wrote_ten; [exact W12|apart_in Hsep|done].
    - intros t Ht. eapply wrote_ten; [exact W12|apart_in Hsep|by apply Tgs]. }
  exists h3, gw', gs'. split; [|split; [exact (wrote_seq _ _ _ _ _ W12 W3)|split; [exact L3|split; [|exact P3]]]].
  - intros ms. cbn [convolve_grad]. unfold patches. rewrite (ten_get _ _ _ _ _ _ Timg), bind_Ok, Eimg.
    change (mkTensor [w; h; ch] _) with (image w h ch vs m). rewrite Ee, bind_Ok, E1, bind_Ok, E2, bind_Ok, E3, bind_Ok. done.
  - intros f r Hf Hr. specialize (P2 f r Hf Hr). rewrite Esub, Ecol in P2. unfold products, mat in P2. unfold weight_products.
    erewrite map_ext_in; [exact P2|]. intros j Hj. apply list_elem_of_In, elem_of_between in Hj. cbv beta.
    rewrite P1; [done| |done]. cbn. lia.
Qed.

Lemma convolve_grad_Ok ms : forall hp gw gs, NoDup ms -> Forall (fun m => 0 <= m < n) ms -> loop_at hp gw gs ->
  exists h' gw' gs', convolve_grad src col weight grad gcol gweight gsrc [w + 2 * p; h + 2 * p; ch] h w p k s ms hp = Ok h' /\
    wrote [bc; bgw; bgc; bgs] hp h' /\ loop_at h' gw' gs' /\
    (forall f r, 0 <= f < nf -> 0 <= r < kk ->
       dot_chain (elem (mkTensor [kk; nf] gw) f r) (map (fun m => weight_products m f r) ms) (elem (mkTensor [kk; nf] gw') f r)) /\
    (gsrc <> None -> forall m c y x, 0 <= m < n -> 0 <= c < ch -> 0 <= y < h -> 0 <= x < w ->
      let v := elem (mkTensor [w; h; ch; n] gs') ((m * ch + c) * h + y) x in
      (m ∈ ms -> pixel_gradient m c y x v) /\
      (m ∉ ms -> v = elem (mkTensor [w; h; ch; n] gs) ((m * ch + c) * h + y) x)).
Proof using Hw Hh Hch Hn Hp Hs Hkw Hkh Hst Hhs Hws Hnf Hrows Hcols Esrc Ecol Ew Egrad Egcol Egw Egs Hsep.
  induction ms as [|m ms IH]; intros hp gw gs Hnd Hms HL.
  { exists hp, gw, gs. split; [done|]. split; [apply wrote_refl, (la_ok _ _ _ HL)|]. split; [done|]. split; [intros; constructor|].
    intros _ m c y x _ _ _ _. split; [by intros ?%elem_of_nil|done]. }
  apply list.NoDup_cons in Hnd as [Hnm Hnd]. apply list.Forall_cons in Hms as [Hm Hms].
  destruct (grad_step hp gw gs m HL Hm) as (h1 & gw1 & gs1 & E1 & W1 & L1 & P1 & S1).
  destruct (IH h1 gw1 gs1 Hnd Hms L1) as (h2 & gw2 & gs2 & E2 & W2 & L2 & P2 & S2).
  exists h2, gw2, gs2. split; [by rewrite E1|]. split; [by eapply wrote_trans|]. split; [done|]. split.
  - intros f r Hf Hr. simpl. econstructor; [by apply P1|by apply P2].
  - intros Hg m' c y x Hm' Hc Hy Hx. cbv zeta. destruct (S2 Hg m' c y x Hm' Hc Hy Hx) as [Pin Pout].
    specialize (S1 Hg m' c y x Hm' Hc Hy Hx). cbv zeta in *. rewrite elem_of_cons. split.
    + intros [->|Hin]; [|by apply Pin]. rewrite Z.eqb_refl in S1. by rewrite Pout.
    + intros Hno. rewrite Pout by tauto. rewrite (proj2 (Z.eqb_neq m' m)) in S1 by tauto. done.
Qed.
End gradient.

(** ** The gradient of the bias *)

(** The sum of the gradients of filter [f], image by image. *)
Definition channel_sum (t : tensor) (q nf n f : Z) : Z :=
  f32_mul (fold_left (fun acc m =>
      f32_add acc (fold_left (fun acc j => f32_add acc (elem t (m * nf + f) j)) (between 0 q) 0)) (between 0 n) 0) f32_one.
Lemma ten_sum_channels h bp t ws bg g gv q nf n :
  heap_ok h -> ten_at h bp [] t ws [] -> ten_at h bg [] g gv [] -> tenshape t = [nf] -> tenshape g = [q; nf; n] ->
  exists h' vs, (gt ← get g h; d ← get t h; d ← MapReduceKeepDim1 saveto red_sum d (tensor_exp gt) f32_one; put t d h) = Ok h' /\
    wrote [bp] h h' /\ ten_at h' bp [] t vs [] /\
    forall f, 0 <= f < nf -> row vs f = channel_sum (mkTensor [q; nf; n] gv) q nf n f.
Proof.
  intros Hok Ht Hg Et Eg. pose proof (ta_ok _ _ _ _ _ _ Ht) as Tok. rewrite Et in Tok.
  pose proof (ta_ok _ _ _ _ _ _ Hg) as Gok. rewrite Eg in Gok.
  destruct (tensor_dims _ q nf [n] Gok eq_refl) as (Hq & Hnf & Hn & Hnn & _). pose proof (to_length _ Tok) as Tl. simpl in Tl.
  replace (shape_size [nf]) with nf in Tl by (cbn; lia). replace (shape_size [n]) with n in Hn, Hnn by (cbn; lia).
  set (vs := map (channel_sum (mkTensor [q; nf; n] gv) q nf n) (between 0 nf)).
  assert (Hlen : length vs = length ws) by (unfold vs; rewrite length_map, length_between; lia).
  assert (Hf : Forall is_f32 vs).
  { apply list.Forall_forall. intros v Hv. apply list_elem_of_In, in_map_iff in Hv as (x & <- & _). apply f32_mul_range. }
  destruct (ten_put h bp [] t ws [] vs Hok Ht Hlen Hf) as (h' & Ep & Hwr & Ht').
  exists h', vs. split; [|split; [done|split; [done|]]].
  - rewrite (ten_get _ _ _ _ _ _ Hg), bind_Ok, (ten_get _ _ _ _ _ _ Ht), bind_Ok, Et, Eg.
    unfold MapReduceKeepDim1, Assert. cbn [eshape tensor_exp tshape]. change (dim [q; nf; n] 0) with q. change (dim [q; nf; n] 1) with nf.
    change (dim [nf] 0) with nf. change (drop 2 [q; nf; n]) with [n]. rewrite Z.eqb_refl. cbn [CHECK mbind outcome_bind].
    assert (Hr : ProdShape [n] = n).
    { rewrite ProdShape_small; [cbn; lia|by repeat constructor|cbn; nia]. }
    rewrite Hr. rewrite (map_out_Ok _ (channel_sum (mkTensor [q; nf; n] gv) q nf n)).
    + rewrite bind_Ok. fold vs. unfold save_all. cbn [tvals tshape]. rewrite decide_True by lia.
      rewrite drop_ge, app_nil_r, zip_saveto, bind_Ok by lia. rewrite <- Et. done.
    + intros f Hf'. apply elem_of_between in Hf'. unfold channel_sum.
      rewrite (fold_out_Ok _ (fun acc m => f32_add acc (fold_left (fun acc j => f32_add acc (elem (mkTensor [q; nf; n] gv) (m * nf + f) j)) (between 0 q) 0)));
        [done|].
      intros acc m Hm. apply elem_of_between in Hm. pose proof (below_mul m f n nf Hm Hf') as Hb. assert (0 <= m * nf) by nia.
      rewrite umul_small by nia. rewrite uadd_small by nia.
      rewrite (fold_out_Ok _ (fun acc j => f32_add acc (elem (mkTensor [q; nf; n] gv) (m * nf + f) j))); [done|].
      intros acc' j Hj. apply elem_of_between in Hj.
      assert (Hmf : 0 <= m * nf + f < shape_size [nf; n]) by (replace (shape_size [nf; n]) with (n * nf) by (cbn; ring); done).
      exact (f_equal (fun o => v ← o; Ok (f32_add acc' v)) (tensor_eval _ q nf [n] (m * nf + f) j Gok eq_refl Hmf Hj)).
  - intros x Hx. unfold row. apply nth_lookup_Some. unfold vs. change (map ?g ?l) with (g <$> l).
    pose proof (between_lookup 0 nf x) as Hb. rewrite list_lookup_fmap, Hb by lia. done.
Qed.

(** ** The layer *)

(** A blob without memory shares none. *)
Lemma apart_none p bp : apart Blob_new p bp.
Proof. intros a Ha. unfold sizeof_float in Ha. simpl in Ha. lia. Qed.
Lemma outside_none a : outside a (Blob_new, 0).
Proof. unfold outside, sizeof_float. simpl. lia. Qed.
Lemma wrote_none l h h' : wrote (l ++ [(Blob_new, 0)]) h h' -> wrote l h h'.
Proof.
  intros [Hok Hs Hc Hb]. split; try done. intros a Ha. apply Hc. apply Forall_app. split; [done|].
  constructor; [apply outside_none|constructor].
Qed.
Lemma separate_none l : separate l -> separate (l ++ [(Blob_new, 0)]).
Proof.
  induction l as [|x l IH]; simpl; [by repeat constructor|]. rewrite !separate_cons, Forall_app. intros [Hx Hl].
  split; [|by apply IH]. split; [done|]. constructor; [|constructor]. destruct x as [b q].
  split; [apply apart_sym, apart_none|apply apart_none].
Qed.
Definition source_blob (gopt : option Blob) (gp : Z) : list (Blob * Z) :=
  match gopt with Some g => [(g, gp)] | None => [] end.

(** The pointer and the shape of the gradient of the source. *)
Lemma gsrc_tensor h gopt gp n ch h_ w gs :
  (forall g, gopt = Some g -> image_at h g gp [n; ch; h_; w] gs) ->
  exists gsrc, (match gopt with
    | Some b => '(h, p) ← mutable_cpu_data b h; Ok (h, Some (mkTen p [w; h_; ch; n]))
    | None => Ok (h, None)
    end) = Ok (h, gsrc) /\
    (forall t, gsrc = Some t -> tenshape t = [w; h_; ch; n] /\ exists g, gopt = Some g /\ t = mkTen gp [w; h_; ch; n] /\
       ten_at h (g, gp) [] t gs []) /\ (gopt <> None -> gsrc <> None).
Proof.
  intros Hg. destruct gopt as [g|]; [|by exists None]. specialize (Hg g eq_refl).
  destruct (at_cpu_data _ _ _ _ (im_at _ _ _ _ _ Hg)) as [_ ->]. rewrite bind_Ok. eexists. split; [done|]. split; [|done].
  intros t [= <-]. split; [done|]. exists g. split; [done|]. split; [done|]. pose proof (im_pos _ _ _ _ _ Hg) as Hp.
  rewrite !list.Forall_cons in Hp. eapply image_part; [exact Hg|cbn; ring|repeat constructor; tauto].
Qed.

(** The steps of the method, when the pointers and the parts of the computation are known. *)
Lemma gradient_run `{B : Blas} i s o k p st nf n ch h w c1 c2 c3 c4 wi bi cb gcb sb wb gw gb gopt src col weight grad gcol gweight gbias gsrc h1 h2 h3 :
  objs s !! i = Some o -> osub o = ConvolutionSub k p st nf n ch h w c1 c2 c3 c4 cb gcb wi bi ->
  src_mutable i 0 kPositive s = Ok sb -> Tensor4 sb (nheap s) = Ok (nheap s, src) -> Tensor2 cb (nheap s) = Ok (nheap s, col) ->
  param_data wi s (nheap s) = Ok wb -> Tensor2 wb (nheap s) = Ok (nheap s, weight) ->
  Tensor3 (ograd o) (nheap s) = Ok (nheap s, grad) -> Tensor2 gcb (nheap s) = Ok (nheap s, gcol) ->
  param_grad wi s = Ok gw -> Tensor2 gw (nheap s) = Ok (nheap s, gweight) ->
  param_grad bi s = Ok gb -> Tensor1 gb (nheap s) = Ok (nheap s, gbias) -> src_mutable_grad i 0 s = Ok gopt ->
  0 <= p -> 0 < k <= w + 2 * p -> k <= h + 2 * p -> (w + 2 * p) * (h + 2 * p) * ch < 2 ^ 32 ->
  Forall (fun d => 0 < d) [n; ch; h; w] -> shape_size [n; ch; h; w] <= INT_MAX ->
  (match gopt with
   | Some b => '(hp, q) ← mutable_cpu_data b (nheap s); Ok (hp, Some (mkTen q [w; h; ch; n]))
   | None => Ok (nheap s, None)
   end) = Ok (nheap s, gsrc) ->
  (gt ← get grad (nheap s); d ← get gbias (nheap s); d ← MapReduceKeepDim1 saveto red_sum d (tensor_exp gt) f32_one; put gbias d (nheap s)) = Ok h1 ->
  assign saveto gweight (ScalarExp 0) h1 = Ok h2 ->
  convolve_grad src col weight grad gcol gweight gsrc [w + 2 * p; h + 2 * p; ch] h w p k st (upto n) h2 = Ok h3 ->
  Convolution_ComputeGradient i s = Ok (set_nheap h3 s).
Proof.
  intros Ho Hsub Hsrc Es Ec Hwb Ew Eo Egc Hgw Egw Hgb Egb Hgrad Hp Hkw Hkh Hsize Hpos Hint Egs E1 E2 E3.
  unfold Convolution_ComputeGradient. rewrite (obj_Ok _ _ _ Ho), bind_Ok, Hsub, Hsrc, bind_Ok.
  rewrite Es, bind_Ok, Ec, bind_Ok, Hwb, bind_Ok, Ew, bind_Ok, Eo, bind_Ok, Egc, bind_Ok, Hgw, bind_Ok, Egw, bind_Ok.
  rewrite Hgb, bind_Ok, Egb, bind_Ok, Hgrad, bind_Ok, (map_u32_dims [n; ch; h; w] Hpos Hint : map u32 [w; h; ch; n] = _).
  simpl rev. rewrite Egs, bind_Ok.
  apply bind_Ok_inv in E1 as (gt & Eg1 & E1). apply bind_Ok_inv in E1 as (d & Ed & E1). apply bind_Ok_inv in E1 as (d' & Ed' & E1).
  rewrite Eg1, bind_Ok, Ed, bind_Ok, Ed', bind_Ok, E1, bind_Ok, E2, bind_Ok.
  rewrite !list.Forall_cons in Hpos. destruct Hpos as (Hn & Hch & Hh & Hw & _).
  assert (Hp2 : 2 * p <= INT_MAX) by (unfold INT_MAX; nia). unfold imul. rewrite int_ret_Ok, bind_Ok by (unfold INT_MIN in *; lia).
  change (dim [w; h; ch; n] 0) with w. change (dim [w; h; ch; n] 1) with h. change (dim [w; h; ch; n] 2) with ch.
  assert (Hww : w + 2 * p < 2 ^ 32) by (clear Hint; assert (0 < (h + 2 * p) * ch) by nia; nia).
  assert (Hhh : h + 2 * p < 2 ^ 32) by (clear Hint; assert (0 < (w + 2 * p) * ch) by nia; nia).
  unfold INT_MAX in Hp2. rewrite (u32_small (2 * p)), !uadd_small by lia. rewrite E3, bind_Ok. done.
Qed.

Section spec.
Context `{L : BlasLaws}.

(** C15. The convolution layer backwards.  With blobs of the shapes [Setup] gives them, none of which share
    memory, [ComputeGradient] returns and writes nothing but the layer's two buffers of columns, [col_data_]
    and [col_grad_], which it overwrites, and the gradients of the bias, the weights and the source.  The
    bias of a filter gets the sum of its gradients.  The weight [(f, r)] starts from 0 and gets,
    image by image, the products of pixel [r] of each patch and the gradient of filter [f] in its
    window.  Each pixel of the source, when it has a gradient, gets the sum over exactly the
    windows it lies in of the products of the filters' gradients and the weights over it. *)
Theorem Convolution_ComputeGradient_spec (i : Z) (s : nstate) (o : LayerObj)
    (k p st nf n ch h w c1 c2 c3 c4 wi bi : Z) (cb gcb sb wb gw gb : Blob) (gopt : option Blob)
    (sp cp gcp wp gwp gbp gp op : Z) (vs cs gcs ws os gws gbs gs : list Z)
    (Hok : heap_ok (nheap s)) (Ho : objs s !! i = Some o)
    (Hsub : osub o = ConvolutionSub k p st nf n ch h w c1 c2 c3 c4 cb gcb wi bi)
    (Hsrc : src_mutable i 0 kPositive s = Ok sb) (Hgrad : src_mutable_grad i 0 s = Ok gopt)
    (Hwb : param_data wi s (nheap s) = Ok wb) (Hgw : param_grad wi s = Ok gw) (Hgb : param_grad bi s = Ok gb)
    (Hp : 0 <= p) (Hsize : (w + 2 * p) * (h + 2 * p) * ch < 2 ^ 32) (Hkw : 0 < k <= w + 2 * p) (Hkh : k <= h + 2 * p)
    (Hst : 0 < st) (Hhs : h + 2 * p + st < 2 ^ 32) (Hws : w + 2 * p + st < 2 ^ 32) :
  let oh := windows (h + 2 * p) k st in
  let ow := windows (w + 2 * p) k st in
  image_at (nheap s) sb sp [n; ch; h; w] vs -> image_at (nheap s) (ograd o) op [n; nf; oh; ow] os ->
  image_at (nheap s) cb cp [k * k * ch; oh * ow] cs -> image_at (nheap s) gcb gcp [k * k * ch; oh * ow] gcs ->
  image_at (nheap s) wb wp [nf; k * k * ch] ws -> image_at (nheap s) gw gwp [nf; k * k * ch] gws ->
  image_at (nheap s) gb gbp [nf] gbs -> (forall g, gopt = Some g -> image_at (nheap s) g gp [n; ch; h; w] gs) ->
  separate ([(sb, sp); (cb, cp); (wb, wp); (ograd o, op); (gcb, gcp); (gw, gwp); (gb, gbp)] ++ source_blob gopt gp) ->
  exists h' gws' gbs' gs', Convolution_ComputeGradient i s = Ok (set_nheap h' s) /\
    wrote ([(gb, gbp); (cb, cp); (gw, gwp); (gcb, gcp)] ++ source_blob gopt gp) (nheap s) h' /\
    (image_at h' gb gbp [nf] gbs' /\
     forall f, 0 <= f < nf -> row gbs' f = channel_sum (mkTensor [oh * ow; nf; n] os) (oh * ow) nf n f) /\
    (image_at h' gw gwp [nf; k * k * ch] gws' /\
     forall f r, 0 <= f < nf -> 0 <= r < k * k * ch ->
       dot_chain 0 (map (fun m => weight_products w h ch p k st nf vs os m f r) (upto n))
         (elem (mkTensor [k * k * ch; nf] gws') f r)) /\
    forall g, gopt = Some g -> image_at h' g gp [n; ch; h; w] gs' /\
      forall m c y x, 0 <= m < n -> 0 <= c < ch -> 0 <= y < h -> 0 <= x < w ->
        pixel_gradient w h ch p k st nf ws os m c y x (elem (mkTensor [w; h; ch; n] gs') ((m * ch + c) * h + y) x).
Proof.
  intros oh ow Hvs Hos Hcs Hgcs Hwsi Hgws Hgbs Hgs Hsep.
  pose proof (image_Tensor4 _ _ _ _ _ _ _ _ Hvs) as Es. destruct (image_Tensor3 _ _ _ _ _ _ _ Hos) as [Eo To].
  destruct (image_Tensor2 _ _ _ _ _ _ Hcs) as [Ec Tc]. destruct (image_Tensor2 _ _ _ _ _ _ Hgcs) as [Egc Tgc].
  destruct (image_Tensor2 _ _ _ _ _ _ Hwsi) as [Ew Tw]. destruct (image_Tensor2 _ _ _ _ _ _ Hgws) as [Egw Tgw].
  destruct (image_Tensor1 _ _ _ _ _ Hgbs) as [Egb Tgb].
  destruct (conv_sizes _ _ _ _ _ _ _ _ _ _ _ _ _ _ _ _ _ Hvs Hcs Hwsi) as ((Hn & Hch & Hh & Hw) & Hkk & Hq & Hnf & Ts).
  rewrite size_2 in *. replace (shape_size [oh * ow]) with (oh * ow) in * by (cbn; lia).
  replace (shape_size [k * k * ch]) with (k * k * ch) in * by (cbn; lia).
  destruct (gsrc_tensor _ _ _ _ _ _ _ _ Hgs) as (gsrc & Egs & Tgs & Hgsrc).
  set (bgs := match gopt with Some g => (g, gp) | None => (Blob_new, 0) end).
  assert (Hsep' : separate [(sb, sp); (cb, cp); (wb, wp); (ograd o, op); (gcb, gcp); (gw, gwp); (gb, gbp); bgs]).
  { destruct gopt; [exact Hsep|]. unfold source_blob in Hsep. rewrite app_nil_r in Hsep. exact (separate_none _ Hsep). }
  destruct (ten_sum_channels (nheap s) (gb, gbp) (mkTen gbp [nf]) gbs (ograd o, op) (mkTen op [oh * ow; nf; n]) os (oh * ow) nf n
    Hok Tgb To eq_refl eq_refl) as (h1 & bv & E1 & W1 & T1 & P1).
  destruct (ten_assign saveto h1 (gw, gwp) [] (mkTen gwp [k * k * ch; nf]) gws [] (k * k * ch) [nf] (ScalarExp 0) (fun _ _ => 0)
    (wr_ok _ _ _ W1)) as (h2 & wv & E2 & W2 & T2 & P2);
    [eapply wrote_ten; [exact W1|apart_in Hsep'|done]|done|by left|intros; split; [done|unfold saveto, is_f32; lia]|].
  pose proof (wrote_seq _ _ _ _ _ W1 W2) as W12. simpl app in W12.
  destruct (convolve_grad_Ok w h ch n p k st nf vs ws os ltac:(lia) ltac:(lia) ltac:(lia) ltac:(lia) Hp Hsize Hkw Hkh Hst Hhs Hws Hnf Hkk Hq
    (mkTen sp [w; h; ch; n]) (mkTen cp [oh * ow; k * k * ch]) (mkTen wp [k * k * ch; nf]) (mkTen op [oh * ow; nf; n])
    (mkTen gcp [oh * ow; k * k * ch]) (mkTen gwp [k * k * ch; nf]) gsrc
    (sb, sp) (cb, cp) (wb, wp) (ograd o, op) (gcb, gcp) (gw, gwp) bgs eq_refl eq_refl eq_refl eq_refl eq_refl eq_refl
    ltac:(intros t Ht; apply (Tgs t Ht)) (separate_drop [_; _; _; _; _; _] _ [_] Hsep')
    (upto n) h2 wv gs (NoDup_upto n)) as (h3 & wv' & gs' & E3 & W3 & L3 & P3 & S3).
  { apply list.Forall_forall. intros m Hm. by apply elem_of_upto. }
  { split; [apply (wr_ok _ _ _ W2)|eapply wrote_ten; [exact W12|apart_in Hsep'|done]..| | |exact T2|].
    - exists cs. eapply wrote_ten; [exact W12|apart_in Hsep'|done].
    - exists gcs. eapply wrote_ten; [exact W12|apart_in Hsep'|done].
    - intros t Ht. destruct (Tgs t Ht) as (_ & g & -> & -> & Tg). subst bgs. eapply wrote_ten; [exact W12|apart_in Hsep'|done]. }
  exists h3, wv', bv, gs'. split; [|split; [|split; [|split]]].
  - eapply gradient_run; [done..|exact (im_pos _ _ _ _ _ Hvs)|exact (im_int _ _ _ _ _ Hvs)|exact Egs|exact E1|exact E2|exact E3].
  - assert (W : wrote ([(gb, gbp); (cb, cp); (gw, gwp); (gcb, gcp)] ++ [bgs]) (nheap s) h3).
    { eapply wrote_trans; [eapply wrote_mono; [exact W12|]|eapply wrote_mono; [exact W3|]]; 
        intros x; simpl app; rewrite !elem_of_cons, ?elem_of_nil; tauto. }
    destruct gopt; [exact W|]. unfold source_blob. rewrite app_nil_r. by apply wrote_none.
  - split; [|exact P1]. eapply part_image; [exact Hgbs| |done].
    eapply wrote_ten; [exact W3|apart_in Hsep'|]. eapply wrote_ten; [exact W2|apart_in Hsep'|exact T1].
  - split; [eapply part_image; [exact Hgws|eapply la_gweight; exact L3|rewrite !size_2; ring]|].
    intros f r Hf Hr. specialize (P3 f r Hf Hr). rewrite P2 in P3; [exact P3|cbn; lia|done].
  - intros g Hg. specialize (Hgs g Hg). assert (Hne : gsrc <> None) by (apply Hgsrc; by rewrite Hg).
    destruct gsrc as [t|] eqn:Et; [|done]. destruct (Tgs t eq_refl) as (_ & g' & Hg' & -> & _). split.
    + assert (Tg : ten_at h3 bgs [] (mkTen gp [w; h; ch; n]) gs' []) by (eapply la_gsrc; [exact L3|done]). subst bgs. rewrite Hg in Tg.
      eapply part_image; [exact Hgs|exact Tg|cbn; ring].
    + intros m c y x Hm Hc Hy Hx. destruct (S3 ltac:(done) m c y x Hm Hc Hy Hx) as [Pin _]. apply Pin. by apply elem_of_upto.
Qed.
End spec.

(** ** Witness: an image of 2 by 2 pixels with a border of one, windows of 2 by 2 that do not overlap *)
Import TextbookBlas.
Module ConvolutionGradDemo.
Definition floats : list Z -> list Z := map f32_of_Z.
Definition heap0 : heap :=
  with_blobs {[10 := full_blob 2 [1; 4]]}
    (packed (floats [1; 2; 3; 4] ++ replicate 16 0 ++ floats [1; 10; 100; 1000] ++ floats [1; 2; 3; 4] ++
             replicate 16 0 ++ replicate 4 0 ++ [0] ++ replicate 4 0)
      {[0 := mkSM 1 16 HEAD_AT_CPU true; 1 := mkSM 17 64 HEAD_AT_CPU true; 2 := mkSM 81 16 HEAD_AT_CPU true;
        3 := mkSM 97 16 HEAD_AT_CPU true; 4 := mkSM 113 64 HEAD_AT_CPU true; 5 := mkSM 177 16 HEAD_AT_CPU true;
        6 := mkSM 193 4 HEAD_AT_CPU true; 7 := mkSM 197 16 HEAD_AT_CPU true]} 12).
Definition layer : LayerObj :=
  set_sub (ConvolutionSub 2 1 2 1 1 1 2 2 2 2 4 4 (full_blob 1 [4; 4]) (full_blob 4 [4; 4]) 0 1)
    (set_grad (full_blob 3 [1; 1; 2; 2]) (set_srcs [0] (LayerObj_new kConvolution))).
Definition state : nstate :=
  mkNS {[0 := set_grad (full_blob 7 [1; 1; 2; 2]) (set_data (full_blob 0 [1; 1; 2; 2]) (LayerObj_new kTanh)); 1 := layer]} 2
    (mkWorld heap0 {[0 := param_of 10 (full_blob 5 [1; 4]); 1 := param_of 11 (full_blob 6 [1])]} 2 ∅).
Lemma conv_grad_heap_ok : heap_ok heap0.
Proof. apply with_blobs_ok; [apply packed_ok|]; by apply (bool_decide_unpack _). Qed.
End ConvolutionGradDemo.
(** The first pixel lies in the first window, below its last weight. *)
Lemma Convolution_ComputeGradient_witness : exists h' gbs gs,
  Convolution_ComputeGradient 1 ConvolutionGradDemo.state = Ok (set_nheap h' ConvolutionGradDemo.state) /\
  row gbs 0 = f32_of_Z 10 /\ elem (mkTensor [2; 2; 1; 1] gs) 0 0 = f32_of_Z 1000.
Proof.
  destruct (Convolution_ComputeGradient_spec 1 ConvolutionGradDemo.state ConvolutionGradDemo.layer 2 1 2 1 1 1 2 2 2 2 4 4 0 1
    (full_blob 1 [4; 4]) (full_blob 4 [4; 4]) (full_blob 0 [1; 1; 2; 2]) (full_blob 2 [1; 4]) (full_blob 5 [1; 4]) (full_blob 6 [1])
    (Some (full_blob 7 [1; 1; 2; 2])) 1 17 113 81 177 193 197 97 (ConvolutionGradDemo.floats [1; 2; 3; 4]) (replicate 16 0)
    (replicate 16 0) (ConvolutionGradDemo.floats [1; 10; 100; 1000]) (ConvolutionGradDemo.floats [1; 2; 3; 4]) (replicate 4 0) [0]
    (replicate 4 0)) as (h' & gws & gbs & gs & E & _ & (_ & Hb) & _ & Hg);
    [exact ConvolutionGradDemo.conv_grad_heap_ok|reflexivity|reflexivity|vm_compute; reflexivity|vm_compute; reflexivity|reflexivity|reflexivity|
     reflexivity|lia|vm_compute; reflexivity|lia|lia|lia|vm_compute; reflexivity|vm_compute; reflexivity|
     concrete_image 0|concrete_image 3|concrete_image 1|concrete_image 4|concrete_image 2|concrete_image 5|concrete_image 6|
     intros g [= <-]; concrete_image 7|concrete_apart|].
  exists h', gbs, gs. split; [exact E|]. split; [refine (eq_trans (Hb 0 _) _); [lia|vm_compute; reflexivity]|].
  destruct (Hg _ eq_refl) as [_ Hpix]. destruct (Hpix 0 0 0 0 ltac:(lia) ltac:(lia) ltac:(lia) ltac:(lia)) as (g & Eg & Hdot & Ev).
  refine (eq_trans Ev _). pose proof (Hdot 3 0 ltac:(lia) ltac:(vm_compute; split; [discriminate|reflexivity])) as Hv.
  change (f32_add 0 (elem g 3 0) = f32_of_Z 1000). simpl in Hv. rewrite Hv. vm_compute. reflexivity.
Defined.
