(* ===== verification/LayerIO.v ===== *)
(** * neuralnet/layer.cc: losses, inputs, outputs and prefetching

    The layers at the ends of the net: the loss with its accuracy, the output of the best
    labels, the image parser with crops and mirrors, the input read from a file, the layer that
    parses in a thread, and the extraction of params.  [rand()] takes its results from a
    list. *)

From Stdlib Require Import SpecFloat.
From S2P Require Import Prelude Float32 Metric Msg Format Memory Param Server Worker LayerConf Layers LayerCompute Mshadow LayerMath.

(** ** The best labels *)

(** [std::greater] of pairs *)
Definition pair_ltb (a b : Z * Z) : bool := f32_ltb a.1 b.1 || (negb (f32_ltb b.1 a.1) && (a.2 <? b.2)).
Definition greater (a b : Z * Z) : bool := pair_ltb b a.
Fixpoint insert_sorted (x : Z * Z) (l : list (Z * Z)) : list (Z * Z) :=
  match l with
  | [] => [x]
  | y :: l => if greater x y then x :: y :: l else y :: insert_sorted x l
  end.
Definition is_nan (a : Z) : bool := negb (f32_eqb a a).
(** The first [k] elements after [std::partial_sort]: [greater] is no ordering of NaNs. *)
Definition partial_sort (k : Z) (l : list (Z * Z)) : outcome (list (Z * Z)) :=
  if (0 <=? k) && (k <=? Z.of_nat (length l)) && negb (existsb (fun p => is_nan p.1) l)
  then Ok (take (Z.to_nat k) (foldr insert_sorted [] l))
  else Undef.
Definition probvec (prob : list Z) (n dim : Z) : outcome (list (Z * Z)) :=
  map_out (fun j => v ← idx prob (n * dim + j); Ok (v, j)) (upto dim).

Section layers.
Context `{M : Mathf}.

(** [Tensor<cpu,2>(b->mutable_cpu_data(), Shape2(batchsize_, dim_))] of the layer's own and its
    source's data, and [Softmax(prob, src)]; the new values. *)
Definition softmax_data (i batchsize_ dim_ : Z) (s : nstate) : outcome (heap * list Z) :=
  o ← obj i s;
  '(h, prob) ← make_ten (odata o) [batchsize_; dim_] (nheap s);
  sb ← src_mutable i 0 kPositive s; '(h, src) ← make_ten sb [batchsize_; dim_] h;
  d ← get prob h; v ← get src h;
  d ← Softmax d v;
  h ← put prob d h;
  Ok (h, tvals d).

(** ** SoftmaxLossLayer *)
Definition FLT_MIN : Z := 0x00800000.
Definition loss_step (prob labels : list Z) (dim_ topk_ : Z) (acc : Z * Z) (n : Z) : outcome (Z * Z) :=
  let '(loss, precision) := acc in
  l ← idx labels n;
  ilabel ← f32_to_int l;
  _ ← CHECK (ilabel <? 278);
  _ ← CHECK (0 <=? ilabel);
  prob_of_truth ← idx prob (n * dim_ + ilabel);
  let loss := f32_of_f64 (f64_sub (f64_of_f32 loss) (log_ (f32_max prob_of_truth FLT_MIN))) in
  vec ← probvec prob n dim_;
  top ← partial_sort topk_ vec;
  Ok (loss, if existsb (fun p => p.2 =? ilabel) top then f32_add precision f32_one else precision).
Definition SoftmaxLoss_ComputeFeature (i : Z) (perf : Metric) (s : nstate) : outcome (nstate * Metric) :=
  o ← obj i s;
  match osub o with
  | LossSub batchsize_ dim_ topk_ scale_ _ =>
      '(h, prob) ← softmax_data i batchsize_ dim_ s;
      lb ← src_data i 1 kPositive s;
      '(h, label) ← cpu_data lb h;
      bytes ← load h label (sizeof_float * batchsize_);
      '(loss, precision) ← fold_out (loss_step prob (f32s_of_bytes bytes) dim_ topk_) (upto batchsize_) (0, 0);
      _ ← CHECK (Z.max 0 batchsize_ * dim_ =? u32 batchsize_ * u32 dim_);
      let mean x := f32_div (f32_mul x scale_) (f32_mul f32_one (f32_of_Z batchsize_)) in
      perf ← Metric_Add "loss" (mean loss) perf;
      perf ← Metric_Add "accuracy" (mean precision) perf;
      Ok (set_nheap h s, perf)
  | _ => Undef
  end.

(** ** OutputLayer: what is written to the file, before it is formatted *)
Inductive written := Prob (label prob : Z) | Done.
Definition output_step (prob : list Z) (dim_ topk_ : Z) (out : list written) (n : Z) : outcome (list written) :=
  vec ← probvec prob n dim_;
  top ← partial_sort topk_ vec;
  Ok (out ++ map (fun p => Prob p.2 p.1) top ++ [Done]).
Definition Output_ComputeFeature (i : Z) (s : nstate) : outcome (nstate * list written) :=
  o ← obj i s;
  match osub o with
  | LossSub batchsize_ dim_ topk_ _ _ =>
      '(h, prob) ← softmax_data i batchsize_ dim_ s;
      out ← fold_out (output_step prob dim_ topk_) (upto batchsize_) [];
      _ ← CHECK (Z.max 0 batchsize_ * dim_ =? u32 batchsize_ * u32 dim_);
      Ok (set_nheap h s, out)
  | _ => Undef
  end.
End layers.

(** ** InputLayer: what [stat] and the file give at each poll *)
Fixpoint Input_ComputeFeature `{F : Files} (polls : list (option (list Z))) (i : Z) (s : nstate) : outcome nstate :=
  match polls with
  | [] => OutOfFuel
  | None :: polls => Input_ComputeFeature polls i s
  | Some bytes :: _ =>
      o ← obj i s;
      match osub o with
      | DataSub rs b sample records sh =>
          _ ← vec_at records 0;
          records ← set_idx records 0 (parse_record bytes);
          set_members i (DataSub rs b sample records sh) s
      | _ => Undef
      end
  end.

(** ** RGBImageLayer *)
Definition rand (rnd : list Z) : outcome (Z * list Z) := match rnd with [] => OutOfFuel | r :: rnd => Ok (r, rnd) end.

(** [raw_image]: rows of a multiple of 16 bytes, [None] where nothing was written. *)
Definition raw_new (shape : list Z) : list (option Z) :=
  replicate (Z.to_nat (stride (dim shape 0) * rows shape)) None.
Definition raw_exp (shape : list Z) (raw : list (option Z)) : exp :=
  mkExp shape (fun y x => v ← idx raw (uadd (umul y (stride (dim shape 0))) x); deref v).
(** The values of the image, one after the other. *)
Definition pixel_values (r : Record_) : list Z :=
  if decide (im_pixel r = []) then im_data r else map f32_of_Z (im_pixel r).
Definition raw_fill (vs : list Z) (raw : list (option Z)) : outcome (list (option Z)) :=
  if decide (length vs <= length raw)%nat then Ok (map Some vs ++ drop (length vs) raw) else Undef.
Definition raw_sub (mean : list Z) (raw : list (option Z)) : outcome (list (option Z)) :=
  if decide (length mean <= length raw)%nat then
    vs ← map_out deref (take (length mean) raw);
    Ok (map Some (zip_with f32_sub vs mean) ++ drop (length mean) raw)
  else Undef.
(** [dptr[i] = pixel[i]], [dptr[i] -= meandptr[i]] in the blob *)
Definition image_fill (vs mean : list Z) (p : Z) (h : heap) : outcome heap :=
  h ← store h p (bytes_of_f32s vs);
  bytes ← load h p (sizeof_float * Z.of_nat (length mean));
  store h p (bytes_of_f32s (zip_with f32_sub (f32s_of_bytes bytes) mean)).

(** [r1], [r2]: the height and width of the raw images. *)
Definition crop_image (cropsize_ r1 r2 : Z) (rshape : list Z) (do_mirror : bool) (image : ten) (cshape : list Z)
    (raw : list (option Z)) (rnd : list Z) (h : heap) : outcome (heap * list Z) :=
  '(hr, rnd) ← rand rnd;
  d1 ← isub r1 cropsize_; hoff ← imod hr d1;
  '(wr, rnd) ← rand rnd;
  d2 ← isub r2 cropsize_; woff ← imod wr d2;
  e ← crop_at (raw_exp rshape raw) (u32 cropsize_) (u32 cropsize_) (u32 hoff) (u32 woff);
  h ← (if do_mirror : bool then
         let c := mkTensor cshape (replicate (Z.to_nat (shape_size cshape)) 0) in
         c ← MapExp saveto c e;
         assign saveto image (mirror (tensor_exp c)) h
       else assign saveto image e h);
  Ok (h, rnd).
Fixpoint rgb_images (phase : Phase) (cropsize_ : Z) (mirror_ : bool) (r1 r2 : Z) (rshape cshape mean : list Z) (images : ten)
    (rid : Z) (records : list Record_) (raw : list (option Z)) (rnd : list Z) (h : heap) : outcome (heap * list Z) :=
  match records with
  | [] => Ok (h, rnd)
  | r :: records =>
      let image := sub_ten images rid in
      let do_crop := (0 <? cropsize_) && bool_decide (phase = kTrain) in
      '(coin, rnd) ← (if mirror_ : bool then rand rnd else Ok (0, rnd));
      let do_mirror := mirror_ && negb (Z.rem coin 2 =? 0) && bool_decide (phase = kTrain) in
      '(h, raw, rnd) ←
        (if do_crop || do_mirror then
           raw ← raw_fill (pixel_values r) raw;
           raw ← raw_sub mean raw;
           '(h, rnd) ← (if do_crop : bool then crop_image cropsize_ r1 r2 rshape do_mirror image cshape raw rnd h
                        else h ← assign saveto image (mirror (raw_exp rshape raw)) h; Ok (h, rnd));
           Ok (h, raw, rnd)
         else h ← image_fill (pixel_values r) mean (dptr image) h; Ok (h, raw, rnd));
      rgb_images phase cropsize_ mirror_ r1 r2 rshape cshape mean images (rid + 1) records raw rnd h
  end.
Definition RGBImage_ParseRecords (phase : Phase) (scale_ cropsize_ : Z) (mirror_ : bool) (mean_ : Blob)
    (records : list Record_) (blob : Blob) (rnd : list Z) (h : heap) : outcome (heap * list Z) :=
  '(h, images) ← Tensor4 blob h;
  r ← vec_at records 0;
  r0 ← idx (im_shape r) 0; r1 ← idx (im_shape r) 1; r2 ← idx (im_shape r) 2;
  s1 ← idx (shape_ blob) 1; s2 ← idx (shape_ blob) 2; s3 ← idx (shape_ blob) 3;
  let rshape := map u32 [r2; r1; r0] in
  '(h, mp) ← cpu_data mean_ h;
  bytes ← load h mp (sizeof_float * count_ mean_);
  let mean := f32s_of_bytes bytes in
  '(h, rnd) ← rgb_images phase cropsize_ mirror_ r1 r2 rshape (map u32 [s3; s2; s1]) mean images 0 records
                  (raw_new rshape) rnd h;
  h ← (if f32_eqb scale_ 0 then Ok h
       else v ← get images h; e ← e_mul (tensor_exp v) (ScalarExp scale_); assign saveto images e h);
  Ok (h, rnd).
Definition RGBImage_ComputeFeature (rnd : list Z) (i : Z) (phase : Phase) (s : nstate) : outcome (nstate * list Z) :=
  n ← num_srcs i s; _ ← CHECK (n =? 1);
  o ← obj i s; j ← idx (osrcs o) 0; d ← obj j s;
  match osub o, osub d with
  | RGBImageSub scale_ cropsize_ mirror_ mean_, DataSub _ _ _ records _ =>
      '(h, rnd) ← RGBImage_ParseRecords phase scale_ cropsize_ mirror_ mean_ records (odata o) rnd (nheap s);
      Ok (set_nheap h s, rnd)
  | _, _ => Undef
  end.

(** ** PrefetchLayer

    [compute] is [ComputeFeature] of the sublayers.  The thread works on the sublayers, which
    nobody else uses: its work is done when it is joined.  [thread_] is the phase it was
    started for, if it is joinable. *)
Section prefetch.
Context (compute : Z -> Phase -> nstate -> outcome nstate).
Fixpoint Prefetch (phase : Phase) (js : list Z) (s : nstate) : outcome nstate :=
  match js with
  | [] => Ok s
  | j :: js => s ← compute j phase s; Prefetch phase js s
  end.
Definition set_blob_of (name : string) (b : Blob) (l : list (string * Blob)) : list (string * Blob) :=
  map (fun nb => if decide (nb.1 = name) then (name, b) else nb) l.
Fixpoint copy_blobs (i : Z) (js : list Z) (blobs : list (string * Blob)) (s : nstate)
    : outcome (list (string * Blob) * nstate) :=
  match js with
  | [] => Ok (blobs, s)
  | j :: js =>
      o ← obj j s;
      if is_parserlayer (oclass o) then
        let name := lp_name (layer_proto_ o) in
        nb ← map_at (snd <$> list_find (fun nb => nb.1 = name) blobs);
        src ← data (chain s) j (Some i) kPositive s;
        '(h, b) ← CopyFrom nb.2 src false (nheap s);
        copy_blobs i js (set_blob_of name b blobs) (set_nheap h s)
      else copy_blobs i js blobs s
  end.
Definition Prefetch_ComputeFeature (thread_ : option Phase) (i : Z) (phase : Phase) (s : nstate)
    : outcome (nstate * option Phase) :=
  o ← obj i s;
  match osub o with
  | PrefetchSub sublayers_ datablobs_ =>
      s ← Prefetch (default phase thread_) sublayers_ s;
      '(datablobs_, s) ← copy_blobs i sublayers_ datablobs_ s;
      s ← set_members i (PrefetchSub sublayers_ datablobs_) s;
      Ok (s, Some phase)
  | _ => Undef
  end.
End prefetch.

(** ** Extraction of params and features: [BlobProtos], the names and the blobs in order *)
Record BlobProtos := mkBlobProtos { bp_name : list string; bp_blob : list BlobProto }.
(** The index of the first blob of that name. *)
Definition find_name (name : string) (names : list string) : option nat := fst <$> list_find (eq name) names.
(** [vis()] of the param, its name, and the shape of the layer; [false]: it was there before. *)
Definition extract_param (vis : bool) (p : Param) (shape : outcome (list Z)) (bs : BlobProtos) (h : heap)
    : outcome (heap * BlobProtos * bool) :=
  if negb vis || negb (param_id p =? owner p) then Ok (h, bs, true)
  else
    match find_name (pname (proto_ p)) (bp_name bs) with
    | Some k => b ← idx (bp_blob bs) (Z.of_nat k); Ok (h, bs, false)
    | None =>
        shape ← shape;
        '(h, ptr) ← mutable_data_ptr p h;
        n ← size p h;
        bytes ← load h ptr (sizeof_float * n);
        Ok (h, mkBlobProtos (bp_name bs ++ [pname (proto_ p)])
                 (bp_blob bs ++ [mkBlobProto shape (f32s_of_bytes bytes)]), true)
    end.
(** The params of the classes that have something to extract. *)
Definition Convolution_ExtractParam (vis : bool) (i : Z) (bs : BlobProtos) (s : nstate) : outcome (nstate * BlobProtos * bool) :=
  o ← obj i s;
  match osub o with
  | ConvolutionSub kernel_ _ _ num_filters_ _ channels_ _ _ _ _ _ _ _ _ weight_ _ =>
      p ← the_param weight_ s;
      '(h, bs, ok) ← extract_param vis p (k2 ← imul kernel_ kernel_; Ok [channels_; k2; num_filters_]) bs (nheap s); Ok (set_nheap h s, bs, ok)
  | _ => Undef
  end.
Definition RBMVis_ExtractParam (vis : bool) (i : Z) (bs : BlobProtos) (s : nstate) : outcome (nstate * BlobProtos * bool) :=
  o ← obj i s;
  match osub o with
  | RBMVisSub hdim_ vdim_ _ _ _ _ _ _ weight_ _ =>
      p ← the_param weight_ s;
      '(h, bs, ok) ← extract_param vis p (Ok [1; vdim_; hdim_]) bs (nheap s); Ok (set_nheap h s, bs, ok)
  | _ => Undef
  end.
Definition InnerProduct_ExtractParam (vis : bool) (i : Z) (bs : BlobProtos) (s : nstate) : outcome (nstate * BlobProtos * bool) :=
  o ← obj i s;
  match osub o with
  | InnerProductSub hdim_ vdim_ _ weight_ _ =>
      p ← the_param weight_ s;
      '(h, bs, ok) ← extract_param vis p (Ok [1; vdim_; hdim_]) bs (nheap s); Ok (set_nheap h s, bs, ok)
  | _ => Undef
  end.
Definition ExtractParam (vis : bool) (i : Z) (bs : BlobProtos) (s : nstate) : outcome (nstate * BlobProtos * bool) :=
  o ← obj i s;
  match osub o with
  | ConvolutionSub _ _ _ _ _ _ _ _ _ _ _ _ _ _ _ _ => Convolution_ExtractParam vis i bs s
  | RBMVisSub _ _ _ _ _ _ _ _ _ _ => RBMVis_ExtractParam vis i bs s
  | InnerProductSub _ _ _ _ _ => InnerProduct_ExtractParam vis i bs s
  | _ => Ok (s, bs, true)
  end.
(** [vis_feature()]; each call appends the values and counts the images. *)
Definition ExtractFeature (vis_feature : bool) (i : Z) (bs : BlobProtos) (s : nstate) : outcome (nstate * BlobProtos) :=
  if negb vis_feature then Ok (s, bs)
  else
    o ← obj i s;
    let name := lp_name (layer_proto_ o) in
    let '(bs, k) := match find_name name (bp_name bs) with
                    | Some k => (bs, Z.of_nat k)
                    | None => (mkBlobProtos (bp_name bs ++ [name])
                                 (bp_blob bs ++ [mkBlobProto (match shape_ (odata o) with [] => [] | _ :: sh => 0 :: sh end) []]),
                               Z.of_nat (length (bp_blob bs)))
                    end in
    b ← idx (bp_blob bs) k;
    n0 ← idx (proto_shape b) 0; d0 ← idx (shape_ (odata o)) 0;
    n ← iadd n0 d0;
    shape ← set_idx (proto_shape b) 0 n;
    '(h, p) ← cpu_data (odata o) (nheap s);
    bytes ← load h p (sizeof_float * count_ (odata o));
    blobs ← set_idx (bp_blob bs) k (mkBlobProto shape (proto_data b ++ f32s_of_bytes bytes));
    Ok (set_nheap h s, mkBlobProtos (bp_name bs) blobs).
