(* ===== verification/WorkerVis.v ===== *)
(** * trainer/worker.cc: extraction of params and features for visualisation

    [ExtractParam] and [ExtractFeature] of the worker, which collect the visible params and
    features of its own layers.  [Run] does not call them: the calls are commented out.  What is
    written is [None] when nothing is visible. *)

From Stdlib Require Import SpecFloat.
From S2P Require Import Prelude Float32 Metric Msg Format Memory Param Server Worker LayerConf Layers LayersProps LayerCompute NetLayers Mshadow MshadowProps LayerMath LayerMathProps LayerLinear LayerIO.

Section extraction.
(** [vis] of the weights of a layer, and of the layer. *)
Context (vis_param vis_feature : Z -> bool).

Fixpoint extract_params (id : Z) (js : list Z) (blobs : BlobProtos) (s : nstate) : outcome (nstate * BlobProtos) :=
  match js with
  | [] => Ok (s, blobs)
  | j :: js =>
      o ← obj j s;
      if lp_partition_id (layer_proto_ o) =? id then
        '(s, blobs, _) ← ExtractParam (vis_param j) j blobs s;
        extract_params id js blobs s
      else extract_params id js blobs s
  end.
Definition file_of (blobs : BlobProtos) : option BlobProtos :=
  match bp_name blobs with [] => None | _ => Some blobs end.
Definition Worker_ExtractParam (id : Z) (net : NetLayers.NeuralNet) (s : nstate) : outcome (nstate * option BlobProtos) :=
  '(s, blobs) ← extract_params id (layers_ net) (mkBlobProtos [] []) s;
  Ok (s, file_of blobs).

Fixpoint extract_features (id : Z) (js : list Z) (blobs : BlobProtos) (s : nstate) : outcome (nstate * BlobProtos) :=
  match js with
  | [] => Ok (s, blobs)
  | j :: js =>
      o ← obj j s;
      if lp_partition_id (layer_proto_ o) =? id then
        '(s, blobs) ← ExtractFeature (vis_feature j) j blobs s;
        extract_features id js blobs s
      else extract_features id js blobs s
  end.
(** [TestOneBatch(i, kTest, net, &perf)] of the worker *)
Context (TestOneBatch : Z -> nstate -> outcome nstate).
Fixpoint feature_loop (fuel : nat) (id samples : Z) (js : list Z) (i : Z) (blobs : BlobProtos) (s : nstate)
    : outcome (nstate * BlobProtos) :=
  match fuel with
  | O => OutOfFuel
  | S fuel =>
      next ← iadd i 1;
      s ← TestOneBatch i s;
      '(s, blobs) ← extract_features id js blobs s;
      b ← idx (bp_blob blobs) 0;
      n ← idx (proto_shape b) 0;
      if samples <=? n then Ok (s, blobs) else feature_loop fuel id samples js next blobs s
  end.
Definition Worker_ExtractFeature (fuel : nat) (id samples : Z) (net : NetLayers.NeuralNet) (s : nstate)
    : outcome (nstate * option BlobProtos) :=
  '(s, blobs) ← feature_loop fuel id samples (layers_ net) 0 (mkBlobProtos [] []) s;
  Ok (s, file_of blobs).
End extraction.

(** ** Features of one visible layer *)
Section features.
Context (vis_feature : Z -> bool) (TestOneBatch : Z -> nstate -> outcome nstate).
Context (id j : Z) (name : string) (b : Z) (dims : list Z) (pre post : list Z).
(** The layers are there; [j] is the one of the worker that is visible, and its data has [b] rows of
    the values [vs]. *)
Record features_at (s : nstate) (vs : list Z) : Prop := {
  fa_layers k : k ∈ pre ++ post -> exists o, objs s !! k = Some o /\
    (lp_partition_id (layer_proto_ o) <> id \/ vis_feature k = false);
  fa_layer : exists o p, objs s !! j = Some o /\ lp_partition_id (layer_proto_ o) = id /\
    lp_name (layer_proto_ o) = name /\ image_at (nheap s) (odata o) p (b :: dims) vs;
}.
Context (Hvis : vis_feature j = true).

Lemma set_nheap_same s : set_nheap (nheap s) s = s.
Proof. by destruct s as [? ? []]. Qed.
Lemma extract_prefix ks ks' blobs s :
  (forall k, k ∈ ks -> exists o, objs s !! k = Some o /\ (lp_partition_id (layer_proto_ o) <> id \/ vis_feature k = false)) ->
  extract_features vis_feature id (ks ++ ks') blobs s = extract_features vis_feature id ks' blobs s.
Proof.
  induction ks as [|k ks IH]; intros H; [done|]. destruct (H k ltac:(by left)) as (o & Ho & Hk).
  assert (IH' := IH ltac:(intros k' Hk'; apply H; by right)). simpl. rewrite (obj_Ok _ _ _ Ho), bind_Ok.
  destruct (Z.eqb_spec (lp_partition_id (layer_proto_ o)) id) as [E|]; [|done]. destruct Hk as [Hk|Hk]; [done|].
  unfold ExtractFeature. rewrite Hk. cbn [negb]. by rewrite bind_Ok.
Qed.
Lemma extract_others ks blobs s :
  (forall k, k ∈ ks -> exists o, objs s !! k = Some o /\ (lp_partition_id (layer_proto_ o) <> id \/ vis_feature k = false)) ->
  extract_features vis_feature id ks blobs s = Ok (s, blobs).
Proof. intros H. rewrite <- (app_nil_r ks). by rewrite extract_prefix. Qed.

(** What is collected after [q] batches. *)
Definition collected (q : nat) (batch : Z -> list Z) : list Z := concat (map (fun i => batch (Z.of_nat i)) (seq 0 q)).
Definition blobs_of (q : nat) (batch : Z -> list Z) : BlobProtos :=
  match q with
  | O => mkBlobProtos [] []
  | _ => mkBlobProtos [name] [mkBlobProto (Z.of_nat q * b :: dims) (collected q batch)]
  end.
Lemma collected_S q batch : collected (S q) batch = collected q batch ++ batch (Z.of_nat q).
Proof. unfold collected. rewrite seq_S, map_app, concat_app. simpl. by rewrite app_nil_r. Qed.
(** One call on the layer: the first one makes the blob, the others extend it. *)
Lemma extract_feature_layer q (batch : Z -> list Z) s : features_at s (batch q) ->
  ExtractFeature true j (mkBlobProtos [] []) s = Ok (s, mkBlobProtos [name] [mkBlobProto (b :: dims) (batch q)]) /\
  forall z vs', 0 <= z -> z + b <= INT_MAX ->
    ExtractFeature true j (mkBlobProtos [name] [mkBlobProto (z :: dims) vs']) s =
    Ok (s, mkBlobProtos [name] [mkBlobProto (z + b :: dims) (vs' ++ batch q)]).
Proof.
  intros [_ (o & p & Ho & Hid & Hname & Him)].
  pose proof (im_dims _ _ _ _ _ Him) as Hd. pose proof (im_at _ _ _ _ _ Him) as Ha.
  pose proof (dims_int _ _ _ _ _ Him) as Hb. apply list.Forall_cons in Hb as [Hb _].
  assert (Hload : load (nheap s) p (sizeof_float * count_ (odata o)) = Ok (bytes_of_f32s (batch q))).
  { eapply at_cpu_load_all; [exact Ha|]. by rewrite (at_cpu_count _ _ _ _ Ha). }
  destruct (at_cpu_data _ _ _ _ Ha) as [Hcpu _].
  assert (Hadd : forall z, 0 <= z -> z + b <= INT_MAX -> iadd z b = Ok (z + b)).
  { intros z H0 Hz. unfold iadd. apply int_ret_Ok; unfold INT_MIN in *; lia. }
  assert (Hfind : find_name name [name] = Some O) by (unfold find_name; cbn [list_find]; by rewrite decide_True).
  split; [|intros z vs' H0 Hz]; unfold ExtractFeature; cbn [negb]; rewrite (obj_Ok _ _ _ Ho), bind_Ok, Hname, Hd; cbn [bp_name bp_blob].
  - change (find_name name []) with (@None nat). simpl. rewrite (Hadd 0), bind_Ok by lia. unfold set_idx. simpl.
    rewrite Hcpu, bind_Ok, Hload, bind_Ok, f32s_of_bytes_of_f32s by (by eapply at_cpu_f32). by rewrite set_nheap_same.
  - rewrite Hfind. simpl. rewrite Hadd, bind_Ok by done. unfold set_idx. simpl.
    rewrite Hcpu, bind_Ok, Hload, bind_Ok, f32s_of_bytes_of_f32s by (by eapply at_cpu_f32). by rewrite set_nheap_same.
Qed.
Lemma extract_batch q batch s : features_at s (batch (Z.of_nat q)) -> Z.of_nat (S q) * b <= INT_MAX -> 0 < b ->
  extract_features vis_feature id (pre ++ j :: post) (blobs_of q batch) s = Ok (s, blobs_of (S q) batch).
Proof using Hvis.
  intros Hat Hq Hb. destruct (extract_feature_layer _ _ _ Hat) as [E0 E]. destruct Hat as [Hothers (o & p & Ho & Hid & _)].
  rewrite extract_prefix by (intros k Hk; apply Hothers, elem_of_app; by left).
  simpl extract_features. rewrite (obj_Ok _ _ _ Ho), bind_Ok, Hid, Z.eqb_refl, Hvis.
  assert (Hstep : ExtractFeature true j (blobs_of q batch) s = Ok (s, blobs_of (S q) batch)).
  { destruct q as [|q].
    - refine (eq_trans E0 _). unfold blobs_of, collected. simpl. by rewrite app_nil_r, Z.mul_1_l.
    - refine (eq_trans (E (Z.of_nat (S q) * b) (collected (S q) batch) _ _) _); [nia|lia|].
      unfold blobs_of. rewrite (collected_S (S q)), (Nat2Z.inj_succ (S q)), <- Z.add_1_r, Z.mul_add_distr_r, Z.mul_1_l. done. }
  rewrite Hstep, bind_Ok. apply extract_others. intros k Hk. apply Hothers, elem_of_app. by right.
Qed.

(** The first number of batches, at least one, with [samples] rows. *)
Definition batches (samples : Z) : nat := Z.to_nat (Z.max 1 ((samples + b - 1) / b)).
Lemma batches_spec samples q : 0 < b -> (0 < q)%nat -> samples <= Z.of_nat q * b <-> (batches samples <= q)%nat.
Proof.
  intros Hb Hq. unfold batches.
  assert (Hdiv : samples <= Z.of_nat q * b <-> (samples + b - 1) / b <= Z.of_nat q).
  { split; intros H; [apply Z.lt_succ_r, Z.div_lt_upper_bound; nia|].
    pose proof (Z.mul_succ_div_gt (samples + b - 1) b Hb). nia. }
  rewrite Hdiv. lia.
Qed.
Context (ready : nstate -> Prop) (batch : Z -> list Z).
Context (Htest : forall i s, ready s -> exists s', TestOneBatch i s = Ok s' /\ ready s' /\ features_at s' (batch i)).
Lemma feature_loop_Ok samples fuel : forall q s, ready s -> 0 < b ->
  (q < batches samples)%nat -> (batches samples <= q + fuel)%nat -> Z.of_nat (batches samples) * b <= INT_MAX ->
  exists s', feature_loop vis_feature TestOneBatch fuel id samples (pre ++ j :: post) (Z.of_nat q) (blobs_of q batch) s =
    Ok (s', blobs_of (batches samples) batch) /\ ready s' /\ features_at s' (batch (Z.of_nat (batches samples) - 1)).
Proof using Hvis Htest.
  induction fuel as [|fuel IH]; intros q s Hs Hb Hq Hf Hmax; [lia|]. simpl feature_loop.
  assert (Hmax' : Z.of_nat (S q) * b <= INT_MAX) by nia.
  unfold iadd. rewrite int_ret_Ok, bind_Ok by (unfold INT_MIN in *; nia).
  destruct (Htest (Z.of_nat q) s Hs) as (s1 & E1 & Hs1 & Hat). rewrite E1, bind_Ok, (extract_batch q batch s1 Hat Hmax' Hb), bind_Ok.
  change (idx (bp_blob (blobs_of (S q) batch)) 0) with (Ok (mkBlobProto (Z.of_nat (S q) * b :: dims) (collected (S q) batch))).
  rewrite bind_Ok. change (idx (proto_shape (mkBlobProto (?z :: dims) ?d)) 0) with (Ok z). rewrite bind_Ok.
  pose proof (batches_spec samples (S q) Hb ltac:(lia)) as Hspec. destruct (Z.leb_spec samples (Z.of_nat (S q) * b)) as [Hle|Hgt].
  - exists s1. assert (E : batches samples = S q) by (apply Hspec in Hle; lia). rewrite E. split; [done|]. split; [done|].
    by replace (Z.of_nat (S q) - 1) with (Z.of_nat q) by lia.
  - replace (Z.of_nat q + 1) with (Z.of_nat (S q)) by lia. apply IH; try done; [|lia].
    destruct (decide (batches samples <= S q)%nat) as [Hc|]; [|lia]. apply Hspec in Hc. lia.
Qed.

(** C27. The extraction of features ends.  When every test of a batch succeeds, and one layer of the worker
    is visible and gets [b] rows a batch, [ExtractFeature] stops after the first batch with which
    there are [samples] rows, also when none was asked for, and writes the layer's name with the
    rows of all batches in order. *)
Theorem Worker_ExtractFeature_rows (samples : Z) (net : NetLayers.NeuralNet) (s : nstate) (fuel : nat)
    (Hnet : layers_ net = pre ++ j :: post) (Hs : ready s) (Hb : 0 < b) (Hmax : Z.of_nat (batches samples) * b <= INT_MAX)
    (Hfuel : (batches samples <= fuel)%nat) :
  exists s', Worker_ExtractFeature vis_feature TestOneBatch fuel id samples net s =
    Ok (s', Some (mkBlobProtos [name] [mkBlobProto (Z.of_nat (batches samples) * b :: dims) (collected (batches samples) batch)])).
Proof using Hvis Htest.
  assert (H0 : (0 < batches samples)%nat) by (unfold batches; lia).
  destruct (feature_loop_Ok samples fuel 0 s Hs Hb H0 ltac:(lia) Hmax) as (s' & E & _). exists s'.
  unfold Worker_ExtractFeature. rewrite Hnet.
  change (Z.of_nat 0) with 0 in E. change (blobs_of 0 batch) with (mkBlobProtos [] []) in E. rewrite E, bind_Ok.
  destruct (batches samples); [lia|reflexivity].
Qed.
End features.

(** Without a visible layer the worker reads the first of no blobs. *)
Lemma feature_loop_nothing vis_feature TestOneBatch id samples ks i s s' fuel :
  TestOneBatch i s = Ok s' -> INT_MIN <= i < INT_MAX ->
  (forall k, k ∈ ks -> exists o, objs s' !! k = Some o /\ (lp_partition_id (layer_proto_ o) <> id \/ vis_feature k = false)) ->
  feature_loop vis_feature TestOneBatch (S fuel) id samples ks i (mkBlobProtos [] []) s = Undef.
Proof.
  intros E Hi Hks. simpl. unfold iadd. rewrite int_ret_Ok, bind_Ok, E, bind_Ok by (unfold INT_MIN, INT_MAX in *; lia).
  by rewrite extract_others, bind_Ok by done.
Qed.

(** ** Witness: batches of two values, three asked for *)
Module VisDemo.
Definition values : list Z := map f32_of_Z [7; 8].
Definition hidden : LayerObj := LayerObj_new kTanh.
Definition shown : LayerObj :=
  set_proto (mkLayerProto "fc" kTanh None 0 [] [] [] "unknow" NoConf) (set_data (full_blob 0 [2; 1]) (LayerObj_new kTanh)).
Definition state : nstate :=
  mkNS {[0 := hidden; 1 := shown]} 2
    (mkWorld (packed values {[0 := mkSM 1 8 HEAD_AT_CPU true]} 1) ∅ 0 ∅).
Definition net : NetLayers.NeuralNet := NetLayers.mkNet [0; 1] ∅ [] [] [] [] ∅.
End VisDemo.
Lemma Worker_ExtractFeature_rows_witness : exists s',
  Worker_ExtractFeature (fun k => k =? 1) (fun _ s => Ok s) 2 0 3 VisDemo.net VisDemo.state =
    Ok (s', Some (mkBlobProtos ["fc"] [mkBlobProto [4; 1] (map f32_of_Z [7; 8; 7; 8])])).
Proof.
  apply (Worker_ExtractFeature_rows (fun k => k =? 1) (fun _ s => Ok s) 0 1 "fc" 2 [1] [0] [] eq_refl
    (fun s => s = VisDemo.state) (fun _ => VisDemo.values)
    ltac:(intros i s ->; exists VisDemo.state; split; [done|]; split; [done|];
          split; [intros k Hk; apply list_elem_of_singleton in Hk; subst k; exists VisDemo.hidden; split; [reflexivity|by right]|
                  exists VisDemo.shown, 1; split; [reflexivity|]; split; [reflexivity|]; split; [reflexivity|concrete_image 0]])
    3 VisDemo.net VisDemo.state 2 eq_refl eq_refl); vm_compute; congruence || (repeat constructor).
Defined.
