(* ===== verification/ParamInit.v ===== *)
(** * utils/param.cc, mshadow/tensor_random.h: the first values of a param

    [InitValues] fills a param with a constant or with draws of a distribution, scaled, and sets
    its version.  The generator and the distributions of the C++ library are the class [Rng], whose
    laws are what its standard promises.  The worker's [sample] is [sample_values] for the
    configuration of the param. *)

From Stdlib Require Import SpecFloat.
From S2P Require Import Prelude Float32 Metric Msg Format Memory Param Server Worker LayerConf Layers LayersProps LayerCompute Mshadow MshadowProps LayerMath LayerMathProps LayerLinear.

(** The fields of ParamProto that say how. *)
Inductive InitMethod :=
| kConstant | kGaussian | kUniform | kPretrained | kGaussainSqrtFanIn | kUniformSqrtFanIn | kUniformSqrtFanInOut.
Record InitProto := mkInit {
  init_method : InitMethod; value : Z; low : Z; high : Z; mean : Z; std : Z;
}.
Definition InitProto_default : InitProto := mkInit kGaussian f32_one (f32_neg f32_one) f32_one 0 f32_one.

Definition f32_leb (a b : Z) : bool := SFleb (f32_decode a) (f32_decode b).
Definition FLT_MAX : Z := 0x7f7fffff.
Definition f64_sqrt : spec_float -> spec_float := SFsqrt 53 1024.

(** [std::mt19937] and the two distributions: a draw and the next state. *)
Class Rng := {
  gen : Type;
  uniform_real : Z -> Z -> gen -> Z * gen;
  normal : Z -> Z -> gen -> Z * gen;
}.
(** What [uniform_real_distribution] requires. *)
Definition uniform_ok (a b : Z) : bool := f32_leb a b && f32_leb (f32_sub b a) FLT_MAX.
Definition within (a b v : Z) : Prop := is_f32 v /\ f32_leb a v = true /\ f32_leb v b = true.
Class RngLaws (R : Rng) := {
  uniform_within a b g : is_f32 a -> is_f32 b -> uniform_ok a b = true -> within a b (uniform_real a b g).1;
  normal_f32 mu sigma g : is_f32 mu -> is_f32 (normal mu sigma g).1;
}.

Section init.
Context `{R : Rng}.

Fixpoint draws (d : gen -> Z * gen) (n : nat) (g : gen) : list Z * gen :=
  match n with
  | O => ([], g)
  | S n => let '(x, g) := d g in let '(xs, g) := draws d n g in (x :: xs, g)
  end.
Definition sample_into (d : gen -> Z * gen) (t : ten) (g : gen) (h : heap) : outcome (heap * gen) :=
  let '(vs, g) := draws d (Z.to_nat (shape_size (tenshape t))) g in
  h ← put t (mkTensor (tenshape t) vs) h; Ok (h, g).
Definition SampleUniform (a b : Z) (t : ten) (g : gen) (h : heap) : outcome (heap * gen) :=
  if uniform_ok a b then sample_into (uniform_real a b) t g h else Undef.
(** [normal_distribution] requires a positive deviation, which is not a NaN. *)
Definition SampleGaussian (mu sigma : Z) (t : ten) (g : gen) (h : heap) : outcome (heap * gen) :=
  if f32_leb sigma 0 then h ← assign saveto t (ScalarExp mu) h; Ok (h, g)
  else if f32_ltb 0 sigma then sample_into (normal mu sigma) t g h else Undef.

(** [value / sqrt(n)], computed in [double]. *)
Definition by_sqrt (v n : Z) : Z := f32_of_f64 (f64_div (f64_of_f32 v) (f64_sqrt (f64_of_Z n))).
(** What the draws are multiplied with. *)
Definition factor (c : InitProto) (shape : list Z) : outcome Z :=
  match init_method c with
  | kUniformSqrtFanInOut =>
      s0 ← idx shape 0; s1 ← idx shape 1; n ← iadd s0 s1; Ok (by_sqrt (value c) n)
  | kGaussainSqrtFanIn => s0 ← idx shape 0; Ok (by_sqrt (value c) s0)
  | _ => Ok (value c)
  end.
(** [if (proto_.value()) data *= ...] *)
Definition scale (c : InitProto) (shape : list Z) (t : ten) (h : heap) : outcome heap :=
  if f32_eqb (value c) 0 then Ok h else s ← factor c shape; assign multo t (ScalarExp s) h.
Definition sample_values (c : InitProto) (p : Param) (g : gen) (h : heap) : outcome (heap * gen) :=
  b ← data_blob p h;
  '(h, data) ← Tensor1 b h;
  match init_method c with
  | kConstant => h ← assign saveto data (ScalarExp (value c)) h; Ok (h, g)
  | kUniform | kUniformSqrtFanInOut =>
      '(h, g) ← SampleUniform (low c) (high c) data g h;
      h ← scale c (shape_ b) data h; Ok (h, g)
  | kGaussian | kGaussainSqrtFanIn =>
      '(h, g) ← SampleGaussian (mean c) (std c) data g h;
      h ← scale c (shape_ b) data h; Ok (h, g)
  | kPretrained | kUniformSqrtFanIn => Ok (h, g)
  end.
Definition Param_InitValues (c : InitProto) (version : Z) (p : Param) (g : gen) (h : heap) : outcome (heap * gen) :=
  '(h, g) ← sample_values c p g h;
  h ← param_set_version version p h; Ok (h, g).
End init.

Lemma zip_with_const {A} (f : Z -> Z -> Z) s ws (l : list A) : length l = length ws ->
  zip_with f ws (map (fun _ => s) l) = map (fun v => f v s) ws.
Proof. revert l. induction ws as [|w ws IH]; intros [|x l] Hl; simpl in *; try done. f_equal. apply IH. lia. Qed.

Lemma map_replicate (ws : list Z) (s : Z) : map (fun _ => s) ws = replicate (length ws) s.
Proof. induction ws as [|w ws IH]; [done|]. simpl. by rewrite IH. Qed.

(** ** A param's memory while it is filled *)

(** In [h], made from [h0], the blob [b] has the values [ws] at [p], and memory elsewhere is as it was. *)
Record filled (h0 : heap) (b : Blob) (p n : Z) (ws : list Z) (h : heap) : Prop := {
  fl_ok : heap_ok h;
  fl_ten : ten_at h (b, p) [] (mkTen p [n]) ws [];
  fl_blobs : blobs h = blobs h0;
  fl_frame q m bs : q + Z.of_nat m <= p \/ p + sizeof_float * capacity_ b <= q ->
    peek (cells h0) q m = Some bs -> peek (cells h) q m = Some bs;
}.
Lemma mutable_cpu_data_blobs b h h' p : mutable_cpu_data b h = Ok (h', p) -> blobs h' = blobs h.
Proof.
  unfold mutable_cpu_data, sm_mutable_cpu_data, to_cpu. intros H. repeat (inv_ok H || case_match || (progress simplify_eq/=)).
  inv_ok E0. case_match; by simplify_eq.
Qed.
Lemma put_blobs t v h h' : put t v h = Ok h' -> blobs h' = blobs h.
Proof. unfold put, store. intros H. inv_ok H. by injection H as <-. Qed.
Lemma filled_length h0 b p n ws h : filled h0 b p n ws h -> Z.of_nat (length ws) = n /\ 0 < n < 2 ^ 32.
Proof.
  intros [_ [_ _ [Hp Hs Hl]] _ _]. simpl in *. apply list.Forall_cons in Hp as [Hp _].
  unfold shape_size in *. simpl in *. lia.
Qed.
Lemma filled_start h b vs : heap_ok h -> blob_holds h b vs -> 0 < count_ b <= INT_MAX ->
  exists h1 p, Tensor1 b h = Ok (h1, mkTen p [count_ b]) /\ filled h b p (count_ b) vs h1.
Proof.
  intros Hok Hb Hn. pose proof (holds_count _ _ _ Hb) as Hc.
  destruct (mutable_cpu_data_Ok h b vs Hok Hb) as (h1 & p & i & E & Hok1 & Hk & Hd & Hpt & _).
  exists h1, p. unfold Tensor1, make_ten. rewrite E, bind_Ok. simpl.
  rewrite (u32_small (count_ b)) by (unfold INT_MAX in *; lia). split; [done|]. split; [done| | |].
  - split; simpl; [|lia|].
    + rewrite app_nil_r. split; [by eapply blob_holds_keeps|by exists i].
    + split; simpl; [repeat constructor; lia|unfold shape_size, INT_MAX in *; simpl; lia|unfold shape_size; simpl; lia].
  - by eapply mutable_cpu_data_blobs.
  - intros q m bs _. by apply Hk.
Qed.
Lemma filled_put h0 b p n ws vs h : filled h0 b p n ws h -> length vs = length ws -> Forall is_f32 vs ->
  exists h', put (mkTen p [n]) (mkTensor [n] vs) h = Ok h' /\ filled h0 b p n vs h'.
Proof.
  intros [Hok Ht Hbl Hfr] Hl Hf. destruct (ten_put _ _ _ _ _ _ vs Hok Ht Hl Hf) as (h' & E & Hw & Ht').
  exists h'. split; [exact E|]. split; [apply Hw|done|by rewrite (put_blobs _ _ _ _ E)|].
  intros q m bs Hq Hp. rewrite <- (Hfr q m bs Hq Hp). apply peek_ext. intros a Ha. apply (wr_cells _ _ _ Hw).
  constructor; [unfold outside; simpl; lia|constructor].
Qed.
Lemma filled_assign Save s h0 b p n ws h : filled h0 b p n ws h -> (forall v, v ∈ ws -> is_f32 (Save v s)) ->
  exists h', assign Save (mkTen p [n]) (ScalarExp s) h = Ok h' /\ filled h0 b p n (map (fun v => Save v s) ws) h'.
Proof.
  intros Hfl Hs. destruct (filled_length _ _ _ _ _ _ Hfl) as [Hn Hpos].
  destruct (filled_put _ _ _ _ _ (map (fun v => Save v s) ws) _ Hfl) as (h' & E & Hfl'); [by rewrite length_map| |].
  { apply list.Forall_forall. intros v Hv. apply list_elem_of_In, in_map_iff in Hv as (w & <- & Hw).
    by apply Hs, list_elem_of_In. }
  exists h'. split; [|done]. unfold assign. rewrite (ten_get _ _ _ _ _ _ (fl_ten _ _ _ _ _ _ Hfl)), bind_Ok.
  unfold MapExp. simpl.
  rewrite (map_out_Ok _ (fun _ => s)) by done. rewrite bind_Ok. unfold save_all. simpl.
  assert (Hlen : length (positions [n]) = length ws).
  { pose proof (length_positions n []) as H. unfold shape_size in H. simpl in H.
    enough (Z.of_nat (length (positions [n])) = n) by lia. rewrite H; [lia|repeat constructor; lia|lia]. }
  by rewrite length_map, Hlen, decide_True, drop_all, app_nil_r, bind_Ok, zip_with_const by (done || lia).
Qed.

(** ** The draws *)
Section init_laws.
Context `{L : RngLaws}.

Lemma draws_spec (P : Z -> Prop) d n : (forall g, P (d g).1) -> forall g, length (draws d n g).1 = n /\ Forall P (draws d n g).1.
Proof.
  intros H. induction n as [|n IH]; intros g; [done|]. simpl. specialize (H g). destruct (d g) as [x g1]. specialize (IH g1).
  destruct (draws d n g1) as [xs g2]. simpl in *. destruct IH as [-> IH]. split; [done|by constructor].
Qed.
Lemma filled_sample (P : Z -> Prop) d h0 b p n ws h g : filled h0 b p n ws h -> (forall g, P (d g).1) -> (forall v, P v -> is_f32 v) ->
  exists h' us, sample_into d (mkTen p [n]) g h = Ok (h', (draws d (length ws) g).2) /\ us = (draws d (length ws) g).1 /\
    length us = length ws /\ Forall P us /\ filled h0 b p n us h'.
Proof.
  intros Hfl HP Hf. destruct (filled_length _ _ _ _ _ _ Hfl) as [Hn Hpos].
  destruct (draws_spec P d (length ws) HP g) as [Hl Hus].
  destruct (filled_put _ _ _ _ _ (draws d (length ws) g).1 _ Hfl Hl) as (h' & E & Hfl'); [by eapply Forall_impl|].
  exists h', (draws d (length ws) g).1. split; [|done]. unfold sample_into. simpl.
  replace (Z.to_nat (n * 1)) with (length ws) by lia. destruct (draws d (length ws) g) as [us g']. simpl in *.
  by rewrite E, bind_Ok.
Qed.

(** ** What the values are *)
Definition multiplied (v s : Z) (us : list Z) : list Z := if f32_eqb v 0 then us else map (fun u => f32_mul u s) us.
Definition uniform_draws (c : InitProto) (n : nat) (g g' : gen) (us : list Z) : Prop :=
  (us, g') = draws (uniform_real (low c) (high c)) n g /\ length us = n /\ Forall (within (low c) (high c)) us.
Definition gaussian_draws (c : InitProto) (n : nat) (g g' : gen) (us : list Z) : Prop :=
  if f32_leb (std c) 0 then us = replicate n (mean c) /\ g' = g
  else (us, g') = draws (normal (mean c) (std c)) n g /\ length us = n.
Definition initial (c : InitProto) (shape vs : list Z) (g g' : gen) (ws : list Z) : Prop :=
  match init_method c, shape with
  | kConstant, _ => ws = replicate (length vs) (value c) /\ g' = g
  | kUniform, _ => exists us, uniform_draws c (length vs) g g' us /\ ws = multiplied (value c) (value c) us
  | kGaussian, _ => exists us, gaussian_draws c (length vs) g g' us /\ ws = multiplied (value c) (value c) us
  | kUniformSqrtFanInOut, n0 :: n1 :: _ =>
      exists us, uniform_draws c (length vs) g g' us /\ ws = multiplied (value c) (by_sqrt (value c) (n0 + n1)) us
  | kGaussainSqrtFanIn, n0 :: _ =>
      exists us, gaussian_draws c (length vs) g g' us /\ ws = multiplied (value c) (by_sqrt (value c) n0) us
  | kPretrained, _ | kUniformSqrtFanIn, _ => ws = vs /\ g' = g
  | _, _ => False
  end.
(** The configuration has floats, the interval is one, the deviation is a number, and the shape has
    the dimensions that are read. *)
Record init_ok (c : InitProto) (shape : list Z) : Prop := {
  io_floats : Forall is_f32 [value c; low c; high c; mean c; std c];
  io_interval : init_method c = kUniform \/ init_method c = kUniformSqrtFanInOut -> uniform_ok (low c) (high c) = true;
  io_std : init_method c = kGaussian \/ init_method c = kGaussainSqrtFanIn -> f32_leb (std c) 0 = false -> f32_ltb 0 (std c) = true;
  io_inout : init_method c = kUniformSqrtFanInOut ->
    exists n0 n1 rest, shape = n0 :: n1 :: rest /\ 0 < n0 /\ 0 < n1 /\ n0 + n1 <= INT_MAX;
  io_in : init_method c = kGaussainSqrtFanIn -> exists n0 rest, shape = n0 :: rest;
}.

Section filling.
Context (c : InitProto) (shape : list Z) (Hc : init_ok c shape).
Lemma init_floats : is_f32 (value c) /\ is_f32 (low c) /\ is_f32 (high c) /\ is_f32 (mean c).
Proof using Hc. destruct Hc as [H _ _ _ _]. rewrite !list.Forall_cons in H. tauto. Qed.
Lemma filled_uniform h0 b p n ws h g : filled h0 b p n ws h ->
  init_method c = kUniform \/ init_method c = kUniformSqrtFanInOut ->
  exists h' g' us, SampleUniform (low c) (high c) (mkTen p [n]) g h = Ok (h', g') /\
    uniform_draws c (length ws) g g' us /\ filled h0 b p n us h'.
Proof using Hc L.
  intros Hfl Hm. pose proof (io_interval _ _ Hc Hm) as Hu. destruct init_floats as (_ & Hlo & Hhi & _).
  destruct (filled_sample (within (low c) (high c)) (uniform_real (low c) (high c)) _ _ _ _ _ _ g Hfl)
    as (h' & us & E & Eus & Hl & Hw & Hfl'); [intros; by apply uniform_within|by intros v [? _]|].
  eexists h', _, us. unfold SampleUniform. rewrite Hu. split; [exact E|]. split; [|done]. split; [|done].
  rewrite Eus. by destruct (draws _ _ _).
Qed.
Lemma filled_gaussian h0 b p n ws h g : filled h0 b p n ws h ->
  init_method c = kGaussian \/ init_method c = kGaussainSqrtFanIn ->
  exists h' g' us, SampleGaussian (mean c) (std c) (mkTen p [n]) g h = Ok (h', g') /\
    gaussian_draws c (length ws) g g' us /\ filled h0 b p n us h'.
Proof using Hc L.
  intros Hfl Hm. pose proof (io_std _ _ Hc Hm) as Hs. destruct init_floats as (_ & _ & _ & Hmu).
  unfold SampleGaussian, gaussian_draws. destruct (f32_leb (std c) 0) eqn:Es.
  - destruct (filled_assign saveto (mean c) _ _ _ _ _ _ Hfl) as (h' & E & Hfl'); [done|].
    exists h', g, (replicate (length ws) (mean c)). rewrite E, bind_Ok. split; [done|]. split; [done|].
    by rewrite <- (map_replicate ws (mean c)).
  - rewrite (Hs eq_refl).
    destruct (filled_sample is_f32 (normal (mean c) (std c)) _ _ _ _ _ _ g Hfl) as (h' & us & E & Eus & Hl & Hw & Hfl');
      [intros; by apply normal_f32|done|].
    eexists h', _, us. split; [exact E|]. split; [|done]. split; [|done]. rewrite Eus. by destruct (draws _ _ _).
Qed.
Lemma filled_scale h0 b p n us h s : filled h0 b p n us h -> factor c shape = Ok s ->
  exists h', scale c shape (mkTen p [n]) h = Ok h' /\ filled h0 b p n (multiplied (value c) s us) h'.
Proof.
  intros Hfl Es. unfold scale, multiplied. destruct (f32_eqb (value c) 0); [by exists h|]. rewrite Es, bind_Ok.
  apply (filled_assign multo s _ _ _ _ _ _ Hfl). intros v _. apply f32_mul_range.
Qed.
(** The values are drawn and scaled in the blob [b] of a shape. *)
Lemma sample_values_Ok p d b vs h g : heap_ok h -> pdata p = Some d -> blobs h !! d = Some b -> shape_ b = shape ->
  blob_holds h b vs -> 0 < count_ b <= INT_MAX ->
  exists h' g' q ws, sample_values c p g h = Ok (h', g') /\ initial c shape vs g g' ws /\ filled h b q (count_ b) ws h'.
Proof using Hc L.
  intros Hok Hp Hb Hsh Hh Hn. unfold sample_values, data_blob. rewrite Hp, deref_Some, bind_Ok, Hb, deref_Some, bind_Ok, Hsh.
  destruct (filled_start h b vs Hok Hh Hn) as (h1 & q & E & Hfl). rewrite E, bind_Ok.
  destruct init_floats as (Hv & _). unfold initial. destruct (init_method c) eqn:Em.
  - destruct (filled_assign saveto (value c) _ _ _ _ _ _ Hfl) as (h' & Ea & Hfl'); [done|].
    exists h', g, q, (replicate (length vs) (value c)). rewrite Ea, bind_Ok. split; [done|]. split; [done|].
    by rewrite <- (map_replicate vs (value c)).
  - destruct (filled_gaussian _ _ _ _ _ _ g Hfl) as (h2 & g' & us & Ed & Hd & Hfl2); [by left|].
    destruct (filled_scale _ _ _ _ _ _ (value c) Hfl2) as (h3 & Es & Hfl3); [unfold factor; by rewrite Em|].
    rewrite Ed, bind_Ok, Es, bind_Ok. eauto 10.
  - destruct (filled_uniform _ _ _ _ _ _ g Hfl) as (h2 & g' & us & Ed & Hd & Hfl2); [by left|].
    destruct (filled_scale _ _ _ _ _ _ (value c) Hfl2) as (h3 & Es & Hfl3); [unfold factor; by rewrite Em|].
    rewrite Ed, bind_Ok, Es, bind_Ok. eauto 10.
  - eauto 10.
  - destruct (filled_gaussian _ _ _ _ _ _ g Hfl) as (h2 & g' & us & Ed & Hd & Hfl2); [by right|].
    destruct (io_in _ _ Hc Em) as (n0 & rest & Esh).
    destruct (filled_scale _ _ _ _ _ _ (by_sqrt (value c) n0) Hfl2) as (h3 & Es & Hfl3); [unfold factor; by rewrite Em, Esh|].
    rewrite Ed, bind_Ok, Es, bind_Ok, Esh. eauto 10.
  - eauto 10.
  - destruct (filled_uniform _ _ _ _ _ _ g Hfl) as (h2 & g' & us & Ed & Hd & Hfl2); [by right|].
    destruct (io_inout _ _ Hc Em) as (n0 & n1 & rest & Esh & H0 & H1 & Hsum).
    destruct (filled_scale _ _ _ _ _ _ (by_sqrt (value c) (n0 + n1)) Hfl2) as (h3 & Es & Hfl3).
    { unfold factor. rewrite Em, Esh. simpl. unfold iadd. rewrite int_ret_Ok, bind_Ok by (unfold INT_MIN; lia). done. }
    rewrite Ed, bind_Ok, Es, bind_Ok, Esh. eauto 10.
Qed.
End filling.

Lemma version_holds d v h b ws : blob_holds h b ws -> blob_holds (set_blob d (set_version v b) h) (set_version v b) ws.
Proof. intros [H1 H2 H3 H4]. split; [exact H1|exact H2|exact H3|exact H4]. Qed.
Lemma version_heap_ok d v h b : heap_ok h -> blobs h !! d = Some b -> heap_ok (set_blob d (set_version v b) h).
Proof.
  intros [H1 H2 H3 H4] Hb. split; [exact H1|exact H2|exact H3|]. simpl. intros i b' Hi.
  destruct (decide (i = d)) as [->|Hne]; [by apply (H4 d b)|]. rewrite lookup_insert_ne in Hi by done. by apply (H4 i b').
Qed.

(** C26. The first values of a param, as the cases of [InitValues] compute them, which is not for every
    method what job.proto documents.  [InitValues] returns, and the values of the param's blob become:
    for kConstant the value; for kUniform draws in [low, high], and for kGaussian draws of the normal
    distribution (the mean itself for a deviation of at most 0), multiplied by the value; for
    kGaussainSqrtFanIn the same as for kGaussian, multiplied by the value over the root of the first dimension
    (documented: of the fan-in, which it is not for a convolution's weight); for kUniformSqrtFanInOut draws in [low, high] times the value over the root of the sum of the first
    two dimensions (documented: draws in [-a, a] with a = sqrt(6/(fan_in+fan_out))).  A value of 0
    leaves the draws as they are.  For kUniformSqrtFanIn (documented: draws in [-a, a] with
    a = sqrt(3)/sqrt(fan_in)) and kPretrained (documented: values of a previous training) nothing
    is drawn or copied, and the memory keeps its values.  The version is set in every case, no
    other blob changes, and no memory outside of the param's. *)
Theorem InitValues_spec (c : InitProto) (v : Z) (p : Param) (d : Z) (b : Blob) (vs : list Z) (g : gen) (h : heap)
    (Hc : init_ok c (shape_ b)) (Hok : heap_ok h) (Hp : pdata p = Some d) (Hb : blobs h !! d = Some b)
    (Hh : blob_holds h b vs) (Hn : 0 < count_ b <= INT_MAX) :
  exists h' g' q ws, Param_InitValues c v p g h = Ok (h', g') /\ heap_ok h' /\
    initial c (shape_ b) vs g g' ws /\ blob_holds h' (set_version v b) ws /\
    blobs h' = <[d := set_version v b]> (blobs h) /\
    (forall a m bs, a + Z.of_nat m <= q \/ q + sizeof_float * capacity_ b <= a ->
       peek (cells h) a m = Some bs -> peek (cells h') a m = Some bs).
Proof using L.
  destruct (sample_values_Ok c (shape_ b) Hc p d b vs h g Hok Hp Hb eq_refl Hh Hn) as (h1 & g' & q & ws & E & Hi & Hfl).
  destruct Hfl as [Hok1 [Hat _ _] Hbl Hfr]. simpl in Hat. rewrite app_nil_r in Hat. assert (Hb1 : blobs h1 !! d = Some b) by by rewrite Hbl.
  exists (set_blob d (set_version v b) h1), g', q, ws. unfold Param_InitValues, param_set_version.
  rewrite E, bind_Ok, Hp, deref_Some, bind_Ok, Hb1, deref_Some, bind_Ok. split; [done|].
  split; [by apply version_heap_ok|]. split; [done|]. split; [apply version_holds, Hat|]. split; [simpl; by rewrite Hbl|exact Hfr].
Qed.

(** A bias has one dimension: with the method that reads two, unless its value is 0, it cannot be
    initialised. *)
Lemma InitValues_bias c v p d b n vs g h :
  init_method c = kUniformSqrtFanInOut -> f32_eqb (value c) 0 = false -> Forall is_f32 [value c; low c; high c; mean c; std c] ->
  uniform_ok (low c) (high c) = true -> heap_ok h -> pdata p = Some d -> blobs h !! d = Some b ->
  shape_ b = [n] -> blob_holds h b vs -> 0 < count_ b <= INT_MAX -> Param_InitValues c v p g h = Undef.
Proof.
  intros Em Hv Hf Hu Hok Hp Hb Hsh Hh Hn. unfold Param_InitValues, sample_values, data_blob.
  rewrite Hp, deref_Some, bind_Ok, Hb, deref_Some, bind_Ok.
  destruct (filled_start h b vs Hok Hh Hn) as (h1 & q & E & Hfl). rewrite E, bind_Ok, Em.
  rewrite !list.Forall_cons in Hf. destruct Hf as (_ & Hlo & Hhi & _).
  destruct (filled_sample (within (low c) (high c)) (uniform_real (low c) (high c)) _ _ _ _ _ _ g Hfl)
    as (h' & us & Es & _); [intros; by apply uniform_within|by intros w [? _]|].
  unfold SampleUniform. rewrite Hu, Es, bind_Ok. unfold scale, factor. by rewrite Hv, Em, Hsh.
Qed.
End init_laws.

(** ** A generator: the ends of the interval in turn, and the mean *)
Module TurnRng.
Lemma leb_refl a b : f32_leb a b = true \/ f32_leb b a = true -> f32_leb a a = true.
Proof.
  unfold f32_leb. generalize (f32_decode a) (f32_decode b). intros x y H.
  assert (Hx : x <> S754_nan) by (intros ->; destruct H as [H|H]; [done|by destruct y]).
  destruct x as [?|[]| |[] m e]; try done; unfold SFleb, SFcompare; by rewrite Z.compare_refl, Pos.compare_refl.
Qed.
#[export] Instance turns : Rng := {
  gen := nat;
  uniform_real a b g := (if Nat.even g then a else b, S g);
  normal mu sigma g := (mu, S g);
}.
#[export] Instance turns_laws : RngLaws turns.
Proof.
  split; [|done]. intros a b g Ha Hb [H _]%andb_prop. unfold within. simpl. destruct (Nat.even g).
  - split; [done|]. split; [|done]. apply (leb_refl a b). by left.
  - split; [done|]. split; [done|]. apply (leb_refl b a). by right.
Qed.
End TurnRng.
#[local] Existing Instances TurnRng.turns TurnRng.turns_laws.
Module InitDemo.
(** A matrix of one row and three columns whose memory is not there yet. *)
Definition matrix : Blob := mkBlob (Some 0) [1; 3] 3 3 (-1).
Definition heap0 : heap := mkHeap ∅ 1 {[0 := mkSM 0 12 UNINITIALIZED false]} {[1 := matrix]} 2.
Definition start : @gen TurnRng.turns := 0%nat.
Definition conf : InitProto := mkInit kUniformSqrtFanInOut f32_one (f32_neg f32_one) f32_one 0 f32_one.
End InitDemo.
(** Draws of -1 and 1 over the root of 1 + 3. *)
Lemma InitValues_witness : exists h' g',
  Param_InitValues InitDemo.conf 5 (param_of 1 InitDemo.matrix) InitDemo.start InitDemo.heap0 = Ok (h', g') /\
  blob_holds h' (mkBlob (Some 0) [1; 3] 3 3 5) [0xbf000000; 0x3f000000; 0xbf000000].
Proof.
  destruct (InitValues_spec InitDemo.conf 5 (param_of 1 InitDemo.matrix) 1 InitDemo.matrix [0; 0; 0] InitDemo.start InitDemo.heap0)
    as (h' & g' & q & ws & E & _ & (us & (Eus & _ & _) & Ews) & Hh & _).
  - split; try done.
    + repeat constructor; vm_compute; done.
    + intros _. exists 1, 3, []. by vm_compute.
  - split; simpl; try done.
    + intros i s H. apply lookup_singleton_Some in H as [<- _]. done.
    + intros i b H. apply lookup_singleton_Some in H as [<- _]. done.
  - done.
  - done.
  - split; try done; [repeat constructor; done|]. exists 0, []. split; [done|]. split; [vm_compute; done|done].
  - done.
  - exists h', g'. split; [done|]. injection Eus as -> ->. by rewrite Ews in Hh.
Defined.
