(* ===== verification/NetStep.v ===== *)
(** * A training step of a worker with an updater of its own

    [TrainOneBatch] of a net of layers that compute, where the worker updates the params itself
    after the gradients of their layer: in the end every weight is what the updater makes of the
    weight and the gradient that solve the equations of all layers before the updates. *)

From Stdlib Require Import SpecFloat.
From S2P Require Import Prelude Float32 Msg Format Memory Param ParamProps ParamUpdate Server Cluster Worker WorkerProps LayerConf Layers LayersProps LayerCompute Mshadow MshadowProps LayerMath LayerMathProps LayerLinear InnerProductProps ActivationProps NetCompute ParamInit Updater UpdaterProps.

(** ** Updaters that know their place *)

(** An update writes only the memory of the param's values and of its gradient; the values become
    [stepped] of both.  The gradient may hold anything then. *)
Class LocalUpdater (U : Updater) := {
  stepped : Z -> ParamProto -> list Z -> list Z -> list Z;
  Update_local step h p b wp gp dims gdims vs gs :
    heap_ok h -> data_blob p h = Ok b -> image_at h b wp dims vs -> image_at h (Param.grad p) gp gdims gs ->
    separate [(b, wp); (Param.grad p, gp)] -> shape_size gdims = shape_size dims ->
    exists h' gs', Update step p h = Ok h' /\ wrote [(b, wp); (Param.grad p, gp)] h h' /\
      image_at h' b wp dims (stepped step (proto_ p) vs gs) /\ image_at h' (Param.grad p) gp gdims gs';
}.

(** *** SGD without momentum *)
Lemma image_set h b p dims vs ws : heap_ok h -> image_at h b p dims vs -> length ws = length vs -> Forall is_f32 ws ->
  exists h', set_tensor p ws h = Ok h' /\ wrote [(b, p)] h h' /\ image_at h' b p dims ws.
Proof.
  intros Hok [Ha Hd Hp Hi Hl] Hlen Hf. assert (at_cpu h b p ([] ++ vs ++ [])) as Ha' by by rewrite app_nil_r.
  destruct (put_part h b p [] vs [] [] (mkTensor [] ws) Hok Ha' Hlen Hf) as (h' & E & W & A).
  cbn [tvals app] in A. rewrite app_nil_r in A. exists h'. split; [|split; [exact W|by split; try done; rewrite Hlen]].
  unfold put in E. cbn [dptr tvals length] in E. by rewrite Z.add_0_r in E.
Qed.
Lemma image_tensor h b p dims vs n : image_at h b p dims vs -> n = shape_size dims -> Updater.tensor p n h = Ok vs.
Proof. intros [Ha _ _ _ Hl] ->. by eapply tensor_Ok. Qed.

Section sgd.
Context `{L : Libm}.
Lemma SGD_local u step h p b wp gp dims gdims vs gs mom :
  heap_ok h -> data_blob p h = Ok b -> image_at h b wp dims vs -> image_at h (Param.grad p) gp gdims gs ->
  separate [(b, wp); (Param.grad p, gp)] -> shape_size gdims = shape_size dims ->
  is_ok (GetLearningRate (u_proto u) step) = true -> momentum_ u = Some mom -> f32_ltb 0 mom = false ->
  exists h' gs', SGD_Update u step p h = Ok h' /\ wrote [(b, wp); (Param.grad p, gp)] h h' /\
    image_at h' b wp dims (sgd_values (f32_mul (lr_val (u_proto u) step) (lr_mult (proto_ p))) (wd_of (weight_decay_ u) p) vs gs) /\
    image_at h' (Param.grad p) gp gdims gs'.
Proof.
  intros Hok Hb Hw Hg Hs Hsize Hlr Hm Hmom. set (g := Param.grad p) in *. unfold lr_val.
  destruct (GetLearningRate (u_proto u) step) as [lr| | | |] eqn:Elr; try done. clear Hlr.
  set (l := f32_mul lr (lr_mult (proto_ p))). set (wd := wd_of (weight_decay_ u) p). set (n := shape_size dims) in *.
  assert (Hwg : Forall (apart b wp) [(g, gp)]) by (apart_in Hs).
  assert (Hgw : Forall (apart g gp) [(b, wp)]) by (apart_in Hs).
  pose proof (im_length _ _ _ _ _ Hw) as Lw. pose proof (im_length _ _ _ _ _ Hg) as Lg. fold n in Lw. rewrite Hsize in Lg.
  assert (Hlen : length gs = length vs) by lia.
  assert (exists h1, regularize wd wp gp n h = Ok h1 /\ wrote [(g, gp)] h h1 /\ image_at h1 g gp gdims (decayed wd vs gs))
    as (h1 & E1 & W1 & G1).
  { unfold regularize, decayed. destruct (f32_ltb 0 wd); [|exists h; split; [done|split; [by apply wrote_refl|done]]].
    rewrite (image_tensor _ _ _ _ _ n Hw eq_refl), bind_Ok, (image_tensor _ _ _ _ _ n Hg (eq_sym Hsize)), bind_Ok.
    apply (image_set h g gp gdims gs); [done..| |auto with singa]. by rewrite (length_f32s_add (length gs)) by (done || by rewrite length_scale). }
  pose proof (wrote_image _ _ _ _ _ _ _ W1 Hwg Hw) as Hw1.
  pose proof (length_decayed wd vs gs Hlen) as Hd.
  destruct (image_set h1 g gp gdims _ (scale (decayed wd vs gs) (f32_neg l)) (wr_ok _ _ _ W1) G1) as (h2 & E2 & W2 & G2);
    [by rewrite length_scale|auto with singa|].
  pose proof (wrote_image _ _ _ _ _ _ _ W2 Hwg Hw1) as Hw2.
  destruct (image_set h2 b wp dims _ (sgd_values l wd vs gs) (wr_ok _ _ _ W2) Hw2) as (h3 & E3 & W3 & G3);
    [|unfold sgd_values; auto with singa|].
  { unfold sgd_values. apply length_f32s_add; [done|]. by rewrite length_scale. }
  exists h3, (scale (decayed wd vs gs) (f32_neg l)). split; [|split; [|split; [exact G3|]]].
  - unfold SGD_Update, size, mutable_data_ptr, lr_of. fold g.
    assert (Hn : count_ b = n) by (rewrite (at_cpu_count _ _ _ _ (im_at _ _ _ _ _ Hw)); lia).
    destruct (at_cpu_data _ _ _ _ (im_at _ _ _ _ _ Hw)) as [_ Ew]. destruct (at_cpu_data _ _ _ _ (im_at _ _ _ _ _ Hg)) as [_ Eg].
    rewrite Hb, !bind_Ok, Hn, Ew, bind_Ok, Eg, bind_Ok, Elr, !bind_Ok. fold wd l. rewrite E1, bind_Ok, Hm, deref_Some, bind_Ok, Hmom.
    rewrite (image_tensor _ _ _ _ _ n G1 (eq_sym Hsize)), bind_Ok, E2, bind_Ok.
    by rewrite (image_tensor _ _ _ _ _ n Hw2 eq_refl), bind_Ok, (image_tensor _ _ _ _ _ n G2 (eq_sym Hsize)), bind_Ok.
  - assert (S1 : [(g, gp)] ⊆ [(b, wp); (g, gp)]) by (intros x Hx; by right).
    assert (S2 : [(b, wp)] ⊆ [(b, wp); (g, gp)]) by (intros x [->|[]%elem_of_nil]%elem_of_cons; by left).
    eapply wrote_trans; [exact (wrote_mono _ _ _ _ W1 S1)|].
    eapply wrote_trans; [exact (wrote_mono _ _ _ _ W2 S1)|exact (wrote_mono _ _ _ _ W3 S2)].
  - exact (wrote_image _ _ _ _ _ _ _ W3 Hgw G2).
Qed.

Lemma SGD_local_laws u : (forall step, is_ok (GetLearningRate (u_proto u) step) = true) ->
  (exists mom, momentum_ u = Some mom /\ f32_ltb 0 mom = false) -> LocalUpdater (SGD_updater u).
Proof.
  intros Hlr Hmom. refine {| stepped step pr vs gs :=
    sgd_values (f32_mul (lr_val (u_proto u) step) (lr_mult pr)) (f32_mul (weight_decay_ u) (wd_mult pr)) vs gs |}.
  intros step h p b wp gp dims gdims vs gs Hok Hb Hw Hg Hs Hsize. destruct Hmom as (mom & Hm & Hz).
  by apply (SGD_local u step h p b wp gp dims gdims vs gs mom).
Defined.
End sgd.

(** ** Duties followed by updates *)
Section updates.
Context (places : list place) (Hsep : separate (map region places)).
(** The new values of a param's data, and where the data and the gradient of a param are. *)
Context (new_data : Z -> list Z -> list Z -> list Z) (wk gk : Z -> nat).

(** The places an update of the params writes. *)
Definition touched (is_ : list Z) : list nat := concat (map (fun i => [wk i; gk i]) is_).
(** From [g] to [v] the params have been updated, each once, and no other place has changed. *)
Definition updated (is_ : list Z) (g v : nat -> list Z) : Prop :=
  (forall i, i ∈ is_ -> v (wk i) = new_data i (g (wk i)) (g (gk i))) /\ forall k, k ∉ touched is_ -> v k = g k.
(** No duty writes what an earlier one reads or writes, and what has been updated is not used later. *)
Fixpoint tidy (l : list (duty * list Z)) : Prop :=
  match l with
  | [] => True
  | (d, is_) :: l => duty_ok d /\
      (forall k, k ∈ reads d ++ writes d -> k ∉ concat (map (fun x => writes x.1) l)) /\
      (forall k, k ∈ touched is_ -> k ∉ concat (map (fun x => reads x.1 ++ writes x.1 ++ touched x.2) l)) /\ tidy l
  end.

Lemma in_touched is_ i : i ∈ is_ -> wk i ∈ touched is_ /\ gk i ∈ touched is_.
Proof.
  intros Hi. unfold touched. rewrite !list_elem_of_In, !in_concat.
  split; exists [wk i; gk i]; (split; [apply in_map_iff; exists i; split; [done|by apply list_elem_of_In]|simpl; auto]).
Qed.
Lemma touched_app is_ js : touched (is_ ++ js) = touched is_ ++ touched js.
Proof. unfold touched. by rewrite map_app, concat_app. Qed.
Lemma updated_same is_ g g' v : (forall k, g' k = g k) -> updated is_ g v -> updated is_ g' v.
Proof. intros E [H1 H2]. split; [intros i Hi; rewrite !E; by apply H1|intros k Hk; rewrite E; by apply H2]. Qed.
Lemma not_in_concat {A} (f : A -> list nat) l k x : k ∉ concat (map f l) -> x ∈ l -> k ∉ f x.
Proof.
  intros Hn Hx Hk. apply Hn. apply list_elem_of_In, in_concat. exists (f x).
  split; [by apply in_map, list_elem_of_In|by apply list_elem_of_In].
Qed.

Lemma tidy_ok d is_ l : tidy l -> (d, is_) ∈ l -> duty_ok d.
Proof. induction l as [|[e js] l IH]; [by intros _ ?%elem_of_nil|]. intros (H & _ & _ & Ht) [[= <- <-]|Hin]%elem_of_cons; auto. Qed.

(** The values between a step and the end of the loop: those that are updated as they were when they
    were used, the others as they are in the end. *)
Lemma updated_join d is_ l (g1 v1 g2 v2 : nat -> list Z) :
  let js := concat (map snd l) in
  (forall k, k ∈ reads d ++ writes d -> k ∉ concat (map (fun x => writes x.1) l)) ->
  (forall k, k ∈ touched is_ -> k ∉ concat (map (fun x => reads x.1 ++ writes x.1 ++ touched x.2) l)) ->
  solves d g1 -> updated is_ g1 v1 -> (forall k, k ∉ concat (map (fun x => writes x.1) l) -> g2 k = v1 k) ->
  (forall x, x ∈ l -> solves x.1 g2) -> updated js g2 v2 ->
  exists g, solves d g /\ (forall x, x ∈ l -> solves x.1 g) /\ updated (is_ ++ js) g v2 /\
    forall k, k ∉ concat (map (fun x => writes x.1) l) -> g k = g1 k.
Proof.
  intros js Hd Ht Sd [U1 K1] Hk Sl [U2 K2].
  assert (Ht' : forall k, k ∈ touched is_ -> (k ∉ concat (map (fun x => writes x.1) l)) /\ (k ∉ touched js) /\
    forall x, x ∈ l -> k ∉ reads x.1 ++ writes x.1).
  { intros k Hin. specialize (Ht k Hin). clear -Ht. subst js. induction l as [|x l IH]; simpl in *.
    - split; [apply not_elem_of_nil|]. split; [apply not_elem_of_nil|]. by intros x ?%elem_of_nil.
    - rewrite !elem_of_app in Ht. destruct (IH ltac:(tauto)) as (H1 & H2 & H3). rewrite touched_app, !elem_of_app.
      split; [tauto|]. split; [tauto|]. intros y [->|Hy]%elem_of_cons; [rewrite elem_of_app; tauto|by apply H3]. }
  set (g := fun k => if bool_decide (k ∈ touched is_) then g1 k else g2 k).
  assert (Gin : forall k, k ∈ touched is_ -> g k = g1 k) by (intros k Hin; unfold g; by rewrite bool_decide_true).
  assert (Gout : forall k, k ∉ touched is_ -> g k = g2 k) by (intros k Hin; unfold g; by rewrite bool_decide_false).
  assert (G1 : forall k, k ∉ concat (map (fun x => writes x.1) l) -> g k = g1 k).
  { intros k Hn. destruct (decide (k ∈ touched is_)) as [Hin|Hin]; [by apply Gin|]. rewrite Gout, Hk by done. by apply K1. }
  exists g. split; [|split; [|split; [split|exact G1]]].
  - apply (solves_same d g1); [|done]. intros k Hin. by apply G1, Hd.
  - intros x Hx. apply (solves_same _ g2); [|by apply Sl]. intros k Hin. apply Gout. intros Hn. by apply (Ht' k Hn) in Hin.
  - intros i [Hi|Hi]%elem_of_app.
    + destruct (in_touched is_ i Hi) as [Hw Hg]. rewrite !Gin by done. destruct (Ht' _ Hw) as (Hnw & Hnt & _).
      by rewrite K2, Hk, U1.
    + destruct (in_touched js i Hi) as [Hw Hg]. rewrite !Gout; [by apply U2|..]; intros Hin; by apply (Ht' _ Hin).
  - intros k. rewrite touched_app, elem_of_app. intros Hn. rewrite Gout, K2 by tauto. done.
Qed.

(** A loop whose steps do their duties and then update params, with what the steps left to do need. *)
Lemma for_each_updates {C : Czmq} {X : Type} (f : X -> state -> outcome state) (d : X -> duty) (us : X -> list Z)
    (P : list X -> state -> Prop) l : tidy (map (fun x => (d x, us x)) l) ->
  (forall x l' s vals, x ∈ l -> P (x :: l') s -> stored places vals (hp (wd s)) -> exists s' new v,
     f x s = Ok s' /\ P l' s' /\ stored places v (hp (wd s')) /\ length new = length (writes (d x)) /\
     means (d x) (map vals (reads (d x))) new /\ updated (us x) (override (writes (d x)) new vals) v) ->
  forall s vals, P l s -> stored places vals (hp (wd s)) -> exists s' g v, for_each f l s = Ok s' /\ P [] s' /\
    stored places v (hp (wd s')) /\ (forall k, k ∉ concat (map writes (map d l)) -> g k = vals k) /\
    (forall x, x ∈ l -> solves (d x) g) /\ updated (concat (map us l)) g v.
Proof.
  induction l as [|x l IH]; intros Ht Hf s vals Hs Hv.
  { exists s, vals, vals. split; [done|]. split; [done|]. split; [done|]. split; [done|].
    split; [by intros x ?%elem_of_nil|]. split; [by intros i ?%elem_of_nil|done]. }
  destruct Ht as ([Hnd Hrw] & Hd & Htd & Ht).
  assert (Ew : forall l, concat (map (fun x => writes x.1) (map (fun x => (d x, us x)) l)) = concat (map writes (map d l)))
    by (intros ?; by rewrite !map_map).
  assert (Eu : map snd (map (fun x => (d x, us x)) l) = map us l) by by rewrite map_map.
  destruct (Hf x l s vals ltac:(left) Hs Hv) as (s1 & new & v1 & E1 & P1 & V1 & Hn & Hm & U1).
  set (g1 := override (writes (d x)) new vals) in *.
  assert (S1 : solves (d x) g1).
  { unfold solves, g1. rewrite override_in by done. rewrite (map_same vals); [done|]. intros k Hk. by apply override_out, Hrw. }
  destruct (IH Ht (fun y l' s vals Hy => Hf y l' s vals (list_elem_of_further _ _ _ Hy)) s1 v1 P1 V1)
    as (s2 & g2 & v2 & E2 & P2 & V2 & K2 & S2 & U2).
  destruct (updated_join (d x) (us x) (map (fun x => (d x, us x)) l) g1 v1 g2 v2) as (g & Sx & Sl & Ug & Kg); try done.
  { intros k. rewrite Ew. apply K2. }
  { intros y Hy. apply list_elem_of_fmap in Hy as (z & -> & Hz). by apply S2. }
  { by rewrite Eu. }
  exists s2, g, v2. simpl. rewrite E1, bind_Ok. split; [done|]. split; [done|]. split; [done|]. split; [|split].
  - intros k. rewrite elem_of_app. intros Hk. rewrite Kg by (rewrite Ew; tauto). apply override_out. tauto.
  - intros y [->|Hy]%elem_of_cons; [done|]. apply (Sl (d y, us y)). apply list_elem_of_fmap. by exists y.
  - by rewrite Eu in Ug.
Qed.
End updates.

(** ** The passes of a worker that updates its params itself *)
Section step.
Context `{C : Czmq} `{U : LocalUpdater} `{L : BlasLaws} `{M : Mathf}.
Context (other_feature : Z -> Phase -> nstate -> outcome nstate).
Context (objs : gmap Z LayerObj) (next : Z) (loss : Z -> world -> outcome world) (smp : Param -> heap -> outcome heap).
Context (places : list place) (Hsep : separate (map region places)).
Context (weights : list (Z * Blob * Blob)).
#[local] Instance stepping : Worker.Layers := net_layers other_feature objs next loss smp.
Context (t : Worker) (net : list Layer) (unit_of : Z -> net_unit).
Context (Hfits : forall n l, (n, l) ∈ own t net -> fits other_feature objs next places weights n (unit_of n))
  (Hbridge : no_bridge t net) (Hlocal : updater_ t = true).
(** The configuration of each param, and the places of its data and its gradient. *)
Context (protos : Z -> ParamProto) (wk gk : Z -> nat).
Context (Hplaces : forall i, i ∈ own_params t net -> exists b g wp gp dims gdims, (i, b, g) ∈ weights /\
  places !! wk i = Some (mkPlace b wp dims) /\ places !! gk i = Some (mkPlace g gp gdims) /\
  wk i <> gk i /\ shape_size gdims = shape_size dims).

(** The params are ahead of what has been asked for, and their versions can be raised [n] times. *)
Definition can_update (n : Z) (w : world) : Prop :=
  answered weights t net w /\ forall i, i ∈ own_params t net -> exists p v, params w !! i = Some p /\
    version p (hp w) = Ok v /\ INT_MIN < v /\ v + n <= INT_MAX /\ proto_ p = protos i.
Definition new_data (stp i : Z) : list Z -> list Z -> list Z := stepped stp (protos i).

Lemma same_blobs_can_update n w h : blobs h = blobs (hp w) -> can_update n w -> can_update n (set_hp h w).
Proof.
  intros Hb [Ha Hc]. split; [by apply same_blobs_answered|]. intros i Hi. destruct (Hc i Hi) as (p & v & Hp & Hv & H).
  exists p, v. split; [done|]. split; [by eapply same_blobs_version|done].
Qed.
Lemma stored_same vals h h' : sms h' = sms h -> cells h' = cells h -> heap_ok h' -> stored places vals h -> stored places vals h'.
Proof.
  intros Hs Hc Hok [_ Hh]. split; [done|]. intros k p Hk. destruct (Hh k p Hk) as [Ha Hd Hp Hi Hl]. split; try done.
  eapply at_cpu_frame; [exact Ha|by rewrite Hs|]. intros a _. by rewrite Hc.
Qed.

(** The params when one of them has been updated: versions do not go down, nor up by more than one. *)
Lemma raised i p d b w : params w !! i = Some p -> pdata p = Some d -> blobs (hp w) !! d = Some b ->
  let w' := set_hp (set_blob d (set_version (version_ b + 1) b) (hp w)) (put_param i (set_local_version (version_ b) p) (hp w) w) in
  forall j r c, params w !! j = Some r -> data_blob r (hp w) = Ok c -> exists r' u, params w' !! j = Some r' /\
    data_blob r' (hp w') = Ok (set_version u c) /\ Param.grad r' = Param.grad r /\ proto_ r' = proto_ r /\
    version_ c <= u <= version_ c + 1 /\ (local_version r < version_ c -> local_version r' < u).
Proof.
  intros Hp Hd Hb w' j r c Hr Hc. unfold data_blob in Hc |- *. unfold w'. simpl.
  destruct (decide (i = j)) as [<-|Hne].
  - rewrite Hp in Hr. injection Hr as <-. rewrite Hd in Hc. simpl in Hc. rewrite Hb in Hc. injection Hc as <-.
    exists (set_local_version (version_ b) p), (version_ b + 1). rewrite lookup_insert_eq. split; [done|]. simpl.
    rewrite Hd. simpl. rewrite lookup_insert_eq. split_and!; try done; lia.
  - rewrite lookup_insert_ne by done. destruct (pdata r) as [e|] eqn:Er; [|done]. simpl in Hc.
    destruct (decide (d = e)) as [<-|Hde].
    + rewrite Hb in Hc. injection Hc as <-. exists r, (version_ b + 1). rewrite Er. simpl. rewrite lookup_insert_eq.
      split_and!; try done; lia.
    + exists r, (version_ c). rewrite Er. simpl. rewrite lookup_insert_ne by done.
      destruct (blobs (hp w) !! e) as [x|]; [|done]. injection Hc as ->. split_and!; try done; [by destruct c|lia..].
Qed.
Lemma raised_can_update n i p d b w : can_update (n + 1) w -> params w !! i = Some p -> pdata p = Some d ->
  blobs (hp w) !! d = Some b ->
  can_update n (set_hp (set_blob d (set_version (version_ b + 1) b) (hp w)) (put_param i (set_local_version (version_ b) p) (hp w) w)).
Proof.
  intros [[Hw Ha] Hc] Hp Hd Hb. pose proof (raised i p d b w Hp Hd Hb) as R. simpl in R. split; [split|].
  - intros j c g Hj. destruct (Hw j c g Hj) as (r & v & Hr & Hv & Hg).
    destruct (R j r _ Hr Hv) as (r' & u & Hr' & Hu & Hg' & _). exists r', u. split; [done|]. split; [exact Hu|congruence].
  - intros j Hj. destruct (Ha j Hj) as (r & v & Hr & Hv & Hl). apply bind_Ok_inv in Hv as (c & Hv & [= <-]).
    destruct (R j r c Hr Hv) as (r' & u & Hr' & Hu & _ & _ & _ & Hl'). exists r', u. split; [exact Hr'|].
    split; [|by apply Hl']. unfold version. simpl in Hu |- *. by rewrite Hu.
  - intros j Hj. destruct (Hc j Hj) as (r & v & Hr & Hv & Hlo & Hhi & Hpr). apply bind_Ok_inv in Hv as (c & Hv & [= <-]).
    destruct (R j r c Hr Hv) as (r' & u & Hr' & Hu & _ & Hpr' & Hrange & _). exists r', u. split; [exact Hr'|].
    split; [unfold version; simpl in Hu |- *; by rewrite Hu|]. rewrite Hpr'. split_and!; try done; lia.
Qed.

(** One update. *)
Lemma wrote_version v b p l h h' : wrote ((set_version v b, p) :: l) h h' -> wrote ((b, p) :: l) h h'.
Proof. intros [Hok Hs Hc Hb]. split; try done. intros a Ha. apply Hc. apply list.Forall_cons in Ha as [H1 H2]. by constructor. Qed.
Lemma update_values stp i p w vals v : i ∈ own_params t net -> weights_at weights w -> params w !! i = Some p ->
  version p (hp w) = Ok v -> proto_ p = protos i -> stored places vals (hp w) ->
  exists h' vals', Update stp (set_local_version v p) (hp w) = Ok h' /\ blobs h' = blobs (hp w) /\ stored places vals' h' /\
    updated (new_data stp) wk gk [i] vals vals'.
Proof.
  intros Hi Hw Hp Hver Hproto Hv. destruct (Hplaces i Hi) as (b & g & wp & gp & dims & gdims & Hwt & Pw & Pg & Hne & Hsize).
  destruct (Hw i b g Hwt) as (p' & u & Hp' & Hb & Hg). rewrite Hp in Hp'. injection Hp' as <-. subst g.
  assert (Hnd : NoDup [wk i; gk i]) by (apply list.NoDup_cons; split; [by intros ?%list_elem_of_singleton|apply list.NoDup_singleton]).
  destruct (Update_local stp (hp w) (set_local_version v p) (set_version u b) wp gp dims gdims (vals (wk i)) (vals (gk i)))
    as (h' & gs & E & W & Iw & Ig); [apply Hv|exact Hb|exact (image_version _ _ _ _ _ _ (st_holds places _ _ Hv _ _ Pw))|
      exact (st_holds places _ _ Hv _ _ Pg)| |done|].
  { eapply separate_same; [|apply (separate_places places Hsep [wk i; gk i]
      [mkPlace b wp dims; mkPlace (Param.grad p) gp gdims] Hnd); repeat constructor; [exact Pw|exact Pg]].
    by repeat constructor. }
  apply wrote_version in W. simpl in W.
  exists h', (override [wk i; gk i] [new_data stp i (vals (wk i)) (vals (gk i)); gs] vals).
  split; [done|]. split; [exact (wr_blobs _ _ _ W)|]. split.
  - apply (did_stored places Hsep (mkDuty [] [wk i; gk i] (fun _ _ => True)) vals (hp w) h'); [split; [done|by intros k ?%elem_of_nil]|done|].
    split; [|constructor; [|constructor; [|constructor]]|done].
    + simpl. rewrite (regions_cons _ _ _ _ Pw), (regions_cons _ _ _ _ Pg). exact W.
    + eexists. split; [exact Pw|]. simpl in Iw. rewrite Hproto in Iw. pose proof (image_version (version_ b) _ _ _ _ _ Iw) as I. by destruct b.
    + eexists. split; [exact Pg|exact Ig].
  - split.
    + intros j [->|[]%elem_of_nil]%elem_of_cons. simpl. by rewrite decide_True.
    + intros k Hk. by apply override_out.
Qed.
Lemma update_one stp n i s vals : i ∈ own_params t net -> 0 <= n -> can_update (n + 1) (wd s) -> stored places vals (hp (wd s)) ->
  exists s' v, Update_param t i stp s = Ok s' /\ can_update n (wd s') /\ stored places v (hp (wd s')) /\
    updated (new_data stp) wk gk [i] vals v.
Proof.
  intros Hi Hn Hc Hv. destruct (proj2 Hc i Hi) as (p & u & Hp & Hver & Hlo & Hhi & Hproto).
  destruct (update_values stp i p (wd s) vals u Hi (proj1 (proj1 Hc)) Hp Hver Hproto Hv) as (h' & v & E & Hbl & V & Hup).
  pose proof Hver as Hb. unfold version, data_blob in Hb. destruct (pdata p) as [d|] eqn:Hd; [|done]. simpl in Hb.
  destruct (blobs (hp (wd s)) !! d) as [b|] eqn:Eb; [|done]. injection Hb as <-.
  pose proof (raised_can_update n i p d b (wd s) Hc Hp Hd Eb) as R.
  set (q := set_local_version (version_ b) p) in *. set (c := set_version (version_ b + 1) b) in *.
  exists (set_world (set_hp (set_blob d c h') (put_param i q (hp (wd s)) (wd s))) s), v. split; [|split; [|split; [|exact Hup]]].
  - unfold Update_param, get_param. rewrite Hp, deref_Some, bind_Ok, Hver, bind_Ok, Hlocal. fold q. simpl. rewrite E, bind_Ok.
    assert (Ev : version q h' = Ok (version_ b)).
    { unfold version, data_blob in Hver |- *. rewrite Hbl. simpl. rewrite Hd in *. exact Hver. }
    rewrite Ev, bind_Ok, int_ret_Ok, bind_Ok by lia. unfold param_set_version. simpl.
    by rewrite Hd, deref_Some, bind_Ok, Hbl, Eb, deref_Some, !bind_Ok.
  - apply (same_blobs_can_update _ _ (set_blob d c h')) in R; [exact R|]. simpl. by rewrite Hbl.
  - simpl. apply (stored_same v h'); try done. apply version_heap_ok; [apply V|by rewrite Hbl].
Qed.

(** The updates of a layer's params. *)
Lemma tidy_single is_ : NoDup (touched wk gk is_) -> tidy wk gk (map (fun i => (idle, [i])) is_).
Proof.
  induction is_ as [|i is_ IH]; [done|]. intros Hnd. change (i :: is_) with ([i] ++ is_) in Hnd. rewrite touched_app in Hnd.
  apply list.NoDup_app in Hnd as (_ & Hd & Hnd). split; [by split; [constructor|intros k ?%elem_of_nil]|].
  split; [by intros k ?%elem_of_nil|]. split; [|by apply IH]. intros k Hk Hin. apply (Hd k Hk). revert Hin. clear.
  induction is_ as [|j is_ IH]; [done|].
  change (touched wk gk (j :: is_)) with (wk j :: gk j :: touched wk gk is_). simpl. rewrite !elem_of_cons. intros [?|[?|?]]; auto.
Qed.
Lemma update_list stp n is_ s vals : (forall i, i ∈ is_ -> i ∈ own_params t net) -> NoDup (touched wk gk is_) -> 0 <= n ->
  can_update (Z.of_nat (length is_) + n) (wd s) -> stored places vals (hp (wd s)) ->
  exists s' v, for_each (fun i => Update_param t i stp) is_ s = Ok s' /\ can_update n (wd s') /\ stored places v (hp (wd s')) /\
    updated (new_data stp) wk gk is_ vals v.
Proof.
  intros Hi Hnd Hn Hc Hv.
  destruct (for_each_updates places (new_data stp) wk gk (fun i => Update_param t i stp) (fun _ => idle) (fun i => [i])
    (fun l s => can_update (Z.of_nat (length l) + n) (wd s)) is_ (tidy_single is_ Hnd)) with (s := s) (vals := vals)
    as (s' & g & v & E & P & V & K & _ & Hup); [|done..|].
  - intros i l s0 vals0 Hin Hc0 Hv0. destruct (update_one stp (Z.of_nat (length l) + n) i s0 vals0) as (s' & v & E & Hc' & V & Hup);
      [by apply Hi|lia| |done|].
    { replace (Z.of_nat (length l) + n + 1) with (Z.of_nat (length (i :: l)) + n) by (simpl length; lia). done. }
    by exists s', [], v.
  - exists s', v. split; [done|]. split; [exact P|]. split; [done|].
    assert (Es : concat (map (fun i => [i]) is_) = is_) by (clear; induction is_; simpl; congruence). rewrite Es in Hup.
    eapply updated_same; [|exact Hup]. intros k. symmetry. apply K. clear. induction is_ as [|i is_ IH]; [by intros ?%elem_of_nil|done].
Qed.

(** A layer backwards, and all of them. *)
Lemma backward_updates stp n nl s vals : nl ∈ own t net -> NoDup (touched wk gk (lparams nl.2)) -> 0 <= n ->
  duty_ok (gradient_duty (unit_of nl.1)) ->
  can_update (Z.of_nat (length (lparams nl.2)) + n) (wd s) -> stored places vals (hp (wd s)) -> exists s' new v,
    backward_layer t stp nl s = Ok s' /\ can_update n (wd s') /\ stored places v (hp (wd s')) /\
    length new = length (writes (gradient_duty (unit_of nl.1))) /\
    means (gradient_duty (unit_of nl.1)) (map vals (reads (gradient_duty (unit_of nl.1)))) new /\
    updated (new_data stp) wk gk (lparams nl.2) (override (writes (gradient_duty (unit_of nl.1))) new vals) v.
Proof.
  destruct nl as [m l]. intros Hl Hnd Hn Hd Hc Hv. destruct (own_partition t net Hbridge m l Hl) as (Hp & Hs & _). simpl in *.
  destruct (proj2 (fits_promises other_feature objs next places Hsep weights m kTrain _ (Hfits m l Hl)) (wd s) vals (proj1 (proj1 Hc)) Hv)
    as (h' & new & E & D).
  destruct (did_stored places Hsep _ _ _ _ _ Hd Hv D) as [V1 _].
  destruct (update_list stp n (lparams l) (emit (Gradient m) (set_world (set_hp h' (wd s)) s))
    (override (writes (gradient_duty (unit_of m))) new vals)) as (s' & v & E' & Hc' & V & Hup); [|done..| |exact V1|].
  { intros i Hi. by apply (in_own_params t net m l). }
  { simpl. apply same_blobs_can_update; [|done]. exact (wr_blobs _ _ _ (di_wrote _ _ _ _ _ _ D)). }
  exists s', new, v. split; [|split_and!; try done].
  - unfold backward_layer, compute_gradient. rewrite Hp, Hs. simpl. rewrite E, !bind_Ok. exact E'.
  - symmetry. exact (Forall2_length (di_new _ _ _ _ _ _ D)).
  - exact (di_means _ _ _ _ _ _ D).
Qed.

(** The duties backwards, with the params of each layer. *)
Definition backward_duties : list (duty * list Z) :=
  map (fun nl => (gradient_duty (unit_of nl.1), lparams nl.2)) (reverse (own t net)).
Definition params_backwards : list Z := concat (map snd backward_duties).

Lemma Backward_updates stp n s vals : tidy wk gk backward_duties ->
  (forall m l, (m, l) ∈ own t net -> NoDup (touched wk gk (lparams l))) -> 0 <= n ->
  can_update (Z.of_nat (length params_backwards) + n) (wd s) -> stored places vals (hp (wd s)) ->
  exists s' g v, Backward t stp net s = Ok s' /\ can_update n (wd s') /\ stored places v (hp (wd s')) /\
    (forall k, k ∉ concat (map writes (map (fun nl => gradient_duty (unit_of nl.1)) (reverse (own t net)))) -> g k = vals k) /\
    (forall nl, nl ∈ own t net -> solves (gradient_duty (unit_of nl.1)) g) /\
    updated (new_data stp) wk gk params_backwards g v.
Proof.
  intros Ht Hnd Hn Hc Hv. unfold Backward. rewrite (for_each_own _ (fun nl => lpartition nl.2 = w_id t)).
  2:{ intros [m l] s0 Hne. simpl in Hne. unfold backward_layer. by destruct (Z.eqb_spec (lpartition l) (w_id t)). }
  rewrite list.filter_reverse. fold (own t net) in *.
  assert (Ep : forall l : list (Z * Layer), concat (map snd (map (fun nl => (gradient_duty (unit_of nl.1), lparams nl.2)) l)) =
    concat (map (fun nl => lparams nl.2) l)) by (intros l; by rewrite map_map).
  unfold params_backwards, backward_duties in *. rewrite Ep in *.
  destruct (for_each_updates places (new_data stp) wk gk (backward_layer t stp) (fun nl => gradient_duty (unit_of nl.1))
    (fun nl => lparams nl.2) (fun l s => can_update (Z.of_nat (length (concat (map (fun nl => lparams nl.2) l))) + n) (wd s))
    (reverse (own t net)) Ht) with (s := s) (vals := vals) as (s' & g & v & E & P & V & K & S & Hup); [|done..|].
  - intros nl l s0 vals0 Hin Hc0 Hv0. rewrite elem_of_reverse in Hin.
    simpl in Hc0. rewrite length_app in Hc0.
    destruct (backward_updates stp (Z.of_nat (length (concat (map (fun nl => lparams nl.2) l))) + n) nl s0 vals0)
      as (s' & new & v & H); [done|destruct nl; by eapply Hnd|lia| | |done|].
    { eapply tidy_ok; [exact Ht|]. apply list_elem_of_fmap. exists nl. by rewrite elem_of_reverse. }
    { by rewrite Nat2Z.inj_add, <- Z.add_assoc in Hc0. }
    by exists s', new, v.
  - exists s', g, v. split; [done|]. split; [exact P|]. split; [done|]. split; [done|]. split; [|done].
    intros nl Hnl. apply S. by apply elem_of_reverse.
Qed.

Lemma own_params_backwards i : i ∈ params_backwards <-> i ∈ own_params t net.
Proof.
  unfold params_backwards, backward_duties, own_params. rewrite map_map. simpl. rewrite !list_elem_of_In, !in_concat.
  split; intros (x & (nl & <- & Hl)%in_map_iff & Hx); exists (lparams nl.2); (split; [|done]); apply in_map_iff; exists nl;
    (split; [done|]); rewrite <- list_elem_of_In in *; by rewrite elem_of_reverse in *.
Qed.

(** C3. A training step of a worker with an updater of its own.  When the blobs of its layers are apart, its layers
    keep their duties in an order in which none overwrites what an earlier one used, each param is
    updated once, after the gradients of its layer, and no later layer uses it, [TrainOneBatch]
    returns.  There are values [g], with the old ones wherever no layer writes, that solve the
    equations of all the layers at once, forwards and backwards; in the end every param's data are
    what the updater makes of its data and its gradient in [g], all other places hold [g], and
    the params are ahead for the next step, their versions one step closer to the end of [int]. *)
Theorem TrainOneBatch_updates (stp n : Z) (s : state) (vals : nat -> list Z)
    (Hordered : ordered (batch_duties t net unit_of)) (Htidy : tidy wk gk backward_duties)
    (Honce : forall m l, (m, l) ∈ own t net -> NoDup (touched wk gk (lparams l)))
    (Hn : 0 <= n) (Hversions : can_update (Z.of_nat (length params_backwards) + n) (wd s)) (Hstored : stored places vals (hp (wd s))) :
  exists s' g vals', TrainOneBatch t stp net s = Ok s' /\ stored places vals' (hp (wd s')) /\ can_update n (wd s') /\
    (forall k, k ∉ concat (map writes (batch_duties t net unit_of)) -> g k = vals k) /\
    (forall m l, (m, l) ∈ own t net -> solves (feature_duty (unit_of m)) g /\ solves (gradient_duty (unit_of m)) g) /\
    (forall i, i ∈ own_params t net -> vals' (wk i) = stepped stp (protos i) (g (wk i)) (g (gk i))) /\
    forall k, k ∉ touched wk gk (own_params t net) -> vals' k = g k.
Proof.
  destruct (ordered_app _ _ Hordered) as (Hf & _ & Hkeep).
  destruct (Forward_solves other_feature objs next loss smp places Hsep weights t net unit_of Hfits Hbridge kTrain s vals Hf
    (proj1 Hversions) Hstored) as (s1 & v1 & E1 & (A1 & Ep & Eb) & V1 & K1 & S1).
  destruct (Backward_updates stp n s1 v1 Htidy Honce Hn) as (s2 & g & v2 & E2 & C2 & V2 & K2 & S2 & Hnew & Hkept); [|done|].
  { split; [done|]. intros i Hi. destruct (proj2 Hversions i Hi) as (p & v & Hp & Hv & H). exists p, v.
    split; [by rewrite Ep|]. split; [|done]. by eapply same_blobs_version. }
  pose proof own_params_backwards as Eo. assert (E1' : Forward t kTrain net s = Ok s1) by exact E1.
  exists s2, g, v2. split; [unfold TrainOneBatch; by rewrite E1', bind_Ok|]. split; [done|]. split; [done|]. split; [|split; [|split]].
  - unfold batch_duties. intros k Hk. rewrite map_app, concat_app, elem_of_app in Hk. rewrite K2, K1 by tauto. done.
  - intros m l Hl. split; [|by apply (S2 (m, l))]. apply (solves_same _ v1); [|by apply (S1 (m, l))]. intros k Hk. apply K2.
    apply (Hkeep _ k (list_elem_of_fmap_2 (fun nl => feature_duty (unit_of nl.1)) _ _ Hl) Hk).
  - intros i Hi. by apply Hnew, Eo.
  - intros k Hk. apply Hkept. intros Hin. apply Hk. unfold touched in *. rewrite list_elem_of_In, in_concat in *.
    destruct Hin as (x & (i & <- & Hi)%in_map_iff & Hx). exists [wk i; gk i]. split; [|done]. apply in_map_iff. exists i.
    split; [done|]. rewrite <- list_elem_of_In in *. by apply Eo.
Qed.
End step.

(** ** A step of the net of [NetDemo] *)
Import TextbookBlas.
Module StepDemo.
Import NetDemo.
Definition worker : Worker := mkWorker 0 0 0 (modelproto_ NetDemo.worker) true.
#[export] Existing Instance demo_libm.
#[export] Instance sgd : Updater := SGD_updater demo_updater.
#[export] Instance sgd_local : @LocalUpdater sgd.
Proof. apply SGD_local_laws; [done|]. by exists 0. Defined.
Definition wk (i : Z) : nat := if i =? 0 then 1%nat else 2%nat.
Definition gk (i : Z) : nat := if i =? 0 then 5%nat else 6%nat.
Lemma step_places i : i ∈ own_params worker net -> exists b g wp gp dims gdims, (i, b, g) ∈ weights /\
  places !! wk i = Some (mkPlace b wp dims) /\ places !! gk i = Some (mkPlace g gp gdims) /\
  wk i <> gk i /\ shape_size gdims = shape_size dims.
Proof.
  intros Hi. change (i ∈ [0; 1]) in Hi. rewrite !elem_of_cons in Hi.
  destruct Hi as [->|[->|[]%elem_of_nil]]; eexists _, _, _, _, _, _;
    (split; [|split; [reflexivity|split; [reflexivity|split; [discriminate|reflexivity]]]]); [left|right; left].
Qed.
Lemma step_params i : i ∈ own_params worker net -> exists p, params store !! i = Some p /\ version p heap0 = Ok (-1) /\
  local_version p = -2 /\ proto_ p = ParamProto_default.
Proof.
  intros Hi. change (i ∈ [0; 1]) in Hi. rewrite !elem_of_cons in Hi.
  destruct Hi as [->|[->|[]%elem_of_nil]]; eexists; split_and!; reflexivity.
Qed.
Lemma step_ready : can_update weights worker net (fun _ => ParamProto_default) 1000 store.
Proof.
  split; [split|].
  - intros i b g Hi. unfold weights in Hi. rewrite !elem_of_cons in Hi.
    destruct Hi as [[= -> -> ->]|[[= -> -> ->]|[]%elem_of_nil]]; eexists _, (-1); (split; [reflexivity|split; reflexivity]).
  - intros i Hi. destruct (step_params i Hi) as (p & Hp & Hv & Hl & _). exists p, (-1). split; [done|]. split; [done|lia].
  - intros i Hi. destruct (step_params i Hi) as (p & Hp & Hv & _ & Hpr). exists p, (-1). split; [done|]. split; [done|].
    split_and!; try done.
Qed.
Lemma step_tidy : tidy wk gk (backward_duties worker net unit_of).
Proof.
  change (backward_duties worker net unit_of) with
    [(gradient_duty (unit_of 2), []); (gradient_duty (unit_of 1), [0; 1]); (gradient_duty (unit_of 0), [])].
  simpl. unfold duty_ok. simpl. split_and!; try done; try (apply (bool_decide_unpack _); vm_compute; done);
    apply list.Forall_forall, (bool_decide_unpack _); vm_compute; done.
Qed.
Lemma step_once m l : (m, l) ∈ own worker net -> NoDup (touched wk gk (lparams l)).
Proof.
  intros Hl. change (own worker net) with [(0, layer []); (1, layer [0; 1]); (2, layer [])] in Hl.
  rewrite !elem_of_cons in Hl. destruct Hl as [[= -> ->]|[[= -> ->]|[[= -> ->]|[]%elem_of_nil]]];
    apply (bool_decide_unpack _); vm_compute; done.
Qed.
End StepDemo.
#[local] Existing Instances ListCzmq.czmq ListCzmq.czmq_laws NetDemo.net_maths StepDemo.sgd StepDemo.sgd_local.
(** The gradients of the weights (10, 100) and of the bias 5 are (1, 2) and 1; with a learning rate of 1 they
    become 9, 98 and 4. *)
Lemma TrainOneBatch_updates_witness : exists s' v,
  @TrainOneBatch _ _ (computing NetDemo.nothing NetDemo.objs 3 (fun _ w => Ok w) (fun _ h => Ok h))
    StepDemo.worker 5 NetDemo.net (mkState NetDemo.store ∅ [] [] []) = Ok s' /\
  stored NetDemo.places v (hp (wd s')) /\ answered NetDemo.weights StepDemo.worker NetDemo.net (wd s') /\
  at_ (v 1%nat) 0 = f32_of_Z 9 /\ at_ (v 1%nat) 1 = f32_of_Z 98 /\ at_ (v 2%nat) 0 = f32_of_Z 4.
Proof.
  destruct (TrainOneBatch_updates NetDemo.nothing NetDemo.objs 3 (fun _ w => Ok w) (fun _ h => Ok h) NetDemo.places
    NetDemo.net_apart NetDemo.weights StepDemo.worker NetDemo.net NetDemo.unit_of NetDemo.net_fits)
    with (protos := fun _ : Z => ParamProto_default) (wk := StepDemo.wk) (gk := StepDemo.gk)
      (stp := 5) (n := 998) (s := mkState NetDemo.store ∅ [] [] []) (vals := NetDemo.vals)
    as (s' & g & v & E & V & Hc & K & S & Hnew & _).
  - exact NetDemo.net_bridge.
  - reflexivity.
  - exact StepDemo.step_places.
  - exact NetDemo.net_ordered.
  - exact StepDemo.step_tidy.
  - exact StepDemo.step_once.
  - lia.
  - exact StepDemo.step_ready.
  - exact NetDemo.net_stored.
  - exists s', v. split; [exact E|]. split; [exact V|]. split; [apply Hc|].
    assert (K' : forall k, k ∈ [0%nat; 1%nat; 2%nat; 8%nat] -> g k = NetDemo.vals k).
    { change (concat (map writes (batch_duties StepDemo.worker NetDemo.net NetDemo.unit_of))) with [3; 7; 4; 6; 5]%nat in K.
      intros k Hk. apply K. rewrite !elem_of_cons in *. destruct Hk as [->|[->|[->|[->|[]%elem_of_nil]]]];
        intros [?|[?|[?|[?|[?|[]%elem_of_nil]]]]]; discriminate. }
    change (own StepDemo.worker NetDemo.net) with [(0, NetDemo.layer []); (1, NetDemo.layer [0; 1]); (2, NetDemo.layer [])] in S.
    destruct (S 1 (NetDemo.layer [0; 1])) as [S1 G1]; [right; left|].
    destruct (S 2 (NetDemo.layer [])) as [S2 G2]; [do 2 right; left|].
    pose proof (Hnew 0 ltac:(left)) as N0. pose proof (Hnew 1 ltac:(right; left)) as N1.
    unfold solves in S1, G1, S2, G2. simpl in S1, G1, S2, G2. injection S2 as S2. injection G2 as G2.
    change (StepDemo.wk 0) with 1%nat in N0. change (StepDemo.gk 0) with 5%nat in N0.
    change (StepDemo.wk 1) with 2%nat in N1. change (StepDemo.gk 1) with 6%nat in N1.
    rewrite (K' 8%nat) in G2 by (rewrite !elem_of_cons; auto). rewrite (K' 1%nat) in N0 by (rewrite !elem_of_cons; auto).
    rewrite (K' 2%nat) in N1 by (rewrite !elem_of_cons; auto).
    rewrite (K' 0%nat), (K' 1%nat), ?(K' 2%nat) in S1 by (rewrite !elem_of_cons; auto).
    rewrite (K' 0%nat) in G1 by (rewrite !elem_of_cons; auto).
    destruct (S1 0 0 ltac:(lia) ltac:(lia)) as (x & Hx & Ex). destruct (S1 1 0 ltac:(lia) ltac:(lia)) as (y & Hy & Ey).
    simpl in Hx, Hy. rewrite Hx in Ex. rewrite Hy in Ey. clear S1 Hx Hy.
    change (at_ (g 3%nat) 0 = f32_of_Z 215) in Ex. change (at_ (g 3%nat) 1 = f32_of_Z (-25)) in Ey.
    destruct (g 3%nat) as [|a [|b l]]; [discriminate Ex|discriminate Ey|]. simpl in S2. unfold at_ in Ex, Ey. simpl in Ex, Ey.
    subst a b. rewrite S2 in G2. 
    assert (Ez : zip_with (fun d g => f32_mul (relu_grad d) g) (relu (f32_of_Z 215) :: relu (f32_of_Z (-25)) :: map relu l)
      (NetDemo.vals 8) = [f32_of_Z 1; 0]) by (destruct l; vm_compute; reflexivity).
    destruct G1 as (Gb & Gw & _). change (act_grad kReLU) with relu_grad in G2. rewrite G2, Ez in Gb, Gw. clear S2 G2 Ez.
    pose proof (Gw 0 0 ltac:(lia) ltac:(lia)) as W0. pose proof (Gw 1 0 ltac:(lia) ltac:(lia)) as W1. pose proof (Gb 0 ltac:(lia)) as B0.
    change (at_ (g 5%nat) 0 = f32_of_Z 1) in W0. change (at_ (g 5%nat) 1 = f32_of_Z 2) in W1. change (at_ (g 6%nat) 0 = f32_of_Z 1) in B0.
    destruct (g 5%nat) as [|c [|d l5]]; [discriminate W0|discriminate W1|]. destruct (g 6%nat) as [|e l6]; [discriminate B0|].
    unfold at_ in W0, W1, B0. simpl in W0, W1, B0. subst c d e. rewrite N0, N1. split_and!; vm_compute; reflexivity.
Defined.
