(* ===== verification/Registry.v ===== *)
(** * utils/factory.h, utils/singleton.h: the registries of classes

    A [Factory] maps names and numbers to functions that make objects; such a function is modelled
    by the class it makes.  The program has one factory for layers, one for params and one for
    updaters, each a [Singleton]: they are the record [registries], empty when the process starts.
    The development's [create_layer] is what the factory of layers does once it is filled. *)

From S2P Require Import Prelude Memory Param Server LayerConf.

Section factory.
Context {T : Type}.
Record Factory := mkFactory { str2func_ : gmap string T; id2func_ : gmap Z T }.
Definition Factory_new : Factory := mkFactory ∅ ∅.
Definition Register_str (id : string) (func : T) (f : Factory) : outcome Factory :=
  _ ← CHECK (bool_decide (str2func_ f !! id = None)); Ok (mkFactory (<[id := func]> (str2func_ f)) (id2func_ f)).
Definition Register_id (id : Z) (func : T) (f : Factory) : outcome Factory :=
  _ ← CHECK (bool_decide (id2func_ f !! id = None)); Ok (mkFactory (str2func_ f) (<[id := func]> (id2func_ f))).
Definition Create_str (id : string) (f : Factory) : outcome T :=
  match str2func_ f !! id with Some func => Ok func | None => Fatal end.
Definition Create_id (id : Z) (f : Factory) : outcome T :=
  match id2func_ f !! id with Some func => Ok func | None => Fatal end.
End factory.
Arguments Factory : clear implicits.

(** ** What is registered *)

(** The numbers of LayerProto.LayerType. *)
Definition LayerType_number (ty : LayerType) : Z :=
  match ty with
  | kBridgeSrc => 15 | kBridgeDst => 16 | kConvolution => 1 | kConcate => 2 | kShardData => 3
  | kDropout => 4 | kInnerProduct => 5 | kInput => 25 | kLabel => 18 | kLMDBData => 17 | kLRN => 6
  | kMnist => 7 | kOutput => 26 | kPooling => 8 | kPrefetch => 19 | kReLU => 9 | kRGBImage => 10
  | kSoftmaxLoss => 11 | kSlice => 12 | kSplit => 13 | kTanh => 14 | kRBMVis => 23 | kRBMHid => 24
  end.
(** Without the optional layer. *)
Definition registered_layers : list LayerType :=
  [kBridgeDst; kBridgeSrc; kConvolution; kConcate; kDropout; kInnerProduct; kInput; kOutput; kLabel;
   kLRN; kMnist; kPrefetch; kPooling; kRGBImage; kReLU; kShardData; kSlice; kSoftmaxLoss; kSplit;
   kTanh; kRBMVis; kRBMHid].
Fixpoint RegisterLayer_all (l : list LayerType) (f : Factory LayerType) : outcome (Factory LayerType) :=
  match l with
  | [] => Ok f
  | ty :: l => f ← Register_id (LayerType_number ty) ty f; RegisterLayer_all l f
  end.
Definition RegisterLayers : Factory LayerType -> outcome (Factory LayerType) := RegisterLayer_all registered_layers.

(** The classes of params and of updaters that are registered. *)
Inductive ParamClass := ParamClass_Param.
Inductive UpdaterClass := UpdaterClass_SGD.
Record registries := mkRegistries {
  layer_factory : Factory LayerType;
  param_factory : Factory ParamClass;
  updater_factory : Factory UpdaterClass;
}.
Definition registries_new : registries := mkRegistries Factory_new Factory_new Factory_new.
Definition Trainer_RegisterDefaultClasses (r : registries) : outcome registries :=
  layers ← RegisterLayers (layer_factory r);
  params ← Register_str "Param" ParamClass_Param (param_factory r);
  updaters ← Register_str "Updater" UpdaterClass_SGD (updater_factory r);
  Ok (mkRegistries layers params updaters).
(** The tester registers no updater. *)
Definition Tester_RegisterDefaultClasses (r : registries) : outcome registries :=
  layers ← RegisterLayers (layer_factory r);
  params ← Register_str "Param" ParamClass_Param (param_factory r);
  Ok (mkRegistries layers params (updater_factory r)).

(** ** Properties *)

#[export] Instance LayerType_number_inj : Inj (=) (=) LayerType_number.
Proof. intros [] []; done. Qed.
Lemma register_all_fresh l : forall f, NoDup l -> (forall ty, ty ∈ l -> id2func_ f !! LayerType_number ty = None) ->
  exists f', RegisterLayer_all l f = Ok f' /\ (forall ty, ty ∈ l -> id2func_ f' !! LayerType_number ty = Some ty) /\
    forall n, (forall ty, ty ∈ l -> n <> LayerType_number ty) -> id2func_ f' !! n = id2func_ f !! n.
Proof.
  induction l as [|ty l IH]; intros f Hnd Hf.
  - exists f. split; [done|]. split; [|done]. by intros ? ?%elem_of_nil.
  - apply list.NoDup_cons in Hnd as [Hty Hnd]. simpl. unfold Register_id.
    rewrite Hf, bool_decide_true, CHECK_holds, !bind_Ok by (done || by left).
    destruct (IH (mkFactory (str2func_ f) (<[LayerType_number ty := ty]> (id2func_ f))) Hnd) as (f' & E & Hin & Hout).
    { intros ty' Hty'. simpl. rewrite lookup_insert_ne; [apply Hf; by right|]. by intros ->%(inj LayerType_number). }
    exists f'. split; [exact E|]. split.
    + intros ty' [->|Hty']%elem_of_cons; [|by apply Hin]. rewrite Hout; [apply lookup_insert_eq|].
      by intros ty' Hty' ->%(inj LayerType_number).
    + intros n Hn. rewrite Hout; [|intros ty' Hty'; apply Hn; by right]. simpl.
      rewrite lookup_insert_ne; [done|]. intros <-. by apply (Hn ty (list_elem_of_here _ _)).
Qed.
Lemma registered_all ty : ty <> kLMDBData -> ty ∈ registered_layers.
Proof. intros H. apply (bool_decide_unpack _). by destruct ty. Qed.

(** What [Create] makes.  Filling the empty factory of layers succeeds; afterwards it makes for
    the number of each type the layer of the type, as [create_layer] says, which ends the program
    for the optional layer only; any other number ends the program; and so does filling the
    factory a second time. *)
Lemma RegisterLayers_create : exists f, RegisterLayers Factory_new = Ok f /\
  (forall ty, Create_id (LayerType_number ty) f = create_layer ty) /\
  (forall n, (forall ty, n <> LayerType_number ty) -> Create_id n f = Fatal) /\
  RegisterLayers f = Fatal.
Proof.
  destruct (register_all_fresh registered_layers Factory_new) as (f & E & Hin & Hout);
    [by apply (bool_decide_unpack _)|done|].
  exists f. split; [exact E|]. split; [|split].
  - intros ty. unfold Create_id, create_layer. destruct (decide (ty = kLMDBData)) as [->|Hty].
    + rewrite Hout; [done|]. intros ty Hty <-%(inj LayerType_number). revert Hty. by apply (bool_decide_eq_false_1 _).
    + by rewrite Hin, bool_decide_false, CHECK_holds by (done || by apply registered_all).
  - intros n Hn. unfold Create_id. by rewrite Hout.
  - change (RegisterLayers f) with
      (f ← Register_id (LayerType_number kBridgeDst) kBridgeDst f; RegisterLayer_all (drop 1 registered_layers) f).
    unfold Register_id. by rewrite (Hin kBridgeDst), bool_decide_false by (done || by apply registered_all).
Qed.
(** The registries of a trainer's process; a tester's have no updater. *)
Lemma Trainer_registers : exists r, Trainer_RegisterDefaultClasses registries_new = Ok r /\
  Create_str "Param" (param_factory r) = Ok ParamClass_Param /\
  Create_str "Updater" (updater_factory r) = Ok UpdaterClass_SGD.
Proof. eexists. split; [vm_compute; reflexivity|]. by split. Qed.
Lemma Tester_no_updater r : Tester_RegisterDefaultClasses registries_new = Ok r ->
  Create_str "Updater" (updater_factory r) = Fatal.
Proof.
  unfold Tester_RegisterDefaultClasses. intros H. inv_ok H. inv_ok H. by injection H as <-.
Qed.
