(* ===== verification/LayerIOProps.v ===== *)
(** * Properties of losses, outputs, inputs and prefetching *)

From Stdlib Require Import SpecFloat Sorted.
From S2P Require Import Prelude DataShard Float32 Metric Msg Format Memory Param Server Worker LayerConf Layers LayersProps LayerCompute Mshadow MshadowProps LayerMath LayerMathProps LayerIO.

(** ** The order of floats *)

(** An integer that orders the numbers other than NaN. *)
Definition fkey (f : spec_float) : Z :=
  match f with
  | S754_zero _ | S754_nan => 0
  | S754_infinity s => if s then - 2 ^ 40 else 2 ^ 40
  | S754_finite s m e => if s then - ((e + 149) * 2 ^ 23 + Zpos m) else (e + 149) * 2 ^ 23 + Zpos m
  end.
Definition valid (f : spec_float) : Prop :=
  match f with
  | S754_finite _ m e => Zpos m < 2 ^ 24 /\ -149 <= e <= 104 /\ (-149 < e -> 2 ^ 23 <= Zpos m)
  | S754_nan => False
  | _ => True
  end.
Lemma f32_decode_valid b : is_nan b = false -> valid (f32_decode b).
Proof.
  unfold is_nan, f32_eqb. pose proof (Z.mod_pos_bound b (2 ^ 23) eq_refl).
  pose proof (Z.mod_pos_bound (b / 2 ^ 23) (2 ^ 8) eq_refl). unfold f32_decode.
  destruct (Z.eqb_spec ((b / 2 ^ 23) mod 2 ^ 8) 0).
  - destruct (Z.eqb_spec (b mod 2 ^ 23) 0); [done|]. simpl. rewrite Z2Pos.id by lia. lia.
  - destruct (Z.eqb_spec ((b / 2 ^ 23) mod 2 ^ 8) 255).
    + by destruct (Z.eqb_spec (b mod 2 ^ 23) 0).
    + intros _. simpl. rewrite Z2Pos.id by lia. lia.
Qed.
Lemma SFltb_key f g : valid f -> valid g -> SFltb f g = (fkey f <? fkey g).
Proof.
  intros Hf Hg. apply eq_true_iff_eq. rewrite Z.ltb_lt. unfold SFltb.
  destruct f as [[]|[]| |[] m e], g as [[]|[]| |[] m' e']; simpl in *; try done; try (split; (done || lia)).
  - destruct (Z.compare_spec e e') as [->|?|?]; [|split; [done|nia]|split; [nia|done]].
    change (PosDef.Pos.compare_cont Eq m m') with (Pos.compare m m').
    destruct (Pos.compare_spec m m') as [->|?|?]; simpl; split; (done || lia).
  - destruct (Z.compare_spec e e') as [->|?|?]; [|split; [nia|done]|split; [done|nia]].
    change (PosDef.Pos.compare_cont Eq m m') with (Pos.compare m m').
    destruct (Pos.compare_spec m m') as [->|?|?]; simpl; split; (done || lia).
Qed.
Lemma f32_ltb_key a b : is_nan a = false -> is_nan b = false ->
  f32_ltb a b = (fkey (f32_decode a) <? fkey (f32_decode b)).
Proof. intros Ha Hb. apply SFltb_key; by apply f32_decode_valid. Qed.

(** ** The best labels *)
Section topk.
Definition number_pair (p : Z * Z) : Prop := is_nan p.1 = false.
Lemma greater_key x y : number_pair x -> number_pair y ->
  greater x y = true <->
  fkey (f32_decode y.1) < fkey (f32_decode x.1) \/ fkey (f32_decode y.1) = fkey (f32_decode x.1) /\ y.2 < x.2.
Proof.
  intros Hx Hy. unfold greater, pair_ltb. rewrite !f32_ltb_key by done.
  rewrite orb_true_iff, andb_true_iff, negb_true_iff, !Z.ltb_lt, Z.ltb_ge. lia.
Qed.
Lemma greater_irrefl x : number_pair x -> greater x x = false.
Proof. intros Hx. apply not_true_iff_false. rewrite greater_key by done. lia. Qed.
Lemma greater_trans x y z : number_pair x -> number_pair y -> number_pair z ->
  greater x y = true -> greater y z = true -> greater x z = true.
Proof. intros Hx Hy Hz. rewrite !greater_key by done. lia. Qed.
Lemma greater_total x y : number_pair x -> number_pair y -> x.2 <> y.2 -> greater x y = false -> greater y x = true.
Proof. intros Hx Hy Hne. rewrite <- not_true_iff_false, !greater_key by done. lia. Qed.

Let sorted := StronglySorted (fun a b => greater a b = true).
Lemma insert_perm x l : insert_sorted x l ≡ₚ x :: l.
Proof. induction l as [|y l IH]; [done|]. simpl. case_match; [done|]. rewrite IH. by constructor. Qed.
Lemma insert_sorted_ok x l :
  Forall number_pair (x :: l) -> Forall (fun y => x.2 <> y.2) l -> sorted l -> sorted (insert_sorted x l).
Proof.
  intros [Hx Hl]%list.Forall_cons Hne Hs. induction Hs as [|y l Hs IH Hy]; [by repeat constructor|].
  apply list.Forall_cons in Hl as [Hyn Hl], Hne as [Hne Hne']. simpl. destruct (greater x y) eqn:E.
  - constructor; [by constructor|]. constructor; [done|]. rewrite list.Forall_forall in Hy, Hl |- *.
    intros z Hz. apply (greater_trans x y z); auto.
  - constructor; [by apply IH|]. rewrite (insert_perm x l). constructor; [by apply greater_total|done].
Qed.
Lemma sort_ok l : Forall number_pair l -> NoDup (l.*2) ->
  foldr insert_sorted [] l ≡ₚ l /\ sorted (foldr insert_sorted [] l).
Proof.
  induction l as [|x l IH]; intros Hn Hd; [split; [done|constructor]|].
  apply list.Forall_cons in Hn as [Hn Hl]. simpl in Hd. apply list.NoDup_cons in Hd as [Hx Hd].
  destruct (IH Hl Hd) as [Hp Hs]. simpl. split; [by rewrite insert_perm, Hp|].
  apply insert_sorted_ok; [constructor; [done|by rewrite Hp]| |done].
  rewrite Hp. apply list.Forall_forall. intros y Hy E. apply Hx. rewrite E. by apply list_elem_of_fmap_2.
Qed.
End topk.

(** The number of pairs of [l] that are greater than [x]. *)
Definition rank (x : Z * Z) (l : list (Z * Z)) : nat := length (List.filter (fun y => greater y x) l).
Lemma rank_perm x l l' : l ≡ₚ l' -> rank x l = rank x l'.
Proof. unfold rank. induction 1; simpl; repeat case_match; simpl; congruence || lia. Qed.
Lemma rank_all x l : Forall (fun y => greater y x = true) l -> rank x l = length l.
Proof. unfold rank. induction 1 as [|y l Hy _ IH]; [done|]. simpl. rewrite Hy. simpl. by rewrite IH. Qed.
Lemma rank_none x l : Forall (fun y => greater y x = false) l -> rank x l = 0%nat.
Proof. unfold rank. induction 1 as [|y l Hy _ IH]; [done|]. simpl. by rewrite Hy. Qed.
(** In a sorted list the rank of an element is its position. *)
Lemma rank_sorted l1 x l2 : Forall number_pair (l1 ++ x :: l2) ->
  StronglySorted (fun a b => greater a b = true) (l1 ++ x :: l2) -> rank x (l1 ++ x :: l2) = length l1.
Proof.
  intros Hn Hs. unfold rank. rewrite List.filter_app, length_app. fold (rank x l1) (rank x (x :: l2)).
  apply list.Forall_app in Hn as [_ [Hx Hl2]%list.Forall_cons].
  rewrite rank_all, rank_none, Nat.add_0_r; [done| |].
  - constructor; [by apply greater_irrefl|]. clear -Hs Hx Hl2. induction l1 as [|y l1 IH]; simpl in Hs; apply StronglySorted_inv in Hs as [Hs Hf].
    + rewrite list.Forall_forall in Hf, Hl2 |- *. intros z Hz. apply not_true_iff_false. intros Hg.
      pose proof (greater_trans x z x Hx (Hl2 z Hz) Hx (Hf z Hz) Hg) as H. by rewrite greater_irrefl in H.
    + by apply IH.
  - clear -Hs. induction l1 as [|y l1 IH]; [constructor|]. simpl in Hs. apply StronglySorted_inv in Hs as [Hs Hf].
    constructor; [|by apply IH]. rewrite list.Forall_forall in Hf. apply Hf. apply elem_of_app. right. left.
Qed.
(** The first [k] labels are those with less than [k] greater ones. *)
Lemma partial_sort_rank k l : Forall number_pair l -> NoDup (l.*2) -> 0 <= k <= Z.of_nat (length l) ->
  exists top, partial_sort k l = Ok top /\ Z.of_nat (length top) = k /\
    forall x, x ∈ top <-> x ∈ l /\ Z.of_nat (rank x l) < k.
Proof.
  intros Hn Hd Hk. destruct (sort_ok l Hn Hd) as [Hp Hs]. unfold partial_sort.
  assert (existsb (fun p => is_nan p.1) l = false) as ->.
  { apply not_true_iff_false. intros (p & Hin & Hp')%existsb_exists. apply list_elem_of_In in Hin.
    rewrite list.Forall_forall in Hn. specialize (Hn p Hin). unfold number_pair in Hn. congruence. }
  rewrite (proj2 (Z.leb_le 0 k)), (proj2 (Z.leb_le k _)) by lia. simpl.
  set (m := foldr insert_sorted [] l) in *. assert (Hl : length m = length l) by by rewrite Hp.
  eexists. split; [done|]. split; [rewrite length_take; lia|]. intros x.
  assert (Hr : forall j, m !! j = Some x -> rank x l = j).
  { intros j Hj. rewrite <- (rank_perm x m l Hp). apply list_elem_of_split_length in Hj as (l1 & l2 & E & ->).
    rewrite E in Hs |- *. apply rank_sorted; [|done]. rewrite <- E. by rewrite Hp. }
  split.
  - intros [j Hj]%list_elem_of_lookup. rewrite lookup_take_Some in Hj. destruct Hj as [Hj Hlt].
    rewrite (Hr j Hj). split; [|lia]. rewrite <- Hp. by eapply list_elem_of_lookup_2.
  - intros [Hx Hlt]. rewrite <- Hp in Hx. apply list_elem_of_lookup in Hx as [j Hj].
    rewrite (Hr j Hj) in Hlt. apply list_elem_of_lookup. exists j. rewrite lookup_take_Some. split; [done|lia].
Qed.

(** ** The loss and the accuracy of a batch *)
Definition row_pairs (prob : list Z) (dim n : Z) : list (Z * Z) :=
  map (fun j => (nth (Z.to_nat (n * dim + j)) prob 0, j)) (upto dim).
Lemma probvec_Ok prob n dim : 0 <= n -> (n + 1) * dim <= Z.of_nat (length prob) ->
  probvec prob n dim = Ok (row_pairs prob dim n).
Proof.
  intros Hn Hl. apply map_out_Ok. intros j Hj%elem_of_upto. rewrite idx_nth by nia. done.
Qed.
Lemma row_pairs_ok prob dim n : Forall (fun p => is_nan p = false) prob -> 0 <= n -> 0 <= dim ->
  (n + 1) * dim <= Z.of_nat (length prob) ->
  Forall number_pair (row_pairs prob dim n) /\ NoDup ((row_pairs prob dim n).*2) /\
  Z.of_nat (length (row_pairs prob dim n)) = dim.
Proof.
  intros Hp Hn Hd Hl. split; [|split].
  - apply list.Forall_forall. intros x Hx. apply list_elem_of_In, in_map_iff in Hx as (j & <- & Hj).
    apply list_elem_of_In, elem_of_upto in Hj. unfold number_pair. simpl.
    rewrite list.Forall_forall in Hp. apply Hp. apply list_elem_of_In, nth_In. nia.
  - unfold row_pairs. change (map ?f ?l) with (f <$> l). rewrite <- list_fmap_compose.
    rewrite (list_fmap_ext _ id) by done. rewrite list_fmap_id. unfold upto. apply (NoDup_fmap_2 Z.of_nat), NoDup_seq.
  - unfold row_pairs, upto. rewrite length_map, length_fmap, length_seq. lia.
Qed.

Section loss.
Context `{M : Mathf}.
(** The label is among the [topk] best of its row: less than [topk] labels are greater. *)
Definition correct (prob : list Z) (dim topk n label : Z) : bool :=
  Z.of_nat (rank (nth (Z.to_nat (n * dim + label)) prob 0, label) (row_pairs prob dim n)) <? topk.
Definition loss_of (prob : list Z) (dim loss n label : Z) : Z :=
  f32_of_f64 (f64_sub (f64_of_f32 loss) (log_ (f32_max (nth (Z.to_nat (n * dim + label)) prob 0) FLT_MIN))).
Definition batch_step (prob : list Z) (dim topk : Z) (labels : list Z) (acc : Z * Z) (n : Z) : Z * Z :=
  let label := nth (Z.to_nat n) labels 0 in
  (loss_of prob dim acc.1 n label, if correct prob dim topk n label then f32_add acc.2 f32_one else acc.2).

Lemma loss_step_Ok prob labels dim topk acc n l label :
  Forall (fun p => is_nan p = false) prob -> 0 <= n -> (n + 1) * dim <= Z.of_nat (length prob) -> 0 <= topk <= dim ->
  idx labels n = Ok l -> f32_to_int l = Ok label -> 0 <= label < dim -> label < 278 ->
  loss_step prob labels dim topk acc n =
    Ok (loss_of prob dim acc.1 n label, if correct prob dim topk n label then f32_add acc.2 f32_one else acc.2).
Proof.
  intros Hp Hn Hl Hk Hidx Hint Hlab Hlt. destruct acc as [loss precision].
  unfold loss_step. rewrite Hidx, bind_Ok, Hint, bind_Ok.
  rewrite (CHECK_holds (label <? 278)), bind_Ok, (CHECK_holds (0 <=? label)), bind_Ok by lia.
  rewrite idx_nth, bind_Ok, probvec_Ok, bind_Ok by nia.
  destruct (row_pairs_ok prob dim n Hp Hn) as (Hnp & Hnd & Hlen); [lia|done|].
  destruct (partial_sort_rank topk (row_pairs prob dim n) Hnp Hnd) as (top & -> & _ & Htop); [lia|].
  rewrite bind_Ok. f_equal. f_equal. unfold correct.
  set (x := (nth (Z.to_nat (n * dim + label)) prob 0, label)).
  assert (Hx : x ∈ row_pairs prob dim n).
  { apply list_elem_of_In, in_map_iff. exists label. split; [done|]. apply list_elem_of_In, elem_of_upto. lia. }
  replace (existsb (fun p => p.2 =? label) top) with (Z.of_nat (rank x (row_pairs prob dim n)) <? topk); [done|].
  apply eq_true_iff_eq. rewrite Z.ltb_lt, existsb_exists. split.
  - intros Hr. exists x. split; [|apply Z.eqb_refl]. apply list_elem_of_In, Htop. done.
  - intros (y & Hy & Ey%Z.eqb_eq). apply list_elem_of_In, Htop in Hy as [Hy Hr].
    apply list_elem_of_In, in_map_iff in Hy as (j & <- & _). simpl in Ey. by subst.
Qed.

(** C23. The loss layer.  When the probabilities [Softmax] gives hold no NaN, the labels are below
    278 and below the number of classes, and [topk] is at most that number, [ComputeFeature] adds
    two values to the metric, both multiplied by the layer's [scale] and divided by the size of
    the batch: as loss the sum over the images, in their order, of minus the logarithm of the
    label's probability, or of [FLT_MIN] if that is greater; as accuracy the number of images whose label is
    among the [topk] best: less than [topk] labels have a greater probability, or the same and a
    greater index.  So the accuracy is the share of these images only when [scale], which
    job.proto calls the loss scale factor, is 1. *)
Theorem SoftmaxLoss_ComputeFeature_spec (i : Z) (perf : Metric) (s : nstate) (o : LayerObj) (batch dim topk scale : Z)
    (mb lb : Blob) (h1 : heap) (lp : Z) (prob ls labels : list Z)
    (Ho : objs s !! i = Some o) (Hsub : osub o = LossSub batch dim topk scale mb)
    (Hsoft : softmax_data i batch dim s = Ok (h1, prob))
    (Hlabel : src_data i 1 kPositive s = Ok lb) (Hls : at_cpu h1 lb lp ls)
    (Hnan : Forall (fun p => is_nan p = false) prob) (Hb : 0 <= batch < 2 ^ 32) (Hd : 0 < dim < 2 ^ 32)
    (Hlen : Z.of_nat (length prob) = batch * dim) (Hk : 0 <= topk <= dim)
    (Hnl : Z.of_nat (length ls) = batch) (Hint : Forall2 (fun l z => f32_to_int l = Ok z) ls labels)
    (Hrange : Forall (fun z => 0 <= z < dim /\ z < 278) labels) :
  let sums := fold_left (batch_step prob dim topk labels) (upto batch) (0, 0) in
  let mean x := f32_div (f32_mul x scale) (f32_mul f32_one (f32_of_Z batch)) in
  SoftmaxLoss_ComputeFeature i perf s =
    (perf ← Metric_Add "loss" (mean sums.1) perf;
     perf ← Metric_Add "accuracy" (mean sums.2) perf;
     Ok (set_nheap h1 s, perf)).
Proof.
  intros sums mean. unfold SoftmaxLoss_ComputeFeature. rewrite (obj_Ok _ _ _ Ho), bind_Ok, Hsub, Hsoft, bind_Ok.
  rewrite Hlabel, bind_Ok. destruct (at_cpu_data _ _ _ _ Hls) as [-> _]. rewrite bind_Ok.
  rewrite (at_cpu_load_all h1 lb lp ls) by (done || by rewrite Hnl). rewrite bind_Ok.
  rewrite f32s_of_bytes_of_f32s by (by eapply at_cpu_f32).
  rewrite (fold_out_Ok _ (batch_step prob dim topk labels)).
  2:{ intros acc n Hn%elem_of_upto. destruct (ls !! Z.to_nat n) as [l|] eqn:El; [|apply lookup_ge_None in El; lia].
      destruct (Forall2_lookup_l _ _ _ _ _ Hint El) as (z & Ez & Hz).
      unfold batch_step. rewrite (nth_lookup_Some labels _ 0 z Ez).
      rewrite list.Forall_lookup in Hrange. destruct (Hrange _ _ Ez).
      apply (loss_step_Ok _ _ _ _ _ _ l); try done; [lia|nia|]. rewrite <- (Z2Nat.id n) by lia. by apply idx_lookup. }
  fold sums. destruct sums as [loss precision]. rewrite bind_Ok.
  rewrite !u32_small, Z.max_r by lia. rewrite (CHECK_holds (_ =? _)), bind_Ok by lia. done.
Qed.
End loss.

(** Two images and two classes; the second label is not the best of its row. *)
Definition demo_maths : Mathf :=
  {| expf := fun v => if v =? 0 then f32_one else f32_div f32_one (f32_of_Z 2); tanhf := fun v => v;
     powf := fun a _ => a; log_ := f64_of_f32 |}.
Definition demo_loss_heap : heap :=
  packed (map f32_of_Z [1; 2; 3; 1; 0; 0; 0; 0; 1; 1])
    {[0 := mkSM 1 16 HEAD_AT_CPU true; 1 := mkSM 17 16 HEAD_AT_CPU true; 2 := mkSM 33 8 HEAD_AT_CPU true]} 3.
Definition demo_loss_obj : LayerObj :=
  set_sub (LossSub 2 2 1 f32_one Blob_new)
    (set_data (mkBlob (Some 1) [2; 2] 4 4 (-1)) (set_srcs [0; 2] (LayerObj_new kSoftmaxLoss))).
Definition demo_loss_state : nstate :=
  mkNS {[0 := set_data (mkBlob (Some 0) [2; 2] 4 4 (-1)) (LayerObj_new kTanh); 1 := demo_loss_obj;
         2 := set_data (mkBlob (Some 2) [2] 2 2 (-1)) (LayerObj_new kLabel)]} 3 (mkWorld demo_loss_heap ∅ 0 ∅).
Definition demo_softmax : heap * list Z :=
  match @softmax_data demo_maths 1 2 2 demo_loss_state with Ok r => r | _ => (empty_heap, []) end.
Lemma SoftmaxLoss_ComputeFeature_witness : exists h m,
  @SoftmaxLoss_ComputeFeature demo_maths 1 Metric_new demo_loss_state = Ok (set_nheap h demo_loss_state, m) /\
  m !! "accuracy"%string = Some (1, f32_div f32_one (f32_of_Z 2)).
Proof.
  eexists _, _. split.
  - refine (eq_trans (@SoftmaxLoss_ComputeFeature_spec demo_maths 1 Metric_new demo_loss_state demo_loss_obj 2 2 1
      f32_one Blob_new (mkBlob (Some 2) [2] 2 2 (-1)) demo_softmax.1 33 demo_softmax.2
      (map f32_of_Z [1; 1]) [1; 1] _ _ _ _ _ _ _ _ _ _ _ _ _) _).
    + reflexivity.
    + reflexivity.
    + vm_compute. reflexivity.
    + vm_compute. reflexivity.
    + concrete_at 2.
    + repeat constructor; vm_compute; done.
    + lia.
    + lia.
    + vm_compute. reflexivity.
    + lia.
    + reflexivity.
    + repeat constructor; vm_compute; reflexivity.
    + repeat constructor; lia.
    + cbv beta zeta. reflexivity.
  - vm_compute. reflexivity.
Defined.

(** ** Images that are neither cropped nor mirrored *)
Section rgb.
Context (phase : Phase) (cropsize : Z) (mirror_ : bool) (r1 r2 : Z) (rshape cshape mean : list Z).
Context (b : Blob) (p : Z) (sh : list Z).
Context (Hphase : phase <> kTrain) (Hsh : shape_size (removelast sh) = Z.of_nat (length mean)).
(** One draw for each record if the layer mirrors. *)
Definition draws (n : nat) (rnd : list Z) : Prop := mirror_ = true -> (n <= length rnd)%nat.
Definition plain_image (r : Record_) : list Z := zip_with f32_sub (pixel_values r) mean.

Lemma image_fill_Ok us ws us' vs h : heap_ok h -> at_cpu h b p (us ++ ws ++ us') ->
  length ws = length mean -> length vs = length mean -> Forall is_f32 vs ->
  exists h', image_fill vs mean (p + sizeof_float * Z.of_nat (length us)) h = Ok h' /\ heap_ok h' /\
    at_cpu h' b p (us ++ zip_with f32_sub vs mean ++ us').
Proof.
  intros Hok Ha Hws Hvs Hf.
  destruct (at_cpu_store h b p us ws us' vs Hok Ha) as (h1 & E1 & Hok1 & Ha1 & _); [congruence|done|].
  destruct (at_cpu_store h1 b p us vs us' (zip_with f32_sub vs mean) Hok1 Ha1) as (h2 & E2 & Hok2 & Ha2 & _).
  { rewrite length_zip_with. lia. }
  { apply zip_with_range. intros. apply f32_sub_range. }
  exists h2. split; [|done]. unfold image_fill. rewrite E1, bind_Ok.
  rewrite (at_cpu_load h1 b p us vs us') by (done || lia). by rewrite bind_Ok, f32s_of_bytes_of_f32s.
Qed.
Lemma rgb_images_Ok records : forall us ws us' raw rnd h,
  heap_ok h -> at_cpu h b p (us ++ ws ++ us') ->
  length ws = (length records * length mean)%nat -> draws (length records) rnd ->
  Forall (fun r => length (pixel_values r) = length mean /\ Forall is_f32 (pixel_values r)) records ->
  forall rid, Z.of_nat (length us) = rid * Z.of_nat (length mean) ->
  exists h' rnd', rgb_images phase cropsize mirror_ r1 r2 rshape cshape mean (mkTen p sh) rid records raw rnd h = Ok (h', rnd') /\
    heap_ok h' /\ at_cpu h' b p (us ++ concat (map plain_image records) ++ us').
Proof using Hphase Hsh.
  induction records as [|r records IH]; intros us ws us' raw rnd h Hok Ha Hl Hd Hr rid Hrid.
  - exists h, rnd. split; [done|]. split; [done|]. by destruct ws.
  - apply list.Forall_cons in Hr as [[Hp Hf] Hr]. simpl in Hl.
    assert (Hcoin : exists coin rnd1, (if mirror_ then rand rnd else Ok (0, rnd)) = Ok (coin, rnd1) /\
                      draws (length records) rnd1).
    { unfold draws in *. destruct mirror_; [|by eexists _, _]. destruct rnd as [|z rnd]; simpl in Hd; [by specialize (Hd eq_refl); lia|].
      exists z, rnd. split; [done|]. intros _. specialize (Hd eq_refl). lia. }
    destruct Hcoin as (coin & rnd1 & Ec & Hd1).
    rewrite <- (take_drop (length mean) ws), <- app_assoc in Ha.
    destruct (image_fill_Ok us (take (length mean) ws) (drop (length mean) ws ++ us') (pixel_values r) h Hok Ha)
      as (h1 & E1 & Hok1 & Ha1); [rewrite length_take; lia|done|done|].
    rewrite (app_assoc us) in Ha1.
    destruct (IH (us ++ zip_with f32_sub (pixel_values r) mean) (drop (length mean) ws) us' raw rnd1 h1 Hok1 Ha1)
      with (rid := rid + 1) as (h2 & rnd2 & E2 & Hok2 & Ha2); [rewrite length_drop; lia|done|done| |].
    { rewrite length_app, length_zip_with. lia. }
    exists h2, rnd2. split; [|split; [done|]].
    + cbn [rgb_images]. rewrite Ec, bind_Ok. cbv beta iota.
      rewrite (bool_decide_false (phase = kTrain)) by done. rewrite !andb_false_r. cbn [orb].
      unfold sub_ten. cbn [dptr tenshape]. rewrite Hsh.
      replace (sizeof_float * (Z.of_nat (length mean) * rid)) with (sizeof_float * Z.of_nat (length us)) by (rewrite Hrid; ring).
      rewrite E1. exact E2.
    + simpl. unfold plain_image at 1. by rewrite <- !app_assoc in Ha2 |- *.
Qed.
End rgb.

(** The image parser outside of training.  When every record has as many values as an image of
    the blob, [ComputeFeature] in a phase other than training neither crops nor mirrors: the blob
    holds, image after image, the values of the records, less the mean and times the scale,
    whatever the crop size and the mirror flag say. *)
Theorem RGBImage_plain (rnd : list Z) (i j : Z) (phase : Phase) (s : nstate) (o d : LayerObj) (scale cropsize : Z)
    (mirror_ : bool) (mb : Blob) (rs batch : Z) (sample r : Record_) (records : list Record_) (sh : option DataShard)
    (p mp n c y x r0 r1 r2 : Z) (rest ws mean : list Z)
    (Hok : heap_ok (nheap s)) (Ho : objs s !! i = Some o) (Hsrcs : osrcs o = [j]) (Hd : objs s !! j = Some d)
    (Hsub : osub o = RGBImageSub scale cropsize mirror_ mb)
    (Hdata : osub d = DataSub rs batch sample (r :: records) sh)
    (Hws : image_at (nheap s) (odata o) p [n; c; y; x] ws)
    (Hmean : at_cpu (nheap s) mb mp mean) (Hm : Z.of_nat (length mean) = c * y * x)
    (Hn : Z.of_nat (length (r :: records)) = n) (Hshape : im_shape r = r0 :: r1 :: r2 :: rest)
    (Hphase : phase <> kTrain) (Hrnd : draws mirror_ (length (r :: records)) rnd)
    (Hr : Forall (fun r => length (pixel_values r) = length mean /\ Forall is_f32 (pixel_values r)) (r :: records)) :
  exists h' rnd' vs, RGBImage_ComputeFeature rnd i phase s = Ok (set_nheap h' s, rnd') /\ heap_ok h' /\
    image_at h' (odata o) p [n; c; y; x] vs /\
    forall k py px, 0 <= k < c * n -> 0 <= py < y -> 0 <= px < x ->
      let v := elem (mkTensor [x; y; c; n] (concat (map (plain_image mean) (r :: records)))) (k * y + py) px in
      elem (mkTensor [x; y; c; n] vs) (k * y + py) px = if f32_eqb scale 0 then v else f32_mul v scale.
Proof.
  pose proof Hws as [Ha Hdims Hpos Hint Hlen].
  assert (Hsz : shape_size [x; y; c] = Z.of_nat (length mean)) by (unfold shape_size; simpl; lia).
  assert (Hall : shape_size [n; c; y; x] = n * (c * y * x)) by (unfold shape_size; simpl; ring).
  rewrite <- (app_nil_r ws), <- (app_nil_l (ws ++ [])) in Ha.
  destruct (rgb_images_Ok phase cropsize mirror_ r1 r2 (map u32 [r2; r1; r0]) (map u32 [x; y; c]) mean (odata o) p [x; y; c; n]
    Hphase Hsz (r :: records) [] ws [] (raw_new (map u32 [r2; r1; r0])) rnd (nheap s) Hok Ha) with (rid := 0)
    as (h1 & rnd1 & E1 & Hok1 & Ha1); [nia|done|done|done|].
  rewrite app_nil_l, app_nil_r in Ha1. set (vs := concat (map (plain_image mean) (r :: records))) in *.
  assert (Hvs : image_at h1 (odata o) p [n; c; y; x] vs).
  { constructor; try done. pose proof (at_cpu_count _ _ _ _ Ha1). pose proof (at_cpu_count _ _ _ _ (im_at _ _ _ _ _ Hws)). lia. }
  assert (Hrun : forall h2, (if f32_eqb scale 0 then Ok h1
       else v ← get (mkTen p [x; y; c; n]) h1; e ← e_mul (tensor_exp v) (ScalarExp scale); assign saveto (mkTen p [x; y; c; n]) e h1) = Ok h2 ->
     RGBImage_ComputeFeature rnd i phase s = Ok (set_nheap h2 s, rnd1)).
  { intros h2 E2. unfold RGBImage_ComputeFeature, num_srcs. rewrite (obj_Ok _ _ _ Ho), !bind_Ok, Hsrcs. simpl length.
    simpl CHECK. rewrite !bind_Ok. change (idx [j] 0) with (Ok j). rewrite bind_Ok, (obj_Ok _ _ _ Hd), bind_Ok, Hsub, Hdata.
    unfold RGBImage_ParseRecords. rewrite (image_Tensor4 _ _ _ _ _ _ _ _ Hws), bind_Ok.
    change (vec_at (r :: records) 0) with (Ok r). rewrite bind_Ok, Hshape, Hdims.
    change (idx (r0 :: r1 :: r2 :: rest) 0) with (Ok r0). change (idx (r0 :: r1 :: r2 :: rest) 1) with (Ok r1).
    change (idx (r0 :: r1 :: r2 :: rest) 2) with (Ok r2). change (idx [n; c; y; x] 1) with (Ok c).
    change (idx [n; c; y; x] 2) with (Ok y). change (idx [n; c; y; x] 3) with (Ok x). rewrite !bind_Ok.
    destruct (at_cpu_data _ _ _ _ Hmean) as [-> _]. rewrite bind_Ok.
    rewrite (at_cpu_load_all _ mb mp mean) by (done || by rewrite (at_cpu_count _ _ _ _ Hmean)).
    rewrite bind_Ok, f32s_of_bytes_of_f32s by (by eapply at_cpu_f32).
    rewrite E1, bind_Ok. by rewrite E2, bind_Ok. }
  destruct (f32_eqb scale 0) eqn:Es.
  - exists h1, rnd1, vs. split; [by apply Hrun|]. done.
  - pose proof (image_tensor_ok _ _ _ _ _ Hvs) as Tv. simpl rev in Tv.
    destruct (tensor_dims _ x y [c; n] Tv eq_refl) as (Hx & _).
    set (e := mkExp [x; y; c; n] (fun r q => a ← Eval (tensor_exp (mkTensor [x; y; c; n] vs)) r q; b ← Ok scale; Ok (f32_mul a b))).
    assert (Ee : e_mul (tensor_exp (mkTensor [x; y; c; n] vs)) (ScalarExp scale) = Ok e).
    { unfold e_mul, BinaryMapExp, check_shapes. simpl eshape. change (dim [x; y; c; n] 0) with x.
      rewrite (proj2 (Z.eqb_neq x 0)) by lia. done. }
    destruct (assign_image h1 (odata o) p n c y x vs e
      (fun k py px => f32_mul (elem (mkTensor [x; y; c; n] vs) (k * y + py) px) scale)) as (h2 & us & E2 & Hok2 & Hi2 & Hel); [done..| |].
    { intros k py px Hk Hpy Hpx. split; [|apply f32_mul_range]. unfold e. cbn [Eval].
      rewrite (tensor_eval _ x y [c; n]); [done|done|done| |done].
      change (shape_size (y :: [c; n])) with (y * (c * (n * 1))). pose proof (below_mul k py (c * n) y Hk Hpy). nia. }
    exists h2, rnd1, us. split; [|done]. apply Hrun.
    rewrite (image_get _ _ _ _ _ Hvs : get (mkTen p [x; y; c; n]) h1 = _), bind_Ok. simpl rev. by rewrite Ee, bind_Ok.
Qed.

(** Two images of two pixels, with a mirror flag that is without effect in a test. *)
Definition demo_rgb_heap : heap :=
  packed (replicate 4 0 ++ map f32_of_Z [1; 2])
    {[0 := mkSM 1 16 HEAD_AT_CPU true; 1 := mkSM 17 8 HEAD_AT_CPU true]} 2.
Definition demo_rgb_records : list Record_ := [mkRecord [1; 1; 2] 0 [5; 7] []; mkRecord [1; 1; 2] 0 [9; 3] []].
Definition demo_rgb_obj : LayerObj :=
  set_sub (RGBImageSub (f32_of_Z 2) 0 true (mkBlob (Some 1) [1; 1; 2] 2 2 (-1)))
    (set_data (mkBlob (Some 0) [2; 1; 1; 2] 4 4 (-1)) (set_srcs [0] (LayerObj_new kRGBImage))).
Definition demo_rgb_data : LayerObj := set_sub (DataSub 0 2 Record_default demo_rgb_records None) (LayerObj_new kShardData).
Definition demo_rgb_state : nstate :=
  mkNS {[0 := demo_rgb_data; 1 := demo_rgb_obj]} 2 (mkWorld demo_rgb_heap ∅ 0 ∅).
Lemma RGBImage_plain_witness : exists h' rnd' vs,
  RGBImage_ComputeFeature [1; 1] 1 kTest demo_rgb_state = Ok (set_nheap h' demo_rgb_state, rnd') /\
  elem (mkTensor [2; 1; 1; 2] vs) 1 0 = f32_of_Z 16.
Proof.
  destruct (RGBImage_plain [1; 1] 1 0 kTest demo_rgb_state demo_rgb_obj demo_rgb_data (f32_of_Z 2) 0 true
    (mkBlob (Some 1) [1; 1; 2] 2 2 (-1)) 0 2 Record_default (mkRecord [1; 1; 2] 0 [5; 7] [])
    [mkRecord [1; 1; 2] 0 [9; 3] []] None 1 17 2 1 1 2 1 1 2 [] (replicate 4 0) (map f32_of_Z [1; 2]))
    as (h' & rnd' & vs & E & _ & _ & Hv).
  - apply packed_ok. by apply (bool_decide_unpack _).
  - reflexivity.
  - reflexivity.
  - reflexivity.
  - reflexivity.
  - reflexivity.
  - concrete_image 0.
  - concrete_at 1.
  - reflexivity.
  - reflexivity.
  - reflexivity.
  - discriminate.
  - intros _. simpl. lia.
  - repeat constructor; vm_compute; done.
  - exists h', rnd', vs. split; [exact E|].
    refine (eq_trans (Hv 1 0 0 _ _ _) _); [lia|lia|lia|vm_compute; reflexivity].
Defined.
