(* ===== verification/Startup.v ===== *)
(** * trainer/trainer.cc, trainer/tester.cc, singa.h: starting the threads of a process

    [SetupWorkerServer] makes the nets of the workers of a process, slices the params, fills
    the shard of the stub and tells the servers their slices; [Start] numbers the threads and
    runs them; [SubmitJob] chooses between training and testing; [Resume] looks for the last
    checkpoint.  The nets live in the store of the layer objects ([nstate]).  [order] is the
    order of a hash map in [NeuralNet], as in NetLayers. *)

From S2P Require Import Prelude Common Msg Memory Param Server Cluster ClusterRT Stub Worker LayerConf NeuralNet Layers NetLayers Registry.

(** ** Checkpoints *)

(** [file.name[k]]: 0 behind the end. *)
Definition char_at (k : nat) (name : string) : Ascii.ascii := default Ascii.zero (String.get k name).
Definition dot : Ascii.ascii := Ascii.ascii_of_nat 46.
(** [strstr(name, "step")] *)
Definition strstr_step (name : string) : option nat := String.index 0 "step" name.
Fixpoint find_checkpoints (names : list string) (latest_step : Z) (ck_files : list string)
    : outcome (Z * list string) :=
  match names with
  | [] => Ok (latest_step, ck_files)
  | name :: names =>
      match strstr_step name with
      | None =>
          if negb (Ascii.eqb (char_at 0 name) dot) && negb (Ascii.eqb (char_at 1 name) dot)
          then find_checkpoints names latest_step ck_files
          else Undef  (* atoi of a null pointer *)
      | Some k =>
          step ← atoi (substr_from (k + 4) name);
          if step =? latest_step then find_checkpoints names latest_step (ck_files ++ [name])
          else if latest_step <? step then find_checkpoints names step [name]
          else find_checkpoints names latest_step ck_files
      end
  end.
(** [names]: what [tinydir_readfile] gives.  [ck_files] holds pointers into the local variable
    [file] of the loop: they point to nothing when they are read. *)
Definition Resume (names : list string) (step : Z) (checkpoint : list string) : outcome (Z * list string) :=
  '(latest_step, ck_files) ← find_checkpoints names 0 [];
  if 0 <? latest_step then
    match ck_files with
    | [] => Ok (latest_step, checkpoint)
    | _ :: _ => Undef
    end
  else Ok (step, checkpoint).

(** ** SetupWorkerServer *)
Section setup.
Context `{C : Czmq} `{F : Files} (order : gmap string Z -> list (string * Z)).

(** A worker with its nets. *)
Record assignment := mkAssigned {
  as_grp : Z;
  as_id : Z;
  as_train : NetLayers.NeuralNet;
  as_valid : option NetLayers.NeuralNet;
  as_test : option NetLayers.NeuralNet;
}.
(** The partition and the params of the layers of a net. *)
Fixpoint net_params (js : list Z) (s : nstate) : outcome (list (Z * list Z)) :=
  match js with
  | [] => Ok []
  | j :: js =>
      o ← obj j s; rest ← net_params js s;
      Ok ((lp_partition_id (layer_proto_ o), GetParams o) :: rest)
  end.
Definition set_worker_shard (shard : gmap Z ParamEntry) (t : Trainer) : Trainer :=
  mkTrainer (procs_id_ t) shard (slice2server_ t).
Definition set_nworld (w : world) (s : nstate) : nstate := mkNS (objs s) (next_obj s) w.

(** The updater [Worker::Setup] makes when the servers do not update. *)
Definition worker_updater (c : ClusterProto) (server_update : bool) (r : registries) : outcome unit :=
  if negb (nserver_groups c =? 0) && server_update then Ok tt
  else _ ← Create_str "Updater" (updater_factory r); Ok tt.
(** The loop over the workers; [first] and [last] are the ids of the first and the last one, and
    [updater] is how their [Setup] gets an updater. *)
Fixpoint setup_workers (updater : outcome unit) (np : NetProto) (grp_size : Z) (share_memory : bool) (first last : Z)
    (net : NetLayers.NeuralNet) (workers : list (Z * Z)) (grp : Z) (valid test : option NetLayers.NeuralNet)
    (prepare_param : bool) (shard : gmap Z ParamEntry) (s : nstate)
    : outcome (nstate * gmap Z ParamEntry * list assignment) :=
  match workers with
  | [] => Ok (s, shard, [])
  | (g, id) :: workers =>
      '(s, train, valid, test, grp, prepare_param) ←
        (if negb (g =? grp) then
           '(s, train) ← NeuralNet_Create order np kTrain grp_size s;
           s ← (if share_memory then ShareParamsFrom train net s else Ok s);
           Ok (s, train, None, None, g, true)
         else Ok (s, net, valid, test, grp, prepare_param));
      _ ← updater;
      shard ← (if prepare_param : bool then
                 layers ← net_params (layers_ train) s;
                 prepare_params grp first last layers (nworld s) shard
               else Ok shard);
      '(s, shard, rest) ← setup_workers updater np grp_size share_memory first last net workers grp valid test false shard s;
      Ok (s, shard, mkAssigned g id train valid test :: rest)
  end.
(** [workers.front()->id()] and [workers.back()->id()], used only if there are workers *)
Definition front_id (workers : list (Z * Z)) : Z := match workers with [] => 0 | (_, id) :: _ => id end.
Definition back_id (workers : list (Z * Z)) : Z := match list.last workers with Some (_, id) => id | None => 0 end.
Definition first_grp (workers : list (Z * Z)) : Z := match workers with [] => -1 | (g, _) :: _ => g end.

(** A net of the first group that shares its params, if there are steps. *)
Definition shared_net (np : NetProto) (phase : Phase) (grp_size steps grp : Z) (net : NetLayers.NeuralNet) (s : nstate)
    : outcome (nstate * option NetLayers.NeuralNet) :=
  if (grp =? 0) && negb (steps =? 0) then
    '(s, n) ← NeuralNet_Create order np phase grp_size s;
    s ← ShareParamsFrom n net s;
    Ok (s, Some n)
  else Ok (s, None).

Definition SetupWorkerServer (r : registries) (c : ClusterProto) (server_update share_memory : bool) (np : NetProto) (test_steps validation_steps : Z)
    (workers : list (Z * Z)) (servers : list Server) (t : Trainer) (s : nstate)
    : outcome (nstate * Trainer * list assignment * list Server) :=
  let grp_size := nworkers_per_group c in
  '(s, net) ← NeuralNet_Create order np kTrain grp_size s;
  '(w, slices) ← SliceParams c (params_ net) (nworld s);
  let s := set_nworld w s in
  let grp := first_grp workers in
  '(s, test_net) ← shared_net np kTest grp_size test_steps grp net s;
  '(s, valid_net) ← shared_net np kValidation grp_size validation_steps grp net s;
  '(s, shard, assigned) ← setup_workers (worker_updater c server_update r) np grp_size share_memory (front_id workers) (back_id workers) net workers grp
                            valid_net test_net true (worker_shard_ t) s;
  slice2group ← PartitionSlices (nserver_groups c) slices;
  slice2server ← PartitionSlices (nservers_per_group c) slices;
  Ok (s, mkTrainer (procs_id_ t) shard slice2server, assigned, map (Server_Setup slice2group) servers).

(** The tester slices nothing, makes no nets for tests and does not set the servers up. *)
Definition Tester_SetupWorkerServer (r : registries) (c : ClusterProto) (server_update share_memory : bool) (np : NetProto)
    (workers : list (Z * Z)) (servers : list Server) (t : Trainer) (s : nstate)
    : outcome (nstate * Trainer * list assignment * list Server) :=
  let grp_size := nworkers_per_group c in
  '(s, net) ← NeuralNet_Create order np kTrain grp_size s;
  '(s, shard, assigned) ← setup_workers (worker_updater c server_update r) np grp_size share_memory (front_id workers) (back_id workers) net workers
                            (first_grp workers) None None true (worker_shard_ t) s;
  Ok (s, set_worker_shard shard t, assigned, servers).

(** ** Start *)

(** What a process runs: threads of workers and of servers, and the stub in the main thread. *)
Record process := mkProcess {
  pr_state : nstate;
  pr_trainer : Trainer;
  pr_workers : list (Z * assignment);  (* with their thread ids *)
  pr_servers : list Server;
  pr_stub : bool;
  pr_model : Z * list string;  (* the step and the checkpoints of the model *)
}.
Definition number_from {A} (n : Z) (l : list A) : list (Z * A) := imap (fun k x => (n + Z.of_nat k, x)) l.
Definition make_servers (nthreads : Z) (ids : list (Z * Z)) : list Server :=
  map (fun '(thread, (gid, sid)) => Server_make thread gid sid) (number_from nthreads ids).

Definition Trainer_new (procs_id : Z) : Trainer := mkTrainer procs_id ∅ [].
(** [resume]: the names in the checkpoint folder, when the job is resumed; [model]: the step and the
    checkpoints in the configuration. *)
Definition resume_model (resume : option (list string)) (model : Z * list string) : outcome (Z * list string) :=
  match resume with Some names => Resume names model.1 model.2 | None => Ok model end.
Definition Trainer_Start (cl : Cluster) (procs_id : Z) (resume : option (list string)) (model : Z * list string)
    (server_update share_memory : bool) (np : NetProto) (test_steps validation_steps : Z) (s : nstate)
    : outcome process :=
  r ← Trainer_RegisterDefaultClasses registries_new;
  model ← resume_model resume model;
  workers ← CreateWorkers cl procs_id;
  servers ← CreateServers cl procs_id;
  '(s, t, assigned, servers) ←
    SetupWorkerServer r (cluster_ cl) server_update share_memory np test_steps validation_steps workers
      (make_servers (1 + Z.of_nat (length workers)) servers) (Trainer_new procs_id) s;
  Ok (mkProcess s t (number_from 1 assigned) servers true model).
(** Neither the servers nor the stub of a tester run. *)
Definition Tester_Start (cl : Cluster) (procs_id : Z) (resume : option (list string)) (model : Z * list string)
    (server_update share_memory : bool) (np : NetProto) (s : nstate) : outcome process :=
  r ← Tester_RegisterDefaultClasses registries_new;
  model ← resume_model resume model;
  workers ← CreateWorkers cl procs_id;
  servers ← CreateServers cl procs_id;
  '(s, t, assigned, servers) ←
    Tester_SetupWorkerServer r (cluster_ cl) server_update share_memory np workers
      (make_servers (1 + Z.of_nat (length workers)) servers) (Trainer_new procs_id) s;
  Ok (mkProcess s t (number_from 1 assigned) [] false model).

Definition SubmitJob (cl : Cluster) (procs_id : Z) (resume : option (list string)) (model : Z * list string)
    (server_update share_memory : bool) (np : NetProto) (train_steps test_steps validation_steps : Z) (s : nstate) : outcome process :=
  if train_steps <? 2 then Tester_Start cl procs_id resume model server_update share_memory np s
  else Trainer_Start cl procs_id resume model server_update share_memory np test_steps validation_steps s.
End setup.
