(* ===== verification/StartupProps.v ===== *)
(** * Properties of the start of a process *)

From S2P Require Import Prelude Common Msg Memory Param Server Cluster ClusterRT Stub Worker LayerConf NeuralNet Layers LayersProps NetLayers NetLayersProps Registry Startup.

(** ** Checkpoints *)
Lemma atoi_total s : (exists z, atoi s = Ok z) \/ atoi s = Undef.
Proof.
  unfold atoi. destruct (Header.scan_d s) as [[z r]|]; [|left; by eexists]. unfold int_ret. case_match; [left; by eexists|by right].
Qed.
(** The step in the name of a checkpoint. *)
Definition step_of (name : string) : option Z :=
  match strstr_step name with
  | Some k => match atoi (substr_from (k + 4) name) with Ok z => Some z | _ => None end
  | None => None
  end.
(** The loop finds the last step and its files, or does something undefined. *)
Lemma find_checkpoints_total names : forall latest ck, (0 < latest -> ck <> []) ->
  (exists step files, find_checkpoints names latest ck = Ok (step, files) /\ latest <= step /\
     (0 < step -> files <> []) /\ ("."%string ∉ names) /\
     forall name z, name ∈ names -> step_of name = Some z -> z <= step) \/
  find_checkpoints names latest ck = Undef.
Proof.
  induction names as [|name names IH]; intros latest ck Hck.
  - left. exists latest, ck. split; [done|]. split; [lia|]. split; [done|].
    split; [apply not_elem_of_nil|]. by intros ? ? ?%elem_of_nil.
  - cbn [find_checkpoints]. destruct (strstr_step name) as [k|] eqn:Ek.
    + destruct (atoi_total (substr_from (k + 4) name)) as [[z Ez] | Ez]; rewrite Ez; [|by right].
      rewrite bind_Ok. assert (Hname : step_of name = Some z) by (unfold step_of; by rewrite Ek, Ez).
      assert (Hgo : forall latest' ck', (0 < latest' -> ck' <> []) -> latest <= latest' -> z <= latest' ->
        (exists step files, find_checkpoints names latest' ck' = Ok (step, files) /\ latest <= step /\
           (0 < step -> files <> []) /\ ("."%string ∉ name :: names) /\
           forall name' z', name' ∈ name :: names -> step_of name' = Some z' -> z' <= step) \/
        find_checkpoints names latest' ck' = Undef).
      { intros latest' ck' Hck' Hl Hz. destruct (IH latest' ck' Hck') as [(step & files & E & Hs & Hf & Hd & Hle) | E]; [left|by right].
        exists step, files. split; [done|]. split; [lia|]. split; [done|]. split.
        - intros [<- | ?]%elem_of_cons; [by vm_compute in Ek|done].
        - intros name' z' [-> | Hin]%elem_of_cons; [|by apply Hle]. rewrite Hname. intros [= <-]. lia. }
      destruct (Z.eqb_spec z latest) as [-> |]; [apply Hgo; [by destruct ck|lia|lia]|].
      destruct (Z.ltb_spec latest z); apply Hgo; (done || lia).
    + case_match eqn:Hdot; [|by right].
      destruct (IH latest ck Hck) as [(step & files & E & Hs & Hf & Hd & Hle) | E]; [left|by right].
      exists step, files. split; [done|]. split; [done|]. split; [done|]. split.
      * intros [<- | ?]%elem_of_cons; [by vm_compute in Hdot|done].
      * intros name' z' [-> | Hin]%elem_of_cons; [|by apply Hle]. unfold step_of. by rewrite Ek.
Qed.

(** C29. A job is never resumed.  [Resume] leaves the model as it was, which takes a folder without
    the entry [.] and without a checkpoint of a positive step, or its behaviour is undefined:
    the entry [.] passes the null pointer of [strstr] on to [atoi], and the names of the
    checkpoints found are read through pointers to a variable of the loop that is gone. *)
Theorem Resume_never (names : list string) (step : Z) (checkpoint : list string) :
  Resume names step checkpoint = Undef \/
  Resume names step checkpoint = Ok (step, checkpoint) /\ ("."%string ∉ names) /\
    forall name z, name ∈ names -> step_of name = Some z -> z <= 0.
Proof.
  unfold Resume. destruct (find_checkpoints_total names 0 []) as [(latest & files & -> & Hs & Hf & Hd & Hle) | ->]; [done| |by left].
  rewrite bind_Ok. destruct (Z.ltb_spec 0 latest) as [Hpos|Hpos].
  - left. destruct files; [by specialize (Hf Hpos)|done].
  - right. split; [done|]. split; [done|]. intros name z Hn Hz. specialize (Hle name z Hn Hz). lia.
Qed.
Example Resume_examples :
  Resume ["."; ".."; "step100-worker0.bin"] 0 [] = Undef /\ Resume ["step100-worker0.bin"] 0 [] = Undef /\
  Resume ["notes"] 7 [] = Ok (7, []).
Proof. repeat split; vm_compute; reflexivity. Qed.

(** ** A net has layers of its own *)

(** Goes back from the last state to the first: a setup makes objects and deletes none. *)
Lemma members_grow i u s s' : set_members i u s = Ok s' -> next_obj s <= next_obj s'.
Proof. unfold set_members, update_obj. intros H. inv_oks. by subst. Qed.
Ltac grow_steps :=
  repeat match goal with
  | E : set_members _ _ _ = Ok _ |- _ => apply members_grow in E
  | E : Layer_Setup _ _ _ _ = Ok _ |- _ => apply (Layer_Setup_touches 0) in E; apply to_next in E
  | E : reshape_data _ _ _ = Ok _ |- _ => apply (reshape_data_touches 0) in E; apply to_next in E
  | E : reshape_grad _ _ _ = Ok _ |- _ => apply (reshape_grad_touches 0) in E; apply to_next in E
  | E : new_blob _ _ = Ok _ |- _ => apply (new_blob_touches 0 0) in E; apply to_next in E
  | E : new_param _ _ _ = Ok _ |- _ => apply (new_param_touches 0 0) in E; apply to_next in E
  | E : slice_blobs _ _ _ _ _ = Ok _ |- _ => apply (slice_blobs_touches 0 0) in E; apply to_next in E
  end.
Ltac grow H := open_setup H; grow_steps; simpl in *; lia.

Section grow.
Context `{F : Files}.
Lemma plain_Setup_grows i p np s s' :
  (Layer_Setup i p np s = Ok s' \/ BridgeDst_Setup i p np s = Ok s' \/ Convolution_Setup i p np s = Ok s' \/
   Concate_Setup i p np s = Ok s' \/ Dropout_Setup i p np s = Ok s' \/ InnerProduct_Setup i p np s = Ok s' \/
   LRN_Setup i p np s = Ok s' \/ Output_Setup i p np s = Ok s' \/ Pooling_Setup i p np s = Ok s' \/
   ReLU_Setup i p np s = Ok s' \/ SoftmaxLoss_Setup i p np s = Ok s' \/ Slice_Setup i p np s = Ok s' \/
   Split_Setup i p np s = Ok s' \/ Tanh_Setup i p np s = Ok s' \/ RBMVis_Setup i p np s = Ok s' \/
   RBMHid_Setup i p np s = Ok s') -> next_obj s <= next_obj s'.
Proof.
  unfold BridgeDst_Setup, Convolution_Setup, Concate_Setup, Dropout_Setup, InnerProduct_Setup, LRN_Setup, Output_Setup,
    Pooling_Setup, ReLU_Setup, SoftmaxLoss_Setup, Slice_Setup, Split_Setup, Tanh_Setup, RBMVis_Setup, RBMHid_Setup.
  intros H. repeat (destruct H as [H|H]; [grow H|]). grow H.
Qed.
Lemma data_Setup_grows i p np s s' :
  (ShardData_Setup i p np s = Ok s' \/ Input_Setup i p np s = Ok s' \/ Label_Setup i p np s = Ok s' \/
   Mnist_Setup i p np s = Ok s' \/ RGBImage_Setup i p np s = Ok s') -> next_obj s <= next_obj s'.
Proof.
  unfold ShardData_Setup, Input_Setup, Label_Setup, Mnist_Setup, RGBImage_Setup.
  intros [H|[H|[H|[H|H]]]]; [grow H..| |grow H]. open_setup H. case_match; grow H.
Qed.
Lemma create_obj_grows ty s s' j : create_obj ty s = Ok (s', j) -> j = next_obj s /\ next_obj s' = next_obj s + 1.
Proof. unfold create_obj. intros H. open_setup H. by simpl. Qed.
Lemma create_sublayers_grows subs : forall m s s' js m', create_sublayers subs m s = Ok (s', js, m') -> next_obj s <= next_obj s'.
Proof.
  induction subs as [|p subs IH]; intros m s s' js m' H; simpl in H; [by injection H as <-|].
  inv_ok H. destruct a as [s1 j]. inv_ok H. destruct a as [[s2 js'] m2]. injection H as -> _ _.
  apply create_obj_grows in E as [_ E]. apply IH in E0. lia.
Qed.
Lemma setup_sublayers_grows setup layers : (forall j p s s', setup j p 1 s = Ok s' -> next_obj s <= next_obj s') ->
  forall js subs s s', setup_sublayers setup layers js subs s = Ok s' -> next_obj s <= next_obj s'.
Proof.
  intros Hs. induction js as [|j js IH]; intros subs s s' H; simpl in H; [by injection H as <-|].
  destruct subs as [|p subs]; [by injection H as <-|]. inv_ok H. inv_ok H. apply IH in H. apply Hs in E0.
  apply (link_sources_touches 0) in E as [E _]. apply to_next in E. lia.
Qed.
Lemma Setup_fuel_grows fuel : forall i p np s s', Setup_fuel fuel i p np s = Ok s' -> next_obj s <= next_obj s'.
Proof.
  induction fuel as [|fuel IH]; intros i p np s s' H; [done|]. cbn [Setup_fuel] in H. inv_ok H.
  destruct (oclass a); try done; try (apply (plain_Setup_grows i p np s s'); tauto); try (apply (data_Setup_grows i p np s s'); tauto).
  unfold Prefetch_Setup in H. cbv zeta in H. inv_ok H. inv_ok H. inv_ok H. destruct a2 as [[s2 js] layers]. inv_ok H. inv_ok H.
  destruct a3 as [s4 bs]. apply members_grow in H. apply (Layer_Setup_touches 0) in E0. apply to_next in E0.
  apply create_sublayers_grows in E2. apply setup_sublayers_grows in E3; [|intros; by eapply IH].
  apply (make_datablobs_touches 0 i) in E4. apply to_next in E4. lia.
Qed.

Lemma create_layers_new ng nodes : forall m s s' js m', create_layers nodes ng m s = Ok (s', js, m') ->
  next_obj s <= next_obj s' /\ forall j, j ∈ js -> next_obj s <= j < next_obj s'.
Proof.
  induction nodes as [|nd nodes IH]; intros m s s' js m' H; simpl in H.
  { injection H as <- <- _. split; [done|]. intros j Hj. by apply elem_of_nil in Hj. }
  inv_ok H. inv_ok H. inv_ok H. destruct a1 as [s1 j]. inv_ok H. destruct a1 as [[s2 js2] m2]. injection H as -> <- _.
  apply create_obj_grows in E1 as [-> E1]. apply IH in E2 as [E2 Hj]. split; [lia|].
  intros k [->|Hk]%elem_of_cons; [lia|]. specialize (Hj k Hk). lia.
Qed.
Lemma number_params_next ln qs : forall pn k s s' k', number_params ln pn qs k s = Ok (s', k') -> next_obj s' = next_obj s.
Proof.
  induction qs as [|q qs IH]; intros pn k s s' k' H; simpl in H; [by injection H as <- _|].
  inv_ok H. inv_ok H. cbv zeta in H. by apply IH in H.
Qed.
Lemma setup_layers_grows nodes np ng m : forall k share s s' share', setup_layers nodes np ng m k share s = Ok (s', share') ->
  next_obj s <= next_obj s'.
Proof.
  induction nodes as [|nd nodes IH]; intros k share s s' share' H; cbn [setup_layers] in H; [by injection H as <- _|].
  inv_ok H. inv_ok H. inv_ok H. inv_ok H. inv_ok H. inv_ok H. destruct a4 as [s2 k2]. inv_ok H. apply IH in H.
  apply Setup_fuel_grows in E1. apply number_params_next in E4. lia.
Qed.

(** Sharing makes no objects. *)
Lemma share_params_next qs : forall rs s s', share_params qs rs s = Ok s' -> next_obj s' = next_obj s.
Proof.
  induction qs as [|q qs IH]; intros [|r rs] s s' H; simpl in H; try by injection H as <-.
  inv_ok H. apply IH in H. rewrite H. unfold share_param in E. inv_oks. by subst.
Qed.
Lemma share_layer_next i j s s' : share_layer i j s = Ok s' -> next_obj s' = next_obj s.
Proof. unfold share_layer. intros H. inv_ok H. inv_ok H. inv_ok H. by apply share_params_next in H. Qed.
Lemma share_layers_next i js : forall s s', share_layers i js s = Ok s' -> next_obj s' = next_obj s.
Proof.
  induction js as [|j js IH]; intros s s' H; simpl in H; [by injection H as <-|].
  inv_ok H. apply IH in H. apply share_layer_next in E. congruence.
Qed.
Lemma share_origins_next l : forall s s', share_origins l s = Ok s' -> next_obj s' = next_obj s.
Proof.
  induction l as [|[o js] l IH]; intros s s' H; simpl in H; [by injection H as <-|].
  inv_ok H. apply IH in H. destruct js; [done|]. apply share_layers_next in E. congruence.
Qed.
Lemma share_named_next l m : forall s s', share_named l m s = Ok s' -> next_obj s' = next_obj s.
Proof.
  induction l as [|[nm q] l IH]; intros s s' H; simpl in H; [by injection H as <-|].
  inv_ok H. inv_ok H. apply IH in H. rewrite H. case_decide; [by injection E0 as ->|].
  destruct (m !! _); [|done]. unfold share_param in E0. inv_oks. by subst.
Qed.
Lemma ShareParamsFrom_next n other s s' : ShareParamsFrom n other s = Ok s' -> next_obj s' = next_obj s.
Proof.
  unfold ShareParamsFrom. generalize (layers_ n). intros js. revert s. induction js as [|j js IH]; intros s H; simpl in H; [by injection H as <-|].
  inv_ok H. inv_ok H. apply IH in H. rewrite H. destruct (name2layer_ other !! _); [by apply share_layer_next in E0|by injection E0 as ->].
Qed.
Lemma collect_layers_layers js : forall s n n', collect_layers js s n = Ok n' -> layers_ n' = layers_ n.
Proof.
  assert (forall qs s n n', collect_params qs s n = Ok n' -> layers_ n' = layers_ n) as Hq.
  { induction qs as [|q qs IH]; intros s n n' H; simpl in H; [by injection H as <-|]. inv_ok H. by apply IH in H. }
  induction js as [|j js IH]; intros s n n' H; simpl in H; [by injection H as <-|].
  inv_ok H. inv_ok H. apply IH in H. apply Hq in E0. by rewrite H, E0.
Qed.

(** The layers of a net are made when it is created. *)
Lemma NeuralNet_Create_new order np phase n s s' net : NeuralNet_Create order np phase n s = Ok (s', net) ->
  next_obj s <= next_obj s' /\ forall j, j ∈ layers_ net -> next_obj s <= j < next_obj s'.
Proof.
  unfold NeuralNet_Create, NeuralNet_make. intros H. inv_ok H. inv_ok H. inv_ok H. destruct a1 as [s1 layers]. inv_ok H.
  injection H as <- <-. unfold PrepareDataStructures in E2. apply collect_layers_layers in E2. simpl in E2. rewrite E2. clear E2.
  unfold CreateNetFromGraph in E1. cbv zeta in E1. inv_ok E1. destruct a2 as [[s2 js] m]. inv_ok E1. inv_ok E1.
  destruct a3 as [s4 share]. inv_ok E1. inv_ok E1. inv_ok E1. inv_ok E1. injection E1 as <- <-.
  apply create_layers_new in E2 as [G2 Hj]. apply connect_layers_Ok in E3 as (_ & E3 & _). apply setup_layers_grows in E4.
  apply share_named_next in E7. apply share_origins_next in E8. split; [lia|]. intros j Hin. specialize (Hj j Hin). lia.
Qed.
End grow.

(** ** The nets of the workers *)
Section nets.
Context `{C : Czmq} `{F : Files} (order : gmap string Z -> list (string * Z)).

Section assigned.
Context (np : NetProto) (grp_size : Z).

(** A net that was created for [phase] when there were at least [lo] objects and at most [hi] afterwards, and
    then took the params of [other]. *)
Definition new_net (phase : Phase) (other : option NetLayers.NeuralNet) (lo hi : Z) (n : NetLayers.NeuralNet) : Prop :=
  (exists s1 s2, NeuralNet_Create order np phase grp_size s1 = Ok (s2, n) /\
     forall o, other = Some o -> exists s3, ShareParamsFrom n o s2 = Ok s3) /\
  lo <= hi /\ forall j, j ∈ layers_ n -> lo <= j < hi.
(** The net for tests or for validation: there is one if the first group is in this process and there are steps. *)
Definition first_group_net (phase : Phase) (steps grp : Z) (net : NetLayers.NeuralNet) (lo hi : Z)
    (r : option NetLayers.NeuralNet) : Prop :=
  if (grp =? 0) && negb (steps =? 0) then exists n, r = Some n /\ new_net phase (Some net) lo hi n
  else r = None /\ lo <= hi.
(** What the workers get, given the group of the worker before, the nets for validation and tests of
    its group, and the number of objects there are. *)
Inductive workers_nets (share : bool) (net : NetLayers.NeuralNet) : Z -> option NetLayers.NeuralNet -> option NetLayers.NeuralNet ->
    Z -> list (Z * Z) -> list assignment -> Prop :=
| wn_nil grp valid test lo : workers_nets share net grp valid test lo [] []
| wn_same grp valid test lo id ws l : workers_nets share net grp valid test lo ws l ->
    workers_nets share net grp valid test lo ((grp, id) :: ws) (mkAssigned grp id net valid test :: l)
| wn_new prev valid test lo hi grp id train ws l : grp <> prev ->
    new_net kTrain (if share then Some net else None) lo hi train -> workers_nets share net grp None None hi ws l ->
    workers_nets share net prev valid test lo ((grp, id) :: ws) (mkAssigned grp id train None None :: l).

Lemma NeuralNet_Create_new_net phase other s s' n :
  NeuralNet_Create order np phase grp_size s = Ok (s', n) ->
  (forall o, other = Some o -> exists s3, ShareParamsFrom n o s' = Ok s3) -> new_net phase other (next_obj s) (next_obj s') n.
Proof. intros E Ho. split; [by exists s, s'|]. by eapply NeuralNet_Create_new. Qed.
Lemma shared_net_first phase steps grp net s s' r : shared_net order np phase grp_size steps grp net s = Ok (s', r) ->
  first_group_net phase steps grp net (next_obj s) (next_obj s') r.
Proof.
  unfold shared_net, first_group_net. case_match; [|intros [= <- <-]; done]. intros E.
  apply bind_Ok_inv in E as ([s1 n] & E1 & E). apply bind_Ok_inv in E as (s2 & E2 & E). injection E as <- <-.
  exists n. split; [done|]. rewrite (ShareParamsFrom_next _ _ _ _ E2). apply (NeuralNet_Create_new_net _ _ _ _ _ E1).
  intros o [= <-]. by exists s2.
Qed.
Lemma setup_workers_nets up share first last net ws : forall grp valid test prepare shard s s' shard' l,
  setup_workers order up np grp_size share first last net ws grp valid test prepare shard s = Ok (s', shard', l) ->
  workers_nets share net grp valid test (next_obj s) ws l.
Proof.
  induction ws as [|[g id] ws IH]; intros grp valid test prepare shard s s' shard' l E; cbn [setup_workers] in E.
  - injection E as _ _ <-. constructor.
  - apply bind_Ok_inv in E as ([[[[[s1 train] v] t] g1] pr] & E1 & E).
    apply bind_Ok_inv in E as (u & _ & E).
    apply bind_Ok_inv in E as (sh & _ & E). apply bind_Ok_inv in E as ([[s2 sh2] rest] & E2 & E).
    injection E as _ _ <-. destruct (Z.eqb_spec g grp) as [-> | Hne]; simpl in E1.
    + injection E1 as -> -> -> -> -> ->. constructor. by eapply IH.
    + apply bind_Ok_inv in E1 as ([sa ta] & Ea & E1). apply bind_Ok_inv in E1 as (sb & Eb & E1).
      injection E1 as <- <- <- <- <- <-. apply (wn_new _ _ _ _ _ _ (next_obj sa)); [done| |].
      * apply (NeuralNet_Create_new_net _ _ _ _ _ Ea). destruct share; [|done]. intros o [= <-]. by exists sb.
      * apply IH in E2. destruct share; [|by injection Eb as <-]. by rewrite (ShareParamsFrom_next _ _ _ _ Eb) in E2.
Qed.
End assigned.
(** Every worker gets what its [Setup] needs. *)
Lemma setup_workers_updater up np grp_size share first last net ws grp valid test prepare shard s r :
  setup_workers order up np grp_size share first last net ws grp valid test prepare shard s = Ok r -> ws <> [] -> up = Ok tt.
Proof.
  destruct ws as [|[g id] ws]; [done|]. cbn [setup_workers]. intros E _.
  apply bind_Ok_inv in E as ([[[[[s1 train] v] t] g1] pr] & _ & E). apply bind_Ok_inv in E as ([] & E & _). exact E.
Qed.

(** The group and the id of a worker, with its thread. *)
Definition worker_key (ta : Z * assignment) : Z * (Z * Z) := (ta.1, (as_grp ta.2, as_id ta.2)).
Definition server_key (sv : Server) : Z * (Z * Z) := (thread_id_ sv, (grp_id_ sv, id_ sv)).
Lemma number_from_cons {A} n (x : A) l : number_from n (x :: l) = (n, x) :: number_from (n + 1) l.
Proof.
  unfold number_from. rewrite imap_cons. f_equal; [f_equal; lia|]. apply imap_ext. intros k y _. simpl. f_equal. lia.
Qed.
Lemma workers_nets_keys np grp_size share net prev valid test lo ws l :
  workers_nets np grp_size share net prev valid test lo ws l ->
  forall n, map worker_key (number_from n l) = number_from n ws.
Proof. induction 1 as [| |]; intros n; [done|..]; rewrite !number_from_cons; simpl; f_equal; auto. Qed.
Lemma snd_number_from {A} (l : list A) : forall n, map snd (number_from n l) = l.
Proof. induction l as [|x l IH]; intros n; [done|]. rewrite number_from_cons. simpl. by rewrite IH. Qed.
Lemma make_servers_keys n ids : map server_key (make_servers n ids) = number_from n ids.
Proof.
  unfold make_servers. rewrite map_map. rewrite <- (map_id (number_from n ids)) at 2. apply map_ext. by intros [t [g i]].
Qed.

(** C28. The threads of a process.  Worker threads are numbered from 1 in the order of
    [CreateWorkers].  The nets: one for training is made first.  A worker whose group is that of
    the worker before it, or that of the first worker, trains on that net, also when its group
    is another than the first, and gets the nets for tests and validation of the worker before it.
    The first worker of any later group gets a training net that is made for it, of
    layers that no earlier net has, and that takes the params of the first net if
    memory is shared; it and the rest of its group have no nets for tests and validation.
    Those are made, with the params of the first net, if the first workers are
    of group 0 and there are steps for them.  A job of
    less than two steps runs neither servers nor stub, makes no nets for tests and validation, and can have workers only if they leave
    the updates to the servers that do not run, because the tester registers no updater; any other
    job runs the stub and the servers of [CreateServers], numbered after the workers. *)
Theorem SubmitJob_threads (cl : Cluster) (procs_id : Z) (resume : option (list string)) (model : Z * list string)
    (server_update share_memory : bool) (np : NetProto) (train_steps test_steps validation_steps : Z) (s : nstate) (pr : process)
    (Hjob : SubmitJob order cl procs_id resume model server_update share_memory np train_steps test_steps validation_steps s = Ok pr) :
  let size := nworkers_per_group (cluster_ cl) in
  exists workers servers net test valid o1 o2 o3, CreateWorkers cl procs_id = Ok workers /\ CreateServers cl procs_id = Ok servers /\
    map worker_key (pr_workers pr) = number_from 1 workers /\
    new_net np size kTrain None (next_obj s) o1 net /\
    workers_nets np size share_memory net (first_grp workers) valid test o3 workers (map snd (pr_workers pr)) /\
    (train_steps < 2 -> pr_servers pr = [] /\ pr_stub pr = false /\ valid = None /\ test = None /\ o1 <= o3 /\
       (workers <> [] -> nserver_groups (cluster_ cl) <> 0 /\ server_update = true)) /\
    (2 <= train_steps -> pr_stub pr = true /\
       first_group_net np size kTest test_steps (first_grp workers) net o1 o2 test /\
       first_group_net np size kValidation validation_steps (first_grp workers) net o2 o3 valid /\
       map server_key (pr_servers pr) = number_from (1 + Z.of_nat (length workers)) servers).
Proof.
  intros size. unfold SubmitJob in Hjob. destruct (Z.ltb_spec train_steps 2) as [Hlt|Hge];
    apply bind_Ok_inv in Hjob as (r & Hr & Hjob); apply bind_Ok_inv in Hjob as (m & _ & E);
    [apply Tester_no_updater in Hr|clear Hr]; apply bind_Ok_inv in E as (workers & Ew & E);
    apply bind_Ok_inv in E as (servers & Es & E); apply bind_Ok_inv in E as ([[[s' t'] l] svs] & Eset & E);
    injection E as <-; cbn [pr_workers pr_servers pr_stub].
  - apply bind_Ok_inv in Eset as ([s1 net] & En & E). apply bind_Ok_inv in E as ([[s2 sh] l'] & E & E').
    injection E' as _ _ -> _. pose proof (setup_workers_updater _ _ _ _ _ _ _ _ _ _ _ _ _ _ _ E) as Hup.
    apply setup_workers_nets in E. exists workers, servers, net, None, None, (next_obj s1), (next_obj s1), (next_obj s1).
    rewrite snd_number_from, (workers_nets_keys _ _ _ _ _ _ _ _ _ _ E).
    split_and!; try done; try lia.
    + by apply (NeuralNet_Create_new_net _ _ _ _ _ _ _ En).
    + intros _. split_and!; try done. intros Hws. specialize (Hup Hws).
      unfold worker_updater in Hup. rewrite Hr in Hup. by destruct (Z.eqb_spec (nserver_groups (cluster_ cl)) 0), server_update.
  - apply bind_Ok_inv in Eset as ([s1 net] & En & E). apply bind_Ok_inv in E as ([w slices] & _ & E).
    apply bind_Ok_inv in E as ([s3 tn] & Et & E). apply bind_Ok_inv in E as ([s4 vn] & Ev & E).
    apply bind_Ok_inv in E as ([[s5 sh] l'] & Es' & E). apply bind_Ok_inv in E as (g2 & _ & E).
    apply bind_Ok_inv in E as (v2 & _ & E). injection E as _ _ -> <-. apply setup_workers_nets in Es'.
    apply shared_net_first in Et, Ev. simpl in Et.
    exists workers, servers, net, tn, vn, (next_obj s1), (next_obj s3), (next_obj s4).
    rewrite snd_number_from, (workers_nets_keys _ _ _ _ _ _ _ _ _ _ Es').
    split_and!; try done; [by apply (NeuralNet_Create_new_net _ _ _ _ _ _ _ En)|lia|].
    intros _. split_and!; try done. rewrite map_map.
    rewrite <- make_servers_keys. by apply map_ext.
Qed.
End nets.

(** ** The entries of several groups *)
Definition owners_below (n : Z) (w : world) (layers : list (Z * list Z)) : Prop :=
  forall l i p, l ∈ layers -> i ∈ l.2 -> params w !! i = Some p -> 0 <= owner p < n.
Lemma Hash_lt997 g p g' p' : 0 <= p < 997 -> 0 <= p' < 997 -> Stub.Hash g p = Stub.Hash g' p' -> g = g' /\ p = p'.
Proof. unfold Stub.Hash. lia. Qed.
Lemma add_params_frame grp local ps w g q : forall shard shard',
  (forall i p, i ∈ ps -> params w !! i = Some p -> 0 <= owner p < 997) ->
  add_params grp local ps w shard = Ok shard' -> g <> grp -> 0 <= q < 997 ->
  shard' !! Stub.Hash g q = shard !! Stub.Hash g q.
Proof.
  induction ps as [|i ps IH]; intros shard shard' Hp E Hg Hq; cbn [add_params] in E; [by injection E as ->|].
  apply bind_Ok_inv in E as (p & Ep & E). apply bind_Ok_inv in E as (e & _ & E).
  destruct (params w !! i) as [p0|] eqn:Ei; [|discriminate]. injection Ep as ->. rewrite (IH _ _ (fun j pj Hj => Hp j pj (list_elem_of_further _ _ _ Hj)) E Hg Hq).
  apply lookup_insert_ne. intros Hh. apply Hg.
  pose proof (Hp i p (list_elem_of_here _ _) Ei). by destruct (Hash_lt997 grp (owner p) g q).
Qed.

(** C30. The range of the stub's hash.  Filling the shard for the params of a group leaves the
    entries of every other group as they are, as long as the params have ids below 997; the
    entry of a param with id 997 is that of param 0 of the next group. *)
Theorem prepare_params_other_groups (grp first last : Z) (layers : list (Z * list Z)) (w : world)
    (shard shard' : gmap Z ParamEntry) (Hown : owners_below 997 w layers)
    (Hprep : prepare_params grp first last layers w shard = Ok shard') :
  (forall g q, g <> grp -> 0 <= q < 997 -> shard' !! Stub.Hash g q = shard !! Stub.Hash g q) /\
  Stub.Hash grp 997 = Stub.Hash (grp + 1) 0.
Proof.
  split; [|unfold Stub.Hash; lia]. intros g q Hg Hq. revert shard Hown Hprep.
  induction layers as [|[pid ps] layers IH]; intros shard Hown Hprep; cbn [prepare_params] in Hprep; [by injection Hprep as ->|].
  apply bind_Ok_inv in Hprep as (sh & E & Hprep).
  rewrite (IH sh (fun l i p Hl => Hown l i p (list_elem_of_further _ _ _ Hl)) Hprep).
  apply (add_params_frame _ _ _ _ _ _ _ _ (fun i p => Hown (pid, ps) i p (list_elem_of_here _ _)) E Hg Hq).
Qed.
Definition demo_params : world :=
  mkWorld empty_heap {[0 := set_id 0 Param_new; 1 := set_id 996 Param_new]} 2 ∅.
Lemma prepare_params_other_groups_witness : exists shard',
  prepare_params 0 0 0 [(0, [0; 1])] demo_params {[Stub.Hash 1 0 := ParamEntry_new]} = Ok shard' /\
  shard' !! Stub.Hash 1 0 = Some ParamEntry_new.
Proof.
  eexists. split; [vm_compute; reflexivity|].
  refine (eq_trans (proj1 (prepare_params_other_groups 0 0 0 [(0, [0; 1])] demo_params {[Stub.Hash 1 0 := ParamEntry_new]} _ _ _) 1 0 _ _) _).
  - intros l i p Hl Hi Hp. apply list_elem_of_singleton in Hl as ->. simpl in Hi.
    apply elem_of_cons in Hi as [-> | ->%list_elem_of_singleton]; vm_compute in Hp; injection Hp as <-; vm_compute; split; congruence.
  - vm_compute. reflexivity.
  - lia.
  - lia.
  - vm_compute. reflexivity.
Defined.

(** Two groups of two workers in one process: the second worker of the second group trains on the
    net of the first group. *)
#[local] Instance start_files : Files :=
  {| shard_folder _ := false; shard_file _ := None; parse_record _ := Record_default; read_mean _ := Fatal |}.
#[local] Existing Instance ListCzmq.czmq.
Definition demo_two_groups : ClusterProto := mkClusterProto 2 1 2 1 4 1 false.
Definition demo_job_cluster : Cluster :=
  match Cluster_make demo_two_groups with Ok cl => cl | _ => mkCluster demo_two_groups 0 ∅ end.
Definition demo_input_net : NetProto := mkNetProto [mkLayerProto "data" kInput None 0 [] [] [] "unknow" NoConf] 0.
Definition demo_job : outcome process :=
  SubmitJob map_to_list demo_job_cluster 0 None (0, []) true true demo_input_net 10 0 0 (mkNS ∅ 0 (mkWorld empty_heap ∅ 0 ∅)).
Definition demo_process : process :=
  match demo_job with
  | Ok pr => pr
  | _ => mkProcess (mkNS ∅ 0 (mkWorld empty_heap ∅ 0 ∅)) (Trainer_new 0) [] [] false (0, [])
  end.
(** Two groups of two workers: the second worker of the second group trains on the net of the first group, the
    first worker of the second group on a net of its own. *)
Lemma SubmitJob_threads_witness : exists a0 a1 a2 a3,
  demo_job = Ok demo_process /\ pr_workers demo_process = [(1, a0); (2, a1); (3, a2); (4, a3)] /\
  (as_grp a3, as_id a3) = (1, 1) /\ as_train a3 = as_train a0 /\
  (forall i j, i ∈ layers_ (as_train a0) -> j ∈ layers_ (as_train a2) -> i < j) /\ pr_stub demo_process = true.
Proof.
  assert (E : demo_job = Ok demo_process) by (vm_compute; reflexivity).
  destruct (SubmitJob_threads map_to_list demo_job_cluster 0 None (0, []) true true demo_input_net 10 0 0
    (mkNS ∅ 0 (mkWorld empty_heap ∅ 0 ∅)) demo_process E)
    as (workers & servers & net & test & valid & o1 & o2 & o3 & Ew & _ & Hk & (_ & _ & Hnet) & Hn & _ & Hs).
  destruct Hs as (Hst & F1 & F2 & _); [lia|]. unfold first_group_net in F1, F2. rewrite andb_false_r in F1, F2.
  destruct F1 as [_ H12], F2 as [_ H23].
  assert (Ew' : workers = [(0, 0); (0, 1); (1, 0); (1, 1)]).
  { assert (Ok workers = Ok [(0, 0); (0, 1); (1, 0); (1, 1)]) as Ew' by (rewrite <- Ew; vm_compute; reflexivity). congruence. }
  subst workers. destruct (pr_workers demo_process) as [|[t0 a0] [|[t1 a1] [|[t2 a2] [|[t3 a3] [|]]]]]; try discriminate Hk.
  injection Hk as -> _ _ -> _ _ -> _ _ -> H1 H2. exists a0, a1, a2, a3. split; [exact E|]. split; [reflexivity|].
  split; [by rewrite H1, H2|]. simpl in Hn.
  inversion Hn as [|? ? ? ? ? ? ? Hn1|? ? ? ? ? ? ? ? ? ? Hne]; subst; [|by destruct Hne].
  inversion Hn1 as [|? ? ? ? ? ? ? Hn2|? ? ? ? ? ? ? ? ? ? Hne]; subst; [|by destruct Hne].
  inversion Hn2 as [| |? ? ? ? hi ? ? train ? ? _ (_ & _ & Ht) Hn3]; subst.
  inversion Hn3 as [|? ? ? ? ? ? ? Hn4|? ? ? ? ? ? ? ? ? ? Hne]; subst; [|by destruct Hne].
  split; [reflexivity|]. split; [|exact Hst]. simpl. intros i j Hi Hj. specialize (Hnet i Hi). specialize (Ht j Hj). lia.
Defined.
