(* ===== verification/TesterStub.v ===== *)
(** * trainer/tester.cc: the stub of a tester

    [Tester] has its own copies of the members of [Trainer] that create threads and handle
    messages, word for word the same; its [Init] prepares a process without starting it, and the
    loop of its [Run], which [Start] does not call, never reminds servers to synchronise. *)

From S2P Require Import Prelude Common Msg Format Memory Param Server Cluster Stub Worker LayerConf NeuralNet Layers NetLayers Registry Startup.

(** ** The threads *)
Definition Tester_CreateServers (cl : Cluster) (procs_id : Z) : outcome (list (Z * Z)) := CreateServers cl procs_id.
Definition Tester_CreateWorkers (cl : Cluster) (procs_id : Z) : outcome (list (Z * Z)) := CreateWorkers cl procs_id.
Definition Tester_Resume (names : list string) (step : Z) (checkpoint : list string) : outcome (Z * list string) :=
  Resume names step checkpoint.

Section tester.
Context `{C : Czmq}.

(** What [Init] leaves: workers and servers that no thread runs. *)
Definition Tester_Init `{F : Files} (order : gmap string Z -> list (string * Z)) (cl : Cluster) (procs_id : Z)
    (resume : option (list string)) (model : Z * list string) (server_update share_memory : bool) (np : NetProto) (s : nstate)
    : outcome process :=
  r ← Tester_RegisterDefaultClasses registries_new;
  model ← match resume with Some names => Tester_Resume names model.1 model.2 | None => Ok model end;
  workers ← Tester_CreateWorkers cl procs_id;
  servers ← Tester_CreateServers cl procs_id;
  '(s, t, assigned, servers) ←
    Tester_SetupWorkerServer order r (cluster_ cl) server_update share_memory np workers
      (make_servers (1 + Z.of_nat (length workers)) servers) (Trainer_new procs_id) s;
  Ok (mkProcess s t (number_from 1 assigned) servers false model).

(** ** The handlers *)
Definition Tester_GenMsgs (cl : Cluster) (t : Trainer) (ty version : Z) (entry : ParamEntry) (msg : Msg) (w : world)
    : outcome (world * list Msg) := GenMsgs cl t ty version entry msg w.
Definition Tester_HandleGet (cl : Cluster) (t : Trainer) (entry : ParamEntry) (msg : Msg) (w : world)
    : outcome (world * ParamEntry * list Msg) := Stub.HandleGet cl t entry msg w.
Definition Tester_HandleUpdate (cl : Cluster) (t : Trainer) (entry : ParamEntry) (msg : Msg) (w : world)
    : outcome (world * ParamEntry * list Msg) := Stub.HandleUpdate cl t entry msg w.
Definition Tester_HandlePut (cl : Cluster) (t : Trainer) (entry : ParamEntry) (msg : Msg) (w : world)
    : outcome (world * list Msg) := Stub.HandlePut cl t entry msg w.
Definition Tester_HandleGetResponse (entry : ParamEntry) (msg : Msg) (w : world) : outcome world :=
  HandleGetResponse entry msg w.
Definition Tester_HandleUpdateResponse (entry : ParamEntry) (msg : Msg) (w : world) : outcome world :=
  HandleUpdateResponse entry msg w.
Definition Tester_HandleLocalMsg (cl : Cluster) (msg : Msg) (t : Trainer) (w : world) : outcome (world * Trainer * list Msg) :=
  HandleLocalMsg cl msg t w.
Definition Tester_DisplayMetric (msg : Msg) : outcome (list action) := DisplayMetric msg.
Definition Tester_GenSyncReminderMsg (server : Z) (servers : list (Z * Z)) : outcome Msg := GenSyncReminderMsg server servers.

(** ** The loop of Run *)
Definition Tester_Run_msg (cl : Cluster) (max_bandwidth bw : Z) (msg : Msg) (r : Run_state) (t : Trainer) (w : world)
    : outcome (world * Trainer * Run_state * list action * bool) := Run_msg cl max_bandwidth bw msg r t w.
(** Nothing is done when a poll expires. *)
Definition Tester_Run_step (cl : Cluster) (max_bandwidth bw : Z) (received : option Msg) (r : Run_state) (t : Trainer) (w : world)
    : outcome (world * Trainer * Run_state * list action * bool) :=
  match msg_queue r with
  | m :: q => Tester_Run_msg cl max_bandwidth bw m (set_queue q r) t w
  | [] =>
      match received with
      | None => Ok (w, t, r, [], false)
      | Some m => Tester_Run_msg cl max_bandwidth bw m r t w
      end
  end.

(** ** How it differs *)

(** [Start] is [Init] with the threads of the workers. *)
Lemma Tester_Init_Start `{F : Files} order cl procs_id resume model server_update share_memory np s p :
  Tester_Start order cl procs_id resume model server_update share_memory np s = Ok p ->
  exists servers, Tester_Init order cl procs_id resume model server_update share_memory np s =
    Ok (mkProcess (pr_state p) (pr_trainer p) (pr_workers p) servers false (pr_model p)).
Proof.
  unfold Tester_Start, Tester_Init, resume_model, Tester_Resume, Tester_CreateWorkers, Tester_CreateServers. intros H.
  inv_ok H. inv_ok H. inv_ok H. inv_ok H. inv_ok H. destruct a3 as [[[s1 t1] as1] sv1]. injection H as <-. exists sv1.
  by rewrite E, bind_Ok, E0, bind_Ok, E1, bind_Ok, E2, bind_Ok, E3, bind_Ok.
Qed.
(** The two stubs do the same, but when a poll expires and the trainer's is to synchronise groups. *)
Lemma Tester_Run_agrees cl max_bandwidth bw servers received r t w :
  received <> None \/ msg_queue r <> [] \/ nserver_groups (cluster_ cl) <= 1 \/ max_bandwidth <= bw ->
  Tester_Run_step cl max_bandwidth bw received r t w = Stub.Run_step cl max_bandwidth bw servers received r t w.
Proof.
  intros H. unfold Tester_Run_step, Run_step, Tester_Run_msg. destruct (msg_queue r) as [|m q]; [|done].
  destruct received as [m|]; [done|]. unfold Run_expired.
  replace ((1 <? nserver_groups (cluster_ cl)) && (bw <? max_bandwidth)) with false; [done|].
  symmetry. apply andb_false_iff. rewrite !Z.ltb_ge. destruct H as [?|[?|[?|?]]]; [done|done|by left|by right].
Qed.
(** The params of a tester are never sliced, so whatever its workers ask for, its stub sends no
    message to the servers. *)
Lemma Tester_no_messages cl t ty version entry msg w w' ms i p :
  shares entry !! 0%nat = Some i -> params w !! i = Some p -> num_slices p = 0 ->
  Tester_GenMsgs cl t ty version entry msg w = Ok (w', ms) -> ms = [].
Proof.
  intros Hi Hp Hn H. unfold Tester_GenMsgs, GenMsgs in H. inv_ok H. inv_ok H.
  pose proof (vec_at_lookup (shares entry) 0 i Hi) as Ev. change (Z.of_nat 0) with 0 in Ev. rewrite Ev, bind_Ok, Hp, deref_Some, bind_Ok, Hn in H. simpl in H. by injection H as _ <-.
Qed.
End tester.
