(* ===== verification/DataLayerProps.v ===== *)
(** * Properties of the data layers: batches of records, and the parsers of images and labels *)

From S2P Require Import Prelude DataShard DataShardProps Float32 Msg Format Memory Param Server Worker LayerConf Layers LayersProps LayerCompute.

(** ** Batches of records *)
Section records.
Context `{F : Files}.

Lemma Next_record_string sh :
  Next_record sh = ('(kv, sh) ← Next_string sh; Ok (option_map (fun kv => parse_record kv.2) kv, sh)).
Proof.
  unfold Next_record, Next_string. destruct (Next sh) as [[[k n] sh1]| | | |]; [|done..].
  rewrite !bind_Ok. destruct (n =? 0); [done|].
  destruct (DataShard.load _ _ _); [|done..]. rewrite !bind_Ok. by destruct (skip _ _).
Qed.

Context (ts : list (list Z * list Z)).

(** The shard [sh] has the tuples [ts] and has read [k] of them. *)
Record shard_at (k : nat) (sh : DataShard) : Prop := {
  sa_pos : (k <= length ts)%nat;
  sa_reading : exists pend, reading sh pend (encs (drop k ts));
  sa_file : file sh = encs ts;
  sa_mode : DataShard.mode_ sh = kRead;
  sa_cap : 8 <= DataShard.capacity_ sh;
  sa_tuples : Forall (readable_tuple (DataShard.capacity_ sh)) ts;
}.
(** The [j]-th record, counting on at the end of the shard from its start. *)
Definition cyclic_record (j : nat) : Record_ :=
  parse_record (default ([], []) (ts !! (j mod length ts)%nat)).2.

Lemma shard_at_same k k' sh sh' pend : shard_at k sh -> same_shard sh sh' -> (k' <= length ts)%nat ->
  reading sh' pend (encs (drop k' ts)) -> shard_at k' sh'.
Proof.
  intros [H1 H2 H3 H4 H5 H6] (E1 & E2 & _ & E4) Hk Hr. constructor; try done; rewrite ?E1, ?E2, ?E4; eauto.
Qed.

Lemma Next_record_Ok k sh : shard_at k sh -> (k < length ts)%nat ->
  exists sh', Next_record sh = Ok (Some (cyclic_record k), sh') /\ shard_at (S k) sh'.
Proof.
  intros Hsh Hk. destruct (lookup_lt_is_Some_2 ts k Hk) as [[key v] Ht].
  pose proof Hsh as [_ [pend Hr] _ _ H8 Hts]. pose proof (rd_cap _ _ _ Hr) as Hc.
  destruct (proj1 (list.Forall_lookup _ _) Hts _ _ Ht) as (Hv & Hlk & Hlv).
  rewrite (drop_S _ _ _ Ht) in Hr. change (encs (?t :: ?l)) with (enc t ++ encs l) in Hr.
  destruct (Next_string_Ok key v (DataShard.capacity_ sh) Hlk Hlv H8) with (s := sh) (pend := pend) (rem := encs (drop (S k) ts))
    as (sh' & pend' & E & Hr' & Hs); [unfold INT_MAX in *; lia|done|done|done|].
  exists sh'. rewrite Next_record_string, E, bind_Ok. split; [|by eapply shard_at_same; [exact Hsh|..|lia|]].
  unfold cyclic_record. by rewrite Nat.mod_small, Ht.
Qed.
Lemma Next_record_end sh : shard_at (length ts) sh ->
  exists sh', Next_record sh = Ok (None, sh') /\ shard_at (length ts) sh'.
Proof.
  intros Hsh. pose proof Hsh as [_ [pend Hr] _ _ H8 _]. pose proof Hr as Hr0. rewrite drop_ge in Hr by lia.
  destruct (prep_end sh [] pend 8 Hr) as (sh' & p' & E & Hr' & Hs); [simpl; lia|].
  exists sh'. unfold Next_record, DataShard.Next. rewrite E, bind_Ok. cbn [negb]. rewrite bind_Ok. split; [done|].
  eapply shard_at_same; [done..|]. rewrite drop_ge by lia. exact Hr'.
Qed.
Lemma SeekToFirst_at k sh : shard_at k sh ->
  exists sh', DataShard.SeekToFirst sh = Ok sh' /\ shard_at 0 sh'.
Proof.
  intros Hsh. pose proof Hsh as [_ [pend Hr] Hf Hm _ _].
  destruct (SeekToFirst_Ok sh pend _ Hr Hm) as (sh' & E & Hr' & Hs). exists sh'. split; [done|].
  eapply shard_at_same; [done..|lia|]. by rewrite Hf in Hr'.
Qed.

Lemma skip_records_Ok n : forall k sample sh, shard_at k sh ->
  exists sample' sh', skip_records n sample sh = Ok (sample', sh') /\ shard_at (Nat.min (k + n) (length ts)) sh'.
Proof.
  induction n as [|n IH]; intros k sample sh Hsh; pose proof (sa_pos _ _ Hsh); simpl.
  - exists sample, sh. rewrite Nat.add_0_r, Nat.min_l by done. done.
  - destruct (decide (k < length ts)%nat) as [Hk|Hk].
    + destruct (Next_record_Ok _ _ Hsh Hk) as (sh1 & -> & H1). rewrite bind_Ok.
      destruct (IH _ (default sample (Some (cyclic_record k))) _ H1) as (s' & sh' & E & H'). exists s', sh'.
      split; [exact E|]. by rewrite Nat.add_succ_r.
    + assert (k = length ts) as -> by lia. destruct (Next_record_end _ Hsh) as (sh1 & -> & H1). rewrite bind_Ok.
      destruct (IH _ (default sample None) _ H1) as (s' & sh' & E & H'). exists s', sh'. split; [exact E|].
      rewrite Nat.min_r in H' |- * by lia. done.
Qed.

Lemma cyclic_mod j j' : (j mod length ts = j' mod length ts)%nat -> cyclic_record j = cyclic_record j'.
Proof. unfold cyclic_record. by intros ->. Qed.
Lemma cyclic_seq n j j' : ts <> [] -> (j mod length ts = j' mod length ts)%nat ->
  map cyclic_record (seq j n) = map cyclic_record (seq j' n).
Proof.
  intros Hts. revert j j'. induction n as [|n IH]; intros j j' H; [done|]. simpl. f_equal; [by apply cyclic_mod|].
  apply IH. destruct ts as [|t l]; [done|]. set (m := length (t :: l)) in *.
  assert (m <> 0)%nat by (unfold m; simpl; lia).
  rewrite <- (Nat.add_1_l j), <- (Nat.add_1_l j'), <- (Nat.Div0.add_mod_idemp_r 1 j), <- (Nat.Div0.add_mod_idemp_r 1 j'), H.
  done.
Qed.

Lemma read_records_Ok n : ts <> [] -> forall k sh, shard_at k sh -> exists sh' k',
  read_records n sh = Ok (map cyclic_record (seq k n), sh') /\ shard_at k' sh' /\
  (k' mod length ts = (k + n) mod length ts)%nat.
Proof.
  intros Hts. assert (0 < length ts)%nat as Hpos by (destruct ts; [done|simpl; lia]).
  induction n as [|n IH]; intros k sh Hsh; pose proof (sa_pos _ _ Hsh); cbn [read_records].
  { exists sh, k. by rewrite Nat.add_0_r. }
  destruct (decide (k < length ts)%nat) as [Hk|Hk].
  - destruct (Next_record_Ok _ _ Hsh Hk) as (sh1 & -> & H1). rewrite !bind_Ok.
    destruct (IH _ _ H1) as (sh' & k' & -> & H' & Hk'). exists sh', k'. rewrite bind_Ok. split; [done|].
    split; [done|]. by rewrite Nat.add_succ_r.
  - assert (k = length ts) as -> by lia. destruct (Next_record_end _ Hsh) as (sh1 & -> & H1). rewrite bind_Ok.
    destruct (SeekToFirst_at _ _ H1) as (sh2 & E2 & H2). cbn beta iota. rewrite E2, bind_Ok.
    destruct (Next_record_Ok _ _ H2 Hpos) as (sh3 & -> & H3). rewrite !bind_Ok.
    destruct (IH _ _ H3) as (sh' & k' & -> & H' & Hk'). exists sh', k'. rewrite bind_Ok. split; [|split; [done|]].
    + f_equal. f_equal. simpl. f_equal; [apply cyclic_mod; rewrite Nat.Div0.mod_same, Nat.Div0.mod_0_l; done|].
      apply cyclic_seq; [done|]. change (S (length ts)) with (1 + length ts)%nat.
      by rewrite <- Nat.Div0.add_mod_idemp_r, Nat.Div0.mod_same.
    + rewrite Hk'. replace (length ts + S n)%nat with (1 + n + 1 * length ts)%nat by lia.
      by rewrite Nat.Div0.mod_add.
Qed.

(** C11. Batches of records.  The layer gives the records of its shard in order, a batch
    after the other, from the start again at the end of the shard; only the first batch
    skips a random number of them, and skipping stops at the end. *)
Theorem ShardData_batches (i r : Z) (s : nstate) (o : LayerObj) (rs bs : Z) (sample : Record_) (recs : list Record_)
    (sh : DataShard) (k : nat)
    (Ho : objs s !! i = Some o) (Hsub : osub o = DataSub rs bs sample recs (Some sh))
    (Hsh : shard_at k sh) (Hts : ts <> []) :
  let start := if rs =? 0 then k else Nat.min (k + Z.to_nat (Z.rem r rs)) (length ts) in
  exists sample' sh' k',
    ShardData_ComputeFeature r i s =
      Ok (put_obj i (set_sub (DataSub 0 bs sample' (map cyclic_record (seq start (length recs))) (Some sh')) o) s) /\
    shard_at k' sh' /\ (k' mod length ts = (start + length recs) mod length ts)%nat.
Proof.
  intros start. unfold ShardData_ComputeFeature, obj. rewrite Ho, deref_Some, bind_Ok, Hsub.
  assert (exists sample1 sh1, (if rs =? 0 then Ok (sample, sh)
      else nskip ← imod r rs; skip_records (Z.to_nat nskip) sample sh) = Ok (sample1, sh1) /\ shard_at start sh1)
    as (sample1 & sh1 & -> & H1).
  { subst start. unfold imod. destruct (rs =? 0); [by exists sample, sh|]. rewrite bind_Ok. by apply skip_records_Ok. }
  rewrite bind_Ok. destruct (read_records_Ok (length recs) Hts _ _ H1) as (sh' & k' & -> & H' & Hk').
  rewrite bind_Ok. exists sample1, sh', k'. unfold set_members, update_obj, obj. rewrite Ho, deref_Some, bind_Ok. done.
Qed.
End records.

(** A shard of three records, whose value is the label; a batch of two after one record
    was read. *)
Definition demo_files : Files :=
  Build_Files (fun _ => true) (fun _ => None) (fun v => mkRecord [] (le_combine v) [] []) (fun _ => Undef).
Definition demo_tuples : list (list Z * list Z) := [([1], [10]); ([2], [20]); ([3], [30])].
Lemma ShardData_batches_witness :
  exists sh k (s : nstate) s' o', shard_at demo_tuples k sh /\ ShardData_ComputeFeature (F := demo_files) 0 0 s = Ok s' /\
    objs s' !! 0 = Some o' /\
    match osub o' with
    | DataSub _ _ _ rs _ => map im_label rs = [10; 20; 30; 10]
    | _ => False
    end.
Proof.
  destruct (open_Read 0 (encs demo_tuples) 8) as (sh & _ & Hr & Hc & Hm & Hf); [done..|].
  assert (shard_at demo_tuples 0 sh) as Hsh.
  { constructor; rewrite ?Hc; try done; [simpl; lia|by exists []|by repeat constructor]. }
  pose (o := set_sub (DataSub 0 4 Record_default (replicate 4 Record_default) (Some sh)) (LayerObj_new kShardData)).
  pose (s := mkNS {[0 := o]} 1 (mkWorld empty_heap ∅ 0 ∅)).
  destruct (@ShardData_batches demo_files demo_tuples 0 0 s o 0 4 Record_default (replicate 4 Record_default) sh 0)
    as (sample' & sh' & k' & E & _ & _); [done|done|done|done|].
  exists sh, 0%nat, s. eexists _, _. split; [exact Hsh|]. split; [exact E|]. split; [apply lookup_insert_eq|].
  vm_compute. reflexivity.
Defined.

(** ** Parsers *)
Lemma put_float_Ok h b p us w us' v : heap_ok h -> at_cpu h b p (us ++ w :: us') -> is_f32 v ->
  exists h', put_float h (p + sizeof_float * Z.of_nat (length us)) v = Ok h' /\ heap_ok h' /\
    at_cpu h' b p (us ++ v :: us').
Proof.
  intros Hok Ha Hv. destruct (at_cpu_store h b p us [w] us' [v] Hok Ha eq_refl) as (h' & E & Hok' & Ha' & _);
    [by apply list.Forall_singleton|].
  exists h'. unfold put_float. change (bytes_of_f32s [v]) with (le_split 4 v ++ []) in E. by rewrite app_nil_r in E.
Qed.
Lemma mutable_at_cpu h b vs : heap_ok h -> blob_holds h b vs ->
  exists h' p, mutable_cpu_data b h = Ok (h', p) /\ heap_ok h' /\ at_cpu h' b p vs.
Proof.
  intros Hok Hb. destruct (mutable_cpu_data_Ok h b vs Hok Hb) as (h' & p & i & E & Hok' & Hk & Hd & Hp & _).
  exists h', p. split; [done|]. split; [done|]. split; [by eapply blob_holds_keeps|by exists i].
Qed.

(** The values of an image: bytes, or floats when there are none. *)
Definition pixels (r : Record_) : list Z :=
  if decide (im_pixel r = []) then im_data r else map f32_of_Z (im_pixel r).
Definition image (na nb : Z) (m : nat) (r : Record_) : list Z := map (normalize na nb) (take (m * m) (pixels r)).

Section parser.
Context (blob : Blob) (p na nb : Z).

Lemma pixel_Ok r k x : pixels r !! k = Some x ->
  (if decide (im_pixel r = []) then idx (im_data r) (Z.of_nat k)
   else q ← pixel_at (im_pixel r) (Z.of_nat k); Ok (f32_of_Z q)) = Ok x.
Proof.
  unfold pixels. case_decide; intros Hx; [by apply idx_lookup|].
  rewrite list_lookup_fmap in Hx. destruct (im_pixel r !! k) as [q|] eqn:Eq; [|done]. injection Hx as <-.
  pose proof (lookup_lt_Some _ _ _ Eq). unfold pixel_at. rewrite (proj2 (Z.eqb_neq _ _)) by lia.
  by rewrite (idx_lookup _ _ _ Eq), bind_Ok.
Qed.
Lemma parse_pixels_Ok r ws : forall k us us' h, heap_ok h -> at_cpu h blob p (us ++ ws ++ us') ->
  (k + length ws <= length (pixels r))%nat ->
  exists h', parse_pixels na nb r (length ws) (Z.of_nat k) (p + sizeof_float * Z.of_nat (length us)) h =
      Ok (h', p + sizeof_float * Z.of_nat (length us + length ws)) /\ heap_ok h' /\
    at_cpu h' blob p (us ++ map (normalize na nb) (take (length ws) (drop k (pixels r))) ++ us').
Proof.
  induction ws as [|w ws IH]; intros k us us' h Hok Ha Hk.
  { exists h. simpl. by rewrite Nat.add_0_r. }
  simpl in Hk. destruct (lookup_lt_is_Some_2 (pixels r) k) as [x Hx]; [lia|].
  destruct (put_float_Ok h blob p us w (ws ++ us') (normalize na nb x) Hok Ha) as (h1 & E1 & Hok1 & Ha1);
    [apply f32_sub_range|].
  destruct (IH (S k) (us ++ [normalize na nb x]) us' h1 Hok1) as (h2 & E2 & Hok2 & Ha2);
    [by rewrite <- app_assoc|lia|].
  exists h2. cbn [parse_pixels length]. rewrite (pixel_Ok _ _ _ Hx), bind_Ok, E1, bind_Ok.
  rewrite length_app in E2. simpl length in E2. unfold sizeof_float in *.
  replace (p + 4 * Z.of_nat (length us) + 4) with (p + 4 * Z.of_nat (length us + 1)) by lia.
  replace (Z.of_nat k + 1) with (Z.of_nat (S k)) by lia. rewrite E2. split; [do 3 f_equal; lia|]. split; [done|].
  rewrite (drop_S _ _ _ Hx). simpl. by rewrite <- app_assoc in Ha2.
Qed.
Lemma parse_images_Ok m records : Forall (fun r => m * m <= length (pixels r))%nat records ->
  forall us ws h, heap_ok h -> at_cpu h blob p (us ++ ws) -> length ws = (length records * (m * m))%nat ->
  exists h', parse_images na nb (Z.of_nat m) records (p + sizeof_float * Z.of_nat (length us)) h =
      Ok (h', p + sizeof_float * Z.of_nat (length us + length ws)) /\ heap_ok h' /\
    at_cpu h' blob p (us ++ concat (map (image na nb m) records)).
Proof.
  induction 1 as [|r records Hr _ IH]; intros us ws h Hok Ha Hl.
  { destruct ws; [|done]. exists h. simpl. by rewrite Nat.add_0_r. }
  simpl in Hl. set (w1 := take (m * m) ws). set (w2 := drop (m * m) ws).
  assert (length w1 = (m * m)%nat) as L1 by (unfold w1; rewrite length_take; lia).
  assert (length w2 = (length records * (m * m))%nat) as L2 by (unfold w2; rewrite length_drop; lia).
  rewrite <- (take_drop (m * m) ws) in Ha. fold w1 w2 in Ha.
  destruct (parse_pixels_Ok r w1 0 us w2 h Hok Ha) as (h1 & E1 & Hok1 & Ha1); [lia|].
  rewrite L1 in E1, Ha1. change (drop 0 ?l) with l in Ha1. rewrite app_assoc in Ha1.
  assert (length (image na nb m r) = (m * m)%nat) as Li by (unfold image; rewrite length_map, length_take; lia).
  destruct (IH (us ++ image na nb m r) w2 h1 Hok1 Ha1 L2) as (h2 & E2 & Hok2 & Ha2).
  exists h2. cbn [parse_images]. rewrite Nat2Z.id. change (Z.of_nat 0) with 0 in E1. rewrite E1, bind_Ok.
  rewrite length_app, Li in E2. rewrite E2. split; [do 4 f_equal; lia|]. split; [done|].
  simpl. by rewrite <- app_assoc in Ha2.
Qed.
(** The labels of the first records, with [rest] to follow. *)
Lemma parse_labels_prefix records rest : Forall (fun r => im_label r < 278) records -> forall ws us us' h, heap_ok h ->
  at_cpu h blob p (us ++ ws ++ us') -> length ws = length records -> Z.of_nat (length us + length ws) <= INT_MAX ->
  exists h', parse_labels (records ++ rest) (Z.of_nat (length us)) p h =
      parse_labels rest (Z.of_nat (length us + length ws)) p h' /\ heap_ok h' /\
    at_cpu h' blob p ((us ++ map (fun r => f32_of_Z (im_label r)) records) ++ us').
Proof.
  induction 1 as [|r records Hr _ IH]; intros ws us us' h Hok Ha Hl Hm.
  { destruct ws; [|done]. exists h. simpl. by rewrite Nat.add_0_r, app_nil_r. }
  destruct ws as [|w ws]; [done|]. simpl in Hl, Hm, Ha.
  destruct (put_float_Ok h blob p us w (ws ++ us') (f32_of_Z (im_label r)) Hok Ha) as (h1 & E1 & Hok1 & Ha1);
    [apply f32_encode_range|].
  destruct (IH ws (us ++ [f32_of_Z (im_label r)]) us' h1 Hok1) as (h2 & E2 & Hok2 & Ha2);
    [by rewrite <- app_assoc|lia|rewrite length_app; simpl; lia|].
  exists h2. simpl app. cbn [parse_labels]. rewrite E1, bind_Ok. unfold iadd, INT_MAX in *.
  rewrite int_ret_Ok, bind_Ok by (unfold INT_MIN, INT_MAX; lia). rewrite (CHECK_holds (_ <? _)), bind_Ok by lia.
  rewrite length_app in E2. simpl length in E2. replace (Z.of_nat (length us) + 1) with (Z.of_nat (length us + 1)) by lia.
  rewrite E2. split; [f_equal; simpl; lia|]. split; [done|]. simpl. by rewrite <- (app_assoc us) in Ha2.
Qed.
Lemma parse_labels_Ok records : Forall (fun r => im_label r < 278) records -> forall ws h, heap_ok h ->
  at_cpu h blob p ws -> length ws = length records -> Z.of_nat (length ws) <= INT_MAX ->
  exists h', parse_labels records 0 p h = Ok (h', Z.of_nat (length ws)) /\ heap_ok h' /\
    at_cpu h' blob p (map (fun r => f32_of_Z (im_label r)) records).
Proof.
  intros Hr ws h Hok Ha Hl Hm. rewrite <- (app_nil_r ws) in Ha.
  destruct (parse_labels_prefix records [] Hr ws [] [] h Hok Ha Hl Hm) as (h' & E & Hok' & Ha').
  rewrite !app_nil_r in *. simpl in E, Ha'. by exists h'.
Qed.
End parser.

(** A parser layer [i] on top of a data layer with [records]. *)
Record parser_ready (i : Z) (s : nstate) (o : LayerObj) (records : list Record_) (old : list Z) : Prop := {
  pr_obj : objs s !! i = Some o;
  pr_srcs : exists j oj rs bs sample sh, osrcs o = [j] /\ objs s !! j = Some oj /\ osub oj = DataSub rs bs sample records sh;
  pr_ok : heap_ok (nheap s);
  pr_blob : blob_holds (nheap s) (odata o) old;
}.

(** The MNIST parser fills its blob with the images of the batch, each pixel [x] as
    [x / norm_a - norm_b], row by row and image by image. *)
Theorem Mnist_layer (i : Z) (s : nstate) (o : LayerObj) (records : list Record_) (old : list Z) (na nb resize : Z)
    (m : nat) (r0 : Record_) (sh0 : list Z)
    (Hr : parser_ready i s o records old) (Hc : oclass o = kMnist) (Hu : osub o = MnistSub na nb resize)
    (Hshape : shape_ (odata o) = [Z.of_nat (length records); Z.of_nat m; Z.of_nat m])
    (Hcount : length old = (length records * (m * m))%nat)
    (Hr0 : records !! 0%nat = Some r0) (Hdim : im_shape r0 = sh0 ++ [Z.of_nat m])
    (Hpix : Forall (fun r => m * m <= length (pixels r))%nat records) :
  exists h, Parser_ComputeFeature i s = Ok (set_nheap h s) /\ heap_ok h /\
    blob_holds h (odata o) (concat (map (image na nb m) records)).
Proof.
  destruct Hr as [Ho (j & oj & rs & bs & sample & sh & Es & Hj & Ej) Hok Hb].
  destruct (mutable_at_cpu _ _ _ Hok Hb) as (h1 & p & E1 & Hok1 & Ha1).
  destruct (parse_images_Ok (odata o) p na nb m records Hpix [] old h1 Hok1 Ha1 Hcount) as (h2 & E2 & Hok2 & Ha2).
  exists h2. split; [|split; [done|apply Ha2]].
  unfold Parser_ComputeFeature, num_srcs. rewrite (obj_Ok _ _ _ Ho), !bind_Ok, Es. change (CHECK _) with (Ok tt).
  change (idx [j] 0) with (Ok j). rewrite !bind_Ok, (obj_Ok _ _ _ Hj), bind_Ok, Ej, Hc, Hu.
  unfold Mnist_ParseRecords. rewrite (vec_at_lookup records 0 r0 Hr0 : vec_at records 0 = Ok r0), bind_Ok.
  rewrite Hdim, length_app. simpl length. replace (Z.of_nat (length sh0 + 1) - 1) with (Z.of_nat (length sh0)) by lia.
  rewrite (idx_lookup _ _ (Z.of_nat m)), bind_Ok, Hshape by (apply list_lookup_middle; done). change (idx [?a; ?b; ?c] 1) with (Ok b).
  rewrite bind_Ok, (CHECK_holds (_ =? _)), bind_Ok, E1, bind_Ok by apply Z.eqb_refl.
  simpl in E2. rewrite Z.add_0_r in E2. rewrite E2, bind_Ok, (holds_count _ _ _ Hb), (CHECK_holds (_ =? _)) by apply Z.eqb_refl.
  done.
Qed.

(** The label parser stores the labels of the batch as floats; a label of 278 or more,
    or a batch of another size than the blob, stops the process. *)
Theorem Label_layer (i : Z) (s : nstate) (o : LayerObj) (records : list Record_) (old : list Z) (d : Z)
    (Hr : parser_ready i s o records old) (Hc : oclass o = kLabel) (Hshape : shape_ (odata o) = [d])
    (Hcount : length old = length records) (Hint : Z.of_nat (length old) <= INT_MAX) :
  (Forall (fun r => im_label r < 278) records ->
   if d =? Z.of_nat (length records)
   then exists h, Parser_ComputeFeature i s = Ok (set_nheap h s) /\ heap_ok h /\
          blob_holds h (odata o) (map (fun r => f32_of_Z (im_label r)) records)
   else Parser_ComputeFeature i s = Fatal) /\
  (forall pre r post, records = pre ++ r :: post -> Forall (fun r => im_label r < 278) pre -> 278 <= im_label r ->
   Parser_ComputeFeature i s = Fatal).
Proof.
  destruct Hr as [Ho (j & oj & rs & bs & sample & sh & Es & Hj & Ej) Hok Hb].
  destruct (mutable_at_cpu _ _ _ Hok Hb) as (h1 & p & E1 & Hok1 & Ha1).
  assert (Parser_ComputeFeature i s = ('(h, rid) ← parse_labels records 0 p h1;
    _ ← CHECK (rid =? d); Ok (set_nheap h s))) as E.
  { unfold Parser_ComputeFeature, num_srcs. rewrite (obj_Ok _ _ _ Ho), !bind_Ok, Es. rewrite (CHECK_holds (_ =? 1)) by done.
    change (idx [j] 0) with (Ok j). rewrite !bind_Ok, (obj_Ok _ _ _ Hj), bind_Ok, Ej, Hc.
    unfold Label_ParseRecords. rewrite E1, bind_Ok, Hshape. change (idx [d] 0) with (Ok d).
    destruct (parse_labels _ _ _ _) as [[h rid]| | | |]; [|done..]. rewrite !bind_Ok. by destruct (rid =? d). }
  split.
  - intros Hl. destruct (parse_labels_Ok (odata o) p records Hl old h1 Hok1 Ha1 Hcount Hint) as (h2 & E2 & Hok2 & Ha2).
    rewrite E, E2, bind_Ok, Hcount, (Z.eqb_sym _ d). destruct (d =? _); [|done]. exists h2. split; [done|].
    split; [done|apply Ha2].
  - intros pre r post -> Hl Hbad. rewrite E. clear E. rewrite length_app in Hcount. simpl in Hcount.
    rewrite <- (take_drop (length pre) old) in Ha1.
    assert (length (take (length pre) old) = length pre) as Lt by (rewrite length_take; lia).
    destruct (parse_labels_prefix (odata o) p pre (r :: post) Hl (take (length pre) old) [] (drop (length pre) old) h1)
      as (h2 & E2 & Hok2 & Ha2); [done|done|done|simpl; lia|].
    change (Z.of_nat (length (@nil Z))) with 0 in E2. rewrite E2. cbn [parse_labels length Nat.add]. rewrite Lt.
    destruct (drop (length pre) old) as [|w ws] eqn:Ed; [apply (f_equal length) in Ed; rewrite length_drop in Ed; simpl in Ed; lia|].
    destruct (put_float_Ok h2 (odata o) p _ w ws (f32_of_Z (im_label r)) Hok2 Ha2) as (h3 & E3 & _ & _); [apply f32_encode_range|].
    rewrite app_nil_l, length_map in E3. rewrite E3, bind_Ok. unfold iadd, INT_MAX in *.
    rewrite int_ret_Ok, bind_Ok by (unfold INT_MIN, INT_MAX; lia). by rewrite (proj2 (Z.ltb_ge _ _)).
Qed.

(** Two images of one pixel and their labels. *)
Definition demo_records : list Record_ := [mkRecord [1; 1] 7 [200] []; mkRecord [1; 1] 5 [100] []].
Definition demo_image_blob : Blob := mkBlob (Some 0) [2; 1; 1] 2 2 0.
Definition demo_parser_state (ty : LayerType) (b : Blob) (u : Sub) : nstate :=
  mkNS {[0 := set_sub (DataSub 0 2 Record_default demo_records None) (LayerObj_new kShardData);
         1 := set_sub u (set_data b (set_srcs [0] (LayerObj_new ty)))]} 2 (mkWorld demo_heap ∅ 0 ∅).
Lemma demo_parser_ready ty b u : blob_holds demo_heap b demo_floats ->
  parser_ready 1 (demo_parser_state ty b u) (set_sub u (set_data b (set_srcs [0] (LayerObj_new ty)))) demo_records demo_floats.
Proof.
  intros Hb. constructor; [done|eexists _, _, _, _, _, _; done|exact demo_heap_ok|exact Hb].
Qed.
Lemma demo_image_holds : blob_holds demo_heap demo_image_blob demo_floats.
Proof. destruct demo_blob_holds. by constructor. Qed.
Lemma Mnist_layer_witness : exists h,
  Parser_ComputeFeature 1 (demo_parser_state kMnist demo_image_blob (MnistSub (f32_of_Z 2) f32_one 0)) =
    Ok (set_nheap h (demo_parser_state kMnist demo_image_blob (MnistSub (f32_of_Z 2) f32_one 0))) /\ heap_ok h /\
  blob_holds h demo_image_blob (concat (map (image (f32_of_Z 2) f32_one 1) demo_records)) /\
  concat (map (image (f32_of_Z 2) f32_one 1) demo_records) = [f32_of_Z 99; f32_of_Z 49].
Proof.
  destruct (Mnist_layer 1 (demo_parser_state kMnist demo_image_blob (MnistSub (f32_of_Z 2) f32_one 0)) _ _ _
    (f32_of_Z 2) f32_one 0 1 (mkRecord [1; 1] 7 [200] []) [1] (demo_parser_ready _ _ _ demo_image_holds))
    as (h & E & Hok & Hb); [done|done|done|done|done|done|by repeat constructor|].
  exists h. split; [exact E|]. split; [exact Hok|]. split; [exact Hb|]. vm_compute. reflexivity.
Defined.
Lemma Label_layer_witness : exists h,
  Parser_ComputeFeature 1 (demo_parser_state kLabel demo_blob Plain) =
    Ok (set_nheap h (demo_parser_state kLabel demo_blob Plain)) /\ heap_ok h /\
  blob_holds h demo_blob [f32_of_Z 7; f32_of_Z 5].
Proof.
  destruct (Label_layer 1 (demo_parser_state kLabel demo_blob Plain) _ _ _ 2 (demo_parser_ready _ _ _ demo_blob_holds))
    as [H _]; [done|done|done|done|].
  apply H. by repeat constructor.
Defined.
