(* ===== verification/SliceLayerProps.v ===== *)
(** * Properties of the slice layer: memory that is not aliased, and what the slices hold *)

From S2P Require Import Prelude Float32 Msg Format Memory Param Server Worker LayerConf Layers LayersProps LayerCompute.

(** ** Separated memory

    The blobs of the layers are not aliased, unlike those of params and messages: two
    [SyncedMemory]s that have memory have it in different places. *)
Record separate (h : heap) : Prop := {
  sep_ok : heap_ok h;
  sep_disjoint i j s t : i <> j -> sms h !! i = Some s -> sms h !! j = Some t ->
    head s <> UNINITIALIZED -> head t <> UNINITIALIZED ->
    cpu_ptr s + sm_size s <= cpu_ptr t \/ cpu_ptr t + sm_size t <= cpu_ptr s;
  sep_size i s : sms h !! i = Some s -> 0 <= sm_size s;
  sep_brk i s : sms h !! i = Some s -> head s <> UNINITIALIZED -> cpu_ptr s + sm_size s <= brk h;
}.
(** [h'] has the contents of [h], but for the object [i], and the pointers of [h]. *)
Record same_but (i : option Z) (h h' : heap) : Prop := {
  sb_bytes j bs : Some j <> i -> sm_bytes h j = Some bs -> sm_bytes h' j = Some bs;
  sb_ptr j p : ptr_at h j p -> ptr_at h' j p;
}.
#[export] Instance same_but_refl i : Reflexive (same_but i).
Proof. by constructor. Qed.
#[export] Instance same_but_trans i : Transitive (same_but i).
Proof. intros h1 h2 h3 [B1 P1] [B2 P2]. constructor; auto. Qed.
Lemma same_but_weaken i h h' : same_but None h h' -> same_but i h h'.
Proof. intros [B P]. constructor; auto. Qed.

Lemma separate_set_sm h i s s' : separate h -> sms h !! i = Some s -> head s <> UNINITIALIZED ->
  cpu_ptr s' = cpu_ptr s -> sm_size s' = sm_size s -> heap_ok (set_sm i s' h) -> separate (set_sm i s' h).
Proof.
  intros [Hok D Z0 B] Hi Hh Ep Es Hok'. constructor; [done|..]; simpl.
  - intros j k t u Hjk Hj Hk Ht Hu. rewrite lookup_insert in Hj, Hk.
    repeat case_decide; simplify_eq; rewrite ?Ep, ?Es; eauto.
  - intros j t Ht. rewrite lookup_insert in Ht. case_decide; simplify_eq; rewrite ?Es; eauto.
  - intros j t Ht Hu. rewrite lookup_insert in Ht. case_decide; simplify_eq; rewrite ?Ep, ?Es; eauto.
Qed.
Lemma to_cpu_separate h i bs : separate h -> sm_bytes h i = Some bs ->
  exists h' s, to_cpu h i = Ok h' /\ separate h' /\ same_but None h h' /\ sms h' !! i = Some s /\
    (head s = HEAD_AT_CPU \/ head s = SYNCED).
Proof.
  intros Hs Hb. pose proof Hs as [Hok D Z0 B].
  destruct (to_cpu_spec h i bs Hok Hb) as (h' & s & E & Hok' & Hk & Hi & Hh & _). exists h', s. split; [done|].
  enough (separate h' /\ forall j p, ptr_at h j p -> ptr_at h' j p) as [? ?].
  { split; [done|]. split; [|done]. constructor; [|done]. intros j bs' _. by apply keeps_sm. }
  unfold to_cpu in E. destruct (sms h !! i) as [t|] eqn:Ht; [|done]. rewrite deref_Some, bind_Ok in E.
  destruct (head t) eqn:Eh; [|by injection E as <-|done|by injection E as <-].
  injection E as <-. pose proof (Z0 _ _ Ht). split.
  - constructor; [done|..]; simpl.
    + intros j k u v Hjk Hj Hkk Hu Hv. destruct (decide (i = j)) as [<-|Hj'], (decide (i = k)) as [<-|Hk']; [done|..].
      * rewrite lookup_insert_eq in Hj. rewrite lookup_insert_ne in Hkk by done. injection Hj as <-. right. eauto.
      * rewrite lookup_insert_eq in Hkk. rewrite lookup_insert_ne in Hj by done. injection Hkk as <-. left. eauto.
      * rewrite lookup_insert_ne in Hj, Hkk by done. eauto.
    + intros j u Hj. rewrite lookup_insert in Hj. case_decide; simplify_eq; eauto.
    + intros j u Hj Hu. rewrite lookup_insert in Hj. case_decide; simplify_eq; simpl; [lia|].
      pose proof (B _ _ Hj Hu). lia.
  - intros j p (u & Hu & Hp & Hhu). exists u. simpl. rewrite lookup_insert_ne; [done|]. intros ->. congruence.
Qed.

(** Taking pointers. *)
Lemma cpu_data_separate h b i bs : separate h -> data_ b = Some i -> sm_bytes h i = Some bs ->
  exists h' p, cpu_data b h = Ok (h', p) /\ separate h' /\ same_but None h h' /\
    peek (cells h') p (length bs) = Some bs.
Proof.
  intros Hs Hd Hb. destruct (to_cpu_separate h i bs Hs Hb) as (h' & s & E & Hs' & Hk & Hi & Hh).
  exists h', (cpu_ptr s). unfold cpu_data, blob_data, sm_cpu_data.
  rewrite Hd, bind_Ok, E, bind_Ok, Hi, deref_Some, bind_Ok. split; [done|]. split; [done|]. split; [done|].
  eapply sm_bytes_ptr; [done..|]. by apply (sb_bytes _ _ _ Hk).
Qed.
Lemma mutable_cpu_data_separate h b i bs : separate h -> data_ b = Some i -> sm_bytes h i = Some bs ->
  exists h' p, mutable_cpu_data b h = Ok (h', p) /\ separate h' /\ same_but None h h' /\ ptr_at h' i p.
Proof.
  intros Hs Hd Hb. destruct (to_cpu_separate h i bs Hs Hb) as (h1 & s & E & Hs1 & Hk & Hi & Hh).
  assert (sm_bytes h1 i = Some bs) as Hb1 by by apply (sb_bytes _ _ _ Hk).
  set (s' := mkSM (cpu_ptr s) (sm_size s) HEAD_AT_CPU (own_cpu_data s)).
  destruct (set_sm_keeps h1 i s s' (sep_ok _ Hs1) Hi) as [Hok2 Hk2].
  { intros bs'. unfold sm_bytes. simpl. rewrite Hi, lookup_insert_eq. simpl. by destruct Hh as [-> | ->]. }
  exists (set_sm i s' h1), (cpu_ptr s). unfold mutable_cpu_data, blob_data, sm_mutable_cpu_data.
  rewrite Hd, bind_Ok, E, bind_Ok, Hi, deref_Some, bind_Ok. split; [done|]. split; [|split].
  - eapply separate_set_sm; try done. by destruct Hh as [-> | ->].
  - etrans; [exact Hk|]. constructor; [intros j bs' _; by apply keeps_sm|].
    intros j p (t & Ht & Hp & Hht). destruct (decide (i = j)) as [<-|Hj].
    + exists s'. simpl. rewrite lookup_insert_eq. assert (t = s) as -> by congruence. done.
    + exists t. simpl. by rewrite lookup_insert_ne.
  - exists s'. simpl. by rewrite lookup_insert_eq.
Qed.

(** Storing inside an object. *)
Lemma store_separate h i p l1 l2 l3 bs : separate h -> ptr_at h i p -> sm_bytes h i = Some (l1 ++ l2 ++ l3) ->
  length bs = length l2 ->
  exists h', store h (p + Z.of_nat (length l1)) bs = Ok h' /\ separate h' /\ same_but (Some i) h h' /\
    sm_bytes h' i = Some (l1 ++ bs ++ l3).
Proof.
  intros [Hok D Z0 B] Hp Hb Hl.
  destruct (store_spec h i p l1 l2 l3 bs Hok Hp Hb Hl) as (h' & E & Hok' & Hp' & Hb' & Hsm & Hbl & _ & Hf).
  exists h'. split; [done|]. split; [|split; [|done]].
  - assert (brk h' = brk h) as Hbrk. { unfold store in E. by apply bind_Ok_inv in E as (c & _ & [= <-]). }
    constructor; rewrite ?Hsm, ?Hbrk; done.
  - constructor; [|intros j q (t & Ht & Hq); exists t; by rewrite Hsm].
    intros j bs' Hj. unfold sm_bytes. rewrite Hsm. destruct (sms h !! j) as [t|] eqn:Ht; [|done].
    destruct Hp as (s & Hs & <- & Hh). pose proof (peek_length) as PL.
    destruct (sm_bytes_ptr h i (cpu_ptr s) s _ Hs eq_refl (or_introl Hh) Hb) as [HL _].
    assert (head t <> UNINITIALIZED -> peek (cells h') (cpu_ptr t) (Z.to_nat (sm_size t)) =
      peek (cells h) (cpu_ptr t) (Z.to_nat (sm_size t))) as Hpk.
    { intros Hu. pose proof (Z0 _ _ Ht). pose proof (Z0 _ _ Hs). apply Hf. rewrite HL.
      destruct (D i j s t) as [?|?]; [congruence|done|done|by rewrite Hh|done| |]; lia. }
    destruct (head t); try done; by rewrite Hpk.
Qed.

Lemma blob_holds_same i h h' b vs : same_but i h h' -> data_ b <> i -> blob_holds h b vs -> blob_holds h' b vs.
Proof.
  intros Hk Hd [Hc Hcap Hf (j & rest & Hj & Hs & Hl)]. constructor; try done.
  exists j, rest. split; [done|]. split; [|done]. apply (sb_bytes _ _ _ Hk); [congruence|done].
Qed.
Lemma blob_wf_same i h h' b : same_but i h h' -> data_ b <> i -> blob_wf h b -> blob_wf h' b.
Proof.
  intros Hk Hd [Hc H]. constructor; [done|]. intros Hp. destruct (H Hp) as (j & bs & Hj & Hs & Hl).
  exists j, bs. split; [done|]. split; [|done]. apply (sb_bytes _ _ _ Hk); [congruence|done].
Qed.
Lemma holds_data h b vs : blob_holds h b vs -> data_ b <> None.
Proof. intros [_ _ _ (j & rest & -> & _)]. done. Qed.
Lemma peek_front c p (a b : list Z) : peek c p (length (a ++ b)) = Some (a ++ b) -> peek c p (length a) = Some a.
Proof.
  rewrite length_app, peek_app. destruct (peek c p (length a)) eqn:E1; [|done]. destruct (peek c _ (length b)); [|done].
  intros [= H]. pose proof (peek_length _ _ _ _ E1). by apply app_inj_1 in H as [-> _].
Qed.

(** ** Slices *)
Definition chunk (sz k : nat) (vs : list Z) : list Z := take sz (drop (k * sz) vs).

Section slices.
Context (blob : Blob) (vs : list Z) (sz : nat) (vec : list Blob).
Context (Hsz : (0 < sz)%nat) (Hlen : length vs = (length vec * sz)%nat) (Hint : count_ blob <= INT_MAX).
Context (Hnd : NoDup (map data_ (blob :: vec))) (Hvec : Forall (fun b => count_ b = Z.of_nat sz) vec).

(** The slices below [k] have their part of the values. *)
Record copied (k : nat) (h : heap) : Prop := {
  cp_sep : separate h;
  cp_src : blob_holds h blob vs;
  cp_wf : Forall (fun b => blob_wf h b /\ count_ b <= capacity_ b) vec;
  cp_done j b : (j < k)%nat -> vec !! j = Some b -> blob_holds h b (chunk sz j vs);
}.
Lemma chunk_split k : (k < length vec)%nat ->
  vs = take (k * sz) vs ++ chunk sz k vs ++ drop (S k * sz) vs /\ length (chunk sz k vs) = sz.
Proof.
  intros Hk. unfold chunk. split.
  - rewrite <- (take_drop (k * sz) vs) at 1. f_equal. rewrite <- (take_drop sz (drop (k * sz) vs)) at 1.
    f_equal. rewrite drop_drop. f_equal. lia.
  - rewrite length_take, length_drop, Hlen. nia.
Qed.

Lemma copied_bytes k h h' p bs j : copied k h -> same_but (Some j) h h' -> separate h' -> vec !! k = Some bs ->
  data_ bs = Some j -> sm_bytes h' j = Some p -> (k < length vec)%nat ->
  (exists rest, p = bytes_of_f32s (chunk sz k vs) ++ rest /\ Z.of_nat (length p) = sizeof_float * capacity_ bs) ->
  copied (S k) h'.
Proof.
  intros [S0 H0 W0 D0] Hk Hs' Hb Hd Hp Hlt (rest & -> & Hl).
  destruct (chunk_split k Hlt) as [Hv Hc]. pose proof (proj1 (list.Forall_lookup _ _) W0 _ _ Hb) as [Hw Hcap].
  pose proof (proj1 (list.Forall_lookup _ _) Hvec _ _ Hb) as Hcnt. simpl in Hcnt.
  assert (blob_holds h' bs (chunk sz k vs)) as Hnew.
  { constructor; [by rewrite Hc|done| |by exists j, rest]. pose proof (holds_f32 _ _ _ H0) as Hf.
    rewrite Hv in Hf. apply Forall_app in Hf as [_ Hf]. by apply Forall_app in Hf as [Hf _]. }
  assert (forall k' b', vec !! k' = Some b' -> k' <> k -> data_ b' <> Some j) as Hne.
  { intros k' b' Hb' Hn Hd'. apply Hn. apply (NoDup_lookup (map data_ (blob :: vec)) (S k') (S k) (Some j)) in Hnd; [lia|..];
      simpl; by rewrite list_lookup_fmap, ?Hb, ?Hb'; simpl; f_equal. }
  constructor; [done|..].
  - eapply blob_holds_same; [exact Hk| |exact H0]. intros Hd'.
    apply (NoDup_lookup (map data_ (blob :: vec)) 0 (S k) (Some j)) in Hnd; [lia|simpl; by f_equal|].
    simpl. rewrite list_lookup_fmap, Hb. simpl. by f_equal.
  - apply list.Forall_lookup. intros k' b' Hb'. destruct (decide (k' = k)) as [->|Hn].
    + assert (b' = bs) as -> by congruence. split; [by eapply blob_holds_wf|done].
    + pose proof (proj1 (list.Forall_lookup _ _) W0 _ _ Hb') as [? ?]. split; [|done]. eapply blob_wf_same; eauto.
  - intros k' b' Hk' Hb'. destruct (decide (k' = k)) as [->|Hn]; [by assert (b' = bs) as -> by congruence|].
    eapply blob_holds_same; [exact Hk|by eapply Hne|]. apply D0; [lia|done].
Qed.
Lemma copied_same k h h' : copied k h -> same_but None h h' -> separate h' -> copied k h'.
Proof.
  intros [S0 H0 W0 D0] Hk Hs'. constructor; [done|..].
  - eapply blob_holds_same; [exact Hk|by eapply holds_data|done].
  - eapply Forall_impl; [|exact W0]. intros b [[Hc H] ?]. split; [|done]. constructor; [done|]. intros Hp.
    destruct (H Hp) as (j & bs & ? & Hb & ?). exists j, bs. split; [done|]. split; [|done]. by apply (sb_bytes _ _ _ Hk).
  - intros k' b' Hk' Hb'. pose proof (D0 _ _ Hk' Hb') as H. eapply blob_holds_same; [exact Hk|by eapply holds_data|done].
Qed.

Lemma copy_slice_Ok k m h : copied k h -> (k < length vec)%nat ->
  exists h', copied (S k) h' /\
    copy_slices blob (Z.of_nat sz) (Z.of_nat <$> seq k (S m)) vec h =
    copy_slices blob (Z.of_nat sz) (Z.of_nat <$> seq (S k) m) vec h'.
Proof.
  intros Hcp Hk. destruct (lookup_lt_is_Some_2 vec k Hk) as [b Hb].
  pose proof (proj1 (list.Forall_lookup _ _) (cp_wf _ _ Hcp) _ _ Hb) as [Hw Hcap].
  pose proof (proj1 (list.Forall_lookup _ _) Hvec _ _ Hb) as Hcnt. simpl in Hcnt.
  destruct (wf_data _ _ Hw) as (j & bs & Hd & Hbs & Hl); [lia|]. destruct (chunk_split k Hk) as [Hv Hc].
  destruct (mutable_cpu_data_separate h b j bs (cp_sep _ _ Hcp) Hd Hbs) as (h1 & p & E1 & S1 & K1 & P1).
  pose proof (copied_same _ _ _ Hcp K1 S1) as C1. pose proof (cp_src _ _ C1) as Hsrc.
  destruct (Hsrc) as [Hcount _ _ (j0 & rest & Hd0 & Hs0 & _)].
  destruct (cpu_data_separate h1 blob j0 _ S1 Hd0 Hs0) as (h2 & q & E2 & S2 & K2 & Q2).
  pose proof (copied_same _ _ _ C1 K2 S2) as C2.
  assert (sm_bytes h2 j = Some (([] : list Z) ++ take (4 * sz) bs ++ drop (4 * sz) bs)) as B2.
  { simpl. rewrite take_drop. apply (sb_bytes _ _ _ K2); [done|]. by apply (sb_bytes _ _ _ K1). }
  unfold sizeof_float in Hl.
  destruct (store_separate h2 j p _ _ _ (bytes_of_f32s (chunk sz k vs)) S2 (sb_ptr _ _ _ K2 _ _ P1) B2)
    as (h3 & E3 & S3 & K3 & B3).
  { rewrite length_bytes_of_f32s, length_take, Hc. lia. }
  simpl app in B3. exists h3. split.
  { eapply (copied_bytes k h2 h3 _ b j C2 K3 S3 Hb Hd B3 Hk). eexists. split; [done|].
    rewrite length_app, length_bytes_of_f32s, length_drop, Hc. unfold sizeof_float. lia. }
  simpl seq. simpl fmap. cbn [copy_slices]. rewrite (idx_lookup _ _ _ Hb), bind_Ok, E1, bind_Ok, E2, bind_Ok.
  unfold imul. unfold INT_MAX in Hint. rewrite int_ret_Ok, bind_Ok by (unfold INT_MIN, INT_MAX; nia).
  apply peek_front in Q2. rewrite Hv in Q2. apply peek_slice in Q2. rewrite length_take in Q2.
  rewrite Nat.min_l in Q2 by nia. rewrite Nat2Z.inj_mul in Q2.
  rewrite (peek_load _ _ _ (sizeof_float * Z.of_nat sz) Q2), bind_Ok by (rewrite length_bytes_of_f32s, Hc; unfold sizeof_float; lia).
  simpl in E3. rewrite Z.add_0_r in E3. by rewrite E3, bind_Ok.
Qed.
Lemma copy_slices_Ok m : forall k h, copied k h -> (k + m = length vec)%nat ->
  exists h', copy_slices blob (Z.of_nat sz) (Z.of_nat <$> seq k m) vec h = Ok h' /\ copied (length vec) h'.
Proof.
  induction m as [|m IH]; intros k h Hcp Hkm.
  - exists h. replace (length vec) with k by lia. done.
  - destruct (copy_slice_Ok k m h Hcp) as (h1 & H1 & ->); [lia|]. apply IH; [done|lia].
Qed.
End slices.

(** *** Shapes and new blobs *)
Lemma Reshape_separate b sh h h' b' : separate h -> Forall (Z.lt 0) sh -> shape_size sh <= INT_MAX ->
  Reshape b sh h = Ok (h', b') -> separate h' /\ same_but None h h' /\ next_id h <= next_id h'.
Proof.
  intros Hs Hp Hm H. unfold Reshape in H. destruct (shape_count_Ok sh Hp Hm) as [Ec Hc]. rewrite Ec, bind_Ok in H.
  case_match; [|by injection H as <- _]. pose proof (sep_ok _ Hs) as Hok.
  destruct (new_sm h (shape_size sh * sizeof_float)) as [h1 i] eqn:En. injection H as <- _.
  destruct (new_sm_spec _ _ _ _ Hok En) as (Hok' & Hk & _). injection En as <- <-.
  destruct Hs as [_ D Z0 B]. split; [|split; [|simpl; lia]].
  - assert (forall j t, (<[next_id h := mkSM 0 (shape_size sh * sizeof_float) UNINITIALIZED false]> (sms h)) !! j = Some t ->
      head t <> UNINITIALIZED -> sms h !! j = Some t) as Hin.
    { intros j t Ht Hu. destruct (decide (next_id h = j)) as [<-|Hj]; [|by rewrite lookup_insert_ne in Ht].
      rewrite lookup_insert_eq in Ht. by injection Ht as <-. }
    constructor; [done|..]; simpl.
    + intros j k t u Hjk Ht Hu Hht Hhu. eauto.
    + intros j t Ht. destruct (decide (next_id h = j)) as [<-|Hj]; [|rewrite lookup_insert_ne in Ht by done; eauto].
      rewrite lookup_insert_eq in Ht. injection Ht as <-. simpl. unfold sizeof_float. lia.
    + intros j t Ht Hu. eauto.
  - constructor; [intros j bs _; by apply keeps_sm|]. intros j p (t & Ht & ?). exists t. simpl.
    rewrite lookup_insert_ne; [done|]. intros <-. pose proof (ok_sms _ Hok _ _ Ht). lia.
Qed.

(** A blob made by [Reshape] has zeroed memory of its own. *)
Record new_blob_at (lo hi : Z) (h : heap) (sh : list Z) (b : Blob) : Prop := {
  nb_shape : shape_ b = sh;
  nb_count : count_ b = shape_size sh;
  nb_cap : count_ b <= capacity_ b;
  nb_wf : blob_wf h b;
  nb_id : exists i, data_ b = Some i /\ lo <= i < hi;
}.
Lemma new_blob_at_weaken lo hi hi' h h' sh b : new_blob_at lo hi h sh b -> same_but None h h' -> hi <= hi' ->
  new_blob_at lo hi' h' sh b.
Proof.
  intros [H1 H2 H3 H4 (i & Hd & Hi)] Hk Hle. constructor; [done..| |].
  - eapply blob_wf_same; [exact Hk|by rewrite Hd|done].
  - exists i. split; [done|lia].
Qed.
Lemma new_blob_Ok sh s : separate (nheap s) -> Forall (Z.lt 0) sh -> shape_size sh <= INT_MAX ->
  exists h b, new_blob sh s = Ok (set_nheap h s, b) /\ separate h /\ same_but None (nheap s) h /\
    new_blob_at (next_id (nheap s)) (next_id h) h sh b.
Proof.
  intros Hs Hp Hm. pose proof (sep_ok _ Hs) as Hok. destruct (shape_count_Ok sh Hp Hm) as [Ec Hc].
  destruct (Reshape_Ok (nheap s) Blob_new sh Hok) as (h & b & E & _ & _ & Hw & Hsh & Hcnt & _ & Hcap & _ & Hd);
    [by split; simpl; [lia|]|done|done|]. simpl in Hcap, Hd.
  destruct (Reshape_separate _ _ _ _ _ Hs Hp Hm E) as (Hs' & Hk & _).
  exists h, b. unfold new_blob. rewrite E, bind_Ok. split; [done|]. split; [done|]. split; [done|].
  constructor; [done|done|lia|done|]. unfold Reshape in E. rewrite Ec, bind_Ok in E.
  assert ((capacity_ Blob_new <? shape_size sh) = true) as Hlt by (apply Z.ltb_lt; simpl; lia). rewrite Hlt in E.
  injection E as <- <-. simpl. exists (next_id (nheap s)). split; [done|lia].
Qed.

Lemma slice_blobs_Ok sh newsh dim n ks : Forall (Z.lt 0) newsh -> shape_size newsh <= INT_MAX ->
  (forall k, k ∈ ks -> slice_shape sh dim n k = Ok newsh) -> forall s, separate (nheap s) ->
  exists h vec gvec, slice_blobs sh dim n ks s = Ok (set_nheap h s, vec, gvec) /\ separate h /\
    same_but None (nheap s) h /\ next_id (nheap s) <= next_id h /\ length vec = length ks /\
    Forall (new_blob_at (next_id (nheap s)) (next_id h) h newsh) vec /\ NoDup (map data_ vec).
Proof.
  intros Hp Hm. induction ks as [|k ks IH]; intros Hks s Hs; cbn [slice_blobs].
  { exists (nheap s), [], []. replace (set_nheap (nheap s) s) with s by (by destruct s as [? ? []]).
    split; [done|]. split; [done|]. split; [done|]. split; [lia|]. split; [done|]. split; [by constructor|apply NoDup_nil_2]. }
  rewrite Hks, bind_Ok by left.
  destruct (new_blob_Ok newsh s Hs Hp Hm) as (h1 & b & -> & S1 & K1 & B1). rewrite bind_Ok.
  destruct (new_blob_Ok newsh (set_nheap h1 s) S1 Hp Hm) as (h2 & g & -> & S2 & K2 & B2). rewrite bind_Ok.
  destruct (IH (fun k' Hk => Hks k' (list_elem_of_further _ _ _ Hk)) (set_nheap h2 (set_nheap h1 s)) S2)
    as (h3 & vec & gvec & -> & S3 & K3 & N3 & L3 & F3 & D3).
  rewrite bind_Ok. simpl in K2, K3, B2, N3, F3. unfold nheap in K2, K3, B2, N3, F3. simpl in K2, K3, B2, N3, F3.
  destruct (nb_id _ _ _ _ _ B1) as (i1 & Hd1 & Hi1). destruct (nb_id _ _ _ _ _ B2) as (i2 & _ & Hi2).
  exists h3, (b :: vec), (g :: gvec). split; [done|]. split; [done|]. split; [by etrans; [|etrans]|].
  split; [lia|]. split; [simpl; by rewrite L3|]. split.
  - constructor; [eapply new_blob_at_weaken; [exact B1|by etrans|lia]|]. eapply Forall_impl; [|exact F3].
    intros b' [? ? ? ? (i' & ? & ?)]. constructor; try done. exists i'. split; [done|lia].
  - simpl. apply NoDup_cons_2; [|done]. rewrite Hd1. intros Hin.
    apply list_elem_of_fmap in Hin as (b' & Hd' & Hb'). rewrite list.Forall_forall in F3.
    destruct (nb_id _ _ _ _ _ (F3 _ Hb')) as (i' & ? & ?). assert (i' = i1) by congruence. lia.
Qed.

(** *** The slice layer *)
Lemma slice_index_Ok dsts : NoDup dsts -> forall n k dst i, (k < n)%nat -> dsts !! k = Some dst ->
  slice_index dst dsts n i = Ok (i + Z.of_nat k).
Proof.
  induction 1 as [|x l Hx Hnd IH]; intros n k dst i Hk Hl; [done|]. destruct n as [|n]; [lia|]. cbn [slice_index].
  destruct k as [|k]; simpl in Hl.
  - injection Hl as ->. rewrite Z.eqb_refl. f_equal. lia.
  - destruct (Z.eqb_spec x dst) as [->|_]; [by apply list_elem_of_lookup_2 in Hl|].
    rewrite (IH n k) by (done || lia). f_equal. lia.
Qed.

Lemma slice_shape_even d rest n k : 0 < d -> 0 < n -> d mod n = 0 -> d <= INT_MAX -> n <= INT_MAX ->
  slice_shape (d :: rest) 0 n k = Ok (d / n :: rest).
Proof.
  intros Hd Hn Hmod Hmax Hnm. unfold slice_shape. change (idx (d :: rest) 0) with (Ok d). rewrite bind_Ok, idiv_Ok, bind_Ok by lia.
  pose proof (Z.div_pos d n ltac:(lia) ltac:(lia)). pose proof (Z.div_le_upper_bound d n d ltac:(lia) ltac:(nia)).
  destruct (k =? n - 1); rewrite ?imod_Ok, ?Hmod by lia; rewrite bind_Ok; unfold iadd, INT_MAX in *;
    rewrite int_ret_Ok, bind_Ok by (unfold INT_MIN, INT_MAX; lia); rewrite Z.add_0_r; done.
Qed.

Lemma Reshape_new_Ok sh h : separate h -> Forall (Z.lt 0) sh -> shape_size sh <= INT_MAX ->
  exists h' b, Reshape Blob_new sh h = Ok (h', b) /\ separate h' /\ same_but None h h' /\ next_id h <= next_id h' /\
    shape_ b = sh /\ count_ b = shape_size sh.
Proof.
  intros Hs Hp Hm. destruct (Reshape_Ok h Blob_new sh (sep_ok _ Hs)) as (h' & b & E & _ & _ & _ & Hsh & Hcnt & _);
    [by split; simpl; [lia|]|done|done|].
  destruct (Reshape_separate _ _ _ _ _ Hs Hp Hm E) as (? & ? & ?). by exists h', b.
Qed.


(** A new slice layer [i] of [n] destinations, and its source, of shape [d :: rest]. *)
Record slice_ready (i : Z) (p : LayerProto) (n : Z) (s : nstate) (o : LayerObj) (b : Blob) (d : Z) (rest : list Z) : Prop := {
  sl_obj : objs s !! i = Some o;
  sl_class : oclass o = kSlice;
  sl_new : odata o = Blob_new /\ ograd o = Blob_new;
  sl_dsts : n = Z.of_nat (length (odsts o)) /\ 0 < n <= INT_MAX;
  sl_srcs : exists j oj, osrcs o = [j] /\ j <> i /\ objs s !! j = Some oj /\ plain_source oj = true;
  sl_dim : slice_conf p = 0;
  sl_src : src_data i 0 kPositive s = Ok b;
  sl_shape : shape_ b = d :: rest /\ Forall (Z.lt 0) (d :: rest) /\ shape_size (d :: rest) <= INT_MAX;
  sl_sep : separate (nheap s);
}.
Lemma src_data_ready i p n s o b d rest s' o' : slice_ready i p n s o b d rest ->
  objs s' !! i = Some o' -> osrcs o' = osrcs o -> (forall j, j <> i -> objs s' !! j = objs s !! j) ->
  src_data i 0 kPositive s' = Ok b.
Proof.
  intros [Ho _ _ _ (j & oj & Es & Hj & Hoj & Hp) _ Hb _ _] Ho' Es' Hother. rewrite <- Hb.
  eapply (src_data_plain i j o o' oj); try done; [by rewrite Es|by rewrite Hother].
Qed.

Lemma Slice_Setup_Ok i p n s o b d rest : slice_ready i p n s o b d rest -> d mod n = 0 ->
  exists s1 o1 vec gvec, Slice_Setup i p n s = Ok s1 /\ objs s1 !! i = Some o1 /\
    osub o1 = SliceSub 0 n vec gvec /\ oclass o1 = kSlice /\ osrcs o1 = osrcs o /\ odsts o1 = odsts o /\
    (forall j, j <> i -> objs s1 !! j = objs s !! j) /\
    separate (nheap s1) /\ same_but None (nheap s) (nheap s1) /\ length vec = Z.to_nat n /\ NoDup (map data_ vec) /\
    Forall (new_blob_at (next_id (nheap s)) (next_id (nheap s1)) (nheap s1) (d / n :: rest)) vec.
Proof.
  intros Hr Hmod. pose proof Hr as [Ho Hc [Hd Hg] [Hn Hn0] _ Hdim _ (Hsh & Hp & Hm) Hs].
  apply list.Forall_cons in Hp as Hp'. destruct Hp' as [Hd0 Hrest].
  assert (0 < shape_size rest) as Hr0. { clear -Hrest. unfold shape_size. induction Hrest; simpl; nia. }
  change (shape_size (d :: rest)) with (d * shape_size rest) in Hm.
  assert (d <= INT_MAX) as Hdm by nia.
  destruct (Reshape_new_Ok (d :: rest) (nheap s) Hs Hp Hm) as (h1 & b1 & E1 & S1 & K1 & N1 & Hb1 & Hc1).
  destruct (Reshape_new_Ok (d :: rest) h1 S1 Hp Hm) as (h2 & b2 & E2 & S2 & K2 & N2 & _).
  pose proof (Z.div_pos d n ltac:(lia) ltac:(lia)) as Hq0.
  assert (d = n * (d / n)) as Hdn by (pose proof (Z.div_mod d n); lia).
  assert (Forall (Z.lt 0) (d / n :: rest)) as Hpn by (constructor; [nia|done]).
  assert (shape_size (d / n :: rest) <= INT_MAX) as Hmn.
  { change (d / n * shape_size rest <= INT_MAX). nia. }
  set (o0 := set_proto p o). set (s0 := put_obj i o0 s).
  set (o2 := set_data b1 o0). set (s2 := set_nheap h1 (put_obj i o2 s0)).
  set (o3 := set_grad b2 o2). set (s3 := set_nheap h2 (put_obj i o3 s2)).
  destruct (slice_blobs_Ok (d :: rest) (d / n :: rest) 0 n (upto n) Hpn Hmn) with (s := s3)
    as (h4 & vec & gvec & E4 & S4 & K4 & N4 & L4 & F4 & D4); [|done|].
  { intros k _. apply slice_shape_even; lia. }
  exists (put_obj i (set_sub (SliceSub 0 n vec gvec) o3) (set_nheap h4 s3)), (set_sub (SliceSub 0 n vec gvec) o3), vec, gvec.
  assert (forall j, j <> i -> objs s3 !! j = objs s !! j) as Hother. { intros j Hj. simpl. by rewrite !lookup_insert_ne. }
  split; [|split; [apply lookup_insert_eq|split; [done|split; [done|split; [done|split; [done|split; [|split; [done|split]]]]]]]].
  - unfold Slice_Setup, Layer_Setup. rewrite (CHECK_holds (1 <=? n)) by (apply Z.leb_le; lia). rewrite bind_Ok, (update_obj_Ok _ _ _ _ Ho), bind_Ok, Hdim.
    cbv zeta. rewrite (CHECK_holds (0 <=? 0)), bind_Ok by done. fold o0 s0. rewrite (obj_Ok i o0) by apply lookup_insert_eq.
    rewrite bind_Ok, (CHECK_holds (_ =? _)), bind_Ok by (by apply Z.eqb_eq).
    rewrite (src_data_ready _ _ _ _ _ _ _ _ s0 o0 Hr (lookup_insert_eq _ _ _) eq_refl), bind_Ok, Hsh
      by (intros; simpl; by rewrite lookup_insert_ne).
    rewrite (reshape_data_Ok i o0 _ s0 h1 b1 (lookup_insert_eq _ _ _)), bind_Ok by (simpl; by rewrite Hd).
    fold o2 s2. rewrite (reshape_grad_Ok i o2 _ s2 h2 b2 (lookup_insert_eq _ _ _)), bind_Ok by (simpl; by rewrite Hg).
    fold o3 s3. rewrite (obj_Ok i o3), bind_Ok by apply lookup_insert_eq.
    simpl odata. rewrite Hc1, Hb1. change (shape_size (d :: rest)) with (d * shape_size rest).
    rewrite imod_Ok, bind_Ok by lia. rewrite (CHECK_holds (_ =? 0)), bind_Ok, E4, bind_Ok.
    2:{ apply Z.eqb_eq. rewrite Hdn, <- Z.mul_assoc, Z.mul_comm. apply Z.mod_mul. lia. }
    unfold set_members. rewrite (update_obj_Ok i o3); [done|]. apply lookup_insert_eq.
  - intros j Hj. simpl. rewrite lookup_insert_ne by done. by apply Hother.
  - change (same_but None (nheap s) h4). etrans; [exact K1|]. etrans; [exact K2|]. exact K4.
  - split; [|split; [done|]].
    + rewrite L4. unfold upto. rewrite length_fmap, length_seq. lia.
    + eapply Forall_impl; [|exact F4]. intros b' [? ? ? ? (k & ? & Hk)]. constructor; try done. exists k. split; [done|].
      change (next_id (nheap s3)) with (next_id h2) in Hk. change (next_id (nheap s) <= k < next_id h4). lia.
Qed.

Lemma Slice_ComputeFeature_Ok i s o b vs sz vec gvec : objs s !! i = Some o ->
  osub o = SliceSub 0 (Z.of_nat (length vec)) vec gvec -> length (osrcs o) = 1%nat -> (0 < length vec)%nat ->
  src_data i 0 kPositive s = Ok b -> (0 < sz)%nat -> length vs = (length vec * sz)%nat -> count_ b <= INT_MAX ->
  NoDup (map data_ (b :: vec)) -> Forall (fun b => count_ b = Z.of_nat sz) vec -> copied b vs sz vec 0 (nheap s) ->
  exists h, Slice_ComputeFeature i s = Ok (set_nheap h s) /\ copied b vs sz vec (length vec) h.
Proof.
  intros Ho Hu Hsrc Hvn Hb Hsz Hlen Hint Hnd Hvec H0.
  destruct (copy_slices_Ok b vs sz vec Hsz Hlen Hint Hnd Hvec (length vec) 0 (nheap s) H0 eq_refl) as (h & E & Hh).
  exists h. split; [|done]. unfold Slice_ComputeFeature, num_srcs. rewrite (obj_Ok _ _ _ Ho), !bind_Ok, Hsrc.
  change (CHECK _) with (Ok tt). rewrite !bind_Ok, Hu, Z.eqb_refl, Hb, bind_Ok.
  rewrite (holds_count _ _ _ (cp_src _ _ _ _ _ _ H0)), Hlen, idiv_Ok, bind_Ok by lia.
  rewrite Nat2Z.inj_mul, Z.mul_comm, Z.div_mul by lia. unfold upto. by rewrite Nat2Z.id, E, bind_Ok.
Qed.

(** C10. A slice layer.  When the number of destinations divides the first dimension of the
    source, [Setup] makes a blob for each destination, and [ComputeFeature] fills them with
    the consecutive parts of the source, which is what [data] gives the destinations. *)
Theorem Slice_layer (i : Z) (p : LayerProto) (n : Z) (s : nstate) (o : LayerObj) (b : Blob) (d : Z) (rest vs : list Z)
    (Hr : slice_ready i p n s o b d rest) (Hmod : d mod n = 0) (Hnd : NoDup (odsts o))
    (Hb : blob_holds (nheap s) b vs) (Hcount : count_ b = shape_size (d :: rest)) :
  exists s1 h, Slice_Setup i p n s = Ok s1 /\ Slice_ComputeFeature i s1 = Ok (set_nheap h s1) /\ separate h /\
    blob_holds h b vs /\
    forall k dst, odsts o !! k = Some dst -> exists bk, data (chain s1) i (Some dst) kPositive s1 = Ok bk /\
      shape_ bk = d / n :: rest /\ blob_holds h bk (chunk (Z.to_nat (d / n * shape_size rest)) k vs).
Proof.
  destruct (Slice_Setup_Ok _ _ _ _ _ _ _ _ Hr Hmod) as
    (s1 & o1 & vec & gvec & E1 & Ho1 & Hu & Hc & Hs1 & Hd1 & Hother & S1 & K1 & L1 & D1 & F1).
  destruct (sl_dsts _ _ _ _ _ _ _ _ Hr) as [Hn Hn0]. destruct (sl_shape _ _ _ _ _ _ _ _ Hr) as (_ & Hp & Hm).
  destruct (sl_srcs _ _ _ _ _ _ _ _ Hr) as (j & _ & Hsrc & _). apply list.Forall_cons in Hp as [Hd0 Hp].
  assert (0 < shape_size rest) as Hr0. { clear -Hp. unfold shape_size. induction Hp; simpl; nia. }
  change (shape_size (d :: rest)) with (d * shape_size rest) in *. assert (d = n * (d / n)) as Hdn by (pose proof (Z.div_mod d n); lia).
  assert (0 < d / n) by nia. set (sz := Z.to_nat (d / n * shape_size rest)). assert (Z.of_nat sz = d / n * shape_size rest) as Hsz by (unfold sz; nia).
  pose proof (holds_count _ _ _ Hb) as Hlen. rewrite list.Forall_forall in F1.
  destruct (Slice_ComputeFeature_Ok i s1 o1 b vs sz vec gvec Ho1) as (h & E2 & Hh).
  - by rewrite Hu, L1, Z2Nat.id by lia.
  - by rewrite Hs1, Hsrc.
  - lia.
  - by apply (src_data_ready _ _ _ _ _ _ _ _ s1 o1 Hr).
  - nia.
  - rewrite L1. nia.
  - lia.
  - simpl. apply NoDup_cons_2; [|done]. intros (b' & Hd & Hb')%list_elem_of_fmap.
    destruct (nb_id _ _ _ _ _ (F1 _ Hb')) as (k & Hk & Hk0). destruct Hb as [_ _ _ (k' & ? & Hk' & Hs' & _)].
    assert (k' = k) as -> by congruence. unfold sm_bytes in Hs'. destruct (sms (nheap s) !! k) eqn:Ek; [|done].
    pose proof (ok_sms _ (sep_ok _ (sl_sep _ _ _ _ _ _ _ _ Hr)) _ _ Ek). lia.
  - apply list.Forall_forall. intros b' Hb'. rewrite (nb_count _ _ _ _ _ (F1 _ Hb')), Hsz. done.
  - constructor; [done|eapply blob_holds_same; [exact K1|by eapply holds_data|done]| |lia].
    apply list.Forall_forall. intros b' Hb'. destruct (F1 _ Hb'). done.
  - exists s1, h. split; [done|]. split; [done|]. split; [by eapply cp_sep|]. split; [by eapply cp_src|]. intros k dst Hk.
    pose proof (lookup_lt_Some _ _ _ Hk) as Hlt. destruct (lookup_lt_is_Some_2 vec k) as [bk Hbk]; [lia|].
    exists bk. split; [|split; [eapply nb_shape, F1; by eapply list_elem_of_lookup_2|eapply cp_done; [done|lia|done]]].
    unfold chain. cbn [data]. rewrite (obj_Ok _ _ _ Ho1), bind_Ok, Hc, Hu. unfold slice_blob, SliceID.
    rewrite Hd1, (slice_index_Ok _ Hnd _ k) by (done || lia). rewrite bind_Ok, Z.add_0_l. by apply idx_lookup.
Qed.

(** Two floats cut in two. *)
Definition demo_slice_state : nstate :=
  mkNS {[0 := set_data demo_blob (LayerObj_new kTanh); 1 := set_dsts [2; 3] (set_srcs [0] (LayerObj_new kSlice))]} 4
    (mkWorld demo_heap ∅ 0 ∅).
Lemma demo_separate : separate demo_heap.
Proof.
  assert (forall i s, sms demo_heap !! i = Some s -> i = 0 /\ s = mkSM 1 8 HEAD_AT_CPU true) as H.
  { intros i s. simpl. rewrite lookup_singleton_Some. intros [? ?]. by subst. }
  constructor; [exact demo_heap_ok|..].
  - intros i j s t Hij [-> _]%H [-> _]%H. done.
  - intros i s [_ ->]%H. done.
  - intros i s [_ ->]%H _. done.
Qed.
Lemma Slice_layer_witness :
  exists s1 h, Slice_Setup 1 (LayerProto_default kSlice) 2 demo_slice_state = Ok s1 /\
    Slice_ComputeFeature 1 s1 = Ok (set_nheap h s1) /\
    exists b0 b1, data (chain s1) 1 (Some 2) kPositive s1 = Ok b0 /\ data (chain s1) 1 (Some 3) kPositive s1 = Ok b1 /\
      blob_holds h b0 [f32_of_Z 1] /\ blob_holds h b1 [f32_of_Z 2].
Proof.
  destruct (Slice_layer 1 (LayerProto_default kSlice) 2 demo_slice_state
    (set_dsts [2; 3] (set_srcs [0] (LayerObj_new kSlice))) demo_blob 2 [] demo_floats) as (s1 & h & E1 & E2 & _ & _ & H).
  - constructor; try done.
    + exists 0, (set_data demo_blob (LayerObj_new kTanh)). done.
    + split; [done|]. split; [by repeat constructor|done].
    + exact demo_separate.
  - done.
  - apply NoDup_cons_2; [by rewrite list_elem_of_singleton|apply NoDup_singleton].
  - exact demo_blob_holds.
  - done.
  - exists s1, h. split; [exact E1|]. split; [exact E2|].
    destruct (H 0%nat 2 eq_refl) as (b0 & D0 & _ & H0), (H 1%nat 3 eq_refl) as (b1 & D1 & _ & H1).
    exists b0, b1. split; [exact D0|]. split; [exact D1|]. split; [exact H0|exact H1].
Defined.

(** [Setup] checks the number of values, not the first dimension: 6 values of shape (3, 2)
    make two slices of 2 and 4 values, and [ComputeFeature] copies 3 values into each. *)
Definition odd_slice_state : outcome nstate :=
  '(h, b) ← Reshape Blob_new [3; 2] empty_heap;
  Ok (mkNS {[0 := set_data b (LayerObj_new kTanh); 1 := set_dsts [2; 3] (set_srcs [0] (LayerObj_new kSlice))]} 4
        (mkWorld h ∅ 0 ∅)).
Lemma Slice_overflow : exists s1,
  (s ← odd_slice_state; Slice_Setup 1 (LayerProto_default kSlice) 2 s) = Ok s1 /\ Slice_ComputeFeature 1 s1 = Undef.
Proof. eexists. split; [vm_compute; reflexivity|vm_compute; reflexivity]. Qed.
