(* ===== verification/LayerShapes.v ===== *)
(** * Shapes: slices and their concatenation, inner products *)

From S2P Require Import Prelude Float32 Msg Format Memory Param Server Worker LayerConf Layers LayersProps LayerCompute.

(** ** Shapes *)
Definition at_dim (pre : list Z) (x : Z) (post : list Z) : list Z := pre ++ x :: post.
Lemma concate_shape_at pre a b post : INT_MIN <= a + b <= INT_MAX -> forall j,
  concate_shape (j + Z.of_nat (length pre)) j (at_dim pre a post) (at_dim pre b post) = Ok (at_dim pre (a + b) post).
Proof.
  intros Hab. assert (forall dim l j, dim < j -> concate_shape dim j l l = Ok l) as Hrest.
  { intros dim. induction l as [|x l IH]; intros j Hj; [done|]. cbn [concate_shape].
    rewrite (proj2 (Z.eqb_neq j dim)), Z.eqb_refl by lia. simpl CHECK. rewrite !bind_Ok, IH by lia. done. }
  unfold at_dim. induction pre as [|x pre IH]; intros j; simpl app; cbn [concate_shape length].
  - rewrite Z.add_0_r, Z.eqb_refl. unfold iadd. rewrite int_ret_Ok, bind_Ok, Hrest by (done || lia). done.
  - rewrite (proj2 (Z.eqb_neq _ _)), Z.eqb_refl by lia. simpl CHECK. rewrite !bind_Ok.
    replace (j + Z.of_nat (S (length pre))) with (j + 1 + Z.of_nat (length pre)) by lia. by rewrite IH, bind_Ok.
Qed.
Lemma slice_shape_at pre d post n k : 0 <= d <= INT_MAX -> 0 < n <= INT_MAX ->
  slice_shape (at_dim pre d post) (Z.of_nat (length pre)) n k =
    Ok (at_dim pre (d / n + (if k =? n - 1 then d mod n else 0)) post).
Proof.
  intros Hd Hn. unfold slice_shape, at_dim. rewrite (idx_lookup _ _ d), bind_Ok, idiv_Ok, bind_Ok by
    (lia || by apply list_lookup_middle).
  pose proof (Z.div_pos d n ltac:(lia) ltac:(lia)). pose proof (Z.mod_pos_bound d n ltac:(lia)).
  pose proof (Z.div_mod d n ltac:(lia)).
  assert (d / n + d mod n <= d) by nia.
  destruct (k =? n - 1); rewrite ?imod_Ok by lia; rewrite bind_Ok; unfold iadd, INT_MAX in *;
    rewrite int_ret_Ok, bind_Ok, set_idx_Ok by (rewrite ?length_app; simpl; unfold INT_MIN, INT_MAX; lia);
    rewrite Nat2Z.id, insert_app_r_alt, Nat.sub_diag by lia; done.
Qed.

(** Slicing and concatenation are inverse on shapes: a concatenation layer whose
    sources have the shapes of the slices has the shape that was sliced, in any
    dimension and whether or not the number of slices divides it. *)
Theorem slice_concate_shapes (i n : Z) (s : nstate) (pre : list Z) (d : Z) (post : list Z)
    (Hd : 0 <= d <= INT_MAX) (Hn : 0 < n <= INT_MAX)
    (Hsrc : forall k, 0 <= k < n -> exists b, src_data i k kPositive s = Ok b /\
       slice_shape (at_dim pre d post) (Z.of_nat (length pre)) n k = Ok (shape_ b)) :
  exists b0, src_data i 0 kPositive s = Ok b0 /\
    concate_srcs i (Z.of_nat (length pre)) (drop 1 (upto n)) (shape_ b0) s = Ok (at_dim pre d post).
Proof.
  pose proof (Z.div_pos d n ltac:(lia) ltac:(lia)). pose proof (Z.mod_pos_bound d n ltac:(lia)).
  pose proof (Z.div_mod d n ltac:(lia)).
  assert (forall m k, (k + m = Z.to_nat n)%nat -> (0 < k)%nat ->
    concate_srcs i (Z.of_nat (length pre)) (Z.of_nat <$> seq k m)
      (at_dim pre (Z.of_nat k * (d / n) + (if Z.of_nat k =? n then d mod n else 0)) post) s = Ok (at_dim pre d post)) as Hall.
  { induction m as [|m IH]; intros k Hk Hk0.
    - simpl. rewrite (proj2 (Z.eqb_eq _ _)) by lia. do 2 f_equal. nia.
    - simpl seq. simpl fmap. cbn [concate_srcs]. destruct (Hsrc (Z.of_nat k)) as (b & -> & Hb); [lia|].
      rewrite slice_shape_at in Hb by lia. rewrite bind_Ok. injection Hb as <-.
      rewrite (proj2 (Z.eqb_neq (Z.of_nat k) n)), Z.add_0_r by lia.
      rewrite <- (Z.add_0_l (Z.of_nat (length pre))) at 1. unfold INT_MAX in *.
      rewrite concate_shape_at, bind_Ok by (unfold INT_MIN, INT_MAX; destruct (_ =? _); nia).
      rewrite <- (IH (S k)) by lia. f_equal. f_equal.
      replace (Z.of_nat k =? n - 1) with (Z.of_nat (S k) =? n) by (destruct (Z.eqb_spec (Z.of_nat (S k)) n), (Z.eqb_spec (Z.of_nat k) (n - 1)); done || lia).
      lia. }
  destruct (Hsrc 0) as (b0 & E0 & Hb0); [lia|]. exists b0. split; [done|].
  rewrite slice_shape_at in Hb0 by lia.
  replace (0 =? n - 1) with (Z.of_nat 1 =? n) in Hb0 by (destruct (Z.eqb_spec (Z.of_nat 1) n), (Z.eqb_spec 0 (n - 1)); done || lia).
  assert (shape_ b0 = at_dim pre (d / n + (if Z.of_nat 1 =? n then d mod n else 0)) post) as -> by congruence.
  rewrite <- (Hall (Z.to_nat n - 1)%nat 1%nat) by lia.
  unfold upto. replace (Z.to_nat n) with (S (Z.to_nat n - 1)) at 1 by lia. simpl drop. f_equal. f_equal.
  lia.
Qed.
Definition demo_concate_state : nstate :=
  mkNS {[0 := set_data (mkBlob None [2; 3] 6 6 0) (LayerObj_new kTanh);
         1 := set_data (mkBlob None [3; 3] 9 9 0) (LayerObj_new kTanh); 2 := set_srcs [0; 1] (LayerObj_new kConcate)]} 3
    (mkWorld empty_heap ∅ 0 ∅).
Lemma slice_concate_shapes_witness :
  exists b0, src_data 2 0 kPositive demo_concate_state = Ok b0 /\
    concate_srcs 2 0 (drop 1 (upto 2)) (shape_ b0) demo_concate_state = Ok [5; 3].
Proof.
  apply (slice_concate_shapes 2 2 demo_concate_state [] 5 [3]); [done|done|].
  intros k Hk. assert (k = 0 \/ k = 1) as [-> | ->] by lia; eexists; split; reflexivity.
Defined.

(** *** Inner products *)
Lemma Reshape_total b sh h : Forall (Z.lt 0) sh -> shape_size sh <= INT_MAX ->
  exists h' b', Reshape b sh h = Ok (h', b') /\ shape_ b' = sh /\ count_ b' = shape_size sh /\
    blobs h' = blobs h /\ next_id h <= next_id h'.
Proof.
  intros Hp Hm. unfold Reshape. destruct (shape_count_Ok sh Hp Hm) as [-> _]. rewrite bind_Ok.
  case_match; eexists _, _; (split; [done|]); simpl; split_and!; done || lia.
Qed.

(** The param [q] has values and gradients of shape [sh]. *)
Definition param_shaped (s : nstate) (q : Z) (sh : list Z) : Prop :=
  exists P i b, params (nworld s) !! q = Some P /\ pdata P = Some i /\ blobs (nheap s) !! i = Some b /\
    i < next_id (nheap s) /\ shape_ b = sh /\ count_ b = shape_size sh /\ shape_ (Param.grad P) = sh.
Lemma new_param_Ok pr sh s : Forall (Z.lt 0) sh -> shape_size sh <= INT_MAX ->
  exists s', new_param pr sh s = Ok (s', next_param (nworld s)) /\ objs s' = objs s /\
    next_param (nworld s') = next_param (nworld s) + 1 /\ param_shaped s' (next_param (nworld s)) sh /\
    forall q sh', q < next_param (nworld s) -> param_shaped s q sh' -> param_shaped s' q sh'.
Proof.
  intros Hp Hm. unfold new_param, Param.Setup, Blob_make. change (hp (nworld s)) with (nheap s).
  destruct (Reshape_total Blob_new sh (nheap s) Hp Hm) as (h1 & b1 & -> & S1 & C1 & B1 & N1). rewrite bind_Ok.
  set (h1' := mkHeap _ _ _ _ _).
  destruct (Reshape_total (Param.grad Param_new) sh h1' Hp Hm) as (h2 & b2 & -> & S2 & _ & B2 & N2). rewrite bind_Ok.
  destruct (Reshape_total (history Param_new) sh h2 Hp Hm) as (h3 & b3 & -> & _ & _ & B3 & N3). rewrite !bind_Ok.
  eexists. split; [done|]. split; [done|]. split; [done|]. simpl in N2. split.
  - eexists _, (next_id h1), b1. simpl. rewrite lookup_insert_eq. split; [done|]. split; [done|]. unfold nheap. simpl.
    rewrite B3, B2. simpl. rewrite lookup_insert_eq. split; [done|]. split; [lia|done].
  - intros q sh' Hq (P & i & b & HP & Hi & Hb & Hlt & Hsh). exists P, i, b. simpl.
    rewrite lookup_insert_ne by lia. split; [done|]. split; [done|]. unfold nheap in *. simpl. rewrite B3, B2. simpl.
    rewrite lookup_insert_ne, B1 by lia. split; [done|]. split; [lia|done].
Qed.

(** C36. Types of an inner product layer.  Its [Setup] succeeds on a source of any positive
    shape and gives the layer, its weights and its bias the shapes the product
    [data = src * weight + bias] needs: of [num_output] features a partition gets the
    quotient by the number of partitions, so the remainder is lost. *)
Theorem InnerProduct_types (i : Z) (p : LayerProto) (np : Z) (s : nstate) (o : LayerObj) (j : Z) (oj : LayerObj)
    (b : Blob) (d : Z) (rest : list Z) (p0 p1 : ParamProto) (ps : list ParamProto)
    (Ho : objs s !! i = Some o) (Hsrcs : osrcs o = [j]) (Hj : objs s !! j = Some oj) (Hij : j <> i)
    (Hplain : plain_source oj = true) (Hb : src_data i 0 kPositive s = Ok b) (Hshape : shape_ b = d :: rest)
    (Hpos : Forall (Z.lt 0) (d :: rest)) (Hcount : count_ b = shape_size (d :: rest)) (Hps : lp_params p = p0 :: p1 :: ps)
    (Hnp : 0 < np) :
  let vdim := shape_size rest in
  let hdim := if 0 <? lp_pdim p then innerproduct_conf p / np else innerproduct_conf p in
  0 < hdim -> d * hdim <= INT_MAX -> vdim * hdim <= INT_MAX ->
  exists s1 o1 w bias, InnerProduct_Setup i p np s = Ok s1 /\ objs s1 !! i = Some o1 /\
    osub o1 = InnerProductSub hdim vdim d w bias /\ w <> bias /\
    shape_ (odata o1) = [d; hdim] /\ shape_ (Layers.ograd o1) = [d; hdim] /\
    param_shaped s1 w [vdim; hdim] /\ param_shaped s1 bias [hdim] /\ count_ b = d * vdim.
Proof.
  intros vdim hdim Hh Hm1 Hm2. apply list.Forall_cons in Hpos as [Hd Hrest].
  change (shape_size (d :: rest)) with (d * vdim) in Hcount.
  assert (0 < vdim) as Hv. { clear -Hrest. subst vdim. unfold shape_size. induction Hrest; simpl; nia. }
  assert (forall a c, 0 < a -> 0 < c -> Forall (Z.lt 0) [a; c] /\ shape_size [a; c] = a * c) as H2.
  { intros a c ??. split; [by repeat constructor|]. unfold shape_size. simpl. lia. }
  set (o0 := set_proto p o). set (s0 := put_obj i o0 s).
  destruct (H2 d hdim Hd Hh) as [P1 Z1]. destruct (H2 vdim hdim Hv Hh) as [P2 Z2].
  destruct (Reshape_total (odata o0) [d; hdim] (nheap s0) P1) as (h1 & b1 & E1 & S1 & _); [lia|].
  set (o1 := set_data b1 o0). set (s1 := set_nheap h1 (put_obj i o1 s0)).
  destruct (Reshape_total (Layers.ograd o1) [d; hdim] (nheap s1) P1) as (h2 & b2 & E2 & S2 & _); [lia|].
  set (o2 := set_grad b2 o1). set (s2 := set_nheap h2 (put_obj i o2 s1)).
  destruct (new_param_Ok p0 [vdim; hdim] s2 P2) as (s3 & E3 & O3 & N3 & W3 & _); [lia|].
  assert (Forall (Z.lt 0) [hdim]) as P4 by by repeat constructor.
  destruct (new_param_Ok p1 [hdim] s3 P4) as (s4 & E4 & O4 & N4 & W4 & K4); [unfold shape_size; simpl; nia|].
  assert (objs s4 !! i = Some o2) as Ho4 by (rewrite O4, O3; apply lookup_insert_eq).
  set (w := next_param (nworld s2)) in *. set (bias := next_param (nworld s3)) in *.
  exists (put_obj i (set_sub (InnerProductSub hdim vdim d w bias) o2) s4), (set_sub (InnerProductSub hdim vdim d w bias) o2), w, bias.
  split; [|split; [apply lookup_insert_eq|split; [done|split; [lia|split; [done|split; [done|split; [|done]]]]]]].
  2:{ apply K4; [lia|done]. }
  unfold InnerProduct_Setup, Layer_Setup, num_srcs. rewrite (CHECK_holds (1 <=? np)) by lia.
  rewrite bind_Ok, (update_obj_Ok _ _ _ _ Ho), bind_Ok. fold o0 s0.
  assert (objs s0 !! i = Some o0) as Ho0 by apply lookup_insert_eq.
  rewrite (obj_Ok _ _ _ Ho0), !bind_Ok. simpl osrcs. rewrite Hsrcs. simpl length. simpl CHECK. rewrite bind_Ok.
  rewrite (src_data_plain i j o o0 oj 0 kPositive s s0), Hb, bind_Ok, Hshape;
    [|done|done|done|done|by rewrite Hsrcs|done|simpl; by rewrite lookup_insert_ne].
  change (idx (d :: rest) 0) with (Ok d). rewrite bind_Ok, (idiv_Ok (count_ b) d), bind_Ok by (rewrite ?Hcount; nia).
  assert (0 <= innerproduct_conf p) as Hc.
  { destruct (0 <? lp_pdim p); subst hdim; [|lia]. destruct (Z.le_gt_cases 0 (innerproduct_conf p)); [done|].
    pose proof (Z.div_lt_upper_bound (innerproduct_conf p) np 0). lia. }
  assert ((if 0 <? lp_pdim p then idiv (innerproduct_conf p) np else Ok (innerproduct_conf p)) = Ok hdim) as ->.
  { subst hdim. destruct (0 <? lp_pdim p); [by apply idiv_Ok|done]. }
  rewrite bind_Ok, (reshape_data_Ok _ _ _ _ _ _ Ho0 E1), bind_Ok. fold o1 s1.
  assert (objs s1 !! i = Some o1) as Ho1 by apply lookup_insert_eq.
  rewrite (obj_Ok _ _ _ Ho1), bind_Ok. simpl odata. rewrite S1, (reshape_grad_Ok _ _ _ _ _ _ Ho1 E2), bind_Ok. fold o2 s2.
  rewrite Hps. change (idx (p0 :: p1 :: ps) 0) with (Ok p0). change (idx (p0 :: p1 :: ps) 1) with (Ok p1).
  rewrite Hcount, (Z.mul_comm d), Z.div_mul, !bind_Ok, E3, !bind_Ok, E4, bind_Ok by lia.
  unfold set_members. by rewrite (update_obj_Ok _ _ _ _ Ho4).
Qed.
Definition demo_ip_proto : LayerProto :=
  mkLayerProto "ip" kInnerProduct (Some 1) 0 ["x"] [ParamProto_default; ParamProto_default] [] "unknow" (InnerProductConf 5).
Definition demo_ip_state : nstate :=
  mkNS {[0 := set_data (mkBlob None [2; 3] 6 6 0) (LayerObj_new kTanh); 1 := set_srcs [0] (LayerObj_new kInnerProduct)]} 2
    (mkWorld empty_heap ∅ 0 ∅).
(** Five features, two partitions: each gets two. *)
Lemma InnerProduct_types_witness :
  exists s1 o1 w bias, InnerProduct_Setup 1 demo_ip_proto 2 demo_ip_state = Ok s1 /\ objs s1 !! 1 = Some o1 /\
    osub o1 = InnerProductSub 2 3 2 w bias /\ w <> bias /\
    shape_ (odata o1) = [2; 2] /\ shape_ (Layers.ograd o1) = [2; 2] /\
    param_shaped s1 w [3; 2] /\ param_shaped s1 bias [2] /\ 6 = 2 * 3.
Proof.
  apply (InnerProduct_types 1 demo_ip_proto 2 demo_ip_state (set_srcs [0] (LayerObj_new kInnerProduct)) 0
    (set_data (mkBlob None [2; 3] 6 6 0) (LayerObj_new kTanh)) (mkBlob None [2; 3] 6 6 0) 2 [3]
    ParamProto_default ParamProto_default []); try done.
  by repeat constructor.
Defined.
